(* ===== verification/_CoqProject ===== *)
-Q . S2P
Prelude.v
Bits.v
Isa.v
IsaProps.v
Hart.v
Machine.v
Mmu.v
Csr.v
Exec.v
Arch.v
RamProps.v
Tlb.v
TlbStore.v
HartProps.v
CsrProps.v
ExecProps.v
Loops.v
Device.v
Timer.v
Plic.v
Aclint.v
Uart.v
UartProps.v
Virtio.v
VirtioBlk.v
VirtioRng.v
VirtioProps.v
Platform.v
Atomics.v
Frame.v
PlatformLaws.v
Emulator.v
SbiProps.v
LoopProps.v
DmaProps.v
InputCodes.v
InputEvent.v
Ring.v
InputConc.v
InputQueue.v
VirtioInput.v
InputProps.v
VgpuDisplay.v
VgpuConc.v
VgpuProps.v
Window.v
WindowProps.v
GpuDefs.v
GpuEdid.v
VirtioGpuSw.v
VirtioGpu.v
GpuProps.v
GpuSafe.v
GpuEscape.v
GpuTheorems.v
VirtioFs.v
FsProps.v
VirtioSnd.v
SndProps.v
VirtioNet.v
NetProps.v
Vmnet.v
Slirp.v
Full.v
FullProps.v
FullBus.v
Coro.v
CoroProps.v
Boot.v
BootProps.v
FullBoot.v
Lifecycle.v
Sim.v
SimInput.v
SimNet.v
SimGpu.v
SimFs.v
SimSnd.v
SimWindow.v
SimFull.v
