(* ===== verification/Prelude.v ===== *)
(** * semu: a verification development of the semu RISC-V system emulator

    semu runs Linux on an emulated RV32IMA machine with Sv32 paging: riscv.c is
    the processor (decoder, ALU, MMU with its caches, CSRs, traps, interpreter),
    ram.c guest memory, plic.c, aclint.c, uart.c and the virtio-*.c files the
    devices, vgpu-display.c the bridge to the window, utils.c the clock, and main.c
    the memory map, the SBI firmware, start-up and the loops that run the harts, as
    coroutines of coro.c when there are several; window-sw.c is the SDL window. This
    library is a shallow embedding of that code in state-passing style: C integers are [Z] with explicit wrap-around,
    structs are records updated with [r <| field := v |>], pointers into guest RAM
    are byte offsets, an out-parameter a callee may leave unassigned is an
    [option], an exception is the error state of the hart as in the source.

    ** Files

    - [Prelude]: machine integers, bit lemmas, record updates, C arrays, the hint
      databases. [Bits]: a reflective decision procedure for equalities of
      bit-vector expressions.
    - [Isa] (riscv.c decoders, decode_insn, op_mul, op_rv32i; riscv_private.h),
      [IsaProps].
    - [Hart] (riscv.h, vm_set_exception, hart_trap, mmu_invalidate,
      mmu_invalidate_range, vm_init), [HartProps].
    - [Machine] (ram.c, and the [Bus] class: the callbacks a hart calls),
      [RamProps] (the three RAM access paths of riscv.c compute ram.c).
    - [Mmu] (mmu_set to mmu_store), [Arch] (the architectural view that forgets
      the caches, the contract [BusLaws] between core and bus), [Tlb], [TlbStore].
    - [Csr] (op_sret, op_privileged to op_system), [CsrProps].
    - [Exec] (op_jmp to vm_step, both forms of vm_step_many), [ExecProps].
    - [Loops]: loops over the harts.
    - [Device] (structs of device.h; the classes [Host] and [Coro] of what the
      operating system and the coroutine library provide), [Timer] (utils.c),
      [Plic], [Aclint], [Uart] with [UartProps], [Virtio] (virtio.h),
      [VirtioBlk], [VirtioRng], [VirtioProps].
    - [Platform] (the memory map and interrupt wiring of main.c as the [Bus]
      instance), [Frame] and [PlatformLaws] (that it satisfies [BusLaws]),
      [Atomics] (LR/SC across harts).
    - [Emulator] (SBI calls, semu_step_chunk, semu_step, the single-hart
      semu_run, hart_exec_loop, the SMP poll decision, INIT_HART, the GDB register
      access), [SbiProps], [LoopProps].
    - [DmaProps] (what a device's memory accesses leave alone, for any device
      state), [Ring] (single-producer single-consumer ring buffers).
    - virtio-input: [InputCodes] (virtio-input-codes.h, the key table),
      [InputEvent] (virtio-input-event.c and the event part of window-sw.c),
      [InputConc] (its queues as a machine of two threads), [InputQueue],
      [VirtioInput] (virtio-input.c), [InputProps].
    - The display bridge: [VgpuDisplay] (vgpu-display.c), [VgpuConc] (emulator and
      window thread as a step machine), [VgpuProps].
    - virtio-gpu: [GpuDefs] (virtio-gpu.h, requests and responses), [GpuEdid] (the
      EDID block), [VirtioGpuSw] (virtio-gpu-sw.c), [VirtioGpu] (the rest of
      virtio-gpu.c); [GpuProps] (the invariant, transfers), [GpuSafe], [GpuEscape]
      (every handler and register keeps it), [GpuTheorems].
    - virtio-net: [VirtioNet] (virtio-net.c, netdev.c), [NetProps]; its back ends
      [Vmnet] (netdev-vmnet.c, with the dispatch queue and the emulator's thread as a
      step machine) and [Slirp] (slirp.c, the TAP and user parts of netdev.c, the
      polling round of main.c).
    - virtio-fs: [VirtioFs] (virtio-fs.c, fuse.h), [FsProps].
    - virtio-snd: [VirtioSnd] (virtio-snd.c: the device, and its TX thread and
      PortAudio's callback as step functions), [SndProps].
    - [Full] (main.c: the memory map, interrupt lines and poll of the build with
      every device), [FullProps], [FullBus] (that map as the bus of the core).
    - The window: [Window] (window-sw.c), [WindowProps].
    - [Coro] (coro.c: the assembly of the context switch on registers and memory,
      the table of coroutines), [CoroProps].
    - [Boot] (main.c: options, images, semu_init, the SMP loop, the debugger's
      target, main), [BootProps]; [FullBoot] (semu_init of the build with every
      device).
    - [Lifecycle] (main.c, window-sw.c: the main thread, the emulator's thread and the
      signal handler from the start of the threads to the end of main).
    - [Sim], [SimInput], [SimNet], [SimGpu], [SimFs], [SimSnd],
      [SimWindow], [SimFull]: concrete hosts and machines on which the theorems are
      instantiated.

    A mapped definition is preceded by a comment with the source file, the lines
    and the symbol it translates.

    ** State

    [machine D] is what a function of riscv.c reaches through its [hart_t *]:
    the running hart, the array of harts, RAM, and the device state [D]; main.c
    instantiates [D] with [emu_state_t E], [E] being the state of the host.
    virtio-input, virtio-net, virtio-gpu, virtio-fs and virtio-snd are modelled on
    machines of their own ([machine input_dev], [machine (net_dev E)] and so on): they
    share RAM and the hart's error state with the rest and nothing else. [Full] has
    all of them on one machine, [machine (full_dev ...)], where [zoom] runs an
    operation of one device. The window's state is [window_st W], [W] that of SDL; the
    coroutines' [coro_sys]; [Lifecycle]'s [proc] has the flags, the wake pipe and the
    program counters of both threads and of the handler on each. The
    running hart's slot of the array is stale while it runs; [hart_at] and
    [upd_hart] account for it and [focus] switches harts. Undefined behaviour the
    code can reach is recorded in flags: [ram_oob], [disk_oob],
    [vblk_config_oob], [div_zero], [host_oob] (a copy outside a host allocation),
    [bad_free] and their like in the other devices. Code of two threads is modelled as the sequentially consistent
    interleavings of its accesses to shared variables.

    ** What is shown

    - The caches are invisible: [mmu_load] and [mmu_store], with last-entry
      caches, TLBs and host pointers, refine a walk of the page tables plus a bus
      access on every coherent machine; loads and all privileged operations keep
      the machine coherent; the memory map of main.c satisfies the contract these
      theorems assume. For instruction fetch the corresponding statement is false:
      [Sim] exhibits the counterexample.
    - The instruction set: decoders invert encoders, the ALU and the M extension
      compute the ISA's functions, the threaded dispatcher agrees with the
      portable interpreter, quotas are exact, traps and SRET are inverse, CSRs
      read back legalised values, user mode is contained, store-conditional is
      exclusive across harts.
    - The devices: PLIC claim/complete protocol, timer compare registers, UART
      output queue, virtio-blk termination, bounds and round trip; virtio-input's
      typing, all-or-nothing delivery, the order of drained events, its queues and
      wake gate under every interleaving; virtio-net's packets as byte streams, and
      where its checks fail; vmnet's packets cross its pipe whole and in order while no
      write ends short; SLIRP's poll table is never overrun and polls what the library
      asks for; virtio-gpu's isolation (no guest leaves RAM or a host
      buffer), exact transfers and flushes, the EDID block; ownership and staleness
      of frames in the display bridge; the paths virtio-fs hands to the host, and how
      LOOKUP leaves the shared directory; virtio-snd's frame queue as a byte stream
      and its stream states under every interleaving, and the race of RELEASE.
    - The platform: in every state that loads, stores, polls and device threads can
      reach, the interrupt line of each virtio device agrees with its status; no device
      depends on the hart's caches, so the map with every device is a lawful bus.
    - The window: the SDL objects alive are those it holds, and draining the bridge
      shows what was published.
    - The firmware and loops: hart masks of IPI and remote fences, timer calls,
      probing, what makes the execution chunk return and when it does not, the
      poll decision of the SMP scheduler, its fairness; the context switch restores
      what the ABI requires and at most one coroutine runs; a successful start-up
      establishes what the other theorems assume, and with every device it leaves the
      same machine, the additional devices apart.
    - Shutdown: under every interleaving of threads and signals no closed descriptor is
      used and no wake-up by a signal is lost, and once the end is asked for both
      threads come to it.

    ** Bounds and fuel

    [run_loop] recurses on the instruction quota, which every dispatch consumes.
    [mask_loop] has 32 rounds, the width of the mask; [blk_process] 65536, the
    largest distance of 16-bit ring indices; [flush_loop] the length of the buffer,
    since every round writes a byte or leaves: each is proved enough. The drain of
    virtio-input has a round per queued command and one more, a status queue pass
    the ring distance plus one, [pop_cmd_loop] 64 rounds (the ring), emptying the
    bridge 128 (ring and clears), proved enough; a GPU chain has three descriptors
    and a notification as many chains as the ring distance. A chain of virtio-net
    has explicit fuel and returns [None] without it, since a cyclic one never ends,
    and so do the operations of [Full] that reach it. A PCM message has 65536
    descriptors ([chain_fuel]), the largest number of them; the drain of the window
    128 rounds, proved enough; [semu_run_smp] a number of scheduling rounds.
    [net_vmnet_read] has explicit fuel, since it spins until the data of a packet is
    complete; two rounds are proved enough when it is in the pipe. That the steps of
    [Lifecycle] end is shown by a measure, without fuel.
    [semu_step_chunk] has explicit fuel and returns [None] without it, because it
    need not terminate: [LoopProps] has both the condition under which it returns
    and the case in which it never does.

    ** Not modelled

    The build is the one with GCC's computed goto and no MMU_CACHE_STATS, on Linux
    (netdev-vmnet.c apart, which is the macOS back end).
    The theorems about the processor core are for any lawful bus, which both the map of
    [Platform], with virtio-blk and virtio-rng, and that of [Full] are; those about the
    firmware and the loops are for [Platform]. Clock, terminal, entropy, network,
    files, allocator, PortAudio, SDL, getopt, poll and the debugger's library are
    parameters ([Host], [NetHost], [FsHost], [SndHost], [GpuHost], [Sdl], [SdlVideo],
    [SlirpHost], [VmnetHost]
    and those of [Boot]), and so are libslirp and the vmnet framework. The ucontext
    fallback of coro.c, the macOS timers and the statistics are calls of libraries and
    are left out. [Lifecycle] has the number of ticks of a round as a choice, no
    debugger, and no handler that is interrupted by a second signal on its thread. A
    control message of virtio-snd is one step of its thread system. The coherence
    theorems are for machines whose UART does not switch coroutines ([NoCoro]: a single
    hart). Weak memory orders are not modelled. feature.h only selects what is compiled.

    ** Plan

    What remains: the firmware and the loops on the machine of [Full], several harts in
    the coherence theorems, and a corrected fetch path with its refinement. *)

From stdpp Require Import base gmap list.
From Stdlib Require Import ZArith Lia Bool.
Open Scope Z_scope.

(** ** Machine integers

    A C unsigned integer of width [w] is a [Z] in [[0, 2^w)]; every operation
    that can leave the range wraps explicitly.  [s32] and friends are the
    value-preserving reinterpretation [(int32_t) x]. *)

Definition u8 (x : Z) : Z := x mod 2 ^ 8.
Definition u16 (x : Z) : Z := x mod 2 ^ 16.
Definition u32 (x : Z) : Z := x mod 2 ^ 32.
Definition u64 (x : Z) : Z := x mod 2 ^ 64.

Definition sext (w x : Z) : Z :=
  let y := x mod 2 ^ w in if y <? 2 ^ (w - 1) then y else y - 2 ^ w.
Definition s8 (x : Z) : Z := sext 8 x.
Definition s16 (x : Z) : Z := sext 16 x.
Definition s32 (x : Z) : Z := sext 32 x.
Definition s64 (x : Z) : Z := sext 64 x.

(** [MASK(n)] of common.h: the low [n] bits set. *)
Definition MASK (n : Z) : Z := u32 (Z.lnot (Z.shiftl (2 ^ 32 - 1) n)).

(** [~x] on [uint32_t]. *)
Definition not32 (x : Z) : Z := u32 (Z.lnot x).

(** [x << n] on [uint32_t], [x >> n] on an unsigned value is [Z.shiftr]. *)
Definition shl32 (x n : Z) : Z := u32 (Z.shiftl x n).

(** C's implicit [x != 0] test. *)
Definition nz (x : Z) : bool := negb (x =? 0).

(** [b ? 1 : 0]. *)
Definition b2z (b : bool) : Z := if b then 1 else 0.

(** [ilog2] of common.h: [31 - __builtin_clz(x | 1)]. *)
Definition ilog2 (x : Z) : Z := Z.log2 (Z.lor x 1).

Definition is_u32 (x : Z) : Prop := 0 <= x < 2 ^ 32.

Example MASK_ex : (MASK 5, MASK 12, MASK 31) = (31, 4095, 2147483647).
Proof. vm_compute. reflexivity. Qed.

(** ** Bit-level reasoning *)

Lemma testbit_u (w x n : Z) : 0 <= w -> 0 <= n ->
  Z.testbit (x mod 2 ^ w) n = (n <? w) && Z.testbit x n.
Proof.
  intros Hw Hn. destruct (Z.ltb_spec n w); cbn.
  - by rewrite Z.mod_pow2_bits_low.
  - by rewrite Z.mod_pow2_bits_high by lia.
Qed.

Lemma testbit_small (w y n : Z) : 0 <= w <= n -> 0 <= y < 2 ^ w ->
  Z.testbit y n = false.
Proof.
  intros Hw Hy. rewrite <- (Z.mod_small y (2 ^ w)) by lia.
  apply Z.mod_pow2_bits_high. lia.
Qed.

Lemma testbit_neg_high (w z n : Z) : 0 <= w <= n -> - 2 ^ w <= z < 0 ->
  Z.testbit z n = true.
Proof.
  intros Hw Hz. apply Z.testbit_true; [lia|].
  assert (2 ^ w <= 2 ^ n) by (apply Z.pow_le_mono_r; lia).
  replace (z / 2 ^ n) with (-1); [done|].
  apply (Z.div_unique z (2 ^ n) (-1) (z + 2 ^ n)); lia.
Qed.

Lemma testbit_sext (w x n : Z) : 0 < w -> 0 <= n ->
  Z.testbit (sext w x) n = Z.testbit x (if n <? w then n else w - 1).
Proof.
  intros Hw Hn. unfold sext.
  set (y := x mod 2 ^ w).
  assert (Hp : 2 ^ w = 2 * 2 ^ (w - 1)).
  { rewrite <- Z.pow_succ_r by lia. f_equal. lia. }
  assert (Hpos : 0 < 2 ^ (w - 1)) by (apply Z.pow_pos_nonneg; lia).
  assert (Hy : 0 <= y < 2 ^ w) by (apply Z.mod_pos_bound; lia).
  assert (Hlow : forall z k, z mod 2 ^ w = y -> 0 <= k < w ->
            Z.testbit z k = Z.testbit x k).
  { intros z k Hz Hk. rewrite <- (Z.mod_pow2_bits_low z w k) by lia.
    rewrite Hz. apply Z.mod_pow2_bits_low. lia. }
  assert (Htop : Z.testbit x (w - 1) = negb (y <? 2 ^ (w - 1))).
  { rewrite <- (Hlow y (w - 1)) by (unfold y; rewrite ?Z.mod_mod; lia).
    destruct (Z.ltb_spec y (2 ^ (w - 1))); cbn.
    - apply (testbit_small (w - 1)); lia.
    - apply Z.testbit_true; [lia|].
      replace (y / 2 ^ (w - 1)) with 1; [done|].
      apply (Z.div_unique y (2 ^ (w - 1)) 1 (y - 2 ^ (w - 1))); lia. }
  destruct (Z.ltb_spec n w).
  - destruct (y <? 2 ^ (w - 1)); apply Hlow; try lia.
    + unfold y. rewrite Z.mod_mod; lia.
    + rewrite <- (Z.mod_add (y - 2 ^ w) 1 (2 ^ w)) by lia.
      rewrite Z.mod_small; lia.
  - rewrite Htop. destruct (y <? 2 ^ (w - 1)) eqn:E; cbn.
    + apply (testbit_small w); lia.
    + apply (testbit_neg_high w); lia.
Qed.

Lemma u32_range (x : Z) : is_u32 (u32 x).
Proof. apply Z.mod_pos_bound. lia. Qed.

Lemma u32_id (x : Z) : is_u32 x -> u32 x = x.
Proof. apply Z.mod_small. Qed.

Lemma u32_u32 (x : Z) : u32 (u32 x) = u32 x.
Proof. apply u32_id, u32_range. Qed.

Lemma testbit_u32 (x n : Z) : 0 <= n -> Z.testbit (u32 x) n = (n <? 32) && Z.testbit x n.
Proof. intros. unfold u32. apply testbit_u; lia. Qed.

Lemma testbit_u16 (x n : Z) : 0 <= n -> Z.testbit (u16 x) n = (n <? 16) && Z.testbit x n.
Proof. intros. unfold u16. apply testbit_u; lia. Qed.

Lemma testbit_u8 (x n : Z) : 0 <= n -> Z.testbit (u8 x) n = (n <? 8) && Z.testbit x n.
Proof. intros. unfold u8. apply testbit_u; lia. Qed.

Lemma testbit_s32 (x n : Z) : 0 <= n ->
  Z.testbit (s32 x) n = Z.testbit x (if n <? 32 then n else 31).
Proof. intros. unfold s32. rewrite testbit_sext by lia. done. Qed.

Lemma testbit_s16 (x n : Z) : 0 <= n ->
  Z.testbit (s16 x) n = Z.testbit x (if n <? 16 then n else 15).
Proof. intros. unfold s16. rewrite testbit_sext by lia. done. Qed.

Lemma testbit_s8 (x n : Z) : 0 <= n ->
  Z.testbit (s8 x) n = Z.testbit x (if n <? 8 then n else 7).
Proof. intros. unfold s8. rewrite testbit_sext by lia. done. Qed.

Lemma testbit_u32_high (x n : Z) : is_u32 x -> 32 <= n -> Z.testbit x n = false.
Proof. intros Hx Hn. apply (testbit_small 32); unfold is_u32 in *; lia. Qed.

(** Two 32-bit values are equal when their 32 bits are. *)
Lemma u32_bits_inj (x y : Z) : is_u32 x -> is_u32 y ->
  (forall n, 0 <= n < 32 -> Z.testbit x n = Z.testbit y n) -> x = y.
Proof.
  intros Hx Hy Heq. apply Z.bits_inj'. intros n Hn.
  destruct (Z.lt_ge_cases n 32); [by apply Heq|].
  by rewrite !testbit_u32_high.
Qed.

Lemma land_range (w x y : Z) : 0 <= w -> 0 <= x < 2 ^ w -> 0 <= y -> 0 <= Z.land x y < 2 ^ w.
Proof.
  intros Hw Hx Hy. split; [apply Z.land_nonneg; lia|].
  destruct (Z.eq_dec (Z.land x y) 0) as [->|]; [lia|].
  apply Z.log2_lt_pow2.
  { assert (0 <= Z.land x y) by (apply Z.land_nonneg; lia). lia. }
  eapply Z.le_lt_trans; [apply Z.log2_land; lia|].
  eapply Z.le_lt_trans; [apply Z.le_min_l|].
  destruct (Z.eq_dec x 0) as [->|].
  { exfalso. by rewrite Z.land_0_l in *. }
  apply Z.log2_lt_pow2; lia.
Qed.

Lemma lor_range (w x y : Z) : 0 <= w -> 0 <= x < 2 ^ w -> 0 <= y < 2 ^ w ->
  0 <= Z.lor x y < 2 ^ w.
Proof.
  intros Hw Hx Hy. split; [apply Z.lor_nonneg; lia|].
  destruct (Z.eq_dec x 0) as [->|]; [rewrite Z.lor_0_l; lia|].
  destruct (Z.eq_dec y 0) as [->|]; [rewrite Z.lor_0_r; lia|].
  assert (0 <= Z.lor x y) by (apply Z.lor_nonneg; lia).
  apply Z.log2_lt_cancel. rewrite Z.log2_lor, Z.log2_pow2 by lia.
  apply Z.max_lub_lt; apply Z.log2_lt_pow2; lia.
Qed.

Lemma lxor_range (w x y : Z) : 0 <= w -> 0 <= x < 2 ^ w -> 0 <= y < 2 ^ w ->
  0 <= Z.lxor x y < 2 ^ w.
Proof.
  intros Hw Hx Hy.
  assert (H : Z.lxor x y = Z.lxor x y mod 2 ^ w).
  { apply Z.bits_inj'. intros n Hn. rewrite testbit_u by lia.
    destruct (Z.ltb_spec n w); [done|]. cbn.
    rewrite Z.lxor_spec, !(testbit_small w) by lia. done. }
  rewrite H. apply Z.mod_pos_bound. lia.
Qed.

Lemma shiftr_range (w n x : Z) : 0 <= n <= w -> 0 <= x < 2 ^ w ->
  0 <= Z.shiftr x n < 2 ^ (w - n).
Proof.
  intros Hn Hx. rewrite Z.shiftr_div_pow2 by lia.
  assert (0 < 2 ^ n) by (apply Z.pow_pos_nonneg; lia).
  split; [apply Z.div_pos; lia|].
  apply Z.div_lt_upper_bound; [lia|]. rewrite <- Z.pow_add_r by lia.
  replace (n + (w - n)) with w by lia. lia.
Qed.

Lemma land_is_u32_l (x y : Z) : is_u32 x -> 0 <= y -> is_u32 (Z.land x y).
Proof. apply land_range; lia. Qed.
Lemma land_is_u32_r (x y : Z) : 0 <= x -> is_u32 y -> is_u32 (Z.land x y).
Proof. rewrite Z.land_comm. intros. by apply land_is_u32_l. Qed.
Lemma lor_is_u32 (x y : Z) : is_u32 x -> is_u32 y -> is_u32 (Z.lor x y).
Proof. apply lor_range; lia. Qed.
Lemma lxor_is_u32 (x y : Z) : is_u32 x -> is_u32 y -> is_u32 (Z.lxor x y).
Proof. apply lxor_range; lia. Qed.
Lemma shiftr_is_u32 (x n : Z) : 0 <= n <= 32 -> is_u32 x -> is_u32 (Z.shiftr x n).
Proof.
  intros Hn Hx. destruct (shiftr_range 32 n x) as [H1 H2]; [lia|done|].
  split; [done|]. eapply Z.lt_le_trans; [done|]. apply Z.pow_le_mono_r; lia.
Qed.

Create HintDb semu.
Create Rewrite HintDb semu.
#[export] Hint Resolve u32_range lor_is_u32 lxor_is_u32 land_is_u32_l land_is_u32_r
  shiftr_is_u32 : semu.
#[export] Hint Extern 2 (is_u32 _) => (unfold is_u32; lia) : semu.
#[export] Hint Extern 3 (_ <= _) => lia : semu.
#[export] Hint Extern 3 (_ <= _ <= _) => lia : semu.

Lemma land_ones32 (x n : Z) : 0 <= n <= 32 -> Z.land x (MASK n) = x mod 2 ^ n.
Proof.
  intros Hn. rewrite <- Z.land_ones by lia. f_equal. unfold MASK.
  apply Z.bits_inj'. intros i Hi. rewrite testbit_u32, Z.lnot_spec, Z.shiftl_spec by lia.
  destruct (Z.ltb_spec i 32) as [Hlt|Hge]; cbn.
  - change (2 ^ 32 - 1) with (Z.ones 32).
    destruct (Z.lt_ge_cases i n).
    + rewrite Z.testbit_neg_r, Z.ones_spec_low by lia. done.
    + rewrite !Z.ones_spec_low, Z.ones_spec_high by lia. done.
  - by rewrite Z.ones_spec_high by lia.
Qed.

(** ** Record update

    [r <| f := v |>] is the C assignment [r->f = v]. A mutable struct declares
    its [Eta] expansion once, and every field gets a [Setter] instance built
    from it by [solve_setter], so that reading a field of an updated struct
    reduces by computation. *)

Class Eta (R : Type) := eta : R -> R.
Class Setter {R T : Type} (proj : R -> T) := setter : T -> R -> R.
Arguments setter {R T} proj {_} v r.

Notation "r <| f := v |>" := (setter f v r)
  (at level 1, left associativity, f at level 9, v at level 200,
   format "r  <| f  :=  v |>").

Ltac solve_setter :=
  match goal with
  | |- @Setter ?R ?T ?proj =>
      exact (fun (v : T) (r : R) => ltac:(
        let t := eval hnf in (eta r) in
        match eval pattern (proj r) in t with
        | ?g _ => let u := eval cbv beta in (g v) in exact u
        end))
  end.

(** ** C arrays

    An array indexed by an in-range [Z]; [d] stands for what an out-of-range
    read would return (never reached in a well-formed state), an out-of-range
    write is dropped. *)

Definition arr_get {A} (d : A) (l : list A) (i : Z) : A := default d (l !! Z.to_nat i).
Definition arr_set {A} (l : list A) (i : Z) (v : A) : list A := <[Z.to_nat i := v]> l.

Lemma length_arr_set {A} (l : list A) i v : length (arr_set l i v) = length l.
Proof. apply length_insert. Qed.

Lemma arr_get_set_eq {A} (d : A) l i v : 0 <= i < Z.of_nat (length l) ->
  arr_get d (arr_set l i v) i = v.
Proof. intros Hi. unfold arr_get, arr_set. by rewrite list_lookup_insert_eq by lia. Qed.

Lemma arr_get_set_ne {A} (d : A) l i j v : 0 <= i -> 0 <= j -> i <> j ->
  arr_get d (arr_set l i v) j = arr_get d l j.
Proof. intros. unfold arr_get, arr_set. by rewrite list_lookup_insert_ne by lia. Qed.

Lemma arr_get_map {A B} (d : A) (d' : B) (f : A -> B) l i : f d = d' ->
  arr_get d' (f <$> l) i = f (arr_get d l i).
Proof. intros <-. unfold arr_get. rewrite list_lookup_fmap. by destruct (l !! _). Qed.

Lemma arr_get_replicate {A} (d : A) n i : arr_get d (replicate n d) i = d.
Proof.
  unfold arr_get. destruct (replicate n d !! Z.to_nat i) eqn:E; [|done].
  by apply lookup_replicate in E as [-> _].
Qed.

Lemma arr_get_Forall {A} (P : A -> Prop) d l i : P d -> Forall P l -> P (arr_get d l i).
Proof.
  intros Hd Hl. unfold arr_get. destruct (l !! Z.to_nat i) eqn:E; [|done].
  by eapply Forall_lookup_1.
Qed.

#[export] Hint Rewrite @length_arr_set @arr_get_replicate : semu.

(** ** Checking ranges by computation *)
Definition is_u32b (x : Z) : bool := (0 <=? x) && (x <? 2 ^ 32).

Lemma is_u32b_true x : is_u32b x = true -> is_u32 x.
Proof. unfold is_u32b, is_u32. intros H. apply andb_prop in H as [H1 H2]. lia. Qed.

Lemma Forall_u32b l : forallb is_u32b l = true -> Forall is_u32 l.
Proof.
  induction l as [|x l IH]; cbn; [constructor|]. intros H. apply andb_prop in H as [H1 H2].
  constructor; [by apply is_u32b_true|by apply IH].
Qed.
