(* ===== verification/Bits.v ===== *)
(** * A reflective decision procedure for equations between bit expressions

    The decoders, the memory lanes and the page-table walk of the emulator are
    built from masks and constant shifts.  An equation between two such
    expressions is decided here bit by bit: both sides are reified into [bexp],
    every bit of a [bexp] is a propositional formula [bform] over the bits of
    the variables, and two formulas are compared by Shannon expansion. *)

From stdpp Require Import base list.
From Stdlib Require Import ZArith Lia Bool.
From S2P Require Import Prelude.
Open Scope Z_scope.

(** Formulas over atoms "bit [i] of variable [k]". *)
Inductive bform :=
| FTrue | FFalse
| FAtom (k : nat) (i : Z)
| FNot (f : bform)
| FAnd (f g : bform)
| FOr (f g : bform)
| FXor (f g : bform).

Section Semantics.
Variable env : list Z.

Definition bvar (k : nat) : Z := nth k env 0.

Fixpoint fval (f : bform) : bool :=
  match f with
  | FTrue => true
  | FFalse => false
  | FAtom k i => Z.testbit (bvar k) i
  | FNot f => negb (fval f)
  | FAnd f g => fval f && fval g
  | FOr f g => fval f || fval g
  | FXor f g => xorb (fval f) (fval g)
  end.
End Semantics.

(** Smart constructors that absorb constants. *)
Definition fnot f := match f with FTrue => FFalse | FFalse => FTrue | _ => FNot f end.
Definition fand f g :=
  match f, g with
  | FFalse, _ | _, FFalse => FFalse
  | FTrue, h | h, FTrue => h
  | _, _ => FAnd f g
  end.
Definition for_ f g :=
  match f, g with
  | FTrue, _ | _, FTrue => FTrue
  | FFalse, h | h, FFalse => h
  | _, _ => FOr f g
  end.
Definition fxor f g :=
  match f, g with
  | FFalse, h | h, FFalse => h
  | FTrue, h | h, FTrue => fnot h
  | _, _ => FXor f g
  end.

Lemma fnot_ok env f : fval env (fnot f) = negb (fval env f).
Proof. by destruct f. Qed.
Lemma fand_ok env f g : fval env (fand f g) = fval env f && fval env g.
Proof. destruct f, g; cbn; rewrite ?andb_true_r, ?andb_false_r; done. Qed.
Lemma for_ok env f g : fval env (for_ f g) = fval env f || fval env g.
Proof. destruct f, g; cbn; rewrite ?orb_true_r, ?orb_false_r; done. Qed.
Lemma fxor_ok env f g : fval env (fxor f g) = xorb (fval env f) (fval env g).
Proof.
  destruct f, g; cbn; repeat destruct (fval _ _); repeat destruct (Z.testbit _ _); done.
Qed.

(** Substitute a truth value for one atom. *)
Fixpoint fsubst (k : nat) (i : Z) (b : bool) (f : bform) : bform :=
  match f with
  | FTrue => FTrue
  | FFalse => FFalse
  | FAtom k' i' => if (Nat.eqb k k' && (i =? i'))%bool then (if b then FTrue else FFalse) else f
  | FNot f => fnot (fsubst k i b f)
  | FAnd f g => fand (fsubst k i b f) (fsubst k i b g)
  | FOr f g => for_ (fsubst k i b f) (fsubst k i b g)
  | FXor f g => fxor (fsubst k i b f) (fsubst k i b g)
  end.

Lemma fsubst_ok env k i f :
  fval env (fsubst k i (Z.testbit (bvar env k) i) f) = fval env f.
Proof.
  induction f; cbn; rewrite ?fnot_ok, ?fand_ok, ?for_ok, ?fxor_ok; try congruence.
  destruct (Nat.eqb_spec k k0), (Z.eqb_spec i i0); cbn; try done.
  subst. by destruct (Z.testbit _ _).
Qed.

Fixpoint first_atom (f : bform) : option (nat * Z) :=
  match f with
  | FTrue | FFalse => None
  | FAtom k i => Some (k, i)
  | FNot f => first_atom f
  | FAnd f g | FOr f g | FXor f g =>
      match first_atom f with Some a => Some a | None => first_atom g end
  end.

Fixpoint feqb (fuel : nat) (f g : bform) : bool :=
  match f, g with
  | FTrue, FTrue | FFalse, FFalse => true
  | _, _ =>
      match fuel, first_atom (FAnd f g) with
      | S fuel, Some (k, i) =>
          feqb fuel (fsubst k i true f) (fsubst k i true g) &&
          feqb fuel (fsubst k i false f) (fsubst k i false g)
      | _, _ => false
      end
  end.

Lemma feqb_ok env fuel f g : feqb fuel f g = true -> fval env f = fval env g.
Proof.
  revert f g. induction fuel as [|fuel IH]; intros f g H.
  { by destruct f, g. }
  assert (Hs : f = g \/ exists k i,
    feqb fuel (fsubst k i true f) (fsubst k i true g) &&
    feqb fuel (fsubst k i false f) (fsubst k i false g) = true).
  { destruct f, g; try (by left); right; cbn [feqb] in H;
      destruct (first_atom _) as [[k' i']|]; try discriminate; eauto. }
  destruct Hs as [->|(k & i & Hs)]; [done|].
  apply andb_prop in Hs as [H1 H2]. apply IH in H1, H2.
  rewrite <- (fsubst_ok env k i f), <- (fsubst_ok env k i g).
  by destruct (Z.testbit _ _).
Qed.

(** Bit expressions. [BVar k w] is variable [k], known to fit in [w] bits. *)
Inductive bexp :=
| BVar (k : nat) (w : Z)
| BConst (c : Z)
| BAnd (a b : bexp)
| BOr (a b : bexp)
| BXor (a b : bexp)
| BNot (a : bexp)
| BShl (a : bexp) (n : Z)
| BShr (a : bexp) (n : Z)
| BWrap (w : Z) (a : bexp)
| BSext (w : Z) (a : bexp).

Fixpoint beval (env : list Z) (e : bexp) : Z :=
  match e with
  | BVar k _ => bvar env k
  | BConst c => c
  | BAnd a b => Z.land (beval env a) (beval env b)
  | BOr a b => Z.lor (beval env a) (beval env b)
  | BXor a b => Z.lxor (beval env a) (beval env b)
  | BNot a => Z.lnot (beval env a)
  | BShl a n => Z.shiftl (beval env a) n
  | BShr a n => Z.shiftr (beval env a) n
  | BWrap w a => beval env a mod 2 ^ w
  | BSext w a => sext w (beval env a)
  end.

Fixpoint bok (env : list Z) (e : bexp) : Prop :=
  match e with
  | BVar k w => 0 <= w /\ 0 <= bvar env k < 2 ^ w
  | BConst _ => True
  | BAnd a b | BOr a b | BXor a b => bok env a /\ bok env b
  | BNot a => bok env a
  | BShl a n | BShr a n => 0 <= n /\ bok env a
  | BWrap w a => 0 <= w /\ bok env a
  | BSext w a => 0 < w /\ bok env a
  end.

Fixpoint bbit (e : bexp) (i : Z) : bform :=
  match e with
  | BVar k w => if i <? w then FAtom k i else FFalse
  | BConst c => if Z.testbit c i then FTrue else FFalse
  | BAnd a b => fand (bbit a i) (bbit b i)
  | BOr a b => for_ (bbit a i) (bbit b i)
  | BXor a b => fxor (bbit a i) (bbit b i)
  | BNot a => fnot (bbit a i)
  | BShl a n => if i <? n then FFalse else bbit a (i - n)
  | BShr a n => bbit a (i + n)
  | BWrap w a => if i <? w then bbit a i else FFalse
  | BSext w a => bbit a (if i <? w then i else w - 1)
  end.

Lemma bbit_ok env e i : bok env e -> 0 <= i ->
  Z.testbit (beval env e) i = fval env (bbit e i).
Proof.
  revert i. induction e; intros i; cbn [beval bok bbit]; intros Hok Hi;
    rewrite ?Z.land_spec, ?Z.lor_spec, ?Z.lxor_spec, ?Z.lnot_spec,
      ?fand_ok, ?for_ok, ?fxor_ok, ?fnot_ok by done.
  all: try match type of Hok with _ /\ _ => destruct Hok as [Hok1 Hok2] end.
  - destruct (Z.ltb_spec i w); [done|]. apply (testbit_small w); lia.
  - by destruct (Z.testbit c i).
  - by rewrite IHe1, IHe2.
  - by rewrite IHe1, IHe2.
  - by rewrite IHe1, IHe2.
  - by rewrite IHe.
  - rewrite Z.shiftl_spec by done. destruct (Z.ltb_spec i n).
    + by rewrite Z.testbit_neg_r by lia.
    + apply IHe; [done|lia].
  - rewrite Z.shiftr_spec by done. apply IHe; [done|lia].
  - rewrite testbit_u by done. destruct (i <? w); cbn; [by apply IHe|done].
  - rewrite testbit_sext by done. apply IHe; [done|].
    destruct (Z.ltb_spec i w); lia.
Qed.

(** A bound on the highest bit that can be set. *)
Fixpoint bwidth (e : bexp) : option Z :=
  match e with
  | BVar _ w => Some w
  | BConst c => if c <? 0 then None else Some (Z.log2 c + 1)
  | BAnd a b =>
      match bwidth a, bwidth b with
      | Some x, Some y => Some (Z.min x y)
      | Some x, None | None, Some x => Some x
      | None, None => None
      end
  | BOr a b | BXor a b =>
      match bwidth a, bwidth b with
      | Some x, Some y => Some (Z.max x y)
      | _, _ => None
      end
  | BNot _ => None
  | BShl a n => match bwidth a with Some x => Some (x + n) | None => None end
  | BShr a n => match bwidth a with Some x => Some (Z.max 0 (x - n)) | None => None end
  | BWrap w a => Some (match bwidth a with Some x => Z.min x w | None => w end)
  | BSext _ _ => None
  end.

Lemma bwidth_ok env e w : bok env e -> bwidth e = Some w ->
  forall i, w <= i -> 0 <= i -> Z.testbit (beval env e) i = false.
Proof.
  revert w. induction e; intros w'; cbn [beval bok bwidth]; intros Hok Hw i Hi Hi0.
  all: repeat match goal with
    | H : _ /\ _ |- _ => destruct H
    | H : context [match bwidth ?e with _ => _ end] |- _ => destruct (bwidth e) eqn:?
    | H : Some _ = Some _ |- _ => injection H as H; subst
    | H : bok ?r ?e, IH : bok ?r ?e -> _ |- _ => specialize (IH H)
    | H : bok ?r ?e, IH : forall w, bok ?r ?e -> _ |- _ =>
        specialize (fun w => IH w H); cbn beta in IH
    | IH : forall w, Some ?x = Some w -> _ |- _ => specialize (IH x eq_refl)
    end; try discriminate.
  - apply (testbit_small w'); lia.
  - destruct (Z.ltb_spec c 0); [done|]. injection Hw as <-.
    pose proof (Z.log2_nonneg c). apply Z.bits_above_log2; lia.
  - rewrite Z.land_spec. destruct (Z.min_spec z z0) as [[? E]|[? E]]; rewrite E in Hi.
    + by rewrite IHe1.
    + by rewrite IHe2, andb_false_r.
  - by rewrite Z.land_spec, IHe1.
  - by rewrite Z.land_spec, IHe2, andb_false_r.
  - by rewrite Z.lor_spec, IHe1, IHe2 by lia.
  - by rewrite Z.lxor_spec, IHe1, IHe2 by lia.
  - rewrite Z.shiftl_spec by done.
    destruct (Z.lt_ge_cases (i - n) 0); [by apply Z.testbit_neg_r|apply IHe; lia].
  - rewrite Z.shiftr_spec by done. apply IHe; lia.
  - rewrite testbit_u by done. destruct (Z.ltb_spec i w); cbn; [apply IHe; lia|done].
  - rewrite testbit_u by done. destruct (Z.ltb_spec i w'); cbn; [lia|done].
Qed.

(** The checker: both sides fit in [W] bits and agree on each of them. *)
Definition beq (W : Z) (a b : bexp) : bool :=
  match bwidth a, bwidth b with
  | Some x, Some y =>
      (x <=? W) && (y <=? W) &&
      forallb (fun i => feqb 24 (bbit a i) (bbit b i)) (seqZ 0 W)
  | _, _ => false
  end.

Lemma beq_sound W a b env : bok env a -> bok env b -> beq W a b = true ->
  beval env a = beval env b.
Proof.
  intros Ha Hb H. unfold beq in H.
  destruct (bwidth a) as [x|] eqn:Ex; [|done].
  destruct (bwidth b) as [y|] eqn:Ey; [|done].
  rewrite !andb_true_iff, !Z.leb_le in H. destruct H as [[Hx Hy] H].
  apply Z.bits_inj'. intros i Hi.
  destruct (Z.lt_ge_cases i W) as [Hlt|Hge].
  - rewrite !bbit_ok by done. apply (feqb_ok _ 24).
    rewrite List.forallb_forall in H. apply H.
    apply list_elem_of_In, elem_of_seqZ. lia.
  - erewrite !bwidth_ok by (eauto || lia). done.
Qed.

(** Conversion unfolds the reified side first. *)
#[global] Strategy -1000 [beval bvar nth].

(** ** Reification *)

Ltac is_pconst p :=
  lazymatch p with
  | xH => idtac
  | xO ?q => is_pconst q
  | xI ?q => is_pconst q
  end.
Ltac is_zconst e :=
  lazymatch e with
  | Z0 => idtac
  | Zpos ?p => is_pconst p
  | Zneg ?p => is_pconst p
  end.

Ltac zconst t k fk :=
  lazymatch t with
  | context [Z.testbit] => fk ()
  | _ => first [ let c := eval vm_compute in t in is_zconst c; k c | fk () ]
  end.

Ltac env_add x l :=
  lazymatch l with
  | context [x :: _] => l
  | _ => let l' := eval cbv [app] in (l ++ [x])%list in l'
  end.
Ltac env_pos x l :=
  lazymatch l with
  | x :: _ => constr:(0%nat)
  | _ :: ?l' => let n := env_pos x l' in constr:(S n)
  end.

Ltac is_closed_z t := let c := eval vm_compute in t in is_zconst c.

Ltac collect t l :=
  lazymatch t with
  | Z.land ?a ?b => let l := collect a l in collect b l
  | Z.lor ?a ?b => let l := collect a l in collect b l
  | Z.lxor ?a ?b => let l := collect a l in collect b l
  | Z.lnot ?a => collect a l
  | Z.shiftl ?a _ => collect a l
  | Z.shiftr ?a _ => collect a l
  | ?a mod _ => collect a l
  | sext _ ?a => collect a l
  | _ => match goal with
         | _ => let _ := match goal with _ => is_closed_z t end in l
         | _ => env_add t l
         end
  end.

Ltac width_of x :=
  match goal with
  | H : is_u32 x |- _ => constr:(32)
  | H : 0 <= x < 2 ^ ?w |- _ => constr:(w)
  | _ => fail 100 "bits: no range hypothesis for" x
  end.

Ltac reify t l :=
  lazymatch t with
  | Z.land ?a ?b => let x := reify a l in let y := reify b l in constr:(BAnd x y)
  | Z.lor ?a ?b => let x := reify a l in let y := reify b l in constr:(BOr x y)
  | Z.lxor ?a ?b => let x := reify a l in let y := reify b l in constr:(BXor x y)
  | Z.lnot ?a => let x := reify a l in constr:(BNot x)
  | Z.shiftl ?a ?n => let x := reify a l in constr:(BShl x n)
  | Z.shiftr ?a ?n => let x := reify a l in constr:(BShr x n)
  | ?a mod (2 ^ ?w) => let x := reify a l in constr:(BWrap w x)
  | sext ?w ?a => let x := reify a l in constr:(BSext w x)
  | _ => match goal with
         | _ => let _ := match goal with _ => is_closed_z t end in constr:(BConst t)
         | _ => let k := env_pos t l in let w := width_of t in constr:(BVar k w)
         end
  end.

(** [bits] proves an equation between bit expressions whose variables have a
    range hypothesis in the context. *)
(** Range facts of the variables come from [is_u32] or [0 <= x < 2 ^ w]. *)
Ltac bits_unfold :=
  cbv beta delta [u8 u16 u32 u64 s8 s16 s32 s64 shl32 not32].
Ltac bits :=
  intros; bits_unfold;
  lazymatch goal with
  | |- ?a = ?b =>
      let l := collect a (@nil Z) in
      let l := collect b l in
      let ra := reify a l in
      let rb := reify b l in
      let H := fresh "H" in
      assert (H : beval l ra = beval l rb);
      [ apply (beq_sound 64);
        [ cbn [bok bvar nth]; unfold is_u32 in *; repeat split; first [ assumption | lia | vm_compute; first [ reflexivity | discriminate ] ]
        | cbn [bok bvar nth]; unfold is_u32 in *; repeat split; first [ assumption | lia | vm_compute; first [ reflexivity | discriminate ] ]
        | vm_compute; reflexivity ]
      | cbn [beval bvar nth] in H; exact H ]
  end.
