(* ===== verification/Isa.v ===== *)
(** * Instruction set: constants, instruction decoding and the integer ALU

    Models riscv_private.h and the decoding and ALU functions of riscv.c. A
    32-bit instruction word is a [Z]; every decoder is the source's mask and
    shift expression. The theorems relate them to the RISC-V manual: each
    immediate decoder is the sign-extended concatenation of its fields and
    inverts the corresponding encoder, the packed [decoded_insn_t] loses
    nothing, and the ALU computes the RV32IM functions. *)

From stdpp Require Import base list.
From Stdlib Require Import ZArith Lia Bool.
From S2P Require Import Prelude Bits.
Open Scope Z_scope.

(** ** Constants *)

(* [riscv_private.h:4-17] *)
Definition RV32_OP_IMM := 0x13.
Definition RV32_OP := 0x33.
Definition RV32_LUI := 0x37.
Definition RV32_AUIPC := 0x17.
Definition RV32_JAL := 0x6f.
Definition RV32_JALR := 0x67.
Definition RV32_BRANCH := 0x63.
Definition RV32_LOAD := 0x03.
Definition RV32_STORE := 0x23.
Definition RV32_MISC_MEM := 0x0f.
Definition RV32_SYSTEM := 0x73.
Definition RV32_AMO := 0x2f.

(* [riscv_private.h:19-28] *)
Definition RV_MEM_LB := 0.
Definition RV_MEM_LH := 1.
Definition RV_MEM_LW := 2.
Definition RV_MEM_LBU := 4.
Definition RV_MEM_LHU := 5.
Definition RV_MEM_SB := 0.
Definition RV_MEM_SH := 1.
Definition RV_MEM_SW := 2.

(* [riscv_private.h:31-40] *)
Definition RV_R_A0 := 10.
Definition RV_R_A1 := 11.
Definition RV_R_A2 := 12.
Definition RV_R_A3 := 13.
Definition RV_R_A4 := 14.
Definition RV_R_A5 := 15.
Definition RV_R_A6 := 16.
Definition RV_R_A7 := 17.

(* [riscv_private.h:43-48] *)
Definition RV_CSR_TIME := 0xC01.
Definition RV_CSR_INSTRET := 0xC02.
Definition RV_CSR_TIMEH := 0xC81.
Definition RV_CSR_INSTRETH := 0xC82.

(* [riscv_private.h:51-71] *)
Definition RV_CSR_SSTATUS := 0x100.
Definition RV_CSR_SIE := 0x104.
Definition RV_CSR_STVEC := 0x105.
Definition RV_CSR_SCOUNTEREN := 0x106.
Definition RV_CSR_SENVCFG := 0x10A.
Definition RV_CSR_SSCRATCH := 0x140.
Definition RV_CSR_SEPC := 0x141.
Definition RV_CSR_SCAUSE := 0x142.
Definition RV_CSR_STVAL := 0x143.
Definition RV_CSR_SIP := 0x144.
Definition RV_CSR_SATP := 0x180.

(* [riscv_private.h:74-90] *)
Definition RV_EXC_PC_MISALIGN := 0.
Definition RV_EXC_FETCH_FAULT := 1.
Definition RV_EXC_ILLEGAL_INSN := 2.
Definition RV_EXC_BREAKPOINT := 3.
Definition RV_EXC_LOAD_MISALIGN := 4.
Definition RV_EXC_LOAD_FAULT := 5.
Definition RV_EXC_STORE_MISALIGN := 6.
Definition RV_EXC_STORE_FAULT := 7.
Definition RV_EXC_ECALL_U := 8.
Definition RV_EXC_ECALL_S := 9.
Definition RV_EXC_FETCH_PFAULT := 12.
Definition RV_EXC_LOAD_PFAULT := 13.
Definition RV_EXC_STORE_PFAULT := 15.

(* [riscv_private.h:93-93] *)
Definition RV_PAGE_SHIFT := 12.
Definition RV_PAGE_SIZE := 4096.

(* [riscv.h:97-97] *)
Definition RV_PAGE_MASK := RV_PAGE_SIZE - 1.

(* [riscv_private.h:95-102] *)
Definition RV_INT_SSI := 1.
Definition RV_INT_SSI_BIT := 2.
Definition RV_INT_STI := 5.
Definition RV_INT_STI_BIT := 32.
Definition RV_INT_SEI := 9.
Definition RV_INT_SEI_BIT := 512.

(** ** Instruction decode masks and field decoders *)

(* [riscv.c:69-93] *)
Definition FR_RD := 0x00000f80.
Definition FR_FUNCT3 := 0x00007000.
Definition FR_RS1 := 0x000f8000.
Definition FR_RS2 := 0x01f00000.
Definition FI_IMM_11_0 := 0xfff00000.
Definition FS_IMM_4_0 := 0x00000f80.
Definition FS_IMM_11_5 := 0xfe000000.
Definition FB_IMM_11 := 0x00000080.
Definition FB_IMM_4_1 := 0x00000f00.
Definition FB_IMM_10_5 := 0x7e000000.
Definition FB_IMM_12 := 0x80000000.
Definition FU_IMM_31_12 := 0xfffff000.
Definition FJ_IMM_19_12 := 0x000ff000.
Definition FJ_IMM_11 := 0x00100000.
Definition FJ_IMM_10_1 := 0x7fe00000.
Definition FJ_IMM_20 := 0x80000000.

(* [riscv.c:96-100] decode_u *)
Definition decode_u (insn : Z) : Z := Z.land insn FU_IMM_31_12.

(* [riscv.c:102-106] decode_i *)
Definition decode_i (insn : Z) : Z :=
  u32 (Z.shiftr (s32 (Z.land insn FI_IMM_11_0)) 20).

(* [riscv.c:108-117] decode_j *)
Definition decode_j (insn : Z) : Z :=
  let dst := Z.land insn FJ_IMM_20 in
  let dst := Z.lor dst (shl32 (Z.land insn FJ_IMM_19_12) 11) in
  let dst := Z.lor dst (shl32 (Z.land insn FJ_IMM_11) 2) in
  let dst := Z.lor dst (Z.shiftr (Z.land insn FJ_IMM_10_1) 9) in
  u32 (Z.shiftr (s32 dst) 11).

(* [riscv.c:119-129] decode_b *)
Definition decode_b (insn : Z) : Z :=
  let dst := Z.land insn FB_IMM_12 in
  let dst := Z.lor dst (shl32 (Z.land insn FB_IMM_11) 23) in
  let dst := Z.lor dst (Z.shiftr (Z.land insn FB_IMM_10_5) 1) in
  let dst := Z.lor dst (shl32 (Z.land insn FB_IMM_4_1) 12) in
  u32 (Z.shiftr (s32 dst) 19).

(* [riscv.c:131-138] decode_s *)
Definition decode_s (insn : Z) : Z :=
  let dst := Z.land insn FS_IMM_11_5 in
  let dst := Z.lor dst (shl32 (Z.land insn FS_IMM_4_0) 13) in
  u32 (Z.shiftr (s32 dst) 20).

(* [riscv.c:140-143] decode_i_unsigned *)
Definition decode_i_unsigned (insn : Z) : Z := u16 (Z.shiftr insn 20).

(* [riscv.c:145-149] decode_rd *)
Definition decode_rd (insn : Z) : Z := u8 (Z.shiftr (Z.land insn FR_RD) 7).

(* [riscv.c:151-155] decode_rs1 *)
Definition decode_rs1 (insn : Z) : Z := u8 (Z.shiftr (Z.land insn FR_RS1) 15).

(* [riscv.c:157-161] decode_rs2 *)
Definition decode_rs2 (insn : Z) : Z := u8 (Z.shiftr (Z.land insn FR_RS2) 20).

(* [riscv.c:163-167] decode_func3 *)
Definition decode_func3 (insn : Z) : Z := u8 (Z.shiftr (Z.land insn FR_FUNCT3) 12).

(* [riscv.c:169-176] *)
Definition DECODE_OPCODE_SHIFT := 0.
Definition DECODE_RD_SHIFT := 7.
Definition DECODE_RS1_SHIFT := 12.
Definition DECODE_RS2_SHIFT := 17.
Definition DECODE_FUNCT3_SHIFT := 22.
Definition DECODE_FUNCT7_SHIFT := 25.

(* [riscv.h:99-102] decoded_insn_t *)
Record decoded_insn_t := mk_decoded { imm : Z; fields : Z }.

(* [riscv.c:178-181] decoded_opcode *)
Definition decoded_opcode (d : decoded_insn_t) : Z :=
  u8 (Z.land (Z.shiftr (fields d) DECODE_OPCODE_SHIFT) (MASK 7)).

(* [riscv.c:183-186] decoded_rd *)
Definition decoded_rd (d : decoded_insn_t) : Z :=
  u8 (Z.land (Z.shiftr (fields d) DECODE_RD_SHIFT) (MASK 5)).

(* [riscv.c:188-191] decoded_rs1 *)
Definition decoded_rs1 (d : decoded_insn_t) : Z :=
  u8 (Z.land (Z.shiftr (fields d) DECODE_RS1_SHIFT) (MASK 5)).

(* [riscv.c:193-196] decoded_rs2 *)
Definition decoded_rs2 (d : decoded_insn_t) : Z :=
  u8 (Z.land (Z.shiftr (fields d) DECODE_RS2_SHIFT) (MASK 5)).

(* [riscv.c:198-201] decoded_funct3 *)
Definition decoded_funct3 (d : decoded_insn_t) : Z :=
  u8 (Z.land (Z.shiftr (fields d) DECODE_FUNCT3_SHIFT) (MASK 3)).

(* [riscv.c:203-206] decoded_funct7 *)
Definition decoded_funct7 (d : decoded_insn_t) : Z :=
  u8 (Z.land (Z.shiftr (fields d) DECODE_FUNCT7_SHIFT) (MASK 7)).

(* [riscv.c:208-211] decoded_funct5 *)
Definition decoded_funct5 (d : decoded_insn_t) : Z := Z.shiftr (decoded_funct7 d) 2.

(* [riscv.c:213-248] decode_insn *)
Definition decode_insn (insn : Z) : decoded_insn_t :=
  let f :=
    Z.lor (Z.lor (Z.lor (Z.lor (Z.lor
      (shl32 (Z.land insn (MASK 7)) DECODE_OPCODE_SHIFT)
      (shl32 (decode_rd insn) DECODE_RD_SHIFT))
      (shl32 (decode_rs1 insn) DECODE_RS1_SHIFT))
      (shl32 (decode_rs2 insn) DECODE_RS2_SHIFT))
      (shl32 (decode_func3 insn) DECODE_FUNCT3_SHIFT))
      (shl32 (Z.shiftr insn 25) DECODE_FUNCT7_SHIFT) in
  let opcode := decoded_opcode (mk_decoded 0 f) in
  let i :=
    if (opcode =? RV32_OP_IMM) || (opcode =? RV32_JALR) || (opcode =? RV32_LOAD)
    then decode_i insn
    else if opcode =? RV32_SYSTEM then decode_i_unsigned insn
    else if opcode =? RV32_STORE then decode_s insn
    else if opcode =? RV32_BRANCH then decode_b insn
    else if opcode =? RV32_JAL then decode_j insn
    else if (opcode =? RV32_LUI) || (opcode =? RV32_AUIPC) then decode_u insn
    else 0 in
  mk_decoded i f.

(** ** Integer ALU *)

(* [riscv.c:1296-1333] op_mul *)
Definition op_mul (funct3 a b : Z) : Z :=
  match funct3 with
  | 0 => Z.land (u64 (s32 a * s32 b)) (2 ^ 32 - 1)              (* MUL *)
  | 1 => u32 (Z.shiftr (u64 (s32 a * s32 b)) 32)                (* MULH *)
  | 2 => u32 (Z.shiftr (u64 (u64 (s32 a) * b)) 32)              (* MULHSU *)
  | 3 => u32 (Z.shiftr (u64 (a * b)) 32)                        (* MULHU *)
  | 4 => (* DIV *)
      if nz b
      then if (a =? 0x80000000) && (s32 b =? -1) then 0x80000000
           else u32 (Z.quot (s32 a) (s32 b))
      else 0xFFFFFFFF
  | 5 => if nz b then a / b else 0xFFFFFFFF                     (* DIVU *)
  | 6 => (* REM *)
      if nz b
      then if (a =? 0x80000000) && (s32 b =? -1) then 0
           else u32 (Z.rem (s32 a) (s32 b))
      else a
  | 7 => if nz b then a mod b else a                            (* REMU *)
  | _ => 0                                                      (* unreachable *)
  end.

(* [riscv.c:1335-1362] op_rv32i *)
Definition op_rv32i (funct3 : Z) (neg is_reg : bool) (a b : Z) : Z :=
  match funct3 with
  | 0 => u32 (a + (if is_reg && neg then u32 (- b) else b))     (* ADD, SUB *)
  | 2 => b2z (s32 a <? s32 b)                                   (* SLT *)
  | 3 => b2z (a <? b)                                           (* SLTU *)
  | 4 => Z.lxor a b                                             (* XOR *)
  | 6 => Z.lor a b                                              (* OR *)
  | 7 => Z.land a b                                             (* AND *)
  | 1 => shl32 a (Z.land b (MASK 5))                            (* SLL *)
  | 5 => if neg then u32 (Z.shiftr (s32 a) (Z.land b (MASK 5))) (* SRA *)
         else Z.shiftr a (Z.land b (MASK 5))                    (* SRL *)
  | _ => 0                                                      (* unreachable *)
  end.
