(* ===== verification/IsaProps.v ===== *)
(** * Properties of instruction decoding and of the ALU

    The specification side follows the RISC-V manual: the five immediate
    formats as encoders from field values, the M extension as integer
    arithmetic on the signed or unsigned readings of the operands. *)

From stdpp Require Import base list.
From Stdlib Require Import ZArith Lia Bool.
From S2P Require Import Prelude Bits Isa.
Open Scope Z_scope.

(** ** Encoders of the manual's instruction formats *)

(** [field x hi lo] is the bit field [x[hi:lo]]. *)
Definition field (x hi lo : Z) : Z := Z.shiftr x lo mod 2 ^ (hi - lo + 1).
Definition place (v lo : Z) : Z := Z.shiftl v lo.

Definition enc_r (op rd f3 rs1 rs2 f7 : Z) : Z :=
  Z.lor (Z.lor (Z.lor (Z.lor (Z.lor op (place rd 7)) (place f3 12)) (place rs1 15))
    (place rs2 20)) (place f7 25).
Definition enc_i (op rd f3 rs1 im : Z) : Z :=
  Z.lor (Z.lor (Z.lor (Z.lor op (place rd 7)) (place f3 12)) (place rs1 15))
    (place (field im 11 0) 20).
Definition enc_s (op f3 rs1 rs2 im : Z) : Z :=
  Z.lor (Z.lor (Z.lor (Z.lor (Z.lor op (place (field im 4 0) 7)) (place f3 12))
    (place rs1 15)) (place rs2 20)) (place (field im 11 5) 25).
Definition enc_b (op f3 rs1 rs2 im : Z) : Z :=
  Z.lor (Z.lor (Z.lor (Z.lor (Z.lor (Z.lor (Z.lor op (place (field im 11 11) 7))
    (place (field im 4 1) 8)) (place f3 12)) (place rs1 15)) (place rs2 20))
    (place (field im 10 5) 25)) (place (field im 12 12) 31).
Definition enc_u (op rd im : Z) : Z := Z.lor (Z.lor op (place rd 7)) (place im 12).
Definition enc_j (op rd im : Z) : Z :=
  Z.lor (Z.lor (Z.lor (Z.lor (Z.lor op (place rd 7)) (place (field im 19 12) 12))
    (place (field im 11 11) 20)) (place (field im 10 1) 21)) (place (field im 20 20) 31).

(** A signed immediate of [w] bits is determined by its low [w] bits. *)
Lemma sext_mod (w x : Z) : 0 < w -> - 2 ^ (w - 1) <= x < 2 ^ (w - 1) ->
  sext w (x mod 2 ^ w) = x.
Proof.
  intros Hw Hx. unfold sext.
  assert (Hp : 2 ^ w = 2 * 2 ^ (w - 1)).
  { rewrite <- Z.pow_succ_r by lia. f_equal. lia. }
  assert (0 < 2 ^ (w - 1)) by (apply Z.pow_pos_nonneg; lia).
  rewrite Z.mod_mod by lia.
  destruct (Z.lt_ge_cases x 0).
  - rewrite <- (Z.mod_add x 1), Z.mod_small by lia.
    destruct (Z.ltb_spec (x + 1 * 2 ^ w) (2 ^ (w - 1))); lia.
  - rewrite Z.mod_small by lia.
    destruct (Z.ltb_spec x (2 ^ (w - 1))); lia.
Qed.

(** Replace a signed immediate by the unsigned field that encodes it; an even
    one by the field without its least significant bit. *)
Lemma signed_field (w im : Z) : 0 < w -> - 2 ^ (w - 1) <= im < 2 ^ (w - 1) ->
  exists m, 0 <= m < 2 ^ w /\ im = sext w m.
Proof.
  intros Hw Him. exists (im mod 2 ^ w). split.
  - apply Z.mod_pos_bound, Z.pow_pos_nonneg; lia.
  - by rewrite sext_mod.
Qed.

Lemma even_field (w im : Z) : 1 < w -> - 2 ^ (w - 1) <= im < 2 ^ (w - 1) -> im mod 2 = 0 ->
  exists m, 0 <= m < 2 ^ (w - 1) /\ im = sext w (Z.shiftl m 1).
Proof.
  intros Hw Him He. destruct (signed_field w im) as (m & Hm & ->); [lia..|].
  assert (Hp : 2 ^ w = 2 * 2 ^ (w - 1)).
  { rewrite <- Z.pow_succ_r by lia. f_equal. lia. }
  assert (Hmod : m mod 2 = 0).
  { unfold sext in He. rewrite (Z.mod_small m) in He by lia.
    destruct (m <? 2 ^ (w - 1)); [done|].
    replace (2 ^ w) with (2 ^ (w - 1) * 2) in He by lia.
    rewrite <- (Z.mod_add m (- 2 ^ (w - 1))) by lia.
    by replace (m + - 2 ^ (w - 1) * 2) with (m - 2 ^ (w - 1) * 2) by lia. }
  exists (m / 2). split.
  - split; [apply Z.div_pos; lia|apply Z.div_lt_upper_bound; lia].
  - f_equal. rewrite Z.shiftl_mul_pow2 by lia.
    rewrite (Z.div_mod m 2) at 1 by lia. lia.
Qed.

Ltac unfold_enc :=
  unfold enc_r, enc_i, enc_s, enc_b, enc_u, enc_j, field, place,
    decode_i, decode_s, decode_b, decode_u, decode_j, decode_rd, decode_rs1, decode_rs2,
    decode_func3.

Section Fields.
Context (op rd f3 rs1 rs2 f7 : Z).
Context (Hop : 0 <= op < 2 ^ 7) (Hrd : 0 <= rd < 2 ^ 5) (Hf3 : 0 <= f3 < 2 ^ 3)
  (Hrs1 : 0 <= rs1 < 2 ^ 5) (Hrs2 : 0 <= rs2 < 2 ^ 5) (Hf7 : 0 <= f7 < 2 ^ 7).

Lemma decode_enc_i m : 0 <= m < 2 ^ 12 -> decode_i (enc_i op rd f3 rs1 (sext 12 m)) = u32 (sext 12 m).
Proof using All. intros. unfold_enc. bits. Qed.

Lemma decode_enc_s m : 0 <= m < 2 ^ 12 -> decode_s (enc_s op f3 rs1 rs2 (sext 12 m)) = u32 (sext 12 m).
Proof using All. intros. unfold_enc. bits. Qed.

Lemma decode_enc_b m : 0 <= m < 2 ^ 12 ->
  decode_b (enc_b op f3 rs1 rs2 (sext 13 (Z.shiftl m 1))) = u32 (sext 13 (Z.shiftl m 1)).
Proof using All. intros. unfold_enc. bits. Qed.

Lemma decode_enc_j m : 0 <= m < 2 ^ 20 ->
  decode_j (enc_j op rd (sext 21 (Z.shiftl m 1))) = u32 (sext 21 (Z.shiftl m 1)).
Proof using All. intros. unfold_enc. bits. Qed.

Lemma decode_enc_u m : 0 <= m < 2 ^ 20 -> decode_u (enc_u op rd m) = Z.shiftl m 12.
Proof using All. intros. unfold_enc. bits. Qed.

Lemma decode_enc_r :
  decode_rd (enc_r op rd f3 rs1 rs2 f7) = rd /\
  decode_func3 (enc_r op rd f3 rs1 rs2 f7) = f3 /\
  decode_rs1 (enc_r op rd f3 rs1 rs2 f7) = rs1 /\
  decode_rs2 (enc_r op rd f3 rs1 rs2 f7) = rs2.
Proof using All. unfold_enc. repeat split; bits. Qed.
End Fields.

(** Every immediate decoder inverts the encoder of its instruction format:
    whatever the register fields, a 12-bit signed immediate survives the I and S
    formats, an even 13-bit one the B format, an even 21-bit one the J format and
    a 20-bit one the U format; the result is the immediate as a [uint32_t]. *)
Theorem decode_immediate_roundtrip (op rd f3 rs1 rs2 im : Z)
  (Hop : 0 <= op < 2 ^ 7) (Hrd : 0 <= rd < 2 ^ 5) (Hf3 : 0 <= f3 < 2 ^ 3)
  (Hrs1 : 0 <= rs1 < 2 ^ 5) (Hrs2 : 0 <= rs2 < 2 ^ 5) :
  (- 2 ^ 11 <= im < 2 ^ 11 ->
     decode_i (enc_i op rd f3 rs1 im) = u32 im /\
     decode_s (enc_s op f3 rs1 rs2 im) = u32 im) /\
  (- 2 ^ 12 <= im < 2 ^ 12 -> im mod 2 = 0 -> decode_b (enc_b op f3 rs1 rs2 im) = u32 im) /\
  (- 2 ^ 20 <= im < 2 ^ 20 -> im mod 2 = 0 -> decode_j (enc_j op rd im) = u32 im) /\
  (0 <= im < 2 ^ 20 -> decode_u (enc_u op rd im) = im * 2 ^ 12).
Proof.
  repeat split.
  - destruct (signed_field 12 im) as (m & Hm & ->); [lia..|]. by apply (decode_enc_i op rd f3 rs1 rs2 0).
  - destruct (signed_field 12 im) as (m & Hm & ->); [lia..|]. by apply (decode_enc_s op rd f3 rs1 rs2 0).
  - intros H He. destruct (even_field 13 im) as (m & Hm & ->); [lia..|done|].
    by apply (decode_enc_b op rd f3 rs1 rs2 0).
  - intros H He. destruct (even_field 21 im) as (m & Hm & ->); [lia..|done|].
    by apply (decode_enc_j op rd f3 rs1 rs2 0).
  - intros H. rewrite <- Z.shiftl_mul_pow2 by lia. by apply (decode_enc_u op rd f3 rs1 rs2 0).
Qed.

Lemma decode_immediate_roundtrip_witness :
  decode_b (enc_b RV32_BRANCH 1 5 6 (-16)) = u32 (-16) /\
  decode_j (enc_j RV32_JAL 1 2048) = u32 2048.
Proof.
  split.
  - apply (decode_immediate_roundtrip RV32_BRANCH 0 1 5 6 (-16)); vm_compute; repeat split; discriminate.
  - apply (decode_immediate_roundtrip RV32_JAL 1 0 0 0 2048); vm_compute; repeat split; discriminate.
Defined.

(** [decode_insn] packs an instruction word without loss: the accessors of
    the packed form return the fields of the word, and the word that [op_system]
    rebuilds from them for [op_privileged] is the original one. *)
Theorem decode_insn_lossless (insn : Z) (H : is_u32 insn) :
  let d := decode_insn insn in
  decoded_opcode d = Z.land insn (MASK 7) /\ decoded_rd d = decode_rd insn /\
  decoded_rs1 d = decode_rs1 insn /\ decoded_rs2 d = decode_rs2 insn /\
  decoded_funct3 d = decode_func3 insn /\ decoded_funct7 d = Z.shiftr insn 25 /\
  Z.lor (Z.lor (Z.lor (Z.lor (Z.lor (Z.shiftl (decoded_funct7 d) 25) (Z.shiftl (decoded_rs2 d) 20))
    (Z.shiftl (decoded_rs1 d) 15)) (Z.shiftl (decoded_funct3 d) 12))
    (Z.shiftl (decoded_rd d) 7)) (decoded_opcode d) = insn.
Proof.
  cbn [decode_insn fields].
  unfold decoded_opcode, decoded_rd, decoded_rs1, decoded_rs2, decoded_funct3, decoded_funct7,
    decode_insn, decode_rd, decode_rs1, decode_rs2, decode_func3; cbn [fields].
  repeat split; bits.
Qed.

Lemma decode_insn_lossless_witness : decoded_funct7 (decode_insn 0x12050073) = 9.
Proof. apply (decode_insn_lossless 0x12050073). vm_compute. split; discriminate || reflexivity. Defined.

(** ** The M extension *)

Inductive mop := MUL | MULH | MULHSU | MULHU | DIV | DIVU | REM | REMU.

Definition mop_funct3 (o : mop) : Z :=
  match o with
  | MUL => 0 | MULH => 1 | MULHSU => 2 | MULHU => 3 | DIV => 4 | DIVU => 5 | REM => 6 | REMU => 7
  end.

(** The manual's definition: products at full precision, quotients rounded
    towards zero, division by zero gives all ones and the dividend. *)
Definition mop_spec (o : mop) (a b : Z) : Z :=
  match o with
  | MUL => u32 (a * b)
  | MULH => u32 (s32 a * s32 b / 2 ^ 32)
  | MULHSU => u32 (s32 a * b / 2 ^ 32)
  | MULHU => a * b / 2 ^ 32
  | DIV => if b =? 0 then u32 (-1) else u32 (Z.quot (s32 a) (s32 b))
  | DIVU => if b =? 0 then u32 (-1) else a / b
  | REM => if b =? 0 then a else u32 (Z.rem (s32 a) (s32 b))
  | REMU => if b =? 0 then a else a mod b
  end.

Lemma s32_range (x : Z) : - 2 ^ 31 <= s32 x < 2 ^ 31.
Proof.
  unfold s32, sext. pose proof (Z.mod_pos_bound x (2 ^ 32)).
  destruct (Z.ltb_spec (x mod 2 ^ 32) (2 ^ (32 - 1))); lia.
Qed.

Lemma s32_cong (x : Z) : exists k, s32 x = x + k * 2 ^ 32.
Proof.
  unfold s32, sext. pose proof (Z.div_mod x (2 ^ 32)).
  destruct (x mod 2 ^ 32 <? 2 ^ (32 - 1)).
  - exists (- (x / 2 ^ 32)). lia.
  - exists (- (x / 2 ^ 32) - 1). lia.
Qed.

Lemma u32_cong (x y k : Z) : x = y + k * 2 ^ 32 -> u32 x = u32 y.
Proof. intros ->. unfold u32. apply Z.mod_add. lia. Qed.

Lemma s32_mul_low (a b : Z) : u32 (s32 a * s32 b) = u32 (a * b).
Proof.
  destruct (s32_cong a) as [k ->], (s32_cong b) as [l ->].
  apply (u32_cong _ _ (k * b + a * l + k * l * 2 ^ 32)). lia.
Qed.

Lemma u32_of_u64 (x : Z) : u32 (u64 x) = u32 x.
Proof.
  unfold u32, u64. rewrite (Z.mod_eq x (2 ^ 64)) by lia.
  apply (u32_cong _ _ (- (x / 2 ^ 64) * 2 ^ 32)). lia.
Qed.

(** The high word of a 64-bit wrapped product. *)
Lemma high_word_u64 (x : Z) : u32 (Z.shiftr (u64 x) 32) = u32 (x / 2 ^ 32).
Proof.
  rewrite Z.shiftr_div_pow2 by lia. unfold u64.
  rewrite (Z.mod_eq x (2 ^ 64)) by lia.
  replace (x - 2 ^ 64 * (x / 2 ^ 64)) with (x + (- (2 ^ 32 * (x / 2 ^ 64))) * 2 ^ 32) by lia.
  rewrite Z.div_add by lia.
  apply (u32_cong _ _ (- (x / 2 ^ 64))). lia.
Qed.

Lemma u32_small_nonneg (x : Z) : 0 <= x < 2 ^ 32 -> u32 x = x.
Proof. apply u32_id. Qed.

Lemma s32_zero_iff (b : Z) : is_u32 b -> s32 b = 0 <-> b = 0.
Proof.
  intros [? ?]. unfold s32, sext. rewrite Z.mod_small by lia.
  destruct (Z.ltb_spec b (2 ^ (32 - 1))); lia.
Qed.

Lemma op_mul_spec (o : mop) (a b : Z) : is_u32 a -> is_u32 b ->
  op_mul (mop_funct3 o) a b = mop_spec o a b.
Proof.
  intros Ha Hb. destruct Ha as [Ha1 Ha2], Hb as [Hb1 Hb2].
  destruct o; cbn [mop_funct3 op_mul mop_spec].
  - change (2 ^ 32 - 1) with (Z.ones 32). rewrite Z.land_ones by lia.
    change (u32 (u64 (s32 a * s32 b)) = u32 (a * b)). by rewrite u32_of_u64, s32_mul_low.
  - apply high_word_u64.
  - rewrite high_word_u64. unfold u64.
    rewrite (Z.mod_eq (s32 a) (2 ^ 64)) by lia.
    replace ((s32 a - 2 ^ 64 * (s32 a / 2 ^ 64)) * b)
      with (s32 a * b + (- (2 ^ 32 * (s32 a / 2 ^ 64) * b)) * 2 ^ 32) by lia.
    rewrite Z.div_add by lia.
    apply (u32_cong _ _ (- ((s32 a / 2 ^ 64) * b))). lia.
  - rewrite high_word_u64. apply u32_small_nonneg.
    split; [apply Z.div_pos; nia|apply Z.div_lt_upper_bound; nia].
  - unfold nz. destruct (Z.eqb_spec b 0) as [->|]; [done|]. cbn [negb].
    destruct (Z.eqb_spec a 0x80000000) as [->|], (Z.eqb_spec (s32 b) (-1)) as [->|]; done.
  - unfold nz. by destruct (Z.eqb_spec b 0) as [->|].
  - unfold nz. destruct (Z.eqb_spec b 0) as [->|]; [done|]. cbn [negb].
    destruct (Z.eqb_spec a 0x80000000) as [->|], (Z.eqb_spec (s32 b) (-1)) as [->|]; done.
  - unfold nz. by destruct (Z.eqb_spec b 0) as [->|].
Qed.

Lemma mop_spec_range (o : mop) (a b : Z) : is_u32 a -> is_u32 b -> is_u32 (mop_spec o a b).
Proof.
  intros Ha Hb. pose proof Ha as [Ha1 Ha2]. pose proof Hb as [Hb1 Hb2].
  destruct o; cbn [mop_spec];
    repeat match goal with |- context [b =? 0] => destruct (Z.eqb_spec b 0) end;
    lazymatch goal with |- is_u32 (u32 _) => apply u32_range | |- _ => try done end.
  - split; [apply Z.div_pos; nia|apply Z.div_lt_upper_bound; nia].
  - split; [apply Z.div_pos; lia|apply Z.div_lt_upper_bound; nia].
  - assert (0 <= a mod b < b) by (apply Z.mod_pos_bound; lia).
    split; [lia|]. eapply Z.lt_trans; [apply H|done].
Qed.

(** C7: [op_mul] computes the M extension. For 32-bit operands each of the
    eight functions returns what the manual defines, with the source's special
    cases (division by zero, overflow of [-2^31 / -1], the wrap-around 64-bit
    products) accounted for, and the result is a 32-bit value. *)
Theorem op_mul_correct (o : mop) (a b : Z) (Ha : is_u32 a) (Hb : is_u32 b) :
  op_mul (mop_funct3 o) a b = mop_spec o a b /\ is_u32 (mop_spec o a b).
Proof. split; [by apply op_mul_spec|by apply mop_spec_range]. Qed.

Lemma op_mul_correct_witness :
  op_mul 4 0x80000000 0xFFFFFFFF = mop_spec DIV 0x80000000 0xFFFFFFFF.
Proof. apply (op_mul_correct DIV); vm_compute; split; discriminate || reflexivity. Defined.

Lemma u32_add_mul (b q r : Z) : u32 (b * u32 q + u32 r) = u32 (b * q + r).
Proof.
  unfold u32. rewrite (Z.mod_eq q (2 ^ 32)), (Z.mod_eq r (2 ^ 32)) by lia.
  apply (u32_cong _ _ (- (b * (q / 2 ^ 32)) - r / 2 ^ 32)). lia.
Qed.

Lemma mop_div_rem_identity (a b : Z) : is_u32 a -> is_u32 b ->
  u32 (b * mop_spec DIV a b + mop_spec REM a b) = a /\
  u32 (b * mop_spec DIVU a b + mop_spec REMU a b) = a.
Proof.
  intros Ha Hb. cbn [mop_spec].
  destruct (Z.eqb_spec b 0) as [->|Hnz].
  { rewrite !Z.mul_0_l, !Z.add_0_l. by rewrite !u32_id. }
  split.
  - rewrite u32_add_mul. destruct (s32_cong a) as [k Hk], (s32_cong b) as [l Hl].
    assert (Hq := Z.quot_rem' (s32 a) (s32 b)).
    transitivity (u32 a); [|by apply u32_id].
    apply (u32_cong _ _ (k - l * Z.quot (s32 a) (s32 b))). nia.
  - rewrite <- Z.div_mod by lia. by apply u32_id.
Qed.

(** Quotient and remainder fit together on every input, including division
    by zero and signed overflow: [b * (a DIV b) + (a REM b) = a] modulo [2^32],
    and the same for the unsigned pair. *)
Theorem div_rem_identity (a b : Z) (Ha : is_u32 a) (Hb : is_u32 b) :
  u32 (b * op_mul 4 a b + op_mul 6 a b) = a /\
  u32 (b * op_mul 5 a b + op_mul 7 a b) = a.
Proof.
  destruct (mop_div_rem_identity a b Ha Hb) as [H1 H2].
  rewrite <- !op_mul_spec in H1, H2 by done. done.
Qed.

Lemma div_rem_identity_witness :
  u32 (0xFFFFFFFF * op_mul 4 0x80000000 0xFFFFFFFF + op_mul 6 0x80000000 0xFFFFFFFF) = 0x80000000.
Proof. apply (div_rem_identity 0x80000000 0xFFFFFFFF); vm_compute; split; discriminate || reflexivity. Defined.

(** ** The base ALU *)

Inductive aop := ADD | SUB | SLL | SLT | SLTU | XOR | SRL | SRA | OR | AND.

(** funct3 and instruction bit 30 of each register-register operation. *)
Definition aop_funct3 (o : aop) : Z :=
  match o with
  | ADD | SUB => 0 | SLL => 1 | SLT => 2 | SLTU => 3 | XOR => 4 | SRL | SRA => 5 | OR => 6 | AND => 7
  end.
Definition aop_neg (o : aop) : bool := match o with SUB | SRA => true | _ => false end.

Definition aop_spec (o : aop) (a b : Z) : Z :=
  match o with
  | ADD => (a + b) mod 2 ^ 32
  | SUB => (a - b) mod 2 ^ 32
  | SLL => (a * 2 ^ (b mod 32)) mod 2 ^ 32
  | SLT => if s32 a <? s32 b then 1 else 0
  | SLTU => if a <? b then 1 else 0
  | XOR => Z.lxor a b
  | SRL => a / 2 ^ (b mod 32)
  | SRA => (s32 a / 2 ^ (b mod 32)) mod 2 ^ 32
  | OR => Z.lor a b
  | AND => Z.land a b
  end.

(** [op_rv32i] computes the RV32I register and immediate operations: all ten
    of them in the register form, and in the immediate form (where bit 30 only
    selects between the two right shifts) the nine that exist; results are
    32-bit values. *)
Theorem op_rv32i_correct (o : aop) (a b : Z) (Ha : is_u32 a) (Hb : is_u32 b) :
  op_rv32i (aop_funct3 o) (aop_neg o) true a b = aop_spec o a b /\
  (o <> SUB -> op_rv32i (aop_funct3 o) (aop_neg o) false a b = aop_spec o a b) /\
  is_u32 (aop_spec o a b).
Proof.
  assert (Hm : Z.land b (MASK 5) = b mod 32) by (rewrite land_ones32 by lia; done).
  assert (Hs : 0 <= b mod 32 < 32) by (apply Z.mod_pos_bound; lia).
  destruct o; cbn [aop_funct3 aop_neg op_rv32i aop_spec andb]; rewrite ?Hm;
    (split; [|split; [intros Hn; try congruence|]]);
    unfold shl32, u32, b2z; rewrite ?Z.shiftl_mul_pow2, ?Z.shiftr_div_pow2 by lia; try done.
  all: try (apply u32_range || (apply lxor_is_u32; done) || (apply lor_is_u32; done) ||
            (apply land_is_u32_l; [done|apply Hb])).
  - rewrite Zplus_mod_idemp_r. done.
  - destruct (s32 a <? s32 b); vm_compute; split; discriminate || reflexivity.
  - destruct (a <? b); vm_compute; split; discriminate || reflexivity.
  - rewrite <- Z.shiftr_div_pow2 by lia. apply shiftr_is_u32; [lia|done].
Qed.

Lemma op_rv32i_correct_witness : op_rv32i 5 true false 0xFFFFFF00 4 = 0xFFFFFFF0.
Proof.
  destruct (op_rv32i_correct SRA 0xFFFFFF00 4) as (_ & H & _);
    [vm_compute; split; discriminate || reflexivity..|].
  etransitivity; [apply H; discriminate|vm_compute; reflexivity].
Defined.
