(* ===== verification/Hart.v ===== *)
(** * The hart: processor state, translation caches and traps

    [hart_t] is the struct of riscv.h, field by field. Pointers into guest RAM
    are byte offsets from [emu->ram] ([None] is [NULL]); [data_minus_addr] is
    the [uintptr_t] the source computes from such a pointer. The pointer
    members that link a hart to its environment ([priv], [vm] and the callbacks)
    are not data of the hart here: they are the operations of the [Bus] class of
    the machine model. The MMU_CACHE_STATS counters are not compiled in. *)

From stdpp Require Import base list.
From Stdlib Require Import ZArith Lia Bool.
From S2P Require Import Prelude Isa.
Open Scope Z_scope.

(* [riscv.h:28-32] vm_error_t *)
Inductive vm_error_t := ERR_NONE | ERR_EXCEPTION | ERR_USER.

#[export] Instance vm_error_eq_dec : EqDecision vm_error_t.
Proof. solve_decision. Defined.

(* [riscv.h:35-43] mmu_fetch_cache_t *)
Record mmu_fetch_cache_t := mk_fetch { f_n_pages : Z; page_addr : option Z }.

(* [riscv.h:46-54] mmu_addr_cache_t *)
Record mmu_addr_cache_t := mk_way { n_pages : Z; phys_ppn : Z; data_minus_addr : Z }.

(* [riscv.h:57-60] mmu_cache_set_t *)
Record mmu_cache_set_t := mk_set { way0 : mmu_addr_cache_t; way1 : mmu_addr_cache_t; lru : Z }.

(** [set->ways[i]] *)
Definition way (s : mmu_cache_set_t) (i : Z) : mmu_addr_cache_t :=
  if i =? 0 then way0 s else way1 s.

(* [riscv.h:104-109] icache_block_t *)
Record icache_block_t := mk_block { tag : Z; epoch : Z; base : option Z; valid : bool }.

(* [utils.h:17-20] semu_timer_t *)
Record semu_timer_t := mk_timer { begin : Z; freq : Z }.

(* [riscv.h:87-95] *)
Definition ICACHE_BLOCKS_SIZE := 256.
Definition ICACHE_BLOCKS := 256.
Definition ICACHE_OFFSET_BITS := 8.
Definition ICACHE_INDEX_BITS := 8.
Definition ICACHE_INDEX_MASK := ICACHE_BLOCKS - 1.
Definition ICACHE_BLOCK_MASK := ICACHE_BLOCKS_SIZE - 1.

(* [riscv.h:115-184] struct __hart_internal *)
Record hart_t := mk_hart {
  x_regs : list Z;
  pc : Z;
  current_pc : Z;
  instret : Z;
  error : vm_error_t;
  exc_cause : Z;
  exc_val : Z;
  lr_reservation : Z;
  cache_load_last_vpn : Z;
  cache_load_last_phys_ppn : Z;
  cache_load_last_data_minus_addr : Z;
  cache_store_last_vpn : Z;
  cache_store_last_phys_ppn : Z;
  cache_store_last_data_minus_addr : Z;
  seq_fetch_block : option Z;
  seq_fetch_next_pc : Z;
  icache_epoch : Z;
  ram_base : option Z;
  ram_size : Z;
  ram_load_last_page : Z;
  ram_load_last_ptr : option Z;
  ram_store_last_page : Z;
  ram_store_last_ptr : option Z;
  sstatus_sie : bool;
  s_mode : bool;
  sie : Z;
  sip : Z;
  time : semu_timer_t;
  sstatus_spp : bool;
  sstatus_spie : bool;
  sepc : Z;
  in_wfi : bool;
  scause : Z;
  stval : Z;
  sstatus_mxr : bool;
  sstatus_sum : bool;
  stvec_addr : Z;
  stvec_vectored : bool;
  sscratch : Z;
  scounteren : Z;
  satp : Z;
  page_table : option Z;
  mhartid : Z;
  hsm_status : Z;
  hsm_resume_is_ret : bool;
  hsm_resume_pc : Z;
  hsm_resume_opaque : Z;
  cache_fetch : list mmu_fetch_cache_t;
  cache_load : list mmu_cache_set_t;
  cache_store : list mmu_cache_set_t;
  icache : list icache_block_t }.

#[export] Instance eta_fetch : Eta mmu_fetch_cache_t :=
  fun r => mk_fetch (f_n_pages r) (page_addr r).
#[export] Instance eta_way : Eta mmu_addr_cache_t :=
  fun r => mk_way (n_pages r) (phys_ppn r) (data_minus_addr r).
#[export] Instance eta_set : Eta mmu_cache_set_t := fun r => mk_set (way0 r) (way1 r) (lru r).
#[export] Instance eta_block : Eta icache_block_t :=
  fun r => mk_block (tag r) (epoch r) (base r) (valid r).
#[export] Instance eta_hart : Eta hart_t := fun r => mk_hart
  (x_regs r) (pc r) (current_pc r) (instret r) (error r) (exc_cause r) (exc_val r)
  (lr_reservation r) (cache_load_last_vpn r) (cache_load_last_phys_ppn r)
  (cache_load_last_data_minus_addr r) (cache_store_last_vpn r) (cache_store_last_phys_ppn r)
  (cache_store_last_data_minus_addr r) (seq_fetch_block r) (seq_fetch_next_pc r)
  (icache_epoch r) (ram_base r) (ram_size r) (ram_load_last_page r) (ram_load_last_ptr r)
  (ram_store_last_page r) (ram_store_last_ptr r) (sstatus_sie r) (s_mode r) (sie r) (sip r)
  (time r) (sstatus_spp r) (sstatus_spie r) (sepc r) (in_wfi r) (scause r) (stval r)
  (sstatus_mxr r) (sstatus_sum r) (stvec_addr r) (stvec_vectored r) (sscratch r)
  (scounteren r) (satp r) (page_table r) (mhartid r) (hsm_status r) (hsm_resume_is_ret r)
  (hsm_resume_pc r) (hsm_resume_opaque r) (cache_fetch r) (cache_load r) (cache_store r)
  (icache r).

#[export] Instance set_f_n_pages : Setter f_n_pages := ltac:(solve_setter).
#[export] Instance set_page_addr : Setter page_addr := ltac:(solve_setter).
#[export] Instance set_n_pages : Setter n_pages := ltac:(solve_setter).
#[export] Instance set_phys_ppn : Setter phys_ppn := ltac:(solve_setter).
#[export] Instance set_data_minus_addr : Setter data_minus_addr := ltac:(solve_setter).
#[export] Instance set_way0 : Setter way0 := ltac:(solve_setter).
#[export] Instance set_way1 : Setter way1 := ltac:(solve_setter).
#[export] Instance set_lru : Setter lru := ltac:(solve_setter).
#[export] Instance set_tag : Setter tag := ltac:(solve_setter).
#[export] Instance set_epoch : Setter epoch := ltac:(solve_setter).
#[export] Instance set_base : Setter base := ltac:(solve_setter).
#[export] Instance set_valid : Setter valid := ltac:(solve_setter).
#[export] Instance set_x_regs : Setter x_regs := ltac:(solve_setter).
#[export] Instance set_pc : Setter pc := ltac:(solve_setter).
#[export] Instance set_current_pc : Setter current_pc := ltac:(solve_setter).
#[export] Instance set_instret : Setter instret := ltac:(solve_setter).
#[export] Instance set_error : Setter error := ltac:(solve_setter).
#[export] Instance set_exc_cause : Setter exc_cause := ltac:(solve_setter).
#[export] Instance set_exc_val : Setter exc_val := ltac:(solve_setter).
#[export] Instance set_lr_reservation : Setter lr_reservation := ltac:(solve_setter).
#[export] Instance set_cache_load_last_vpn : Setter cache_load_last_vpn := ltac:(solve_setter).
#[export] Instance set_cache_load_last_phys_ppn : Setter cache_load_last_phys_ppn := ltac:(solve_setter).
#[export] Instance set_cache_load_last_data_minus_addr : Setter cache_load_last_data_minus_addr := ltac:(solve_setter).
#[export] Instance set_cache_store_last_vpn : Setter cache_store_last_vpn := ltac:(solve_setter).
#[export] Instance set_cache_store_last_phys_ppn : Setter cache_store_last_phys_ppn := ltac:(solve_setter).
#[export] Instance set_cache_store_last_data_minus_addr : Setter cache_store_last_data_minus_addr := ltac:(solve_setter).
#[export] Instance set_seq_fetch_block : Setter seq_fetch_block := ltac:(solve_setter).
#[export] Instance set_seq_fetch_next_pc : Setter seq_fetch_next_pc := ltac:(solve_setter).
#[export] Instance set_icache_epoch : Setter icache_epoch := ltac:(solve_setter).
#[export] Instance set_ram_base : Setter ram_base := ltac:(solve_setter).
#[export] Instance set_ram_size : Setter ram_size := ltac:(solve_setter).
#[export] Instance set_ram_load_last_page : Setter ram_load_last_page := ltac:(solve_setter).
#[export] Instance set_ram_load_last_ptr : Setter ram_load_last_ptr := ltac:(solve_setter).
#[export] Instance set_ram_store_last_page : Setter ram_store_last_page := ltac:(solve_setter).
#[export] Instance set_ram_store_last_ptr : Setter ram_store_last_ptr := ltac:(solve_setter).
#[export] Instance set_sstatus_sie : Setter sstatus_sie := ltac:(solve_setter).
#[export] Instance set_s_mode : Setter s_mode := ltac:(solve_setter).
#[export] Instance set_sie : Setter sie := ltac:(solve_setter).
#[export] Instance set_sip : Setter sip := ltac:(solve_setter).
#[export] Instance set_time : Setter time := ltac:(solve_setter).
#[export] Instance set_sstatus_spp : Setter sstatus_spp := ltac:(solve_setter).
#[export] Instance set_sstatus_spie : Setter sstatus_spie := ltac:(solve_setter).
#[export] Instance set_sepc : Setter sepc := ltac:(solve_setter).
#[export] Instance set_in_wfi : Setter in_wfi := ltac:(solve_setter).
#[export] Instance set_scause : Setter scause := ltac:(solve_setter).
#[export] Instance set_stval : Setter stval := ltac:(solve_setter).
#[export] Instance set_sstatus_mxr : Setter sstatus_mxr := ltac:(solve_setter).
#[export] Instance set_sstatus_sum : Setter sstatus_sum := ltac:(solve_setter).
#[export] Instance set_stvec_addr : Setter stvec_addr := ltac:(solve_setter).
#[export] Instance set_stvec_vectored : Setter stvec_vectored := ltac:(solve_setter).
#[export] Instance set_sscratch : Setter sscratch := ltac:(solve_setter).
#[export] Instance set_scounteren : Setter scounteren := ltac:(solve_setter).
#[export] Instance set_satp : Setter satp := ltac:(solve_setter).
#[export] Instance set_page_table : Setter page_table := ltac:(solve_setter).
#[export] Instance set_mhartid : Setter mhartid := ltac:(solve_setter).
#[export] Instance set_hsm_status : Setter hsm_status := ltac:(solve_setter).
#[export] Instance set_hsm_resume_is_ret : Setter hsm_resume_is_ret := ltac:(solve_setter).
#[export] Instance set_hsm_resume_pc : Setter hsm_resume_pc := ltac:(solve_setter).
#[export] Instance set_hsm_resume_opaque : Setter hsm_resume_opaque := ltac:(solve_setter).
#[export] Instance set_cache_fetch : Setter cache_fetch := ltac:(solve_setter).
#[export] Instance set_cache_load : Setter cache_load := ltac:(solve_setter).
#[export] Instance set_cache_store : Setter cache_store := ltac:(solve_setter).
#[export] Instance set_icache : Setter icache := ltac:(solve_setter).

(** [vm->error] as a condition. *)
Definition err (h : hart_t) : bool :=
  match error h with ERR_NONE => false | _ => true end.

Definition way_dflt := mk_way 0xFFFFFFFF 0 0.
Definition set_dflt := mk_set way_dflt way_dflt 0.
Definition fetch_dflt := mk_fetch 0xFFFFFFFF None.
Definition block_dflt := mk_block 0 0 None false.

Definition set_way (s : mmu_cache_set_t) (i : Z) (w : mmu_addr_cache_t) : mmu_cache_set_t :=
  if i =? 0 then s <| way0 := w |> else s <| way1 := w |>.

(** ** Registers and exceptions *)

(* [riscv.c:1087-1091] set_dest_idx *)
Definition set_dest_idx (vm : hart_t) (rd x : Z) : hart_t :=
  if nz rd then vm <| x_regs := arr_set (x_regs vm) rd x |> else vm.

Definition reg (vm : hart_t) (i : Z) : Z := arr_get 0 (x_regs vm) i.

(* [riscv.c:1000-1007] vm_set_exception *)
Definition vm_set_exception (vm : hart_t) (cause val : Z) : hart_t :=
  vm <| error := ERR_EXCEPTION |> <| exc_cause := cause |> <| exc_val := val |>.

(** ** Cache maintenance *)

(* [riscv.c:250-259] icache_invalidate_all *)
Definition icache_invalidate_all (vm : hart_t) : hart_t :=
  let vm := vm <| icache_epoch := u32 (icache_epoch vm + 1) |> in
  let vm :=
    if icache_epoch vm =? 0
    then vm <| icache := replicate (length (icache vm)) block_dflt |> <| icache_epoch := 1 |>
    else vm in
  vm <| seq_fetch_block := None |> <| seq_fetch_next_pc := 0xFFFFFFFF |>.

(* [riscv.c:261-265] icache_block_valid *)
Definition icache_block_valid (vm : hart_t) (blk : icache_block_t) : bool :=
  valid blk && (epoch blk =? icache_epoch vm).

(* [riscv.c:267-270] vm_fence_i *)
Definition vm_fence_i (vm : hart_t) : hart_t := icache_invalidate_all vm.

(** The loop bodies of [mmu_invalidate]. *)
Definition inv_fetch (e : mmu_fetch_cache_t) : mmu_fetch_cache_t :=
  e <| f_n_pages := 0xFFFFFFFF |> <| page_addr := None |>.
Definition inv_way (w : mmu_addr_cache_t) : mmu_addr_cache_t := w <| n_pages := 0xFFFFFFFF |>.
Definition inv_set (s : mmu_cache_set_t) : mmu_cache_set_t :=
  s <| way0 := inv_way (way0 s) |> <| way1 := inv_way (way1 s) |> <| lru := 0 |>.

(* [riscv.c:272-301] mmu_invalidate *)
Definition mmu_invalidate (vm : hart_t) : hart_t :=
  let vm := vm <| cache_fetch := inv_fetch <$> cache_fetch vm |> in
  let vm := vm <| cache_load := inv_set <$> cache_load vm |> in
  let vm := vm <| cache_store := inv_set <$> cache_store vm |> in
  let vm := vm <| cache_load_last_vpn := 0xFFFFFFFF |>
               <| cache_load_last_data_minus_addr := 0 |>
               <| cache_store_last_vpn := 0xFFFFFFFF |>
               <| cache_store_last_data_minus_addr := 0 |> in
  let vm := icache_invalidate_all vm in
  vm <| ram_load_last_page := 0xFFFFFFFF |> <| ram_store_last_page := 0xFFFFFFFF |>
     <| ram_load_last_ptr := None |> <| ram_store_last_ptr := None |>.

(** [start_vpn <= v <= end_vpn], the test of every loop of
    [mmu_invalidate_range]. *)
Definition vpn_in (start_vpn end_vpn v : Z) : bool := (start_vpn <=? v) && (v <=? end_vpn).

Definition inv_way_range (lo hi : Z) (w : mmu_addr_cache_t) : mmu_addr_cache_t :=
  if vpn_in lo hi (n_pages w) then inv_way w else w.
Definition inv_set_range (lo hi : Z) (s : mmu_cache_set_t) : mmu_cache_set_t :=
  s <| way0 := inv_way_range lo hi (way0 s) |> <| way1 := inv_way_range lo hi (way1 s) |>.
Definition inv_fetch_range (lo hi : Z) (e : mmu_fetch_cache_t) : mmu_fetch_cache_t :=
  if vpn_in lo hi (f_n_pages e) then inv_fetch e else e.

(* [riscv.c:345-346] *)
Definition icache_vpn (i : Z) (blk : icache_block_t) : Z :=
  Z.shiftr (Z.lor (shl32 (tag blk) ICACHE_INDEX_BITS) i) (RV_PAGE_SHIFT - ICACHE_OFFSET_BITS).

Definition inv_block_range (vm : hart_t) (lo hi : Z) (i : nat) (blk : icache_block_t)
  : icache_block_t :=
  if negb (icache_block_valid vm blk) then blk
  else if vpn_in lo hi (icache_vpn (Z.of_nat i) blk) then blk <| valid := false |> else blk.

(* [riscv.c:324-328] *)
Definition range_start_vpn (start_addr : Z) : Z := Z.shiftr start_addr RV_PAGE_SHIFT.
Definition range_end_vpn (start_addr size : Z) : Z :=
  let end_addr := u64 (u64 (start_addr + size) - 1) in
  let end_addr := if 0xFFFFFFFF <? end_addr then 0xFFFFFFFF else end_addr in
  Z.shiftr (u32 end_addr) RV_PAGE_SHIFT.

(* [riscv.c:303-380] mmu_invalidate_range *)
Definition mmu_invalidate_range (vm : hart_t) (start_addr size : Z) : hart_t :=
  if (size =? 0) || (size =? 0xFFFFFFFF) then mmu_invalidate vm
  else
    let lo := range_start_vpn start_addr in
    let hi := range_end_vpn start_addr size in
    let vm := vm <| cache_fetch := inv_fetch_range lo hi <$> cache_fetch vm |> in
    let vm := vm <| icache := imap (inv_block_range vm lo hi) (icache vm) |> in
    let vm := vm <| cache_load := inv_set_range lo hi <$> cache_load vm |> in
    let vm := vm <| cache_store := inv_set_range lo hi <$> cache_store vm |> in
    let vm :=
      if vpn_in lo hi (cache_load_last_vpn vm)
      then vm <| cache_load_last_vpn := 0xFFFFFFFF |> <| cache_load_last_data_minus_addr := 0 |>
      else vm in
    if vpn_in lo hi (cache_store_last_vpn vm)
    then vm <| cache_store_last_vpn := 0xFFFFFFFF |> <| cache_store_last_data_minus_addr := 0 |>
    else vm.

(** ** Traps *)

(* [riscv.c:1009-1030] hart_trap *)
Definition hart_trap (vm : hart_t) : hart_t :=
  let vm := vm <| scause := exc_cause vm |> <| stval := exc_val vm |> in
  let vm := vm <| sstatus_spie := sstatus_sie vm |> <| sstatus_spp := s_mode vm |>
               <| sepc := current_pc vm |> in
  let vm := vm <| sstatus_sie := false |> in
  let vm := if negb (s_mode vm) then mmu_invalidate vm else vm in
  let vm := vm <| s_mode := true |> <| pc := stvec_addr vm |> in
  let vm :=
    if stvec_vectored vm
    then vm <| pc := u32 (pc vm + u32 (Z.land (scause vm) (MASK 31) * 4)) |>
    else vm in
  vm <| error := ERR_NONE |>.

(* [riscv.c:1474-1479] vm_init *)
Definition vm_init (vm : hart_t) : hart_t :=
  let vm := mmu_invalidate vm in
  vm <| ram_load_last_page := 0xFFFFFFFF |> <| ram_store_last_page := 0xFFFFFFFF |>.

(** A hart as [calloc] and [INIT_HART] leave it: everything zero, the caches
    with their array sizes. *)
Definition zero_hart : hart_t := mk_hart
  (replicate 32 0) 0 0 0 ERR_NONE 0 0 0 0 0 0 0 0 0 None 0 0 None 0 0 None 0 None
  false false 0 0 (mk_timer 0 0) false false 0 false 0 0 false false 0 false 0 0 0 None 0
  0 false 0 0
  (replicate 16 (mk_fetch 0 None))
  (replicate 32 (mk_set (mk_way 0 0 0) (mk_way 0 0 0) 0))
  (replicate 32 (mk_set (mk_way 0 0 0) (mk_way 0 0 0) 0))
  (replicate 256 block_dflt).
