(* ===== verification/Machine.v ===== *)
(** * The machine: one hart in its environment, guest RAM and the bus

    The functions of riscv.c take a [hart_t *vm] and reach, through it, guest
    RAM ([vm->ram_base], page-table and fetch pointers), the other harts
    ([vm->vm->hart[]]), the devices (callbacks) and two globals. [machine] is
    that view: [hart] is the hart the function was called with, [peers] is the
    array [vm->vm->hart[]] (the slot of the running hart is stale while it
    runs), [ram] the guest memory as 32-bit words, [ram_ptr] the host address of
    [emu->ram]. [ram_oob] records an access through a RAM pointer that lies
    outside [emu->ram]: memory safety is that it stays [false]. *)

From stdpp Require Import base gmap list.
From Stdlib Require Import ZArith Lia Bool.
From S2P Require Import Prelude Isa Hart.
Open Scope Z_scope.

(* [device.h:11-13] *)
Definition RAM_SIZE := 512 * 1024 * 1024.
Definition DTB_SIZE := 1 * 1024 * 1024.
Definition INITRD_SIZE := 8 * 1024 * 1024.

Record machine (D : Type) := mk_machine {
  hart : hart_t;
  peers : list hart_t;
  ram : gmap Z Z;
  ram_ptr : Z;
  ram_oob : bool;
  boot_complete : bool;
  stack_junk : Z;
  dev : D }.
Arguments mk_machine {D}.
Arguments hart {D}. Arguments peers {D}. Arguments ram {D}. Arguments ram_ptr {D}.
Arguments ram_oob {D}. Arguments boot_complete {D}. Arguments stack_junk {D}. Arguments dev {D}.

#[export] Instance eta_machine {D} : Eta (machine D) := fun r =>
  mk_machine (hart r) (peers r) (ram r) (ram_ptr r) (ram_oob r) (boot_complete r)
    (stack_junk r) (dev r).
#[export] Instance set_hart {D} : Setter (@hart D) := ltac:(solve_setter).
#[export] Instance set_peers {D} : Setter (@peers D) := ltac:(solve_setter).
#[export] Instance set_ram {D} : Setter (@ram D) := ltac:(solve_setter).
#[export] Instance set_ram_ptr {D} : Setter (@ram_ptr D) := ltac:(solve_setter).
#[export] Instance set_ram_oob {D} : Setter (@ram_oob D) := ltac:(solve_setter).
#[export] Instance set_boot_complete {D} : Setter (@boot_complete D) := ltac:(solve_setter).
#[export] Instance set_dev {D} : Setter (@dev D) := ltac:(solve_setter).

(** The bus: the callbacks [INIT_HART] installs in a hart and the two accesses
    the processor core makes to [emu_state_t] directly. A load returns [None]
    when it leaves the [uint32_t *value] out-parameter unassigned. *)
Class Bus (D : Type) := {
  mem_fetch : Z -> machine D -> option Z * machine D;
  mem_load : Z -> Z -> machine D -> option Z * machine D;
  mem_store : Z -> Z -> Z -> machine D -> machine D;
  mem_page_table : machine D -> Z -> option Z;
  wfi : machine D -> machine D;
  clear_ssip : machine D -> machine D;
  timer_get : semu_timer_t -> machine D -> Z * machine D }.

Section Machine.
Context {D : Type}.
Implicit Types s : machine D.

Definition on_hart (f : hart_t -> hart_t) s : machine D := s <| hart := f (hart s) |>.

Definition raise (cause val : Z) s : machine D :=
  on_hart (fun h => vm_set_exception h cause val) s.

Definition merr s : bool := err (hart s).

Definition n_hart s : Z := Z.of_nat (length (peers s)).

(** ** Guest RAM

    [word m i] is [mem[i]]; RAM is mapped zero-filled. *)
Definition word (m : gmap Z Z) (i : Z) : Z := default 0 (m !! i).

Definition in_ram (off len : Z) : bool := (0 <=? off) && (off + len <=? RAM_SIZE).

(** Note an access of [len] bytes through a RAM pointer. *)
Definition touch (off len : Z) s : machine D :=
  if in_ram off len then s else s <| ram_oob := true |>.

(** Read and write the 32-bit cell at byte offset [off]. *)
Definition rd32 s (off : Z) : Z := word (ram s) (off / 4).
Definition wr32 (off v : Z) s : machine D :=
  (touch off 4 s) <| ram := <[off / 4 := v]> (ram s) |>.

(** Byte and unaligned word reads, as [*(const uint32_t * ) p] performs them on a
    little-endian host. *)
Definition rd8 s (off : Z) : Z := Z.shiftr (rd32 s off) (8 * (off mod 4)) mod 2 ^ 8.
Definition rd32_any s (off : Z) : Z :=
  if off mod 4 =? 0 then rd32 s off
  else Z.lor (Z.lor (Z.lor (rd8 s off) (Z.shiftl (rd8 s (off + 1)) 8))
         (Z.shiftl (rd8 s (off + 2)) 16)) (Z.shiftl (rd8 s (off + 3)) 24).

(** ** Harts of the system: [vm->vm->hart[i]]. *)
Definition hart_at s (i : Z) : hart_t :=
  if i =? mhartid (hart s) then hart s else arr_get zero_hart (peers s) i.
Definition upd_hart (i : Z) (f : hart_t -> hart_t) s : machine D :=
  if i =? mhartid (hart s) then on_hart f s
  else s <| peers := arr_set (peers s) i (f (arr_get zero_hart (peers s) i)) |>.

(** [for (uint32_t i = 0; i < n; i++) body(i)] *)
Fixpoint for_harts (n : nat) (i : Z) (body : Z -> machine D -> machine D) s : machine D :=
  match n with
  | O => s
  | S n => for_harts n (i + 1) body (body i s)
  end.
Definition for_all_harts (body : Z -> machine D -> machine D) s : machine D :=
  for_harts (length (peers s)) 0 body s.

(** ** ram.c

    [lane] is the cell of [RAM_FUNC], [lane_read] and [lane_write] its [code]
    argument for each width; the fast paths of riscv.c use the same lanes. *)

(* [ram.c:27-39] *)
Definition lane_read (width cell shift : Z) : Z :=
  if width =? RV_MEM_LW then cell
  else if width =? RV_MEM_LHU then u16 (Z.shiftr cell shift)
  else if width =? RV_MEM_LH then u32 (s16 (Z.shiftr cell shift))
  else if width =? RV_MEM_LBU then u8 (Z.shiftr cell shift)
  else u32 (s8 (Z.shiftr cell shift)).

(* [ram.c:54-64] *)
Definition lane_write (width cell shift value : Z) : Z :=
  if width =? RV_MEM_SW then value
  else if width =? RV_MEM_SH then
    Z.lor (Z.land cell (not32 (shl32 (MASK 16) shift))) (shl32 (Z.land value (MASK 16)) shift)
  else
    Z.lor (Z.land cell (not32 (shl32 (MASK 8) shift))) (shl32 (Z.land value (MASK 8)) shift).

(** The access size in bytes of a load or store width code, 0 if illegal. *)
Definition load_size (width : Z) : Z :=
  match width with 0 | 4 => 1 | 1 | 5 => 2 | 2 => 4 | _ => 0 end.
Definition store_size (width : Z) : Z :=
  match width with 0 => 1 | 1 => 2 | 2 => 4 | _ => 0 end.

(* [ram.c:5-14] RAM_FUNC *)
Definition misaligned (addr size : Z) : bool := nz (Z.land addr (size - 1)).

(* [ram.c:16-44] ram_read *)
Definition ram_read (addr width : Z) s : option Z * machine D :=
  let size := load_size width in
  if size =? 0 then (None, raise RV_EXC_ILLEGAL_INSN 0 s)
  else if misaligned addr size then
    (None, raise RV_EXC_LOAD_MISALIGN (exc_val (hart s)) s)
  else
    let off := Z.shiftl (Z.shiftr addr 2) 2 in
    (Some (lane_read width (rd32 s off) (Z.land addr 3 * 8)), touch off 4 s).

(* [ram.c:46-69] ram_write *)
Definition ram_write (addr width value : Z) s : machine D :=
  let size := store_size width in
  if size =? 0 then raise RV_EXC_ILLEGAL_INSN 0 s
  else if misaligned addr size then raise RV_EXC_STORE_MISALIGN (exc_val (hart s)) s
  else
    let off := Z.shiftl (Z.shiftr addr 2) 2 in
    wr32 off (lane_write width (rd32 s off) (Z.land addr 3 * 8) value) s.
End Machine.
