(* ===== verification/Mmu.v ===== *)
(** * Address translation, fetch, load and store

    Models riscv.c from [mmu_set] to [mmu_store]: the Sv32 page-table walk with
    its accessed/dirty updates, the fetch path (instruction cache, fetch TLB),
    the data path (last-entry fast path, two-way set-associative TLBs, direct
    RAM access through host pointers) and the LR/SC reservations. A local
    [uintptr_t] or pointer of the source is a local here, a store through a
    pointer an update of [ram]. *)

From stdpp Require Import base gmap list.
From Stdlib Require Import ZArith Lia Bool.
From S2P Require Import Prelude Isa Hart Machine.
Open Scope Z_scope.

Section Mmu.
Context {D : Type} `{BusD : Bus D}.
Implicit Types s : machine D.

(** ** Page-table walk *)

(* [riscv.c:382-399] mmu_set *)
Definition mmu_set (satp_v : Z) s : machine D :=
  let s := on_hart mmu_invalidate s in
  if nz (Z.shiftr satp_v 31) then
    match mem_page_table s (Z.land satp_v (MASK 22)) with
    | None => s
    | Some pt =>
        on_hart (fun h => h <| page_table := Some pt |>
                            <| satp := Z.land satp_v (not32 (shl32 (MASK 9) 22)) |>) s
    end
  else on_hart (fun h => h <| page_table := None |> <| satp := 0 |>) s.

(** What [PTE_ITER] does with one page-table entry. *)
Inductive pte_kind := PtePointer | PteLeaf (ppn : Z) | PteInvalid.

(* [riscv.c:401-418] PTE_ITER *)
Definition pte_classify (pte : Z) : pte_kind :=
  match Z.land pte (MASK 4) with
  | 1 => PtePointer
  | 3 | 7 | 9 | 11 | 15 => PteLeaf (Z.shiftr pte 10)
  | _ => PteInvalid
  end.

(** The outcome of [mmu_lookup]: it returns [false] ([LookupError]), leaves
    [*pte] null ([LookupNone]), or sets [*pte] and [*ppn]. *)
Inductive lookup_result := LookupError | LookupNone | LookupLeaf (pte ppn : Z).

(* [riscv.c:427-445] mmu_lookup *)
Definition mmu_lookup (pt vpn : Z) s : lookup_result * machine D :=
  let pte := pt + 4 * Z.shiftr vpn 10 in
  let s := touch pte 4 s in
  match pte_classify (rd32 s pte) with
  | PteInvalid => (LookupNone, s)
  | PteLeaf ppn =>
      if nz (Z.land ppn (MASK 10)) then (LookupNone, s)
      else (LookupLeaf pte (Z.lor ppn (Z.land vpn (MASK 10))), s)
  | PtePointer =>
      match mem_page_table s (Z.shiftr (rd32 s pte) 10) with
      | None => (LookupError, s)
      | Some pt2 =>
          let pte := pt2 + 4 * Z.land vpn (MASK 10) in
          let s := touch pte 4 s in
          match pte_classify (rd32 s pte) with
          | PteInvalid => (LookupNone, s)
          | PteLeaf ppn => (LookupLeaf pte ppn, s)
          | PtePointer => (LookupNone, s)
          end
      end
  end.

(* [riscv.c:468-477] *)
Definition pte_permits (pte ppn access_bits : Z) (s_mode skip_privilege_test : bool) : bool :=
  negb (nz (Z.shiftr ppn 20)) && nz (Z.land pte access_bits) &&
  (Bool.eqb (negb (nz (Z.land pte 16))) s_mode || skip_privilege_test).

(* [riscv.c:447-484] mmu_translate *)
Definition mmu_translate (addr access_bits set_bits : Z) (skip : bool) (fault pfault : Z) s
  : Z * machine D :=
  let s := on_hart (fun h => h <| exc_val := addr |>) s in
  match page_table (hart s) with
  | None => (addr, s)
  | Some pt =>
      let '(r, s) := mmu_lookup pt (Z.shiftr addr RV_PAGE_SHIFT) s in
      match r with
      | LookupError => (addr, raise fault addr s)
      | LookupNone => (addr, raise pfault addr s)
      | LookupLeaf pte_ref ppn =>
          let pte := rd32 s pte_ref in
          if negb (pte_permits pte ppn access_bits (s_mode (hart s)) skip)
          then (addr, raise pfault addr s)
          else
            let new_pte := Z.lor pte set_bits in
            let s := if negb (new_pte =? pte) then wr32 pte_ref new_pte s else s in
            (Z.lor (Z.land addr (MASK RV_PAGE_SHIFT)) (shl32 ppn RV_PAGE_SHIFT), s)
      end
  end.

(* [riscv.c:486-489] mmu_fence *)
Definition mmu_fence s : machine D := on_hart mmu_invalidate s.

(** ** Instruction fetch *)

(** [*(const uint32_t * ) (p + ofs)] through a RAM pointer [p]. *)
Definition deref32 (p : option Z) (ofs : Z) s : Z * machine D :=
  match p with
  | Some b => (rd32_any s (b + ofs), touch (b + ofs) 4 s)
  | None => (0, s <| ram_oob := true |>)
  end.

(* [riscv.c:513-514] *)
Definition icache_index (addr : Z) : Z :=
  Z.land (Z.shiftr addr ICACHE_OFFSET_BITS) ICACHE_INDEX_MASK.
Definition icache_tag (addr : Z) : Z :=
  Z.shiftr addr (ICACHE_OFFSET_BITS + ICACHE_INDEX_BITS).

(* [riscv.c:516-517] *)
Definition fetch_index (vpn : Z) : Z := Z.land (Z.lxor vpn (Z.shiftr vpn 4)) 15.

(* [riscv.c:531-534] *)
Definition next_fetch_pc (addr : Z) : Z :=
  if Z.land addr ICACHE_BLOCK_MASK + 4 <? ICACHE_BLOCKS_SIZE then u32 (addr + 4) else 0xFFFFFFFF.

Definition block_at (h : hart_t) (i : Z) : icache_block_t := arr_get block_dflt (icache h) i.
Definition fetch_at (h : hart_t) (i : Z) : mmu_fetch_cache_t :=
  arr_get fetch_dflt (cache_fetch h) i.

(** The sequential-fetch shortcut applies. *)
(* [riscv.c:493-498] *)
Definition seq_fetch_hit (h : hart_t) (addr : Z) : option icache_block_t :=
  match seq_fetch_block h with
  | Some b =>
      let blk := block_at h b in
      if (addr =? seq_fetch_next_pc h) && icache_block_valid h blk && (tag blk =? icache_tag addr)
      then Some blk else None
  | None => None
  end.

(* [riscv.c:568-579] *)
Definition icache_fill (idx index tg addr : Z) s : option Z * machine D :=
  let h := hart s in
  let block_off := Z.land (Z.land addr RV_PAGE_MASK) (not32 ICACHE_BLOCK_MASK) in
  let bs := match page_addr (fetch_at h index) with
            | Some p => Some (p + block_off)
            | None => None
            end in
  let blk := mk_block tg (icache_epoch h) bs true in
  let s := on_hart (fun h => h <| icache := arr_set (icache h) idx blk |>) s in
  let '(v, s) := deref32 bs (Z.land addr ICACHE_BLOCK_MASK) s in
  (Some v, on_hart (fun h => h <| seq_fetch_block := Some idx |>
                               <| seq_fetch_next_pc := next_fetch_pc addr |>) s).

(* [riscv.c:491-580] mmu_fetch *)
Definition mmu_fetch (addr : Z) s : option Z * machine D :=
  let h := hart s in
  match seq_fetch_hit h addr with
  | Some blk =>
      let '(v, s) := deref32 (base blk) (Z.land addr ICACHE_BLOCK_MASK) s in
      (Some v, on_hart (fun h => h <| seq_fetch_next_pc := next_fetch_pc addr |>) s)
  | None =>
      let idx := icache_index addr in
      let tg := icache_tag addr in
      let blk := block_at h idx in
      let vpn := Z.shiftr addr RV_PAGE_SHIFT in
      let index := fetch_index vpn in
      if icache_block_valid h blk && (tag blk =? tg) then
        let '(v, s) := deref32 (base blk) (Z.land addr ICACHE_BLOCK_MASK) s in
        (Some v, on_hart (fun h => h <| seq_fetch_block := Some idx |>
                                     <| seq_fetch_next_pc := next_fetch_pc addr |>) s)
      else if negb (vpn =? f_n_pages (fetch_at h index)) then
        let '(addr, s) := mmu_translate addr 8 64 false RV_EXC_FETCH_FAULT RV_EXC_FETCH_PFAULT s in
        if merr s then (None, s)
        else
          let '(p, s) := mem_fetch (Z.shiftr addr RV_PAGE_SHIFT) s in
          if merr s then (None, s)
          else
            let s := on_hart (fun h => h <| cache_fetch :=
                       arr_set (cache_fetch h) index (mk_fetch vpn p) |>) s in
            icache_fill idx index tg addr s
      else icache_fill idx index tg addr s
  end.

(** ** Direct RAM access *)

(* [riscv.c:582-611] ram_cache_lookup *)
Definition ram_cache_lookup (phys_addr : Z) (is_store : bool) s : option Z * machine D :=
  let h := hart s in
  let page := Z.shiftr phys_addr RV_PAGE_SHIFT in
  match ram_base h with
  | None => (None, s)
  | Some rb =>
      if ram_size h <=? phys_addr then (None, s)
      else if is_store then
        if ram_store_last_page h =? page then (ram_store_last_ptr h, s)
        else
          let page_base := Some (rb + 4 * shl32 page (RV_PAGE_SHIFT - 2)) in
          (page_base, on_hart (fun h => h <| ram_store_last_page := page |>
                                          <| ram_store_last_ptr := page_base |>) s)
      else
        if ram_load_last_page h =? page then (ram_load_last_ptr h, s)
        else
          let page_base := Some (rb + 4 * shl32 page (RV_PAGE_SHIFT - 2)) in
          (page_base, on_hart (fun h => h <| ram_load_last_page := page |>
                                          <| ram_load_last_ptr := page_base |>) s)
  end.

(** [(uintptr_t) p] of a RAM pointer. *)
Definition host_of s (off : Z) : Z := ram_ptr s + off.

(* [riscv.c:613-622] ram_data_minus_addr *)
Definition ram_data_minus_addr (guest_addr phys_addr : Z) (is_store : bool) s : Z * machine D :=
  let '(page_ptr, s) := ram_cache_lookup phys_addr is_store s in
  match page_ptr with
  | None => (0, s)
  | Some p => (u64 (host_of s p - Z.land guest_addr (not32 RV_PAGE_MASK)), s)
  end.

(** [host_addr & ~(uintptr_t) 3] as an offset into RAM. *)
Definition host_cell s (host_addr : Z) : Z :=
  Z.land host_addr (u64 (Z.lnot 3)) - ram_ptr s.

(* [riscv.c:624-664] ram_read_host_fast *)
Definition ram_read_host_fast (host_addr width : Z) s : option Z * machine D :=
  let shift := Z.land host_addr 3 * 8 in
  let cell := host_cell s host_addr in
  let size := load_size width in
  if size =? 0 then (None, raise RV_EXC_ILLEGAL_INSN 0 s)
  else if misaligned host_addr size then
    (None, raise RV_EXC_LOAD_MISALIGN (exc_val (hart s)) s)
  else (Some (lane_read width (rd32 s cell) shift), touch cell 4 s).

(* [riscv.c:666-696] ram_write_host_fast *)
Definition ram_write_host_fast (host_addr width value : Z) s : machine D :=
  let shift := Z.land host_addr 3 * 8 in
  let cell := host_cell s host_addr in
  let size := store_size width in
  if size =? 0 then raise RV_EXC_ILLEGAL_INSN 0 s
  else if misaligned host_addr size then
    raise RV_EXC_STORE_MISALIGN (exc_val (hart s)) s
  else wr32 cell (lane_write width (rd32 s cell) shift value) s.

(* [riscv.c:698-740] ram_read_fast *)
Definition ram_read_fast (page_ptr phys_addr width : Z) s : option Z * machine D :=
  let offset := Z.land phys_addr RV_PAGE_MASK in
  let shift := Z.land offset 3 * 8 in
  let cell := page_ptr + 4 * Z.shiftr offset 2 in
  let size := load_size width in
  if size =? 0 then (None, raise RV_EXC_ILLEGAL_INSN 0 s)
  else if misaligned offset size then
    (None, raise RV_EXC_LOAD_MISALIGN (exc_val (hart s)) s)
  else (Some (lane_read width (rd32 s cell) shift), touch cell 4 s).

(* [riscv.c:742-774] ram_write_fast *)
Definition ram_write_fast (page_ptr phys_addr width value : Z) s : machine D :=
  let offset := Z.land phys_addr RV_PAGE_MASK in
  let shift := Z.land offset 3 * 8 in
  let cell := page_ptr + 4 * Z.shiftr offset 2 in
  let size := store_size width in
  if size =? 0 then raise RV_EXC_ILLEGAL_INSN 0 s
  else if misaligned offset size then
    raise RV_EXC_STORE_MISALIGN (exc_val (hart s)) s
  else wr32 cell (lane_write width (rd32 s cell) shift value) s.

(** ** Data TLB *)

(* [riscv.c:797-799] *)
Definition tlb_index (vpn : Z) : Z := Z.land (Z.lxor vpn (Z.shiftr vpn 5)) 31.

(* [riscv.c:801-810] *)
Definition tlb_probe (st : mmu_cache_set_t) (vpn : Z) : option Z :=
  let mru_way := 1 - lru st in
  if n_pages (way st mru_way) =? vpn then Some mru_way
  else if n_pages (way st (lru st)) =? vpn then Some (lru st)
  else None.

(* [riscv.c:794-795] *)
Definition phys_of (ppn addr : Z) : Z :=
  Z.lor (shl32 ppn RV_PAGE_SHIFT) (Z.land addr (MASK RV_PAGE_SHIFT)).

Definition load_set (h : hart_t) (i : Z) : mmu_cache_set_t := arr_get set_dflt (cache_load h) i.
Definition store_set (h : hart_t) (i : Z) : mmu_cache_set_t := arr_get set_dflt (cache_store h) i.

Definition upd_load_set (i : Z) (st : mmu_cache_set_t) (h : hart_t) : hart_t :=
  h <| cache_load := arr_set (cache_load h) i st |>.
Definition upd_store_set (i : Z) (st : mmu_cache_set_t) (h : hart_t) : hart_t :=
  h <| cache_store := arr_set (cache_store h) i st |>.

(* [riscv.c:854-858] *)
Definition set_load_last (vpn ppn dma : Z) (h : hart_t) : hart_t :=
  h <| cache_load_last_vpn := vpn |> <| cache_load_last_phys_ppn := ppn |>
    <| cache_load_last_data_minus_addr := dma |>.
(* [riscv.c:958-962] *)
Definition set_store_last (vpn ppn dma : Z) (h : hart_t) : hart_t :=
  h <| cache_store_last_vpn := vpn |> <| cache_store_last_phys_ppn := ppn |>
    <| cache_store_last_data_minus_addr := dma |>.

(** The tail of [mmu_load] once the physical address is known: RAM through the
    page cache, anything else through the bus, then the reservation. *)
(* [riscv.c:861-880] *)
Definition load_finish (phys_addr width : Z) (reserved : bool) s : option Z * machine D :=
  let '(page_ptr, s) := ram_cache_lookup phys_addr false s in
  let '(v, s) :=
    match page_ptr with
    | Some p => ram_read_fast p phys_addr width s
    | None => mem_load phys_addr width s
    end in
  if merr s then (v, s)
  else (v, if reserved then on_hart (fun h => h <| lr_reservation := Z.lor phys_addr 1 |>) s
           else s).

(** The TLB miss of [mmu_load]: translate, replace the victim way. *)
(* [riscv.c:832-859] *)
Definition load_miss (addr vpn set_idx width : Z) (reserved : bool) s : option Z * machine D :=
  let victim_way := lru (load_set (hart s) set_idx) in
  let access := Z.lor 2 (if sstatus_mxr (hart s) then 8 else 0) in
  let '(phys_addr, s) :=
    mmu_translate addr access 64 (sstatus_sum (hart s) && s_mode (hart s))
      RV_EXC_LOAD_FAULT RV_EXC_LOAD_PFAULT s in
  if merr s then (None, s)
  else
    let '(dma, s) := ram_data_minus_addr addr phys_addr false s in
    let w := mk_way vpn (Z.shiftr phys_addr RV_PAGE_SHIFT) dma in
    let st := (set_way (load_set (hart s) set_idx) victim_way w) <| lru := 1 - victim_way |> in
    let s := on_hart (upd_load_set set_idx st) s in
    let s := on_hart (set_load_last vpn (Z.shiftr phys_addr RV_PAGE_SHIFT)
                       (data_minus_addr (way st (1 - lru st)))) s in
    load_finish phys_addr width reserved s.

(* [riscv.c:776-880] mmu_load *)
Definition mmu_load (addr width : Z) (reserved : bool) s : option Z * machine D :=
  let s := on_hart (fun h => h <| exc_val := addr |>) s in
  let vpn := Z.shiftr addr RV_PAGE_SHIFT in
  let h := hart s in
  if cache_load_last_vpn h =? vpn then
    if nz (cache_load_last_data_minus_addr h) && negb reserved then
      ram_read_host_fast (u64 (cache_load_last_data_minus_addr h + addr)) width s
    else load_finish (phys_of (cache_load_last_phys_ppn h) addr) width reserved s
  else
    let set_idx := tlb_index vpn in
    let st := load_set h set_idx in
    match tlb_probe st vpn with
    | Some hit_way =>
        let w := way st hit_way in
        let phys_addr := phys_of (phys_ppn w) addr in
        let s := on_hart (upd_load_set set_idx (st <| lru := 1 - hit_way |>)) s in
        let s := on_hart (set_load_last vpn (Z.shiftr phys_addr RV_PAGE_SHIFT)
                           (data_minus_addr w)) s in
        if nz (data_minus_addr w) && negb reserved then
          ram_read_host_fast (u64 (data_minus_addr w + addr)) width s
        else load_finish phys_addr width reserved s
    | None => load_miss addr vpn set_idx width reserved s
    end.

(** [if ((hart->lr_reservation & 1) && (hart->lr_reservation & ~3) == (phys & ~3))
    hart->lr_reservation = 0] *)
(* [riscv.c:971-981] *)
Definition break_reservation (phys_addr : Z) (h : hart_t) : hart_t :=
  if nz (Z.land (lr_reservation h) 1) &&
     (Z.land (lr_reservation h) (not32 3) =? Z.land phys_addr (not32 3))
  then h <| lr_reservation := 0 |> else h.

(** [do_store]: the conditional test, the reservations, the write. *)
(* [riscv.c:965-996] *)
Definition do_store (host_addr phys_addr width value : Z) (cond : bool) s : bool * machine D :=
  if cond && negb (lr_reservation (hart s) =? Z.lor phys_addr 1) then (false, s)
  else
    let s :=
      if n_hart s =? 1 then on_hart (break_reservation phys_addr) s
      else for_all_harts (fun i => upd_hart i (break_reservation phys_addr)) s in
    if nz host_addr then (true, ram_write_host_fast host_addr width value s)
    else
      let '(page_ptr, s) := ram_cache_lookup phys_addr true s in
      match page_ptr with
      | Some p => (true, ram_write_fast p phys_addr width value s)
      | None => (true, mem_store phys_addr width value s)
      end.

(* [riscv.c:937-963] *)
Definition store_miss (addr vpn set_idx width value : Z) (cond : bool) s : bool * machine D :=
  let victim_way := lru (store_set (hart s) set_idx) in
  let '(phys_addr, s) :=
    mmu_translate addr 4 192 (sstatus_sum (hart s) && s_mode (hart s))
      RV_EXC_STORE_FAULT RV_EXC_STORE_PFAULT s in
  if merr s then (false, s)
  else
    let '(dma, s) := ram_data_minus_addr addr phys_addr true s in
    let w := mk_way vpn (Z.shiftr phys_addr RV_PAGE_SHIFT) dma in
    let st := (set_way (store_set (hart s) set_idx) victim_way w) <| lru := 1 - victim_way |> in
    let s := on_hart (upd_store_set set_idx st) s in
    let s := on_hart (set_store_last vpn (Z.shiftr phys_addr RV_PAGE_SHIFT)
                       (data_minus_addr (way st (1 - lru st)))) s in
    do_store 0 phys_addr width value cond s.

(* [riscv.c:882-996] mmu_store *)
Definition mmu_store (addr width value : Z) (cond : bool) s : bool * machine D :=
  let s := on_hart (fun h => h <| exc_val := addr |>) s in
  let vpn := Z.shiftr addr RV_PAGE_SHIFT in
  let h := hart s in
  if cache_store_last_vpn h =? vpn then
    let phys_addr := phys_of (cache_store_last_phys_ppn h) addr in
    let host_addr :=
      if nz (cache_store_last_data_minus_addr h) && negb cond
      then u64 (cache_store_last_data_minus_addr h + addr) else 0 in
    do_store host_addr phys_addr width value cond s
  else
    let set_idx := tlb_index vpn in
    let st := store_set h set_idx in
    match tlb_probe st vpn with
    | Some hit_way =>
        let w := way st hit_way in
        let phys_addr := phys_of (phys_ppn w) addr in
        let s := on_hart (upd_store_set set_idx (st <| lru := 1 - hit_way |>)) s in
        let s := on_hart (set_store_last vpn (Z.shiftr phys_addr RV_PAGE_SHIFT)
                           (data_minus_addr w)) s in
        let host_addr :=
          if nz (data_minus_addr w) && negb cond then u64 (data_minus_addr w + addr) else 0 in
        do_store host_addr phys_addr width value cond s
    | None => store_miss addr vpn set_idx width value cond s
    end.
End Mmu.
