(* ===== verification/Csr.v ===== *)
(** * Control and status registers, privileged instructions

    Models [op_sret] and riscv.c from [op_privileged] to [op_system]. *)

From stdpp Require Import base gmap list.
From Stdlib Require Import ZArith Lia Bool.
From S2P Require Import Prelude Isa Hart Machine Mmu.
Open Scope Z_scope.

(* [riscv.c:1094-1095] *)
Definition SIE_MASK := Z.lor (Z.lor RV_INT_SEI_BIT RV_INT_STI_BIT) RV_INT_SSI_BIT.
Definition SIP_MASK := RV_INT_SSI_BIT.

(** [(value & (1 << n)) != 0] *)
Definition bit_set (value n : Z) : bool := nz (Z.land value (Z.shiftl 1 n)).

(** [cond && ( *value |= 1 << n)] *)
Definition or_bit (cond : bool) (n value : Z) : Z :=
  if cond then Z.lor value (Z.shiftl 1 n) else value.

(** The part of [op_sret] that concerns the hart. *)
(* [riscv.c:1032-1052] op_sret *)
Definition sret_hart (vm : hart_t) : hart_t :=
  let vm := vm <| pc := sepc vm |> in
  let vm := if negb (Bool.eqb (s_mode vm) (sstatus_spp vm)) then mmu_invalidate vm else vm in
  let vm := vm <| s_mode := sstatus_spp vm |> <| sstatus_sie := sstatus_spie vm |> in
  vm <| sstatus_spp := false |> <| sstatus_spie := true |>.

(** The S-mode registers [csr_read] returns, [None] when there is none at the
    address. *)
(* [riscv.c:1122-1162] *)
Definition csr_read_s (vm : hart_t) (addr : Z) : option Z :=
  if addr =? RV_CSR_SSTATUS then
    let value := 0 in
    let value := or_bit (sstatus_sie vm) 1 value in
    let value := or_bit (sstatus_spie vm) 5 value in
    let value := or_bit (sstatus_spp vm) 8 value in
    let value := or_bit (sstatus_sum vm) 18 value in
    Some (or_bit (sstatus_mxr vm) 19 value)
  else if addr =? RV_CSR_SIE then Some (sie vm)
  else if addr =? RV_CSR_SIP then Some (sip vm)
  else if addr =? RV_CSR_STVEC then Some (or_bit (stvec_vectored vm) 0 (stvec_addr vm))
  else if addr =? RV_CSR_SATP then Some (satp vm)
  else if addr =? RV_CSR_SCOUNTEREN then Some (scounteren vm)
  else if addr =? RV_CSR_SSCRATCH then Some (sscratch vm)
  else if addr =? RV_CSR_SEPC then Some (sepc vm)
  else if addr =? RV_CSR_SCAUSE then Some (scause vm)
  else if addr =? RV_CSR_STVAL then Some (stval vm)
  else None.

(* [riscv.c:1173-1185] *)
Definition write_sstatus (value : Z) (vm : hart_t) : hart_t :=
  let old_sum := sstatus_sum vm in
  let old_mxr := sstatus_mxr vm in
  let vm := vm <| sstatus_sie := bit_set value 1 |> <| sstatus_spie := bit_set value 5 |>
               <| sstatus_spp := bit_set value 8 |> <| sstatus_sum := bit_set value 18 |>
               <| sstatus_mxr := bit_set value 19 |> in
  if negb (Bool.eqb (sstatus_sum vm) old_sum) || negb (Bool.eqb (sstatus_mxr vm) old_mxr)
  then mmu_invalidate vm else vm.

Section Csr.
Context {D : Type} `{BusD : Bus D}.
Implicit Types s : machine D.

Definition op_sret s : machine D :=
  let s := on_hart sret_hart s in
  if negb (boot_complete s) && negb (s_mode (hart s))
  then s <| boot_complete := true |> else s.

(* [riscv.c:1054-1083] op_privileged *)
Definition op_privileged (insn : Z) s : machine D :=
  if Z.shiftr insn 25 =? 9 then mmu_fence s
  else if nz (Z.land insn (Z.lor (Z.shiftl (MASK 5) 7) (Z.shiftl (MASK 5) 15)))
  then raise RV_EXC_ILLEGAL_INSN 0 s
  else
    let f12 := decode_i_unsigned insn in
    if f12 =? 1 then raise RV_EXC_BREAKPOINT (current_pc (hart s)) s
    else if f12 =? 0 then
      raise (if s_mode (hart s) then RV_EXC_ECALL_S else RV_EXC_ECALL_U) 0 s
    else if f12 =? 0x102 then op_sret s
    else if f12 =? 0x105 then wfi s
    else raise RV_EXC_ILLEGAL_INSN 0 s.

(* [riscv.c:1098-1163] csr_read *)
Definition csr_read (addr : Z) s : option Z * machine D :=
  if addr =? RV_CSR_TIME then
    let '(t, s) := timer_get (time (hart s)) s in (Some (u32 t), s)
  else if addr =? RV_CSR_TIMEH then
    let '(t, s) := timer_get (time (hart s)) s in (Some (u32 (Z.shiftr t 32)), s)
  else if addr =? RV_CSR_INSTRET then (Some (u32 (instret (hart s))), s)
  else if addr =? RV_CSR_INSTRETH then (Some (u32 (Z.shiftr (instret (hart s)) 32)), s)
  else if negb (s_mode (hart s)) then (None, raise RV_EXC_ILLEGAL_INSN 0 s)
  else
    match csr_read_s (hart s) addr with
    | Some v => (Some v, s)
    | None => (None, raise RV_EXC_ILLEGAL_INSN 0 s)
    end.

(* [riscv.c:1165-1221] csr_write *)
Definition csr_write (addr value : Z) s : machine D :=
  if negb (s_mode (hart s)) then raise RV_EXC_ILLEGAL_INSN 0 s
  else if addr =? RV_CSR_SSTATUS then on_hart (write_sstatus value) s
  else if addr =? RV_CSR_SIE then on_hart (fun h => h <| sie := Z.land value SIE_MASK |>) s
  else if addr =? RV_CSR_SIP then
    on_hart (fun h => h <| sip := Z.lor (Z.land value SIP_MASK)
                                    (Z.land (sip h) (not32 SIP_MASK)) |>) s
  else if addr =? RV_CSR_STVEC then
    on_hart (fun h => h <| stvec_addr := Z.land value (not32 3) |>
                        <| stvec_vectored := bit_set value 0 |>) s
  else if addr =? RV_CSR_SATP then mmu_set value s
  else if addr =? RV_CSR_SCOUNTEREN then on_hart (fun h => h <| scounteren := value |>) s
  else if addr =? RV_CSR_SSCRATCH then on_hart (fun h => h <| sscratch := value |>) s
  else if addr =? RV_CSR_SEPC then on_hart (fun h => h <| sepc := value |>) s
  else if addr =? RV_CSR_SCAUSE then on_hart (fun h => h <| scause := value |>) s
  else if addr =? RV_CSR_STVAL then on_hart (fun h => h <| stval := value |>) s
  else raise RV_EXC_ILLEGAL_INSN 0 s.

(** The content of a local after a callee that may leave it unassigned. *)
Definition assigned s (o : option Z) : Z := default (stack_junk s) o.

(* [riscv.c:1223-1233] op_csr_rw *)
Definition op_csr_rw (rd csr wvalue : Z) s : machine D :=
  if nz rd then
    let '(value, s) := csr_read csr s in
    if merr s then s
    else csr_write csr wvalue (on_hart (fun h => set_dest_idx h rd (assigned s value)) s)
  else csr_write csr wvalue s.

(* [riscv.c:1235-1249] op_csr_cs *)
Definition op_csr_cs (rd rs1 csr setmask clearmask : Z) s : machine D :=
  let '(value, s) := csr_read csr s in
  if merr s then s
  else
    let v := assigned s value in
    let s := on_hart (fun h => set_dest_idx h rd v) s in
    if nz rs1 then csr_write csr (Z.lor (Z.land v (not32 clearmask)) setmask) s else s.

(* [riscv.c:1281-1285] *)
Definition rebuild_insn (d : decoded_insn_t) : Z :=
  Z.lor (Z.lor (Z.lor (Z.lor (Z.lor (Z.shiftl (decoded_funct7 d) 25)
    (Z.shiftl (decoded_rs2 d) 20)) (Z.shiftl (decoded_rs1 d) 15))
    (Z.shiftl (decoded_funct3 d) 12)) (Z.shiftl (decoded_rd d) 7)) (decoded_opcode d).

(* [riscv.c:1251-1292] op_system *)
Definition op_system (d : decoded_insn_t) s : machine D :=
  let csr := u16 (imm d) in
  let rd := decoded_rd d in
  let rs1 := decoded_rs1 d in
  let x := reg (hart s) rs1 in
  match decoded_funct3 d with
  | 1 => op_csr_rw rd csr x s                       (* CSRRW *)
  | 5 => op_csr_rw rd csr rs1 s                     (* CSRRWI *)
  | 2 => op_csr_cs rd rs1 csr x 0 s                 (* CSRRS *)
  | 6 => op_csr_cs rd rs1 csr rs1 0 s               (* CSRRSI *)
  | 3 => op_csr_cs rd rs1 csr 0 x s                 (* CSRRC *)
  | 7 => op_csr_cs rd rs1 csr 0 rs1 s               (* CSRRCI *)
  | 0 => op_privileged (rebuild_insn d) s           (* SYS_PRIV *)
  | _ => raise RV_EXC_ILLEGAL_INSN 0 s
  end.
End Csr.
