(* ===== verification/Exec.v ===== *)
(** * Instruction execution

    Models riscv.c from [op_jmp] to [vm_step]: jumps and branches, the atomic
    instructions, interrupt delivery, the portable interpreter
    [vm_execute_insn], and [vm_step_many] both as the computed-goto dispatcher
    that GCC and Clang compile and as the switch-based loop of other compilers. The handlers behind the dispatch labels are separate
    definitions; each says how it leaves the handler ([outcome]). *)

From stdpp Require Import base gmap list.
From Stdlib Require Import ZArith Lia Bool.
From S2P Require Import Prelude Isa Hart Machine Mmu Csr.
Open Scope Z_scope.

(* [riscv_private.h:137-145] *)
Definition SBI_HSM_STATE_STARTED := 0.
Definition SBI_HSM_STATE_STOPPED := 1.
Definition SBI_HSM_STATE_START_PENDING := 2.
Definition SBI_HSM_STATE_STOP_PENDING := 3.
Definition SBI_HSM_STATE_SUSPENDED := 4.
Definition SBI_HSM_STATE_SUSPEND_PENDING := 5.
Definition SBI_HSM_STATE_RESUME_PENDING := 6.

(** [switch (funct3)] of a branch; [None] is the illegal encodings. *)
(* [riscv.c:1366-1379] *)
Definition branch_taken (funct3 a b : Z) : option bool :=
  match funct3 with
  | 0 => Some (a =? b)
  | 1 => Some (negb (a =? b))
  | 6 => Some (a <? b)
  | 7 => Some (b <=? a)
  | 4 => Some (s32 a <? s32 b)
  | 5 => Some (s32 b <=? s32 a)
  | _ => None
  end.

(* [riscv.c:1441-1467] *)
Definition amo_value (funct5 value value2 : Z) : option Z :=
  match funct5 with
  | 1 => Some value2                                              (* AMOSWAP *)
  | 0 => Some (u32 (value + value2))                              (* AMOADD *)
  | 4 => Some (Z.lxor value value2)                               (* AMOXOR *)
  | 12 => Some (Z.land value value2)                              (* AMOAND *)
  | 8 => Some (Z.lor value value2)                                (* AMOOR *)
  | 16 => Some (if s32 value <? s32 value2 then value else value2) (* AMOMIN *)
  | 20 => Some (if s32 value2 <? s32 value then value else value2) (* AMOMAX *)
  | 24 => Some (if value <? value2 then value else value2)        (* AMOMINU *)
  | 28 => Some (if value2 <? value then value else value2)        (* AMOMAXU *)
  | _ => None
  end.

Section Exec.
Context {D : Type} `{BusD : Bus D}.
Implicit Types s : machine D.

Definition set_reg (rd x : Z) s : machine D := on_hart (fun h => set_dest_idx h rd x) s.
Definition set_pc_to (addr : Z) s : machine D := on_hart (fun h => h <| pc := addr |>) s.
Definition xreg s (i : Z) : Z := reg (hart s) i.

(* [riscv.c:1364-1382] op_jmp *)
Definition op_jmp (funct3 a b : Z) s : bool * machine D :=
  match branch_taken funct3 a b with
  | Some t => (t, s)
  | None => (false, raise RV_EXC_ILLEGAL_INSN 0 s)
  end.

(* [riscv.c:1384-1390] do_jump *)
Definition do_jump (addr : Z) s : machine D :=
  if nz (Z.land addr 3) then raise RV_EXC_PC_MISALIGN addr s else set_pc_to addr s.

(* [riscv.c:1392-1400] op_jump_link *)
Definition op_jump_link (rd addr : Z) s : machine D :=
  if nz (Z.land addr 3) then raise RV_EXC_PC_MISALIGN addr s
  else set_pc_to addr (set_reg rd (pc (hart s)) s).

(* [riscv.c:1402-1412] AMO_OP *)
Definition amo_op (d : decoded_insn_t) (addr : Z) (stored : Z -> Z -> Z) s : machine D :=
  let value2 := xreg s (decoded_rs2 d) in
  let '(v, s) := mmu_load addr RV_MEM_LW false s in
  if merr s then s
  else
    let value := assigned s v in
    let s := set_reg (decoded_rd d) value s in
    snd (mmu_store addr RV_MEM_SW (stored value value2) false s).

(* [riscv.c:1414-1472] op_amo *)
Definition op_amo (d : decoded_insn_t) s : machine D :=
  if negb (decoded_funct3 d =? 2) then raise RV_EXC_ILLEGAL_INSN 0 s
  else
    let addr := xreg s (decoded_rs1 d) in
    let funct5 := decoded_funct5 d in
    if funct5 =? 2 then (* AMO_LR *)
      if nz (Z.land addr 3) then raise RV_EXC_LOAD_MISALIGN addr s
      else if nz (decoded_rs2 d) then raise RV_EXC_ILLEGAL_INSN 0 s
      else
        let '(v, s) := mmu_load addr RV_MEM_LW true s in
        if merr s then s else set_reg (decoded_rd d) (assigned s v) s
    else if funct5 =? 3 then (* AMO_SC *)
      if nz (Z.land addr 3) then raise RV_EXC_STORE_MISALIGN addr s
      else
        let '(ok, s) := mmu_store addr RV_MEM_SW (xreg s (decoded_rs2 d)) true s in
        if merr s then s else set_reg (decoded_rd d) (if ok then 0 else 1) s
    else
      match amo_value funct5 0 0 with
      | Some _ =>
          amo_op d addr (fun value value2 => default 0 (amo_value funct5 value value2)) s
      | None => raise RV_EXC_ILLEGAL_INSN 0 s
      end.

(* [riscv.c:1482-1495] vm_handle_pending_interrupt *)
Definition vm_handle_pending_interrupt s : machine D :=
  let h := hart s in
  if (sstatus_sie h || negb (s_mode h)) && nz (Z.land (sip h) (sie h)) then
    let applicable := Z.land (sip h) (sie h) in
    let idx := u8 (ilog2 applicable) in
    let s := if idx =? 1 then clear_ssip s else s in
    on_hart (fun h => hart_trap (h <| exc_cause := Z.lor 0x80000000 idx |> <| stval := 0 |>)) s
  else s.

(* [riscv.c:1497-1590] vm_execute_insn *)
Definition vm_execute_insn (insn : Z) s : bool * machine D :=
  let opcode := Z.land insn (MASK 7) in
  let funct3 := decode_func3 insn in
  let rd := decode_rd insn in
  let rs1 := xreg s (decode_rs1 insn) in
  let rs2 := xreg s (decode_rs2 insn) in
  let neg := nz (Z.land insn (Z.shiftl 1 30)) in
  if opcode =? RV32_OP_IMM then
    (true, set_reg rd (op_rv32i funct3 neg false rs1 (decode_i insn)) s)
  else if opcode =? RV32_OP then
    (true, if negb (nz (Z.land insn (Z.shiftl 1 25)))
           then set_reg rd (op_rv32i funct3 neg true rs1 rs2) s
           else set_reg rd (op_mul funct3 rs1 rs2) s)
  else if opcode =? RV32_LUI then (true, set_reg rd (decode_u insn) s)
  else if opcode =? RV32_AUIPC then
    (true, set_reg rd (u32 (decode_u insn + current_pc (hart s))) s)
  else if opcode =? RV32_JAL then
    (true, op_jump_link rd (u32 (decode_j insn + current_pc (hart s))) s)
  else if opcode =? RV32_JALR then
    (true, op_jump_link rd (Z.land (u32 (decode_i insn + rs1)) (not32 1)) s)
  else if opcode =? RV32_BRANCH then
    let '(taken, s) := op_jmp funct3 rs1 rs2 s in
    (true, if taken then do_jump (u32 (decode_b insn + current_pc (hart s))) s else s)
  else if opcode =? RV32_LOAD then
    let '(v, s) := mmu_load (u32 (rs1 + decode_i insn)) funct3 false s in
    if merr s then (false, s) else (true, set_reg rd (assigned s v) s)
  else if opcode =? RV32_STORE then
    let '(_, s) := mmu_store (u32 (rs1 + decode_s insn)) funct3 rs2 false s in
    if merr s then (false, s) else (true, s)
  else if opcode =? RV32_MISC_MEM then
    (false, if (funct3 =? 0) || (funct3 =? 1) then s else raise RV_EXC_ILLEGAL_INSN 0 s)
  else if opcode =? RV32_AMO then (false, op_amo (decode_insn insn) s)
  else if opcode =? RV32_SYSTEM then (false, op_system (decode_insn insn) s)
  else (false, raise RV_EXC_ILLEGAL_INSN 0 s).

(** ** The threaded dispatcher *)

(** How a handler leaves: [DISPATCH_NEXT], [DISPATCH_CHAIN], [DISPATCH_BREAK] or
    [goto L_error]. *)
Inductive outcome := Next | Chain | Break | Error.

(* [riscv.c:1706-1752] OP_IMM_HANDLER *)
Definition L_op_imm (insn : Z) s : outcome * machine D :=
  let rd := decode_rd insn in
  let rs1 := xreg s (decode_rs1 insn) in
  let i := decode_i insn in
  let neg := nz (Z.land insn (Z.shiftl 1 30)) in
  let r :=
    match decode_func3 insn with
    | 0 => u32 (rs1 + i)                                       (* L_addi *)
    | 1 => shl32 rs1 (Z.land i (MASK 5))                       (* L_slli *)
    | 2 => b2z (s32 rs1 <? s32 i)                              (* L_slti *)
    | 3 => b2z (rs1 <? i)                                      (* L_sltiu *)
    | 4 => Z.lxor rs1 i                                        (* L_xori *)
    | 5 => if neg then u32 (Z.shiftr (s32 rs1) (Z.land i (MASK 5)))
           else Z.shiftr rs1 (Z.land i (MASK 5))               (* L_srxi *)
    | 6 => Z.lor rs1 i                                         (* L_ori *)
    | _ => Z.land rs1 i                                        (* L_andi *)
    end in
  (Next, set_reg rd r s).

(* [riscv.c:1717-1794] OP_HANDLER *)
Definition L_op (insn : Z) s : outcome * machine D :=
  let rd := decode_rd insn in
  let rs1 := xreg s (decode_rs1 insn) in
  let rs2 := xreg s (decode_rs2 insn) in
  let neg := nz (Z.land insn (Z.shiftl 1 30)) in
  if nz (Z.land insn (Z.shiftl 1 25)) then
    (Next, set_reg rd (op_mul (decode_func3 insn) rs1 rs2) s)
  else
    let r :=
      match decode_func3 insn with
      | 0 => if neg then u32 (rs1 - rs2) else u32 (rs1 + rs2)  (* L_add_sub *)
      | 1 => shl32 rs1 (Z.land rs2 (MASK 5))                   (* L_sll *)
      | 2 => b2z (s32 rs1 <? s32 rs2)                          (* L_slt *)
      | 3 => b2z (rs1 <? rs2)                                  (* L_sltu *)
      | 4 => Z.lxor rs1 rs2                                    (* L_xor *)
      | 5 => if neg then u32 (Z.shiftr (s32 rs1) (Z.land rs2 (MASK 5)))
             else Z.shiftr rs1 (Z.land rs2 (MASK 5))           (* L_srx *)
      | 6 => Z.lor rs1 rs2                                     (* L_or *)
      | _ => Z.land rs1 rs2                                    (* L_and *)
      end in
    (Next, set_reg rd r s).

(* [riscv.c:1796-1804] L_lui *)
Definition L_lui (insn : Z) s : outcome * machine D :=
  (Next, set_reg (decode_rd insn) (decode_u insn) s).
Definition L_auipc (insn : Z) s : outcome * machine D :=
  (Next, set_reg (decode_rd insn) (u32 (decode_u insn + current_pc (hart s))) s).

(* [riscv.c:1806-1833] L_jal *)
Definition jump_chain (rd addr : Z) s : outcome * machine D :=
  if nz (Z.land addr 3) then (Error, raise RV_EXC_PC_MISALIGN addr s)
  else
    let link := pc (hart s) in
    let s := on_hart (fun h =>
      if rd =? 1 then h <| x_regs := arr_set (x_regs h) 1 link |>
      else if nz rd then h <| x_regs := arr_set (x_regs h) rd link |> else h) s in
    (Chain, set_pc_to addr s).
Definition L_jal (insn : Z) s : outcome * machine D :=
  jump_chain (decode_rd insn) (u32 (decode_j insn + current_pc (hart s))) s.
Definition L_jalr (insn : Z) s : outcome * machine D :=
  jump_chain (decode_rd insn)
    (Z.land (u32 (decode_i insn + xreg s (decode_rs1 insn))) (not32 1)) s.

(* [riscv.c:1834-1868] L_branch *)
Definition L_branch (insn : Z) s : outcome * machine D :=
  match branch_taken (decode_func3 insn) (xreg s (decode_rs1 insn)) (xreg s (decode_rs2 insn)) with
  | None => (Error, raise RV_EXC_ILLEGAL_INSN 0 s)
  | Some true =>
      let s := do_jump (u32 (decode_b insn + current_pc (hart s))) s in
      if merr s then (Error, s) else (Chain, s)
  | Some false => (Next, s)
  end.

(* [riscv.c:1870-1879] L_load *)
Definition L_load (insn : Z) s : outcome * machine D :=
  let '(v, s) := mmu_load (u32 (xreg s (decode_rs1 insn) + decode_i insn))
                   (decode_func3 insn) false s in
  if merr s then (Error, s) else (Next, set_reg (decode_rd insn) (assigned s v) s).

(* [riscv.c:1881-1887] L_store *)
Definition L_store (insn : Z) s : outcome * machine D :=
  let '(_, s) := mmu_store (u32 (xreg s (decode_rs1 insn) + decode_s insn))
                   (decode_func3 insn) (xreg s (decode_rs2 insn)) false s in
  if merr s then (Error, s) else (Next, s).

(* [riscv.c:1889-1902] L_misc_mem *)
Definition L_misc_mem (insn : Z) s : outcome * machine D :=
  match decode_func3 insn with
  | 0 => (Break, s)
  | 1 => (Break, on_hart vm_fence_i s)
  | _ => (Error, raise RV_EXC_ILLEGAL_INSN 0 s)
  end.

(* [riscv.c:1904-1912] L_amo *)
Definition L_amo (insn : Z) s : outcome * machine D :=
  let s := op_amo (decode_insn insn) s in
  if merr s then (Error, s) else (Break, s).

(* [riscv.c:1914-1922] L_system *)
Definition L_system (insn : Z) s : outcome * machine D :=
  let s := op_system (decode_insn insn) s in
  if merr s then (Error, s) else (Break, s).

(* [riscv.c:1924-1927] L_illegal *)
Definition L_illegal s : outcome * machine D := (Error, raise RV_EXC_ILLEGAL_INSN 0 s).

(* [riscv.c:1607-1642] DISPATCH_PTR *)
Definition dispatch (insn : Z) s : outcome * machine D :=
  let opcode := Z.land insn (MASK 7) in
  if opcode =? RV32_OP_IMM then L_op_imm insn s
  else if opcode =? RV32_OP then L_op insn s
  else if opcode =? RV32_LUI then L_lui insn s
  else if opcode =? RV32_AUIPC then L_auipc insn s
  else if opcode =? RV32_JAL then L_jal insn s
  else if opcode =? RV32_JALR then L_jalr insn s
  else if opcode =? RV32_BRANCH then L_branch insn s
  else if opcode =? RV32_LOAD then L_load insn s
  else if opcode =? RV32_STORE then L_store insn s
  else if opcode =? RV32_MISC_MEM then L_misc_mem insn s
  else if opcode =? RV32_AMO then L_amo insn s
  else if opcode =? RV32_SYSTEM then L_system insn s
  else L_illegal s.

Definition retire s : machine D := on_hart (fun h => h <| instret := u64 (instret h + 1) |>) s.
Definition mark_pc s : machine D := on_hart (fun h => h <| current_pc := pc h |>) s.
Definition pc_plus_4 s : machine D := on_hart (fun h => h <| pc := u32 (pc h + 4) |>) s.

(** [insn = *seq_ptr++; vm->pc += 4; if (!(vm->pc & ICACHE_BLOCK_MASK)) seq_ptr = NULL;] *)
(* [riscv.c:1649-1656] *)
Definition fetch_seq (p : Z) s : Z * option Z * machine D :=
  let '(insn, s) := deref32 (Some p) 0 s in
  let s := pc_plus_4 s in
  (insn, if nz (Z.land (pc (hart s)) ICACHE_BLOCK_MASK) then Some (p + 4) else None, s).

(** Interrupt check before a fetch; a taken interrupt drops [seq_ptr]. *)
(* [riscv.c:1934-1939] *)
Definition check_interrupt (seq_ptr : option Z) s : option Z * machine D :=
  let s := mark_pc s in
  let s := vm_handle_pending_interrupt s in
  if negb (pc (hart s) =? current_pc (hart s)) then (None, mark_pc s) else (seq_ptr, s).

(** The fetch of [L_slow_path]: the instruction and the new [seq_ptr], or
    [None] when the fetch raised an exception. *)
(* [riscv.c:1929-1965] *)
Definition slow_fetch (seq_ptr : option Z) s : option (Z * option Z) * machine D :=
  let '(seq_ptr, s) := check_interrupt seq_ptr s in
  match seq_ptr with
  | Some p =>
      let '(insn, sp, s) := fetch_seq p s in (Some (insn, sp), s)
  | None =>
      let '(v, s) := mmu_fetch (pc (hart s)) s in
      if merr s then (None, s)
      else
        let h := hart s in
        let sp :=
          match seq_fetch_block h with
          | Some b =>
              let offset_words := Z.shiftr (Z.land (pc h) ICACHE_BLOCK_MASK) 2 + 1 in
              if offset_words <? Z.shiftr ICACHE_BLOCKS_SIZE 2
              then match base (block_at h b) with
                   | Some p => Some (p + 4 * offset_words)
                   | None => None
                   end
              else None
          | None => None
          end in
        let s := pc_plus_4 s in
        (Some (assigned s v, if nz (Z.land (pc (hart s)) ICACHE_BLOCK_MASK) then sp else None), s)
  end.

(** The fetch of [DISPATCH_CHAIN]: interrupt check, then the inlined
    instruction-cache lookup; [None] falls back to [L_slow_path]. *)
(* [riscv.c:1674-1703] *)
Definition chain_fetch (seq_ptr : option Z) s : option (Z * option Z) * machine D :=
  let '(_, s) := check_interrupt seq_ptr s in
  let h := hart s in
  let addr := pc h in
  let idx := icache_index addr in
  let blk := block_at h idx in
  if icache_block_valid h blk && (tag blk =? icache_tag addr) then
    let ofs := Z.land addr ICACHE_BLOCK_MASK in
    let '(insn, s) := deref32 (base blk) ofs s in
    let next_ofs := ofs + 4 in
    let s := on_hart (fun h => h <| seq_fetch_block := Some idx |>
               <| seq_fetch_next_pc :=
                    if next_ofs <? ICACHE_BLOCKS_SIZE then u32 (addr + 4) else 0xFFFFFFFF |>) s in
    let sp := if next_ofs <? ICACHE_BLOCKS_SIZE
              then match base blk with Some p => Some (p + next_ofs) | None => None end
              else None in
    (Some (insn, sp), pc_plus_4 s)
  else (None, s).

(** Where control is: about to dispatch a fetched instruction, or at
    [L_slow_path]. *)
Inductive control := AtDispatch (insn : Z) (seq_ptr : option Z) | AtSlowPath (seq_ptr : option Z).

(** The loop of [vm_step_many] with [left = steps - executed] instructions to
    go: returns how many more were attempted. Every dispatch consumes one. *)
(* [riscv.c:1643-1704] DISPATCH_NEXT *)
Fixpoint run_loop (left : nat) (c : control) s : nat * machine D :=
  match left with
  | O => (O, s)
  | S left' =>
      let '(f, s) :=
        match c with
        | AtDispatch insn sp => (Some (insn, sp), s)
        | AtSlowPath sp => slow_fetch sp s
        end in
      match f with
      | None => (O, s)
      | Some (insn, sp) =>
          let '(o, s) := dispatch insn s in
          match o with
          | Error => (1%nat, s)
          | Break =>
              let '(n, s) := run_loop left' (AtSlowPath None) (retire s) in (S n, s)
          | Next =>
              let s := retire s in
              match left' with
              | O => (1%nat, s)
              | S _ =>
                  let s := mark_pc s in
                  match sp with
                  | Some p =>
                      let '(insn, sp, s) := fetch_seq p s in
                      let '(n, s) := run_loop left' (AtDispatch insn sp) s in (S n, s)
                  | None =>
                      let '(n, s) := run_loop left' (AtSlowPath None) s in (S n, s)
                  end
              end
          | Chain =>
              let s := retire s in
              match left' with
              | O => (1%nat, s)
              | S _ =>
                  let '(f, s) := chain_fetch sp s in
                  match f with
                  | Some (insn, sp) =>
                      let '(n, s) := run_loop left' (AtDispatch insn sp) s in (S n, s)
                  | None =>
                      let '(n, s) := run_loop left' (AtSlowPath None) s in (S n, s)
                  end
              end
          end
      end
  end.

(* [riscv.c:1592-1605] vm_step_many *)
Definition vm_step_many (steps : Z) s : Z * machine D :=
  if negb (hsm_status (hart s) =? SBI_HSM_STATE_STARTED) || merr s then (0, s)
  else let '(n, s) := run_loop (Z.to_nat steps) (AtSlowPath None) s in (Z.of_nat n, s).

(** ** The switch-based loop

    What compilers without computed goto build instead of the dispatcher. *)

(** The fetch of one iteration: the instruction and the new [seq_ptr], or [None]
    when it raised an exception. *)
(* [riscv.c:1975-2003] *)
Definition portable_fetch (seq_ptr : option Z) s : option (Z * option Z) * machine D :=
  let pc0 := pc (hart s) in
  let s := vm_handle_pending_interrupt (mark_pc s) in
  let seq_ptr := if negb (pc (hart s) =? pc0) then None else seq_ptr in
  let s := mark_pc s in
  match seq_ptr with
  | Some p =>
      let '(insn, s) := deref32 (Some p) 0 s in
      (Some (insn, if nz (Z.land (pc (hart s)) ICACHE_BLOCK_MASK) then Some (p + 4) else None), s)
  | None =>
      let '(v, s) := mmu_fetch (pc (hart s)) s in
      if merr s then (None, s)
      else
        let h := hart s in
        let sp :=
          match seq_fetch_block h with
          | Some b =>
              let offset_words := Z.shiftr (Z.land (pc h) ICACHE_BLOCK_MASK) 2 + 1 in
              if offset_words <? Z.shiftr ICACHE_BLOCKS_SIZE 2
              then match base (block_at h b) with
                   | Some p => Some (p + 4 * offset_words)
                   | None => None
                   end
              else None
          | None => None
          end in
        (Some (assigned s v, sp), s)
  end.

(* [riscv.c:1974-2016] *)
Fixpoint portable_loop (left : nat) (seq_ptr : option Z) s : nat * machine D :=
  match left with
  | O => (O, s)
  | S left' =>
      let '(f, s) := portable_fetch seq_ptr s in
      match f with
      | None => (O, s)
      | Some (insn, sp) =>
          let '(keep_linear, s) := vm_execute_insn insn (pc_plus_4 s) in
          if merr s then (1%nat, s)
          else
            let s := retire s in
            let sp := if negb keep_linear || negb (pc (hart s) =? u32 (current_pc (hart s) + 4))
                      then None else sp in
            let '(n, s) := portable_loop left' sp s in (S n, s)
      end
  end.

(* [riscv.c:1972-2019] vm_step_many *)
Definition vm_step_many_portable (steps : Z) s : Z * machine D :=
  if negb (hsm_status (hart s) =? SBI_HSM_STATE_STARTED) || merr s then (0, s)
  else let '(n, s) := portable_loop (Z.to_nat steps) None s in (Z.of_nat n, s).

(* [riscv.c:2021-2030] vm_step *)
Definition vm_step s : machine D :=
  if negb (hsm_status (hart s) =? SBI_HSM_STATE_STARTED) then s
  else if merr s then s
  else snd (vm_step_many 1 s).
End Exec.
