(* ===== verification/Arch.v ===== *)
(** * The architectural view of a machine

    The translation caches, the instruction cache and the RAM page cache of a
    hart are performance state. [arch] forgets them; two machines are
    architecturally equal when their [arch] views are equal. Operations that do
    not look at the caches are natural in [arch], so they respect that
    equivalence; [BusLaws] requires the same of the bus, next to the contracts
    the processor core relies on. *)

From stdpp Require Import base gmap list.
From Stdlib Require Import ZArith Lia Bool Morphisms Setoid.
From S2P Require Import Prelude Isa Hart Machine Mmu.
Open Scope Z_scope.

Definition erase (h : hart_t) : hart_t :=
  h <| cache_load_last_vpn := 0 |> <| cache_load_last_phys_ppn := 0 |>
    <| cache_load_last_data_minus_addr := 0 |> <| cache_store_last_vpn := 0 |>
    <| cache_store_last_phys_ppn := 0 |> <| cache_store_last_data_minus_addr := 0 |>
    <| seq_fetch_block := None |> <| seq_fetch_next_pc := 0 |> <| icache_epoch := 0 |>
    <| ram_load_last_page := 0 |> <| ram_load_last_ptr := None |>
    <| ram_store_last_page := 0 |> <| ram_store_last_ptr := None |>
    <| cache_fetch := [] |> <| cache_load := [] |> <| cache_store := [] |> <| icache := [] |>.

#[global] Arguments erase : simpl never.

(** What a bus access may change in the hart that makes it: the exception
    state, the pending interrupts and the WFI flag. *)
Definition bus_frame (h h' : hart_t) : Prop :=
  h' = h <| error := error h' |> <| exc_cause := exc_cause h' |> <| exc_val := exc_val h' |>
         <| sip := sip h' |> <| in_wfi := in_wfi h' |>.

(** The page of RAM a physical page number denotes, as a RAM pointer. *)
Definition ram_page (ppn : Z) : option Z :=
  if ppn <? RAM_SIZE / RV_PAGE_SIZE then Some (ppn * RV_PAGE_SIZE) else None.

Section Arch.
Context {D : Type}.
Implicit Types s : machine D.

Definition arch s : machine D := on_hart erase s.

#[global] Arguments arch : simpl never.
Definition archr {A} (r : A * machine D) : A * machine D := (fst r, arch (snd r)).

Definition arch_eq s1 s2 : Prop := arch s1 = arch s2.

#[global] Instance arch_eq_equiv : Equivalence arch_eq.
Proof.
  unfold arch_eq. split; [intros s; done|intros s1 s2; done|].
  intros s1 s2 s3 H1 H2. by rewrite H1.
Qed.

(** Cache updates are invisible. *)
Definition cache_only (f : hart_t -> hart_t) : Prop := forall h, erase (f h) = erase h.

Lemma archr_pair {A} (v : A) s : archr (v, s) = (v, arch s).
Proof. done. Qed.

(** An update of architectural state commutes with the view. *)
Lemma arch_on_hart f s : (forall h, erase (f h) = f (erase h)) ->
  arch (on_hart f s) = on_hart f (arch s).
Proof. intros Hf. unfold arch, on_hart. cbn. by rewrite Hf. Qed.

Lemma arch_cache_only f s : cache_only f -> arch (on_hart f s) = arch s.
Proof. intros Hf. unfold arch, on_hart. cbn. by rewrite Hf. Qed.

(** A natural operation respects architectural equality. *)
Lemma natural_arch_eq {A} (f : machine D -> A * machine D) s1 s2 :
  (forall s, archr (f s) = f (arch s)) -> arch s1 = arch s2 -> archr (f s1) = archr (f s2).
Proof. intros Hf H. by rewrite !Hf, H. Qed.

Lemma natural_arch_eq1 (f : machine D -> machine D) s1 s2 :
  (forall s, arch (f s) = f (arch s)) -> arch s1 = arch s2 -> arch (f s1) = arch (f s2).
Proof. intros Hf H. by rewrite !Hf, H. Qed.

Lemma arch_raise c v s : arch (raise c v s) = raise c v (arch s).
Proof. reflexivity. Qed.

Lemma arch_touch off len s : arch (touch off len s) = touch off len (arch s).
Proof. unfold touch. by destruct (in_ram off len). Qed.

Lemma arch_wr32 off v s : arch (wr32 off v s) = wr32 off v (arch s).
Proof. unfold wr32, touch. by destruct (in_ram off 4). Qed.

Lemma arch_merr s : merr (arch s) = merr s.
Proof. reflexivity. Qed.

Lemma archr_ram_read a w s : archr (ram_read a w s) = ram_read a w (arch s).
Proof.
  unfold ram_read. destruct (load_size w =? 0); [done|].
  destruct (misaligned a (load_size w)); [done|].
  unfold archr; cbn [fst snd]. by rewrite arch_touch.
Qed.

Lemma arch_ram_write a w v s : arch (ram_write a w v s) = ram_write a w v (arch s).
Proof.
  unfold ram_write. destruct (store_size w =? 0); [done|].
  destruct (misaligned a (store_size w)); [done|]. by rewrite arch_wr32.
Qed.
End Arch.

(** The contract between the processor core and the bus. *)
Class BusLaws (D : Type) `{Bus D} := {
  bus_page_table : forall (s : machine D) ppn, 0 <= ppn -> mem_page_table s ppn = ram_page ppn;
  bus_fetch : forall n (s : machine D), 0 <= n ->
    mem_fetch n s =
      match ram_page n with
      | Some p => (Some p, s)
      | None => (None, raise RV_EXC_FETCH_FAULT (exc_val (hart s)) s)
      end;
  bus_load_ram : forall a w (s : machine D), a < RAM_SIZE -> mem_load a w s = ram_read a w s;
  bus_store_ram : forall a w v (s : machine D), a < RAM_SIZE -> mem_store a w v s = ram_write a w v s;
  bus_load_natural : forall a w (s : machine D), archr (mem_load a w s) = mem_load a w (arch s);
  bus_store_natural : forall a w v (s : machine D), arch (mem_store a w v s) = mem_store a w v (arch s);
  bus_load_frame : forall a w (s : machine D), bus_frame (hart s) (hart (snd (mem_load a w s)));
  bus_store_frame : forall a w v (s : machine D), bus_frame (hart s) (hart (mem_store a w v s));
  bus_load_ram_frame : forall a w (s : machine D),
    ram (snd (mem_load a w s)) = ram s /\ ram_ptr (snd (mem_load a w s)) = ram_ptr s;
  bus_timer_frame : forall t (s : machine D), hart (snd (timer_get t s)) = hart s;
  bus_ssip_frame : forall (s : machine D), hart (clear_ssip s) = hart s }.
