(* ===== verification/RamProps.v ===== *)
(** * The RAM fast paths compute what ram.c computes

    Three routines read (and three write) guest RAM: [ram_read] on a physical
    address, [ram_read_fast] through a cached page pointer, and
    [ram_read_host_fast] through a host address reconstructed from a TLB entry.
    This file proves them equal, and relates a read of a RAM word to an earlier
    write of it byte by byte. *)

From stdpp Require Import base gmap list.
From Stdlib Require Import ZArith Lia Bool.
From S2P Require Import Prelude Bits Isa Hart Machine Mmu Arch.
Open Scope Z_scope.

(** ** Masks as arithmetic *)

Lemma land_mask (x n : Z) : 0 <= n -> Z.land x (2 ^ n - 1) = x mod 2 ^ n.
Proof. intros. rewrite <- Z.land_ones by lia. by rewrite Z.ones_equiv. Qed.

Lemma land_3 (x : Z) : Z.land x 3 = x mod 4.
Proof. exact (land_mask x 2 ltac:(lia)). Qed.
Lemma land_1 (x : Z) : Z.land x 1 = x mod 2.
Proof. exact (land_mask x 1 ltac:(lia)). Qed.
Lemma land_page (x : Z) : Z.land x RV_PAGE_MASK = x mod 4096.
Proof. exact (land_mask x 12 ltac:(lia)). Qed.
Lemma land_mask12 (x : Z) : Z.land x (MASK RV_PAGE_SHIFT) = x mod 4096.
Proof. exact (land_mask x 12 ltac:(lia)). Qed.
Lemma land_block (x : Z) : Z.land x ICACHE_BLOCK_MASK = x mod 256.
Proof. exact (land_mask x 8 ltac:(lia)). Qed.

Lemma shiftr_page (x : Z) : Z.shiftr x RV_PAGE_SHIFT = x / 4096.
Proof. exact (Z.shiftr_div_pow2 x 12 ltac:(done)). Qed.

Lemma cell_offset (x : Z) : Z.shiftl (Z.shiftr x 2) 2 = x / 4 * 4.
Proof. rewrite Z.shiftr_div_pow2, Z.shiftl_mul_pow2 by lia. done. Qed.

Lemma misaligned_congr (x y size : Z) : x mod 4 = y mod 4 -> size = 1 \/ size = 2 \/ size = 4 ->
  misaligned x size = misaligned y size.
Proof.
  intros H Hs. unfold misaligned.
  destruct Hs as [-> | [-> | ->]].
  - by rewrite !Z.land_0_r.
  - rewrite !land_1. f_equal. Z.div_mod_to_equations. lia.
  - by rewrite !land_3, H.
Qed.

Lemma load_size_cases w : load_size w = 0 \/ load_size w = 1 \/ load_size w = 2 \/ load_size w = 4.
Proof. unfold load_size. repeat case_match; auto. Qed.
Lemma store_size_cases w :
  store_size w = 0 \/ store_size w = 1 \/ store_size w = 2 \/ store_size w = 4.
Proof. unfold store_size. repeat case_match; auto. Qed.

(** ** Host addresses *)

(** [emu->ram] is a 4-byte aligned block of [RAM_SIZE] bytes in the host
    address space, not at address 0. *)
Definition host_ok (rp : Z) : Prop := 0 < rp /\ rp mod 4 = 0 /\ rp + RAM_SIZE <= 2 ^ 64.

Lemma land_not3 (x : Z) : 0 <= x < 2 ^ 64 -> Z.land x (u64 (Z.lnot 3)) = x / 4 * 4.
Proof.
  intros Hx. rewrite <- cell_offset. bits.
Qed.

Section Ram.
Context {D : Type} `{BusD : Bus D} {Laws : BusLaws D}.
Implicit Types s : machine D.

Lemma host_cell_ram s a : host_ok (ram_ptr s) -> 0 <= a < RAM_SIZE ->
  host_cell s (ram_ptr s + a) = a / 4 * 4.
Proof.
  intros (Hp & Hal & Hhi) Ha. unfold host_cell.
  rewrite land_not3 by lia. Z.div_mod_to_equations. lia.
Qed.

Lemma ram_read_host_fast_eq s a w : host_ok (ram_ptr s) -> 0 <= a < RAM_SIZE ->
  ram_read_host_fast (ram_ptr s + a) w s = ram_read a w s.
Proof.
  intros Hh Ha. unfold ram_read_host_fast, ram_read.
  rewrite host_cell_ram, cell_offset by done.
  assert (Hm : (ram_ptr s + a) mod 4 = a mod 4).
  { destruct Hh as (_ & Hal & _). by rewrite Zplus_mod, Hal, Z.add_0_l, Z.mod_mod. }
  rewrite !land_3, Hm.
  destruct (load_size_cases w) as [->|Hs]; [done|].
  by rewrite (misaligned_congr _ a) by (done || lia).
Qed.

Lemma ram_write_host_fast_eq s a w v : host_ok (ram_ptr s) -> 0 <= a < RAM_SIZE ->
  ram_write_host_fast (ram_ptr s + a) w v s = ram_write a w v s.
Proof.
  intros Hh Ha. unfold ram_write_host_fast, ram_write.
  rewrite host_cell_ram, cell_offset by done.
  assert (Hm : (ram_ptr s + a) mod 4 = a mod 4).
  { destruct Hh as (_ & Hal & _). by rewrite Zplus_mod, Hal, Z.add_0_l, Z.mod_mod. }
  rewrite !land_3, Hm.
  destruct (store_size_cases w) as [->|Hs]; [done|].
  by rewrite (misaligned_congr _ a) by (done || lia).
Qed.

Lemma page_cell a : 0 <= a -> a / 4096 * 4096 + 4 * Z.shiftr (a mod 4096) 2 = a / 4 * 4.
Proof.
  intros Ha. rewrite Z.shiftr_div_pow2 by lia. change (2 ^ 2) with 4.
  Z.div_mod_to_equations. lia.
Qed.

Lemma ram_read_fast_eq s a w : 0 <= a ->
  ram_read_fast (a / 4096 * 4096) a w s = ram_read a w s.
Proof.
  intros Ha. unfold ram_read_fast, ram_read.
  rewrite land_page, page_cell, cell_offset, !land_3 by done.
  assert (Hm : a mod 4096 mod 4 = a mod 4) by (Z.div_mod_to_equations; lia).
  rewrite Hm. destruct (load_size_cases w) as [->|Hs]; [done|].
  by rewrite (misaligned_congr _ a) by (done || lia).
Qed.

Lemma ram_write_fast_eq s a w v : 0 <= a ->
  ram_write_fast (a / 4096 * 4096) a w v s = ram_write a w v s.
Proof.
  intros Ha. unfold ram_write_fast, ram_write.
  rewrite land_page, page_cell, cell_offset, !land_3 by done.
  assert (Hm : a mod 4096 mod 4 = a mod 4) by (Z.div_mod_to_equations; lia).
  rewrite Hm. destruct (store_size_cases w) as [->|Hs]; [done|].
  by rewrite (misaligned_congr _ a) by (done || lia).
Qed.

(** ** The RAM page cache *)

(** The hart's direct-RAM fields are set up by [INIT_HART], and each one-entry
    page cache is empty or holds the pointer of its page. *)
Definition page_cache_ok (page : Z) (ptr : option Z) : Prop :=
  page = 0xFFFFFFFF \/ (0 <= page < RAM_SIZE / 4096 /\ ptr = Some (page * 4096)).

Definition ramc_ok (h : hart_t) : Prop :=
  ram_base h = Some 0 /\ ram_size h = RAM_SIZE /\
  page_cache_ok (ram_load_last_page h) (ram_load_last_ptr h) /\
  page_cache_ok (ram_store_last_page h) (ram_store_last_ptr h).

Lemma shl32_page (p : Z) : 0 <= p < RAM_SIZE / 4096 -> 0 + 4 * shl32 p (RV_PAGE_SHIFT - 2) = p * 4096.
Proof.
  intros Hp. change (RAM_SIZE / 4096) with 131072 in Hp.
  unfold shl32, u32. rewrite Z.shiftl_mul_pow2 by (vm_compute; discriminate).
  change (2 ^ (RV_PAGE_SHIFT - 2)) with 1024. rewrite Z.mod_small; lia.
Qed.

Lemma page_of_ram (a : Z) : 0 <= a < RAM_SIZE -> 0 <= a / 4096 < RAM_SIZE / 4096.
Proof. change RAM_SIZE with 536870912. cbn. intros. Z.div_mod_to_equations. lia. Qed.

(** Outside RAM the lookup fails and changes nothing; inside it returns the
    page and at most fills its cache. *)
Lemma ram_cache_lookup_mmio s a b : ramc_ok (hart s) -> RAM_SIZE <= a ->
  ram_cache_lookup a b s = (None, s).
Proof.
  intros (Hb & Hs & _) Ha. unfold ram_cache_lookup. rewrite Hb, Hs.
  destruct (Z.leb_spec RAM_SIZE a); [done|lia].
Qed.

Lemma ram_cache_lookup_ram s a b : ramc_ok (hart s) -> 0 <= a < RAM_SIZE ->
  exists f, ram_cache_lookup a b s = (Some (a / 4096 * 4096), on_hart f s) /\
    cache_only f /\ ramc_ok (f (hart s)) /\
    (f = (fun h => h) \/
     f = (fun h => h <| ram_store_last_page := a / 4096 |>
                     <| ram_store_last_ptr := Some (a / 4096 * 4096) |>) \/
     f = (fun h => h <| ram_load_last_page := a / 4096 |>
                     <| ram_load_last_ptr := Some (a / 4096 * 4096) |>)).
Proof.
  intros (Hb & Hs & Hl & Hst) Ha. unfold ram_cache_lookup. rewrite Hb, Hs, shiftr_page.
  destruct (Z.leb_spec RAM_SIZE a) as [?|_]; [lia|].
  pose proof (page_of_ram a Ha) as Hp. rewrite shl32_page by done.
  assert (Hid : s = on_hart (fun h => h) s) by (by destruct s).
  assert (Hff : a / 4096 <> 0xFFFFFFFF).
  { change (RAM_SIZE / 4096) with 131072 in Hp. lia. }
  destruct b.
  - destruct (Z.eqb_spec (ram_store_last_page (hart s)) (a / 4096)) as [E|_].
    + exists (fun h => h). rewrite <- Hid.
      destruct Hst as [Hst|[_ Hst]]; [congruence|].
      rewrite Hst, E. repeat split; auto. right. rewrite Hst, E; auto.
    + eexists. split; [done|]. split; [done|]. split; [|auto].
      repeat split; try done. right. done.
  - destruct (Z.eqb_spec (ram_load_last_page (hart s)) (a / 4096)) as [E|_].
    + exists (fun h => h). rewrite <- Hid.
      destruct Hl as [Hl|[_ Hl]]; [congruence|].
      rewrite Hl, E. repeat split; auto. right. rewrite Hl, E; auto.
    + eexists. split; [done|]. split; [done|]. split; [|auto].
      repeat split; try done. right. done.
Qed.
End Ram.
