(* ===== verification/Tlb.v ===== *)
(** * The TLBs refine the page-table walk

    [mmu_load] and [mmu_store] answer most accesses from a last-entry cache or a
    two-way set-associative TLB, and reach RAM through host pointers stored
    there. The reference semantics [ref_load] and [ref_store] walk the page
    table on every access and go through the bus. On a coherent machine the two
    agree architecturally, and a load leaves the machine coherent. *)

From stdpp Require Import base gmap list.
From Stdlib Require Import ZArith Lia Bool Morphisms Setoid.
From S2P Require Import Prelude Bits Isa Hart Machine Mmu Arch RamProps.
Open Scope Z_scope.

(** ** Physical addresses *)

Lemma phys_of_arith (ppn addr : Z) : 0 <= ppn < 2 ^ 20 -> is_u32 addr ->
  phys_of ppn addr = ppn * 4096 + addr mod 4096.
Proof.
  intros Hp Ha. unfold phys_of. rewrite land_mask12.
  assert (E : shl32 ppn RV_PAGE_SHIFT = ppn * 4096).
  { unfold shl32, u32. change RV_PAGE_SHIFT with 12.
    rewrite Z.shiftl_mul_pow2 by lia. change (2 ^ 12) with 4096. apply Z.mod_small. lia. }
  rewrite E. rewrite <- (Z.add_lor_land (ppn * 4096)).
  assert (L : Z.land (ppn * 4096) (addr mod 4096) = 0).
  { change 4096 with (2 ^ 12). rewrite <- Z.shiftl_mul_pow2 by lia.
    unfold is_u32 in Ha. bits. }
  lia.
Qed.

Lemma phys_of_range (ppn addr : Z) : 0 <= ppn < 2 ^ 20 -> is_u32 addr -> is_u32 (phys_of ppn addr).
Proof.
  intros Hp Ha. rewrite phys_of_arith by done. unfold is_u32.
  pose proof (Z.mod_pos_bound addr 4096). lia.
Qed.

Lemma phys_of_ppn (ppn addr : Z) : 0 <= ppn < 2 ^ 20 -> is_u32 addr ->
  Z.shiftr (phys_of ppn addr) RV_PAGE_SHIFT = ppn.
Proof.
  intros Hp Ha. rewrite phys_of_arith, shiftr_page by done.
  pose proof (Z.mod_pos_bound addr 4096). rewrite Z.div_add_l by lia.
  rewrite (Z.div_small (addr mod 4096)) by lia. lia.
Qed.

Lemma phys_of_identity (addr : Z) : is_u32 addr ->
  phys_of (Z.shiftr addr RV_PAGE_SHIFT) addr = addr.
Proof.
  intros Ha. unfold is_u32 in Ha. rewrite phys_of_arith, shiftr_page.
  - rewrite (Z.div_mod addr 4096) at 3 by lia. lia.
  - rewrite shiftr_page. Z.div_mod_to_equations. lia.
  - done.
Qed.

Lemma vpn_range (addr : Z) : is_u32 addr -> 0 <= Z.shiftr addr RV_PAGE_SHIFT < 2 ^ 20.
Proof. unfold is_u32. rewrite shiftr_page. intros. Z.div_mod_to_equations. lia. Qed.

(** ** The page-table walk as a function of memory *)

Definition walk (m : gmap Z Z) (pt vpn : Z) : lookup_result :=
  let pte := pt + 4 * Z.shiftr vpn 10 in
  match pte_classify (word m (pte / 4)) with
  | PteInvalid => LookupNone
  | PteLeaf ppn =>
      if nz (Z.land ppn (MASK 10)) then LookupNone
      else LookupLeaf pte (Z.lor ppn (Z.land vpn (MASK 10)))
  | PtePointer =>
      match ram_page (Z.shiftr (word m (pte / 4)) 10) with
      | None => LookupError
      | Some pt2 =>
          let pte := pt2 + 4 * Z.land vpn (MASK 10) in
          match pte_classify (word m (pte / 4)) with
          | PteInvalid | PtePointer => LookupNone
          | PteLeaf ppn => LookupLeaf pte ppn
          end
      end
  end.

Definition ram_ok (m : gmap Z Z) : Prop := forall i, is_u32 (word m i).

(** [page_table] is null or points to a page of RAM. *)
Definition pt_ok (h : hart_t) : Prop :=
  forall pt, page_table h = Some pt -> exists p, 0 <= p < RAM_SIZE / 4096 /\ pt = p * 4096.

Lemma in_ram_pte (p i : Z) : 0 <= p < RAM_SIZE / 4096 -> 0 <= i < 1024 ->
  in_ram (p * 4096 + 4 * i) 4 = true.
Proof.
  change (RAM_SIZE / 4096) with 131072. intros. unfold in_ram.
  change RAM_SIZE with 536870912. apply andb_true_intro; split; lia.
Qed.

Lemma ram_page_Some (n p : Z) : 0 <= n -> ram_page n = Some p ->
  0 <= n < RAM_SIZE / 4096 /\ p = n * 4096.
Proof.
  unfold ram_page. change (RAM_SIZE / RV_PAGE_SIZE) with (RAM_SIZE / 4096).
  change RV_PAGE_SIZE with 4096. intros Hn.
  destruct (Z.ltb_spec n (RAM_SIZE / 4096)); [|done]. intros [= <-]. lia.
Qed.

Lemma vpn_hi (vpn : Z) : 0 <= vpn < 2 ^ 20 -> 0 <= Z.shiftr vpn 10 < 1024.
Proof. intros. rewrite Z.shiftr_div_pow2 by lia. Z.div_mod_to_equations. lia. Qed.
Lemma vpn_lo (vpn : Z) : 0 <= Z.land vpn (MASK 10) < 1024.
Proof. rewrite land_ones32 by lia. apply Z.mod_pos_bound. lia. Qed.

(** A leaf's entry is a word of RAM. *)
Lemma walk_leaf_in_ram m h pt vpn pte ppn : ram_ok m -> pt_ok h -> page_table h = Some pt ->
  0 <= vpn < 2 ^ 20 -> walk m pt vpn = LookupLeaf pte ppn -> in_ram pte 4 = true.
Proof.
  intros Hm Hpt Hp Hv. destruct (Hpt _ Hp) as (p & Hpr & ->). unfold walk.
  pose proof (vpn_hi vpn Hv). pose proof (vpn_lo vpn).
  repeat case_match; intros; simplify_eq; try (by apply in_ram_pte).
  match goal with H : ram_page _ = Some _ |- _ => apply ram_page_Some in H as [? ->] end;
    [by apply in_ram_pte|].
  apply Z.shiftr_nonneg. apply Hm.
Qed.

Section Walk.
Context {D : Type} `{BusD : Bus D} {Laws : BusLaws D}.
Implicit Types s : machine D.

Lemma touch_in_ram off len s : in_ram off len = true -> touch off len s = s.
Proof. unfold touch. by intros ->. Qed.

Lemma mmu_lookup_walk s pt vpn : ram_ok (ram s) -> pt_ok (hart s) ->
  page_table (hart s) = Some pt -> 0 <= vpn < 2 ^ 20 ->
  mmu_lookup pt vpn s = (walk (ram s) pt vpn, s).
Proof.
  intros Hm Hpt Hp Hv. destruct (Hpt _ Hp) as (p & Hpr & ->).
  unfold mmu_lookup, walk, rd32.
  rewrite touch_in_ram by (apply in_ram_pte; [done|by apply vpn_hi]).
  destruct (pte_classify _) eqn:E1; try done; [|by case_match].
  rewrite bus_page_table by apply Z.shiftr_nonneg, Hm. destruct (ram_page _) eqn:E2; [|done].
  apply ram_page_Some in E2 as [Hr ->]; [|apply Z.shiftr_nonneg, Hm].
  rewrite touch_in_ram by (apply in_ram_pte; [done|apply vpn_lo]).
  by case_match.
Qed.
End Walk.

(** ** Accessed and dirty bits *)

(** What the two data TLBs differ in: the permission an access needs and the
    bits it sets in the leaf. *)
Inductive tlb_kind := TLoad | TStore.

Definition acc_bits (k : tlb_kind) (h : hart_t) : Z :=
  match k with TLoad => Z.lor 2 (if sstatus_mxr h then 8 else 0) | TStore => 4 end.
Definition ad_bits (k : tlb_kind) : Z := match k with TLoad => 64 | TStore => 192 end.
Definition skip_priv (h : hart_t) : bool := sstatus_sum h && s_mode h.

(** [m'] is [m] with accessed/dirty bits set in at most one word. *)
Definition ad_update (k : tlb_kind) (m m' : gmap Z Z) : Prop :=
  m' = m \/ exists i, m' = <[i := Z.lor (word m i) (ad_bits k)]> m.

Lemma word_insert m i v j : word (<[i := v]> m) j = if decide (i = j) then v else word m j.
Proof.
  unfold word. destruct (decide (i = j)) as [->|Hn].
  - by rewrite lookup_insert_eq.
  - by rewrite lookup_insert_ne.
Qed.

Lemma ad_update_word k m m' j : ad_update k m m' ->
  word m' j = word m j \/ word m' j = Z.lor (word m j) (ad_bits k).
Proof.
  intros [->|[i ->]]; [auto|]. rewrite word_insert. case_decide; [subst; auto|auto].
Qed.

Lemma ad_update_ram_ok k m m' : ad_update k m m' -> ram_ok m -> ram_ok m'.
Proof.
  intros Hu Hm j. destruct (ad_update_word k m m' j Hu) as [->| ->]; [apply Hm|].
  apply lor_is_u32; [apply Hm|]. by destruct k.
Qed.

Lemma land_lor_ad k x b : Z.land (ad_bits k) b = 0 -> Z.land (Z.lor x (ad_bits k)) b = Z.land x b.
Proof. intros H. rewrite Z.land_lor_distr_l, H. apply Z.lor_0_r. Qed.

Lemma shiftr_ad k x : Z.shiftr (Z.lor x (ad_bits k)) 10 = Z.shiftr x 10.
Proof. rewrite Z.shiftr_lor. destruct k; apply Z.lor_0_r. Qed.

Lemma pte_classify_ad k x : pte_classify (Z.lor x (ad_bits k)) = pte_classify x.
Proof. unfold pte_classify. rewrite land_lor_ad, shiftr_ad; [done|by destruct k]. Qed.

Lemma pte_permits_ad k x ppn acc sm sk : Z.land (ad_bits k) acc = 0 ->
  pte_permits (Z.lor x (ad_bits k)) ppn acc sm sk = pte_permits x ppn acc sm sk.
Proof.
  intros H. unfold pte_permits. rewrite !land_lor_ad; [done|by destruct k|done].
Qed.

Lemma walk_ad k m m' pt vpn : ad_update k m m' -> walk m' pt vpn = walk m pt vpn.
Proof.
  intros Hu. unfold walk.
  assert (C : forall j, pte_classify (word m' j) = pte_classify (word m j)).
  { intros j. destruct (ad_update_word k m m' j Hu) as [->| ->]; [done|apply pte_classify_ad]. }
  assert (R : forall j, Z.shiftr (word m' j) 10 = Z.shiftr (word m j) 10).
  { intros j. destruct (ad_update_word k m m' j Hu) as [->| ->]; [done|apply shiftr_ad]. }
  rewrite C, R. destruct (pte_classify _); try done. destruct (ram_page _); [|done].
  by rewrite C.
Qed.

(** ** What a translation is *)

(** The page tables map [vpn] to [ppn] with the permissions of the current
    context, and the leaf has its accessed/dirty bits. *)
Definition translates (k : tlb_kind) (h : hart_t) (m : gmap Z Z) (vpn ppn : Z) : Prop :=
  match page_table h with
  | None => ppn = vpn
  | Some pt => exists pte,
      walk m pt vpn = LookupLeaf pte ppn /\
      pte_permits (word m (pte / 4)) ppn (acc_bits k h) (s_mode h) (skip_priv h) = true /\
      Z.lor (word m (pte / 4)) (ad_bits k) = word m (pte / 4)
  end.

(** The part of a hart a translation depends on. *)
Definition same_context (h h' : hart_t) : Prop :=
  page_table h' = page_table h /\ s_mode h' = s_mode h /\
  sstatus_sum h' = sstatus_sum h /\ sstatus_mxr h' = sstatus_mxr h.

Lemma acc_ad k k' h : Z.land (ad_bits k) (acc_bits k' h) = 0.
Proof. destruct k, k'; simpl; try done; by destruct (sstatus_mxr h). Qed.

Lemma translates_ad k k' h m m' vpn ppn : ad_update k m m' ->
  translates k' h m vpn ppn -> translates k' h m' vpn ppn.
Proof.
  intros Hu. unfold translates. destruct (page_table h); [|done].
  intros (pte & Hw & Hp & Hs). exists pte.
  rewrite (walk_ad k m m') by done. split; [done|].
  destruct (ad_update_word k m m' (pte / 4) Hu) as [->| ->]; [done|].
  rewrite pte_permits_ad by apply acc_ad. split; [done|].
  rewrite <- !Z.lor_assoc, (Z.lor_comm (ad_bits k)), Z.lor_assoc. by rewrite Hs.
Qed.

Lemma translates_context k h h' m vpn ppn : same_context h h' ->
  translates k h m vpn ppn -> translates k h' m vpn ppn.
Proof.
  intros (Hp & Hm & Hs & Hx). unfold translates, acc_bits, skip_priv.
  by rewrite Hp, Hm, Hs, Hx.
Qed.

Lemma shiftr_zero_range (x n : Z) : 0 <= n -> Z.shiftr x n = 0 -> 0 <= x < 2 ^ n.
Proof.
  intros Hn H. rewrite Z.shiftr_div_pow2 in H by lia.
  pose proof (Z.pow_pos_nonneg 2 n). Z.div_mod_to_equations. nia.
Qed.

Lemma pte_permits_ppn pte ppn acc sm sk : pte_permits pte ppn acc sm sk = true -> 0 <= ppn < 2 ^ 20.
Proof.
  unfold pte_permits. intros H. apply andb_prop in H as [H _]. apply andb_prop in H as [H _].
  apply negb_true_iff in H. apply shiftr_zero_range; [lia|].
  unfold nz in H. by destruct (Z.eqb_spec (Z.shiftr ppn 20) 0).
Qed.

Lemma translates_range k h m vpn ppn : 0 <= vpn < 2 ^ 20 -> translates k h m vpn ppn ->
  0 <= ppn < 2 ^ 20.
Proof.
  unfold translates. intros Hv. destruct (page_table h); [|by intros ->].
  intros (pte & _ & Hp & _). by eapply pte_permits_ppn.
Qed.

Section Translate.
Context {D : Type} `{BusD : Bus D} {Laws : BusLaws D}.
Implicit Types s : machine D.

Definition set_exc_val_m (addr : Z) s : machine D := on_hart (fun h => h <| exc_val := addr |>) s.

(** The parts of the state the walk relies on. *)
Definition mem_ok s : Prop := ram_ok (ram s) /\ pt_ok (hart s).

(** A translation the page tables already hold succeeds and changes nothing. *)
Lemma mmu_translate_hit k addr ppn f pf s : mem_ok s -> is_u32 addr ->
  translates k (hart s) (ram s) (Z.shiftr addr RV_PAGE_SHIFT) ppn ->
  mmu_translate addr (acc_bits k (hart s)) (ad_bits k) (skip_priv (hart s)) f pf s
  = (phys_of ppn addr, set_exc_val_m addr s).
Proof.
  intros [Hm Hpt] Ha. pose proof (vpn_range addr Ha) as Hv.
  unfold translates, mmu_translate. cbn -[mmu_lookup phys_of].
  destruct (page_table (hart s)) as [pt|] eqn:Hp; [|by intros ->; rewrite phys_of_identity].
  intros (pte & Hw & Hpm & Hs).
  rewrite mmu_lookup_walk by done. cbn. rewrite Hw. unfold rd32. cbn.
  rewrite Hpm, Hs, Z.eqb_refl. cbn. unfold phys_of. by rewrite Z.lor_comm.
Qed.

(** Otherwise it sets the bits and then holds the translation, or raises. *)
Lemma mmu_translate_cases k addr f pf s : mem_ok s -> is_u32 addr ->
  let r := mmu_translate addr (acc_bits k (hart s)) (ad_bits k) (skip_priv (hart s)) f pf s in
  (exists ppn m', r = (phys_of ppn addr, set_exc_val_m addr s <| ram := m' |>) /\
     ad_update k (ram s) m' /\
     translates k (hart s) m' (Z.shiftr addr RV_PAGE_SHIFT) ppn) \/
  (exists c, r = (addr, raise c addr s)).
Proof.
  intros [Hm Hpt] Ha. pose proof (vpn_range addr Ha) as Hv.
  unfold translates, mmu_translate. cbn -[mmu_lookup phys_of].
  destruct (page_table (hart s)) as [pt|] eqn:Hp.
  2:{ left. exists (Z.shiftr addr RV_PAGE_SHIFT), (ram s).
      rewrite phys_of_identity by done. split; [|split; [by left|done]]. by destruct s. }
  rewrite mmu_lookup_walk by done. cbn.
  destruct (walk (ram s) pt _) as [| |pte ppn] eqn:Hw; [right; by exists f|right; by exists pf|].
  unfold rd32. cbn.
  destruct (pte_permits _ _ _ _ _) eqn:Hpm; cbn; [|right; by exists pf].
  left. pose proof (walk_leaf_in_ram _ _ _ _ _ _ Hm Hpt Hp Hv Hw) as Hin.
  set (x := word (ram s) (pte / 4)) in *.
  exists ppn, (if Z.lor x (ad_bits k) =? x then ram s
               else <[pte / 4 := Z.lor x (ad_bits k)]> (ram s)).
  assert (Hu : ad_update k (ram s) (if Z.lor x (ad_bits k) =? x then ram s
               else <[pte / 4 := Z.lor x (ad_bits k)]> (ram s))).
  { case_match; [by left|]. right. by exists (pte / 4). }
  split; [|split; [done|]].
  - unfold phys_of. rewrite Z.lor_comm. f_equal. destruct (Z.lor x (ad_bits k) =? x); cbn.
    + by destruct s.
    + unfold wr32. rewrite touch_in_ram by done. done.
  - exists pte. rewrite (walk_ad k (ram s)) by done. split; [done|].
    assert (E : word (if Z.lor x (ad_bits k) =? x then ram s
               else <[pte / 4 := Z.lor x (ad_bits k)]> (ram s)) (pte / 4) = Z.lor x (ad_bits k)).
    { destruct (Z.eqb_spec (Z.lor x (ad_bits k)) x); [done|].
      rewrite word_insert. by case_decide. }
    rewrite E, pte_permits_ad by apply acc_ad. split; [done|].
    by rewrite <- Z.lor_assoc, Z.lor_diag.
Qed.
End Translate.

(** ** Coherence *)

(** A cached translation is empty or holds what the walk gives; its host
    pointer, when present, points into RAM at the page. *)
Definition entry_ok (k : tlb_kind) (h : hart_t) (m : gmap Z Z) (rp vpn ppn dma : Z) : Prop :=
  0 <= vpn < 2 ^ 20 -> translates k h m vpn ppn /\
    (dma = 0 \/ (dma = u64 (rp + ppn * 4096 - vpn * 4096) /\ ppn * 4096 < RAM_SIZE)).

Definition way_ok k h m rp (w : mmu_addr_cache_t) : Prop :=
  entry_ok k h m rp (n_pages w) (phys_ppn w) (data_minus_addr w).

Definition tlb_set_ok k h m rp (st : mmu_cache_set_t) : Prop :=
  way_ok k h m rp (way0 st) /\ way_ok k h m rp (way1 st) /\ (lru st = 0 \/ lru st = 1).

(** [tlb_ok] reads the caches of [h] against the translation context of [c]. *)
Record tlb_ok (h c : hart_t) (m : gmap Z Z) (rp : Z) : Prop := {
  tlb_load : Forall (tlb_set_ok TLoad c m rp) (cache_load h);
  tlb_store : Forall (tlb_set_ok TStore c m rp) (cache_store h);
  tlb_load_last : entry_ok TLoad c m rp (cache_load_last_vpn h) (cache_load_last_phys_ppn h)
                    (cache_load_last_data_minus_addr h);
  tlb_store_last : entry_ok TStore c m rp (cache_store_last_vpn h) (cache_store_last_phys_ppn h)
                     (cache_store_last_data_minus_addr h) }.

Section Coherent.
Context {D : Type} `{BusD : Bus D} {Laws : BusLaws D}.
Implicit Types s : machine D.

Record coherent s : Prop := {
  coh_mem : mem_ok s;
  coh_host : host_ok (ram_ptr s);
  coh_ramc : ramc_ok (hart s);
  coh_tlb : tlb_ok (hart s) (hart s) (ram s) (ram_ptr s) }.

(** The reference: translate on every access, then the bus. *)
Definition bus_load (phys_addr width : Z) (reserved : bool) s : option Z * machine D :=
  let '(v, s) := mem_load phys_addr width s in
  if merr s then (v, s)
  else (v, if reserved then on_hart (fun h => h <| lr_reservation := Z.lor phys_addr 1 |>) s else s).

Definition ref_load (addr width : Z) (reserved : bool) s : option Z * machine D :=
  let '(pa, s) := mmu_translate addr (acc_bits TLoad (hart s)) (ad_bits TLoad)
                    (skip_priv (hart s)) RV_EXC_LOAD_FAULT RV_EXC_LOAD_PFAULT s in
  if merr s then (None, s) else bus_load pa width reserved s.

Lemma tlb_set_way k h m rp st i : tlb_set_ok k h m rp st -> way_ok k h m rp (way st i).
Proof. unfold way. intros (H0 & H1 & _). by case_match. Qed.

Lemma tlb_probe_hit k h m rp st vpn i : tlb_set_ok k h m rp st ->
  tlb_probe st vpn = Some i -> n_pages (way st i) = vpn /\ (i = 0 \/ i = 1).
Proof.
  intros (_ & _ & Hl). unfold tlb_probe.
  destruct (Z.eqb_spec (n_pages (way st (1 - lru st))) vpn); [intros [= <-]; lia|].
  destruct (Z.eqb_spec (n_pages (way st (lru st))) vpn); [intros [= <-]; lia|done].
Qed.

Lemma set_dflt_ok k h m rp : tlb_set_ok k h m rp set_dflt.
Proof. unfold tlb_set_ok, way_ok, entry_ok. cbn. split; [lia|]. split; [lia|auto]. Qed.

Lemma load_set_ok s i : coherent s ->
  tlb_set_ok TLoad (hart s) (ram s) (ram_ptr s) (load_set (hart s) i).
Proof. intros C. apply (arr_get_Forall (tlb_set_ok TLoad _ _ _)); [apply set_dflt_ok|apply C]. Qed.
Lemma store_set_ok s i : coherent s ->
  tlb_set_ok TStore (hart s) (ram s) (ram_ptr s) (store_set (hart s) i).
Proof. intros C. apply (arr_get_Forall (tlb_set_ok TStore _ _ _)); [apply set_dflt_ok|apply C]. Qed.

(** The host address of a cached translation. *)
Lemma host_addr_eq rp ppn vpn dma addr : host_ok rp -> is_u32 addr ->
  vpn = Z.shiftr addr RV_PAGE_SHIFT -> 0 <= ppn < 2 ^ 20 ->
  dma = u64 (rp + ppn * 4096 - vpn * 4096) -> ppn * 4096 < RAM_SIZE ->
  u64 (dma + addr) = rp + phys_of ppn addr /\ 0 <= phys_of ppn addr < RAM_SIZE.
Proof.
  intros (Hp & Hal & Hhi) Ha -> Hppn -> Hr. rewrite phys_of_arith by done.
  rewrite shiftr_page. unfold u64. rewrite Z.add_mod_idemp_l by lia.
  pose proof (Z.mod_pos_bound addr 4096 ltac:(lia)) as Hm.
  change RAM_SIZE with 536870912 in *.
  pose proof (Z.div_mod addr 4096 ltac:(lia)) as Hd.
  assert (0 <= ppn * 4096 + addr mod 4096 < 536870912) by (Z.div_mod_to_equations; lia).
  split; [|done]. rewrite Z.mod_small; lia.
Qed.
End Coherent.

Section Load.
Context {D : Type} `{BusD : Bus D} {Laws : BusLaws D}.
Implicit Types s : machine D.

Lemma bus_load_natural' pa w r s : archr (bus_load pa w r s) = bus_load pa w r (arch s).
Proof.
  unfold bus_load. rewrite <- (bus_load_natural pa w s).
  destruct (mem_load pa w s) as [v s']. rewrite archr_pair, arch_merr.
  destruct (merr s'); [done|]. rewrite archr_pair. destruct r; [|done].
  by rewrite arch_on_hart.
Qed.

(** The tail of [mmu_load] is the bus access. *)
Lemma load_finish_bus pa w r s : ramc_ok (hart s) -> 0 <= pa ->
  archr (load_finish pa w r s) = archr (bus_load pa w r s).
Proof.
  intros Hr Hpa. unfold load_finish, bus_load.
  destruct (Z.lt_ge_cases pa RAM_SIZE) as [Hlt|Hge].
  - destruct (ram_cache_lookup_ram s pa false Hr ltac:(lia)) as (f & -> & Hc & _ & _).
    rewrite ram_read_fast_eq, bus_load_ram by lia.
    assert (E : archr (ram_read pa w (on_hart f s)) = archr (ram_read pa w s)).
    { rewrite !archr_ram_read. by rewrite arch_cache_only. }
    destruct (ram_read pa w (on_hart f s)) as [v1 s1], (ram_read pa w s) as [v2 s2].
    rewrite !archr_pair in E. apply pair_equal_spec in E as [-> E].
    rewrite <- (arch_merr s1), E, arch_merr.
    destruct (merr s2); rewrite !archr_pair; [by rewrite E|]. destruct r; [|by rewrite E].
    rewrite (arch_on_hart _ s1), (arch_on_hart _ s2) by reflexivity. by rewrite E.
  - by rewrite ram_cache_lookup_mmio.
Qed.

(** A read through a cached host pointer is the bus access. *)
Lemma host_read_bus k ppn vpn dma addr w s h : host_ok (ram_ptr s) -> is_u32 addr ->
  merr s = false -> vpn = Z.shiftr addr RV_PAGE_SHIFT ->
  entry_ok k h (ram s) (ram_ptr s) vpn ppn dma -> dma <> 0 ->
  ram_read_host_fast (u64 (dma + addr)) w s = bus_load (phys_of ppn addr) w false s.
Proof.
  intros Hh Ha Herr Hv He Hd. pose proof (vpn_range addr Ha) as Hvr. subst vpn.
  destruct (He Hvr) as [Ht [?|[Hdma Hr]]]; [done|].
  pose proof (translates_range _ _ _ _ _ Hvr Ht) as Hppn.
  destruct (host_addr_eq _ _ _ _ _ Hh Ha eq_refl Hppn Hdma Hr) as [-> Hpa].
  rewrite ram_read_host_fast_eq by done. unfold bus_load. rewrite bus_load_ram by lia.
  destruct (ram_read _ _ _) as [v s'] eqn:E. by case_match.
Qed.

(** [ref_load] when the page tables hold the translation. *)
Lemma ref_load_hit addr ppn w r s : mem_ok s -> is_u32 addr -> merr s = false ->
  translates TLoad (hart s) (ram s) (Z.shiftr addr RV_PAGE_SHIFT) ppn ->
  ref_load addr w r s = bus_load (phys_of ppn addr) w r (set_exc_val_m addr s).
Proof.
  intros Hm Ha Herr Ht. unfold ref_load. rewrite (mmu_translate_hit TLoad addr ppn) by done.
  change (merr (set_exc_val_m addr s)) with (merr s). by rewrite Herr.
Qed.

(** The two ways a hit proceeds, after invisible cache updates [f]. *)
Lemma load_hit_ref addr ppn dma w r f s : coherent s -> is_u32 addr -> merr s = false ->
  cache_only f -> ramc_ok (f (hart (set_exc_val_m addr s))) ->
  error (f (hart (set_exc_val_m addr s))) = error (hart s) ->
  entry_ok TLoad (hart s) (ram s) (ram_ptr s) (Z.shiftr addr RV_PAGE_SHIFT) ppn dma ->
  archr (if nz dma && negb r
         then ram_read_host_fast (u64 (dma + addr)) w (on_hart f (set_exc_val_m addr s))
         else load_finish (phys_of ppn addr) w r (on_hart f (set_exc_val_m addr s)))
  = archr (ref_load addr w r s).
Proof.
  intros C Ha Herr Hf Hrc He Hent. pose proof (vpn_range addr Ha) as Hv.
  destruct (Hent Hv) as [Ht _]. pose proof (translates_range _ _ _ _ _ Hv Ht) as Hppn.
  rewrite (ref_load_hit addr ppn) by (apply (coh_mem s C) || assumption).
  rewrite bus_load_natural', <- (arch_cache_only f) by done. rewrite <- bus_load_natural'.
  pose proof (phys_of_range ppn addr Hppn Ha) as Hpr. unfold is_u32 in Hpr.
  destruct (nz dma && negb r) eqn:E; [|apply load_finish_bus; [exact Hrc|lia]].
  apply andb_prop in E as [E1 E2]. destruct r; [done|].
  rewrite (host_read_bus TLoad ppn (Z.shiftr addr RV_PAGE_SHIFT) dma _ _ _ (hart s)); try done.
  - apply C.
  - change (err (f (hart (set_exc_val_m addr s))) = false). unfold err. by rewrite He.
  - unfold nz in E1. by destruct (Z.eqb_spec dma 0).
Qed.

Lemma page_base_arith (a : Z) : is_u32 a -> Z.land a (not32 RV_PAGE_MASK) = a / 4096 * 4096.
Proof.
  intros Ha. unfold is_u32 in Ha. change 4096 with (2 ^ 12).
  rewrite <- Z.shiftl_mul_pow2, <- Z.shiftr_div_pow2 by lia. change RV_PAGE_MASK with 4095. bits.
Qed.

Lemma ram_data_minus_addr_frame addr pa b s : ramc_ok (hart s) -> is_u32 addr -> 0 <= pa ->
  exists dma f, ram_data_minus_addr addr pa b s = (dma, on_hart f s) /\
    cache_only f /\ ramc_ok (f (hart s)) /\
    (f = (fun h => h) \/
     f = (fun h => h <| ram_store_last_page := pa / 4096 |>
                     <| ram_store_last_ptr := Some (pa / 4096 * 4096) |>) \/
     f = (fun h => h <| ram_load_last_page := pa / 4096 |>
                     <| ram_load_last_ptr := Some (pa / 4096 * 4096) |>)) /\
    (dma = 0 \/ (dma = u64 (ram_ptr s + pa / 4096 * 4096 - addr / 4096 * 4096) /\ pa < RAM_SIZE)).
Proof.
  intros Hr Ha Hpa. unfold ram_data_minus_addr.
  destruct (Z.lt_ge_cases pa RAM_SIZE) as [Hlt|Hge].
  - destruct (ram_cache_lookup_ram s pa b Hr ltac:(lia)) as (f & -> & Hc & Hf & Hs).
    eexists _, f. split; [reflexivity|]. do 3 (split; [done|]). right. split; [|done].
    by rewrite page_base_arith.
  - rewrite ram_cache_lookup_mmio by done. exists 0, (fun h => h).
    split; [by destruct s|]. split; [done|]. auto.
Qed.

(** The victim of a miss is written before the access is made. *)
Lemma load_miss_ref addr w r s : coherent s -> is_u32 addr -> merr s = false ->
  archr (load_miss addr (Z.shiftr addr RV_PAGE_SHIFT) (tlb_index (Z.shiftr addr RV_PAGE_SHIFT))
           w r (set_exc_val_m addr s))
  = archr (ref_load addr w r s).
Proof.
  intros C Ha Herr. unfold load_miss, ref_load.
  change (mmu_translate addr _ 64 _ _ _ (set_exc_val_m addr s))
    with (mmu_translate addr (acc_bits TLoad (hart s)) (ad_bits TLoad) (skip_priv (hart s))
            RV_EXC_LOAD_FAULT RV_EXC_LOAD_PFAULT s).
  destruct (mmu_translate_cases TLoad addr RV_EXC_LOAD_FAULT RV_EXC_LOAD_PFAULT s
              (coh_mem s C) Ha) as [(ppn & m' & -> & Hu & Ht)|(c & ->)]; [|done].
  set (s' := set_exc_val_m addr s <| ram := m' |>).
  change (merr s') with (merr s). rewrite Herr.
  pose proof (vpn_range addr Ha) as Hv. pose proof (translates_range _ _ _ _ _ Hv Ht) as Hppn.
  pose proof (phys_of_range ppn addr Hppn Ha) as Hpr. unfold is_u32 in Hpr.
  assert (Hrc : ramc_ok (hart s')) by exact (coh_ramc s C).
  destruct (ram_data_minus_addr_frame addr (phys_of ppn addr) false s' Hrc Ha) as
    (dma & f & -> & Hf & Hfrc & _); [lia|].
  rewrite load_finish_bus; [|exact Hfrc|lia].
  rewrite bus_load_natural', (bus_load_natural' _ _ _ s').
  rewrite !arch_cache_only; done.
Qed.

Lemma ramc_ok_ext h h' : ram_base h' = ram_base h -> ram_size h' = ram_size h ->
  ram_load_last_page h' = ram_load_last_page h -> ram_load_last_ptr h' = ram_load_last_ptr h ->
  ram_store_last_page h' = ram_store_last_page h -> ram_store_last_ptr h' = ram_store_last_ptr h ->
  ramc_ok h -> ramc_ok h'.
Proof. unfold ramc_ok. intros -> -> -> -> -> ->. done. Qed.

(** C1: The data-load path refines the page-table walk. On a coherent machine, for
    every address, width and reservation flag, [mmu_load] with its last-entry
    cache, two-way TLB and host-pointer reads returns the value (or leaves it
    unassigned), raises the exception and reaches the architectural state that a
    walk of the page tables followed by a bus access gives. *)
Theorem mmu_load_refines_walk addr w r s :
  coherent s -> is_u32 addr -> merr s = false ->
  archr (mmu_load addr w r s) = archr (ref_load addr w r s).
Proof.
  intros C Ha Herr. unfold mmu_load. fold (set_exc_val_m addr s).
  set (vpn := Z.shiftr addr RV_PAGE_SHIFT). cbv zeta.
  destruct (Z.eqb_spec (cache_load_last_vpn (hart (set_exc_val_m addr s))) vpn) as [E|_].
  - apply (load_hit_ref addr (cache_load_last_phys_ppn (hart s))
      (cache_load_last_data_minus_addr (hart s)) w r (fun h => h)); try done; [apply C|].
    fold vpn. rewrite <- E. apply (coh_tlb s C).
  - pose proof (load_set_ok s (tlb_index vpn) C) as Hst.
    change (load_set (hart (set_exc_val_m addr s))) with (load_set (hart s)).
    destruct (tlb_probe _ vpn) as [i|] eqn:Hp; [|by apply load_miss_ref].
    pose proof (tlb_probe_hit _ _ _ _ _ _ _ Hst Hp) as [Hn _].
    set (st := load_set (hart s) (tlb_index vpn)) in *.
    pose proof (tlb_set_way _ _ _ _ _ i Hst) as Hw. unfold way_ok in Hw. rewrite Hn in Hw.
    pose (f := fun h => set_load_last vpn (Z.shiftr (phys_of (phys_ppn (way st i)) addr) RV_PAGE_SHIFT)
       (data_minus_addr (way st i)) (upd_load_set (tlb_index vpn) (st <| lru := 1 - i |>) h)).
    apply (load_hit_ref addr (phys_ppn (way st i)) (data_minus_addr (way st i)) w r f);
      try done. apply C.
Qed.

(** ** Loads keep the machine coherent *)

Definition same_tlb (h h' : hart_t) : Prop :=
  cache_load h' = cache_load h /\ cache_store h' = cache_store h /\
  cache_load_last_vpn h' = cache_load_last_vpn h /\
  cache_load_last_phys_ppn h' = cache_load_last_phys_ppn h /\
  cache_load_last_data_minus_addr h' = cache_load_last_data_minus_addr h /\
  cache_store_last_vpn h' = cache_store_last_vpn h /\
  cache_store_last_phys_ppn h' = cache_store_last_phys_ppn h /\
  cache_store_last_data_minus_addr h' = cache_store_last_data_minus_addr h.

Lemma entry_ok_mono k k' c c' m m' rp vpn ppn dma : same_context c c' -> ad_update k m m' ->
  entry_ok k' c m rp vpn ppn dma -> entry_ok k' c' m' rp vpn ppn dma.
Proof.
  intros Hc Hu He Hv. destruct (He Hv) as [Ht Hd]. split; [|done].
  eapply translates_context, translates_ad; done.
Qed.

Lemma tlb_set_ok_mono k k' c c' m m' rp st : same_context c c' -> ad_update k m m' ->
  tlb_set_ok k' c m rp st -> tlb_set_ok k' c' m' rp st.
Proof.
  intros Hc Hu (H0 & H1 & Hl). unfold tlb_set_ok, way_ok. eauto using entry_ok_mono.
Qed.

Lemma tlb_ok_mono k h h' c c' m m' rp : same_tlb h h' -> same_context c c' -> ad_update k m m' ->
  tlb_ok h c m rp -> tlb_ok h' c' m' rp.
Proof.
  intros (E1 & E2 & E3 & E4 & E5 & E6 & E7 & E8) Hc Hu [H1 H2 H3 H4].
  split; rewrite ?E1, ?E2, ?E3, ?E4, ?E5, ?E6, ?E7, ?E8;
    eauto using entry_ok_mono, Forall_impl, tlb_set_ok_mono.
Qed.

Lemma coherent_step k s s' : coherent s -> same_tlb (hart s) (hart s') ->
  same_context (hart s) (hart s') -> ad_update k (ram s) (ram s') -> ram_ptr s' = ram_ptr s ->
  ramc_ok (hart s') -> coherent s'.
Proof.
  intros [[Hm Hpt] Hh Hr Ht] Hs Hc Hu Hp Hr'. split; rewrite ?Hp; try done.
  - split; [by eapply ad_update_ram_ok|]. intros pt. destruct Hc as [-> _]. apply Hpt.
  - by eapply tlb_ok_mono.
Qed.

Lemma coherent_on_hart f s : coherent s -> same_tlb (hart s) (f (hart s)) ->
  same_context (hart s) (f (hart s)) -> ramc_ok (f (hart s)) -> coherent (on_hart f s).
Proof. intros. apply (coherent_step TLoad s); try done. by left. Qed.

Lemma coherent_exc_val a s : coherent s -> coherent (set_exc_val_m a s).
Proof. intros C. apply coherent_on_hart; try done. apply C. Qed.

Lemma coherent_raise c v s : coherent s -> coherent (raise c v s).
Proof. intros C. apply coherent_on_hart; try done. apply C. Qed.

Lemma coherent_touch off len s : coherent s -> coherent (touch off len s).
Proof.
  intros C. unfold touch. case_match; [done|].
  apply (coherent_step TLoad s); try done; [by left|apply C].
Qed.

Lemma coherent_ram_read a w s : coherent s -> coherent (snd (ram_read a w s)).
Proof.
  intros C. unfold ram_read. repeat case_match; try by apply coherent_raise.
  by apply coherent_touch.
Qed.

Lemma bus_frame_same h h' : bus_frame h h' -> same_tlb h h' /\ same_context h h' /\
  (ramc_ok h -> ramc_ok h').
Proof.
  intros H. pose proof (fun T (p : hart_t -> T) => f_equal p H) as P.
  split; [repeat split; exact (P _ _)|]. split; [repeat split; exact (P _ _)|].
  intros Hr. eapply ramc_ok_ext; [..|exact Hr]; exact (P _ _).
Qed.

Lemma coherent_mem_load a w s : coherent s -> coherent (snd (mem_load a w s)).
Proof.
  intros C. destruct (bus_frame_same _ _ (bus_load_frame a w s)) as (Ht & Hc & Hr).
  destruct (bus_load_ram_frame a w s) as [Hm Hp].
  apply (coherent_step TLoad s); try done; [by left|apply Hr, C].
Qed.

Lemma coherent_load_finish pa w r s : coherent s -> 0 <= pa ->
  coherent (snd (load_finish pa w r s)).
Proof.
  intros C Hpa. unfold load_finish.
  assert (R : forall s', coherent s' -> coherent (if r then
    on_hart (fun h => h <| lr_reservation := Z.lor pa 1 |>) s' else s')).
  { intros s' C'. destruct r; [|done]. apply coherent_on_hart; try done. apply C'. }
  destruct (Z.lt_ge_cases pa RAM_SIZE) as [Hlt|Hge].
  - destruct (ram_cache_lookup_ram s pa false (coh_ramc s C) ltac:(lia)) as (f & -> & _ & Hr & Hf).
    rewrite ram_read_fast_eq by lia.
    assert (C1 : coherent (on_hart f s)).
    { apply coherent_on_hart; try done; by destruct Hf as [-> | [-> | ->]]. }
    pose proof (coherent_ram_read pa w _ C1) as C2.
    destruct (ram_read pa w (on_hart f s)) as [v s2]. destruct (merr s2); [exact C2|exact (R s2 C2)].
  - rewrite ram_cache_lookup_mmio by (done || apply C).
    pose proof (coherent_mem_load pa w _ C) as C2.
    destruct (mem_load pa w s) as [v s2]. destruct (merr s2); [exact C2|exact (R s2 C2)].
Qed.

(** A translation of the page tables may enter the TLB. *)
Lemma coherent_load_fill i st vpn ppn dma s : coherent s ->
  tlb_set_ok TLoad (hart s) (ram s) (ram_ptr s) st ->
  entry_ok TLoad (hart s) (ram s) (ram_ptr s) vpn ppn dma ->
  coherent (on_hart (set_load_last vpn ppn dma) (on_hart (upd_load_set i st) s)).
Proof.
  intros [Hm Hh Hr [H1 H2 H3 H4]] Hst He. split; try done.
  apply (tlb_ok_mono TLoad (set_load_last vpn ppn dma (upd_load_set i st (hart s))) _ (hart s)
    _ (ram s)); try done; [by left|].
  split; try done. by apply Forall_insert.
Qed.

Lemma coherent_store_fill i st vpn ppn dma s : coherent s ->
  tlb_set_ok TStore (hart s) (ram s) (ram_ptr s) st ->
  entry_ok TStore (hart s) (ram s) (ram_ptr s) vpn ppn dma ->
  coherent (on_hart (set_store_last vpn ppn dma) (on_hart (upd_store_set i st) s)).
Proof.
  intros [Hm Hh Hr [H1 H2 H3 H4]] Hst He. split; try done.
  apply (tlb_ok_mono TLoad (set_store_last vpn ppn dma (upd_store_set i st (hart s))) _ (hart s)
    _ (ram s)); try done; [by left|].
  split; try done. by apply Forall_insert.
Qed.

Lemma tlb_set_ok_lru k h m rp st i : tlb_set_ok k h m rp st -> i = 0 \/ i = 1 ->
  tlb_set_ok k h m rp (st <| lru := 1 - i |>).
Proof. intros (H0 & H1 & _) Hi. split; [done|]. split; [done|]. cbn. lia. Qed.

(** Replacing the victim way. *)
Lemma tlb_set_ok_victim k h m rp st w : tlb_set_ok k h m rp st -> way_ok k h m rp w ->
  tlb_set_ok k h m rp ((set_way st (lru st) w) <| lru := 1 - lru st |>).
Proof.
  intros (H0 & H1 & Hl) Hw. apply tlb_set_ok_lru; [|done]. unfold set_way.
  destruct (lru st =? 0); (split; [|split]); done.
Qed.

(** The way just written is the most recently used one. *)
Lemma victim_is_mru st w : lru st = 0 \/ lru st = 1 ->
  way ((set_way st (lru st) w) <| lru := 1 - lru st |>) (1 - (1 - lru st)) = w.
Proof. intros [E|E]; unfold set_way, way; rewrite E; reflexivity. Qed.

Lemma host_read_coherent a w s : coherent s -> coherent (snd (ram_read_host_fast a w s)).
Proof.
  intros C. unfold ram_read_host_fast. repeat case_match; try by apply coherent_raise.
  by apply coherent_touch.
Qed.

(** The successful translation of a miss, with the page cache it filled. *)
Lemma miss_coherent k addr b ppn m' dma s2 s : coherent s -> is_u32 addr ->
  ad_update k (ram s) m' -> translates k (hart s) m' (Z.shiftr addr RV_PAGE_SHIFT) ppn ->
  ram_data_minus_addr addr (phys_of ppn addr) b (set_exc_val_m addr s <| ram := m' |>) = (dma, s2) ->
  coherent s2 /\
  entry_ok k (hart s2) (ram s2) (ram_ptr s2) (Z.shiftr addr RV_PAGE_SHIFT) ppn dma /\
  load_set (hart s2) = load_set (hart s) /\ store_set (hart s2) = store_set (hart s) /\
  merr s2 = merr s.
Proof.
  intros C Ha Hu Ht E. set (s' := set_exc_val_m addr s <| ram := m' |>) in *.
  pose proof (vpn_range addr Ha) as Hv. pose proof (translates_range _ _ _ _ _ Hv Ht) as Hppn.
  pose proof (phys_of_range ppn addr Hppn Ha) as Hpr. unfold is_u32 in Hpr.
  assert (C' : coherent s') by (apply (coherent_step k s); try done; apply C).
  destruct (ram_data_minus_addr_frame addr (phys_of ppn addr) b s' (coh_ramc s' C') Ha)
    as (dma' & g & E' & _ & Hg & Hgs & Hd); [lia|].
  rewrite E' in E. apply pair_equal_spec in E as [<- <-].
  assert (Hctx : same_tlb (hart s') (g (hart s')) /\ same_context (hart s') (g (hart s'))
            /\ error (g (hart s')) = error (hart s))
    by (destruct Hgs as [-> | [-> | ->]]; repeat split).
  destruct Hctx as (Hst & Hctx & Herr).
  split; [by apply coherent_on_hart|]. split; [|repeat split].
  - intros _. split; [by eapply translates_context|].
    destruct Hd as [?|[Hd Hlt]]; [by left|right].
    rewrite <- !shiftr_page, phys_of_ppn in Hd by done. split; [exact Hd|].
    rewrite phys_of_arith in Hlt by done. pose proof (Z.mod_pos_bound addr 4096). lia.
  - change (load_set (g (hart s')) = load_set (hart s')).
    unfold load_set. by rewrite (proj1 Hst).
  - change (store_set (g (hart s')) = store_set (hart s')).
    unfold store_set. by rewrite (proj1 (proj2 Hst)).
  - change (err (g (hart s')) = err (hart s)). unfold err. by rewrite Herr.
Qed.

Lemma load_miss_coherent addr w r s : coherent s -> is_u32 addr -> merr s = false ->
  coherent (snd (load_miss addr (Z.shiftr addr RV_PAGE_SHIFT)
    (tlb_index (Z.shiftr addr RV_PAGE_SHIFT)) w r (set_exc_val_m addr s))).
Proof.
  intros C Ha Herr. unfold load_miss.
  change (mmu_translate addr _ 64 _ _ _ (set_exc_val_m addr s))
    with (mmu_translate addr (acc_bits TLoad (hart s)) (ad_bits TLoad) (skip_priv (hart s))
            RV_EXC_LOAD_FAULT RV_EXC_LOAD_PFAULT s).
  destruct (mmu_translate_cases TLoad addr RV_EXC_LOAD_FAULT RV_EXC_LOAD_PFAULT s
              (coh_mem s C) Ha) as [(ppn & m' & -> & Hu & Ht)|(c & ->)];
    [|by apply coherent_raise].
  set (s' := set_exc_val_m addr s <| ram := m' |>).
  change (merr s') with (merr s). rewrite Herr.
  pose proof (vpn_range addr Ha) as Hv. pose proof (translates_range _ _ _ _ _ Hv Ht) as Hppn.
  destruct (ram_data_minus_addr addr (phys_of ppn addr) false s') as [dma s2] eqn:E.
  destruct (miss_coherent TLoad addr false ppn m' dma s2 s C Ha Hu Ht E)
    as (C2 & He & Els & _ & _).
  pose proof (phys_of_range ppn addr Hppn Ha) as Hpr. unfold is_u32 in Hpr.
  apply coherent_load_finish; [|lia].
  pose proof (load_set_ok s2 (tlb_index (Z.shiftr addr RV_PAGE_SHIFT)) C2) as Hst.
  change (load_set (hart (set_exc_val_m addr s))) with (load_set (hart s)).
  rewrite <- Els, phys_of_ppn by done.
  apply coherent_load_fill; [done|by apply tlb_set_ok_victim|].
  cbn [lru]. by rewrite victim_is_mru by apply Hst.
Qed.

(** C3: Loads keep the caches coherent. From a coherent machine [mmu_load]
    reaches a coherent machine on every path (hit, refill, fault, device
    access): every cached translation is still one the page tables hold with the
    current permissions and with its accessed bit set, and every cached host
    pointer still points into RAM. *)
Theorem mmu_load_coherent addr w r s :
  coherent s -> is_u32 addr -> merr s = false -> coherent (snd (mmu_load addr w r s)).
Proof.
  intros C Ha Herr. unfold mmu_load. fold (set_exc_val_m addr s).
  pose proof (vpn_range addr Ha) as Hv. set (vpn := Z.shiftr addr RV_PAGE_SHIFT) in *. cbv zeta.
  set (s1 := set_exc_val_m addr s).
  pose proof (coherent_exc_val addr s C : coherent s1) as C1.
  assert (Fin : forall ppn dma s2, coherent s2 -> ram_ptr s2 = ram_ptr s ->
    entry_ok TLoad (hart s2) (ram s2) (ram_ptr s2) vpn ppn dma ->
    coherent (snd (if nz dma && negb r then ram_read_host_fast (u64 (dma + addr)) w s2
                   else load_finish (phys_of ppn addr) w r s2))).
  { intros ppn dma s2 C2 Hp He. case_match; [by apply host_read_coherent|].
    apply coherent_load_finish; [done|].
    pose proof (phys_of_range ppn addr (translates_range _ _ _ _ _ Hv (proj1 (He Hv))) Ha) as Hq.
    unfold is_u32 in Hq. lia. }
  destruct (Z.eqb_spec (cache_load_last_vpn (hart s1)) vpn) as [E|_].
  - apply Fin; try done. rewrite <- E. apply (coh_tlb s1 C1).
  - pose proof (load_set_ok s1 (tlb_index vpn) C1) as Hst.
    destruct (tlb_probe _ vpn) as [i|] eqn:Hp; [|by apply load_miss_coherent].
    pose proof (tlb_probe_hit _ _ _ _ _ _ _ Hst Hp) as [Hn Hi].
    set (st := load_set (hart s1) (tlb_index vpn)) in *.
    pose proof (tlb_set_way _ _ _ _ _ i Hst) as Hw. unfold way_ok in Hw. rewrite Hn in Hw.
    rewrite phys_of_ppn by (done || by eapply translates_range, Hw).
    apply Fin; try done. apply coherent_load_fill; try done. by apply tlb_set_ok_lru.
Qed.
End Load.
