(* ===== verification/TlbStore.v ===== *)
(** * Stores, cache flushes and the translation context

    The store path refines the page-table walk the way the load path does
    ([Tlb.v]); flushing the caches establishes coherence; and every operation
    that changes what a translation depends on flushes. *)

From stdpp Require Import base gmap list.
From Stdlib Require Import ZArith Lia Bool.
From S2P Require Import Prelude Bits Isa Hart Machine Mmu Arch RamProps Tlb Csr.
Open Scope Z_scope.

Section Store.
Context {D : Type} `{BusD : Bus D} {Laws : BusLaws D}.
Implicit Types s : machine D.

(** Drop every hart's reservation of the stored word. *)
Definition break_all (pa : Z) s : machine D :=
  if n_hart s =? 1 then on_hart (break_reservation pa) s
  else for_all_harts (fun i => upd_hart i (break_reservation pa)) s.

(** The reference: translate on every access, test the reservation, go to the bus. *)
Definition bus_store (pa width value : Z) (cond : bool) s : bool * machine D :=
  if cond && negb (lr_reservation (hart s) =? Z.lor pa 1) then (false, s)
  else (true, mem_store pa width value (break_all pa s)).

Definition ref_store (addr width value : Z) (cond : bool) s : bool * machine D :=
  let '(pa, s) := mmu_translate addr (acc_bits TStore (hart s)) (ad_bits TStore)
                    (skip_priv (hart s)) RV_EXC_STORE_FAULT RV_EXC_STORE_PFAULT s in
  if merr s then (false, s) else bus_store pa width value cond s.

(** [s'] differs from [s] at most in reservations. *)
Definition resv_frame s s' : Prop :=
  ram s' = ram s /\ ram_ptr s' = ram_ptr s /\
  exists r, hart s' = (hart s) <| lr_reservation := r |>.

Lemma resv_frame_trans s1 s2 s3 : resv_frame s1 s2 -> resv_frame s2 s3 -> resv_frame s1 s3.
Proof.
  intros (A & B & r & E) (A' & B' & r' & E'). split; [congruence|]. split; [congruence|].
  exists r'. by rewrite E', E.
Qed.

Lemma hart_resv_eta h : h = h <| lr_reservation := lr_reservation h |>.
Proof. by destruct h. Qed.

Lemma break_frame pa h : exists r, break_reservation pa h = h <| lr_reservation := r |>.
Proof.
  unfold break_reservation. case_match; [by eexists|]. exists (lr_reservation h).
  apply hart_resv_eta.
Qed.

Lemma upd_break_frame pa i s : resv_frame s (upd_hart i (break_reservation pa) s).
Proof.
  unfold upd_hart. case_match; (split; [done|]; split; [done|]).
  - apply break_frame.
  - exists (lr_reservation (hart s)). apply hart_resv_eta.
Qed.

Lemma for_harts_break pa n i s :
  resv_frame s (for_harts n i (fun i => upd_hart i (break_reservation pa)) s).
Proof.
  revert i s. induction n as [|n IH]; intros i s; cbn.
  - split; [done|]. split; [done|]. exists (lr_reservation (hart s)). apply hart_resv_eta.
  - eapply resv_frame_trans; [apply upd_break_frame|apply IH].
Qed.

Lemma break_all_frame pa s : resv_frame s (break_all pa s).
Proof.
  unfold break_all. case_match; [|apply for_harts_break].
  split; [done|]. split; [done|]. apply break_frame.
Qed.

Lemma erase_break pa h : erase (break_reservation pa h) = break_reservation pa (erase h).
Proof.
  unfold break_reservation. change (lr_reservation (erase h)) with (lr_reservation h).
  by case_match.
Qed.

Lemma arch_upd_break pa i s :
  arch (upd_hart i (break_reservation pa) s) = upd_hart i (break_reservation pa) (arch s).
Proof.
  unfold upd_hart. change (mhartid (hart (arch s))) with (mhartid (hart s)).
  case_match; [|done]. apply arch_on_hart, erase_break.
Qed.

Lemma arch_for_harts pa n i s :
  arch (for_harts n i (fun i => upd_hart i (break_reservation pa)) s) =
  for_harts n i (fun i => upd_hart i (break_reservation pa)) (arch s).
Proof.
  revert i s. induction n as [|n IH]; intros i s; [done|].
  cbn [for_harts]. by rewrite IH, arch_upd_break.
Qed.

Lemma arch_break_all pa s : arch (break_all pa s) = break_all pa (arch s).
Proof.
  unfold break_all. change (n_hart (arch s)) with (n_hart s).
  case_match; [apply arch_on_hart, erase_break|apply arch_for_harts].
Qed.

Lemma bus_store_natural' pa w v c s : archr (bus_store pa w v c s) = bus_store pa w v c (arch s).
Proof.
  unfold bus_store. change (lr_reservation (hart (arch s))) with (lr_reservation (hart s)).
  case_match; rewrite archr_pair; [done|]. by rewrite bus_store_natural, arch_break_all.
Qed.

Lemma break_all_ramc pa s : ramc_ok (hart s) -> ramc_ok (hart (break_all pa s)).
Proof. destruct (break_all_frame pa s) as (_ & _ & r & ->). done. Qed.

(** Where [do_store] may go: nowhere, or a host address that denotes [pa]. *)
Definition host_for s (ha pa : Z) : Prop :=
  ha = 0 \/ (ha = ram_ptr s + pa /\ host_ok (ram_ptr s) /\ 0 <= pa < RAM_SIZE).

Lemma do_store_bus ha pa w v c s : ramc_ok (hart s) -> 0 <= pa -> host_for s ha pa ->
  archr (do_store ha pa w v c s) = archr (bus_store pa w v c s).
Proof.
  intros Hr Hpa Hha. unfold do_store, bus_store. destruct (c && _); [done|].
  fold (break_all pa s). set (s1 := break_all pa s).
  pose proof (break_all_ramc pa s Hr : ramc_ok (hart s1)) as Hr1.
  pose proof (break_all_frame pa s) as (_ & Hrp & _). fold s1 in Hrp.
  destruct (nz ha) eqn:Hnz.
  - destruct Hha as [->|(-> & Hh & Hlt)]; [done|]. rewrite <- Hrp in *.
    by rewrite ram_write_host_fast_eq, bus_store_ram by (done || lia).
  - destruct (Z.lt_ge_cases pa RAM_SIZE) as [Hlt|Hge].
    + destruct (ram_cache_lookup_ram s1 pa true Hr1 ltac:(lia)) as (f & -> & Hc & _ & _).
      rewrite ram_write_fast_eq, bus_store_ram, !archr_pair, !arch_ram_write by lia.
      by rewrite arch_cache_only.
    + by rewrite ram_cache_lookup_mmio.
Qed.

Lemma host_for_entry k c h addr ppn dma s : host_ok (ram_ptr s) -> is_u32 addr ->
  entry_ok k h (ram s) (ram_ptr s) (Z.shiftr addr RV_PAGE_SHIFT) ppn dma ->
  host_for s (if nz dma && negb c then u64 (dma + addr) else 0) (phys_of ppn addr).
Proof.
  intros Hh Ha He. pose proof (vpn_range addr Ha) as Hv.
  destruct (nz dma && negb c) eqn:E; [|by left]. apply andb_prop in E as [E _].
  destruct (He Hv) as [Ht [->|[Hdma Hr]]]; [done|].
  pose proof (translates_range _ _ _ _ _ Hv Ht) as Hppn.
  destruct (host_addr_eq _ _ _ _ _ Hh Ha eq_refl Hppn Hdma Hr) as [-> Hpa]. by right.
Qed.

Lemma ref_store_hit addr ppn w v c s : mem_ok s -> is_u32 addr -> merr s = false ->
  translates TStore (hart s) (ram s) (Z.shiftr addr RV_PAGE_SHIFT) ppn ->
  ref_store addr w v c s = bus_store (phys_of ppn addr) w v c (set_exc_val_m addr s).
Proof.
  intros Hm Ha Herr Ht. unfold ref_store. rewrite (mmu_translate_hit TStore addr ppn) by done.
  change (merr (set_exc_val_m addr s)) with (merr s). by rewrite Herr.
Qed.

Lemma store_hit_ref addr ppn dma w v c f s : coherent s -> is_u32 addr -> merr s = false ->
  cache_only f -> ramc_ok (f (hart (set_exc_val_m addr s))) ->
  entry_ok TStore (hart s) (ram s) (ram_ptr s) (Z.shiftr addr RV_PAGE_SHIFT) ppn dma ->
  archr (do_store (if nz dma && negb c then u64 (dma + addr) else 0) (phys_of ppn addr) w v c
           (on_hart f (set_exc_val_m addr s)))
  = archr (ref_store addr w v c s).
Proof.
  intros C Ha Herr Hf Hrc Hent. pose proof (vpn_range addr Ha) as Hv.
  destruct (Hent Hv) as [Ht _]. pose proof (translates_range _ _ _ _ _ Hv Ht) as Hppn.
  rewrite (ref_store_hit addr ppn) by (apply (coh_mem s C) || assumption).
  rewrite bus_store_natural', <- (arch_cache_only f) by done. rewrite <- bus_store_natural'.
  pose proof (phys_of_range ppn addr Hppn Ha) as Hpr. unfold is_u32 in Hpr.
  apply do_store_bus; [exact Hrc|lia|].
  apply (host_for_entry TStore c (hart s)); [apply (coh_host s C)|exact Ha|exact Hent].
Qed.

Lemma store_miss_ref addr w v c s : coherent s -> is_u32 addr -> merr s = false ->
  archr (store_miss addr (Z.shiftr addr RV_PAGE_SHIFT) (tlb_index (Z.shiftr addr RV_PAGE_SHIFT))
           w v c (set_exc_val_m addr s))
  = archr (ref_store addr w v c s).
Proof.
  intros C Ha Herr. unfold store_miss, ref_store.
  change (mmu_translate addr 4 192 _ _ _ (set_exc_val_m addr s))
    with (mmu_translate addr (acc_bits TStore (hart s)) (ad_bits TStore) (skip_priv (hart s))
            RV_EXC_STORE_FAULT RV_EXC_STORE_PFAULT s).
  destruct (mmu_translate_cases TStore addr RV_EXC_STORE_FAULT RV_EXC_STORE_PFAULT s
              (coh_mem s C) Ha) as [(ppn & m' & -> & Hu & Ht)|(cs & ->)]; [|done].
  set (s' := set_exc_val_m addr s <| ram := m' |>).
  change (merr s') with (merr s). rewrite Herr.
  pose proof (vpn_range addr Ha) as Hv. pose proof (translates_range _ _ _ _ _ Hv Ht) as Hppn.
  pose proof (phys_of_range ppn addr Hppn Ha) as Hpr. unfold is_u32 in Hpr.
  assert (Hrc : ramc_ok (hart s')) by exact (coh_ramc s C).
  destruct (ram_data_minus_addr_frame addr (phys_of ppn addr) true s' Hrc Ha) as
    (dma & f & -> & Hf & Hfrc & _); [lia|].
  rewrite do_store_bus; [|exact Hfrc|lia|by left].
  rewrite bus_store_natural', (bus_store_natural' _ _ _ _ s').
  rewrite !arch_cache_only; done.
Qed.

(** C2: The data-store path refines the page-table walk. On a coherent machine,
    [mmu_store] (plain or store-conditional) reports success, breaks the
    reservations of the other harts on the stored word, raises the exception and
    reaches the architectural state that a walk of the page tables, the
    reservation test and a bus store give. *)
Theorem mmu_store_refines_walk addr w v c s :
  coherent s -> is_u32 addr -> merr s = false ->
  archr (mmu_store addr w v c s) = archr (ref_store addr w v c s).
Proof.
  intros C Ha Herr. unfold mmu_store. fold (set_exc_val_m addr s).
  set (vpn := Z.shiftr addr RV_PAGE_SHIFT). cbv zeta.
  destruct (Z.eqb_spec (cache_store_last_vpn (hart (set_exc_val_m addr s))) vpn) as [E|_].
  - apply (store_hit_ref addr (cache_store_last_phys_ppn (hart s))
      (cache_store_last_data_minus_addr (hart s)) w v c (fun h => h)); try done; [apply C|].
    fold vpn. rewrite <- E. apply (coh_tlb s C).
  - pose proof (store_set_ok s (tlb_index vpn) C) as Hst.
    change (store_set (hart (set_exc_val_m addr s))) with (store_set (hart s)).
    destruct (tlb_probe _ vpn) as [i|] eqn:Hp; [|by apply store_miss_ref].
    pose proof (tlb_probe_hit _ _ _ _ _ _ _ Hst Hp) as [Hn _].
    set (st := store_set (hart s) (tlb_index vpn)) in *.
    pose proof (tlb_set_way _ _ _ _ _ i Hst) as Hw. unfold way_ok in Hw. rewrite Hn in Hw.
    pose (f := fun h => set_store_last vpn
       (Z.shiftr (phys_of (phys_ppn (way st i)) addr) RV_PAGE_SHIFT)
       (data_minus_addr (way st i)) (upd_store_set (tlb_index vpn) (st <| lru := 1 - i |>) h)).
    apply (store_hit_ref addr (phys_ppn (way st i)) (data_minus_addr (way st i)) w v c f);
      try done. apply C.
Qed.
End Store.

(** ** Flushes *)

(** No data translation is cached. *)
Definition tlb_empty (h : hart_t) : Prop :=
  Forall (fun st => n_pages (way0 st) = 0xFFFFFFFF /\ n_pages (way1 st) = 0xFFFFFFFF /\ lru st = 0)
    (cache_load h) /\
  Forall (fun st => n_pages (way0 st) = 0xFFFFFFFF /\ n_pages (way1 st) = 0xFFFFFFFF /\ lru st = 0)
    (cache_store h) /\
  cache_load_last_vpn h = 0xFFFFFFFF /\ cache_store_last_vpn h = 0xFFFFFFFF.

Lemma mmu_invalidate_empty h : tlb_empty (mmu_invalidate h).
Proof.
  unfold mmu_invalidate, icache_invalidate_all. cbv zeta.
  split; [|split; [|split]]; try (case_match; done).
  - case_match; cbn; apply Forall_fmap, Forall_true; done.
  - case_match; cbn; apply Forall_fmap, Forall_true; done.
Qed.

Lemma entry_empty k c m rp vpn ppn dma : vpn = 0xFFFFFFFF -> entry_ok k c m rp vpn ppn dma.
Proof. intros -> H. lia. Qed.

Lemma tlb_empty_ok h c m rp : tlb_empty h -> tlb_ok h c m rp.
Proof.
  intros (H1 & H2 & H3 & H4). split; auto using entry_empty.
  - eapply Forall_impl; [exact H1|]. intros st (A & B & E).
    split; [by apply entry_empty|]. split; [by apply entry_empty|by left].
  - eapply Forall_impl; [exact H2|]. intros st (A & B & E).
    split; [by apply entry_empty|]. split; [by apply entry_empty|by left].
Qed.

Lemma tlb_empty_same h h' : same_tlb h h' -> tlb_empty h -> tlb_empty h'.
Proof. unfold tlb_empty. intros (-> & -> & -> & _ & _ & -> & _). done. Qed.

(** The host-side set-up of the direct-RAM path; never changed after INIT_HART. *)
Definition ramc_flushed (h : hart_t) : Prop :=
  ram_load_last_page h = 0xFFFFFFFF /\ ram_store_last_page h = 0xFFFFFFFF.

Lemma invalidate_frame h : ramc_flushed (mmu_invalidate h) /\
  ram_base (mmu_invalidate h) = ram_base h /\ ram_size (mmu_invalidate h) = ram_size h /\
  same_context h (mmu_invalidate h).
Proof. unfold mmu_invalidate, icache_invalidate_all. cbv zeta. by case_match. Qed.

Section Flush.
Context {D : Type} `{BusD : Bus D} {Laws : BusLaws D}.
Implicit Types s : machine D.

(** An update of a hart that flushes, or keeps context and caches. *)
Definition safe_update (h h' : hart_t) : Prop :=
  ram_base h' = ram_base h /\ ram_size h' = ram_size h /\
  ((tlb_empty h' /\ ramc_flushed h') \/
   (same_tlb h h' /\ same_context h h' /\
    ram_load_last_page h' = ram_load_last_page h /\ ram_load_last_ptr h' = ram_load_last_ptr h /\
    ram_store_last_page h' = ram_store_last_page h /\ ram_store_last_ptr h' = ram_store_last_ptr h)).

Lemma coherent_safe_update f s : coherent s -> safe_update (hart s) (f (hart s)) ->
  pt_ok (f (hart s)) -> coherent (on_hart f s).
Proof.
  intros C (Hb & Hz & [[He [Hf1 Hf2]]|(Ht & Hc & E1 & E2 & E3 & E4)]) Hpt.
  - destruct C as [[Hm _] Hh (Hrb & Hrz & _) _]. split; try done.
    + change (hart (on_hart f s)) with (f (hart s)).
      split; [congruence|]. split; [congruence|]. split; by left.
    + by apply tlb_empty_ok.
  - apply coherent_on_hart; try done. eapply ramc_ok_ext; [..|apply C]; done.
Qed.

Lemma safe_invalidate h h0 h' : h0 = mmu_invalidate h -> same_tlb h0 h' ->
  ram_load_last_page h' = ram_load_last_page h0 ->
  ram_store_last_page h' = ram_store_last_page h0 ->
  ram_base h' = ram_base h0 -> ram_size h' = ram_size h0 -> safe_update h h'.
Proof.
  intros -> Ht E1 E2 Hb Hz. destruct (invalidate_frame h) as ([F1 F2] & Hb' & Hz' & _).
  split; [congruence|]. split; [congruence|]. left. split; [|split; congruence].
  eapply tlb_empty_same, mmu_invalidate_empty; done.
Qed.

(** Fields outside the caches and the context change freely. *)
Lemma safe_update_trans h1 h2 h3 : safe_update h1 h2 -> safe_update h2 h3 -> safe_update h1 h3.
Proof.
  intros (B & Z0 & A) (B' & Z' & A'). split; [congruence|]. split; [congruence|].
  destruct A' as [?|(T & C & E1 & E2 & E3 & E4)]; [by left|].
  destruct A as [[F1 [F2 F3]]|(T' & C' & E1' & E2' & E3' & E4')].
  - left. split; [by eapply tlb_empty_same|]. split; congruence.
  - right. unfold same_tlb, same_context in *. destruct_and?. repeat split; congruence.
Qed.

(** Trap entry, with the mode switch apart from the flush. *)
Definition trap_enter (h : hart_t) (p : Z) : hart_t :=
  h <| s_mode := true |> <| pc := p |> <| error := ERR_NONE |>.
Definition trap_save (h : hart_t) : hart_t :=
  h <| scause := exc_cause h |> <| stval := exc_val h |> <| sstatus_spie := sstatus_sie h |>
    <| sstatus_spp := s_mode h |> <| sepc := current_pc h |> <| sstatus_sie := false |>.

Lemma hart_trap_split h : exists p,
  hart_trap h = trap_enter (if s_mode h then trap_save h else mmu_invalidate (trap_save h)) p.
Proof.
  unfold hart_trap. cbv zeta.
  change (s_mode (_ <| sstatus_sie := false |>)) with (s_mode h).
  set (h1 := trap_save h).
  change (_ <| sstatus_sie := false |>) with h1.
  replace (if negb (s_mode h) then mmu_invalidate h1 else h1)
    with (if s_mode h then h1 else mmu_invalidate h1) by by destruct (s_mode h).
  generalize (if s_mode h then h1 else mmu_invalidate h1). intros h2.
  destruct (stvec_vectored (h2 <| s_mode := true |> <| pc := stvec_addr h2 |>)).
  - by eexists.
  - by exists (stvec_addr h2).
Qed.

Lemma enter_same_tlb h p : same_tlb h (trap_enter h p).
Proof. by repeat split. Qed.

Lemma enter_safe h h0 p : h0 = mmu_invalidate h -> safe_update h (trap_enter h0 p).
Proof.
  intros E. apply (safe_invalidate h h0); [exact E|apply enter_same_tlb|reflexivity..].
Qed.

Lemma save_safe h : safe_update h (trap_save h).
Proof. split; [reflexivity|]. split; [reflexivity|]. right. by repeat split. Qed.

Lemma enter_safe_s h p : s_mode h = true -> safe_update h (trap_enter h p).
Proof.
  intros Hs. split; [reflexivity|]. split; [reflexivity|]. right.
  split; [apply enter_same_tlb|]. by repeat split.
Qed.

Lemma trap_safe h : safe_update h (hart_trap h).
Proof.
  destruct (hart_trap_split h) as [p ->].
  apply (safe_update_trans _ (trap_save h)); [apply save_safe|].
  destruct (s_mode h) eqn:Hs.
  - apply enter_safe_s. exact Hs.
  - by apply enter_safe.
Qed.

(** A flush covers any change of context. *)
Lemma flush_safe h h1 : ram_base h1 = ram_base h -> ram_size h1 = ram_size h ->
  safe_update h (mmu_invalidate h1).
Proof.
  intros Hb Hz. destruct (invalidate_frame h1) as (F & Hb' & Hz' & _).
  split; [congruence|]. split; [congruence|]. left. split; [apply mmu_invalidate_empty|exact F].
Qed.

Definition sret_leave (h : hart_t) : hart_t :=
  h <| s_mode := sstatus_spp h |> <| sstatus_sie := sstatus_spie h |>
    <| sstatus_spp := false |> <| sstatus_spie := true |>.

Lemma leave_safe h h0 : h0 = mmu_invalidate h -> safe_update h (sret_leave h0).
Proof. intros E. apply (safe_invalidate h h0); [exact E|by repeat split|reflexivity..]. Qed.

Lemma leave_safe_same h : s_mode h = sstatus_spp h -> safe_update h (sret_leave h).
Proof.
  intros E. split; [reflexivity|]. split; [reflexivity|]. right. split; [by repeat split|].
  split; [|by repeat split]. by repeat split.
Qed.

Lemma pc_safe h p : safe_update h (h <| pc := p |>).
Proof. split; [reflexivity|]. split; [reflexivity|]. right. by repeat split. Qed.

Lemma sret_safe h : safe_update h (sret_hart h).
Proof.
  apply (safe_update_trans _ (h <| pc := sepc h |>)); [apply pc_safe|].
  change (sret_hart h) with (sret_leave
    (if negb (Bool.eqb (s_mode h) (sstatus_spp h)) then mmu_invalidate (h <| pc := sepc h |>)
     else h <| pc := sepc h |>)).
  destruct (Bool.eqb_spec (s_mode h) (sstatus_spp h)) as [E|E]; cbn [negb].
  - by apply leave_safe_same.
  - by apply leave_safe.
Qed.

Lemma sstatus_safe v h : safe_update h (write_sstatus v h).
Proof.
  unfold write_sstatus. cbv zeta.
  set (h1 := h <| sstatus_sie := _ |> <| sstatus_spie := _ |> <| sstatus_spp := _ |>
               <| sstatus_sum := _ |> <| sstatus_mxr := _ |>).
  destruct (Bool.eqb_spec (sstatus_sum h1) (sstatus_sum h)) as [E1|E1];
    [destruct (Bool.eqb_spec (sstatus_mxr h1) (sstatus_mxr h)) as [E2|E2]|];
    cbn [negb orb]; try (apply flush_safe; reflexivity).
  split; [reflexivity|]. split; [reflexivity|]. right.
  split; [by repeat split|]. split; [|by repeat split]. by split; [|split].
Qed.

Lemma invalidate_page_table h : page_table (mmu_invalidate h) = page_table h.
Proof. by destruct (invalidate_frame h) as (_ & _ & _ & -> & _). Qed.

Lemma trap_page_table h : page_table (hart_trap h) = page_table h.
Proof.
  assert (E : forall h p, page_table (trap_enter h p) = page_table h) by reflexivity.
  destruct (hart_trap_split h) as [p ->]. rewrite E.
  destruct (s_mode h); rewrite ?invalidate_page_table; reflexivity.
Qed.

Lemma sret_page_table h : page_table (sret_hart h) = page_table h.
Proof.
  assert (E : forall h, page_table (sret_leave h) = page_table h) by reflexivity.
  change (sret_hart h) with (sret_leave
    (if negb (Bool.eqb (s_mode h) (sstatus_spp h)) then mmu_invalidate (h <| pc := sepc h |>)
     else h <| pc := sepc h |>)).
  rewrite E. case_match; rewrite ?invalidate_page_table; reflexivity.
Qed.

Lemma sstatus_page_table v h : page_table (write_sstatus v h) = page_table h.
Proof.
  unfold write_sstatus. cbv zeta. case_match; [|reflexivity].
  rewrite invalidate_page_table. reflexivity.
Qed.

Lemma op_sret_coherent s : coherent s -> coherent (op_sret s).
Proof.
  intros C. unfold op_sret.
  assert (C1 : coherent (on_hart sret_hart s)).
  { apply coherent_safe_update; [done|apply sret_safe|]. intros pt.
    rewrite sret_page_table. apply (coh_mem s C). }
  destruct (_ && _); [|exact C1].
  destruct C1. by split.
Qed.

Lemma mmu_fence_coherent s : coherent s -> coherent (on_hart mmu_invalidate s).
Proof.
  intros C. apply coherent_safe_update; [done|by apply flush_safe|]. intros pt.
  rewrite invalidate_page_table. apply (coh_mem s C).
Qed.

(** Setting a new root on a flushed machine. *)
Lemma coherent_new_root h0 root v s : coherent s -> tlb_empty (hart s) -> h0 = hart s ->
  (forall pt, root = Some pt -> exists p, 0 <= p < RAM_SIZE / 4096 /\ pt = p * 4096) ->
  coherent (s <| hart := h0 <| page_table := root |> <| satp := v |> |>).
Proof.
  intros [[Hm Hpt] Hh Hr Ht] He -> Hroot. split; [by split|done|done|].
  apply tlb_empty_ok. eapply tlb_empty_same, He. by repeat split.
Qed.

Lemma mmu_set_coherent v s : coherent s -> coherent (mmu_set v s).
Proof.
  intros C. unfold mmu_set. pose proof (mmu_fence_coherent s C) as C1.
  pose proof (mmu_invalidate_empty (hart s) : tlb_empty (hart (on_hart mmu_invalidate s))) as He.
  remember (on_hart mmu_invalidate s) as s1 eqn:E1. clear E1.
  destruct (nz (Z.shiftr v 31)).
  - assert (H0 : 0 <= Z.land v (MASK 22)) by (apply Z.land_nonneg; right; vm_compute; discriminate).
    rewrite bus_page_table by done. destruct (ram_page _) as [pt|] eqn:E; [|exact C1].
    apply coherent_new_root; try done. intros pt' [= <-].
    apply ram_page_Some in E as [Hp ->]; [eauto|done].
  - by apply coherent_new_root.
Qed.

Lemma csr_write_coherent a v s : coherent s -> coherent (csr_write a v s).
Proof.
  intros C. unfold csr_write. repeat match goal with
  | |- coherent (if ?b then _ else _) => destruct b
  | |- coherent (raise _ _ _) => by apply coherent_raise
  | |- coherent (mmu_set _ _) => by apply mmu_set_coherent
  | |- coherent (on_hart (write_sstatus _) _) => apply coherent_safe_update;
      [done|apply sstatus_safe|intros pt; rewrite sstatus_page_table; apply (coh_mem s C)]
  | |- coherent (on_hart _ _) => apply coherent_on_hart; [done|by repeat split..|apply C]
  end.
Qed.

End Flush.
