(* ===== verification/HartProps.v ===== *)
(** * Traps and ranged cache invalidation

    [hart_trap] followed by [op_sret] resumes the interrupted code;
    [mmu_invalidate_range] (SBI remote fences) drops exactly the cached
    translations of the pages it is asked to drop. *)

From stdpp Require Import base gmap list.
From Stdlib Require Import ZArith Lia Bool.
From S2P Require Import Prelude Bits Isa Hart Machine Mmu Csr Arch RamProps Tlb TlbStore.
Open Scope Z_scope.

Lemma hart_on_hart {D} f (s : machine D) : hart (on_hart f s) = f (hart s).
Proof. reflexivity. Qed.

(** ** Trap and return *)

(** Flushing the caches is architecturally invisible. *)
Lemma erase_invalidate h : erase (mmu_invalidate h) = erase h.
Proof. unfold mmu_invalidate, icache_invalidate_all. cbv zeta. by case_match. Qed.

Lemma erase_invalidate_if (b : bool) h : erase (if b then mmu_invalidate h else h) = erase h.
Proof. destruct b; [apply erase_invalidate|done]. Qed.

(** The trap target: the base, plus four times the cause in vectored mode. *)
Definition trap_vector (h : hart_t) : Z :=
  if stvec_vectored h then u32 (stvec_addr h + u32 (Z.land (exc_cause h) (MASK 31) * 4))
  else stvec_addr h.

(** A trap, field by field. *)
Definition trap_spec (h : hart_t) : hart_t :=
  h <| scause := exc_cause h |> <| stval := exc_val h |> <| sepc := current_pc h |>
    <| sstatus_spp := s_mode h |> <| sstatus_spie := sstatus_sie h |> <| sstatus_sie := false |>
    <| s_mode := true |> <| pc := trap_vector h |> <| error := ERR_NONE |>.

(** What is left of a trap and the matching return. *)
Definition resumed (h : hart_t) : hart_t :=
  h <| scause := exc_cause h |> <| stval := exc_val h |> <| sepc := current_pc h |>
    <| sstatus_spp := false |> <| sstatus_spie := true |> <| pc := current_pc h |>
    <| error := ERR_NONE |>.

(** Fields and updates that do not concern the caches factor through [erase]. *)
Lemma erase_proj {A} (f : hart_t -> A) h h' : (forall h, f (erase h) = f h) ->
  erase h = erase h' -> f h = f h'.
Proof. intros Hf H. by rewrite <- (Hf h), H, Hf. Qed.

Lemma erase_natural f h h' : (forall h, erase (f h) = f (erase h)) ->
  erase h = erase h' -> erase (f h) = erase (f h').
Proof. intros Hf H. by rewrite !Hf, H. Qed.

Ltac erased f H := apply (erase_proj f _ _ (fun _ => eq_refl) H).

Lemma erase_enter p h h' : erase h = erase h' -> erase (trap_enter h p) = erase (trap_enter h' p).
Proof. apply (erase_natural (fun h => trap_enter h p)). reflexivity. Qed.
Lemma erase_leave h h' : erase h = erase h' -> erase (sret_leave h) = erase (sret_leave h').
Proof. apply (erase_natural sret_leave). reflexivity. Qed.
Lemma erase_leave_pc p h h' : erase h = erase h' ->
  erase (sret_leave (h <| pc := p |>)) = erase (sret_leave (h' <| pc := p |>)).
Proof. apply (erase_natural (fun h => sret_leave (h <| pc := p |>))). reflexivity. Qed.

Definition vector_of (h : hart_t) : Z :=
  if stvec_vectored h then u32 (stvec_addr h + u32 (Z.land (scause h) (MASK 31) * 4)) else stvec_addr h.

Lemma hart_trap_eq h : exists h2, erase h2 = erase (trap_save h) /\
  hart_trap h = trap_enter h2 (vector_of h2).
Proof.
  exists (if negb (s_mode (trap_save h)) then mmu_invalidate (trap_save h) else trap_save h).
  split; [apply erase_invalidate_if|].
  unfold hart_trap. cbv zeta.
  change (_ <| sstatus_sie := false |>) with (trap_save h).
  generalize (if negb (s_mode (trap_save h)) then mmu_invalidate (trap_save h) else trap_save h).
  intros h2. unfold vector_of.
  change (stvec_vectored (h2 <| s_mode := true |> <| pc := stvec_addr h2 |>)) with (stvec_vectored h2).
  by destruct (stvec_vectored h2).
Qed.

(** From S-mode there is no flush. *)
Lemma hart_trap_s h : s_mode h = true ->
  hart_trap h = trap_enter (trap_save h) (vector_of (trap_save h)).
Proof.
  intros Hm. unfold hart_trap. cbv zeta.
  change (_ <| sstatus_sie := false |>) with (trap_save h).
  change (s_mode (trap_save h)) with (s_mode h). rewrite Hm. cbn [negb].
  generalize (trap_save h). intros h2. unfold vector_of.
  change (stvec_vectored (h2 <| s_mode := true |> <| pc := stvec_addr h2 |>)) with (stvec_vectored h2).
  by destruct (stvec_vectored h2).
Qed.

Lemma erase_save_enter h : erase (trap_enter (trap_save h) (vector_of (trap_save h))) = erase (trap_spec h).
Proof. destruct h. cbv -[u32 Z.add Z.mul Z.land MASK]. reflexivity. Qed.

Lemma hart_trap_spec h : erase (hart_trap h) = erase (trap_spec h).
Proof.
  destruct (hart_trap_eq h) as (h2 & H & ->).
  assert (E : vector_of h2 = vector_of (trap_save h)) by (erased vector_of H).
  rewrite E, (erase_enter _ h2 (trap_save h) H).
  apply erase_save_enter.
Qed.

Lemma sret_hart_spec h : erase (sret_hart h) = erase (sret_leave (h <| pc := sepc h |>)).
Proof.
  unfold sret_hart. cbv zeta.
  set (h0 := h <| pc := sepc h |>).
  pose proof (erase_invalidate_if (negb (Bool.eqb (s_mode h0) (sstatus_spp h0))) h0) as H.
  revert H. generalize (if negb (Bool.eqb (s_mode h0) (sstatus_spp h0)) then mmu_invalidate h0 else h0).
  intros h1 H. exact (erase_leave h1 h0 H).
Qed.

Lemma erase_spec_leave h :
  erase (sret_leave ((trap_spec h) <| pc := current_pc h |>)) = erase (resumed h).
Proof. destruct h. cbv -[u32 Z.add Z.mul Z.land MASK]. reflexivity. Qed.

(** Trap and return. Taking a trap saves cause, value, PC, mode and
    interrupt enable, masks interrupts, enters S-mode at the vector and clears
    the error; SRET after it resumes the code at the PC of the trapped
    instruction, in its mode and with its interrupt enable, and nothing
    architectural differs from before but the trap registers themselves. *)
Theorem trap_sret_roundtrip h :
  erase (hart_trap h) = erase (trap_spec h) /\
  erase (sret_hart (hart_trap h)) = erase (resumed h).
Proof.
  split; [apply hart_trap_spec|].
  rewrite sret_hart_spec. pose proof (hart_trap_spec h) as H. revert H.
  generalize (hart_trap h). intros h1 H.
  assert (E : sepc h1 = current_pc h) by (erased sepc H). rewrite E.
  rewrite (erase_leave_pc _ h1 (trap_spec h) H).
  apply erase_spec_leave.
Qed.

(** ** Ranged invalidation *)

(** Which virtual pages the caches of a hart can answer for. *)
Definition in_sets (l : list mmu_cache_set_t) (v : Z) : Prop :=
  exists st, st ∈ l /\ (n_pages (way0 st) = v \/ n_pages (way1 st) = v).
Definition in_fetch (h : hart_t) (v : Z) : Prop := exists e, e ∈ cache_fetch h /\ f_n_pages e = v.
Definition in_icache (h : hart_t) (v : Z) : Prop :=
  exists i blk, icache h !! i = Some blk /\ icache_block_valid h blk = true /\
    icache_vpn (Z.of_nat i) blk = v.

Lemma inv_way_range_pages lo hi v w : 0 <= v < 2 ^ 20 ->
  n_pages (inv_way_range lo hi w) = v <-> n_pages w = v /\ vpn_in lo hi v = false.
Proof.
  intros Hv. unfold inv_way_range. destruct (vpn_in lo hi (n_pages w)) eqn:E.
  - change (n_pages (inv_way w)) with 0xFFFFFFFF. split; [lia|]. intros [<- H]. congruence.
  - split; [intros <-; done|]. by intros [H _].
Qed.

Lemma in_sets_range lo hi l v : 0 <= v < 2 ^ 20 ->
  in_sets (inv_set_range lo hi <$> l) v <-> in_sets l v /\ vpn_in lo hi v = false.
Proof.
  intros Hv. unfold in_sets. split.
  - intros (st & Hst & H). apply list_elem_of_fmap in Hst as (st0 & -> & H0).
    change (way0 (inv_set_range lo hi st0)) with (inv_way_range lo hi (way0 st0)) in H.
    change (way1 (inv_set_range lo hi st0)) with (inv_way_range lo hi (way1 st0)) in H.
    rewrite !inv_way_range_pages in H by done.
    destruct H as [[H E]|[H E]]; (split; [exists st0; auto|done]).
  - intros [(st & Hst & H) E]. exists (inv_set_range lo hi st).
    split; [apply list_elem_of_fmap; eauto|].
    change (way0 (inv_set_range lo hi st)) with (inv_way_range lo hi (way0 st)).
    change (way1 (inv_set_range lo hi st)) with (inv_way_range lo hi (way1 st)).
    rewrite !inv_way_range_pages by done. tauto.
Qed.

Lemma in_fetch_range lo hi (l : list mmu_fetch_cache_t) v : 0 <= v < 2 ^ 20 ->
  (exists e, e ∈ inv_fetch_range lo hi <$> l /\ f_n_pages e = v) <->
  (exists e, e ∈ l /\ f_n_pages e = v) /\ vpn_in lo hi v = false.
Proof.
  intros Hv.
  assert (P : forall e, f_n_pages (inv_fetch_range lo hi e) = v <->
                        f_n_pages e = v /\ vpn_in lo hi v = false).
  { intros e. unfold inv_fetch_range. destruct (vpn_in lo hi (f_n_pages e)) eqn:E.
    - change (f_n_pages (inv_fetch e)) with 0xFFFFFFFF. split; [lia|]. intros [<- H]. congruence.
    - split; [intros <-; done|]. by intros [H _]. }
  split.
  - intros (e & He & H). apply list_elem_of_fmap in He as (e0 & -> & H0).
    apply P in H as [H E]. split; [by exists e0|done].
  - intros [(e & He & H) E]. exists (inv_fetch_range lo hi e).
    split; [apply list_elem_of_fmap; eauto|]. by apply P.
Qed.

Lemma in_icache_range h lo hi v :
  (exists i blk, imap (inv_block_range h lo hi) (icache h) !! i = Some blk /\
     icache_block_valid h blk = true /\ icache_vpn (Z.of_nat i) blk = v) <->
  in_icache h v /\ vpn_in lo hi v = false.
Proof.
  split.
  - intros (i & blk & Hl & Hv & Hp). rewrite list_lookup_imap in Hl.
    destruct (icache h !! i) as [b|] eqn:Hb; [|done]. injection Hl as <-.
    unfold inv_block_range in *. destruct (icache_block_valid h b) eqn:Vb; cbn [negb] in *.
    + destruct (vpn_in lo hi (icache_vpn (Z.of_nat i) b)) eqn:Hin.
      * unfold icache_block_valid in Hv. cbn in Hv. done.
      * rewrite Hp in Hin. split; [by exists i, b|done].
    + congruence.
  - intros [(i & blk & Hl & Hv & Hp) E]. exists i, blk. split; [|done].
    rewrite list_lookup_imap, Hl. cbn. f_equal. unfold inv_block_range.
    by rewrite Hv, Hp, E.
Qed.

(** Page [v] holds an address of [[start, start + size)]. *)
Definition page_hit (start size v : Z) : Prop := v * 4096 < start + size /\ start < (v + 1) * 4096.

Lemma range_vpn start size v : is_u32 start -> is_u32 size -> size <> 0 -> 0 <= v < 2 ^ 20 ->
  vpn_in (range_start_vpn start) (range_end_vpn start size) v = false <-> ~ page_hit start size v.
Proof.
  unfold is_u32. intros Hs Hz Hnz Hv.
  assert (E : range_end_vpn start size = Z.min (start + size - 1) 0xFFFFFFFF / 4096).
  { unfold range_end_vpn. rewrite shiftr_page. cbv zeta.
    assert (E1 : u64 (u64 (start + size) - 1) = start + size - 1).
    { unfold u64. rewrite (Z.mod_small (start + size)) by lia. apply Z.mod_small. lia. }
    rewrite E1. unfold u32. destruct (Z.ltb_spec 0xFFFFFFFF (start + size - 1)).
    - rewrite Z.min_r by lia. reflexivity.
    - rewrite Z.min_l, Z.mod_small by lia. reflexivity. }
  unfold vpn_in, range_start_vpn, page_hit. rewrite E, shiftr_page, andb_false_iff, !Z.leb_gt.
  pose proof (Z.div_mod start 4096). pose proof (Z.mod_pos_bound start 4096).
  set (m := Z.min (start + size - 1) 0xFFFFFFFF).
  pose proof (Z.div_mod m 4096). pose proof (Z.mod_pos_bound m 4096).
  assert (m = start + size - 1 \/ (m = 0xFFFFFFFF /\ m <= start + size - 1)) by (unfold m; lia).
  lia.
Qed.

Lemma last_vpn_range lo hi (x v : Z) : 0 <= v < 2 ^ 20 ->
  (if vpn_in lo hi x then 0xFFFFFFFF else x) = v <-> x = v /\ vpn_in lo hi v = false.
Proof.
  intros Hv. destruct (vpn_in lo hi x) eqn:E; [|split; [intros <-; done|by intros [H _]]].
  split; [lia|]. intros [<- H]. congruence.
Qed.

Lemma invalidate_range_fields h start size : (size =? 0) || (size =? 0xFFFFFFFF) = false ->
  let lo := range_start_vpn start in
  let hi := range_end_vpn start size in
  let h' := mmu_invalidate_range h start size in
  cache_load h' = (inv_set_range lo hi <$> cache_load h) /\
  cache_store h' = (inv_set_range lo hi <$> cache_store h) /\
  cache_fetch h' = (inv_fetch_range lo hi <$> cache_fetch h) /\
  icache h' = imap (inv_block_range h lo hi) (icache h) /\ icache_epoch h' = icache_epoch h /\
  cache_load_last_vpn h' = (if vpn_in lo hi (cache_load_last_vpn h) then 0xFFFFFFFF
                            else cache_load_last_vpn h) /\
  cache_store_last_vpn h' = (if vpn_in lo hi (cache_store_last_vpn h) then 0xFFFFFFFF
                             else cache_store_last_vpn h) /\
  erase h' = erase h.
Proof.
  intros Hz. cbv zeta. unfold mmu_invalidate_range. rewrite Hz. cbv zeta.
  generalize (range_start_vpn start), (range_end_vpn start size). intros lo hi.
  set (h1 := h <| cache_fetch := _ |> <| icache := _ |> <| cache_load := _ |> <| cache_store := _ |>).
  change (cache_load_last_vpn h1) with (cache_load_last_vpn h).
  destruct (vpn_in lo hi (cache_load_last_vpn h)).
  - set (h2 := h1 <| cache_load_last_vpn := _ |> <| cache_load_last_data_minus_addr := _ |>).
    change (cache_store_last_vpn h2) with (cache_store_last_vpn h).
    destruct (vpn_in lo hi (cache_store_last_vpn h)); split_and!; reflexivity.
  - change (cache_store_last_vpn h1) with (cache_store_last_vpn h).
    destruct (vpn_in lo hi (cache_store_last_vpn h)); split_and!; reflexivity.
Qed.

(** Remote fences drop exactly the pages asked for. For every range that is
    not the whole address space, after [mmu_invalidate_range] a virtual page is
    answered by the load TLB, the store TLB, their last-entry caches, the fetch
    TLB or the instruction cache if and only if it was before and holds no
    address of the range (computed without wrap-around at the top of memory);
    nothing architectural changes. *)
Theorem invalidate_range_exact h start size v :
  is_u32 start -> is_u32 size -> size <> 0 -> size <> 0xFFFFFFFF -> 0 <= v < 2 ^ 20 ->
  let h' := mmu_invalidate_range h start size in
  (in_sets (cache_load h') v <-> in_sets (cache_load h) v /\ ~ page_hit start size v) /\
  (in_sets (cache_store h') v <-> in_sets (cache_store h) v /\ ~ page_hit start size v) /\
  (cache_load_last_vpn h' = v <-> cache_load_last_vpn h = v /\ ~ page_hit start size v) /\
  (cache_store_last_vpn h' = v <-> cache_store_last_vpn h = v /\ ~ page_hit start size v) /\
  (in_fetch h' v <-> in_fetch h v /\ ~ page_hit start size v) /\
  (in_icache h' v <-> in_icache h v /\ ~ page_hit start size v) /\
  erase h' = erase h.
Proof.
  intros Hs Hz Hz0 Hz1 Hv. cbv zeta.
  assert (E : (size =? 0) || (size =? 0xFFFFFFFF) = false) by lia.
  destruct (invalidate_range_fields h start size E) as (H1 & H2 & H3 & H4 & H5 & H6 & H7 & H8).
  revert H1 H2 H3 H4 H5 H6 H7 H8. generalize (mmu_invalidate_range h start size). intros h'.
  intros H1 H2 H3 H4 H5 H6 H7 H8.
  rewrite <- !(range_vpn start size v) by done. unfold in_fetch.
  rewrite H1, H2, H3, H6, H7, H8. split_and!; [by apply in_sets_range..| | | | |done].
  - by apply last_vpn_range.
  - by apply last_vpn_range.
  - by apply in_fetch_range.
  - rewrite <- in_icache_range. unfold in_icache, icache_block_valid. by rewrite H4, H5.
Qed.

Lemma invalidate_range_exact_witness :
  in_sets (cache_load zero_hart) 0 /\ ~ in_sets (cache_load (mmu_invalidate_range zero_hart 0xFFF 2)) 0.
Proof.
  split; [exists (mk_set (mk_way 0 0 0) (mk_way 0 0 0) 0); split; [left|by left]|].
  rewrite (proj1 (invalidate_range_exact zero_hart 0xFFF 2 0 ltac:(split; lia) ltac:(split; lia)
    ltac:(lia) ltac:(lia) ltac:(lia))).
  unfold page_hit. lia.
Defined.
