(* ===== verification/CsrProps.v ===== *)
(** * Properties of the control and status registers

    What a write leaves to be read back, and which accesses user mode is
    refused. *)

From stdpp Require Import base gmap list.
From Stdlib Require Import ZArith Lia Bool.
From S2P Require Import Prelude Bits Isa Hart Machine Mmu Csr Exec Arch RamProps Tlb TlbStore.
From S2P Require Import HartProps.
Open Scope Z_scope.

Lemma testbit_pow n m : 0 <= n -> 0 <= m -> Z.testbit (Z.shiftl 1 n) m = (n =? m).
Proof.
  intros Hn Hm. rewrite Z.shiftl_spec by lia. destruct (Z.eqb_spec n m) as [->|Hne].
  - by rewrite Z.sub_diag.
  - destruct (Z.ltb_spec m n); [by rewrite Z.testbit_neg_r by lia|].
    apply (Z.bits_above_log2 1); cbn; lia.
Qed.

Lemma bit_set_testbit v n : 0 <= n -> bit_set v n = Z.testbit v n.
Proof.
  intros Hn. unfold bit_set, nz. destruct (Z.eqb_spec (Z.land v (Z.shiftl 1 n)) 0) as [E|E]; cbn.
  - pose proof (Z.land_spec v (Z.shiftl 1 n) n) as H. rewrite E, Z.bits_0, testbit_pow, Z.eqb_refl in H by lia.
    by rewrite andb_true_r in H.
  - destruct (Z.testbit v n) eqn:Ev; [done|]. destruct E. apply Z.bits_inj'. intros m Hm.
    rewrite Z.land_spec, testbit_pow, Z.bits_0 by lia. destruct (Z.eqb_spec n m) as [<-|]; [|apply andb_false_r].
    by rewrite Ev.
Qed.

Lemma testbit_or_bit c n x m : 0 <= n -> 0 <= m ->
  Z.testbit (or_bit c n x) m = (c && (n =? m)) || Z.testbit x m.
Proof.
  intros Hn Hm. unfold or_bit. destruct c; [|done]. rewrite Z.lor_spec, testbit_pow by done. apply orb_comm.
Qed.

(** The writable bits of sstatus: SIE, SPIE, SPP, SUM, MXR. *)
Definition SSTATUS_MASK : Z :=
  Z.lor (Z.shiftl 1 1) (Z.lor (Z.shiftl 1 5) (Z.lor (Z.shiftl 1 8) (Z.lor (Z.shiftl 1 18) (Z.shiftl 1 19)))).

Lemma sstatus_bits v :
  or_bit (bit_set v 19) 19 (or_bit (bit_set v 18) 18 (or_bit (bit_set v 8) 8
    (or_bit (bit_set v 5) 5 (or_bit (bit_set v 1) 1 0)))) = Z.land v SSTATUS_MASK.
Proof.
  apply Z.bits_inj'. intros m Hm. rewrite !testbit_or_bit, Z.bits_0, !bit_set_testbit by lia.
  unfold SSTATUS_MASK. rewrite Z.land_spec, !Z.lor_spec, !testbit_pow by lia.
  destruct (Z.eqb_spec 1 m) as [<-|]; [cbn; by rewrite ?andb_false_r, ?andb_true_r, ?orb_false_r|].
  destruct (Z.eqb_spec 5 m) as [<-|]; [cbn; by rewrite ?andb_false_r, ?andb_true_r, ?orb_false_r|].
  destruct (Z.eqb_spec 8 m) as [<-|]; [cbn; by rewrite ?andb_false_r, ?andb_true_r, ?orb_false_r|].
  destruct (Z.eqb_spec 18 m) as [<-|]; [cbn; by rewrite ?andb_false_r, ?andb_true_r, ?orb_false_r|].
  destruct (Z.eqb_spec 19 m) as [<-|]; [cbn; by rewrite ?andb_false_r, ?andb_true_r, ?orb_false_r|].
  cbn. by rewrite !andb_false_r.
Qed.

Lemma stvec_bits v : is_u32 v -> or_bit (bit_set v 0) 0 (Z.land v (not32 3)) = Z.land v (not32 2).
Proof.
  intros Hv. rewrite bit_set_testbit by lia. unfold or_bit. destruct (Z.testbit v 0) eqn:E0.
  - change (Z.shiftl 1 0) with 1. apply Z.bits_inj'. intros m Hm.
    rewrite Z.lor_spec, !Z.land_spec. change 1 with (Z.shiftl 1 0). rewrite testbit_pow by lia.
    destruct (Z.eqb_spec 0 m) as [<-|]; [by rewrite E0, orb_true_r|]. rewrite orb_false_r.
    destruct (Z.testbit v m) eqn:Em; [|done]. cbn [andb]. unfold not32. rewrite !testbit_u32 by lia.
    rewrite !Z.lnot_spec by lia. f_equal. f_equal. change 3 with (Z.lor (Z.shiftl 1 1) (Z.shiftl 1 0)).
    change 2 with (Z.shiftl 1 1). rewrite Z.lor_spec, !testbit_pow by lia.
    destruct (Z.eqb_spec 0 m); [lia|]. by rewrite orb_false_r.
  - apply Z.bits_inj'. intros m Hm. rewrite !Z.land_spec. unfold not32.
    destruct (Z.eqb_spec 0 m) as [<-|]; [by rewrite E0|]. rewrite !testbit_u32 by lia.
    rewrite !Z.lnot_spec by lia. f_equal. f_equal. f_equal. change 3 with (Z.lor (Z.shiftl 1 1) (Z.shiftl 1 0)).
    change 2 with (Z.shiftl 1 1). rewrite Z.lor_spec, !testbit_pow by lia.
    destruct (Z.eqb_spec 0 m); [lia|]. by rewrite orb_false_r.
Qed.

Definition s_csrs : list Z :=
  [RV_CSR_SSTATUS; RV_CSR_SIE; RV_CSR_SIP; RV_CSR_STVEC; RV_CSR_SATP; RV_CSR_SCOUNTEREN;
   RV_CSR_SSCRATCH; RV_CSR_SEPC; RV_CSR_SCAUSE; RV_CSR_STVAL].

(** The legal value a CSR holds after writing [v] to it. *)
Definition warl (a v : Z) (h : hart_t) : Z :=
  if a =? RV_CSR_SSTATUS then Z.land v SSTATUS_MASK
  else if a =? RV_CSR_SIE then Z.land v SIE_MASK
  else if a =? RV_CSR_SIP then Z.lor (Z.land v SIP_MASK) (Z.land (sip h) (not32 SIP_MASK))
  else if a =? RV_CSR_STVEC then Z.land v (not32 2)
  else if a =? RV_CSR_SATP then
    if nz (Z.shiftr v 31) then
      match ram_page (Z.land v (MASK 22)) with
      | Some _ => Z.land v (not32 (shl32 (MASK 9) 22))
      | None => satp h
      end
    else 0
  else v.

Definition put_sstatus (v : Z) (h : hart_t) : hart_t :=
  h <| sstatus_sie := bit_set v 1 |> <| sstatus_spie := bit_set v 5 |>
    <| sstatus_spp := bit_set v 8 |> <| sstatus_sum := bit_set v 18 |> <| sstatus_mxr := bit_set v 19 |>.

Lemma erase_write_sstatus v h : erase (write_sstatus v h) = erase (put_sstatus v h).
Proof.
  unfold write_sstatus. cbv zeta. change (_ <| sstatus_mxr := _ |>) with (put_sstatus v h).
  apply erase_invalidate_if.
Qed.

Section Csr.
Context {D : Type} `{BusD : Bus D} {Laws : BusLaws D}.
Implicit Types s : machine D.

Lemma read_erase h h' a : erase h = erase h' -> csr_read_s h a = csr_read_s h' a.
Proof. apply (erase_proj (fun h => csr_read_s h a)). reflexivity. Qed.

Definition set_root (p : option Z) (sp : Z) (h : hart_t) : hart_t := h <| page_table := p |> <| satp := sp |>.

Lemma erase_set_root p sp h h' : erase h = erase h' -> erase (set_root p sp h) = erase (set_root p sp h').
Proof. apply (erase_natural (set_root p sp)). reflexivity. Qed.

Lemma mmu_set_satp v s : is_u32 v ->
  csr_read_s (hart (mmu_set v s)) RV_CSR_SATP = Some (warl RV_CSR_SATP v (hart s)) /\
  error (hart (mmu_set v s)) = error (hart s).
Proof.
  intros Hv. unfold mmu_set, warl. cbv zeta. cbn [Z.eqb Pos.eqb RV_CSR_SATP RV_CSR_SSTATUS RV_CSR_SIE RV_CSR_SIP RV_CSR_STVEC].
  pose proof (erase_invalidate (hart s)) as Hi. set (s1 := on_hart mmu_invalidate s).
  assert (H1 : erase (hart s1) = erase (hart s)) by (unfold s1; by rewrite hart_on_hart).
  clear Hi. revert H1. generalize s1. clear s1. intros s1 H1.
  destruct (nz (Z.shiftr v 31)).
  - rewrite bus_page_table by (apply Z.land_nonneg; left; apply Hv).
    destruct (ram_page (Z.land v (MASK 22))) as [p|].
    + change (hart (on_hart ?f s1)) with (f (hart s1)). split; [reflexivity|]. erased error H1.
    + split; [|erased error H1]. rewrite (read_erase _ _ _ H1). reflexivity.
  - change (hart (on_hart ?f s1)) with (f (hart s1)). split; [reflexivity|]. erased error H1.
Qed.

(** CSR writes read back as their legal value. In S-mode, writing any 32-bit
    value to any of the ten supervisor CSRs raises nothing and a subsequent read
    returns exactly its legalised value: the implemented bits of sstatus, sie and
    stvec, the software-interrupt bit of sip with the other pending bits kept,
    satp with its ASID cleared (or unchanged when the root page is outside RAM),
    and the value itself for the others. *)
Theorem csr_write_read_back a v s : a ∈ s_csrs -> is_u32 v -> s_mode (hart s) = true ->
  csr_read_s (hart (csr_write a v s)) a = Some (warl a v (hart s)) /\
  error (hart (csr_write a v s)) = error (hart s).
Proof.
  intros Ha Hv Hs. unfold csr_write. rewrite Hs. cbn [negb]. unfold s_csrs in Ha.
  rewrite !elem_of_cons, elem_of_nil in Ha.
  destruct Ha as [-> | [-> | [-> | [-> | [-> | [-> | [-> | [-> | [-> | [-> | []]]]]]]]]]].
  - rewrite Z.eqb_refl, hart_on_hart.
    pose proof (erase_write_sstatus v (hart s)) as H. split; [|erased error H].
    rewrite (read_erase _ _ _ H). unfold csr_read_s. cbv zeta. cbn [Z.eqb Pos.eqb RV_CSR_SSTATUS].
    f_equal. change (warl RV_CSR_SSTATUS v (hart s)) with (Z.land v SSTATUS_MASK). rewrite <- sstatus_bits. reflexivity.
  - split; reflexivity.
  - split; reflexivity.
  - split; [|reflexivity]. change (warl RV_CSR_STVEC v (hart s)) with (Z.land v (not32 2)). rewrite <- stvec_bits by done. reflexivity.
  - apply (mmu_set_satp v s Hv).
  - split; reflexivity.
  - split; reflexivity.
  - split; reflexivity.
  - split; reflexivity.
  - split; reflexivity.
Qed.

(** User mode cannot touch supervisor CSRs. In U-mode every CSR instruction
    (read/write, set, clear, register or immediate form) that names anything but
    the four user counters raises an illegal-instruction exception and does
    nothing else, in particular it does not write the destination register. *)
Theorem user_csr_denied d s : s_mode (hart s) = false -> merr s = false ->
  decoded_funct3 d ∈ [1; 2; 3; 5; 6; 7] ->
  u16 (imm d) ∉ [RV_CSR_TIME; RV_CSR_TIMEH; RV_CSR_INSTRET; RV_CSR_INSTRETH] ->
  op_system d s = raise RV_EXC_ILLEGAL_INSN 0 s.
Proof.
  intros Hu He Hf Hc. rewrite !not_elem_of_cons in Hc. destruct Hc as (H1 & H2 & H3 & H4 & _).
  assert (R : csr_read (u16 (imm d)) s = (None, raise RV_EXC_ILLEGAL_INSN 0 s)).
  { unfold csr_read. rewrite Hu.
    repeat match goal with |- context [if ?x =? ?y then _ else _] => destruct (Z.eqb_spec x y); [done|] end.
    reflexivity. }
  assert (W : forall v, csr_write (u16 (imm d)) v s = raise RV_EXC_ILLEGAL_INSN 0 s).
  { intros v. unfold csr_write. by rewrite Hu. }
  assert (RW : forall rd v, op_csr_rw rd (u16 (imm d)) v s = raise RV_EXC_ILLEGAL_INSN 0 s).
  { intros rd v. unfold op_csr_rw. rewrite R, W. by destruct (nz rd). }
  assert (CS : forall rd rs1 a b, op_csr_cs rd rs1 (u16 (imm d)) a b s = raise RV_EXC_ILLEGAL_INSN 0 s).
  { intros. unfold op_csr_cs. by rewrite R. }
  unfold op_system. cbv zeta. rewrite !elem_of_cons, elem_of_nil in Hf.
  destruct Hf as [-> | [-> | [-> | [-> | [-> | [-> | []]]]]]]; first [apply RW|apply CS].
Qed.

(** In U-mode the previous-privilege bit is clear. *)
Definition mode_ok (h : hart_t) : Prop := s_mode h = false -> sstatus_spp h = false.

Lemma mode_ok_erase h h' : erase h = erase h' -> mode_ok h' -> mode_ok h.
Proof.
  intros H. unfold mode_ok.
  assert (E1 : s_mode h = s_mode h') by (erased s_mode H).
  assert (E2 : sstatus_spp h = sstatus_spp h') by (erased sstatus_spp H).
  by rewrite E1, E2.
Qed.

Lemma op_sret_hart s : hart (op_sret s) = sret_hart (hart s).
Proof.
  rewrite <- (hart_on_hart sret_hart s). unfold op_sret. cbv zeta. generalize (on_hart sret_hart s).
  intros s1. destruct (_ && _); reflexivity.
Qed.

Lemma csr_write_mode a v s : s_mode (hart (csr_write a v s)) = s_mode (hart s).
Proof.
  unfold csr_write. destruct (negb (s_mode (hart s))); [done|].
  destruct (a =? RV_CSR_SSTATUS).
  { rewrite hart_on_hart. pose proof (erase_write_sstatus v (hart s)) as H. erased s_mode H. }
  destruct (a =? RV_CSR_SIE); [done|]. destruct (a =? RV_CSR_SIP); [done|].
  destruct (a =? RV_CSR_STVEC); [done|]. destruct (a =? RV_CSR_SATP).
  { unfold mmu_set. cbv zeta. pose proof (erase_invalidate (hart s)) as H. rewrite <- hart_on_hart in H.
    revert H. generalize (on_hart mmu_invalidate s). intros s1 H.
    assert (Hm : s_mode (hart s1) = s_mode (hart s)) by (erased s_mode H).
    repeat case_match; exact Hm. }
  repeat (case_match; [done|]). done.
Qed.

(** User code stays contained. That the previous-privilege bit is clear in
    U-mode is an invariant of trap entry, SRET and every CSR write; under it SRET,
    which the interpreter executes in U-mode instead of raising an
    illegal-instruction exception, does not leave U-mode: it jumps to the address
    in sepc. *)
Theorem user_mode_contained s : mode_ok (hart s) ->
  mode_ok (hart_trap (hart s)) /\ mode_ok (hart (op_sret s)) /\
  (forall a v, mode_ok (hart (csr_write a v s))) /\
  (s_mode (hart s) = false ->
     s_mode (hart (op_privileged 0x10200073 s)) = false /\
     pc (hart (op_privileged 0x10200073 s)) = sepc (hart s) /\
     error (hart (op_privileged 0x10200073 s)) = error (hart s)).
Proof.
  intros Hok. pose proof (op_sret_hart s) as Hs.
  pose proof (sret_hart_spec (hart s)) as H. rewrite <- Hs in H.
  split; [|split; [|split]].
  - eapply mode_ok_erase; [apply hart_trap_spec|]. by intros ?.
  - eapply mode_ok_erase; [exact H|]. by intros _.
  - intros a v Hm. rewrite csr_write_mode in Hm. pose proof (Hok Hm) as Hp.
    unfold csr_write. rewrite Hm. exact Hp.
  - intros Hm. change (op_privileged 0x10200073 s) with (op_sret s). rewrite <- (Hok Hm).
    split; [erased s_mode H|]. split; [erased pc H|erased error H].
Qed.
End Csr.
