(* ===== verification/ExecProps.v ===== *)
(** * Properties of instruction execution

    The threaded dispatcher agrees with the portable interpreter, retires
    exactly its quota unless an exception is raised, and the privilege checks
    of the system instructions. *)

From stdpp Require Import base gmap list.
From Stdlib Require Import ZArith Lia Bool.
From S2P Require Import Prelude Bits Isa IsaProps Hart Machine Mmu Csr Exec Arch RamProps Tlb.
From S2P Require Import TlbStore HartProps.
Open Scope Z_scope.

Section Dispatch.
Context {D : Type} `{BusD : Bus D}.
Implicit Types s : machine D.

(** The two interpreters differ on this instruction: [vm_execute_insn] does not
    flush the instruction cache. *)
Definition is_fence_i (insn : Z) : bool :=
  (Z.land insn (MASK 7) =? RV32_MISC_MEM) && (decode_func3 insn =? 1).

Lemma merr_set_reg rd v s : merr (set_reg rd v s) = merr s.
Proof. unfold merr, err, set_reg, on_hart, set_dest_idx. cbn. by destruct (nz rd). Qed.

Lemma merr_set_pc a s : merr (set_pc_to a s) = merr s.
Proof. done. Qed.

Lemma merr_raise c v s : merr (raise c v s) = true.
Proof. done. Qed.

Lemma decode_func3_range insn : 0 <= decode_func3 insn < 8.
Proof.
  unfold decode_func3. change FR_FUNCT3 with 0x7000.
  assert (H : 0 <= Z.shiftr (Z.land insn 0x7000) 12 < 2 ^ 3).
  { rewrite Z.shiftr_land. change (Z.shiftr 0x7000 12) with (Z.ones 3).
    rewrite Z.land_ones by lia. apply Z.mod_pos_bound. reflexivity. }
  unfold u8. rewrite Z.mod_small; lia.
Qed.

Lemma sub_as_add a b : u32 (a + u32 (- b)) = u32 (a - b).
Proof. unfold u32. rewrite Z.add_mod_idemp_r by lia. done. Qed.

Lemma func3_cases (P : Z -> Prop) insn :
  P 0 -> P 1 -> P 2 -> P 3 -> P 4 -> P 5 -> P 6 -> P 7 -> P (decode_func3 insn).
Proof.
  intros. pose proof (decode_func3_range insn).
  assert (E : decode_func3 insn = 0 \/ decode_func3 insn = 1 \/ decode_func3 insn = 2 \/
    decode_func3 insn = 3 \/ decode_func3 insn = 4 \/ decode_func3 insn = 5 \/
    decode_func3 insn = 6 \/ decode_func3 insn = 7) by lia.
  by destruct E as [-> | [-> | [-> | [-> | [-> | [-> | [-> | ->]]]]]]].
Qed.

(** The specialised arithmetic handlers compute [op_rv32i]. *)
Lemma L_op_imm_eq insn s :
  L_op_imm insn s = (Next, set_reg (decode_rd insn)
    (op_rv32i (decode_func3 insn) (nz (Z.land insn (Z.shiftl 1 30))) false
       (xreg s (decode_rs1 insn)) (decode_i insn)) s).
Proof.
  unfold L_op_imm, op_rv32i. cbv zeta. cbn [andb]. pattern (decode_func3 insn). by apply func3_cases.
Qed.

Lemma L_op_eq insn s :
  L_op insn s = (Next, if nz (Z.land insn (Z.shiftl 1 25))
    then set_reg (decode_rd insn) (op_mul (decode_func3 insn) (xreg s (decode_rs1 insn))
           (xreg s (decode_rs2 insn))) s
    else set_reg (decode_rd insn)
    (op_rv32i (decode_func3 insn) (nz (Z.land insn (Z.shiftl 1 30))) true
       (xreg s (decode_rs1 insn)) (xreg s (decode_rs2 insn))) s).
Proof.
  unfold L_op, op_rv32i. cbv zeta. case_match; [done|]. cbn [andb].
  set (neg := nz (Z.land insn (Z.shiftl 1 30))).
  set (a := xreg s (decode_rs1 insn)). set (b := xreg s (decode_rs2 insn)).
  destruct neg; rewrite ?sub_as_add; pattern (decode_func3 insn); by apply func3_cases.
Qed.

Definition ends_ok (r : outcome * machine D) : Prop := fst r = Error <-> merr (snd r) = true.

Lemma jump_chain_eq rd a s : merr s = false ->
  snd (jump_chain rd a s) = op_jump_link rd a s /\ ends_ok (jump_chain rd a s).
Proof.
  intros Hs. unfold jump_chain, op_jump_link, ends_ok. cbv zeta.
  destruct (nz (Z.land a 3)); [done|]. cbn [fst snd]. split.
  - f_equal. unfold set_reg, set_dest_idx. destruct (Z.eqb_spec rd 1) as [->|]; [done|].
    by destruct (nz rd).
  - rewrite merr_set_pc. split; [done|]. unfold merr, err, on_hart in *. cbn.
    destruct (rd =? 1), (nz rd); cbn; congruence.
Qed.

Lemma L_branch_eq insn s : merr s = false ->
  snd (L_branch insn s) =
    (let '(taken, s) := op_jmp (decode_func3 insn) (xreg s (decode_rs1 insn)) (xreg s (decode_rs2 insn)) s in
     if taken then do_jump (u32 (decode_b insn + current_pc (hart s))) s else s) /\
  ends_ok (L_branch insn s).
Proof.
  intros Hs. unfold L_branch, op_jmp, ends_ok.
  destruct (branch_taken _ _ _) as [[|]|]; [| |done].
  - cbv zeta. destruct (merr (do_jump _ s)) eqn:E; cbn [fst snd]; rewrite E; done.
  - cbn [fst snd]. by rewrite Hs.
Qed.

Lemma merr_fence_i s : merr (on_hart vm_fence_i s) = merr s.
Proof.
  unfold merr, err, vm_fence_i, icache_invalidate_all, on_hart. cbv zeta.
  by destruct (icache_epoch _ =? 0).
Qed.

Lemma dispatch_interpreter insn s : merr s = false ->
  (fst (dispatch insn s) = Error <-> merr (snd (dispatch insn s)) = true) /\
  (if is_fence_i insn
   then snd (dispatch insn s) = on_hart vm_fence_i s /\ snd (vm_execute_insn insn s) = s
   else snd (dispatch insn s) = snd (vm_execute_insn insn s)).
Proof.
  intros Hs. unfold dispatch, vm_execute_insn, is_fence_i, L_lui, L_auipc, L_jal, L_jalr. cbv zeta.
  destruct (Z.eqb_spec (Z.land insn (MASK 7)) RV32_MISC_MEM) as [Em|Em].
  { rewrite Em. cbn -[decode_func3]. unfold L_misc_mem. pattern (decode_func3 insn).
    apply func3_cases; cbn; rewrite ?Hs; try done.
    by rewrite merr_fence_i, Hs. }
  cbn [andb].
  destruct (_ =? RV32_OP_IMM); [rewrite L_op_imm_eq; cbn [fst snd]; by rewrite merr_set_reg, Hs|].
  destruct (_ =? RV32_OP).
  { rewrite L_op_eq. cbn [fst snd].
    destruct (nz (Z.land insn (Z.shiftl 1 25))); cbn [negb]; by rewrite merr_set_reg, Hs. }
  destruct (_ =? RV32_LUI); [cbn [fst snd]; by rewrite merr_set_reg, Hs|].
  destruct (_ =? RV32_AUIPC); [cbn [fst snd]; by rewrite merr_set_reg, Hs|].
  destruct (_ =? RV32_JAL); [apply and_comm, jump_chain_eq, Hs|].
  destruct (_ =? RV32_JALR); [apply and_comm, jump_chain_eq, Hs|].
  destruct (_ =? RV32_BRANCH).
  { destruct (L_branch_eq insn s Hs) as [H1 H2]. split; [exact H2|]. rewrite H1.
    by destruct (op_jmp _ _ _ s) as [[|] s']. }
  destruct (_ =? RV32_LOAD).
  { unfold L_load. destruct (mmu_load _ _ _ s) as [v s'].
    destruct (merr s') eqn:E; cbn [fst snd]; rewrite ?merr_set_reg, E; done. }
  destruct (_ =? RV32_STORE).
  { unfold L_store. destruct (mmu_store _ _ _ _ s) as [v s'].
    destruct (merr s') eqn:E; cbn [fst snd]; rewrite E; done. }
  destruct (_ =? RV32_AMO).
  { unfold L_amo. cbv zeta. destruct (merr (op_amo _ s)) eqn:E'; cbn [fst snd]; rewrite E'; done. }
  destruct (_ =? RV32_SYSTEM); [|done].
  unfold L_system. cbv zeta. destruct (merr (op_system _ s)) eqn:E'; cbn [fst snd]; rewrite E'; done.
Qed.

(** C5: The threaded dispatcher executes what the portable interpreter executes.
    For every instruction word but FENCE.I and every machine without a pending
    error, the handler reached through the dispatch table leaves the same machine
    as [vm_execute_insn] and goes to the error exit exactly when an exception was
    raised. On FENCE.I the dispatcher also flushes the instruction cache; the
    interpreter leaves the machine as it is. *)
Theorem dispatch_refines_interpreter insn s : merr s = false ->
  (fst (dispatch insn s) = Error <-> merr (snd (dispatch insn s)) = true) /\
  (if is_fence_i insn
   then snd (dispatch insn s) = on_hart vm_fence_i s /\ snd (vm_execute_insn insn s) = s
   else snd (dispatch insn s) = snd (vm_execute_insn insn s)).
Proof. apply dispatch_interpreter. Qed.
End Dispatch.

Section Quota.
Context {D : Type} `{BusD : Bus D}.
Implicit Types s : machine D.

Lemma merr_trap f s : merr (on_hart (fun h => hart_trap (f h)) s) = false.
Proof.
  unfold merr, err. change (hart (on_hart _ s)) with (hart_trap (f (hart s))).
  pose proof (hart_trap_spec (f (hart s))) as H. revert H. generalize (hart_trap (f (hart s))).
  intros h H. assert (E : error h = ERR_NONE) by (erased error H). by rewrite E.
Qed.

Lemma merr_pending s : merr s = false -> merr (vm_handle_pending_interrupt s) = false.
Proof.
  intros Hs. unfold vm_handle_pending_interrupt. cbv zeta. destruct (_ && _); [|done].
  destruct (_ =? 1); apply merr_trap.
Qed.

Lemma merr_check sp s : merr s = false -> merr (snd (check_interrupt sp s)) = false.
Proof.
  intros Hs. unfold check_interrupt. cbv zeta.
  pose proof (merr_pending (mark_pc s) Hs) as H. by destruct (negb _).
Qed.

Lemma merr_deref p o s : merr (snd (deref32 p o s)) = merr s.
Proof. unfold deref32, touch. by repeat case_match. Qed.

Lemma merr_fetch_seq p s : merr (snd (fetch_seq p s)) = merr s.
Proof.
  unfold fetch_seq. pose proof (merr_deref (Some p) 0 s) as H.
  by destruct (deref32 (Some p) 0 s) as [v s'].
Qed.

Lemma slow_fetch_err sp s : merr s = false ->
  match fst (slow_fetch sp s) with
  | Some _ => merr (snd (slow_fetch sp s)) = false
  | None => merr (snd (slow_fetch sp s)) = true
  end.
Proof.
  intros Hs. unfold slow_fetch. pose proof (merr_check sp s Hs) as Hc.
  destruct (check_interrupt sp s) as [[p|] s1]; cbn [snd] in Hc.
  - pose proof (merr_fetch_seq p s1) as H. destruct (fetch_seq p s1) as [[i q] s2].
    cbn [fst snd] in *. congruence.
  - destruct (mmu_fetch (pc (hart s1)) s1) as [v s2]. by destruct (merr s2) eqn:E.
Qed.

Lemma chain_fetch_err sp s : merr s = false -> merr (snd (chain_fetch sp s)) = false.
Proof.
  intros Hs. unfold chain_fetch. pose proof (merr_check sp s Hs) as Hc.
  destruct (check_interrupt sp s) as [q s1]; cbn [snd] in Hc. cbv zeta.
  destruct (icache_block_valid _ _ && _); [|done].
  pose proof (merr_deref (base (block_at (hart s1) (icache_index (pc (hart s1)))))
    (Z.land (pc (hart s1)) ICACHE_BLOCK_MASK) s1) as H.
  destruct (deref32 _ _ s1) as [v s2]. cbn [snd] in *. rewrite <- H in Hc. done.
Qed.

Lemma run_loop_quota left : forall c s, merr s = false ->
  let '(n, s') := run_loop left c s in
  (n <= left)%nat /\ (merr s' = false -> n = left).
Proof.
  induction left as [|left IH]; intros c s Hs; [done|]. cbn [run_loop].
  set (r := match c with AtDispatch _ _ => _ | _ => _ end).
  assert (Hr : match fst r with Some _ => merr (snd r) = false | None => merr (snd r) = true end).
  { unfold r. destruct c; [done|by apply slow_fetch_err]. }
  destruct r as [[[insn sp]|] s1]; cbn [fst snd] in Hr; [|split; [lia|congruence]].
  destruct (dispatch_interpreter insn s1 Hr) as [Ho _].
  destruct (dispatch insn s1) as [o s2]. cbn [fst snd] in Ho.
  assert (Hok : o <> Error -> merr (retire s2) = false).
  { intros Hn. change (merr (retire s2)) with (merr s2). destruct (merr s2); [tauto|done]. }
  assert (Go : forall c s, merr s = false ->
    let '(n, s') := (let '(n, s') := run_loop left c s in (S n, s')) in
    (n <= S left)%nat /\ (merr s' = false -> n = S left)).
  { intros c' s' H. specialize (IH c' s' H). destruct (run_loop left c' s') as [n s3].
    destruct IH as [H1 H2]. split; [lia|]. intros H3. by rewrite H2. }
  destruct o.
  - destruct left as [|left']; [split; [lia|done]|]. destruct sp as [p|].
    + pose proof (merr_fetch_seq p (mark_pc (retire s2))) as H.
      destruct (fetch_seq p _) as [[i q] s3]. apply Go. cbn [snd] in H. rewrite H. by apply Hok.
    + apply Go. by apply Hok.
  - destruct left as [|left']; [split; [lia|done]|].
    pose proof (chain_fetch_err sp (retire s2) (Hok ltac:(done))) as H.
    destruct (chain_fetch sp (retire s2)) as [[[i q]|] s3]; by apply Go.
  - apply Go. by apply Hok.
  - split; [lia|]. intros H. destruct Ho as [Ho _]. rewrite Ho in H by done. done.
Qed.

(** The bound alone, for the loop around it. *)
Lemma run_quota steps s : 0 <= steps -> 0 <= fst (vm_step_many steps s) <= steps.
Proof.
  intros Hn. unfold vm_step_many. destruct (negb _ || merr s) eqn:Hc; [cbn; lia|].
  apply orb_false_elim in Hc as [_ Hs].
  pose proof (run_loop_quota (Z.to_nat steps) (AtSlowPath None) s Hs) as H.
  destruct (run_loop _ _ s) as [n s']. cbn [fst]. lia.
Qed.

Lemma portable_fetch_err sp s : merr s = false ->
  match fst (portable_fetch sp s) with
  | Some _ => merr (snd (portable_fetch sp s)) = false
  | None => merr (snd (portable_fetch sp s)) = true
  end.
Proof.
  intros Hs. unfold portable_fetch. cbv zeta.
  pose proof (merr_pending (mark_pc s) Hs) as Hp.
  set (s1 := vm_handle_pending_interrupt (mark_pc s)) in *. clearbody s1.
  assert (H1 : merr (mark_pc s1) = false) by exact Hp.
  destruct (if negb _ then None else sp) as [p|].
  - pose proof (merr_deref (Some p) 0 (mark_pc s1)) as H. destruct (deref32 (Some p) 0 _) as [v s2].
    cbn [fst snd] in *. congruence.
  - destruct (mmu_fetch _ (mark_pc s1)) as [v s2]. by destruct (merr s2) eqn:E2.
Qed.

Lemma portable_quota left : forall sp s, merr s = false ->
  let '(n, s') := portable_loop left sp s in
  (n <= left)%nat /\ (merr s' = false -> n = left).
Proof.
  induction left as [|left IH]; intros sp s Hs; [done|]. cbn [portable_loop].
  pose proof (portable_fetch_err sp s Hs) as Hf.
  destruct (portable_fetch sp s) as [[[insn q]|] s1]; cbn [fst snd] in Hf; [|split; [lia|congruence]].
  destruct (vm_execute_insn insn (pc_plus_4 s1)) as [keep s2].
  destruct (merr s2) eqn:E2; [split; [lia|congruence]|]. cbv zeta.
  match goal with |- context [portable_loop left ?sp' ?s'] =>
    specialize (IH sp' s' E2); destruct (portable_loop left sp' s') as [n s3] end.
  destruct IH as [H1 H2]. split; [lia|]. intros H3. by rewrite H2.
Qed.

(** What a stepping function with an instruction quota promises. *)
Definition keeps_quota (step : Z -> machine D -> Z * machine D) : Prop :=
  forall steps s, 0 <= steps ->
  let '(n, s') := step steps s in
  0 <= n <= steps /\
  (hsm_status (hart s) = SBI_HSM_STATE_STARTED -> merr s = false -> merr s' = false -> n = steps) /\
  (hsm_status (hart s) <> SBI_HSM_STATE_STARTED \/ merr s = true -> n = 0 /\ s' = s).

Lemma quota_of (loop : nat -> machine D -> nat * machine D) :
  (forall left s, merr s = false ->
     let '(n, s') := loop left s in (n <= left)%nat /\ (merr s' = false -> n = left)) ->
  keeps_quota (fun steps s =>
    if negb (hsm_status (hart s) =? SBI_HSM_STATE_STARTED) || merr s then (0, s)
    else let '(n, s) := loop (Z.to_nat steps) s in (Z.of_nat n, s)).
Proof.
  intros Hl steps s Hn.
  destruct (Z.eqb_spec (hsm_status (hart s)) SBI_HSM_STATE_STARTED) as [E|E]; cbn [negb orb].
  2:{ split_and!; try done; lia. }
  destruct (merr s) eqn:Hs; [split_and!; try done; lia|].
  specialize (Hl (Z.to_nat steps) s Hs). destruct (loop _ s) as [n s']. destruct Hl as [H1 H2].
  split; [lia|]. split; [|by intros [?|?]]. intros _ _ H3. specialize (H2 H3). lia.
Qed.

(** C9: The instruction quota. Both forms of [vm_step_many], the threaded
    dispatcher and the switch-based loop, are total; they attempt at most [steps]
    instructions, and exactly [steps] unless an exception stopped them; a hart
    that is not started or has a pending error is left untouched. *)
Theorem vm_step_many_quota : keeps_quota vm_step_many /\ keeps_quota vm_step_many_portable.
Proof.
  split.
  - exact (quota_of (fun left s => run_loop left (AtSlowPath None) s)
             (fun left s Hs => run_loop_quota left (AtSlowPath None) s Hs)).
  - exact (quota_of (fun left s => portable_loop left None s)
             (fun left s Hs => portable_quota left None s Hs)).
Qed.
End Quota.
