(* ===== verification/Loops.v ===== *)
(** * Loops over the harts

    [for (i = 0; i < vm->n_hart; i++) vm->hart[i]...]: what such a loop does to
    each hart and what it leaves alone. *)

From stdpp Require Import base gmap list.
From Stdlib Require Import ZArith Lia Bool.
From S2P Require Import Prelude Isa Hart Machine.
Open Scope Z_scope.

Section Loops.
Context {D : Type}.
Implicit Types s : machine D.

(** The parts of a machine that are not harts. *)
Definition same_env s s' : Prop :=
  ram s' = ram s /\ ram_ptr s' = ram_ptr s /\ ram_oob s' = ram_oob s /\
  boot_complete s' = boot_complete s /\ stack_junk s' = stack_junk s /\ dev s' = dev s /\
  length (peers s') = length (peers s) /\ mhartid (hart s') = mhartid (hart s).

Lemma same_env_refl s : same_env s s.
Proof. by repeat split. Qed.

Lemma same_env_trans s1 s2 s3 : same_env s1 s2 -> same_env s2 s3 -> same_env s1 s3.
Proof. unfold same_env. intros. destruct_and?. repeat split; congruence. Qed.

Definition keeps_id (f : hart_t -> hart_t) : Prop := forall h, mhartid (f h) = mhartid h.

Lemma upd_hart_env i f s : keeps_id f -> same_env s (upd_hart i f s).
Proof.
  intros Hf. unfold upd_hart. case_match; repeat split; try done.
  - apply Hf.
  - cbn. apply length_arr_set.
Qed.

Lemma hart_at_upd_eq i f s : 0 <= i < n_hart s -> keeps_id f ->
  hart_at (upd_hart i f s) i = f (hart_at s i).
Proof.
  intros Hi Hf. unfold hart_at, upd_hart.
  destruct (Z.eqb_spec i (mhartid (hart s))) as [E|E].
  - change (hart (on_hart f s)) with (f (hart s)). rewrite Hf.
    by destruct (Z.eqb_spec i (mhartid (hart s))).
  - change (hart (s <| peers := _ |>)) with (hart s).
    destruct (Z.eqb_spec i (mhartid (hart s))); [done|].
    by apply arr_get_set_eq.
Qed.

Lemma hart_at_upd_ne i j f s : 0 <= i -> 0 <= j -> i <> j -> keeps_id f ->
  hart_at (upd_hart i f s) j = hart_at s j.
Proof.
  intros Hi Hj Hne Hf. unfold hart_at, upd_hart.
  destruct (Z.eqb_spec i (mhartid (hart s))) as [E|E].
  - change (hart (on_hart f s)) with (f (hart s)). rewrite Hf.
    destruct (Z.eqb_spec j (mhartid (hart s))); [lia|done].
  - change (hart (s <| peers := _ |>)) with (hart s).
    destruct (Z.eqb_spec j (mhartid (hart s))); [done|]. by apply arr_get_set_ne.
Qed.

Lemma for_harts_env n i g s : (forall i, keeps_id (g i)) ->
  same_env s (for_harts n i (fun i => upd_hart i (g i)) s).
Proof.
  intros Hg. revert i s. induction n as [|n IH]; intros i s; [apply same_env_refl|].
  cbn [for_harts]. eapply same_env_trans; [by apply upd_hart_env|apply IH].
Qed.

(** The loop applies [g j] to hart [j] exactly once, for every [j] in its range. *)
Lemma for_harts_at n i g s j : (forall i, keeps_id (g i)) -> 0 <= i -> 0 <= j ->
  i + Z.of_nat n <= n_hart s ->
  hart_at (for_harts n i (fun i => upd_hart i (g i)) s) j =
  if (i <=? j) && (j <? i + Z.of_nat n) then g j (hart_at s j) else hart_at s j.
Proof.
  intros Hg. revert i s. induction n as [|n IH]; intros i s Hi Hj Hn.
  - cbn [for_harts]. destruct (Z.leb_spec i j), (Z.ltb_spec j (i + Z.of_nat 0)); cbn [andb]; lia || done.
  - cbn [for_harts].
    pose proof (upd_hart_env i (g i) s (Hg i)) as (_ & _ & _ & _ & _ & _ & Hl & _).
    rewrite IH; [|lia|done|unfold n_hart in *; rewrite Hl; lia].
    destruct (Z.eq_dec i j) as [->|Hne].
    + rewrite hart_at_upd_eq by (lia || apply Hg).
      destruct (Z.leb_spec (j + 1) j), (Z.leb_spec j j), (Z.ltb_spec j (j + Z.of_nat (S n)));
        cbn [andb]; lia || done.
    + rewrite hart_at_upd_ne by (lia || apply Hg).
      destruct (Z.leb_spec (i + 1) j), (Z.leb_spec i j), (Z.ltb_spec j (i + 1 + Z.of_nat n)),
        (Z.ltb_spec j (i + Z.of_nat (S n))); cbn [andb]; lia || done.
Qed.

Lemma for_all_harts_at g s j : (forall i, keeps_id (g i)) -> 0 <= j < n_hart s ->
  hart_at (for_all_harts (fun i => upd_hart i (g i)) s) j = g j (hart_at s j).
Proof.
  intros Hg Hj. unfold for_all_harts. unfold n_hart in Hj.
  rewrite for_harts_at by (done || unfold n_hart; lia).
  destruct (Z.leb_spec 0 j), (Z.ltb_spec j (0 + Z.of_nat (length (peers s)))); cbn [andb]; lia || done.
Qed.

(** A loop whose body looks at the environment only. *)
Lemma for_harts_dev n i (g : D -> Z -> hart_t -> hart_t) s : (forall d i, keeps_id (g d i)) ->
  for_harts n i (fun i s => upd_hart i (g (dev s) i) s) s =
  for_harts n i (fun i => upd_hart i (g (dev s) i)) s.
Proof.
  intros Hg.
  assert (G : forall n i d s, dev s = d ->
    for_harts n i (fun i s => upd_hart i (g (dev s) i) s) s =
    for_harts n i (fun i => upd_hart i (g d i)) s); [|by apply G].
  clear n i s. induction n as [|n IH]; intros i d s Hd; [done|].
  cbn [for_harts]. rewrite Hd. apply IH.
  pose proof (upd_hart_env i (g d i) s (Hg d i)) as (_ & _ & _ & _ & _ & -> & _). done.
Qed.
End Loops.
