(* ===== verification/Device.v ===== *)
(** * Device state, the host and the emulator state

    The structs of device.h, the static state of utils.c, and the host services
    the emulator calls: [Host] is the interface of the operating system (clock,
    terminal, entropy source) and [Coro] the one of the coroutine library, both
    parameters of the model. The build modelled has virtio-blk and virtio-rng;
    the other optional devices ([SEMU_HAS(...)]) are configured out. *)

From stdpp Require Import base gmap list.
From Stdlib Require Import ZArith Lia Bool.
From Stdlib Require Import Floats.SpecFloat.
From S2P Require Import Prelude Isa Hart Machine.
Open Scope Z_scope.

(* [device.h:32-38] plic_state_t *)
Record plic_state_t := mk_plic { masked : Z; ip : Z; ie : list Z; active : Z }.

(* [device.h:56-72] u8250_state_t *)
Record u8250_state_t := mk_uart {
  dll : Z; dlh : Z; lcr : Z; ier : Z; current_int : Z; pending_ints : Z; mcr : Z;
  in_ready : bool; out_buf : list Z; out_buf_len : Z;
  waiting_hart_id : Z; has_waiting_hart : bool }.

(** [virtio_blk_queue_t] and [virtio_rng_queue_t] have the same fields. *)
(* [device.h:147-154] virtio_blk_queue_t *)
Record virtq_t := mk_virtq {
  QueueNum : Z; QueueDesc : Z; QueueAvail : Z; QueueUsed : Z; last_avail : Z; ready : bool }.

(** The register file common to the virtio devices. *)
(* [device.h:156-166] virtio_blk_state_t *)
Record virtio_state := mk_virtio {
  DeviceFeaturesSel : Z; DriverFeatures : Z; DriverFeaturesSel : Z; QueueSel : Z;
  queues : list virtq_t; Status : Z; InterruptStatus : Z }.

(* [device.h:205-218] virtio_rng_state_t *)
Definition virtio_rng_state_t := virtio_state.

(** virtio-blk adds its configuration space, as the 32-bit words the register
    window exposes, and the mapped disk image, as bytes; [disk_size] is the length
    of the mapping and [disk_oob] records an access outside it. *)
(* [device.h:156-172] virtio_blk_state_t *)
Record virtio_blk_state_t := mk_vblk {
  vblk_regs : virtio_state; vblk_config : list Z; vblk_config_oob : bool;
  disk : gmap Z Z; disk_size : Z; disk_oob : bool }.

(* [device.h:351-371] mtimer_state_t *)
Record mtimer_state_t := mk_mtimer { mtimecmp : list Z; mtimer_n_hart : Z; mtime : semu_timer_t }.
(* [device.h:386-399] mswi_state_t *)
Record mswi_state_t := mk_mswi { msip : list Z; mswi_n_hart : Z }.
(* [device.h:414-427] sswi_state_t *)
Record sswi_state_t := mk_sswi { ssip : list Z; sswi_n_hart : Z }.

(** The file-scope and function-scope statics of utils.c ([boot_complete] is in
    [machine]). *)
(* [utils.c:25-33] *)
Record timer_static := mk_tstatic {
  ticks_increment : spec_float; boot_ticks : spec_float; timer_call_count : Z;
  offset : Z; first_switch : bool }.

(** [div_zero] records that the emulator has divided an integer by zero, which
    kills the host process. *)
(* [device.h:553-609] emu_state_t *)
Record emu_state_t (E : Type) := mk_emu {
  stopped : bool;
  exit_code : Z;
  plic : plic_state_t;
  uart : u8250_state_t;
  vblk : virtio_blk_state_t;
  vrng : virtio_rng_state_t;
  mtimer : mtimer_state_t;
  mswi : mswi_state_t;
  sswi : sswi_state_t;
  peripheral_update_ctr : Z;
  curr_cpuid : Z;
  div_zero : bool;
  tstatic : timer_static;
  host : E }.
Arguments mk_emu {E}.
Arguments stopped {E}. Arguments exit_code {E}. Arguments plic {E}. Arguments uart {E}.
Arguments vblk {E}. Arguments vrng {E}. Arguments mtimer {E}. Arguments mswi {E}.
Arguments sswi {E}. Arguments peripheral_update_ctr {E}. Arguments curr_cpuid {E}.
Arguments div_zero {E}. Arguments tstatic {E}. Arguments host {E}.

#[export] Instance eta_plic : Eta plic_state_t := fun r => mk_plic (masked r) (ip r) (ie r) (active r).
#[export] Instance eta_uart : Eta u8250_state_t := fun r => mk_uart (dll r) (dlh r) (lcr r) (ier r)
  (current_int r) (pending_ints r) (mcr r) (in_ready r) (out_buf r) (out_buf_len r)
  (waiting_hart_id r) (has_waiting_hart r).
#[export] Instance eta_virtq : Eta virtq_t := fun r =>
  mk_virtq (QueueNum r) (QueueDesc r) (QueueAvail r) (QueueUsed r) (last_avail r) (ready r).
#[export] Instance eta_virtio : Eta virtio_state := fun r =>
  mk_virtio (DeviceFeaturesSel r) (DriverFeatures r) (DriverFeaturesSel r) (QueueSel r)
    (queues r) (Status r) (InterruptStatus r).
#[export] Instance eta_vblk : Eta virtio_blk_state_t := fun r =>
  mk_vblk (vblk_regs r) (vblk_config r) (vblk_config_oob r) (disk r) (disk_size r) (disk_oob r).
#[export] Instance eta_timer : Eta semu_timer_t := fun r => mk_timer (begin r) (freq r).
#[export] Instance eta_mtimer : Eta mtimer_state_t := fun r =>
  mk_mtimer (mtimecmp r) (mtimer_n_hart r) (mtime r).
#[export] Instance eta_mswi : Eta mswi_state_t := fun r => mk_mswi (msip r) (mswi_n_hart r).
#[export] Instance eta_sswi : Eta sswi_state_t := fun r => mk_sswi (ssip r) (sswi_n_hart r).
#[export] Instance eta_tstatic : Eta timer_static := fun r =>
  mk_tstatic (ticks_increment r) (boot_ticks r) (timer_call_count r) (offset r) (first_switch r).
#[export] Instance eta_emu {E} : Eta (emu_state_t E) := fun r =>
  mk_emu (stopped r) (exit_code r) (plic r) (uart r) (vblk r) (vrng r) (mtimer r) (mswi r)
    (sswi r) (peripheral_update_ctr r) (curr_cpuid r) (div_zero r) (tstatic r) (host r).

#[export] Instance set_masked : Setter masked := ltac:(solve_setter).
#[export] Instance set_ip : Setter ip := ltac:(solve_setter).
#[export] Instance set_ie : Setter ie := ltac:(solve_setter).
#[export] Instance set_active : Setter active := ltac:(solve_setter).
#[export] Instance set_dll : Setter dll := ltac:(solve_setter).
#[export] Instance set_dlh : Setter dlh := ltac:(solve_setter).
#[export] Instance set_lcr : Setter lcr := ltac:(solve_setter).
#[export] Instance set_ier : Setter ier := ltac:(solve_setter).
#[export] Instance set_current_int : Setter current_int := ltac:(solve_setter).
#[export] Instance set_pending_ints : Setter pending_ints := ltac:(solve_setter).
#[export] Instance set_mcr : Setter mcr := ltac:(solve_setter).
#[export] Instance set_in_ready : Setter in_ready := ltac:(solve_setter).
#[export] Instance set_out_buf : Setter out_buf := ltac:(solve_setter).
#[export] Instance set_out_buf_len : Setter out_buf_len := ltac:(solve_setter).
#[export] Instance set_waiting_hart_id : Setter waiting_hart_id := ltac:(solve_setter).
#[export] Instance set_has_waiting_hart : Setter has_waiting_hart := ltac:(solve_setter).
#[export] Instance set_QueueNum : Setter QueueNum := ltac:(solve_setter).
#[export] Instance set_QueueDesc : Setter QueueDesc := ltac:(solve_setter).
#[export] Instance set_QueueAvail : Setter QueueAvail := ltac:(solve_setter).
#[export] Instance set_QueueUsed : Setter QueueUsed := ltac:(solve_setter).
#[export] Instance set_last_avail : Setter last_avail := ltac:(solve_setter).
#[export] Instance set_ready : Setter ready := ltac:(solve_setter).
#[export] Instance set_DeviceFeaturesSel : Setter DeviceFeaturesSel := ltac:(solve_setter).
#[export] Instance set_DriverFeatures : Setter DriverFeatures := ltac:(solve_setter).
#[export] Instance set_DriverFeaturesSel : Setter DriverFeaturesSel := ltac:(solve_setter).
#[export] Instance set_QueueSel : Setter QueueSel := ltac:(solve_setter).
#[export] Instance set_queues : Setter queues := ltac:(solve_setter).
#[export] Instance set_Status : Setter Status := ltac:(solve_setter).
#[export] Instance set_InterruptStatus : Setter InterruptStatus := ltac:(solve_setter).
#[export] Instance set_vblk_regs : Setter vblk_regs := ltac:(solve_setter).
#[export] Instance set_vblk_config : Setter vblk_config := ltac:(solve_setter).
#[export] Instance set_vblk_config_oob : Setter vblk_config_oob := ltac:(solve_setter).
#[export] Instance set_disk : Setter disk := ltac:(solve_setter).
#[export] Instance set_disk_size : Setter disk_size := ltac:(solve_setter).
#[export] Instance set_disk_oob : Setter disk_oob := ltac:(solve_setter).
#[export] Instance set_begin : Setter begin := ltac:(solve_setter).
#[export] Instance set_freq : Setter freq := ltac:(solve_setter).
#[export] Instance set_mtimecmp : Setter mtimecmp := ltac:(solve_setter).
#[export] Instance set_mtimer_n_hart : Setter mtimer_n_hart := ltac:(solve_setter).
#[export] Instance set_mtime : Setter mtime := ltac:(solve_setter).
#[export] Instance set_msip : Setter msip := ltac:(solve_setter).
#[export] Instance set_mswi_n_hart : Setter mswi_n_hart := ltac:(solve_setter).
#[export] Instance set_ssip : Setter ssip := ltac:(solve_setter).
#[export] Instance set_sswi_n_hart : Setter sswi_n_hart := ltac:(solve_setter).
#[export] Instance set_ticks_increment : Setter ticks_increment := ltac:(solve_setter).
#[export] Instance set_boot_ticks : Setter boot_ticks := ltac:(solve_setter).
#[export] Instance set_timer_call_count : Setter timer_call_count := ltac:(solve_setter).
#[export] Instance set_offset : Setter offset := ltac:(solve_setter).
#[export] Instance set_first_switch : Setter first_switch := ltac:(solve_setter).
#[export] Instance set_stopped {E} : Setter (@stopped E) := ltac:(solve_setter).
#[export] Instance set_exit_code {E} : Setter (@exit_code E) := ltac:(solve_setter).
#[export] Instance set_plic {E} : Setter (@plic E) := ltac:(solve_setter).
#[export] Instance set_uart {E} : Setter (@uart E) := ltac:(solve_setter).
#[export] Instance set_vblk {E} : Setter (@vblk E) := ltac:(solve_setter).
#[export] Instance set_vrng {E} : Setter (@vrng E) := ltac:(solve_setter).
#[export] Instance set_mtimer {E} : Setter (@mtimer E) := ltac:(solve_setter).
#[export] Instance set_mswi {E} : Setter (@mswi E) := ltac:(solve_setter).
#[export] Instance set_sswi {E} : Setter (@sswi E) := ltac:(solve_setter).
#[export] Instance set_peripheral_update_ctr {E} : Setter (@peripheral_update_ctr E) := ltac:(solve_setter).
#[export] Instance set_curr_cpuid {E} : Setter (@curr_cpuid E) := ltac:(solve_setter).
#[export] Instance set_div_zero {E} : Setter (@div_zero E) := ltac:(solve_setter).
#[export] Instance set_tstatic {E} : Setter (@tstatic E) := ltac:(solve_setter).
#[export] Instance set_host {E} : Setter (@host E) := ltac:(solve_setter).

(** ** The host *)

(** Each operation consumes and returns the host state, so that successive
    calls may answer differently. [sys_write] is [write(2)], restarted while it
    is interrupted: the number of bytes written, or a value [<= 0] on failure;
    [read_byte] is a one-byte [read(2)], [None] on error or end of file;
    [read_entropy n] fills at most [n] bytes. [clock_gettime] gives seconds and
    nanoseconds. *)
Class Host (E : Type) := {
  poll_in : E -> bool * E;
  sys_write : list Z -> E -> Z * E;
  read_byte : E -> option Z * E;
  getchar : E -> Z * E;
  sys_exit : E -> E;
  clock_gettime : E -> (Z * Z) * E;
  read_entropy : Z -> E -> list Z * E }.

Class Coro (E : Type) := {
  coro_current_hart_id : E -> Z;
  coro_yield : machine (emu_state_t E) -> machine (emu_state_t E) }.

Definition on_dev {D} (f : D -> D) (s : machine D) : machine D := s <| dev := f (dev s) |>.
