(* ===== verification/Timer.v ===== *)
(** * The emulator clock (utils.c)

    Before the guest first enters U-mode the clock advances by a fixed fraction
    of a tick per call, counted in a C [double] (modelled with the Standard
    Library's IEEE 754 binary64 operations); afterwards it follows the host
    clock, shifted so that the two agree at the switch. *)

From stdpp Require Import base gmap list.
From Stdlib Require Import ZArith Lia Bool.
From Stdlib Require Import Floats.SpecFloat.
From S2P Require Import Prelude Isa Hart Machine Device.
Open Scope Z_scope.

(** ** binary64 *)
Definition double_of (z : Z) : spec_float := binary_normalize 53 1024 z 0 false.
Definition dadd := SFadd 53 1024.
Definition dsub := SFsub 53 1024.
Definition dmul := SFmul 53 1024.
Definition ddiv := SFdiv 53 1024.

(** Truncation toward zero, as the conversions to [uint64_t] and [int64_t]. *)
Definition dtrunc (f : spec_float) : Z :=
  match f with
  | S754_finite sgn m e =>
      let a := if 0 <=? e then Z.pos m * 2 ^ e else Z.pos m / 2 ^ (- e) in
      if sgn then - a else a
  | _ => 0
  end.

(** The compile-time parameters [CLOCK_FREQ] and [SEMU_BOOT_TARGET_TIME]. *)
Definition CLOCK_FREQ := 65000000.
Definition SEMU_BOOT_TARGET_TIME := 10.
(* [utils.c:29-29] *)
Definition SEMU_TIMER_BOOT_COEFF := double_of 174400000.

(* [utils.c:40-46] mult_frac *)
Definition mult_frac (x n d : Z) : Z :=
  let q := x / d in
  let r := x mod d in
  u64 (u64 (q * n) + u64 (r * n) / d).

Section Timer.
Context {E : Type} `{HostE : Host E}.
Implicit Types s : machine (emu_state_t E).

Definition on_host {A} (f : E -> A * E) s : A * machine (emu_state_t E) :=
  let '(a, e) := f (host (dev s)) in (a, on_dev (fun d => d <| host := e |>) s).

Definition on_tstatic (f : timer_static -> timer_static) s :=
  on_dev (fun d => d <| tstatic := f (tstatic d) |>) s.

(* [utils.c:57-78] host_time_ns *)
Definition host_time_ns s : Z * machine (emu_state_t E) :=
  let '((tv_sec, tv_nsec), s) := on_host clock_gettime s in
  (u64 (dtrunc (dadd (dmul (double_of tv_sec) (double_of 1000000000)) (double_of tv_nsec))), s).

(* [utils.c:87-140] semu_timer_clocksource *)
Definition semu_timer_clocksource (timer : semu_timer_t) s : Z * machine (emu_state_t E) :=
  if negb (boot_complete s) then
    let s := on_tstatic (fun t => t <| timer_call_count := u64 (timer_call_count t + 1) |>
                                    <| boot_ticks := dadd (boot_ticks t) (ticks_increment t) |>) s in
    (u64 (dtrunc (boot_ticks (tstatic (dev s)))), s)
  else
    let '(now, s) := host_time_ns s in
    let real_ticks := mult_frac now (freq timer) 1000000000 in
    let s :=
      if first_switch (tstatic (dev s)) then
        on_tstatic (fun t => t <| first_switch := false |>
          <| offset := s64 (dtrunc (dsub (double_of real_ticks) (boot_ticks t))) |>) s
      else s in
    (u64 (s64 real_ticks - offset (tstatic (dev s))), s).

(* [utils.c:142-170] semu_timer_init *)
Definition semu_timer_init (freq : Z) (n_harts : Z) s : semu_timer_t * machine (emu_state_t E) :=
  let '(now, s) := host_time_ns s in
  let b := mult_frac now freq 1000000000 in
  (mk_timer b freq,
   on_tstatic (fun t => t <| boot_ticks := double_of b |>
     <| ticks_increment := ddiv (double_of (SEMU_BOOT_TARGET_TIME * CLOCK_FREQ))
          (dmul SEMU_TIMER_BOOT_COEFF (double_of n_harts)) |>) s).

(* [utils.c:172-175] semu_timer_get *)
Definition semu_timer_get (timer : semu_timer_t) s : Z * machine (emu_state_t E) :=
  let '(t, s) := semu_timer_clocksource timer s in (u64 (t - begin timer), s).

(* [utils.c:177-180] semu_timer_rebase *)
Definition semu_timer_rebase (timer : semu_timer_t) (time : Z) s
  : semu_timer_t * machine (emu_state_t E) :=
  let '(t, s) := semu_timer_clocksource timer s in (timer <| begin := u64 (t - time) |>, s).
End Timer.

(** ** Scaling *)

(** [mult_frac] computes [x * n / d] rounded down, without intermediate
    overflow: whenever the product of the remainder and the multiplier and the
    result itself fit in 64 bits, the value is the exact quotient. *)
Theorem mult_frac_exact (x n d : Z) : 0 <= x < 2 ^ 64 -> 0 <= n -> 0 < d ->
  (d - 1) * n < 2 ^ 64 -> x * n / d < 2 ^ 64 -> mult_frac x n d = x * n / d.
Proof.
  intros Hx Hn Hd Hr Hq. unfold mult_frac, u64.
  pose proof (Z.mod_pos_bound x d Hd) as Hm. pose proof (Z.div_mod x d ltac:(lia)) as E.
  assert (Hxd : 0 <= x / d) by (apply Z.div_pos; lia).
  assert (Hrn : 0 <= x mod d * n < 2 ^ 64) by nia.
  assert (Heq : x * n / d = x / d * n + x mod d * n / d).
  { rewrite E at 1. replace ((d * (x / d) + x mod d) * n) with (x / d * n * d + x mod d * n) by ring.
    apply Z.div_add_l. lia. }
  assert (0 <= x mod d * n / d) by (apply Z.div_pos; lia).
  assert (0 <= x / d * n) by nia.
  rewrite (Z.mod_small (x mod d * n)) by lia. rewrite (Z.mod_small (x / d * n)) by lia.
  rewrite Z.mod_small; lia.
Qed.

Lemma mult_frac_exact_witness :
  mult_frac 1700000000123456789 65000000 1000000000 = 110500000008024691.
Proof. rewrite mult_frac_exact; [reflexivity|lia|lia|lia|reflexivity|reflexivity]. Defined.

Lemma mult_frac_range x n d : 0 <= mult_frac x n d < 2 ^ 64.
Proof. unfold mult_frac, u64. apply Z.mod_pos_bound. lia. Qed.

Lemma u64_u64_l (a b : Z) : u64 (u64 a + b) = u64 (a + b).
Proof. unfold u64. apply Z.add_mod_idemp_l. lia. Qed.

(** Setting the time works: after [semu_timer_rebase] to [time], the timer
    reads [time] plus the clock-source ticks that have elapsed since the write,
    modulo 2^64. *)
Lemma timer_rebase_get {E} `{Host E} (tm : semu_timer_t) (time : Z) (s : machine (emu_state_t E)) :
  let t0 := fst (semu_timer_clocksource tm s) in
  let '(tm', s') := semu_timer_rebase tm time s in
  fst (semu_timer_get tm' s') = u64 (time + (fst (semu_timer_clocksource tm' s') - t0)).
Proof.
  cbv zeta. unfold semu_timer_rebase. destruct (semu_timer_clocksource tm s) as [t0 s'].
  unfold semu_timer_get. set (tm' := tm <| begin := _ |>).
  destruct (semu_timer_clocksource tm' s') as [t1 s'']. cbn [fst].
  change (begin tm') with (u64 (t0 - time)). unfold u64.
  rewrite Zminus_mod_idemp_r. f_equal. lia.
Qed.
