(* ===== verification/Plic.v ===== *)
(** * The interrupt controller (plic.c)

    A source is level-triggered: [active] is its input line, [ip] its pending
    bit, [masked] the gateway that keeps it from becoming pending again until it
    is completed. [ie] holds the enable bits of each context. *)

From stdpp Require Import base gmap list.
From Stdlib Require Import ZArith Lia Bool.
From S2P Require Import Prelude Bits Isa Hart Machine Loops Device.
Open Scope Z_scope.

(** [__builtin_ffs] *)
Definition ffs (x : Z) : Z := if x =? 0 then 0 else Z.log2 (Z.land x (- x)) + 1.

(** [1 << n] in 32 bits; the shift count is taken modulo 32. *)
Definition bit32 (n : Z) : Z := Z.shiftl 1 (n mod 32).

(* [plic.c:35-37] *)
Definition plic_addr_mask (addr : Z) : Z := Z.lxor (MASK (ilog2 addr)) (Z.land 1 addr).
Definition plic_context (addr : Z) : Z :=
  let context := Z.land (plic_addr_mask addr) addr in
  Z.shiftr context (ffs context - Z.land (ffs context) 1).
(* [plic.c:40-40] *)
Definition plic_region (addr : Z) : Z := Z.land addr (not32 (plic_addr_mask addr)).

Definition ie_at (p : plic_state_t) (i : Z) : Z := arr_get 0 (ie p) i.

(** The two statements that open [plic_update_interrupts]. *)
(* [plic.c:9-11] *)
Definition plic_latch (p : plic_state_t) : plic_state_t :=
  let p := p <| ip := Z.lor (ip p) (Z.land (active p) (not32 (masked p))) |> in
  p <| masked := Z.lor (masked p) (active p) |>.

(* [plic.c:14-20] *)
Definition plic_signal (p : plic_state_t) (i : Z) (h : hart_t) : hart_t :=
  if nz (Z.land (ip p) (ie_at p i))
  then h <| sip := Z.lor (sip h) RV_INT_SEI_BIT |> <| in_wfi := false |>
  else h <| sip := Z.land (sip h) (not32 RV_INT_SEI_BIT) |>.

(** The claim of [plic_reg_read]: the highest pending enabled source. *)
(* [plic.c:48-56] *)
Definition plic_claim (p : plic_state_t) (context : Z) : Z * plic_state_t :=
  let candidates := Z.land (ip p) (ie_at p context) in
  if nz candidates then
    let value := ilog2 candidates in
    (value, p <| ip := Z.land (ip p) (not32 (bit32 value)) |>)
  else (0, p).

(* [plic.c:81-85] *)
Definition plic_complete (p : plic_state_t) (context value : Z) : plic_state_t :=
  if nz (Z.land (ie_at p context) (bit32 value))
  then p <| masked := Z.land (masked p) (not32 (bit32 value)) |> else p.

(** [None]: the function returns [false]. A returned [None] value means that
    [*value] was left unassigned. *)
(* [plic.c:24-60] plic_reg_read *)
Definition plic_reg_read (p : plic_state_t) (addr : Z) : option (option Z * plic_state_t) :=
  if (1 <=? addr) && (addr <=? 31) then Some (None, p)
  else if addr =? 0x400 then Some (Some (ip p), p)
  else
    let context := plic_context addr in
    if Z.of_nat (length (ie p)) <=? context then None
    else
      let region := plic_region addr in
      if region =? 0x800 then Some (Some (ie_at p context), p)
      else if region =? 0x80000 then Some (Some 0, p)
      else if region =? 0x80001 then
        let '(value, p) := plic_claim p context in Some (Some value, p)
      else None.

(* [plic.c:62-89] plic_reg_write *)
Definition plic_reg_write (p : plic_state_t) (addr value : Z) : option plic_state_t :=
  if (1 <=? addr) && (addr <=? 31) then Some p
  else
    let context := plic_context addr in
    if Z.of_nat (length (ie p)) <=? context then None
    else
      let region := plic_region addr in
      if region =? 0x800 then Some (p <| ie := arr_set (ie p) context (Z.land value (not32 1)) |>)
      else if region =? 0x80000 then Some p
      else if region =? 0x80001 then Some (plic_complete p context value)
      else None.

Section Plic.
Context {E : Type}.
Implicit Types s : machine (emu_state_t E).

Definition on_plic (f : plic_state_t -> plic_state_t) s := on_dev (fun d => d <| plic := f (plic d) |>) s.

(* [plic.c:7-22] plic_update_interrupts *)
Definition plic_update_interrupts s : machine (emu_state_t E) :=
  let s := on_plic plic_latch s in
  for_all_harts (fun i s => upd_hart i (plic_signal (plic (dev s)) i) s) s.

(* [plic.c:91-112] plic_read *)
Definition plic_read (addr width : Z) s : option Z * machine (emu_state_t E) :=
  if width =? RV_MEM_LW then
    match plic_reg_read (plic (dev s)) (Z.shiftr addr 2) with
    | Some (v, p) => (v, on_plic (fun _ => p) s)
    | None => (None, raise RV_EXC_LOAD_FAULT (exc_val (hart s)) s)
    end
  else if (width =? RV_MEM_LBU) || (width =? RV_MEM_LB) || (width =? RV_MEM_LHU)
          || (width =? RV_MEM_LH)
  then (None, raise RV_EXC_LOAD_MISALIGN (exc_val (hart s)) s)
  else (None, raise RV_EXC_ILLEGAL_INSN 0 s).

(* [plic.c:114-133] plic_write *)
Definition plic_write (addr width value : Z) s : machine (emu_state_t E) :=
  if width =? RV_MEM_SW then
    match plic_reg_write (plic (dev s)) (Z.shiftr addr 2) value with
    | Some p => on_plic (fun _ => p) s
    | None => raise RV_EXC_STORE_FAULT (exc_val (hart s)) s
    end
  else if (width =? RV_MEM_SB) || (width =? RV_MEM_SH)
  then raise RV_EXC_STORE_MISALIGN (exc_val (hart s)) s
  else raise RV_EXC_ILLEGAL_INSN 0 s.
End Plic.

(** ** Pending, claimed, completed *)

Definition plic_u32 (p : plic_state_t) : Prop :=
  is_u32 (masked p) /\ is_u32 (ip p) /\ is_u32 (active p) /\ Forall is_u32 (ie p).

Lemma ie_at_u32 p i : plic_u32 p -> is_u32 (ie_at p i).
Proof.
  intros (_ & _ & _ & H). apply (arr_get_Forall is_u32); [|exact H]. unfold is_u32. lia.
Qed.

Lemma nz_spec x : nz x = true <-> x <> 0.
Proof. unfold nz. destruct (Z.eqb_spec x 0); split; [done|done|done|done]. Qed.

Lemma nz_bit x : nz x = true -> 0 <= x -> exists n, 0 <= n /\ Z.testbit x n = true.
Proof.
  intros H Hx. apply nz_spec in H. exists (Z.log2 x). split; [apply Z.log2_nonneg|].
  apply Z.bit_log2. lia.
Qed.

Lemma bit32_testbit i n : 0 <= i < 32 -> 0 <= n -> Z.testbit (bit32 i) n = (i =? n).
Proof.
  intros Hi Hn. unfold bit32. rewrite Z.mod_small by lia.
  rewrite Z.shiftl_1_l. destruct (Z.eqb_spec i n) as [->|Hne].
  - by apply Z.pow2_bits_true.
  - by apply Z.pow2_bits_false.
Qed.

Lemma bit32_range i : is_u32 (bit32 i).
Proof.
  unfold bit32, is_u32. pose proof (Z.mod_pos_bound i 32 ltac:(lia)). rewrite Z.shiftl_1_l.
  split; [apply Z.pow_nonneg; lia|]. apply Z.pow_lt_mono_r; lia.
Qed.

Lemma testbit_not32 x n : is_u32 x -> 0 <= n < 32 -> Z.testbit (not32 x) n = negb (Z.testbit x n).
Proof.
  intros Hx Hn. unfold not32. rewrite testbit_u32 by lia.
  rewrite Z.lnot_spec by lia. by destruct (Z.ltb_spec n 32); [|lia].
Qed.

(** [ilog2] of a non-zero word is its highest set bit. *)
Lemma ilog2_highest x : is_u32 x -> x <> 0 ->
  0 <= ilog2 x < 32 /\ Z.testbit x (ilog2 x) = true /\
  forall n, ilog2 x < n -> Z.testbit x n = false.
Proof.
  intros [Hx0 Hx] Hne. unfold ilog2.
  assert (Hlog : Z.log2 (Z.lor x 1) = Z.log2 x).
  { rewrite Z.log2_lor by lia. change (Z.log2 1) with 0. pose proof (Z.log2_nonneg x). lia. }
  rewrite Hlog. split; [|split; [apply Z.bit_log2; lia|intros n Hn; by apply Z.bits_above_log2]].
  split; [apply Z.log2_nonneg|]. apply Z.log2_lt_pow2; lia.
Qed.

Lemma clear_bit x i n : is_u32 x -> 0 <= i < 32 -> 0 <= n < 32 ->
  Z.testbit (Z.land x (not32 (bit32 i))) n = Z.testbit x n && negb (i =? n).
Proof.
  intros Hx Hi Hn. rewrite Z.land_spec, testbit_not32, bit32_testbit by (apply bit32_range || lia).
  done.
Qed.

(** Source [n] is pending and enabled for a context. *)
Definition deliverable (p : plic_state_t) (context n : Z) : bool :=
  Z.testbit (ip p) n && Z.testbit (ie_at p context) n.

(** A claim takes the highest-numbered deliverable source. With no pending
    enabled source it returns 0 and changes nothing; otherwise it returns a
    source that is pending and enabled for the context, above every other such
    source, and the only state change is that this source is no longer pending. *)
Theorem plic_claim_correct p context : plic_u32 p ->
  let '(v, p') := plic_claim p context in
  (v = 0 /\ p' = p /\ forall n, 0 <= n -> deliverable p context n = false) \/
  (0 <= v < 32 /\ deliverable p context v = true /\
   (forall n, v < n -> deliverable p context n = false) /\
   masked p' = masked p /\ ie p' = ie p /\ active p' = active p /\
   forall n, 0 <= n < 32 -> Z.testbit (ip p') n = Z.testbit (ip p) n && negb (v =? n)).
Proof.
  intros Hp. pose proof (ie_at_u32 p context Hp) as Hie. destruct Hp as (Hm & Hip & Ha & _).
  assert (Hc : is_u32 (Z.land (ip p) (ie_at p context))).
  { apply land_is_u32_l; [done|]. unfold is_u32 in Hie. lia. }
  assert (Hd : forall n, deliverable p context n = Z.testbit (Z.land (ip p) (ie_at p context)) n).
  { intros n. unfold deliverable. by rewrite Z.land_spec. }
  unfold plic_claim. cbv zeta. destruct (nz (Z.land (ip p) (ie_at p context))) eqn:E.
  - right. apply nz_spec in E. destruct (ilog2_highest _ Hc E) as (Hr & Ht & Hh).
    split; [done|]. split; [by rewrite Hd|]. split; [intros n Hn; rewrite Hd; by apply Hh|].
    do 3 (split; [done|]). intros n Hn. by apply clear_bit.
  - left. do 2 (split; [done|]). intros n Hn. rewrite Hd.
    assert (Hz : Z.land (ip p) (ie_at p context) = 0).
    { destruct (Z.eq_dec (Z.land (ip p) (ie_at p context)) 0) as [H|H]; [done|].
      apply nz_spec in H. congruence. }
    rewrite Hz. apply Z.testbit_0_l.
Qed.

(** ** The gateway as a transition system *)

(** What may happen to the controller without completing source [n]: input
    lines change, the lines are latched, a context claims, completes another
    source or sets its enables. *)
Inductive plic_run (n : Z) : plic_state_t -> plic_state_t -> Prop :=
| run_refl p : plic_run n p p
| run_lines p a p' : is_u32 a -> plic_run n (p <| active := a |>) p' -> plic_run n p p'
| run_latch p p' : plic_run n (plic_latch p) p' -> plic_run n p p'
| run_claim p c p' : plic_run n (snd (plic_claim p c)) p' -> plic_run n p p'
| run_complete p c v p' : v mod 32 <> n -> plic_run n (plic_complete p c v) p' -> plic_run n p p'
| run_enable p c v p' : is_u32 v -> plic_run n (p <| ie := arr_set (ie p) c v |>) p' -> plic_run n p p'.

Lemma latch_u32 p : plic_u32 p -> plic_u32 (plic_latch p).
Proof.
  intros (Hm & Hip & Ha & Hie). unfold plic_u32, plic_latch. split_and!; cbn; try done;
    repeat first [apply lor_is_u32 | apply land_is_u32_l | apply u32_range | apply Hm | apply Hip
                 | apply Ha ].
Qed.

Lemma claim_u32 p c : plic_u32 p -> plic_u32 (snd (plic_claim p c)).
Proof.
  intros (Hm & Hip & Ha & Hie). unfold plic_claim. cbv zeta. case_match; [|done].
  unfold plic_u32. split_and!; cbn; try done; by apply land_is_u32_l; [|apply u32_range].
Qed.

Lemma complete_u32 p c v : plic_u32 p -> plic_u32 (plic_complete p c v).
Proof.
  intros (Hm & Hip & Ha & Hie). unfold plic_complete. case_match; [|done].
  unfold plic_u32. split_and!; cbn; try done; by apply land_is_u32_l; [|apply u32_range].
Qed.

Definition claimed (p : plic_state_t) (n : Z) : Prop :=
  plic_u32 p /\ Z.testbit (masked p) n = true /\ Z.testbit (ip p) n = false.

Lemma claimed_latch p n : 0 <= n < 32 -> claimed p n -> claimed (plic_latch p) n.
Proof.
  intros Hn (Hu & Hm & Hi). split; [by apply latch_u32|]. unfold plic_latch. cbn.
  rewrite !Z.lor_spec, Z.land_spec, testbit_not32, Hm, Hi by (lia || apply Hu).
  by rewrite andb_false_r.
Qed.

Lemma claimed_claim p c n : 0 <= n < 32 -> claimed p n -> claimed (snd (plic_claim p c)) n.
Proof.
  intros Hn (Hu & Hm & Hi). split; [by apply claim_u32|]. unfold plic_claim. cbv zeta.
  case_match; [|done]. cbn. split; [done|]. by rewrite Z.land_spec, Hi.
Qed.

Lemma claimed_complete p c v n : 0 <= n < 32 -> v mod 32 <> n -> claimed p n ->
  claimed (plic_complete p c v) n.
Proof.
  intros Hn Hv (Hu & Hm & Hi). split; [by apply complete_u32|]. unfold plic_complete.
  case_match; [|done]. cbn. split; [|done].
  assert (E : bit32 v = bit32 (v mod 32)) by (unfold bit32; by rewrite Z.mod_mod).
  pose proof (Z.mod_pos_bound v 32 ltac:(lia)) as Hb.
  rewrite E, clear_bit, Hm by (lia || apply Hu). by destruct (Z.eqb_spec (v mod 32) n).
Qed.

(** No interrupt is delivered twice. Once a source has been claimed (it is
    masked and not pending), then whatever happens to the input lines and
    however often they are latched, other sources are claimed or completed and
    enables are rewritten, it does not become pending again until it is
    completed itself. *)
Theorem plic_no_redelivery n p p' : 0 <= n < 32 -> claimed p n -> plic_run n p p' ->
  Z.testbit (ip p') n = false.
Proof.
  intros Hn Hc Hr. cut (claimed p' n); [intros H; apply H|].
  induction Hr as [|p a p' Ha _ IH|p p' _ IH|p c p' _ IH|p c v p' Hv _ IH|p c v p' Hv _ IH];
    try apply IH; auto using claimed_latch, claimed_claim, claimed_complete.
  - destruct Hc as ((H1 & H2 & H3 & H4) & Hm & Hi). unfold claimed, plic_u32. by split_and!.
  - destruct Hc as ((H1 & H2 & H3 & H4) & Hm & Hi). unfold claimed, plic_u32. split_and!; try done.
    by apply Forall_insert.
Qed.

Definition plic0 : plic_state_t := mk_plic 0 0 (replicate 32 0) 0.

Lemma plic_no_redelivery_witness :
  let p := snd (plic_claim (plic_latch (mk_plic 0 0 (2 :: replicate 31 0) 2)) 0) in
  Z.testbit (ip (plic_latch (plic_latch p))) 1 = false.
Proof.
  apply (plic_no_redelivery 1 (snd (plic_claim (plic_latch (mk_plic 0 0 (2 :: replicate 31 0) 2)) 0))).
  - lia.
  - unfold claimed, plic_u32. split_and!;
      first [apply is_u32b_true; vm_compute; reflexivity | apply Forall_u32b; vm_compute; reflexivity
            | vm_compute; reflexivity].
  - apply run_latch, run_latch, run_refl.
Defined.

Lemma plic_claim_correct_witness :
  plic_claim (mk_plic 10 10 (14 :: replicate 31 0) 10) 0 =
    (3, mk_plic 10 2 (14 :: replicate 31 0) 10) /\
  deliverable (mk_plic 10 10 (14 :: replicate 31 0) 10) 0 3 = true.
Proof.
  split; [reflexivity|].
  assert (Hu : plic_u32 (mk_plic 10 10 (14 :: replicate 31 0) 10)).
  { unfold plic_u32. split_and!;
      first [apply is_u32b_true; vm_compute; reflexivity | apply Forall_u32b; vm_compute; reflexivity]. }
  pose proof (plic_claim_correct (mk_plic 10 10 (14 :: replicate 31 0) 10) 0 Hu) as H.
  destruct H as [(H & _)|(_ & H & _)]; [discriminate H|exact H].
Defined.

(** ** Signalling the harts *)

Lemma plic_signal_id p i : keeps_id (plic_signal p i).
Proof. intros h. unfold plic_signal. by case_match. Qed.

Section Signal.
Context {E : Type}.
Implicit Types s : machine (emu_state_t E).

(** Signalling the harts leaves the devices. *)
Lemma dev_plic_update s : dev (plic_update_interrupts s) = dev (on_plic plic_latch s).
Proof.
  unfold plic_update_interrupts, for_all_harts. set (s1 := on_plic plic_latch s).
  rewrite (for_harts_dev _ _ (fun d i => plic_signal (plic d) i) s1) by (intros; apply plic_signal_id).
  pose proof (for_harts_env (length (peers s1)) 0 (fun i => plic_signal (plic (dev s1)) i) s1
    (fun j => plic_signal_id _ j)) as (_ & _ & _ & _ & _ & -> & _). done.
Qed.

Lemma plic_update_at s i : 0 <= i < n_hart s ->
  let p := plic_latch (plic (dev s)) in
  hart_at (plic_update_interrupts s) i = plic_signal p i (hart_at s i) /\
  plic (dev (plic_update_interrupts s)) = p.
Proof.
  intros Hi. cbv zeta. split; [|by rewrite dev_plic_update].
  unfold plic_update_interrupts, for_all_harts. set (s1 := on_plic plic_latch s).
  rewrite (for_harts_dev _ _ (fun d i => plic_signal (plic d) i) s1) by (intros; apply plic_signal_id).
  change (plic_latch (plic (dev s))) with (plic (dev s1)).
  change (hart_at s i) with (hart_at s1 i). change (n_hart s) with (n_hart s1) in Hi.
  apply (for_all_harts_at (fun i => plic_signal (plic (dev s1)) i)); [|done].
  intros j. apply plic_signal_id.
Qed.

(** C10: Interrupt lines are never lost and never invented. After
    [plic_update_interrupts], for every hart of the system: its external
    interrupt bit is set exactly when some source is pending and enabled for it,
    in which case it is also out of WFI; its other pending bits are untouched;
    and every source whose line was active and not masked is now pending, every
    active source is masked. *)
Theorem plic_update_signals s i : 0 <= i < n_hart s -> plic_u32 (plic (dev s)) ->
  is_u32 (sip (hart_at s i)) ->
  let p := plic (dev s) in
  let p' := plic (dev (plic_update_interrupts s)) in
  let h' := hart_at (plic_update_interrupts s) i in
  Z.testbit (sip h') RV_INT_SEI = nz (Z.land (ip p') (ie_at p' i)) /\
  (Z.testbit (sip h') RV_INT_SEI = true -> in_wfi h' = false) /\
  (forall n, 0 <= n < 32 -> n <> RV_INT_SEI -> Z.testbit (sip h') n = Z.testbit (sip (hart_at s i)) n) /\
  (forall n, 0 <= n < 32 -> Z.testbit (ip p') n =
     Z.testbit (ip p) n || (Z.testbit (active p) n && negb (Z.testbit (masked p) n))) /\
  (forall n, 0 <= n < 32 -> Z.testbit (active p) n = true -> Z.testbit (masked p') n = true).
Proof.
  intros Hi Hu Hsip. cbv zeta. destruct (plic_update_at s i Hi) as [-> ->].
  set (p := plic (dev s)) in *. set (h := hart_at s i) in *.
  change RV_INT_SEI with 9. change (ie_at (plic_latch p)) with (ie_at p).
  split_and!.
  - unfold plic_signal. change (ie_at (plic_latch p)) with (ie_at p).
    destruct (nz _) eqn:En; cbn [sip setter set_sip set_in_wfi].
    + change RV_INT_SEI_BIT with (bit32 9). rewrite Z.lor_spec, bit32_testbit by lia.
      by rewrite orb_true_r.
    + change RV_INT_SEI_BIT with (bit32 9). rewrite clear_bit by (done || lia).
      by rewrite andb_false_r.
  - unfold plic_signal. destruct (nz _); [done|].
    change RV_INT_SEI_BIT with (bit32 9). cbn [sip setter set_sip].
    rewrite clear_bit by (done || lia). by rewrite andb_false_r.
  - intros n Hn Hne. unfold plic_signal.
    destruct (nz _); change RV_INT_SEI_BIT with (bit32 9); cbn [sip setter set_sip set_in_wfi].
    + rewrite Z.lor_spec, bit32_testbit by lia. destruct (Z.eqb_spec 9 n); [lia|].
      by rewrite orb_false_r.
    + rewrite clear_bit by (done || lia). destruct (Z.eqb_spec 9 n); [lia|]. by rewrite andb_true_r.
  - intros n Hn. unfold plic_latch. cbn.
    rewrite Z.lor_spec, Z.land_spec, testbit_not32 by (lia || apply Hu). done.
  - intros n Hn Ha. unfold plic_latch. cbn. by rewrite Z.lor_spec, Ha, orb_true_r.
Qed.
End Signal.

(** A completed source fires again if its line is still active: completing
    through a context that has it enabled lifts the mask, so the next latch
    makes it pending. *)
Theorem plic_complete_rearms p context n : plic_u32 p -> 0 <= n < 32 ->
  Z.testbit (ie_at p context) n = true -> Z.testbit (active p) n = true ->
  Z.testbit (ip (plic_latch (plic_complete p context n))) n = true.
Proof.
  intros Hu Hn Hie Ha. unfold plic_complete.
  assert (E : nz (Z.land (ie_at p context) (bit32 n)) = true).
  { apply nz_spec. intros H0. pose proof (Z.bits_0 n) as Hb. rewrite <- H0 in Hb.
    rewrite Z.land_spec, Hie, bit32_testbit, Z.eqb_refl in Hb by lia. done. }
  rewrite E. unfold plic_latch. cbn.
  rewrite Z.lor_spec, Z.land_spec, Ha, testbit_not32, clear_bit, Z.eqb_refl;
    try lia; try apply Hu.
  apply land_is_u32_l; [apply Hu|apply u32_range].
Qed.

Lemma plic_complete_rearms_witness :
  Z.testbit (ip (plic_latch (plic_complete (mk_plic 2 0 (2 :: replicate 31 0) 2) 0 1))) 1 = true.
Proof.
  apply plic_complete_rearms; [|lia|reflexivity|reflexivity].
  unfold plic_u32. split_and!;
    first [apply is_u32b_true; vm_compute; reflexivity | apply Forall_u32b; vm_compute; reflexivity].
Defined.

(** The standard layout: the enables of context [c] are the word
    [0x800 + 0x20 c], its claim register is [0x80001 + 0x400 c]. *)
Definition enable_word (c : Z) : Z := 0x800 + 0x20 * c.
Definition claim_word (c : Z) : Z := 0x80001 + 0x400 * c.

(** The register decoder serves context 0 only. It maps the enable and
    claim registers of context 0 to context 0, but the enable word of context 1
    to context 0 as well, and the claim register of context 2 to context 0: the
    second hart's driver overwrites the enables of the first, and its claim,
    which is decoded to context 1, finds no source enabled. *)
Theorem plic_context_alias p v :
  plic_context (enable_word 0) = 0 /\ plic_context (claim_word 0) = 0 /\
  plic_reg_write p (enable_word 1) v = plic_reg_write p (enable_word 0) v /\
  plic_context (claim_word 1) = 1 /\ plic_context (claim_word 2) = 0.
Proof. split_and!; reflexivity. Qed.
