(* ===== verification/Aclint.v ===== *)
(** * The ACLINT: timer and software interrupts (aclint.c)

    [hart] is the hart the C function is called with. A read leaves [*value]
    unassigned when it fails. *)

From stdpp Require Import base gmap list.
From Stdlib Require Import ZArith Lia Bool.
From S2P Require Import Prelude Bits Isa Hart Machine Loops Device Timer Plic.
Open Scope Z_scope.

(** [sip |= bit; in_wfi = false] or [sip &= ~bit]. *)
Definition set_pending (cond : bool) (bit : Z) (h : hart_t) : hart_t :=
  if cond then h <| sip := Z.lor (sip h) bit |> <| in_wfi := false |>
  else h <| sip := Z.land (sip h) (not32 bit) |>.

(** [v >>= RV_MEM_SW - width] and [v << (RV_MEM_SW - width)] on 32-bit values;
    the count, negative for the unsigned load widths, is taken modulo 32. *)
Definition width_shift (width : Z) : Z := (RV_MEM_SW - width) mod 32.
Definition shift_down (width : Z) (v : option Z) : option Z :=
  match v with Some v => Some (Z.shiftr v (width_shift width)) | None => None end.
Definition shift_up (width v : Z) : Z := shl32 v (width_shift width).

(** [addr & 0x4 ? 32 : 0] *)
Definition half_shift (addr : Z) : Z := if nz (Z.land addr 4) then 32 else 0.

(** Replace the upper or lower half of a 64-bit register. *)
(* [aclint.c:67-70] *)
Definition set_half (addr old value : Z) : Z :=
  if nz (Z.land addr 4) then Z.lor (Z.land old 0xFFFFFFFF) (Z.shiftl value 32)
  else Z.lor (Z.land old 0xFFFFFFFF00000000) value.

Section Aclint.
Context {E : Type} `{HostE : Host E}.
Abbreviation M := (machine (emu_state_t E)).
Implicit Types s : M.

Definition on_mtimer (f : mtimer_state_t -> mtimer_state_t) s : M :=
  on_dev (fun d => d <| mtimer := f (mtimer d) |>) s.

Definition fault (ok : bool) (cause : Z) s : M :=
  if ok then s else raise cause (exc_val (hart s)) s.

(* [aclint.c:7-16] aclint_mtimer_update_interrupts *)
Definition aclint_mtimer_update_interrupts s : M :=
  let '(t, s) := semu_timer_get (mtime (mtimer (dev s))) s in
  let cmp := arr_get 0 (mtimecmp (mtimer (dev s))) (mhartid (hart s)) in
  on_hart (set_pending (cmp <=? t) RV_INT_STI_BIT) s.

(* [aclint.c:18-47] aclint_mtimer_reg_read *)
Definition aclint_mtimer_reg_read (addr : Z) s : option Z * M :=
  if addr <? 0x7FF8 then
    if mtimer_n_hart (mtimer (dev s)) <=? Z.shiftr addr 3 then (None, s)
    else (Some (u32 (Z.shiftr (arr_get 0 (mtimecmp (mtimer (dev s))) (Z.shiftr addr 3))
                       (half_shift addr))), s)
  else if addr <? 0x8000 then
    let '(t, s) := semu_timer_get (mtime (mtimer (dev s))) s in
    (Some (u32 (Z.shiftr t (half_shift addr))), s)
  else (None, s).

(* [aclint.c:49-89] aclint_mtimer_reg_write *)
Definition aclint_mtimer_reg_write (addr value : Z) s : bool * M :=
  if addr <? 0x7FF8 then
    if mtimer_n_hart (mtimer (dev s)) <=? Z.shiftr addr 3 then (false, s)
    else
      let i := Z.shiftr addr 3 in
      let cmp_val := set_half addr (arr_get 0 (mtimecmp (mtimer (dev s))) i) value in
      (true, on_mtimer (fun m => m <| mtimecmp := arr_set (mtimecmp m) i cmp_val |>) s)
  else if addr <? 0x8000 then
    let mtime_val := set_half addr (begin (mtime (mtimer (dev s)))) value in
    let '(tm, s) := semu_timer_rebase (mtime (mtimer (dev s))) mtime_val s in
    (true, on_mtimer (fun m => m <| mtime := tm |>) s)
  else (false, s).

Definition is_some {A} (o : option A) : bool := match o with Some _ => true | None => false end.

(* [aclint.c:91-101] aclint_mtimer_read *)
Definition aclint_mtimer_read (addr width : Z) s : option Z * M :=
  let '(v, s) := aclint_mtimer_reg_read addr s in
  (shift_down width v, fault (is_some v) RV_EXC_LOAD_FAULT s).

(* [aclint.c:103-111] aclint_mtimer_write *)
Definition aclint_mtimer_write (addr width value : Z) s : M :=
  let '(ok, s) := aclint_mtimer_reg_write addr (shift_up width value) s in
  fault ok RV_EXC_STORE_FAULT s.

(* [aclint.c:114-123] aclint_mswi_update_interrupts *)
Definition aclint_mswi_update_interrupts s : M :=
  on_hart (set_pending (nz (arr_get 0 (msip (mswi (dev s))) (mhartid (hart s)))) RV_INT_SSI_BIT) s.

(* [aclint.c:125-142] aclint_mswi_reg_read *)
Definition aclint_mswi_reg_read (m : mswi_state_t) (addr : Z) : option Z :=
  if addr <? 0x4000 then
    if mswi_n_hart m <=? Z.shiftr addr 2 then None else Some (arr_get 0 (msip m) (Z.shiftr addr 2))
  else None.

(* [aclint.c:144-155] aclint_mswi_reg_write *)
Definition aclint_mswi_reg_write (m : mswi_state_t) (addr value : Z) : option mswi_state_t :=
  if addr <? 0x4000 then
    if mswi_n_hart m <=? Z.shiftr addr 2 then None
    else Some (m <| msip := arr_set (msip m) (Z.shiftr addr 2) (Z.land value 1) |>)
  else None.

(* [aclint.c:157-167] aclint_mswi_read *)
Definition aclint_mswi_read (addr width : Z) s : option Z * M :=
  let v := aclint_mswi_reg_read (mswi (dev s)) addr in
  (shift_down width v, fault (is_some v) RV_EXC_LOAD_FAULT s).

(* [aclint.c:169-177] aclint_mswi_write *)
Definition aclint_mswi_write (addr width value : Z) s : M :=
  match aclint_mswi_reg_write (mswi (dev s)) addr (shift_up width value) with
  | Some m => on_dev (fun d => d <| mswi := m |>) s
  | None => raise RV_EXC_STORE_FAULT (exc_val (hart s)) s
  end.

(* [aclint.c:180-189] aclint_sswi_update_interrupts *)
Definition aclint_sswi_update_interrupts s : M :=
  on_hart (set_pending (nz (arr_get 0 (ssip (sswi (dev s))) (mhartid (hart s)))) RV_INT_SSI_BIT) s.

(* [aclint.c:191-203] aclint_sswi_reg_read *)
Definition aclint_sswi_reg_read (m : sswi_state_t) (addr : Z) : option Z :=
  if addr <? 0x4000 then if sswi_n_hart m <=? Z.shiftr addr 2 then None else Some 0 else None.

(* [aclint.c:205-216] aclint_sswi_reg_write *)
Definition aclint_sswi_reg_write (m : sswi_state_t) (addr value : Z) : option sswi_state_t :=
  if addr <? 0x4000 then
    if sswi_n_hart m <=? Z.shiftr addr 2 then None
    else Some (m <| ssip := arr_set (ssip m) (Z.shiftr addr 2) (Z.land value 1) |>)
  else None.

(* [aclint.c:218-228] aclint_sswi_read *)
Definition aclint_sswi_read (addr width : Z) s : option Z * M :=
  let v := aclint_sswi_reg_read (sswi (dev s)) addr in
  (shift_down width v, fault (is_some v) RV_EXC_LOAD_FAULT s).

(* [aclint.c:230-238] aclint_sswi_write *)
Definition aclint_sswi_write (addr width value : Z) s : M :=
  match aclint_sswi_reg_write (sswi (dev s)) addr (shift_up width value) with
  | Some m => on_dev (fun d => d <| sswi := m |>) s
  | None => raise RV_EXC_STORE_FAULT (exc_val (hart s)) s
  end.
End Aclint.

(** ** The 64-bit compare registers through a 32-bit bus *)

Lemma set_half_low (i old v : Z) : 0 <= old < 2 ^ 64 -> is_u32 v ->
  set_half (8 * i) old v = old / 2 ^ 32 * 2 ^ 32 + v.
Proof.
  intros Ho Hv. unfold set_half.
  assert (E : Z.land (8 * i) 4 = 0).
  { change 8 with (2 ^ 3). rewrite Z.mul_comm, <- Z.shiftl_mul_pow2 by lia.
    apply Z.bits_inj'. intros n Hn. rewrite Z.land_spec, Z.bits_0, Z.shiftl_spec by lia.
    destruct (Z.eq_dec n 2) as [->|Hne]; [done|].
    change 4 with (2 ^ 2). rewrite (Z.pow2_bits_false 2 n) by lia. apply andb_false_r. }
  rewrite E. cbn [nz].
  replace (old / 2 ^ 32 * 2 ^ 32) with (Z.land old 0xFFFFFFFF00000000).
  2:{ rewrite <- Z.shiftl_mul_pow2, <- Z.shiftr_div_pow2 by lia. bits. }
  rewrite <- Z.add_lor_land.
  assert (L : Z.land (Z.land old 0xFFFFFFFF00000000) v = 0) by (unfold is_u32 in Hv; bits).
  unfold nz. cbn. lia.
Qed.

Lemma set_half_high (i old v : Z) : 0 <= old < 2 ^ 64 -> is_u32 v ->
  set_half (8 * i + 4) old v = v * 2 ^ 32 + old mod 2 ^ 32.
Proof.
  intros Ho Hv. unfold set_half.
  assert (E : nz (Z.land (8 * i + 4) 4) = true).
  { unfold nz. apply negb_true_iff, Z.eqb_neq. intros H0.
    pose proof (Z.bits_0 2) as Hb. rewrite <- H0, Z.land_spec in Hb.
    change (Z.testbit 4 2) with true in Hb. rewrite andb_true_r in Hb.
    apply Z.testbit_false in Hb; [|lia].
    change (2 ^ 2) with 4 in Hb. revert Hb. Z.div_mod_to_equations. lia. }
  rewrite E.
  replace (old mod 2 ^ 32) with (Z.land old 0xFFFFFFFF) by exact (Z.land_ones old 32 ltac:(lia)).
  rewrite <- Z.shiftl_mul_pow2 by lia. rewrite Z.add_comm, <- Z.add_lor_land.
  assert (L : Z.land (Z.land old 0xFFFFFFFF) (Z.shiftl v 32) = 0) by (unfold is_u32 in Hv; bits).
  lia.
Qed.

Lemma half_shift_low i : half_shift (8 * i) = 0.
Proof.
  pose proof (set_half_low i 0 1 ltac:(lia) ltac:(unfold is_u32; lia)) as H.
  unfold set_half in H. unfold half_shift. destruct (nz _); [|done]. discriminate H.
Qed.

Lemma half_shift_high i : half_shift (8 * i + 4) = 32.
Proof.
  pose proof (set_half_high i 0 1 ltac:(lia) ltac:(unfold is_u32; lia)) as H'.
  unfold set_half in H'. unfold half_shift. destruct (nz _); [done|]. discriminate H'.
Qed.

Lemma shiftr_8i (i k : Z) : 0 <= k < 8 -> Z.shiftr (8 * i + k) 3 = i.
Proof. intros Hk. rewrite Z.shiftr_div_pow2 by lia. change (2 ^ 3) with 8. Z.div_mod_to_equations. lia. Qed.

Section AclintProps.
Context {E : Type} `{HostE : Host E}.
Abbreviation M := (machine (emu_state_t E)).
Implicit Types s : M.

(** The compare registers are 64-bit words, one per hart, all inside the window. *)
Definition mtimer_ok (m : mtimer_state_t) : Prop :=
  mtimer_n_hart m = Z.of_nat (length (mtimecmp m)) /\ mtimer_n_hart m <= 32 /\
  Forall (fun c => 0 <= c < 2 ^ 64) (mtimecmp m).

Definition cmp_at s (i : Z) : Z := arr_get 0 (mtimecmp (mtimer (dev s))) i.

Lemma mtimer_write_word i k v s : mtimer_ok (mtimer (dev s)) ->
  0 <= i < mtimer_n_hart (mtimer (dev s)) -> 0 <= k < 8 -> is_u32 v ->
  aclint_mtimer_write (8 * i + k) RV_MEM_SW v s =
  on_mtimer (fun m => m <| mtimecmp := arr_set (mtimecmp m) i (set_half (8 * i + k) (cmp_at s i) v) |>) s.
Proof.
  intros (Hn & Hmax & _) Hi Hk Hv. unfold aclint_mtimer_write, aclint_mtimer_reg_write, cmp_at.
  assert (Hs : shift_up RV_MEM_SW v = v).
  { unfold shift_up, width_shift. change ((RV_MEM_SW - RV_MEM_SW) mod 32) with 0.
    unfold shl32. rewrite Z.shiftl_0_r. by apply u32_id. }
  rewrite Hs, shiftr_8i by lia.
  destruct (Z.ltb_spec (8 * i + k) 0x7FF8); [|lia].
  destruct (Z.leb_spec (mtimer_n_hart (mtimer (dev s))) i); [lia|]. reflexivity.
Qed.

Lemma mtimer_read_word i k s : 0 <= i < mtimer_n_hart (mtimer (dev s)) ->
  mtimer_n_hart (mtimer (dev s)) <= 32 -> 0 <= k < 8 ->
  aclint_mtimer_read (8 * i + k) RV_MEM_LW s =
  (Some (u32 (Z.shiftr (cmp_at s i) (half_shift (8 * i + k)))), s).
Proof.
  intros Hi Hmax Hk. unfold aclint_mtimer_read, aclint_mtimer_reg_read, cmp_at.
  rewrite shiftr_8i by lia. destruct (Z.ltb_spec (8 * i + k) 0x7FF8); [|lia].
  destruct (Z.leb_spec (mtimer_n_hart (mtimer (dev s))) i); [lia|].
  cbn [is_some fault shift_down]. change (width_shift RV_MEM_LW) with 0.
  by rewrite Z.shiftr_0_r.
Qed.

Lemma cmp_range s i : mtimer_ok (mtimer (dev s)) -> 0 <= cmp_at s i < 2 ^ 64.
Proof.
  intros (_ & _ & H). apply (arr_get_Forall (fun c => 0 <= c < 2 ^ 64)); [lia|exact H].
Qed.

(** Programming a compare register round-trips. For every hart of the
    machine, storing the low and the high word of a 64-bit deadline through the
    32-bit registers leaves exactly that deadline in the hart's [mtimecmp],
    raises nothing, changes no other hart's register, and both words read back. *)
Theorem mtimecmp_roundtrip s i lo hi : mtimer_ok (mtimer (dev s)) ->
  0 <= i < mtimer_n_hart (mtimer (dev s)) -> is_u32 lo -> is_u32 hi ->
  let s' := aclint_mtimer_write (8 * i + 4) RV_MEM_SW hi (aclint_mtimer_write (8 * i) RV_MEM_SW lo s) in
  cmp_at s' i = hi * 2 ^ 32 + lo /\ hart s' = hart s /\
  (forall j, 0 <= j -> j <> i -> cmp_at s' j = cmp_at s j) /\
  fst (aclint_mtimer_read (8 * i) RV_MEM_LW s') = Some lo /\
  fst (aclint_mtimer_read (8 * i + 4) RV_MEM_LW s') = Some hi.
Proof.
  intros Hok Hi Hlo Hhi. pose proof (cmp_range s i Hok) as Hc. cbv zeta.
  pose proof (mtimer_write_word i 0 lo s Hok Hi ltac:(lia) Hlo) as W.
  rewrite Z.add_0_r in W. rewrite W, set_half_low by done. clear W.
  set (c1 := cmp_at s i / 2 ^ 32 * 2 ^ 32 + lo).
  set (s1 := on_mtimer _ s).
  assert (Hc1 : 0 <= c1 < 2 ^ 64).
  { unfold c1. unfold is_u32 in Hlo. Z.div_mod_to_equations. lia. }
  destruct Hok as (Hn & Hmax & Hall).
  assert (Hok1 : mtimer_ok (mtimer (dev s1))).
  { split; [cbn; by rewrite length_arr_set|]. split; [done|]. by apply Forall_insert. }
  assert (E1 : cmp_at s1 i = c1) by (unfold cmp_at; cbn; apply arr_get_set_eq; lia).
  rewrite mtimer_write_word by (done || lia). rewrite E1, set_half_high by done.
  assert (Hv : hi * 2 ^ 32 + c1 mod 2 ^ 32 = hi * 2 ^ 32 + lo).
  { f_equal. unfold c1. rewrite Z.add_comm, Z_mod_plus_full. by apply Z.mod_small. }
  rewrite Hv. set (s2 := on_mtimer _ s1).
  assert (E2 : cmp_at s2 i = hi * 2 ^ 32 + lo).
  { unfold cmp_at. cbn. rewrite arr_get_set_eq; [done|rewrite length_arr_set; lia]. }
  unfold is_u32 in *. split_and!; [exact E2|done| | |].
  - intros j Hj Hne. unfold cmp_at. cbn. rewrite !arr_get_set_ne by lia. done.
  - pose proof (mtimer_read_word i 0 s2 Hi Hmax ltac:(lia)) as W. rewrite Z.add_0_r in W.
    rewrite W, half_shift_low, E2, Z.shiftr_0_r. cbn [fst]. f_equal.
    unfold u32. rewrite Z.add_comm, Z_mod_plus_full. apply Z.mod_small. lia.
  - rewrite mtimer_read_word by (done || lia).
    rewrite half_shift_high, E2, Z.shiftr_div_pow2 by lia. cbn [fst]. f_equal.
    unfold u32. rewrite Z.div_add_l by lia. rewrite (Z.div_small lo) by lia.
    rewrite Z.add_0_r. apply Z.mod_small. lia.
Qed.
End AclintProps.
