(* ===== verification/Uart.v ===== *)
(** * The serial port (uart.c)

    An 8250 without FIFO in front of the host's standard input and output.
    [capture_keyboard_input] and [reset_keyboard_input] only change the host
    terminal's mode and are not modelled. *)

From stdpp Require Import base gmap list.
From Stdlib Require Import ZArith Lia Bool.
From S2P Require Import Prelude Isa Hart Machine Loops Device Timer.
Open Scope Z_scope.

(* [uart.c:33-33] *)
Definition U8250_INT_THRE := 1.

(** [sizeof(uart->out_buf)] *)
Definition OUT_BUF_SIZE := 128.

(* [uart.c:56-71] u8250_update_interrupts *)
Definition u8250_update_interrupts (u : u8250_state_t) : u8250_state_t :=
  let u := if in_ready u then u <| pending_ints := Z.lor (pending_ints u) 1 |>
           else u <| pending_ints := Z.land (pending_ints u) (not32 1) |> in
  let u := u <| pending_ints := Z.land (pending_ints u) (ier u) |> in
  if nz (pending_ints u) then u <| current_int := ilog2 (pending_ints u) |> else u.

(** The bytes [out_buf[from .. len)]. *)
Definition buf_slice (u : u8250_state_t) (from : Z) : list Z :=
  drop (Z.to_nat from) (take (Z.to_nat (out_buf_len u)) (out_buf u)).

Section Uart.
Context {E : Type} `{HostE : Host E} {CoroE : Coro E}.
Abbreviation M := (machine (emu_state_t E)).
Implicit Types s : M.

Definition on_uart (f : u8250_state_t -> u8250_state_t) s : M :=
  on_dev (fun d => d <| uart := f (uart d) |>) s.

(* [uart.c:73-82] u8250_check_ready *)
Definition u8250_check_ready s : M :=
  if in_ready (uart (dev s)) then s
  else
    let '(readable, s) := on_host poll_in s in
    if readable then on_uart (fun u => u <| in_ready := true |>) s else s.

(** The [while (written < uart->out_buf_len)] loop; [fuel] bounds its
    iterations, each of which writes at least one byte or leaves the loop. *)
(* [uart.c:87-98] *)
Fixpoint flush_loop (fuel : nat) (written : Z) (u : u8250_state_t) (e : E) : Z * E :=
  match fuel with
  | O => (written, e)
  | S fuel =>
      if written <? out_buf_len u then
        let '(n, e) := sys_write (buf_slice u written) e in
        if n <=? 0 then (written, e) else flush_loop fuel (u8 (written + n)) u e
      else (written, e)
  end.

(* [uart.c:99-104] *)
Definition drop_written (written : Z) (u : u8250_state_t) : u8250_state_t :=
  if written <? out_buf_len u then
    let len := u8 (out_buf_len u - written) in
    let rest := take (Z.to_nat len) (drop (Z.to_nat written) (out_buf u)) in
    u <| out_buf_len := len |> <| out_buf := rest ++ drop (Z.to_nat len) (out_buf u) |>
  else u <| out_buf_len := 0 |>.

(* [uart.c:84-105] u8250_flush_out *)
Definition flush_out (u : u8250_state_t) (e : E) : u8250_state_t * E :=
  let '(written, e) := flush_loop (Z.to_nat (out_buf_len u)) 0 u e in
  (drop_written written u, e).

(** A uart operation that also talks to the host. *)
Definition on_uart_host (f : u8250_state_t -> E -> u8250_state_t * E) s : M :=
  let '(u, e) := f (uart (dev s)) (host (dev s)) in
  on_dev (fun d => d <| uart := u |> <| host := e |>) s.

(* [uart.c:84-105] u8250_flush_out *)
Definition u8250_flush_out s : M := on_uart_host flush_out s.

(* [uart.c:114-115] *)
Definition flush_trigger (value : Z) : bool :=
  (value =? 10) || (value =? 13) || (value =? 58) || (value =? 35) || (value =? 36).

(* [uart.c:107-117] u8250_handle_out *)
Definition handle_out (value : Z) (u : u8250_state_t) (e : E) : u8250_state_t * E :=
  let '(u, e) := if OUT_BUF_SIZE <=? out_buf_len u then flush_out u e else (u, e) in
  if OUT_BUF_SIZE <=? out_buf_len u then (u, e)
  else
    let u := u <| out_buf := arr_set (out_buf u) (out_buf_len u) value |>
               <| out_buf_len := u8 (out_buf_len u + 1) |> in
    if flush_trigger value then flush_out u e else (u, e).

Definition u8250_handle_out (value : Z) s : M := on_uart_host (handle_out value) s.

(* [uart.c:124-143] u8250_wait_for_input *)
Definition u8250_wait_for_input s : M :=
  let hart_id := coro_current_hart_id (host (dev s)) in
  if hart_id =? 0xFFFFFFFF then s
  else
    let s := on_uart (fun u => u <| waiting_hart_id := hart_id |> <| has_waiting_hart := true |>) s in
    let s := coro_yield s in
    on_uart (fun u => u <| has_waiting_hart := false |> <| waiting_hart_id := 0xFFFFFFFF |>) s.

(** The part of [u8250_handle_in] that follows the wait. *)
(* [uart.c:167-179] *)
Definition read_input s : Z * M :=
  let '(b, s) := on_host read_byte s in
  let value := u8 (default 0 b) in
  let s := on_uart (fun u => u <| in_ready := false |>) s in
  let s := u8250_check_ready s in
  if value =? 1 then
    let '(c, s) := on_host getchar s in
    (value, if c =? 120 then on_dev (fun d => d <| host := sys_exit (host d) |>) s else s)
  else (value, s).

(* [uart.c:145-180] u8250_handle_in *)
Definition u8250_handle_in s : Z * M :=
  let s := u8250_flush_out s in
  let s := u8250_check_ready s in
  if negb (in_ready (uart (dev s))) then
    let s := u8250_wait_for_input s in
    let s := u8250_check_ready s in
    if negb (in_ready (uart (dev s))) then (0, s) else read_input s
  else read_input s.

(** [uart->lcr & (1 << 7)] *)
Definition dlab (u : u8250_state_t) : bool := nz (Z.land (lcr u) 128).

(* [uart.c:182-222] u8250_reg_read *)
Definition u8250_reg_read (addr : Z) s : Z * M :=
  let u := uart (dev s) in
  match addr with
  | 0 => if dlab u then (dll u, s) else u8250_handle_in s
  | 1 => if dlab u then (dlh u, s) else (ier u, s)
  | 2 => (u8 (Z.lor (Z.shiftl (current_int u) 1) (if nz (pending_ints u) then 0 else 1)),
          if current_int u =? U8250_INT_THRE
          then on_uart (fun u => u <| pending_ints :=
                 Z.land (pending_ints u) (not32 (Z.shiftl 1 (current_int u))) |>) s
          else s)
  | 3 => (lcr u, s)
  | 4 => (mcr u, s)
  | 5 => (Z.lor 0x60 (b2z (in_ready u)), s)
  | 6 => (0xb0, s)
  | _ => (0, s)
  end.

(* [uart.c:224-249] u8250_reg_write *)
Definition u8250_reg_write (addr value : Z) s : M :=
  let u := uart (dev s) in
  match addr with
  | 0 => if dlab u then on_uart (fun u => u <| dll := value |>) s
         else
           let s := u8250_handle_out value s in
           on_uart (fun u => u <| pending_ints := Z.lor (pending_ints u) (Z.shiftl 1 U8250_INT_THRE) |>) s
  | 1 => if dlab u then on_uart (fun u => u <| dlh := value |>) s
         else on_uart (fun u => u <| ier := value |>) s
  | 3 => on_uart (fun u => u <| lcr := value |>) s
  | 4 => on_uart (fun u => u <| mcr := value |>) s
  | _ => s
  end.

(* [uart.c:251-276] u8250_read *)
Definition u8250_read (addr width : Z) s : option Z * M :=
  if width =? RV_MEM_LBU then let '(v, s) := u8250_reg_read addr s in (Some v, s)
  else if width =? RV_MEM_LB then let '(v, s) := u8250_reg_read addr s in (Some (u32 (s8 v)), s)
  else if (width =? RV_MEM_LW) || (width =? RV_MEM_LHU) || (width =? RV_MEM_LH)
  then (None, raise RV_EXC_LOAD_MISALIGN (exc_val (hart s)) s)
  else (None, raise RV_EXC_ILLEGAL_INSN 0 s).

(* [uart.c:278-296] u8250_write *)
Definition u8250_write (addr width value : Z) s : M :=
  if width =? RV_MEM_SB then u8250_reg_write addr (u8 value) s
  else if (width =? RV_MEM_SW) || (width =? RV_MEM_SH)
  then raise RV_EXC_STORE_MISALIGN (exc_val (hart s)) s
  else raise RV_EXC_ILLEGAL_INSN 0 s.
End Uart.
