(* ===== verification/UartProps.v ===== *)
(** * Serial output is a queue

    Bytes the guest transmits reach the host in order, without loss and without
    duplication, as long as the host accepts output; the 128-byte buffer is
    never overrun. *)

From stdpp Require Import base gmap list.
From Stdlib Require Import ZArith Lia Bool.
From S2P Require Import Prelude Isa Hart Machine Loops Device Timer Uart.
Open Scope Z_scope.

(** What [write(2)] promises: it accepts a prefix of what it is given, and what
    it accepted is appended to the output. *)
Class HostWrite (E : Type) `{Host E} := {
  sent : E -> list Z;
  write_bound : forall l e, fst (sys_write l e) <= Z.of_nat (length l);
  write_sent : forall l e, sent (snd (sys_write l e)) = sent e ++ take (Z.to_nat (fst (sys_write l e))) l }.

Definition uart_ok (u : u8250_state_t) : Prop :=
  length (out_buf u) = Z.to_nat OUT_BUF_SIZE /\ 0 <= out_buf_len u <= OUT_BUF_SIZE.

(** The bytes accepted from the guest and not yet written. *)
Definition buffered (u : u8250_state_t) : list Z := take (Z.to_nat (out_buf_len u)) (out_buf u).

Section Props.
Context {E : Type} `{HostE : Host E} {W : HostWrite E}.

Lemma buffered_length u : uart_ok u -> length (buffered u) = Z.to_nat (out_buf_len u).
Proof.
  intros [Hl Hr]. unfold buffered. rewrite length_take, Hl. change OUT_BUF_SIZE with 128 in *. lia.
Qed.

Lemma buf_slice_eq u w : buf_slice u w = drop (Z.to_nat w) (buffered u).
Proof. reflexivity. Qed.

Lemma flush_loop_spec fuel w u e w' e' : uart_ok u -> 0 <= w <= out_buf_len u ->
  flush_loop fuel w u e = (w', e') ->
  w <= w' <= out_buf_len u /\
  sent e' ++ drop (Z.to_nat w') (buffered u) = sent e ++ drop (Z.to_nat w) (buffered u).
Proof.
  intros Hu. revert w e. induction fuel as [|fuel IH]; intros w e Hw; cbn [flush_loop].
  { intros [= -> ->]. split; [lia|done]. }
  destruct (Z.ltb_spec w (out_buf_len u)) as [Hlt|]; [|intros [= -> ->]; split; [lia|done]].
  rewrite buf_slice_eq. set (l := drop (Z.to_nat w) (buffered u)).
  pose proof (write_bound l e) as Hb. pose proof (write_sent l e) as Hs.
  destruct (sys_write l e) as [n e1]. cbn [fst snd] in Hb, Hs.
  assert (Hl : Z.of_nat (length l) = out_buf_len u - w).
  { unfold l. rewrite length_drop, buffered_length by done. lia. }
  destruct (Z.leb_spec n 0) as [Hn|Hn].
  - intros [= -> ->]. split; [lia|]. rewrite Hs. replace (Z.to_nat n) with 0%nat by lia.
    cbn [take]. by rewrite app_nil_r.
  - destruct Hu as [Hl1 Hr]. change OUT_BUF_SIZE with 128 in Hr.
    assert (Hu8 : u8 (w + n) = w + n) by (unfold u8; apply Z.mod_small; lia). rewrite Hu8.
    intros Hf. destruct (IH (w + n) e1) as [Hw' Hsent]; [lia|done|]. split; [lia|].
    rewrite Hsent, Hs, <- app_assoc. f_equal. rewrite <- (take_drop (Z.to_nat n) l) at 2.
    f_equal. unfold l. rewrite drop_drop. f_equal. lia.
Qed.

(** The loop never runs out of fuel: any larger bound gives the same result. *)
Lemma flush_loop_fuel f1 f2 w u e : uart_ok u -> 0 <= w <= out_buf_len u ->
  (Z.to_nat (out_buf_len u - w) <= f1)%nat -> (Z.to_nat (out_buf_len u - w) <= f2)%nat ->
  flush_loop f1 w u e = flush_loop f2 w u e.
Proof.
  intros Hu. revert f2 w e. induction f1 as [|f1 IH]; intros f2 w e Hw H1 H2.
  { assert (w = out_buf_len u) as -> by lia. destruct f2; [done|]. cbn [flush_loop].
    by rewrite Z.ltb_irrefl. }
  destruct f2 as [|f2].
  { assert (w = out_buf_len u) as -> by lia. cbn [flush_loop]. by rewrite Z.ltb_irrefl. }
  cbn [flush_loop]. destruct (Z.ltb_spec w (out_buf_len u)) as [Hlt|]; [|done].
  rewrite buf_slice_eq. set (l := drop (Z.to_nat w) (buffered u)).
  pose proof (write_bound l e) as Hb. destruct (sys_write l e) as [n e1]. cbn [fst] in Hb.
  destruct (Z.leb_spec n 0); [done|].
  assert (Hl : Z.of_nat (length l) = out_buf_len u - w).
  { unfold l. rewrite length_drop, buffered_length by done. lia. }
  destruct Hu as [Hl1 Hr]. change OUT_BUF_SIZE with 128 in Hr.
  assert (Hu8 : u8 (w + n) = w + n) by (unfold u8; apply Z.mod_small; lia). rewrite Hu8.
  apply IH; lia.
Qed.

Lemma drop_written_spec w u : uart_ok u -> 0 <= w <= out_buf_len u ->
  uart_ok (drop_written w u) /\ buffered (drop_written w u) = drop (Z.to_nat w) (buffered u) /\
  out_buf_len (drop_written w u) <= out_buf_len u.
Proof.
  intros [Hl Hr] Hw. change OUT_BUF_SIZE with 128 in *. unfold drop_written.
  destruct (Z.ltb_spec w (out_buf_len u)) as [Hlt|Hge].
  - assert (Hu8 : u8 (out_buf_len u - w) = out_buf_len u - w) by (unfold u8; apply Z.mod_small; lia).
    rewrite Hu8.
    assert (Hlen : length (take (Z.to_nat (out_buf_len u - w)) (drop (Z.to_nat w) (out_buf u)))
                   = Z.to_nat (out_buf_len u - w)).
    { rewrite length_take, length_drop, Hl. lia. }
    split_and!.
    + split; cbn [out_buf out_buf_len setter set_out_buf set_out_buf_len].
      * rewrite length_app, Hlen, length_drop, Hl. change OUT_BUF_SIZE with 128. lia.
      * change OUT_BUF_SIZE with 128. lia.
    + unfold buffered. cbn [out_buf out_buf_len setter set_out_buf set_out_buf_len].
      rewrite take_app_le by (rewrite Hlen; done).
      rewrite take_ge by (rewrite Hlen; done).
      rewrite take_drop_commute. do 2 f_equal. lia.
    + cbn. lia.
  - split_and!; [split; cbn; [done|change OUT_BUF_SIZE with 128; lia]| |cbn; lia].
    unfold buffered. cbn. symmetry. apply drop_ge. rewrite length_take. lia.
Qed.

Lemma flush_out_spec u e u' e' : uart_ok u -> flush_out u e = (u', e') ->
  uart_ok u' /\ sent e' ++ buffered u' = sent e ++ buffered u /\ out_buf_len u' <= out_buf_len u.
Proof.
  intros Hu. unfold flush_out.
  destruct (flush_loop _ 0 u e) as [w e1] eqn:E1. intros [= <- <-].
  destruct (flush_loop_spec _ 0 u e w e1 Hu ltac:(destruct Hu; lia) E1) as [Hw Hs].
  destruct (drop_written_spec w u Hu ltac:(lia)) as (Hok & Hb & Hle).
  split; [done|]. split; [|done]. rewrite Hb, Hs. done.
Qed.

(** Appending one byte to a buffer with room. *)
Lemma append_spec v u : uart_ok u -> out_buf_len u < OUT_BUF_SIZE ->
  let u' := u <| out_buf := arr_set (out_buf u) (out_buf_len u) v |>
              <| out_buf_len := u8 (out_buf_len u + 1) |> in
  uart_ok u' /\ buffered u' = buffered u ++ [v].
Proof.
  intros [Hl Hr] Hlt. change OUT_BUF_SIZE with 128 in *. cbv zeta.
  assert (Hu8 : u8 (out_buf_len u + 1) = out_buf_len u + 1) by (unfold u8; apply Z.mod_small; lia).
  rewrite Hu8. split.
  - split; cbn [out_buf out_buf_len setter set_out_buf set_out_buf_len].
    + by rewrite length_arr_set.
    + change OUT_BUF_SIZE with 128. lia.
  - unfold buffered, arr_set. cbn [out_buf out_buf_len setter set_out_buf set_out_buf_len].
    replace (Z.to_nat (out_buf_len u + 1)) with (S (Z.to_nat (out_buf_len u))) by lia.
    rewrite (take_S_r _ _ v) by (apply list_lookup_insert_eq; lia).
    by rewrite take_insert_ge by lia.
Qed.

(** Serial output is a queue. For every byte the guest transmits, whatever
    the host accepts per [write] call, the 128-byte buffer is not overrun and the
    bytes written so far followed by the bytes still buffered grow by exactly
    that byte at the end; the only exception is a full buffer the host refuses
    to take any part of, in which case the byte is dropped and nothing else
    changes in the stream. *)
Theorem uart_output_fifo v u e : uart_ok u ->
  let '(u', e') := handle_out v u e in
  uart_ok u' /\
  (sent e' ++ buffered u' = sent e ++ buffered u ++ [v] \/
   (out_buf_len u = OUT_BUF_SIZE /\ out_buf_len u' = OUT_BUF_SIZE /\
    sent e' ++ buffered u' = sent e ++ buffered u)).
Proof.
  intros Hu. unfold handle_out.
  assert (H1 : exists u1 e1,
    (if OUT_BUF_SIZE <=? out_buf_len u then flush_out u e else (u, e)) = (u1, e1) /\ uart_ok u1 /\
    sent e1 ++ buffered u1 = sent e ++ buffered u /\ out_buf_len u1 <= out_buf_len u).
  { destruct (OUT_BUF_SIZE <=? out_buf_len u); [|by exists u, e].
    destruct (flush_out u e) as [u1 e1] eqn:E1. exists u1, e1. split; [done|].
    by apply (flush_out_spec u e). }
  destruct H1 as (u1 & e1 & -> & Hu1 & Hs1 & Hle).
  destruct (Z.leb_spec OUT_BUF_SIZE (out_buf_len u1)) as [Hfull|Hroom].
  - split; [done|]. right. destruct Hu1 as [_ Hr1]. destruct Hu as [_ Hr].
    split; [lia|]. split; [lia|done].
  - destruct (append_spec v u1 Hu1 Hroom) as [Hu2 Hb2]. set (u2 := u1 <| out_buf := _ |> <| out_buf_len := _ |>) in *.
    assert (Hs2 : sent e1 ++ buffered u2 = sent e ++ buffered u ++ [v]).
    { rewrite Hb2, app_assoc, Hs1. by rewrite app_assoc. }
    destruct (flush_trigger v); [|by split; [|left]].
    destruct (flush_out u2 e1) as [u3 e3] eqn:E3.
    destruct (flush_out_spec _ _ _ _ Hu2 E3) as (Hu3 & Hs3 & _).
    split; [done|]. left. congruence.
Qed.
End Props.
