(* ===== verification/Virtio.v ===== *)
(** * What the virtio devices share

    virtio.h, the status handling each device repeats, and direct memory access:
    the devices address guest RAM through [ram[i]] (32-bit words) and through
    byte pointers [(uintptr_t) ram + addr]; an access outside RAM sets
    [ram_oob]. *)

From stdpp Require Import base gmap list.
From Stdlib Require Import ZArith Lia Bool.
From S2P Require Import Prelude Isa Hart Machine Loops Device.
Open Scope Z_scope.

(* [virtio.h:3-25] *)
Definition VIRTIO_VENDOR_ID := 0x12345678.
Definition VIRTIO_STATUS__DRIVER_OK := 4.
Definition VIRTIO_STATUS__DEVICE_NEEDS_RESET := 64.
Definition VIRTIO_INT__USED_RING := 1.
Definition VIRTIO_INT__CONF_CHANGE := 2.
Definition VIRTIO_DESC_F_NEXT := 1.
Definition VIRTIO_DESC_F_WRITE := 2.
Definition VIRTIO_BLK_T_IN := 0.
Definition VIRTIO_BLK_T_OUT := 1.
Definition VIRTIO_BLK_S_OK := 0.
Definition VIRTIO_BLK_S_IOERR := 1.
Definition VIRTIO_BLK_S_UNSUPP := 2.

(** [VIRTIO_##reg], the register offsets divided by four. *)
(* [virtio.h:75-111] VIRTIO_REG_LIST *)
Definition VIRTIO_MagicValue := Z.shiftr 0x000 2.
Definition VIRTIO_Version := Z.shiftr 0x004 2.
Definition VIRTIO_DeviceID := Z.shiftr 0x008 2.
Definition VIRTIO_VendorID := Z.shiftr 0x00c 2.
Definition VIRTIO_DeviceFeatures := Z.shiftr 0x010 2.
Definition VIRTIO_DeviceFeaturesSel := Z.shiftr 0x014 2.
Definition VIRTIO_DriverFeatures := Z.shiftr 0x020 2.
Definition VIRTIO_DriverFeaturesSel := Z.shiftr 0x024 2.
Definition VIRTIO_QueueSel := Z.shiftr 0x030 2.
Definition VIRTIO_QueueNumMax := Z.shiftr 0x034 2.
Definition VIRTIO_QueueNum := Z.shiftr 0x038 2.
Definition VIRTIO_QueueReady := Z.shiftr 0x044 2.
Definition VIRTIO_QueueNotify := Z.shiftr 0x050 2.
Definition VIRTIO_InterruptStatus := Z.shiftr 0x060 2.
Definition VIRTIO_InterruptACK := Z.shiftr 0x064 2.
Definition VIRTIO_Status := Z.shiftr 0x070 2.
Definition VIRTIO_QueueDescLow := Z.shiftr 0x080 2.
Definition VIRTIO_QueueDescHigh := Z.shiftr 0x084 2.
Definition VIRTIO_QueueDriverLow := Z.shiftr 0x090 2.
Definition VIRTIO_QueueDriverHigh := Z.shiftr 0x094 2.
Definition VIRTIO_QueueDeviceLow := Z.shiftr 0x0a0 2.
Definition VIRTIO_QueueDeviceHigh := Z.shiftr 0x0a4 2.
Definition VIRTIO_SHMSel := Z.shiftr 0x0ac 2.
Definition VIRTIO_SHMLenLow := Z.shiftr 0x0b0 2.
Definition VIRTIO_SHMLenHigh := Z.shiftr 0x0b4 2.
Definition VIRTIO_SHMBaseLow := Z.shiftr 0x0b8 2.
Definition VIRTIO_SHMBaseHigh := Z.shiftr 0x0bc 2.
Definition VIRTIO_ConfigGeneration := Z.shiftr 0x0fc 2.
Definition VIRTIO_Config := Z.shiftr 0x100 2.

(* [virtio.h:113-118] virtq_desc *)
Record virtq_desc := mk_desc { d_addr : Z; d_len : Z; d_flags : Z; d_next : Z }.

(* [common.h:32-33] RANGE_CHECK *)
Definition RANGE_CHECK (x minx size : Z) : bool :=
  0 <=? s32 (Z.lor (u32 (x - minx)) (u32 (minx + size - 1 - x))).

(** A queue, or a device, as [memset] to zero leaves it. *)
Definition zero_queue : virtq_t := mk_virtq 0 0 0 0 0 false.
Definition zero_virtio (nq : nat) : virtio_state := mk_virtio 0 0 0 0 (replicate nq zero_queue) 0 0.

Definition queue_at (d : virtio_state) (i : Z) : virtq_t := arr_get zero_queue (queues d) i.
Definition upd_queue (i : Z) (f : virtq_t -> virtq_t) (d : virtio_state) : virtio_state :=
  d <| queues := arr_set (queues d) i (f (queue_at d i)) |>.

(* [virtio-blk.c:92-97] virtio_blk_set_fail *)
Definition virtio_set_fail (d : virtio_state) : virtio_state :=
  let d := d <| Status := Z.lor (Status d) VIRTIO_STATUS__DEVICE_NEEDS_RESET |> in
  if nz (Z.land (Status d) VIRTIO_STATUS__DRIVER_OK)
  then d <| InterruptStatus := Z.lor (InterruptStatus d) VIRTIO_INT__CONF_CHANGE |> else d.

(* [virtio-blk.c:99-105] vblk_preprocess *)
Definition virtio_preprocess (d : virtio_state) (addr : Z) : Z * virtio_state :=
  if (RAM_SIZE <=? addr) || nz (Z.land addr 3) then (0, virtio_set_fail d) else (Z.shiftr addr 2, d).

(** Little-endian bytes of a value, and back. *)
Definition le_bytes (n : nat) (v : Z) : list Z := (fun k => Z.shiftr v (8 * Z.of_nat k) mod 2 ^ 8) <$> seq 0 n.
Fixpoint le_value (bytes : list Z) : Z :=
  match bytes with [] => 0 | b :: bytes => Z.lor b (Z.shiftl (le_value bytes) 8) end.

(** The descriptors of a chain in an array. *)
Definition zero_desc : virtq_desc := mk_desc 0 0 0 0.
Definition desc_at (vq_desc : list virtq_desc) (i : Z) : virtq_desc := arr_get zero_desc vq_desc i.

Section Dma.
Context {D : Type}.
Implicit Types s : machine D.

(** [ram[i]] read and written. *)
Definition ram_get (i : Z) s : Z * machine D := (rd32 s (4 * i), touch (4 * i) 4 s).
Definition ram_put (i v : Z) s : machine D := wr32 (4 * i) v s.

(** A byte stored through a pointer into RAM. *)
Definition wr8 (off v : Z) s : machine D :=
  (touch off 1 s) <| ram := <[off / 4 := lane_write RV_MEM_SB (rd32 s off) (8 * (off mod 4)) v]> (ram s) |>.

(** [memcpy(ram + off, bytes, n)] and [memcpy(buf, ram + off, n)]. *)
Fixpoint dma_write (off : Z) (bytes : list Z) s : machine D :=
  match bytes with
  | [] => s
  | b :: bytes => dma_write (off + 1) bytes (wr8 off b s)
  end.
Definition dma_read (off : Z) (n : nat) s : list Z * machine D :=
  ((fun k => rd8 s (off + Z.of_nat k)) <$> seq 0 n, touch off (Z.of_nat n) s).

(** Fields of a structure in guest memory, at any alignment; stores of fields and
    [memset(p, 0, n)]. *)
Definition fld32 s (off : Z) : Z := le_value (fst (dma_read off 4 s)).
Definition fld64 s (off : Z) : Z := le_value (fst (dma_read off 8 s)).
Definition put16 (off v : Z) s : machine D := dma_write off (le_bytes 2 v) s.
Definition put32 (off v : Z) s : machine D := dma_write off (le_bytes 4 v) s.
Definition put64 (off v : Z) s : machine D := dma_write off (le_bytes 8 v) s.
Definition g_memset0 (off n : Z) s : machine D := dma_write off (replicate (Z.to_nat n) 0) s.

(** The descriptor at [&ram[i]]. *)
Definition read_desc (i : Z) s : virtq_desc * machine D :=
  (mk_desc (Z.lor (rd32 s (4 * i)) (Z.shiftl (rd32 s (4 * i + 4)) 32)) (rd32 s (4 * i + 8))
     (u16 (rd32 s (4 * i + 12))) (Z.shiftr (rd32 s (4 * i + 12)) 16),
   touch (4 * i) 16 s).

(** [ram[QueueAvail + 1 + queue_idx / 2] >> (16 * (queue_idx % 2))], the
    descriptor index in the ring. *)
(* [virtio-blk.c:259-260] *)
Definition avail_entry (q : virtq_t) (queue_idx : Z) s : Z * machine D :=
  let '(w, s) := ram_get (u32 (QueueAvail q + 1 + queue_idx / 2)) s in
  (u16 (Z.shiftr w (16 * (queue_idx mod 2))), s).

(** Append an element to the used ring. *)
(* [virtio-blk.c:272-275] *)
Definition used_append (q : virtq_t) (used id len : Z) s : machine D :=
  let vq_used_addr := u32 (QueueUsed q + 1 + used mod QueueNum q * 2) in
  ram_put (u32 (vq_used_addr + 1)) len (ram_put vq_used_addr id s).

(** Publish the used index. *)
(* [virtio-blk.c:281-282] *)
Definition used_publish (q : virtq_t) (used : Z) s : machine D :=
  let '(w, s) := ram_get (QueueUsed q) s in
  let s := ram_put (QueueUsed q) (Z.land w (MASK 16)) s in
  let '(w, s) := ram_get (QueueUsed q) s in
  ram_put (QueueUsed q) (Z.lor w (shl32 used 16)) s.
End Dma.
