(* ===== verification/VirtioBlk.v ===== *)
(** * The block device (virtio-blk.c)

    Requests are chains of three descriptors in guest RAM; the disk image is a
    byte array in host memory. [virtio_blk_init] opens and maps the image and
    [virtio_blk_sync_all] flushes it: host I/O, not modelled beyond the initial
    capacity. *)

From stdpp Require Import base gmap list.
From Stdlib Require Import ZArith Lia Bool.
From S2P Require Import Prelude Isa Hart Machine Loops Device Virtio.
Open Scope Z_scope.

(* [virtio-blk.c:18-24] *)
Definition DISK_BLK_SIZE := 512.
Definition VBLK_FEATURES_0 := 0.
Definition VBLK_FEATURES_1 := 1.
Definition VBLK_QUEUE_NUM_MAX := 1024.

(** [sizeof(struct virtio_blk_config)] *)
(* [virtio-blk.c:29-58] virtio_blk_config *)
Definition VBLK_CONFIG_SIZE := 60.

(** [PRIV(vblk)->capacity], the first two words of the configuration. *)
Definition capacity (v : virtio_blk_state_t) : Z :=
  Z.lor (arr_get 0 (vblk_config v) 0) (Z.shiftl (arr_get 0 (vblk_config v) 1) 32).
Definition set_capacity (c : Z) (v : virtio_blk_state_t) : virtio_blk_state_t :=
  v <| vblk_config := arr_set (arr_set (vblk_config v) 0 (u32 c)) 1 (Z.shiftr c 32) |>.

Definition on_regs (f : virtio_state -> virtio_state) (v : virtio_blk_state_t) : virtio_blk_state_t :=
  v <| vblk_regs := f (vblk_regs v) |>.

(* [virtio-blk.c:92-97] virtio_blk_set_fail *)
Definition virtio_blk_set_fail : virtio_blk_state_t -> virtio_blk_state_t := on_regs virtio_set_fail.

(* [virtio-blk.c:107-123] virtio_blk_update_status *)
Definition virtio_blk_update_status (status : Z) (v : virtio_blk_state_t) : virtio_blk_state_t :=
  let v := on_regs (fun d => d <| Status := Z.lor (Status d) status |>) v in
  if nz status then v
  else
    let cap := u32 (capacity v) in
    set_capacity cap (v <| vblk_regs := zero_virtio 2 |>).

(** Disk bytes. *)
Definition disk_byte (v : virtio_blk_state_t) (off : Z) : Z := default 0 (disk v !! off).
Definition in_disk (v : virtio_blk_state_t) (off len : Z) : bool :=
  (0 <=? off) && (off + len <=? disk_size v).
Definition touch_disk (off len : Z) (v : virtio_blk_state_t) : virtio_blk_state_t :=
  if in_disk v off len then v else v <| disk_oob := true |>.
Fixpoint disk_put (off : Z) (bytes : list Z) (v : virtio_blk_state_t) : virtio_blk_state_t :=
  match bytes with
  | [] => v
  | b :: bytes => disk_put (off + 1) bytes (v <| disk := <[off := b]> (disk v) |>)
  end.

Section Blk.
Context {E : Type}.
Abbreviation M := (machine (emu_state_t E)).
Implicit Types s : M.

Definition on_vblk (f : virtio_blk_state_t -> virtio_blk_state_t) s : M :=
  on_dev (fun d => d <| vblk := f (vblk d) |>) s.

(* [virtio-blk.c:125-133] virtio_blk_write_handler *)
Definition virtio_blk_write_handler (sector desc_addr len : Z) s : M :=
  let off := u64 (sector * DISK_BLK_SIZE) in
  let '(bytes, s) := dma_read desc_addr (Z.to_nat len) s in
  on_vblk (fun v => disk_put off bytes (touch_disk off len v)) s.

(* [virtio-blk.c:135-144] virtio_blk_read_handler *)
Definition virtio_blk_read_handler (sector desc_addr len : Z) s : M :=
  let off := u64 (sector * DISK_BLK_SIZE) in
  let bytes := (fun k => disk_byte (vblk (dev s)) (off + Z.of_nat k)) <$> seq 0 (Z.to_nat len) in
  dma_write desc_addr bytes (on_vblk (touch_disk off len) s).

(** Collect the three descriptors; [None] when an index is out of range. *)
(* [virtio-blk.c:163-178] *)
Fixpoint collect_descs (n : nat) (q : virtq_t) (desc_idx : Z) s : option (list virtq_desc) * M :=
  match n with
  | O => (Some [], s)
  | S n =>
      if QueueNum q <=? desc_idx then (None, on_vblk virtio_blk_set_fail s)
      else
        let '(d, s) := read_desc (u32 (QueueDesc q + u32 (desc_idx * 4))) s in
        let '(r, s) := collect_descs n q (d_next d) s in
        (match r with Some l => Some (d :: l) | None => None end, s)
  end.

Definition has_next (d : virtq_desc) : bool := nz (Z.land (d_flags d) VIRTIO_DESC_F_NEXT).

(** A request after its descriptors are known: check the range, move the data,
    write the status byte. Returns [*plen], or [None] for a result of -1. *)
(* [virtio-blk.c:192-226] *)
Definition virtio_blk_request (d0 d1 d2 : virtq_desc) s : option Z * M :=
  let type := rd32_any s (d_addr d0) in
  let sector := Z.lor (rd32_any s (d_addr d0 + 8)) (Z.shiftl (rd32_any s (d_addr d0 + 12)) 32) in
  let s := touch (d_addr d0) 16 s in
  let cap := capacity (vblk (dev s)) in
  let disk_sz := u64 (cap * DISK_BLK_SIZE) in
  let ofs := u64 (sector * DISK_BLK_SIZE) in
  if (cap <=? sector) || (u64 (disk_sz - ofs) <? d_len d1)
  then (None, wr8 (d_addr d2) VIRTIO_BLK_S_IOERR s)
  else if type =? VIRTIO_BLK_T_IN then
    let s := virtio_blk_read_handler sector (d_addr d1) (d_len d1) s in
    (Some (d_len d1), wr8 (d_addr d2) VIRTIO_BLK_S_OK s)
  else if type =? VIRTIO_BLK_T_OUT then
    let s := virtio_blk_write_handler sector (d_addr d1) (d_len d1) s in
    (Some (d_len d1), wr8 (d_addr d2) VIRTIO_BLK_S_OK s)
  else (None, wr8 (d_addr d2) VIRTIO_BLK_S_UNSUPP s).

(* [virtio-blk.c:146-226] virtio_blk_desc_handler *)
Definition virtio_blk_desc_handler (q : virtq_t) (desc_idx : Z) s : option Z * M :=
  let '(r, s) := collect_descs 3 q desc_idx s in
  match r with
  | Some [d0; d1; d2] =>
      if negb (has_next d0) || negb (has_next d1) || has_next d2
      then (None, on_vblk virtio_blk_set_fail s)
      else virtio_blk_request d0 d1 d2 s
  | _ => (None, s)
  end.

Definition blk_queue s (i : Z) : virtq_t := queue_at (vblk_regs (vblk (dev s))) i.

(** The processing loop; [new_used] is [None] when it returned early. Every
    iteration advances the 16-bit [last_avail], so 65536 iterations are enough. *)
(* [virtio-blk.c:249-278] *)
Fixpoint blk_process (fuel : nat) (i new_avail new_used : Z) s : option Z * M :=
  match fuel with
  | O => (None, s)
  | S fuel =>
      let q := blk_queue s i in
      if last_avail q =? new_avail then (Some new_used, s)
      else if QueueNum q =? 0 then (None, on_dev (fun d => d <| div_zero := true |>) s)
      else
        let queue_idx := u16 (last_avail q mod QueueNum q) in
        let '(buffer_idx, s) := avail_entry q queue_idx s in
        let '(len, s) := virtio_blk_desc_handler q buffer_idx s in
        match len with
        | None => (None, on_vblk virtio_blk_set_fail s)
        | Some len =>
            let s := used_append q new_used buffer_idx len s in
            let s := on_vblk (on_regs (upd_queue i (fun q =>
                       q <| last_avail := u16 (last_avail q + 1) |>))) s in
            blk_process fuel i new_avail (u16 (new_used + 1)) s
        end
  end.

(* [virtio-blk.c:228-287] virtio_queue_notify_handler *)
Definition blk_queue_notify_handler (index : Z) s : M :=
  let st := Status (vblk_regs (vblk (dev s))) in
  let q := blk_queue s index in
  if nz (Z.land st VIRTIO_STATUS__DEVICE_NEEDS_RESET) then s
  else if negb (nz (Z.land st VIRTIO_STATUS__DRIVER_OK) && ready q)
  then on_vblk virtio_blk_set_fail s
  else
    let '(w, s) := ram_get (QueueAvail q) s in
    let new_avail := u16 (Z.shiftr w 16) in
    if u16 (QueueNum q) <? new_avail - last_avail q then on_vblk virtio_blk_set_fail s
    else if last_avail q =? new_avail then s
    else
      let '(w, s) := ram_get (QueueUsed q) s in
      let '(r, s) := blk_process (Z.to_nat 65536) index new_avail (u16 (Z.shiftr w 16)) s in
      match r with
      | None => s
      | Some new_used =>
          let s := used_publish q new_used s in
          let '(w, s) := ram_get (QueueAvail q) s in
          if nz (Z.land w 1) then s
          else on_vblk (on_regs (fun d => d <| InterruptStatus :=
                 Z.lor (InterruptStatus d) VIRTIO_INT__USED_RING |>)) s
      end.

(** The configuration window; an index past the structure is an access outside
    [vblk_configs]. *)
Definition config_get (i : Z) (v : virtio_blk_state_t) : Z * virtio_blk_state_t :=
  if i <? VBLK_CONFIG_SIZE / 4 then (arr_get 0 (vblk_config v) i, v)
  else (0, v <| vblk_config_oob := true |>).
Definition config_put (i value : Z) (v : virtio_blk_state_t) : virtio_blk_state_t :=
  if i <? VBLK_CONFIG_SIZE / 4 then v <| vblk_config := arr_set (vblk_config v) i value |>
  else v <| vblk_config_oob := true |>.

(* [virtio-blk.c:289-338] virtio_blk_reg_read *)
Definition virtio_blk_reg_read (addr : Z) (v : virtio_blk_state_t)
  : option (Z * virtio_blk_state_t) :=
  let d := vblk_regs v in
  if addr =? VIRTIO_MagicValue then Some (0x74726976, v)
  else if addr =? VIRTIO_Version then Some (2, v)
  else if addr =? VIRTIO_DeviceID then Some (2, v)
  else if addr =? VIRTIO_VendorID then Some (VIRTIO_VENDOR_ID, v)
  else if addr =? VIRTIO_DeviceFeatures then
    Some (if DeviceFeaturesSel d =? 0 then VBLK_FEATURES_0
          else if DeviceFeaturesSel d =? 1 then VBLK_FEATURES_1 else 0, v)
  else if addr =? VIRTIO_QueueNumMax then Some (VBLK_QUEUE_NUM_MAX, v)
  else if addr =? VIRTIO_QueueReady then
    Some (if ready (queue_at d (QueueSel d)) then 1 else 0, v)
  else if addr =? VIRTIO_InterruptStatus then Some (InterruptStatus d, v)
  else if addr =? VIRTIO_Status then Some (Status d, v)
  else if addr =? VIRTIO_ConfigGeneration then Some (0, v)
  else if negb (RANGE_CHECK addr VIRTIO_Config VBLK_CONFIG_SIZE) then None
  else Some (config_get (addr - VIRTIO_Config) v).

(** [VBLK_QUEUE.field = vblk_preprocess(vblk, value)] *)
Definition set_queue_addr (f : Z -> virtq_t -> virtq_t) (value : Z) (d : virtio_state) : virtio_state :=
  let '(a, d) := virtio_preprocess d value in upd_queue (QueueSel d) (f a) d.

(* [virtio-blk.c:340-416] virtio_blk_reg_write *)
Definition virtio_blk_reg_write (addr value : Z) s : bool * M :=
  let d := vblk_regs (vblk (dev s)) in
  let regs f := (true, on_vblk (on_regs f) s) in
  let nop := (true, s) in
  let fail := (true, on_vblk virtio_blk_set_fail s) in
  if addr =? VIRTIO_DeviceFeaturesSel then regs (fun d => d <| DeviceFeaturesSel := value |>)
  else if addr =? VIRTIO_DriverFeatures then
    if DriverFeaturesSel d =? 0 then regs (fun d => d <| DriverFeatures := value |>) else nop
  else if addr =? VIRTIO_DriverFeaturesSel then regs (fun d => d <| DriverFeaturesSel := value |>)
  else if addr =? VIRTIO_QueueSel then
    if value <? Z.of_nat (length (queues d)) then regs (fun d => d <| QueueSel := value |>) else fail
  else if addr =? VIRTIO_QueueNum then
    if (0 <? value) && (value <=? VBLK_QUEUE_NUM_MAX)
    then regs (upd_queue (QueueSel d) (fun q => q <| QueueNum := value |>)) else fail
  else if addr =? VIRTIO_QueueReady then
    let rdy := nz (Z.land value 1) in
    let s := on_vblk (on_regs (upd_queue (QueueSel d) (fun q => q <| ready := rdy |>))) s in
    if rdy then
      let '(w, s) := ram_get (QueueAvail (queue_at d (QueueSel d))) s in
      (true, on_vblk (on_regs (upd_queue (QueueSel d) (fun q =>
               q <| last_avail := u16 (Z.shiftr w 16) |>))) s)
    else (true, s)
  else if addr =? VIRTIO_QueueDescLow then
    regs (set_queue_addr (fun a q => q <| QueueDesc := a |>) value)
  else if addr =? VIRTIO_QueueDescHigh then if nz value then fail else nop
  else if addr =? VIRTIO_QueueDriverLow then
    regs (set_queue_addr (fun a q => q <| QueueAvail := a |>) value)
  else if addr =? VIRTIO_QueueDriverHigh then if nz value then fail else nop
  else if addr =? VIRTIO_QueueDeviceLow then
    regs (set_queue_addr (fun a q => q <| QueueUsed := a |>) value)
  else if addr =? VIRTIO_QueueDeviceHigh then if nz value then fail else nop
  else if addr =? VIRTIO_QueueNotify then
    if value <? Z.of_nat (length (queues d)) then (true, blk_queue_notify_handler value s) else fail
  else if addr =? VIRTIO_InterruptACK then
    regs (fun d => d <| InterruptStatus := Z.land (InterruptStatus d) (not32 value) |>)
  else if addr =? VIRTIO_Status then (true, on_vblk (virtio_blk_update_status value) s)
  else if negb (RANGE_CHECK addr VIRTIO_Config VBLK_CONFIG_SIZE) then (false, s)
  else (true, on_vblk (config_put (addr - VIRTIO_Config) value) s).

(* [virtio-blk.c:418-439] virtio_blk_read *)
Definition virtio_blk_read (addr width : Z) s : option Z * M :=
  if width =? RV_MEM_LW then
    match virtio_blk_reg_read (Z.shiftr addr 2) (vblk (dev s)) with
    | Some (v, b) => (Some v, on_vblk (fun _ => b) s)
    | None => (None, raise RV_EXC_LOAD_FAULT (exc_val (hart s)) s)
    end
  else if (width =? RV_MEM_LBU) || (width =? RV_MEM_LB) || (width =? RV_MEM_LHU)
          || (width =? RV_MEM_LH)
  then (None, raise RV_EXC_LOAD_MISALIGN (exc_val (hart s)) s)
  else (None, raise RV_EXC_ILLEGAL_INSN 0 s).

(* [virtio-blk.c:441-460] virtio_blk_write *)
Definition virtio_blk_write (addr width value : Z) s : M :=
  if width =? RV_MEM_SW then
    let '(ok, s) := virtio_blk_reg_write (Z.shiftr addr 2) value s in
    if ok then s else raise RV_EXC_STORE_FAULT (exc_val (hart s)) s
  else if (width =? RV_MEM_SB) || (width =? RV_MEM_SH)
  then raise RV_EXC_STORE_MISALIGN (exc_val (hart s)) s
  else raise RV_EXC_ILLEGAL_INSN 0 s.
End Blk.

(** [mmap] maps whole pages, the rest of the last one reads as zero. *)
Definition map_length (size : Z) : Z := (size + 4095) / 4096 * 4096.

(** The device state [virtio_blk_init] leaves for an image of [size] bytes (0
    when no image is given). *)
(* [virtio-blk.c:462-523] virtio_blk_init *)
Definition virtio_blk_init (image : gmap Z Z) (size : Z) : virtio_blk_state_t :=
  let v := mk_vblk (zero_virtio 2) (replicate 15 0) false image (map_length size) false in
  set_capacity (if size =? 0 then 0 else (size - 1) / DISK_BLK_SIZE + 1) v.
