(* ===== verification/VirtioRng.v ===== *)
(** * The entropy device (virtio-rng.c) *)

From stdpp Require Import base gmap list.
From Stdlib Require Import ZArith Lia Bool.
From S2P Require Import Prelude Isa Hart Machine Loops Device Timer Virtio.
Open Scope Z_scope.

(* [virtio-rng.c:15-18] *)
Definition VRNG_FEATURES_0 := 0.
Definition VRNG_FEATURES_1 := 1.
Definition VRNG_QUEUE_NUM_MAX := 1024.

(* [virtio-rng.c:23-28] virtio_rng_set_fail *)
Definition virtio_rng_set_fail (d : virtio_rng_state_t) : virtio_rng_state_t :=
  let d := d <| Status := Z.lor (Status d) VIRTIO_STATUS__DEVICE_NEEDS_RESET |> in
  if nz (Z.land (Status d) VIRTIO_STATUS__DRIVER_OK)
  then d <| InterruptStatus := Z.lor (InterruptStatus d) VIRTIO_INT__CONF_CHANGE |> else d.

(* [virtio-rng.c:30-36] vrng_preprocess *)
Definition vrng_preprocess (d : virtio_rng_state_t) (addr : Z) : Z * virtio_rng_state_t :=
  if (RAM_SIZE <=? addr) || nz (Z.land addr 3) then (0, virtio_rng_set_fail d) else (Z.shiftr addr 2, d).

(* [virtio-rng.c:38-48] virtio_rng_update_status *)
Definition virtio_rng_update_status (status : Z) (d : virtio_rng_state_t) : virtio_rng_state_t :=
  let d := d <| Status := Z.lor (Status d) status |> in
  if nz status then d else zero_virtio 1.

Section Rng.
Context {E : Type} `{HostE : Host E}.
Abbreviation M := (machine (emu_state_t E)).
Implicit Types s : M.

Definition on_vrng (f : virtio_rng_state_t -> virtio_rng_state_t) s : M :=
  on_dev (fun d => d <| vrng := f (vrng d) |>) s.

(** [VRNG_QUEUE] *)
Definition rng_queue s : virtq_t := queue_at (vrng (dev s)) (QueueSel (vrng (dev s))).

(** [vq_desc->flags = 0]: the low half of the fourth descriptor word. *)
Definition clear_desc_flags (i : Z) s : M :=
  wr32 (4 * i + 12) (Z.land (rd32 s (4 * i + 12)) 0xFFFF0000) s.

(* [virtio-rng.c:50-96] virtio_queue_notify_handler *)
Definition rng_queue_notify_handler s : M :=
  let q := rng_queue s in
  if QueueNum q =? 0 then on_dev (fun d => d <| div_zero := true |>) s
  else
    let queue_idx := u16 (last_avail q mod QueueNum q) in
    let '(buffer_idx, s) := avail_entry q queue_idx s in
    let s := on_vrng (fun d => upd_queue (QueueSel d) (fun q =>
               q <| last_avail := u16 (last_avail q + 1) |>) d) s in
    let di := u32 (QueueDesc q + buffer_idx * 4) in
    let '(desc, s) := read_desc di s in
    let '(bytes, s) := on_host (read_entropy (d_len desc)) s in
    let s := dma_write (d_addr desc) bytes s in
    let s := clear_desc_flags di s in
    let '(w, s) := ram_get (QueueUsed q) s in
    let used := u16 (Z.shiftr w 16) in
    let s := used_append q used buffer_idx (Z.of_nat (length bytes)) s in
    let s := used_publish q (u16 (used + 1)) s in
    let '(w, s) := ram_get (QueueAvail q) s in
    if nz (Z.land w 1) then s
    else on_vrng (fun d => d <| InterruptStatus :=
           Z.lor (InterruptStatus d) VIRTIO_INT__USED_RING |>) s.

(* [virtio-rng.c:98-141] virtio_rng_reg_read *)
Definition virtio_rng_reg_read (addr : Z) (d : virtio_rng_state_t) : option Z :=
  if addr =? VIRTIO_MagicValue then Some 0x74726976
  else if addr =? VIRTIO_Version then Some 2
  else if addr =? VIRTIO_DeviceID then Some 4
  else if addr =? VIRTIO_VendorID then Some VIRTIO_VENDOR_ID
  else if addr =? VIRTIO_DeviceFeatures then
    Some (if DeviceFeaturesSel d =? 0 then VRNG_FEATURES_0
          else if DeviceFeaturesSel d =? 1 then VRNG_FEATURES_1 else 0)
  else if addr =? VIRTIO_QueueNumMax then Some VRNG_QUEUE_NUM_MAX
  else if addr =? VIRTIO_QueueReady then Some (if ready (queue_at d (QueueSel d)) then 1 else 0)
  else if addr =? VIRTIO_InterruptStatus then Some (InterruptStatus d)
  else if addr =? VIRTIO_Status then Some (Status d)
  else if addr =? VIRTIO_ConfigGeneration then Some 0
  else None.

(** [VRNG_QUEUE.field = vrng_preprocess(vrng, value)] *)
Definition set_rng_addr (f : Z -> virtq_t -> virtq_t) (value : Z) (d : virtio_rng_state_t)
  : virtio_rng_state_t :=
  let '(a, d) := vrng_preprocess d value in upd_queue (QueueSel d) (f a) d.

(* [virtio-rng.c:143-213] virtio_rng_reg_write *)
Definition virtio_rng_reg_write (addr value : Z) s : bool * M :=
  let d := vrng (dev s) in
  let regs f := (true, on_vrng f s) in
  let nop := (true, s) in
  let fail := (true, on_vrng virtio_rng_set_fail s) in
  if addr =? VIRTIO_DeviceFeaturesSel then regs (fun d => d <| DeviceFeaturesSel := value |>)
  else if addr =? VIRTIO_DriverFeatures then
    if DriverFeaturesSel d =? 0 then regs (fun d => d <| DriverFeatures := value |>) else nop
  else if addr =? VIRTIO_DriverFeaturesSel then regs (fun d => d <| DriverFeaturesSel := value |>)
  else if addr =? VIRTIO_QueueSel then
    if value <? Z.of_nat (length (queues d)) then regs (fun d => d <| QueueSel := value |>) else fail
  else if addr =? VIRTIO_QueueNum then
    if (0 <? value) && (value <=? VRNG_QUEUE_NUM_MAX)
    then regs (upd_queue (QueueSel d) (fun q => q <| QueueNum := value |>)) else fail
  else if addr =? VIRTIO_QueueReady then
    let rdy := nz (Z.land value 1) in
    let s := on_vrng (upd_queue (QueueSel d) (fun q => q <| ready := rdy |>)) s in
    if rdy then
      let '(w, s) := ram_get (QueueAvail (queue_at d (QueueSel d))) s in
      (true, on_vrng (upd_queue (QueueSel d) (fun q => q <| last_avail := u16 (Z.shiftr w 16) |>)) s)
    else (true, s)
  else if addr =? VIRTIO_QueueDescLow then
    regs (set_rng_addr (fun a q => q <| QueueDesc := a |>) value)
  else if addr =? VIRTIO_QueueDescHigh then if nz value then fail else nop
  else if addr =? VIRTIO_QueueDriverLow then
    regs (set_rng_addr (fun a q => q <| QueueAvail := a |>) value)
  else if addr =? VIRTIO_QueueDriverHigh then if nz value then fail else nop
  else if addr =? VIRTIO_QueueDeviceLow then
    regs (set_rng_addr (fun a q => q <| QueueUsed := a |>) value)
  else if addr =? VIRTIO_QueueDeviceHigh then if nz value then fail else nop
  else if addr =? VIRTIO_QueueNotify then
    if value <? Z.of_nat (length (queues d)) then (true, rng_queue_notify_handler s) else fail
  else if addr =? VIRTIO_InterruptACK then
    regs (fun d => d <| InterruptStatus := Z.land (InterruptStatus d) (not32 value) |>)
  else if addr =? VIRTIO_Status then regs (virtio_rng_update_status value)
  else (false, s).

(* [virtio-rng.c:215-236] virtio_rng_read *)
Definition virtio_rng_read (addr width : Z) s : option Z * M :=
  if width =? RV_MEM_LW then
    match virtio_rng_reg_read (Z.shiftr addr 2) (vrng (dev s)) with
    | Some v => (Some v, s)
    | None => (None, raise RV_EXC_LOAD_FAULT (exc_val (hart s)) s)
    end
  else if (width =? RV_MEM_LBU) || (width =? RV_MEM_LB) || (width =? RV_MEM_LHU)
          || (width =? RV_MEM_LH)
  then (None, raise RV_EXC_LOAD_MISALIGN (exc_val (hart s)) s)
  else (None, raise RV_EXC_ILLEGAL_INSN 0 s).

(* [virtio-rng.c:238-257] virtio_rng_write *)
Definition virtio_rng_write (addr width value : Z) s : M :=
  if width =? RV_MEM_SW then
    let '(ok, s) := virtio_rng_reg_write (Z.shiftr addr 2) value s in
    if ok then s else raise RV_EXC_STORE_FAULT (exc_val (hart s)) s
  else if (width =? RV_MEM_SB) || (width =? RV_MEM_SH)
  then raise RV_EXC_STORE_MISALIGN (exc_val (hart s)) s
  else raise RV_EXC_ILLEGAL_INSN 0 s.
End Rng.
