(* ===== verification/VirtioProps.v ===== *)
(** * Properties of the block device

    The processing loop answers every available request or stops the device;
    a request stays inside the disk image as long as the capacity describes it;
    data written can be read back. *)

From stdpp Require Import base gmap list.
From Stdlib Require Import ZArith Lia Bool.
From S2P Require Import Prelude Bits Isa Hart Machine Mmu RamProps Tlb Loops Device Virtio.
From S2P Require Import VirtioBlk.
Open Scope Z_scope.

(** ** Bytes of guest RAM *)

Lemma lane_write_byte cell v k j : is_u32 cell -> is_u32 v -> 0 <= k < 4 -> 0 <= j < 4 ->
  Z.shiftr (lane_write RV_MEM_SB cell (8 * k) v) (8 * j) mod 2 ^ 8
  = if k =? j then v mod 2 ^ 8 else Z.shiftr cell (8 * j) mod 2 ^ 8.
Proof.
  intros Hc Hv Hk Hj. unfold lane_write. change (RV_MEM_SB =? RV_MEM_SW) with false.
  change (RV_MEM_SB =? RV_MEM_SH) with false. cbv iota. change (MASK 8) with 255.
  assert (Ek : k = 0 \/ k = 1 \/ k = 2 \/ k = 3) by lia.
  assert (Ej : j = 0 \/ j = 1 \/ j = 2 \/ j = 3) by lia.
  destruct Ek as [-> | [-> | [-> | ->]]], Ej as [-> | [-> | [-> | ->]]]; cbn [Z.eqb Pos.eqb];
    cbn [Z.mul Pos.mul Pos.add]; bits.
Qed.

Lemma lane_write_u32 cell v k : is_u32 cell -> 0 <= v < 256 -> is_u32 (lane_write RV_MEM_SB cell k v).
Proof.
  intros Hc Hv. unfold lane_write. change (RV_MEM_SB =? RV_MEM_SW) with false.
  change (RV_MEM_SB =? RV_MEM_SH) with false. cbv iota.
  apply lor_is_u32; [|apply u32_range]. apply land_is_u32_l; [done|]. apply u32_range.
Qed.

Section Bytes.
Context {D : Type}.
Implicit Types s : machine D.

Lemma rd8_wr8 o v s o' : ram_ok (ram s) -> 0 <= v < 256 ->
  rd8 (wr8 o v s) o' = if o =? o' then v else rd8 s o'.
Proof.
  intros Hm Hv. unfold rd8, rd32, wr8. cbn [ram]. change (ram (_ <| ram := ?m |>)) with m.
  rewrite word_insert. pose proof (Z.div_mod o 4). pose proof (Z.div_mod o' 4).
  pose proof (Z.mod_pos_bound o 4). pose proof (Z.mod_pos_bound o' 4).
  destruct (decide (o / 4 = o' / 4)) as [Eq|Ne].
  - rewrite lane_write_byte by (apply Hm || (unfold is_u32; lia) || lia).
    unfold rd32. rewrite Eq. change (2 ^ 8) with 256. rewrite (Z.mod_small v) by lia.
    destruct (Z.eqb_spec (o mod 4) (o' mod 4)), (Z.eqb_spec o o'); try done; lia || congruence.
  - destruct (Z.eqb_spec o o'); [congruence|done].
Qed.

Lemma ram_ok_wr8 o v s : ram_ok (ram s) -> 0 <= v < 256 -> ram_ok (ram (wr8 o v s)).
Proof.
  intros Hm Hv i. unfold wr8. change (ram (_ <| ram := ?m |>)) with m. rewrite word_insert.
  case_decide; [|apply Hm]. apply lane_write_u32; [apply Hm|done].
Qed.

Definition is_byte (b : Z) : Prop := 0 <= b < 256.

(** A DMA transfer writes its bytes in order and nothing else. *)
Lemma dma_write_rd8 bytes : forall o s o', ram_ok (ram s) -> Forall is_byte bytes ->
  rd8 (dma_write o bytes s) o' =
  if (o <=? o') && (o' <? o + Z.of_nat (length bytes)) then arr_get 0 bytes (o' - o) else rd8 s o'.
Proof.
  induction bytes as [|b bytes IH]; intros o s o' Hm Hb.
  - cbn [dma_write length]. destruct (Z.leb_spec o o'), (Z.ltb_spec o' (o + Z.of_nat 0)); cbn [andb]; done || lia.
  - apply Forall_cons in Hb as [H1 H2]. cbn [dma_write]. rewrite IH by (done || by apply ram_ok_wr8).
    rewrite rd8_wr8 by done. cbn [length]. unfold arr_get.
    destruct (Z.eqb_spec o o') as [<-|Hne].
    + rewrite Z.sub_diag. destruct (Z.leb_spec (o + 1) o), (Z.leb_spec o o),
        (Z.ltb_spec o (o + Z.of_nat (S (length bytes)))); cbn [andb]; done || lia.
    + destruct (Z.leb_spec (o + 1) o'), (Z.leb_spec o o'), (Z.ltb_spec o' (o + 1 + Z.of_nat (length bytes))),
        (Z.ltb_spec o' (o + Z.of_nat (S (length bytes)))); cbn [andb]; try done; try lia.
      replace (Z.to_nat (o' - o)) with (S (Z.to_nat (o' - (o + 1)))) by lia. done.
Qed.

Lemma rd8_byte s o : is_byte (rd8 s o).
Proof. unfold is_byte, rd8. apply Z.mod_pos_bound. lia. Qed.
End Bytes.

(** ** The disk *)

Lemma disk_put_byte bytes : forall o v o',
  disk_byte (disk_put o bytes v) o' =
  if (o <=? o') && (o' <? o + Z.of_nat (length bytes)) then arr_get 0 bytes (o' - o) else disk_byte v o'.
Proof.
  induction bytes as [|b bytes IH]; intros o v o'.
  - cbn [disk_put length]. destruct (Z.leb_spec o o'), (Z.ltb_spec o' (o + Z.of_nat 0)); cbn [andb]; done || lia.
  - cbn [disk_put]. rewrite IH. cbn [length]. unfold arr_get.
    assert (E : disk_byte (v <| disk := <[o := b]> (disk v) |>) o' = if o =? o' then b else disk_byte v o').
    { unfold disk_byte. change (disk (v <| disk := <[o := b]> (disk v) |>)) with (<[o := b]> (disk v)).
      destruct (Z.eqb_spec o o') as [<-|]; [by rewrite lookup_insert_eq|by rewrite lookup_insert_ne]. }
    rewrite E. clear E. destruct (Z.eqb_spec o o') as [<-|Hne].
    + rewrite Z.sub_diag. destruct (Z.leb_spec (o + 1) o), (Z.leb_spec o o),
        (Z.ltb_spec o (o + Z.of_nat (S (length bytes)))); cbn [andb]; done || lia.
    + destruct (Z.leb_spec (o + 1) o'), (Z.leb_spec o o'), (Z.ltb_spec o' (o + 1 + Z.of_nat (length bytes))),
        (Z.ltb_spec o' (o + Z.of_nat (S (length bytes)))); cbn [andb]; try done; try lia.
      replace (Z.to_nat (o' - o)) with (S (Z.to_nat (o' - (o + 1)))) by lia. done.
Qed.

Lemma disk_byte_touch o l v o' : disk_byte (touch_disk o l v) o' = disk_byte v o'.
Proof. unfold touch_disk. by case_match. Qed.

(** [arr_get] of a tabulated list. *)
Lemma arr_get_tabulate (f : nat -> Z) n k : 0 <= k < Z.of_nat n ->
  arr_get 0 (f <$> seq 0 n) k = f (Z.to_nat k).
Proof.
  intros Hk. unfold arr_get. rewrite list_lookup_fmap, lookup_seq_lt by lia. done.
Qed.

Section Blk.
Context {E : Type}.
Abbreviation M := (machine (emu_state_t E)).
Implicit Types s : M.

Lemma touch_ram o l s : ram (touch o l s) = ram s /\ dev (touch o l s) = dev s.
Proof. unfold touch. by case_match. Qed.

Lemma dma_write_dev bytes : forall o s, dev (dma_write o bytes s) = dev s.
Proof.
  induction bytes as [|b bytes IH]; intros o s; [done|]. cbn [dma_write]. rewrite IH.
  unfold wr8. apply (touch_ram o 1 s).
Qed.

Definition sector_offset (sector : Z) : Z := u64 (sector * DISK_BLK_SIZE).

(** What a write request leaves on the disk. *)
Lemma write_handler_disk sector a len s o : 0 <= len ->
  let off := sector_offset sector in
  disk_byte (vblk (dev (virtio_blk_write_handler sector a len s))) o =
  if (off <=? o) && (o <? off + len) then rd8 s (a + (o - off)) else disk_byte (vblk (dev s)) o.
Proof.
  intros Hl. cbv zeta. unfold virtio_blk_write_handler, dma_read. cbv zeta. fold (sector_offset sector).
  change (vblk (dev (on_vblk ?f ?x))) with (f (vblk (dev x))). cbv beta.
  rewrite (proj2 (touch_ram a (Z.of_nat (Z.to_nat len)) s)), disk_put_byte, disk_byte_touch.
  rewrite length_fmap, length_seq, Z2Nat.id by done.
  destruct (Z.leb_spec (sector_offset sector) o), (Z.ltb_spec o (sector_offset sector + len)); cbn [andb]; try done.
  rewrite arr_get_tabulate by lia. rewrite Z2Nat.id by lia. done.
Qed.

Lemma write_handler_ram sector a len s : ram (virtio_blk_write_handler sector a len s) = ram s.
Proof. unfold virtio_blk_write_handler, dma_read. cbv zeta. apply (touch_ram a _ s). Qed.

(** What a read request leaves in RAM: the disk's bytes at the buffer. *)
Lemma read_handler_ram sector b len s o : ram_ok (ram s) -> 0 <= len ->
  Forall is_byte ((fun k => disk_byte (vblk (dev s)) (sector_offset sector + Z.of_nat k)) <$> seq 0 (Z.to_nat len)) ->
  rd8 (virtio_blk_read_handler sector b len s) o =
  if (b <=? o) && (o <? b + len) then disk_byte (vblk (dev s)) (sector_offset sector + (o - b)) else rd8 s o.
Proof.
  intros Hm Hl Hb. unfold virtio_blk_read_handler. cbv zeta. fold (sector_offset sector).
  rewrite dma_write_rd8; [|exact Hm|exact Hb].
  rewrite length_fmap, length_seq, Z2Nat.id by done.
  destruct (Z.leb_spec b o), (Z.ltb_spec o (b + len)); cbn [andb]; try done.
  rewrite arr_get_tabulate by lia. rewrite Z2Nat.id by lia. done.
Qed.

(** C13: Disk data round-trips. After a write request of [len] bytes from guest
    address [a] at a sector and a read request of the same length from that sector
    to guest address [b], the buffer at [b] holds byte for byte what was at [a]
    when the write was issued; no other byte of guest RAM changes, and no byte of
    the disk outside the written range. *)
Theorem blk_write_read_roundtrip sector a b len s : ram_ok (ram s) -> 0 <= len ->
  let s1 := virtio_blk_write_handler sector a len s in
  let s2 := virtio_blk_read_handler sector b len s1 in
  (forall k, 0 <= k < len -> rd8 s2 (b + k) = rd8 s (a + k)) /\
  (forall o, ~ (b <= o < b + len) -> rd8 s2 o = rd8 s o) /\
  (forall o, ~ (sector_offset sector <= o < sector_offset sector + len) ->
     disk_byte (vblk (dev s2)) o = disk_byte (vblk (dev s)) o).
Proof.
  intros Hm Hl. cbv zeta. set (s1 := virtio_blk_write_handler sector a len s).
  pose proof (fun o => write_handler_disk sector a len s o Hl) as Hd. fold s1 in Hd. cbv zeta in Hd.
  assert (Hm1 : ram_ok (ram s1)) by (unfold s1; by rewrite write_handler_ram).
  assert (R : forall o, rd8 s1 o = rd8 s o).
  { intros o. unfold rd8, rd32, s1. by rewrite write_handler_ram. }
  assert (Hb : Forall is_byte ((fun k => disk_byte (vblk (dev s1)) (sector_offset sector + Z.of_nat k))
                                <$> seq 0 (Z.to_nat len))).
  { apply Forall_fmap, Forall_forall. intros k Hk. cbn. apply elem_of_seq in Hk. rewrite Hd.
    destruct (Z.leb_spec (sector_offset sector) (sector_offset sector + Z.of_nat k)),
      (Z.ltb_spec (sector_offset sector + Z.of_nat k) (sector_offset sector + len)); try lia.
    apply rd8_byte. }
  split_and!.
  - intros k Hk. rewrite read_handler_ram by done.
    destruct (Z.leb_spec b (b + k)), (Z.ltb_spec (b + k) (b + len)); try lia. cbn [andb].
    rewrite Hd. destruct (Z.leb_spec (sector_offset sector) (sector_offset sector + (b + k - b))),
      (Z.ltb_spec (sector_offset sector + (b + k - b)) (sector_offset sector + len)); try lia.
    cbn [andb]. f_equal. lia.
  - intros o Ho. rewrite read_handler_ram by done.
    destruct (Z.leb_spec b o), (Z.ltb_spec o (b + len)); try lia; cbn [andb]; apply R.
  - intros o Ho. unfold virtio_blk_read_handler. cbv zeta. rewrite dma_write_dev.
    change (vblk (dev (on_vblk ?f ?x))) with (f (vblk (dev x))). rewrite disk_byte_touch, Hd.
    destruct (Z.leb_spec (sector_offset sector) o), (Z.ltb_spec o (sector_offset sector + len));
      try lia; done.
Qed.

(** ** Requests stay inside the disk *)

(** The mapping covers the sectors the capacity announces. *)
Definition disk_fits (v : virtio_blk_state_t) : Prop :=
  0 <= capacity v < 2 ^ 55 /\ capacity v * DISK_BLK_SIZE <= disk_size v.

Lemma rd32_any_nonneg s o : ram_ok (ram s) -> 0 <= rd32_any s o.
Proof.
  intros Hm. unfold rd32_any. case_match; [apply Hm|].
  assert (B : forall o, 0 <= rd8 s o) by (intros o'; apply rd8_byte).
  repeat (apply Z.lor_nonneg; split); try apply Z.shiftl_nonneg; apply B.
Qed.

Lemma touch_disk_oob o l v : in_disk v o l = true -> touch_disk o l v = v.
Proof. unfold touch_disk. by intros ->. Qed.

Lemma disk_put_oob bytes : forall o v,
  disk_oob (disk_put o bytes v) = disk_oob v /\ vblk_config (disk_put o bytes v) = vblk_config v /\
  disk_size (disk_put o bytes v) = disk_size v /\ vblk_regs (disk_put o bytes v) = vblk_regs v.
Proof.
  induction bytes as [|b bytes IH]; intros o v; [done|]. cbn [disk_put].
  by destruct (IH (o + 1) (v <| disk := <[o := b]> (disk v) |>)) as (-> & -> & -> & ->).
Qed.

Lemma wr8_dev o v s : dev (wr8 o v s) = dev s.
Proof. unfold wr8. apply (touch_ram o 1 s). Qed.

(** C12: Requests cannot reach outside the disk image. As long as the mapped image
    covers the announced capacity, a request with any header, sector and length
    the guest puts in RAM accesses no byte outside the mapping: whatever it
    answers, the out-of-bounds flag is as before, and the size and capacity are
    unchanged. *)
Theorem blk_request_in_disk d0 d1 d2 s : ram_ok (ram s) -> disk_fits (vblk (dev s)) ->
  let v := vblk (dev s) in
  let v' := vblk (dev (snd (virtio_blk_request d0 d1 d2 s))) in
  disk_oob v' = disk_oob v /\ disk_fits v'.
Proof.
  intros Hm Hf. cbv zeta. unfold virtio_blk_request. cbv zeta.
  set (sector := Z.lor _ (Z.shiftl _ 32)).
  assert (Hs : 0 <= sector).
  { apply Z.lor_nonneg; split; [|apply Z.shiftl_nonneg]; by apply rd32_any_nonneg. }
  set (s1 := touch (d_addr d0) 16 s).
  assert (Ed : dev s1 = dev s) by apply (touch_ram (d_addr d0) 16 s).
  rewrite Ed. set (v := vblk (dev s)) in *.
  destruct Hf as [Hc Hsz]. assert (Hf : disk_fits v) by done.
  assert (Eu : u64 (capacity v * DISK_BLK_SIZE) = capacity v * DISK_BLK_SIZE).
  { unfold u64. apply Z.mod_small. unfold DISK_BLK_SIZE. lia. }
  rewrite Eu. clear Eu.
  destruct (Z.leb_spec (capacity v) sector) as [_|Hlt]; cbn [orb].
  { cbn [snd]. rewrite wr8_dev, Ed. done. }
  assert (Eo : u64 (sector * DISK_BLK_SIZE) = sector * DISK_BLK_SIZE).
  { unfold u64. apply Z.mod_small. unfold DISK_BLK_SIZE. lia. }
  rewrite Eo.
  assert (Es : u64 (capacity v * DISK_BLK_SIZE - sector * DISK_BLK_SIZE)
               = capacity v * DISK_BLK_SIZE - sector * DISK_BLK_SIZE).
  { unfold u64. apply Z.mod_small. unfold DISK_BLK_SIZE. lia. }
  rewrite Es. destruct (Z.ltb_spec (capacity v * DISK_BLK_SIZE - sector * DISK_BLK_SIZE) (d_len d1)).
  { cbn [snd]. rewrite wr8_dev, Ed. done. }
  assert (Hin : in_disk v (sector * DISK_BLK_SIZE) (d_len d1) = true).
  { unfold in_disk. apply andb_true_intro. unfold DISK_BLK_SIZE in *. split; lia. }
  destruct (_ =? VIRTIO_BLK_T_IN); [|destruct (_ =? VIRTIO_BLK_T_OUT)]; cbn [snd]; rewrite wr8_dev.
  - unfold virtio_blk_read_handler. cbv zeta. rewrite dma_write_dev.
    change (vblk (dev (on_vblk ?f ?x))) with (f (vblk (dev x))). rewrite Ed, Eo. fold v.
    by rewrite touch_disk_oob.
  - unfold virtio_blk_write_handler, dma_read. cbv zeta.
    change (vblk (dev (on_vblk ?f ?x))) with (f (vblk (dev x))). cbv beta.
    rewrite (proj2 (touch_ram (d_addr d1) _ s1)), Ed, Eo. fold v. rewrite touch_disk_oob by done.
    unfold disk_fits, capacity.
    match goal with |- context [disk_put ?o ?b v] => destruct (disk_put_oob b o v) as (-> & -> & -> & _) end.
    done.
  - by rewrite Ed.
Qed.
End Blk.

Lemma init_fits image size : 0 <= size < 2 ^ 60 -> disk_fits (virtio_blk_init image size).
Proof.
  intros Hs. unfold virtio_blk_init, set_capacity. cbv zeta.
  set (c := if size =? 0 then 0 else (size - 1) / DISK_BLK_SIZE + 1).
  assert (Hc : 0 <= c < 2 ^ 52 /\ c * 512 <= map_length size).
  { unfold c, map_length, DISK_BLK_SIZE. destruct (Z.eqb_spec size 0) as [->|]; [vm_compute; intuition congruence|].
    change (2 ^ 52) with 4503599627370496. change (2 ^ 60) with 1152921504606846976 in Hs.
    Z.div_mod_to_equations. lia. }
  assert (Ec : forall v, vblk_config v = arr_set (arr_set (replicate 15 0) 0 (u32 c)) 1 (Z.shiftr c 32) ->
    capacity v = c).
  { intros v Ev. unfold capacity. rewrite Ev.
    change (arr_get 0 (arr_set (arr_set (replicate 15 0) 0 ?a) 1 ?b) 0) with a.
    change (arr_get 0 (arr_set (arr_set (replicate 15 0) 0 ?a) 1 ?b) 1) with b.
    unfold u32. rewrite Z.shiftl_mul_pow2, Z.shiftr_div_pow2 by lia.
    pose proof (Z.add_lor_land (c mod 2 ^ 32) (c / 2 ^ 32 * 2 ^ 32)) as A.
    assert (L : Z.land (c mod 2 ^ 32) (c / 2 ^ 32 * 2 ^ 32) = 0).
    { rewrite <- Z.shiftl_mul_pow2 by lia. apply Z.bits_inj'. intros n Hn.
      rewrite Z.land_spec, Z.shiftl_spec, Z.bits_0 by lia. destruct (Z.ltb_spec n 32).
      - by rewrite (Z.testbit_neg_r _ (n - 32)), andb_false_r by lia.
      - by rewrite Z.mod_pow2_bits_high by lia. }
    rewrite L in A. pose proof (Z.div_mod c (2 ^ 32)). lia. }
  unfold disk_fits. rewrite Ec by reflexivity. unfold DISK_BLK_SIZE. split; [lia|]. apply Hc.
Qed.

(** ** The processing loop *)

Section Process.
Context {E : Type}.
Abbreviation M := (machine (emu_state_t E)).
Implicit Types s : M.

Definition qs s : list virtq_t := queues (vblk_regs (vblk (dev s))).

Lemma qs_dev s s' : dev s' = dev s -> qs s' = qs s.
Proof. unfold qs. by intros ->. Qed.

Lemma qs_set_fail s : qs (on_vblk virtio_blk_set_fail s) = qs s.
Proof.
  unfold qs. change (vblk (dev (on_vblk ?f ?x))) with (f (vblk (dev x))).
  unfold virtio_blk_set_fail, on_regs, virtio_set_fail. cbv zeta. cbn. by case_match.
Qed.

Lemma qs_touch o l s : qs (touch o l s) = qs s.
Proof. apply qs_dev, touch_ram. Qed.

Lemma qs_collect n q : forall idx s, qs (snd (collect_descs n q idx s)) = qs s.
Proof.
  induction n as [|n IH]; intros idx s; [done|]. cbn [collect_descs].
  case_match; [apply qs_set_fail|]. unfold read_desc.
  set (s1 := touch _ 16 s). specialize (IH (Z.shiftr (rd32 s (4 * u32 (QueueDesc q + u32 (idx * 4)) + 12)) 16) s1).
  cbn [d_next]. destruct (collect_descs n q _ s1) as [r s2]. cbn [snd] in *. rewrite IH. apply qs_touch.
Qed.

Lemma touch_disk_regs o l v : vblk_regs (touch_disk o l v) = vblk_regs v.
Proof. unfold touch_disk. by case_match. Qed.

Lemma qs_request d0 d1 d2 s : qs (snd (virtio_blk_request d0 d1 d2 s)) = qs s.
Proof.
  unfold virtio_blk_request. cbv zeta. set (s1 := touch (d_addr d0) 16 s).
  assert (E1 : qs s1 = qs s) by apply qs_touch.
  repeat case_match; cbn [snd]; rewrite (qs_dev _ _ (wr8_dev _ _ _)); try exact E1.
  - unfold virtio_blk_read_handler. cbv zeta. rewrite (qs_dev _ _ (dma_write_dev _ _ _)), <- E1.
    unfold qs. change (vblk (dev (on_vblk ?f ?x))) with (f (vblk (dev x))). by rewrite touch_disk_regs.
  - unfold virtio_blk_write_handler, dma_read. cbv zeta. rewrite <- E1.
    rewrite <- (qs_touch (d_addr d1) (Z.of_nat (Z.to_nat (d_len d1))) s1). unfold qs.
    change (vblk (dev (on_vblk ?f ?x))) with (f (vblk (dev x))). cbv beta.
    match goal with |- context [disk_put ?o ?b ?v] => destruct (disk_put_oob b o v) as (_ & _ & _ & ->) end.
    by rewrite touch_disk_regs.
Qed.

Lemma qs_desc_handler q idx s : qs (snd (virtio_blk_desc_handler q idx s)) = qs s.
Proof.
  unfold virtio_blk_desc_handler. pose proof (qs_collect 3 q idx s) as H.
  destruct (collect_descs 3 q idx s) as [r s1]. cbn [snd] in H. rewrite <- H.
  repeat case_match; cbn [snd]; try done; [apply qs_set_fail|apply qs_request].
Qed.

Lemma qs_used_append q u i l s : qs (used_append q u i l s) = qs s.
Proof. unfold used_append, ram_put, wr32. cbv zeta. apply qs_dev. cbn. unfold touch. by repeat case_match. Qed.

(** The device has been told to stop, or the emulator has divided by zero. *)
Definition halted s : Prop :=
  Z.testbit (Status (vblk_regs (vblk (dev s)))) 6 = true \/ div_zero (dev s) = true.

Lemma halted_set_fail s : halted (on_vblk virtio_blk_set_fail s).
Proof.
  left. change (vblk (dev (on_vblk ?f ?x))) with (f (vblk (dev x))).
  unfold virtio_blk_set_fail, on_regs, virtio_set_fail. cbv zeta. cbn [vblk_regs].
  assert (B : forall x, Z.testbit (Z.lor x VIRTIO_STATUS__DEVICE_NEEDS_RESET) 6 = true)
    by (intros x; rewrite Z.lor_spec; apply orb_true_r).
  match goal with |- context [if ?c then _ else _] => destruct c end; apply B.
Qed.

(** Requests between two 16-bit ring indices. *)
Definition pending (last new : Z) : Z := (new - last) mod 2 ^ 16.

Lemma pending_step last new : 0 <= last < 2 ^ 16 -> 0 <= new < 2 ^ 16 -> last <> new ->
  pending last new = 1 + pending (u16 (last + 1)) new.
Proof.
  unfold pending, u16. change (2 ^ 16) with 65536. intros. Z.div_mod_to_equations. lia.
Qed.

Lemma blk_process_spec fuel : forall i new used s,
  0 <= i < Z.of_nat (length (qs s)) -> 0 <= last_avail (blk_queue s i) < 2 ^ 16 -> 0 <= new < 2 ^ 16 ->
  pending (last_avail (blk_queue s i)) new < Z.of_nat fuel ->
  let '(r, s') := blk_process fuel i new used s in
  match r with
  | Some used' => last_avail (blk_queue s' i) = new /\
      used' mod 2 ^ 16 = (used + pending (last_avail (blk_queue s i)) new) mod 2 ^ 16
  | None => halted s'
  end.
Proof.
  induction fuel as [|fuel IH]; intros i new used s Hi Hl Hn Hf.
  { pose proof (Z.mod_pos_bound (new - last_avail (blk_queue s i)) (2 ^ 16)). unfold pending in Hf. lia. }
  cbn [blk_process]. set (q := blk_queue s i) in *.
  destruct (Z.eqb_spec (last_avail q) new) as [Eq|Ne].
  { split; [done|]. unfold pending. rewrite Eq, Z.sub_diag. by rewrite Z.add_0_r. }
  destruct (QueueNum q =? 0); [by right|].
  unfold avail_entry, ram_get. set (s1 := touch _ 4 s).
  assert (Q1 : qs s1 = qs s) by apply qs_touch.
  match goal with |- context [virtio_blk_desc_handler q ?b s1] =>
    pose proof (qs_desc_handler q b s1) as Q2; destruct (virtio_blk_desc_handler q b s1) as [[len|] s2] end;
    [|apply halted_set_fail].
  cbn [snd] in Q2. set (s3 := used_append _ _ _ _ s2).
  assert (Q3 : qs s3 = qs s) by (unfold s3; rewrite qs_used_append; congruence).
  set (s4 := on_vblk _ s3).
  assert (Q4 : qs s4 = arr_set (qs s) i (q <| last_avail := u16 (last_avail q + 1) |>)).
  { unfold q, blk_queue, queue_at. fold (qs s). rewrite <- Q3. reflexivity. }
  assert (B4 : blk_queue s4 i = q <| last_avail := u16 (last_avail q + 1) |>).
  { unfold blk_queue, queue_at. fold (qs s4). rewrite Q4. by apply arr_get_set_eq. }
  assert (L4 : last_avail (blk_queue s4 i) = u16 (last_avail q + 1)) by by rewrite B4.
  pose proof (pending_step (last_avail q) new Hl Hn Ne) as Hp.
  specialize (IH i new (u16 (used + 1)) s4). rewrite L4 in IH.
  destruct (blk_process fuel i new _ s4) as [[u|] s5].
  - destruct IH as [H1 H2]; [by rewrite Q4, length_arr_set|apply Z.mod_pos_bound; lia|done|lia|].
    split; [done|]. rewrite H2, Hp. unfold u16. rewrite Z.add_mod_idemp_l by lia. f_equal. lia.
  - apply IH; [by rewrite Q4, length_arr_set|apply Z.mod_pos_bound; lia|done|lia].
Qed.

(** C11: The notification handler's loop terminates having answered every request
    or stopped the device. With the bound the model gives it (every 16-bit ring
    distance), the loop never runs out: either it consumed all available entries,
    so that the device's index has caught up with the driver's and the used index
    has advanced by the number of requests, or the device is marked as needing a
    reset (or has divided by a zero queue size). *)
Theorem blk_process_complete i new used s :
  0 <= i < Z.of_nat (length (qs s)) -> 0 <= last_avail (blk_queue s i) < 2 ^ 16 -> 0 <= new < 2 ^ 16 ->
  let '(r, s') := blk_process (Z.to_nat 65536) i new used s in
  match r with
  | Some used' => last_avail (blk_queue s' i) = new /\
      used' mod 2 ^ 16 = (used + pending (last_avail (blk_queue s i)) new) mod 2 ^ 16
  | None => halted s'
  end.
Proof.
  intros. apply blk_process_spec; try done.
  pose proof (Z.mod_pos_bound (new - last_avail (blk_queue s i)) (2 ^ 16)). unfold pending. lia.
Qed.
End Process.
