(* ===== verification/Platform.v ===== *)
(** * The platform: memory map and interrupt wiring (main.c)

    [mem_load] and [mem_store] route an access to RAM or a device;
    [emu_update_*] wire the devices' interrupt lines to the PLIC and the harts;
    [emu_tick_peripherals] polls them. Together they are the bus the processor
    core sees: the [Bus] instance at the end. *)

From stdpp Require Import base gmap list.
From Stdlib Require Import ZArith Lia Bool.
From S2P Require Import Prelude Isa Hart Machine Mmu Loops Device Timer Plic Aclint Uart.
From S2P Require Import Virtio VirtioBlk VirtioRng.
Open Scope Z_scope.

(* [device.h:53-54] *)
Definition IRQ_UART_BIT := Z.shiftl 1 1.
(* [device.h:144-145] *)
Definition IRQ_VBLK_BIT := Z.shiftl 1 3.
(* [device.h:193-194] *)
Definition IRQ_VRNG_BIT := Z.shiftl 1 4.

Section Platform.
Context {E : Type} `{HostE : Host E} {CoroE : Coro E}.
Abbreviation M := (machine (emu_state_t E)).
Implicit Types s : M.

(* [main.c:59-68] mem_fetch *)
Definition emu_mem_fetch (n_pages : Z) s : option Z * M :=
  if RAM_SIZE / RV_PAGE_SIZE <=? n_pages
  then (None, raise RV_EXC_FETCH_FAULT (exc_val (hart s)) s)
  else (Some (4 * shl32 n_pages (RV_PAGE_SHIFT - 2)), s).

(* [main.c:71-77] mem_page_table *)
Definition emu_mem_page_table s (ppn : Z) : option Z :=
  if ppn <? RAM_SIZE / RV_PAGE_SIZE then Some (4 * shl32 ppn (RV_PAGE_SHIFT - 2)) else None.

(** [if (cond) active |= bit; else active &= ~bit;] *)
Definition set_line (cond : bool) (bit : Z) s : M :=
  on_plic (fun p => p <| active := if cond then Z.lor (active p) bit
                                   else Z.land (active p) (not32 bit) |>) s.

(* [main.c:79-88] emu_update_uart_interrupts *)
Definition emu_update_uart_interrupts s : M :=
  let s := on_uart u8250_update_interrupts s in
  plic_update_interrupts (set_line (nz (pending_ints (uart (dev s)))) IRQ_UART_BIT s).

(* [main.c:103-111] emu_update_vblk_interrupts *)
Definition emu_update_vblk_interrupts s : M :=
  plic_update_interrupts (set_line (nz (InterruptStatus (vblk_regs (vblk (dev s))))) IRQ_VBLK_BIT s).

(* [main.c:115-123] emu_update_vrng_interrupts *)
Definition emu_update_vrng_interrupts s : M :=
  plic_update_interrupts (set_line (nz (InterruptStatus (vrng (dev s)))) IRQ_VRNG_BIT s).

(* [main.c:160-167] emu_update_timer_interrupt *)
Definition emu_update_timer_interrupt s : M :=
  let s := on_hart (fun h => h <| time := mtime (mtimer (dev s)) |>) s in
  aclint_mtimer_update_interrupts s.

(* [main.c:169-174] emu_update_swi_interrupt *)
Definition emu_update_swi_interrupt s : M :=
  aclint_sswi_update_interrupts (aclint_mswi_update_interrupts s).

(* [main.c:219-276] emu_tick_peripherals *)
Definition emu_tick_peripherals s : M :=
  let ctr := peripheral_update_ctr (dev s) in
  let s := on_dev (fun d => d <| peripheral_update_ctr := u32 (ctr - 1) |>) s in
  if ctr =? 0 then
    let s := on_dev (fun d => d <| peripheral_update_ctr := 64 |>) s in
    let s := u8250_check_ready s in
    let s := u8250_flush_out s in
    let s := if in_ready (uart (dev s)) then emu_update_uart_interrupts s else s in
    let s := if nz (InterruptStatus (vblk_regs (vblk (dev s)))) then emu_update_vblk_interrupts s else s in
    if nz (InterruptStatus (vrng (dev s))) then emu_update_vrng_interrupts s else s
  else s.

(** [(addr >> 20) & MASK(8)] inside the MMIO window. *)
Definition mmio_region (addr : Z) : Z := Z.land (Z.shiftr addr 20) (MASK 8).

(* [main.c:278-356] mem_load *)
Definition emu_mem_load (addr width : Z) s : option Z * M :=
  if addr <? RAM_SIZE then ram_read addr width s
  else
    let bad := (None, raise RV_EXC_LOAD_FAULT (exc_val (hart s)) s) in
    if Z.shiftr addr 28 =? 0xF then
      match mmio_region addr with
      | 0x0 | 0x2 => plic_read (Z.land addr 0x3FFFFFF) width s
      | 0x40 =>
          let '(v, s) := u8250_read (Z.land addr 0xFFFFF) width s in
          (v, emu_update_uart_interrupts s)
      | 0x42 => virtio_blk_read (Z.land addr 0xFFFFF) width s
      | 0x43 => aclint_mtimer_read (Z.land addr 0xFFFFF) width s
      | 0x44 => aclint_mswi_read (Z.land addr 0xFFFFF) width s
      | 0x45 => aclint_sswi_read (Z.land addr 0xFFFFF) width s
      | 0x46 => virtio_rng_read (Z.land addr 0xFFFFF) width s
      | _ => bad
      end
    else bad.

(* [main.c:358-449] mem_store *)
Definition emu_mem_store (addr width value : Z) s : M :=
  if addr <? RAM_SIZE then ram_write addr width value s
  else
    let bad := raise RV_EXC_STORE_FAULT (exc_val (hart s)) s in
    if Z.shiftr addr 28 =? 0xF then
      match mmio_region addr with
      | 0x0 | 0x2 => plic_update_interrupts (plic_write (Z.land addr 0x3FFFFFF) width value s)
      | 0x40 => emu_update_uart_interrupts (u8250_write (Z.land addr 0xFFFFF) width value s)
      | 0x42 => emu_update_vblk_interrupts (virtio_blk_write (Z.land addr 0xFFFFF) width value s)
      | 0x43 => aclint_mtimer_update_interrupts (aclint_mtimer_write (Z.land addr 0xFFFFF) width value s)
      | 0x44 => aclint_mswi_update_interrupts (aclint_mswi_write (Z.land addr 0xFFFFF) width value s)
      | 0x45 => aclint_sswi_update_interrupts (aclint_sswi_write (Z.land addr 0xFFFFF) width value s)
      | 0x46 => emu_update_vrng_interrupts (virtio_rng_write (Z.land addr 0xFFFFF) width value s)
      | _ => bad
      end
    else bad.

(* [main.c:1130-1156] wfi_handler *)
Definition wfi_handler s : M :=
  if negb (nz (Z.land (sip (hart s)) (sie (hart s)))) then
    if 1 <? n_hart s then coro_yield (on_hart (fun h => h <| in_wfi := true |>) s) else s
  else on_hart (fun h => h <| in_wfi := false |>) s.

(** [data->sswi.ssip[vm->mhartid] = 0] *)
(* [riscv.c:1487-1490] *)
Definition emu_clear_ssip s : M :=
  on_dev (fun d => d <| sswi := (sswi d) <| ssip := arr_set (ssip (sswi d)) (mhartid (hart s)) 0 |> |>) s.

(** The callbacks [INIT_HART] installs. *)
#[export] Instance emu_bus : Bus (emu_state_t E) := {
  mem_fetch := emu_mem_fetch;
  mem_load := emu_mem_load;
  mem_store := emu_mem_store;
  mem_page_table := emu_mem_page_table;
  wfi := wfi_handler;
  clear_ssip := emu_clear_ssip;
  timer_get := semu_timer_get }.
End Platform.
