(* ===== verification/Atomics.v ===== *)
(** * Load-reserved / store-conditional across harts

    [do_store] tests the reservation of a store-conditional and drops the
    reservations every hart holds on the stored word. *)

From stdpp Require Import base gmap list.
From Stdlib Require Import ZArith Lia Bool.
From S2P Require Import Prelude Bits Isa Hart Machine Mmu Exec Arch RamProps Tlb TlbStore.
From S2P Require Import Loops Device Platform.
Open Scope Z_scope.

(** The reservation LR.W of the word at [pa] leaves. *)
Definition reservation (pa : Z) : Z := Z.lor pa 1.

(** [h] holds a reservation on the word that contains [pa]. *)
Definition reserves (h : hart_t) (pa : Z) : Prop :=
  Z.odd (lr_reservation h) = true /\ lr_reservation h / 4 = pa / 4.

Lemma clear_low_bits x : is_u32 x -> Z.land x (not32 3) = 4 * (x / 4).
Proof.
  intros Hx. change (not32 3) with (2 ^ 32 - 4).
  assert (E : Z.land x (2 ^ 32 - 4) = Z.ldiff x (Z.ones 2)).
  { apply Z.bits_inj'. intros n Hn. rewrite Z.land_spec, Z.ldiff_spec.
    rewrite (Z.testbit_ones_nonneg 2) by lia.
    change (2 ^ 32 - 4) with (Z.shiftl (Z.ones 30) 2). rewrite Z.shiftl_spec by lia.
    destruct (Z.ltb_spec n 2); cbn [negb].
    - rewrite (Z.testbit_neg_r (Z.ones 30)) by lia. done.
    - destruct (Z.ltb_spec n 32).
      + rewrite Z.ones_spec_low by lia. done.
      + rewrite (testbit_u32_high x n) by (done || lia). done. }
  rewrite E, Z.ldiff_ones_r, Z.shiftr_div_pow2, Z.shiftl_mul_pow2 by lia. change (2 ^ 2) with 4. lia.
Qed.

Lemma break_reservation_spec pa h : is_u32 pa -> is_u32 (lr_reservation h) ->
  (reserves h pa /\ lr_reservation (break_reservation pa h) = 0) \/
  (~ reserves h pa /\ break_reservation pa h = h).
Proof.
  intros Hp Hl. unfold break_reservation, reserves.
  rewrite !clear_low_bits by done.
  assert (O : nz (Z.land (lr_reservation h) 1) = Z.odd (lr_reservation h)).
  { change 1 with (Z.ones 1). rewrite Z.land_ones by lia. unfold nz.
    rewrite Zmod_odd. by destruct (Z.odd _). }
  rewrite O. destruct (Z.odd (lr_reservation h)) eqn:Ho; cbn [andb]; [|right; split; [by intros []|done]].
  destruct (Z.eqb_spec (4 * (lr_reservation h / 4)) (4 * (pa / 4))).
  - left. split; [|done]. split; [done|lia].
  - right. split; [|done]. intros [_ H]. lia.
Qed.

Lemma reservation_reserves h pa : pa mod 4 = 0 -> lr_reservation h = reservation pa -> reserves h pa.
Proof.
  intros Ha E. unfold reserves, reservation in *. rewrite E.
  assert (L : Z.lor pa 1 = pa + 1).
  { rewrite <- Z.add_lor_land. assert (Z.land pa 1 = 0); [|lia].
    change 1 with (Z.ones 1). rewrite Z.land_ones by lia. Z.div_mod_to_equations. lia. }
  rewrite L. split.
  - rewrite Z.add_1_r, Z.odd_succ. rewrite (Z.div_mod pa 4), Ha by lia.
    rewrite Z.add_0_r, Z.even_mul. done.
  - Z.div_mod_to_equations. lia.
Qed.

Section Atomics.
Context {E : Type} `{HostE : Host E} {CoroE : Coro E}.
Implicit Types s : machine (emu_state_t E).

(** The harts of a machine: the running one is one of the array, under its id. *)
Definition harts_ok s : Prop :=
  0 <= mhartid (hart s) < n_hart s /\ forall j, 0 <= j < n_hart s -> is_u32 (lr_reservation (hart_at s j)).

Lemma break_keeps_id pa : keeps_id (break_reservation pa).
Proof. intros h. unfold break_reservation. by destruct (_ && _). Qed.

Lemma break_all_at pa s j : harts_ok s -> 0 <= j < n_hart s ->
  hart_at (break_all pa s) j = break_reservation pa (hart_at s j).
Proof.
  intros [Hid _] Hj. unfold break_all. destruct (Z.eqb_spec (n_hart s) 1) as [En|En].
  - unfold hart_at. change (hart (on_hart _ s)) with (break_reservation pa (hart s)).
    rewrite break_keeps_id. replace j with (mhartid (hart s)) by lia. by rewrite Z.eqb_refl.
  - apply (for_all_harts_at (fun _ => break_reservation pa)); [intros i; apply break_keeps_id|done].
Qed.

Lemma break_all_id pa s : mhartid (hart (break_all pa s)) = mhartid (hart s).
Proof.
  unfold break_all. destruct (_ =? 1); [apply break_keeps_id|].
  apply (for_harts_env _ 0 (fun _ => break_reservation pa)). intros i. apply break_keeps_id.
Qed.

(** A RAM write changes no reservation. *)
Definition same_res s s' : Prop :=
  mhartid (hart s') = mhartid (hart s) /\ lr_reservation (hart s') = lr_reservation (hart s) /\
  peers s' = peers s.

Lemma same_res_at s s' j : same_res s s' -> lr_reservation (hart_at s' j) = lr_reservation (hart_at s j).
Proof. intros (H1 & H2 & H3). unfold hart_at. rewrite H1, H3. by destruct (j =? _). Qed.

Lemma same_res_write p pa w v s : same_res s (ram_write_fast p pa w v s).
Proof. unfold ram_write_fast, wr32, touch. cbv zeta. repeat case_match; done. Qed.

Lemma same_res_lookup pa s : same_res s (snd (ram_cache_lookup pa true s)).
Proof. unfold ram_cache_lookup. cbv zeta. repeat case_match; done. Qed.

Lemma same_res_ram_write pa w v s : same_res s (ram_write pa w v s).
Proof. unfold ram_write, wr32, touch. cbv zeta. repeat case_match; done. Qed.

Lemma same_res_trans s1 s2 s3 : same_res s1 s2 -> same_res s2 s3 -> same_res s1 s3.
Proof. unfold same_res. intros (-> & -> & ->) (-> & -> & ->). done. Qed.

Lemma do_store_res pa w v c s : pa < RAM_SIZE ->
  do_store 0 pa w v c s =
    (if c && negb (lr_reservation (hart s) =? reservation pa) then (false, s)
     else (true, snd (do_store 0 pa w v false s))) /\
  same_res (break_all pa s) (snd (do_store 0 pa w v false s)).
Proof.
  intros Hp. unfold do_store. fold (break_all pa s). change (reservation pa) with (Z.lor pa 1).
  cbn [andb nz negb Z.eqb].
  pose proof (same_res_lookup pa (break_all pa s)) as L.
  destruct (ram_cache_lookup pa true (break_all pa s)) as [[p|] s2]; cbn [snd] in L |- *.
  - split; [by destruct (c && _)|]. eapply same_res_trans; [exact L|apply same_res_write].
  - cbn [mem_store emu_bus]. unfold emu_mem_store. destruct (Z.ltb_spec pa RAM_SIZE); [|lia]. split; [by destruct (c && _)|].
    eapply same_res_trans; [exact L|apply same_res_ram_write].
Qed.

End Atomics.
