(* ===== verification/Frame.v ===== *)
(** * Device code does not look at the hart

    Most device code works on RAM, its own registers and the host, and neither
    reads nor writes the hart that made the access: running it commutes with
    replacing that hart. This file proves it function by function; the platform
    laws follow from it. *)

From stdpp Require Import base gmap list.
From Stdlib Require Import ZArith Lia Bool.
From S2P Require Import Prelude Isa Hart Machine Loops Device Timer Plic Aclint Uart Virtio.
From S2P Require Import VirtioBlk VirtioRng Platform.
Open Scope Z_scope.

Create HintDb agn.
Create Rewrite HintDb agn.

Section Frame.
Context {D : Type}.
Implicit Types s : machine D.

Definition with_hart (h : hart_t) s : machine D := s <| hart := h |>.

(** [f] ignores the hart. *)
Definition agnostic (f : machine D -> machine D) : Prop :=
  forall h s, f (with_hart h s) = with_hart h (f s).
Definition agnosticr {A} (f : machine D -> A * machine D) : Prop :=
  forall h s, f (with_hart h s) = (fst (f s), with_hart h (snd (f s))).

Lemma with_hart_eta s : with_hart (hart s) s = s.
Proof. by destruct s. Qed.

(** Such a function leaves it alone. *)
Lemma agnostic_hart f s : agnostic f -> hart (f s) = hart s.
Proof. intros Hf. rewrite <- (with_hart_eta s) at 1. by rewrite Hf. Qed.
Lemma agnosticr_hart {A} (f : machine D -> A * machine D) s : agnosticr f ->
  hart (snd (f s)) = hart s.
Proof. intros Hf. rewrite <- (with_hart_eta s) at 1. by rewrite Hf. Qed.

Lemma dev_wh h s : dev (with_hart h s) = dev s. Proof. done. Qed.
Lemma ram_wh h s : ram (with_hart h s) = ram s. Proof. done. Qed.
Lemma boot_wh h s : boot_complete (with_hart h s) = boot_complete s. Proof. done. Qed.
Lemma rd32_wh h s o : rd32 (with_hart h s) o = rd32 s o. Proof. done. Qed.
Lemma rd8_wh h s o : rd8 (with_hart h s) o = rd8 s o. Proof. done. Qed.
Lemma rd32_any_wh h s o : rd32_any (with_hart h s) o = rd32_any s o. Proof. done. Qed.
Lemma on_dev_wh f : agnostic (on_dev f). Proof. done. Qed.
Lemma touch_wh o l : agnostic (touch o l).
Proof. intros h s. unfold touch. by destruct (in_ram o l). Qed.
Lemma wr32_wh o v : agnostic (wr32 o v).
Proof. intros h s. unfold wr32. by rewrite touch_wh, ram_wh. Qed.
Lemma ram_get_wh i : agnosticr (ram_get i).
Proof. intros h s. unfold ram_get. by rewrite touch_wh. Qed.
Lemma ram_put_wh i v : agnostic (ram_put i v).
Proof. intros h s. unfold ram_put. apply wr32_wh. Qed.
Lemma wr8_wh o v : agnostic (wr8 o v).
Proof. intros h s. unfold wr8. by rewrite touch_wh, ram_wh, rd32_wh. Qed.
Lemma dma_write_wh o bs : agnostic (dma_write o bs).
Proof.
  intros h s. revert o s. induction bs as [|b bs IH]; intros o s; [done|].
  cbn [dma_write]. by rewrite wr8_wh, IH.
Qed.
Lemma dma_read_wh o n : agnosticr (dma_read o n).
Proof. intros h s. unfold dma_read. by rewrite touch_wh. Qed.
Lemma read_desc_wh i : agnosticr (read_desc i).
Proof. intros h s. unfold read_desc. by rewrite touch_wh. Qed.
End Frame.

#[export] Hint Rewrite @dev_wh @ram_wh @boot_wh @rd32_wh @rd8_wh @rd32_any_wh : agn.
#[export] Hint Rewrite @on_dev_wh @touch_wh @wr32_wh @ram_get_wh @ram_put_wh @wr8_wh
  @dma_write_wh @dma_read_wh @read_desc_wh : agn.

(** Push the replaced hart outward through every call and branch. *)
Ltac agn_step :=
  autorewrite with agn; cbn [fst snd];
  let case_on x :=
    lazymatch x with context [match _ with _ => _ end] => fail | _ => destruct x eqn:? end in
  try match goal with
  | |- context [snd ?y] => case_on y
  | |- context [fst ?y] => case_on y
  | |- context [match ?x with _ => _ end] => case_on x
  end.
Ltac agn := intros ? ?; repeat (progress agn_step); first [reflexivity | congruence | idtac].

Section FrameDma.
Context {D : Type}.
Lemma avail_entry_wh q i : agnosticr (D:=D) (avail_entry q i).
Proof. unfold avail_entry. agn. Qed.
Lemma used_append_wh q u i l : agnostic (D:=D) (used_append q u i l).
Proof. unfold used_append. agn. Qed.
Lemma used_publish_wh q u : agnostic (D:=D) (used_publish q u).
Proof. unfold used_publish. agn. Qed.
End FrameDma.
#[export] Hint Rewrite @avail_entry_wh @used_append_wh @used_publish_wh : agn.

Section FrameDevices.
Context {E : Type} `{HostE : Host E} {CoroE : Coro E}.
Abbreviation M := (machine (emu_state_t E)).

Lemma on_host_wh {A} (f : E -> A * E) : agnosticr (on_host f).
Proof. unfold on_host. agn. Qed.
Lemma on_plic_wh f : agnostic (on_plic (E:=E) f). Proof. done. Qed.
Lemma on_uart_wh f : agnostic (on_uart (E:=E) f). Proof. done. Qed.
Lemma on_vblk_wh f : agnostic (on_vblk (E:=E) f). Proof. done. Qed.
Lemma on_vrng_wh f : agnostic (on_vrng (E:=E) f). Proof. done. Qed.
Lemma on_mtimer_wh f : agnostic (on_mtimer (E:=E) f). Proof. done. Qed.
Lemma on_tstatic_wh f : agnostic (on_tstatic (E:=E) f). Proof. done. Qed.
Lemma on_uart_host_wh f : agnostic (on_uart_host (E:=E) f).
Proof. unfold on_uart_host. agn. Qed.
Hint Rewrite @on_host_wh @on_plic_wh @on_uart_wh @on_vblk_wh @on_vrng_wh @on_mtimer_wh
  @on_tstatic_wh @on_uart_host_wh : agn.

Lemma host_time_ns_wh : agnosticr (host_time_ns (E:=E)).
Proof. unfold host_time_ns. agn. Qed.
Hint Rewrite @host_time_ns_wh : agn.
Lemma clocksource_wh t : agnosticr (semu_timer_clocksource (E:=E) t).
Proof. unfold semu_timer_clocksource. agn. Qed.
Hint Rewrite @clocksource_wh : agn.
Lemma timer_get_wh t : agnosticr (semu_timer_get (E:=E) t).
Proof. unfold semu_timer_get. agn. Qed.
Lemma timer_rebase_wh t v : agnosticr (semu_timer_rebase (E:=E) t v).
Proof. unfold semu_timer_rebase. agn. Qed.
Hint Rewrite @timer_get_wh @timer_rebase_wh : agn.
Lemma mtimer_reg_read_wh a : agnosticr (aclint_mtimer_reg_read (E:=E) a).
Proof. unfold aclint_mtimer_reg_read. agn. Qed.
Lemma mtimer_reg_write_wh a v : agnosticr (aclint_mtimer_reg_write (E:=E) a v).
Proof. unfold aclint_mtimer_reg_write. agn. Qed.

Lemma check_ready_wh : agnostic (u8250_check_ready (E:=E)).
Proof. unfold u8250_check_ready. agn. Qed.
Lemma flush_out_wh : agnostic (u8250_flush_out (E:=E)).
Proof. unfold u8250_flush_out. agn. Qed.
Lemma handle_out_wh v : agnostic (u8250_handle_out (E:=E) v).
Proof. unfold u8250_handle_out. agn. Qed.
Hint Rewrite @check_ready_wh @flush_out_wh @handle_out_wh : agn.
Lemma read_input_wh : agnosticr (read_input (E:=E)).
Proof. unfold read_input. agn. Qed.
Lemma uart_reg_write_wh a v : agnostic (u8250_reg_write (E:=E) a v).
Proof. unfold u8250_reg_write. agn. Qed.

Lemma write_handler_wh a b c : agnostic (virtio_blk_write_handler (E:=E) a b c).
Proof. unfold virtio_blk_write_handler. agn. Qed.
Lemma read_handler_wh a b c : agnostic (virtio_blk_read_handler (E:=E) a b c).
Proof. unfold virtio_blk_read_handler. agn. Qed.
Hint Rewrite @write_handler_wh @read_handler_wh : agn.
Lemma collect_descs_wh n q i : agnosticr (collect_descs (E:=E) n q i).
Proof.
  revert i. induction n as [|n IH]; intros i; [done|]. cbn [collect_descs].
  intros h s. autorewrite with agn. destruct (_ <=? _); [done|]. autorewrite with agn.
  destruct (read_desc _ s) as [d s1]. cbn [fst snd]. rewrite IH.
  by destruct (collect_descs n q (d_next d) s1).
Qed.
Lemma request_wh d0 d1 d2 : agnosticr (virtio_blk_request (E:=E) d0 d1 d2).
Proof. unfold virtio_blk_request. agn. Qed.
Hint Rewrite @collect_descs_wh @request_wh : agn.
Lemma desc_handler_wh q i : agnosticr (virtio_blk_desc_handler (E:=E) q i).
Proof. unfold virtio_blk_desc_handler. agn. Qed.
Hint Rewrite @desc_handler_wh : agn.
Lemma blk_process_wh n i a u : agnosticr (blk_process (E:=E) n i a u).
Proof.
  revert u. induction n as [|n IH]; intros u h s; [done|]. cbn [blk_process].
  change (blk_queue (with_hart h s) i) with (blk_queue s i).
  repeat (progress (rewrite ?IH; agn_step)); first [reflexivity | congruence].
Qed.
Hint Rewrite @blk_process_wh : agn.
Lemma blk_notify_wh i : agnostic (blk_queue_notify_handler (E:=E) i).
Proof.
  unfold blk_queue_notify_handler. intros h s.
  change (blk_queue (with_hart h s) i) with (blk_queue s i). revert h s. agn.
Qed.
Hint Rewrite @blk_notify_wh : agn.
Lemma blk_reg_write_wh a v : agnosticr (virtio_blk_reg_write (E:=E) a v).
Proof. unfold virtio_blk_reg_write. agn. Qed.

Lemma clear_desc_flags_wh i : agnostic (clear_desc_flags (E:=E) i).
Proof. unfold clear_desc_flags. agn. Qed.
Hint Rewrite @clear_desc_flags_wh : agn.
Lemma rng_notify_wh : agnostic (rng_queue_notify_handler (E:=E)).
Proof.
  unfold rng_queue_notify_handler. intros h s.
  change (rng_queue (with_hart h s)) with (rng_queue s). revert h s. agn.
Qed.
Hint Rewrite @rng_notify_wh : agn.
Lemma rng_reg_write_wh a v : agnosticr (virtio_rng_reg_write (E:=E) a v).
Proof. unfold virtio_rng_reg_write. agn. Qed.
End FrameDevices.
#[export] Hint Rewrite @on_host_wh @on_plic_wh @on_uart_wh @on_vblk_wh @on_vrng_wh @on_mtimer_wh
  @on_tstatic_wh @on_uart_host_wh : agn.
