(* ===== verification/PlatformLaws.v ===== *)
(** * The platform is a lawful bus

    Discharges [BusLaws], the contract the processor core's theorems assume, for
    the memory map of main.c in single-hart operation, where no coroutine runs
    and [coro_current_hart_id] is [CORO_INVALID_ID]. *)

From stdpp Require Import base gmap list.
From Stdlib Require Import ZArith Lia Bool.
From S2P Require Import Prelude Isa Hart Machine Mmu Arch RamProps Loops Device Timer Plic.
From S2P Require Import Aclint Uart Virtio VirtioBlk VirtioRng Platform Frame.
Open Scope Z_scope.

(** No coroutine is executing: [coro_init] was not called. *)
Class NoCoro (E : Type) `{Coro E} := no_coro : forall e, coro_current_hart_id e = 0xFFFFFFFF.

(** ** Frames *)

Definition set5 (src h : hart_t) : hart_t :=
  h <| error := error src |> <| exc_cause := exc_cause src |> <| exc_val := exc_val src |>
    <| sip := sip src |> <| in_wfi := in_wfi src |>.

Lemma bus_frame_refl h : bus_frame h h.
Proof. unfold bus_frame. by destruct h. Qed.

Lemma set5_set5 a b h : set5 a (set5 b h) = set5 a h.
Proof. reflexivity. Qed.

Lemma bus_frame_trans h1 h2 h3 : bus_frame h1 h2 -> bus_frame h2 h3 -> bus_frame h1 h3.
Proof.
  change (h2 = set5 h2 h1 -> h3 = set5 h3 h2 -> h3 = set5 h3 h1).
  intros H12 H23. rewrite H23 at 1. rewrite H12. apply set5_set5.
Qed.

Lemma bus_frame_raise h c v : bus_frame h (vm_set_exception h c v).
Proof. unfold bus_frame. by destruct h. Qed.

Lemma bus_frame_signal p i h : bus_frame h (plic_signal p i h).
Proof. unfold plic_signal, bus_frame. case_match; by destruct h. Qed.

Lemma bus_frame_pending c b h : bus_frame h (set_pending c b h).
Proof. unfold set_pending, bus_frame. case_match; by destruct h. Qed.

Lemma erase_signal p i h : erase (plic_signal p i h) = plic_signal p i (erase h).
Proof. unfold plic_signal. by case_match. Qed.
Lemma erase_pending c b h : erase (set_pending c b h) = set_pending c b (erase h).
Proof. unfold set_pending. by case_match. Qed.

Section Natural.
Context {D : Type}.
Implicit Types s : machine D.

(** Operations that commute with forgetting the caches and stay in the frame. *)
Definition lawful (f : machine D -> machine D) : Prop :=
  forall s, arch (f s) = f (arch s) /\ bus_frame (hart s) (hart (f s)).
Definition lawfulr {A} (f : machine D -> A * machine D) : Prop :=
  forall s, archr (f s) = f (arch s) /\ bus_frame (hart s) (hart (snd (f s))).

Lemma arch_with s : arch s = with_hart (erase (hart s)) s.
Proof. reflexivity. Qed.

Lemma agnostic_lawful f : agnostic f -> lawful f.
Proof.
  intros Hf s. rewrite !arch_with, Hf, (agnostic_hart f) by done.
  split; [done|apply bus_frame_refl].
Qed.

Lemma agnosticr_lawful {A} (f : machine D -> A * machine D) : agnosticr f -> lawfulr f.
Proof.
  intros Hf s. unfold archr. rewrite !arch_with, Hf, (agnosticr_hart f) by done.
  split; [done|apply bus_frame_refl].
Qed.

Lemma lawful_compose f g : lawful f -> lawful g -> lawful (fun s => f (g s)).
Proof.
  intros Hf Hg s. destruct (Hg s) as [Ga Gf]. destruct (Hf (g s)) as [Fa Ff].
  split; [by rewrite Fa, Ga|by eapply bus_frame_trans].
Qed.

(** Sequencing after an operation that returns a value. *)
Lemma lawfulr_bind {A B} (f : machine D -> A * machine D) (g : A -> machine D -> B * machine D) :
  lawfulr f -> (forall a, lawfulr (g a)) -> lawfulr (fun s => let '(a, s) := f s in g a s).
Proof.
  intros Hf Hg s. destruct (Hf s) as [Fa Ff]. destruct (f s) as [a s1]. cbn [snd] in Ff.
  rewrite archr_pair in Fa. rewrite <- Fa. destruct (Hg a s1) as [Ga Gf].
  split; [done|by eapply bus_frame_trans].
Qed.

Lemma lawful_bind {A} (f : machine D -> A * machine D) (g : A -> machine D -> machine D) :
  lawfulr f -> (forall a, lawful (g a)) -> lawful (fun s => let '(a, s) := f s in g a s).
Proof.
  intros Hf Hg s. destruct (Hf s) as [Fa Ff]. destruct (f s) as [a s1]. cbn [snd] in Ff.
  rewrite archr_pair in Fa. rewrite <- Fa. destruct (Hg a s1) as [Ga Gf].
  split; [done|by eapply bus_frame_trans].
Qed.

Lemma lawful_ret {A} (a : A) f : lawful f -> lawfulr (fun s => (a, f s)).
Proof. intros Hf s. destruct (Hf s) as [Fa Ff]. rewrite archr_pair, Fa. done. Qed.

Lemma lawful_id : lawful (fun s => s).
Proof. intros s. split; [done|apply bus_frame_refl]. Qed.

Lemma lawful_raise c v : lawful (raise c v).
Proof. intros s. split; [done|apply bus_frame_raise]. Qed.

Lemma lawful_fault c : lawful (fun s => raise c (exc_val (hart s)) s).
Proof. intros s. split; [done|apply bus_frame_raise]. Qed.

Lemma lawful_on_hart f : (forall h, erase (f h) = f (erase h)) -> (forall h, bus_frame h (f h)) ->
  lawful (on_hart f).
Proof. intros He Hf s. split; [by apply arch_on_hart|apply Hf]. Qed.

Lemma lawful_upd_hart i f : (forall h, erase (f h) = f (erase h)) -> (forall h, bus_frame h (f h)) ->
  lawful (upd_hart i f).
Proof.
  intros He Hf s. unfold upd_hart. change (mhartid (hart (arch s))) with (mhartid (hart s)).
  destruct (i =? mhartid (hart s)); [by apply lawful_on_hart|].
  split; [done|apply bus_frame_refl].
Qed.

Lemma lawful_for_harts n i g : (forall i h, erase (g i h) = g i (erase h)) ->
  (forall i h, bus_frame h (g i h)) -> lawful (for_harts n i (fun i => upd_hart i (g i))).
Proof.
  intros He Hf. revert i. induction n as [|n IH]; intros i s; [apply lawful_id|].
  cbn [for_harts]. destruct (lawful_upd_hart i (g i) (He i) (Hf i) s) as [Ua Uf].
  destruct (IH (i + 1) (upd_hart i (g i) s)) as [Ia If].
  split; [by rewrite Ia, Ua|by eapply bus_frame_trans].
Qed.

(** Case analysis on something both sides see alike. *)
Lemma lawful_if (b : machine D -> bool) f g : (forall s, b (arch s) = b s) ->
  lawful f -> lawful g -> lawful (fun s => if b s then f s else g s).
Proof. intros Hb Hf Hg s. rewrite Hb. destruct (b s); [apply Hf|apply Hg]. Qed.

Lemma lawfulr_if {A} (b : bool) (f g : machine D -> A * machine D) :
  lawfulr f -> lawfulr g -> lawfulr (fun s => if b then f s else g s).
Proof. intros Hf Hg. by destruct b. Qed.

Lemma lawful_bad {A} c : lawfulr (fun s : machine D => (None : option A, raise c (exc_val (hart s)) s)).
Proof. apply lawful_ret, lawful_fault. Qed.
Lemma lawful_ill {A} : lawfulr (fun s : machine D => (None : option A, raise RV_EXC_ILLEGAL_INSN 0 s)).
Proof. apply lawful_ret, lawful_raise. Qed.

Lemma lawful_ifc (b : bool) (f g : machine D -> machine D) : lawful f -> lawful g ->
  lawful (fun s => if b then f s else g s).
Proof. by destruct b. Qed.

Lemma lawful_fault_bind (f : machine D -> bool * machine D) : agnosticr f ->
  lawful (fun s => let '(ok, s) := f s in
    if ok then s else raise RV_EXC_STORE_FAULT (exc_val (hart s)) s).
Proof.
  intros Hf. apply (lawful_bind f (fun ok s => if ok : bool then s else
    raise RV_EXC_STORE_FAULT (exc_val (hart s)) s)); [by apply agnosticr_lawful|].
  intros ok. apply (lawful_ifc ok); [apply lawful_id|apply lawful_fault].
Qed.

Lemma lawful_ram_read a w : lawfulr (ram_read (D:=D) a w).
Proof.
  intros s. split; [apply archr_ram_read|]. unfold ram_read.
  repeat case_match; try apply bus_frame_raise.
  cbn [snd]. rewrite (agnostic_hart _ _ (touch_wh _ _)). apply bus_frame_refl.
Qed.

Lemma lawful_ram_write a w v : lawful (ram_write (D:=D) a w v).
Proof.
  intros s. split; [apply arch_ram_write|]. unfold ram_write.
  repeat case_match; try apply bus_frame_raise.
  rewrite (agnostic_hart _ _ (wr32_wh _ _)). apply bus_frame_refl.
Qed.

End Natural.

Section Laws.
Context {E : Type} `{HostE : Host E} {CoroE : Coro E} {NoC : NoCoro E}.
Abbreviation M := (machine (emu_state_t E)).
Implicit Types s : M.

Lemma lawful_plic_update : lawful (plic_update_interrupts (E:=E)).
Proof.
  intros s. unfold plic_update_interrupts, for_all_harts.
  rewrite (for_harts_dev _ _ (fun d i => plic_signal (plic d) i) (on_plic plic_latch s))
    by (intros; apply plic_signal_id).
  rewrite (for_harts_dev _ _ (fun d i => plic_signal (plic d) i) (on_plic plic_latch (arch s)))
    by (intros; apply plic_signal_id).
  change (dev (on_plic plic_latch (arch s))) with (dev (on_plic plic_latch s)).
  change (length (peers (on_plic plic_latch (arch s)))) with (length (peers (on_plic plic_latch s))).
  pose (g := fun i => plic_signal (plic (dev (on_plic plic_latch s))) i).
  exact (lawful_for_harts (D:=emu_state_t E) _ 0 g (fun i => erase_signal _ i)
    (fun i => bus_frame_signal _ i) (on_plic plic_latch s)).
Qed.

Lemma lawful_uart_update : lawful (emu_update_uart_interrupts (E:=E)).
Proof.
  apply (lawful_compose plic_update_interrupts
    (fun s => let s := on_uart u8250_update_interrupts s in
              set_line (nz (pending_ints (uart (dev s)))) IRQ_UART_BIT s)); [apply lawful_plic_update|].
  apply agnostic_lawful. done.
Qed.

Lemma lawful_vblk_update : lawful (emu_update_vblk_interrupts (E:=E)).
Proof.
  apply (lawful_compose plic_update_interrupts (fun s =>
    set_line (nz (InterruptStatus (vblk_regs (vblk (dev s))))) IRQ_VBLK_BIT s)); [apply lawful_plic_update|].
  apply agnostic_lawful. done.
Qed.

Lemma lawful_vrng_update : lawful (emu_update_vrng_interrupts (E:=E)).
Proof.
  apply (lawful_compose plic_update_interrupts (fun s =>
    set_line (nz (InterruptStatus (vrng (dev s)))) IRQ_VRNG_BIT s)); [apply lawful_plic_update|].
  apply agnostic_lawful. done.
Qed.

Lemma lawful_mtimer_update : lawful (aclint_mtimer_update_interrupts (E:=E)).
Proof.
  intros s. unfold aclint_mtimer_update_interrupts.
  change (dev (arch s)) with (dev s).
  destruct (agnosticr_lawful _ (timer_get_wh (mtime (mtimer (dev s)))) s) as [Ta Tf].
  destruct (semu_timer_get _ s) as [t s1]. rewrite archr_pair in Ta. rewrite <- Ta.
  change (dev (arch s1)) with (dev s1). change (mhartid (hart (arch s1))) with (mhartid (hart s1)).
  split; [by rewrite arch_on_hart by apply erase_pending|].
  eapply bus_frame_trans; [exact Tf|apply bus_frame_pending].
Qed.

Lemma lawful_mswi_update : lawful (aclint_mswi_update_interrupts (E:=E)).
Proof.
  intros s. unfold aclint_mswi_update_interrupts.
  split; [by rewrite arch_on_hart by apply erase_pending|apply bus_frame_pending].
Qed.
Lemma lawful_sswi_update : lawful (aclint_sswi_update_interrupts (E:=E)).
Proof.
  intros s. unfold aclint_sswi_update_interrupts.
  split; [by rewrite arch_on_hart by apply erase_pending|apply bus_frame_pending].
Qed.

(** ** Reads *)

Lemma wait_no_coro s : u8250_wait_for_input s = s.
Proof. unfold u8250_wait_for_input. by rewrite no_coro, Z.eqb_refl. Qed.

Lemma handle_in_wh : agnosticr (u8250_handle_in (E:=E)).
Proof.
  intros h s. unfold u8250_handle_in. cbv zeta. rewrite !wait_no_coro.
  rewrite !flush_out_wh, !check_ready_wh, !dev_wh, !read_input_wh.
  by destruct (in_ready _), (in_ready _).
Qed.

Lemma uart_reg_read_wh a : agnosticr (u8250_reg_read (E:=E) a).
Proof.
  intros h s. unfold u8250_reg_read. cbv zeta. rewrite dev_wh, handle_in_wh.
  repeat case_match; done.
Qed.

Lemma lawful_uart_read a w : lawfulr (u8250_read (E:=E) a w).
Proof.
  assert (R : forall f : Z -> Z,
    lawfulr (fun s : M => let '(v, s) := u8250_reg_read a s in (Some (f v), s))).
  { intros f. apply (lawfulr_bind (u8250_reg_read a) (fun v s => (Some (f v), s))).
    - apply agnosticr_lawful, uart_reg_read_wh.
    - intros v. apply lawful_ret, lawful_id. }
  unfold u8250_read.
  apply lawfulr_if; [exact (R (fun v => v))|]. apply lawfulr_if; [exact (R (fun v => u32 (s8 v)))|].
  apply lawfulr_if; [apply lawful_bad|apply lawful_ill].
Qed.

Lemma lawful_plic_read a w : lawfulr (plic_read (E:=E) a w).
Proof.
  apply lawfulr_if; [|apply lawfulr_if; [apply lawful_bad|apply lawful_ill]].
  intros s. change (dev (arch s)) with (dev s).
  destruct (plic_reg_read _ _) as [[v p]|]; [|by apply lawful_bad].
  split; [done|apply bus_frame_refl].
Qed.

Lemma lawful_vblk_read a w : lawfulr (virtio_blk_read (E:=E) a w).
Proof.
  apply lawfulr_if; [|apply lawfulr_if; [apply lawful_bad|apply lawful_ill]].
  intros s. change (dev (arch s)) with (dev s).
  destruct (virtio_blk_reg_read _ _) as [[v p]|]; [|by apply lawful_bad].
  split; [done|apply bus_frame_refl].
Qed.

Lemma lawful_vrng_read a w : lawfulr (virtio_rng_read (E:=E) a w).
Proof.
  apply lawfulr_if; [|apply lawfulr_if; [apply lawful_bad|apply lawful_ill]].
  intros s. change (dev (arch s)) with (dev s).
  destruct (virtio_rng_reg_read _ _) as [v|]; [|by apply lawful_bad].
  split; [done|apply bus_frame_refl].
Qed.

Lemma lawful_fault_if ok c : lawful (fun s : M => fault ok c s).
Proof. unfold fault. destruct ok; [apply lawful_id|apply lawful_fault]. Qed.

Lemma lawful_mtimer_read a w : lawfulr (aclint_mtimer_read (E:=E) a w).
Proof.
  apply (lawfulr_bind (aclint_mtimer_reg_read a) (fun v s =>
    (shift_down w v, fault (is_some v) RV_EXC_LOAD_FAULT s))).
  - apply agnosticr_lawful, mtimer_reg_read_wh.
  - intros v. apply lawful_ret, lawful_fault_if.
Qed.

Lemma lawful_mswi_read a w : lawfulr (aclint_mswi_read (E:=E) a w).
Proof.
  intros s. unfold aclint_mswi_read. change (dev (arch s)) with (dev s).
  exact (lawful_ret _ _ (lawful_fault_if _ _) s).
Qed.
Lemma lawful_sswi_read a w : lawfulr (aclint_sswi_read (E:=E) a w).
Proof.
  intros s. unfold aclint_sswi_read. change (dev (arch s)) with (dev s).
  exact (lawful_ret _ _ (lawful_fault_if _ _) s).
Qed.

Lemma lawful_mem_load a w : lawfulr (emu_mem_load (E:=E) a w).
Proof.
  unfold emu_mem_load. apply lawfulr_if; [apply lawful_ram_read|].
  cbv zeta. apply lawfulr_if; [|apply lawful_bad].
  assert (U : lawfulr (fun s : M => let '(v, s) := u8250_read (Z.land a 0xFFFFF) w s in
                       (v, emu_update_uart_interrupts s))).
  { apply (lawfulr_bind (u8250_read (Z.land a 0xFFFFF) w)
      (fun v s => (v, emu_update_uart_interrupts s))); [apply lawful_uart_read|].
    intros v. apply lawful_ret, lawful_uart_update. }
  repeat (case_match; try apply lawful_bad; try apply lawful_plic_read; try exact U;
    try apply lawful_vblk_read; try apply lawful_mtimer_read; try apply lawful_mswi_read;
    try apply lawful_sswi_read; try apply lawful_vrng_read).
Qed.

(** ** Writes *)

Lemma lawful_plic_write a w v : lawful (plic_write (E:=E) a w v).
Proof.
  apply lawful_ifc; [|apply lawful_ifc; [apply lawful_fault|apply lawful_raise]].
  intros s. change (dev (arch s)) with (dev s).
  destruct (plic_reg_write _ _ _) as [p|]; [|by apply lawful_fault].
  split; [done|apply bus_frame_refl].
Qed.

Lemma lawful_uart_write a w v : lawful (u8250_write (E:=E) a w v).
Proof.
  apply lawful_ifc; [|apply lawful_ifc; [apply lawful_fault|apply lawful_raise]].
  apply agnostic_lawful, uart_reg_write_wh.
Qed.

Lemma lawful_vblk_write a w v : lawful (virtio_blk_write (E:=E) a w v).
Proof.
  apply lawful_ifc; [|apply lawful_ifc; [apply lawful_fault|apply lawful_raise]].
  apply lawful_fault_bind, blk_reg_write_wh.
Qed.

Lemma lawful_vrng_write a w v : lawful (virtio_rng_write (E:=E) a w v).
Proof.
  apply lawful_ifc; [|apply lawful_ifc; [apply lawful_fault|apply lawful_raise]].
  apply lawful_fault_bind, rng_reg_write_wh.
Qed.

Lemma lawful_mtimer_write a w v : lawful (aclint_mtimer_write (E:=E) a w v).
Proof. apply (lawful_fault_bind (aclint_mtimer_reg_write a (shift_up w v))), mtimer_reg_write_wh. Qed.

Lemma lawful_mswi_write a w v : lawful (aclint_mswi_write (E:=E) a w v).
Proof.
  intros s. unfold aclint_mswi_write. change (dev (arch s)) with (dev s).
  destruct (aclint_mswi_reg_write _ _ _); [|by apply lawful_fault].
  split; [done|apply bus_frame_refl].
Qed.
Lemma lawful_sswi_write a w v : lawful (aclint_sswi_write (E:=E) a w v).
Proof.
  intros s. unfold aclint_sswi_write. change (dev (arch s)) with (dev s).
  destruct (aclint_sswi_reg_write _ _ _); [|by apply lawful_fault].
  split; [done|apply bus_frame_refl].
Qed.

Lemma lawful_mem_store a w v : lawful (emu_mem_store (E:=E) a w v).
Proof.
  unfold emu_mem_store. apply lawful_ifc; [apply lawful_ram_write|].
  cbv zeta. apply lawful_ifc; [|apply lawful_fault].
  assert (P : lawful (fun s : M => plic_update_interrupts (plic_write (Z.land a 0x3FFFFFF) w v s)))
    by (apply lawful_compose; [apply lawful_plic_update|apply lawful_plic_write]).
  assert (U : lawful (fun s : M => emu_update_uart_interrupts (u8250_write (Z.land a 0xFFFFF) w v s)))
    by (apply lawful_compose; [apply lawful_uart_update|apply lawful_uart_write]).
  assert (B : lawful (fun s : M => emu_update_vblk_interrupts (virtio_blk_write (Z.land a 0xFFFFF) w v s)))
    by (apply lawful_compose; [apply lawful_vblk_update|apply lawful_vblk_write]).
  assert (R : lawful (fun s : M => emu_update_vrng_interrupts (virtio_rng_write (Z.land a 0xFFFFF) w v s)))
    by (apply lawful_compose; [apply lawful_vrng_update|apply lawful_vrng_write]).
  assert (T : lawful (fun s : M => aclint_mtimer_update_interrupts (aclint_mtimer_write (Z.land a 0xFFFFF) w v s)))
    by (apply lawful_compose; [apply lawful_mtimer_update|apply lawful_mtimer_write]).
  assert (W : lawful (fun s : M => aclint_mswi_update_interrupts (aclint_mswi_write (Z.land a 0xFFFFF) w v s)))
    by (apply lawful_compose; [apply lawful_mswi_update|apply lawful_mswi_write]).
  assert (S : lawful (fun s : M => aclint_sswi_update_interrupts (aclint_sswi_write (Z.land a 0xFFFFF) w v s)))
    by (apply lawful_compose; [apply lawful_sswi_update|apply lawful_sswi_write]).
  destruct (mmio_region a) as [|p|p]; [exact P| |apply lawful_fault].
  repeat match goal with
  | |- lawful (fun _ => raise _ _ _) => exact (lawful_fault _)
  | |- lawful (fun _ => emu_update_uart_interrupts _) => exact U
  | |- lawful (fun _ => emu_update_vblk_interrupts _) => exact B
  | |- lawful (fun _ => emu_update_vrng_interrupts _) => exact R
  | |- lawful (fun _ => aclint_mtimer_update_interrupts _) => exact T
  | |- lawful (fun _ => aclint_mswi_update_interrupts _) => exact W
  | |- lawful (fun _ => aclint_sswi_update_interrupts _) => exact S
  | |- lawful (fun _ => plic_update_interrupts _) => exact P
  | q : positive |- _ => destruct q as [q|q|]
  end.
Qed.

(** Loads do not write RAM. *)
Definition same_ram s s' : Prop := ram s' = ram s /\ ram_ptr s' = ram_ptr s.

Lemma same_ram_trans s1 s2 s3 : same_ram s1 s2 -> same_ram s2 s3 -> same_ram s1 s3.
Proof. intros [A B] [C D]. split; congruence. Qed.

Lemma same_ram_on_host {A} (f : E -> A * E) s : same_ram s (snd (on_host f s)).
Proof. unfold on_host. by destruct (f _). Qed.

Lemma same_ram_check s : same_ram s (u8250_check_ready s).
Proof.
  unfold u8250_check_ready. destruct (in_ready _); [done|].
  pose proof (same_ram_on_host poll_in s) as H. destruct (on_host poll_in s) as [r s1].
  cbn [snd] in H. by destruct r.
Qed.

Lemma same_ram_flush s : same_ram s (u8250_flush_out s).
Proof. unfold u8250_flush_out, on_uart_host. by destruct (flush_out _ _). Qed.

Lemma same_ram_read_input s : same_ram s (snd (read_input s)).
Proof.
  unfold read_input. pose proof (same_ram_on_host read_byte s) as H.
  destruct (on_host read_byte s) as [b s1]. cbn [snd] in H. cbv zeta.
  set (s2 := u8250_check_ready _).
  assert (H2 : same_ram s s2) 
    by exact (same_ram_trans s (on_uart (fun u => u <| in_ready := false |>) s1) _ H (same_ram_check _)).
  destruct (_ =? 1); [|exact H2].
  pose proof (same_ram_on_host getchar s2) as H3. destruct (on_host getchar s2) as [c s3].
  cbn [snd] in *. assert (H4 : same_ram s s3) by by eapply same_ram_trans.
  by case_match.
Qed.

Lemma same_ram_handle_in s : same_ram s (snd (u8250_handle_in s)).
Proof.
  unfold u8250_handle_in. cbv zeta. rewrite wait_no_coro.
  set (s1 := u8250_check_ready (u8250_flush_out s)).
  assert (H1 : same_ram s s1) by (eapply same_ram_trans; [apply same_ram_flush|apply same_ram_check]).
  assert (H2 : same_ram s (u8250_check_ready s1))
    by (eapply same_ram_trans; [exact H1|apply same_ram_check]).
  repeat case_match; try (eapply same_ram_trans; [|apply same_ram_read_input]); done.
Qed.

Lemma same_ram_uart_reg_read a s : same_ram s (snd (u8250_reg_read a s)).
Proof.
  pose proof (same_ram_handle_in s). unfold u8250_reg_read. cbv zeta. repeat case_match; done.
Qed.

Lemma same_ram_uart_read a w s : same_ram s (snd (u8250_read a w s)).
Proof.
  pose proof (same_ram_uart_reg_read a s) as H. unfold u8250_read.
  destruct (u8250_reg_read a s). repeat case_match; done.
Qed.

Lemma same_ram_plic_update s : same_ram s (plic_update_interrupts s).
Proof.
  unfold plic_update_interrupts, for_all_harts.
  rewrite (for_harts_dev _ _ (fun d i => plic_signal (plic d) i) (on_plic plic_latch s))
    by (intros; apply plic_signal_id).
  destruct (for_harts_env (length (peers (on_plic plic_latch s))) 0
    (fun i => plic_signal (plic (dev (on_plic plic_latch s))) i) (on_plic plic_latch s)
    (fun j => plic_signal_id _ j)) as (A & B & _). done.
Qed.

Lemma same_ram_uart_update s : same_ram s (emu_update_uart_interrupts s).
Proof. unfold emu_update_uart_interrupts. eapply same_ram_trans; [|apply same_ram_plic_update]. done. Qed.

Lemma same_ram_clocksource t s : same_ram s (snd (semu_timer_clocksource t s)).
Proof.
  unfold semu_timer_clocksource. destruct (negb _); [done|]. unfold host_time_ns.
  pose proof (same_ram_on_host clock_gettime s) as H.
  destruct (on_host clock_gettime s) as [[a b] s1]. by case_match.
Qed.

Lemma same_ram_timer_get t s : same_ram s (snd (semu_timer_get t s)).
Proof.
  pose proof (same_ram_clocksource t s). unfold semu_timer_get.
  by destruct (semu_timer_clocksource t s).
Qed.

Lemma same_ram_mtimer_read a w s : same_ram s (snd (aclint_mtimer_read a w s)).
Proof.
  unfold aclint_mtimer_read, aclint_mtimer_reg_read.
  pose proof (same_ram_timer_get (mtime (mtimer (dev s))) s) as H.
  destruct (semu_timer_get (mtime (mtimer (dev s))) s) as [t s1].
  repeat case_match; simplify_eq; done.
Qed.

Lemma same_ram_mem_load a w s : same_ram s (snd (emu_mem_load a w s)).
Proof.
  unfold emu_mem_load. destruct (a <? RAM_SIZE).
  { unfold ram_read, touch. by repeat case_match. }
  cbv zeta. destruct (Z.shiftr a 28 =? 15); [|done].
  assert (U : same_ram s (snd (let '(v, s) := u8250_read (Z.land a 0xFFFFF) w s in
                               (v, emu_update_uart_interrupts s)))).
  { pose proof (same_ram_uart_read (Z.land a 0xFFFFF) w s) as H.
    destruct (u8250_read _ w s) as [v s1]. cbn [snd] in *.
    eapply same_ram_trans; [exact H|apply same_ram_uart_update]. }
  assert (P : same_ram s (snd (plic_read (Z.land a 0x3FFFFFF) w s)))
    by (unfold plic_read; by repeat case_match).
  assert (B : same_ram s (snd (virtio_blk_read (Z.land a 0xFFFFF) w s)))
    by (unfold virtio_blk_read; by repeat case_match).
  assert (R : same_ram s (snd (virtio_rng_read (Z.land a 0xFFFFF) w s)))
    by (unfold virtio_rng_read; by repeat case_match).
  assert (W : same_ram s (snd (aclint_mswi_read (Z.land a 0xFFFFF) w s)))
    by (unfold aclint_mswi_read, fault; cbv zeta; cbn [snd]; by destruct (is_some _)).
  assert (S : same_ram s (snd (aclint_sswi_read (Z.land a 0xFFFFF) w s)))
    by (unfold aclint_sswi_read, fault; cbv zeta; cbn [snd]; by destruct (is_some _)).
  pose proof (same_ram_mtimer_read (Z.land a 0xFFFFF) w s) as T.
  destruct (mmio_region a) as [|p|p]; [exact P| |done].
  repeat match goal with
  | |- same_ram _ (snd (None, _)) => done
  | |- same_ram _ (snd (let '(_, _) := u8250_read _ _ _ in _)) => exact U
  | |- same_ram _ (snd (virtio_blk_read _ _ _)) => exact B
  | |- same_ram _ (snd (virtio_rng_read _ _ _)) => exact R
  | |- same_ram _ (snd (aclint_mtimer_read _ _ _)) => exact T
  | |- same_ram _ (snd (aclint_mswi_read _ _ _)) => exact W
  | |- same_ram _ (snd (aclint_sswi_read _ _ _)) => exact S
  | |- same_ram _ (snd (plic_read _ _ _)) => exact P
  | q : positive |- _ => destruct q as [q|q|]
  end.
Qed.

Lemma shl32_page4 n : 0 <= n < RAM_SIZE / RV_PAGE_SIZE -> 4 * shl32 n (RV_PAGE_SHIFT - 2) = n * RV_PAGE_SIZE.
Proof. intros Hn. pose proof (shl32_page n Hn) as H. change RV_PAGE_SIZE with 4096. lia. Qed.

(** The bus of main.c keeps the contract of the processor core. *)
#[export] Instance emu_bus_laws : BusLaws (emu_state_t E).
Proof.
  split; intros.
  - cbn. unfold emu_mem_page_table, ram_page.
    destruct (Z.ltb_spec ppn (RAM_SIZE / RV_PAGE_SIZE)); [|done]. by rewrite shl32_page4 by lia.
  - cbn. unfold emu_mem_fetch, ram_page.
    destruct (Z.leb_spec (RAM_SIZE / RV_PAGE_SIZE) n), (Z.ltb_spec n (RAM_SIZE / RV_PAGE_SIZE));
      try lia; [done|]. by rewrite shl32_page4 by lia.
  - cbn. unfold emu_mem_load. by destruct (Z.ltb_spec a RAM_SIZE); [|lia].
  - cbn. unfold emu_mem_store. by destruct (Z.ltb_spec a RAM_SIZE); [|lia].
  - apply lawful_mem_load.
  - apply lawful_mem_store.
  - apply lawful_mem_load.
  - apply lawful_mem_store.
  - apply same_ram_mem_load.
  - apply (agnosticr_hart _ _ (timer_get_wh t)).
  - done.
Qed.

(** C6: The memory map of main.c keeps the contract the processor core relies
    on. On a single-hart machine: below [RAM_SIZE] a bus load or store is
    [ram_read] or [ram_write], page-table and fetch pointers are exactly the
    pages of RAM; every device register access depends on and changes nothing of
    the hart's translation caches (it commutes with forgetting them), touches of
    the hart only the error state, the pending interrupts and the WFI flag, and a
    load never writes RAM; reading the timer and clearing [ssip] leave the hart
    alone. *)
Theorem platform_implements_bus : BusLaws (emu_state_t E).
Proof. exact emu_bus_laws. Qed.
End Laws.
