(* ===== verification/Emulator.v ===== *)
(** * Firmware calls and the emulator loop (main.c)

    The SBI implementation behind ECALL from S-mode, the execution loop that
    turns errors into SBI calls and traps, the single-hart and SMP run loops,
    hart initialisation, and the register access of the GDB stub.

    A function of main.c that takes a [hart_t *] argument is applied to the
    machine whose running hart is that hart; [focus] switches. *)

From stdpp Require Import base gmap list.
From Stdlib Require Import ZArith Lia Bool.
From S2P Require Import Prelude Isa Hart Machine Mmu Csr Exec Loops Device Timer Plic Aclint.
From S2P Require Import Uart Virtio VirtioBlk VirtioRng Platform.
Open Scope Z_scope.

(* [riscv_private.h:106-115] *)
Definition SBI_SUCCESS := 0.
Definition SBI_ERR_FAILED := -1.
Definition SBI_ERR_NOT_SUPPORTED := -2.
Definition SBI_ERR_INVALID_PARAM := -3.

(* [riscv_private.h:117-136] *)
Definition SBI_EID_BASE := 0x10.
Definition SBI_EID_TIMER := 0x54494D45.
Definition SBI_EID_RST := 0x53525354.
Definition SBI_EID_HSM := 0x48534D.
(* [riscv_private.h:147-157] *)
Definition SBI_EID_IPI := 0x735049.
Definition SBI_EID_RFENCE := 0x52464E43.

(* [main.c:452-453] *)
Definition SBI_IMPL_ID := 0x999.
Definition SBI_IMPL_VERSION := 1.

(* [main.c:613-615] *)
Definition RV_MVENDORID := 0x12345678.
Definition RV_MARCHID := Z.lor (Z.shiftl 1 31) 1.
Definition RV_MIMPID := 1.

(* [main.c:455-458] sbi_ret_t *)
Record sbi_ret_t := sbi { sbi_error : Z; sbi_value : Z }.

Section Emulator.
Context {E : Type} `{HostE : Host E} {CoroE : Coro E}.
Abbreviation M := (machine (emu_state_t E)).
Implicit Types s : M.

Definition xr s (i : Z) : Z := reg (hart s) i.

(* [main.c:460-473] handle_sbi_ecall_TIMER *)
Definition handle_sbi_ecall_TIMER (fid : Z) s : sbi_ret_t * M :=
  if fid =? 0 then
    let deadline := Z.lor (Z.shiftl (xr s RV_R_A1) 32) (xr s RV_R_A0) in
    let s := on_mtimer (fun m => m <| mtimecmp := arr_set (mtimecmp m) (mhartid (hart s)) deadline |>) s in
    (sbi SBI_SUCCESS 0, on_hart (fun h => h <| sip := Z.land (sip h) (not32 RV_INT_STI_BIT) |>) s)
  else (sbi SBI_ERR_NOT_SUPPORTED 0, s).

(* [main.c:475-487] handle_sbi_ecall_RST *)
Definition handle_sbi_ecall_RST (fid : Z) s : sbi_ret_t * M :=
  if fid =? 0 then (sbi SBI_SUCCESS 0, on_dev (fun d => d <| stopped := true |>) s)
  else (sbi SBI_ERR_NOT_SUPPORTED 0, s).

(* [main.c:500-506] *)
Definition start_hart (hartid start_addr opaque : Z) (h : hart_t) : hart_t :=
  let h := h <| hsm_status := SBI_HSM_STATE_STARTED |> <| satp := 0 |> <| sstatus_sie := false |> in
  let h := h <| x_regs := arr_set (x_regs h) RV_R_A0 hartid |> in
  let h := h <| x_regs := arr_set (x_regs h) RV_R_A1 opaque |> in
  h <| pc := start_addr |> <| s_mode := true |>.

(* [main.c:516-529] *)
Definition suspend_hart (suspend_type resume_addr opq : Z) (h : hart_t) : hart_t :=
  let h := h <| hsm_status := SBI_HSM_STATE_SUSPENDED |> in
  if suspend_type =? 0 then h <| hsm_resume_is_ret := true |> <| hsm_resume_pc := pc h |>
  else if suspend_type =? 0x80000000 then
    h <| hsm_resume_is_ret := false |> <| hsm_resume_pc := resume_addr |> <| hsm_resume_opaque := opq |>
  else h.

(* [main.c:489-534] handle_sbi_ecall_HSM *)
Definition handle_sbi_ecall_HSM (fid : Z) s : sbi_ret_t * M :=
  match fid with
  | 0 =>
      let hartid := xr s RV_R_A0 in
      if n_hart s <=? hartid then (sbi SBI_ERR_INVALID_PARAM 0, s)
      else (sbi SBI_SUCCESS 0,
            upd_hart hartid (start_hart hartid (xr s RV_R_A1) (xr s RV_R_A2)) s)
  | 1 => (sbi SBI_SUCCESS 0, on_hart (fun h => h <| hsm_status := SBI_HSM_STATE_STOPPED |>) s)
  | 2 =>
      let hartid := xr s RV_R_A0 in
      if n_hart s <=? hartid then (sbi SBI_ERR_INVALID_PARAM 0, s)
      else (sbi SBI_SUCCESS (hsm_status (hart_at s hartid)), s)
  | 3 => (sbi SBI_SUCCESS 0,
          on_hart (suspend_hart (xr s RV_R_A0) (xr s RV_R_A1) (xr s RV_R_A2)) s)
  | _ => (sbi SBI_ERR_NOT_SUPPORTED 0, s)
  end.

(** [for (i = base; hart_mask && i < n_hart; hart_mask >>= 1, i++)
    if (hart_mask & 1) body(i)]. The mask is a 32-bit register, so 32 rounds
    empty it. *)
(* [main.c:548-552] *)
Fixpoint mask_loop (fuel : nat) (mask i : Z) (body : Z -> M -> M) s : M :=
  match fuel with
  | O => s
  | S fuel =>
      if nz mask && (i <? n_hart s) then
        let s := if nz (Z.land mask 1) then body i s else s in
        mask_loop fuel (Z.shiftr mask 1) (u32 (i + 1)) body s
      else s
  end.

(** The hart-mask convention of IPI and RFENCE. *)
(* [main.c:589-600] *)
Definition for_mask (mask base : Z) (body : Z -> M -> M) s : M :=
  if base =? 0xFFFFFFFF then for_all_harts body s else mask_loop 32 mask base body s.

Definition set_ssip (i : Z) s : M :=
  on_dev (fun d => d <| sswi := (sswi d) <| ssip := arr_set (ssip (sswi d)) i 1 |> |>) s.

(* [main.c:536-560] handle_sbi_ecall_IPI *)
Definition handle_sbi_ecall_IPI (fid : Z) s : sbi_ret_t * M :=
  if fid =? 0 then (sbi SBI_SUCCESS 0, for_mask (xr s RV_R_A0) (xr s RV_R_A1) set_ssip s)
  else (sbi SBI_ERR_FAILED 0, s).

(* [main.c:562-611] handle_sbi_ecall_RFENCE *)
Definition handle_sbi_ecall_RFENCE (fid : Z) s : sbi_ret_t * M :=
  match fid with
  | 0 => (sbi SBI_SUCCESS 0,
          for_mask (xr s RV_R_A0) (xr s RV_R_A1) (fun i => upd_hart i vm_fence_i) s)
  | 1 | 2 =>
      let start_addr := xr s RV_R_A2 in
      let size := xr s RV_R_A3 in
      (sbi SBI_SUCCESS 0,
       for_mask (xr s RV_R_A0) (xr s RV_R_A1)
         (fun i => upd_hart i (fun h => mmu_invalidate_range h start_addr size)) s)
  | 3 | 4 | 5 | 6 => (sbi SBI_SUCCESS 0, s)
  | _ => (sbi SBI_ERR_FAILED 0, s)
  end.

(* [main.c:617-642] handle_sbi_ecall_BASE *)
Definition handle_sbi_ecall_BASE (fid : Z) s : sbi_ret_t * M :=
  match fid with
  | 1 => (sbi SBI_SUCCESS SBI_IMPL_ID, s)
  | 2 => (sbi SBI_SUCCESS SBI_IMPL_VERSION, s)
  | 4 => (sbi SBI_SUCCESS RV_MVENDORID, s)
  | 5 => (sbi SBI_SUCCESS (s32 RV_MARCHID), s)
  | 6 => (sbi SBI_SUCCESS RV_MIMPID, s)
  | 0 => (sbi SBI_SUCCESS (Z.shiftl 2 24), s)
  | 3 =>
      let eid := s32 (xr s RV_R_A0) in
      let available := (eid =? SBI_EID_BASE) || (eid =? SBI_EID_TIMER) || (eid =? SBI_EID_RST)
                       || (eid =? SBI_EID_HSM) || (eid =? SBI_EID_IPI) || (eid =? SBI_EID_RFENCE) in
      (sbi SBI_SUCCESS (b2z available), s)
  | _ => (sbi SBI_ERR_NOT_SUPPORTED 0, s)
  end.

(* [main.c:647-677] handle_sbi_ecall *)
Definition handle_sbi_ecall s : M :=
  let eid := xr s RV_R_A7 in
  let fid := s32 (xr s RV_R_A6) in
  let '(ret, s) :=
    if eid =? SBI_EID_BASE then handle_sbi_ecall_BASE fid s
    else if eid =? SBI_EID_TIMER then handle_sbi_ecall_TIMER fid s
    else if eid =? SBI_EID_RST then handle_sbi_ecall_RST fid s
    else if eid =? SBI_EID_HSM then handle_sbi_ecall_HSM fid s
    else if eid =? SBI_EID_IPI then handle_sbi_ecall_IPI fid s
    else if eid =? SBI_EID_RFENCE then handle_sbi_ecall_RFENCE fid s
    else (sbi SBI_ERR_NOT_SUPPORTED 0, s) in
  on_hart (fun h => h <| x_regs := arr_set (arr_set (x_regs h) RV_R_A0 (u32 (sbi_error ret)))
                                     RV_R_A1 (u32 (sbi_value ret)) |>
                      <| error := ERR_NONE |>) s.

(** ** The execution loop *)

(** [None]: more than [fuel] rounds. Each round runs [vm_step_many] once. *)
(* [main.c:1248-1273] semu_step_chunk *)
Fixpoint semu_step_chunk (fuel : nat) (steps : Z) s : option (Z * M) :=
  match fuel with
  | O => None
  | S fuel =>
      if 0 <? steps then
        let '(executed, s) := vm_step_many steps s in
        let steps := steps - executed in
        match error (hart s) with
        | ERR_NONE => Some (0, s)
        | ERR_EXCEPTION =>
            if exc_cause (hart s) =? RV_EXC_ECALL_S then
              let s := handle_sbi_ecall s in
              if stopped (dev s) then Some (0, s) else semu_step_chunk fuel steps s
            else semu_step_chunk fuel steps (on_hart hart_trap s)
        | ERR_USER => Some (2, s)
        end
      else Some (0, s)
  end.

(** Make hart [i] the running one. *)
Definition focus (i : Z) s : M :=
  if i =? mhartid (hart s) then s
  else s <| peers := arr_set (peers s) (mhartid (hart s)) (hart s) |>
         <| hart := arr_get zero_hart (peers s) i |>.

(** What precedes every chunk. *)
(* [main.c:1242-1244] *)
Definition service s : M := emu_update_swi_interrupt (emu_update_timer_interrupt (emu_tick_peripherals s)).

(* [main.c:50-54] *)
Definition SEMU_SMP_SLICE_STEPS := 8.
Definition SEMU_SINGLE_SLICE_STEPS := 512.

(* [main.c:1230-1236] semu_service_hart_step *)
Definition semu_service_hart_step (fuel : nat) s : option (Z * M) := semu_step_chunk fuel 1 (service s).

(* [main.c:1238-1246] semu_run_chunk *)
Definition semu_run_chunk (fuel : nat) (steps : Z) s : option (Z * M) :=
  semu_step_chunk fuel steps (service (focus 0 s)).

(* [main.c:1215-1228] semu_step *)
Fixpoint semu_step_from (fuel n : nat) (i : Z) s : option (Z * M) :=
  match n with
  | O => Some (0, s)
  | S n =>
      match semu_service_hart_step fuel (focus i s) with
      | None => None
      | Some (r, s) => if nz r then Some (2, s) else semu_step_from fuel n (i + 1) s
      end
  end.
Definition semu_step (fuel : nat) s : option (Z * M) := semu_step_from fuel (length (peers s)) 0 s.

(** One slice of the batch in [hart_exec_loop]; [true] when the emulator is to
    stop. *)
(* [main.c:1198-1206] *)
Fixpoint hart_exec_slices (fuel : nat) (slices : nat) s : option (bool * M) :=
  match slices with
  | O => Some (false, s)
  | S n =>
      match semu_step_chunk fuel SEMU_SMP_SLICE_STEPS (service s) with
      | None => None
      | Some (r, s) =>
          if nz r then Some (true, on_dev (fun d => d <| stopped := true |>) s)
          else hart_exec_slices fuel n s
      end
  end.

(** One round of the coroutine of a hart, up to its [coro_yield]; [true] when
    the coroutine returns instead. *)
(* [main.c:1175-1213] hart_exec_loop *)
Definition hart_exec_round (fuel : nat) s : option (bool * M) :=
  if stopped (dev s) then Some (true, s)
  else if negb (hsm_status (hart s) =? SBI_HSM_STATE_STARTED) then Some (false, service s)
  else hart_exec_slices fuel 8 s.

(** The single-hart loop of [semu_run] for at most [rounds] rounds:
    [signals] answers the test of [signal_received] before each round. *)
(* [main.c:1728-1775] semu_run *)
Fixpoint semu_run_single (fuel rounds : nat) (signals : nat -> bool) s : option M :=
  match rounds with
  | O => None
  | S rounds =>
      if stopped (dev s) || signals rounds then Some (on_dev (fun d => d <| exit_code := 0 |>) s)
      else
        match semu_run_chunk fuel SEMU_SINGLE_SLICE_STEPS s with
        | None => None
        | Some (r, s) =>
            if nz r then Some (on_dev (fun d => d <| exit_code := r |>) s)
            else semu_run_single fuel rounds signals s
        end
  end.

(** ** The SMP scheduler's decision before each poll *)

Definition hart_idle (u : u8250_state_t) (i : Z) (h : hart_t) : bool :=
  in_wfi h || (has_waiting_hart u && (waiting_hart_id u =? i)).

(** [for (i = 0; i < n; i++)] counting [started_harts] and [idle_harts]. *)
(* [main.c:1527-1539] *)
Fixpoint count_harts (u : u8250_state_t) (i : Z) (hs : list hart_t) (started idle : Z) : Z * Z :=
  match hs with
  | [] => (started, idle)
  | h :: hs =>
      if hsm_status h =? SBI_HSM_STATE_STARTED
      then count_harts u (i + 1) hs (started + 1) (if hart_idle u i h then idle + 1 else idle)
      else count_harts u (i + 1) hs started idle
  end.

Record poll_plan := mk_plan { watch_timer : bool; watch_uart : bool; poll_timeout : Z }.

(** File descriptors 0 (UART) and the timer are open, so [pfd_count] counts the
    two [watch] flags. *)
(* [main.c:1526-1628] *)
Definition smp_poll_plan (hs : list hart_t) (d : emu_state_t E) : poll_plan :=
  let n_hart := Z.of_nat (length hs) in
  let '(started_harts, idle_harts) := count_harts (uart d) 0 hs 0 0 in
  let all_harts_started := n_hart <=? started_harts in
  let boot_complete := all_harts_started && (5000 <? peripheral_update_ctr d) in
  let harts_active := (n_hart =? 1) || negb boot_complete || (idle_harts =? 0) in
  let need_uart := (n_hart =? 1) || negb boot_complete || (idle_harts =? 0) || has_waiting_hart (uart d) in
  let pfd_count := b2z harts_active + b2z need_uart in
  let timeout :=
    if (0 <? pfd_count) && ((started_harts =? 0) || (idle_harts =? started_harts)) then -1
    else if 0 <? idle_harts then 10 else 0 in
  mk_plan harts_active need_uart timeout.

(** ** Initialisation *)

(* [main.c:846-859] INIT_HART *)
Definition INIT_HART (id : Z) (h : hart_t) : hart_t :=
  vm_init (h <| mhartid := id |> <| ram_base := Some 0 |> <| ram_size := RAM_SIZE |>
             <| s_mode := true |> <| hsm_status := SBI_HSM_STATE_STOPPED |>).

(* [main.c:957-976] *)
Definition new_hart (i : Z) : hart_t :=
  let h := INIT_HART i zero_hart in
  let h := h <| x_regs := arr_set (x_regs h) RV_R_A0 i |> in
  let h := h <| x_regs := arr_set (x_regs h) RV_R_A1 (RAM_SIZE - DTB_SIZE) |> in
  if i =? 0 then h <| hsm_status := SBI_HSM_STATE_STARTED |> <| pc := 0 |> else h.

(** ** The GDB stub's view *)

(* [main.c:1787-1802] semu_read_reg *)
Definition semu_read_reg (regno : Z) s : option Z :=
  if 32 <? regno then None
  else
    let h := hart_at s (curr_cpuid (dev s)) in
    Some (if regno =? 32 then pc h else reg h regno).

(* [main.c:1804-1810] semu_read_mem *)
Definition semu_read_mem (addr len : Z) s : option Z * M :=
  emu_mem_load addr (u8 len) (focus (curr_cpuid (dev s)) s).
End Emulator.
