(* ===== verification/SbiProps.v ===== *)
(** * Properties of the firmware calls

    The hart masks of IPI and RFENCE select exactly the harts the SBI
    specification names, the timer call arms the timer interrupt, results go to
    a0 and a1, and unknown calls are refused without effect. *)

From stdpp Require Import base gmap list.
From Stdlib Require Import ZArith Lia Bool.
From S2P Require Import Prelude Bits Isa Hart Machine Mmu Csr Exec Arch TlbStore HartProps.
From S2P Require Import Loops Device Timer Plic Aclint Uart Virtio VirtioBlk VirtioRng.
From S2P Require Import Platform Emulator.
Open Scope Z_scope.

(** The SBI hart-mask convention: all harts when the base is -1, else hart
    [base + k] for every set bit [k] of the mask. *)
Definition selected (mask base j : Z) : bool :=
  (base =? 0xFFFFFFFF) || ((base <=? j) && Z.testbit mask (j - base)).

Lemma keeps_id_range start size : keeps_id (fun h => mmu_invalidate_range h start size).
Proof.
  intros h.
  assert (H : erase (mmu_invalidate_range h start size) = erase h).
  { destruct ((size =? 0) || (size =? 0xFFFFFFFF)) eqn:Ez.
    - unfold mmu_invalidate_range. rewrite Ez. apply erase_invalidate.
    - apply (invalidate_range_fields h start size Ez). }
  revert H. generalize (mmu_invalidate_range h start size). intros h' H. erased mhartid H.
Qed.

Section Mask.
Context {E : Type} `{HostE : Host E} {CoroE : Coro E}.
Abbreviation M := (machine (emu_state_t E)).
Implicit Types s : M.

(** ** Loops over a hart mask *)
Section Loop.
Context {A : Type} (obs : Z -> M -> A) (upd : Z -> A -> A) (body : Z -> M -> M) (inv : M -> Prop).
Hypothesis body_obs : forall i j s, inv s -> 0 <= i < n_hart s -> 0 <= j < n_hart s ->
  obs j (body i s) = if i =? j then upd j (obs j s) else obs j s.
Hypothesis body_n : forall i s, n_hart (body i s) = n_hart s.
Hypothesis body_inv : forall i s, inv s -> inv (body i s).

Lemma mask_loop_obs fuel : forall mask i s j, inv s -> 0 <= mask < 2 ^ Z.of_nat fuel -> 0 <= i ->
  n_hart s < 2 ^ 32 -> 0 <= j < n_hart s ->
  obs j (mask_loop fuel mask i body s) =
  if (i <=? j) && Z.testbit mask (j - i) then upd j (obs j s) else obs j s.
Proof.
  induction fuel as [|fuel IH]; intros mask i s j Hinv Hm Hi Hn Hj.
  { assert (mask = 0) as -> by (cbn in Hm; lia). by rewrite Z.testbit_0_l, andb_false_r. }
  cbn [mask_loop]. rewrite Nat2Z.inj_succ, Z.pow_succ_r in Hm by lia.
  destruct (nz mask && (i <? n_hart s)) eqn:Hc.
  2:{ assert (mask = 0 \/ n_hart s <= i) as [-> | Hge].
      { unfold nz in Hc. destruct (Z.eqb_spec mask 0); [by left|]. right. cbn in Hc. lia. }
      - by rewrite Z.testbit_0_l, andb_false_r.
      - destruct (Z.leb_spec i j); [lia|done]. }
  apply andb_prop in Hc as [_ Hlt]. apply Z.ltb_lt in Hlt.
  assert (Hu : u32 (i + 1) = i + 1) by (apply u32_id; unfold is_u32; lia). rewrite Hu.
  set (s1 := if nz (Z.land mask 1) then body i s else s).
  assert (H1 : inv s1) by (unfold s1; case_match; auto).
  assert (H2 : n_hart s1 = n_hart s) by (unfold s1; case_match; auto).
  assert (Hb : nz (Z.land mask 1) = Z.testbit mask 0).
  { change 1 with (Z.ones 1). rewrite Z.land_ones, Z.bit0_odd by lia. unfold nz. change (2 ^ 1) with 2.
    rewrite Zmod_odd. by destruct (Z.odd mask). }
  rewrite IH; [|done|rewrite Z.shiftr_div_pow2 by lia; change (2 ^ 1) with 2; Z.div_mod_to_equations; lia
              |lia|lia|lia].
  assert (H3 : obs j s1 = if (i =? j) && Z.testbit mask 0 then upd j (obs j s) else obs j s).
  { unfold s1. rewrite Hb. destruct (Z.testbit mask 0); [|by rewrite andb_false_r].
    rewrite andb_true_r. by apply body_obs. }
  rewrite H3. destruct (Z.eqb_spec i j) as [<-|Hne].
  - destruct (Z.leb_spec (i + 1) i); [lia|]. rewrite Z.leb_refl, Z.sub_diag. done.
  - cbn [andb]. destruct (Z.leb_spec (i + 1) j), (Z.leb_spec i j); try lia; cbn [andb]; [|done].
    rewrite Z.shiftr_spec by lia. by replace (j - (i + 1) + 1) with (j - i) by lia.
Qed.

Lemma for_harts_obs n : forall i s j, inv s -> 0 <= i -> i + Z.of_nat n <= n_hart s -> 0 <= j < n_hart s ->
  obs j (for_harts n i body s) =
  if (i <=? j) && (j <? i + Z.of_nat n) then upd j (obs j s) else obs j s.
Proof.
  induction n as [|n IH]; intros i s j Hinv Hi Hn Hj.
  { cbn [for_harts]. destruct (Z.leb_spec i j), (Z.ltb_spec j (i + Z.of_nat 0)); cbn [andb]; lia || done. }
  cbn [for_harts]. rewrite IH; [|auto|lia|rewrite body_n; lia|rewrite body_n; lia].
  rewrite body_obs by (done || lia).
  destruct (Z.eqb_spec i j), (Z.leb_spec (i + 1) j), (Z.leb_spec i j), (Z.ltb_spec j (i + 1 + Z.of_nat n)),
    (Z.ltb_spec j (i + Z.of_nat (S n))); cbn [andb]; lia || done.
Qed.

Lemma for_mask_obs mask base s j : inv s -> is_u32 mask -> is_u32 base -> n_hart s < 2 ^ 32 ->
  0 <= j < n_hart s ->
  obs j (for_mask mask base body s) = if selected mask base j then upd j (obs j s) else obs j s.
Proof.
  unfold is_u32. intros Hinv Hm Hb Hn Hj. unfold for_mask, selected.
  destruct (Z.eqb_spec base 0xFFFFFFFF); cbn [orb].
  - unfold for_all_harts. rewrite for_harts_obs by (done || unfold n_hart in *; lia).
    unfold n_hart in Hj.
    destruct (Z.leb_spec 0 j), (Z.ltb_spec j (0 + Z.of_nat (length (peers s)))); cbn [andb]; lia || done.
  - apply mask_loop_obs; done || lia.
Qed.
End Loop.

(** The two kinds of body: an update of hart [i], and raising [ssip[i]]. *)
Lemma hart_body_obs (g : Z -> hart_t -> hart_t) i j s : (forall i, keeps_id (g i)) ->
  0 <= i < n_hart s -> 0 <= j < n_hart s ->
  hart_at (upd_hart i (g i) s) j = if i =? j then g j (hart_at s j) else hart_at s j.
Proof.
  intros Hg Hi Hj. destruct (Z.eqb_spec i j) as [<-|Hne].
  - by apply hart_at_upd_eq.
  - apply hart_at_upd_ne; done || lia.
Qed.

Lemma n_hart_upd i f s : n_hart (upd_hart i f s) = n_hart s.
Proof. unfold n_hart, upd_hart. case_match; [done|]. cbn. by rewrite length_arr_set. Qed.

Lemma for_mask_harts mask base (g : Z -> hart_t -> hart_t) s j : (forall i, keeps_id (g i)) ->
  is_u32 mask -> is_u32 base -> n_hart s < 2 ^ 32 -> 0 <= j < n_hart s ->
  hart_at (for_mask mask base (fun i => upd_hart i (g i)) s) j =
  if selected mask base j then g j (hart_at s j) else hart_at s j.
Proof.
  intros Hg Hm Hb Hn Hj.
  apply (for_mask_obs (fun j s => hart_at s j) g _ (fun _ => True)); try done.
  - intros. by apply hart_body_obs.
  - intros. apply n_hart_upd.
Qed.

Definition ssip_at s (j : Z) : Z := arr_get 0 (ssip (sswi (dev s))) j.
Definition ssip_ok s : Prop := Z.of_nat (length (ssip (sswi (dev s)))) = n_hart s.

Lemma for_mask_ssip mask base s j : ssip_ok s -> is_u32 mask -> is_u32 base -> n_hart s < 2 ^ 32 ->
  0 <= j < n_hart s ->
  ssip_at (for_mask mask base set_ssip s) j = if selected mask base j then 1 else ssip_at s j.
Proof.
  intros Hok Hm Hb Hn Hj.
  apply (for_mask_obs (fun j s => ssip_at s j) (fun _ _ => 1) _ ssip_ok); try done.
  - intros i j' s' H Hi Hj'. unfold ssip_at, set_ssip, ssip_ok in *. cbn.
    destruct (Z.eqb_spec i j') as [<-|Hne]; [apply arr_get_set_eq; lia|].
    apply arr_get_set_ne; done || lia.
  - intros i s' H. unfold ssip_ok, set_ssip in *. cbn. rewrite length_arr_set. exact H.
Qed.

(** An IPI changes nothing but the [ssip] flags. *)
Definition same_but_ssip s s' : Prop :=
  hart s' = hart s /\ peers s' = peers s /\ ram s' = ram s /\
  dev s' = (dev s) <| sswi := (sswi (dev s)) <| ssip := ssip (sswi (dev s')) |> |>.

Lemma set_ssip_frame i s s' : same_but_ssip s s' -> same_but_ssip s (set_ssip i s').
Proof.
  intros (H1 & H2 & H3 & H4). unfold same_but_ssip, set_ssip, on_dev. cbn. split_and!; try done.
  rewrite H4. by destruct (dev s), sswi.
Qed.

Lemma mask_loop_frame fuel : forall mask i s s', same_but_ssip s s' ->
  same_but_ssip s (mask_loop fuel mask i set_ssip s').
Proof.
  induction fuel as [|fuel IH]; intros mask i s s' H; [done|]. cbn [mask_loop].
  case_match; [|done]. apply IH. case_match; [by apply set_ssip_frame|done].
Qed.

Lemma for_harts_frame n : forall i s s', same_but_ssip s s' ->
  same_but_ssip s (for_harts n i set_ssip s').
Proof.
  induction n as [|n IH]; intros i s s' H; [done|]. cbn [for_harts]. by apply IH, set_ssip_frame.
Qed.

Lemma for_mask_frame mask base s : same_but_ssip s (for_mask mask base set_ssip s).
Proof.
  assert (R : same_but_ssip s s).
  { unfold same_but_ssip. split_and!; try done. destruct s as [? ? ? ? ? ? ? d]. cbn.
    by destruct d as [? ? ? ? ? ? ? ? []]. }
  unfold for_mask, for_all_harts. case_match; [by apply for_harts_frame|by apply mask_loop_frame].
Qed.

(** Inter-processor interrupts reach exactly the named harts. The IPI call
    succeeds and raises the supervisor software interrupt flag of hart [j] if and
    only if the mask and base registers select [j]; every other flag, every hart
    and the rest of the devices are left as they are. *)
Theorem sbi_ipi_exact s j : ssip_ok s -> is_u32 (xr s RV_R_A0) -> is_u32 (xr s RV_R_A1) ->
  n_hart s < 2 ^ 32 -> 0 <= j < n_hart s ->
  let '(ret, s') := handle_sbi_ecall_IPI 0 s in
  ret = sbi SBI_SUCCESS 0 /\
  ssip_at s' j = (if selected (xr s RV_R_A0) (xr s RV_R_A1) j then 1 else ssip_at s j) /\
  same_but_ssip s s'.
Proof.
  intros. cbn [handle_sbi_ecall_IPI Z.eqb]. split_and!; [done|by apply for_mask_ssip|].
  apply for_mask_frame.
Qed.

Lemma keeps_id_fence_i : keeps_id vm_fence_i.
Proof.
  intros h. unfold vm_fence_i, icache_invalidate_all. cbv zeta. by destruct (_ =? 0).
Qed.

(** Remote fences reach exactly the named harts. For the calls FENCE.I,
    SFENCE.VMA and SFENCE.VMA.ASID, hart [j] has its instruction cache, or the
    translations of the address range in a2 and a3, dropped if and only if the
    mask and base select it, and is untouched otherwise. *)
Theorem sbi_rfence_exact fid s j : fid = 0 \/ fid = 1 \/ fid = 2 ->
  is_u32 (xr s RV_R_A0) -> is_u32 (xr s RV_R_A1) -> n_hart s < 2 ^ 32 -> 0 <= j < n_hart s ->
  let '(ret, s') := handle_sbi_ecall_RFENCE fid s in
  ret = sbi SBI_SUCCESS 0 /\
  hart_at s' j =
    if selected (xr s RV_R_A0) (xr s RV_R_A1) j
    then if fid =? 0 then vm_fence_i (hart_at s j)
         else mmu_invalidate_range (hart_at s j) (xr s RV_R_A2) (xr s RV_R_A3)
    else hart_at s j.
Proof.
  intros Hf Ha Hb Hn Hj.
  assert (K : keeps_id (fun h => mmu_invalidate_range h (xr s RV_R_A2) (xr s RV_R_A3)))
    by apply keeps_id_range.
  destruct Hf as [-> | [-> | ->]]; (split; [done|]).
  - by apply (for_mask_harts _ _ (fun _ => vm_fence_i)); [intros i; apply keeps_id_fence_i|..].
  - by apply (for_mask_harts _ _ (fun _ h => mmu_invalidate_range h (xr s RV_R_A2) (xr s RV_R_A3))).
  - by apply (for_mask_harts _ _ (fun _ h => mmu_invalidate_range h (xr s RV_R_A2) (xr s RV_R_A3))).
Qed.
End Mask.

(** ** The timer call and the software interrupt *)

Lemma set_pending_bit c k h n : 0 <= k < 32 -> is_u32 (sip h) -> 0 <= n < 32 ->
  Z.testbit (sip (set_pending c (bit32 k) h)) n = if k =? n then c else Z.testbit (sip h) n.
Proof.
  intros Hk Hs Hn. unfold set_pending. destruct c; cbn.
  - rewrite Z.lor_spec, bit32_testbit by lia. destruct (k =? n); [apply orb_true_r|apply orb_false_r].
  - rewrite clear_bit by done. destruct (k =? n); [apply andb_false_r|apply andb_true_r].
Qed.

Section Interrupts.
Context {E : Type} `{HostE : Host E} {CoroE : Coro E}.
Abbreviation M := (machine (emu_state_t E)).
Implicit Types s : M.

(** Reading the clock changes neither the hart nor the timer device. *)
Lemma timer_get_frame t s :
  hart (snd (semu_timer_get t s)) = hart s /\
  mtimer (dev (snd (semu_timer_get t s))) = mtimer (dev s).
Proof.
  unfold semu_timer_get, semu_timer_clocksource, host_time_ns, on_host.
  destruct (negb (boot_complete s)); [done|]. destruct (clock_gettime _) as [[sec ns] e].
  cbn [fst snd]. by destruct (first_switch _).
Qed.

(** The deadline in a1:a0. *)
Definition deadline s : Z := xr s RV_R_A1 * 2 ^ 32 + xr s RV_R_A0.

(** The timer call arms the timer interrupt. After SBI set_timer the compare
    register of the calling hart is the 64-bit value in a1:a0, the pending timer
    interrupt is cleared, no other hart's compare register changes; and the next
    time the interrupt lines are updated the timer interrupt becomes pending if
    and only if the clock has reached the deadline. *)
Theorem sbi_set_timer_arms s : mtimer_ok (mtimer (dev s)) ->
  0 <= mhartid (hart s) < mtimer_n_hart (mtimer (dev s)) ->
  is_u32 (xr s RV_R_A0) -> is_u32 (xr s RV_R_A1) -> is_u32 (sip (hart s)) ->
  let '(ret, s') := handle_sbi_ecall_TIMER 0 s in
  let now := fst (semu_timer_get (mtime (mtimer (dev s)))
                    (on_hart (fun h => h <| time := mtime (mtimer (dev s)) |>) s')) in
  ret = sbi SBI_SUCCESS 0 /\
  cmp_at s' (mhartid (hart s)) = deadline s /\
  (forall j, 0 <= j -> j <> mhartid (hart s) -> cmp_at s' j = cmp_at s j) /\
  Z.testbit (sip (hart s')) RV_INT_STI = false /\
  Z.testbit (sip (hart (emu_update_timer_interrupt s'))) RV_INT_STI = (deadline s <=? now).
Proof.
  intros Hok Hid H0 H1 Hsip. cbn [handle_sbi_ecall_TIMER Z.eqb].
  assert (Ed : Z.lor (Z.shiftl (xr s RV_R_A1) 32) (xr s RV_R_A0) = deadline s).
  { unfold deadline. rewrite <- Z.shiftl_mul_pow2 by lia. rewrite <- Z.add_lor_land.
    assert (Z.land (Z.shiftl (xr s RV_R_A1) 32) (xr s RV_R_A0) = 0); [|lia]. unfold is_u32 in *.
    apply Z.bits_inj'. intros n Hn. rewrite Z.land_spec, Z.shiftl_spec, Z.bits_0 by lia.
    destruct (Z.ltb_spec n 32); [by rewrite Z.testbit_neg_r by lia|].
    by rewrite (testbit_u32_high (xr s RV_R_A0)), andb_false_r. }
  rewrite Ed. set (s' := on_hart _ _).
  assert (C : cmp_at s' (mhartid (hart s)) = deadline s).
  { unfold cmp_at. cbn. apply arr_get_set_eq. destruct Hok as [Hn _]. lia. }
  assert (B : Z.testbit (sip (hart s')) RV_INT_STI = false).
  { change (sip (hart s')) with (Z.land (sip (hart s)) (not32 (bit32 RV_INT_STI))).
    rewrite clear_bit by (done || (vm_compute; split; congruence)). by rewrite Z.eqb_refl, andb_false_r. }
  split_and!; try done.
  { intros j Hj Hne. unfold cmp_at. cbn. apply arr_get_set_ne; done || lia. }
  unfold emu_update_timer_interrupt, aclint_mtimer_update_interrupts.
  set (s1 := on_hart (fun h => h <| time := _ |>) s').
  change (mtime (mtimer (dev s1))) with (mtime (mtimer (dev s))).
  destruct (timer_get_frame (mtime (mtimer (dev s))) s1) as [Fh Fm].
  destruct (semu_timer_get _ s1) as [t s2]. cbn [fst snd] in *.
  change (hart (on_hart ?f s2)) with (f (hart s2)). rewrite Fh.
  change RV_INT_STI_BIT with (bit32 5). change RV_INT_STI with 5.
  rewrite set_pending_bit; [|lia| |lia].
  - cbn [Z.eqb Pos.eqb]. rewrite Fm. by rewrite <- C.
  - change (sip (hart s1)) with (Z.land (sip (hart s)) (not32 RV_INT_STI_BIT)). apply land_is_u32_l; [exact Hsip|]. vm_compute. congruence.
Qed.

(** The software interrupt follows [ssip] alone. After
    [emu_update_swi_interrupt] the supervisor software interrupt of the running
    hart is pending exactly when its [ssip] flag is set, whatever its [msip] flag:
    a machine software interrupt raised through the MSWI registers is withdrawn
    by the SSWI update that follows it. *)
Theorem swi_follows_ssip s : is_u32 (sip (hart s)) ->
  Z.testbit (sip (hart (emu_update_swi_interrupt s))) RV_INT_SSI
  = nz (ssip_at s (mhartid (hart s))).
Proof.
  intros Hs. unfold emu_update_swi_interrupt, aclint_sswi_update_interrupts.
  set (s1 := aclint_mswi_update_interrupts s).
  assert (Hid : mhartid (hart s1) = mhartid (hart s)).
  { unfold s1, aclint_mswi_update_interrupts, set_pending. cbn. by case_match. }
  change (hart (on_hart ?f s1)) with (f (hart s1)). change RV_INT_SSI_BIT with (bit32 1).
  change RV_INT_SSI with 1. rewrite set_pending_bit; [|lia| |lia].
  - cbn [Z.eqb Pos.eqb]. by rewrite Hid.
  - unfold s1, aclint_mswi_update_interrupts, set_pending. cbn. case_match; cbn.
    + by apply lor_is_u32.
    + apply land_is_u32_l; [done|]. vm_compute. congruence.
Qed.
End Interrupts.

(** ** Dispatch *)

Definition sbi_extensions : list Z :=
  [SBI_EID_BASE; SBI_EID_TIMER; SBI_EID_RST; SBI_EID_HSM; SBI_EID_IPI; SBI_EID_RFENCE].

Lemma s32_eqb x y : is_u32 x -> 0 <= y < 2 ^ 31 -> (s32 x =? y) = (x =? y).
Proof.
  unfold is_u32, s32, sext. intros Hx Hy. rewrite Z.mod_small by lia. cbv zeta.
  destruct (Z.ltb_spec x (2 ^ (32 - 1))); [done|]. lia.
Qed.

Section Calls.
Context {E : Type} `{HostE : Host E} {CoroE : Coro E}.
Abbreviation M := (machine (emu_state_t E)).
Implicit Types s : M.

(** What every call leaves in the registers. *)
Definition returned (ret : sbi_ret_t) s : M :=
  on_hart (fun h => h <| x_regs := arr_set (arr_set (x_regs h) RV_R_A0 (u32 (sbi_error ret)))
                                     RV_R_A1 (u32 (sbi_value ret)) |>
                      <| error := ERR_NONE |>) s.

(** Probing is truthful. For every extension number, the base extension's
    probe call answers 1 if the dispatcher serves the extension and 0 if not, and
    a call to an extension it does not serve returns SBI_ERR_NOT_SUPPORTED in a0,
    0 in a1, clears the trap, and has no other effect. *)
Theorem sbi_probe_truthful s : is_u32 (xr s RV_R_A0) ->
  (handle_sbi_ecall_BASE 3 s
   = (sbi SBI_SUCCESS (if bool_decide (xr s RV_R_A0 ∈ sbi_extensions) then 1 else 0), s)) /\
  (xr s RV_R_A7 ∉ sbi_extensions -> handle_sbi_ecall s = returned (sbi SBI_ERR_NOT_SUPPORTED 0) s).
Proof.
  intros Ha. split.
  - cbn [handle_sbi_ecall_BASE]. cbv zeta. rewrite !s32_eqb by (done || (vm_compute; split; congruence)).
    f_equal. f_equal. unfold b2z.
    repeat match goal with |- context [xr s RV_R_A0 =? ?e] => destruct (Z.eqb_spec (xr s RV_R_A0) e) as [->|?] end;
      cbn [orb]; try reflexivity.
    rewrite bool_decide_eq_false_2; [done|]. unfold sbi_extensions. rewrite !elem_of_cons, elem_of_nil. tauto.
  - intros Hn. unfold handle_sbi_ecall. cbv zeta. unfold sbi_extensions in Hn.
    repeat match goal with |- context [if xr s RV_R_A7 =? ?e then _ else _] =>
      destruct (Z.eqb_spec (xr s RV_R_A7) e) as [Ee|?]; [by destruct Hn; rewrite Ee; vm_compute; repeat constructor|] end.
    done.
Qed.
End Calls.
