(* ===== verification/LoopProps.v ===== *)
(** * Properties of the emulator loops

    The poll decision of the SMP scheduler, and what makes the execution chunk
    return: it does when every round executes an instruction; a trap vector that
    cannot be fetched keeps it from returning. *)

From stdpp Require Import base gmap list.
From Stdlib Require Import ZArith Lia Bool.
From S2P Require Import Prelude Bits Isa Hart Machine Mmu Csr Exec Arch RamProps Tlb TlbStore.
From S2P Require Import HartProps ExecProps Loops Device Timer Plic Aclint Uart Virtio.
From S2P Require Import VirtioBlk VirtioRng Platform Frame PlatformLaws Emulator.
Open Scope Z_scope.

Section Tick.
Context {E : Type} `{HostE : Host E} {CoroE : Coro E}.
Abbreviation M := (machine (emu_state_t E)).
Implicit Types s : M.

Definition ctr s : Z := peripheral_update_ctr (dev s).

(** Only the poll itself moves the counter. *)
Lemma ctr_plic_update s : ctr (plic_update_interrupts s) = ctr s.
Proof.
  unfold ctr. by rewrite dev_plic_update.
Qed.

Lemma ctr_check_ready s : ctr (u8250_check_ready s) = ctr s.
Proof.
  unfold u8250_check_ready, on_host. case_match; [done|]. destruct (poll_in _) as [[|] e]; done.
Qed.

Lemma ctr_flush_out s : ctr (u8250_flush_out s) = ctr s.
Proof. unfold u8250_flush_out, on_uart_host. by destruct (flush_out _ _). Qed.

Lemma ctr_uart_update s : ctr (emu_update_uart_interrupts s) = ctr s.
Proof. unfold emu_update_uart_interrupts. by rewrite ctr_plic_update. Qed.
Lemma ctr_vblk_update s : ctr (emu_update_vblk_interrupts s) = ctr s.
Proof. unfold emu_update_vblk_interrupts. by rewrite ctr_plic_update. Qed.
Lemma ctr_vrng_update s : ctr (emu_update_vrng_interrupts s) = ctr s.
Proof. unfold emu_update_vrng_interrupts. by rewrite ctr_plic_update. Qed.

Lemma ctr_tick s : 0 <= ctr s <= 64 ->
  ctr (emu_tick_peripherals s) = if ctr s =? 0 then 64 else ctr s - 1.
Proof.
  intros H. unfold emu_tick_peripherals. cbv zeta. fold (ctr s). destruct (Z.eqb_spec (ctr s) 0).
  - repeat match goal with |- context [if ?b then emu_update_vrng_interrupts ?x else ?x] =>
      destruct b; rewrite ?ctr_vrng_update
    | |- context [if ?b then emu_update_vblk_interrupts ?x else ?x] =>
      destruct b; rewrite ?ctr_vblk_update
    | |- context [if ?b then emu_update_uart_interrupts ?x else ?x] =>
      destruct b; rewrite ?ctr_uart_update end;
    by rewrite ctr_flush_out, ctr_check_ready.
  - change (ctr (on_dev _ s)) with (u32 (ctr s - 1)). apply u32_id. unfold is_u32. lia.
Qed.
End Tick.

(** ** The poll decision *)

Definition started (h : hart_t) : bool := hsm_status h =? SBI_HSM_STATE_STARTED.

(** Started harts, and those of them that wait for an interrupt or for input. *)
Definition n_started (hs : list hart_t) : Z := Z.of_nat (length (filter (fun h => started h = true) hs)).
Fixpoint n_idle (u : u8250_state_t) (i : Z) (hs : list hart_t) : Z :=
  match hs with
  | [] => 0
  | h :: hs => (if started h && hart_idle u i h then 1 else 0) + n_idle u (i + 1) hs
  end.

Lemma n_started_cons h hs : n_started (h :: hs) = (if started h then 1 else 0) + n_started hs.
Proof.
  unfold n_started. rewrite filter_cons. destruct (started h); case_decide; cbn [length]; congruence || lia.
Qed.

Lemma count_harts_spec u hs : forall i a b,
  count_harts u i hs a b = (a + n_started hs, b + n_idle u i hs).
Proof.
  induction hs as [|h hs IH]; intros i a b.
  - cbn [count_harts n_idle]. f_equal; unfold n_started; cbn; lia.
  - rewrite n_started_cons. cbn [count_harts n_idle]. fold (started h).
    destruct (started h); cbn [andb]; rewrite IH; f_equal; destruct (hart_idle u i h); lia.
Qed.

Lemma n_idle_le u hs : forall i, 0 <= n_idle u i hs <= n_started hs.
Proof.
  induction hs as [|h hs IH]; intros i; [cbn; unfold n_started; cbn; lia|].
  rewrite n_started_cons. cbn [n_idle]. specialize (IH (i + 1)).
  destruct (started h), (hart_idle u i h); cbn [andb]; lia.
Qed.

Section Poll.
Context {E : Type} `{HostE : Host E} {CoroE : Coro E}.
Implicit Types s : machine (emu_state_t E).

(** The SMP scheduler never sleeps without a wake-up source. The poll
    countdown stays within [0, 64]; with it there, before every [poll] both the
    timer and the UART are watched; the call blocks without limit exactly when no
    hart is started or every started hart is idle, waits 10 ms when some but not
    all are, and does not wait otherwise. (The countdown never exceeds 64, so the
    scheduler's condition that it be above 5000 never holds and its reduced-polling
    mode is not entered.) *)
Theorem smp_poll_plan_watches s hs : 0 <= ctr s <= 64 ->
  0 <= ctr (emu_tick_peripherals s) <= 64 /\
  let st := n_started hs in
  let idle := n_idle (uart (dev s)) 0 hs in
  smp_poll_plan hs (dev s) =
    mk_plan true true
      (if (st =? 0) || (idle =? st) then -1 else if 0 <? idle then 10 else 0).
Proof.
  intros Hc. split; [rewrite ctr_tick by done; case_match; lia|].
  cbv zeta. unfold smp_poll_plan. rewrite count_harts_spec. cbn [Z.add].
  fold (ctr s). assert (F : (5000 <? ctr s) = false) by lia. rewrite F, andb_false_r. cbn [negb].
  rewrite orb_true_r. reflexivity.
Qed.
End Poll.

(** ** The execution chunk *)

Section Chunk.
Context {E : Type} `{HostE : Host E} {CoroE : Coro E}.
Abbreviation M := (machine (emu_state_t E)).
Implicit Types s : M.

(** One round that continues: the quota left and the machine after the SBI call
    or the trap. *)
Inductive chunk_round : Z * M -> Z * M -> Prop :=
| round_sbi steps s n s1 : 0 < steps -> vm_step_many steps s = (n, s1) ->
    error (hart s1) = ERR_EXCEPTION -> exc_cause (hart s1) = RV_EXC_ECALL_S ->
    stopped (dev (handle_sbi_ecall s1)) = false ->
    chunk_round (steps, s) (steps - n, handle_sbi_ecall s1)
| round_trap steps s n s1 : 0 < steps -> vm_step_many steps s = (n, s1) ->
    error (hart s1) = ERR_EXCEPTION -> exc_cause (hart s1) <> RV_EXC_ECALL_S ->
    chunk_round (steps, s) (steps - n, on_hart hart_trap s1).

(** Every round reached from [(steps, s)] executes an instruction. *)
Definition progressing (p : Z * M) : Prop :=
  forall steps s, rtc chunk_round p (steps, s) -> 0 < steps -> 0 < fst (vm_step_many steps s).

Lemma progressing_round p q : chunk_round p q -> progressing p -> progressing q.
Proof. intros Hr Hp steps s H. apply Hp. by eapply rtc_l. Qed.

(** The execution chunk returns. If every round executes at least one
    instruction, [semu_step_chunk] comes back after at most [steps] rounds, with
    one more unit of fuel than that. *)
Theorem step_chunk_returns steps s : 0 <= steps -> progressing (steps, s) ->
  exists r, semu_step_chunk (S (Z.to_nat steps)) steps s = Some r.
Proof.
  assert (G : forall fuel steps s, 0 <= steps < Z.of_nat fuel -> progressing (steps, s) ->
    exists r, semu_step_chunk fuel steps s = Some r).
  { clear steps s. induction fuel as [|fuel IH]; intros steps s Hf Hp; [lia|].
    cbn [semu_step_chunk]. destruct (Z.ltb_spec 0 steps) as [Hpos|]; [|by eexists].
    pose proof (Hp steps s (rtc_refl _ _) Hpos) as Hn.
    pose proof (run_quota steps s ltac:(lia)) as Hq.
    destruct (vm_step_many steps s) as [n s1] eqn:Ev. cbn [fst] in *. cbv zeta.
    destruct (error (hart s1)) eqn:Ee; [by eexists| |by eexists].
    destruct (Z.eqb_spec (exc_cause (hart s1)) RV_EXC_ECALL_S) as [Ec|Ec].
    - destruct (stopped (dev (handle_sbi_ecall s1))) eqn:Es; [by eexists|].
      apply IH; [lia|]. eapply progressing_round, Hp. by eapply round_sbi.
    - apply IH; [lia|]. eapply progressing_round, Hp. by eapply round_trap. }
  intros Hs Hp. apply G; [lia|done].
Qed.

(** A hart in S-mode, paging off, no interrupt pending, standing at its own trap
    vector [a], which lies outside RAM and is not cached. *)
Record stuck_at (a : Z) (h : hart_t) : Prop := {
  stuck_started : hsm_status h = SBI_HSM_STATE_STARTED;
  stuck_error : error h = ERR_NONE;
  stuck_mode : s_mode h = true;
  stuck_pc : pc h = a;
  stuck_stvec : stvec_addr h = a;
  stuck_direct : stvec_vectored h = false;
  stuck_paging : page_table h = None;
  stuck_pending : Z.land (sip h) (sie h) = 0;
  stuck_outside : RAM_SIZE / RV_PAGE_SIZE <= Z.shiftr a RV_PAGE_SHIFT;
  stuck_seq : seq_fetch_block h = None;
  stuck_icache : icache_block_valid h (block_at h (icache_index a)) = false;
  stuck_tlb : f_n_pages (fetch_at h (fetch_index (Z.shiftr a RV_PAGE_SHIFT))) <> Z.shiftr a RV_PAGE_SHIFT }.

(** The hart after the failed fetch. *)
Definition fetch_failed (a : Z) (h : hart_t) : hart_t :=
  vm_set_exception (h <| current_pc := pc h |> <| exc_val := a |>) RV_EXC_FETCH_FAULT a.

Lemma stuck_fetch a n s : stuck_at a (hart s) ->
  run_loop (S n) (AtSlowPath None) s = (O, on_hart (fetch_failed a) s).
Proof.
  intros K. cbn [run_loop]. unfold slow_fetch, check_interrupt, vm_handle_pending_interrupt. cbv zeta.
  set (s1 := mark_pc s).
  change (sip (hart s1)) with (sip (hart s)). change (sie (hart s1)) with (sie (hart s)).
  rewrite (stuck_pending a _ K). rewrite andb_false_r.
  change (current_pc (hart s1)) with (pc (hart s)). change (pc (hart s1)) with (pc (hart s)).
  rewrite Z.eqb_refl. cbn [negb].
  replace (pc (hart s1)) with a by (symmetry; apply (stuck_pc a _ K)).
  unfold mmu_fetch, seq_fetch_hit. cbv zeta.
  change (seq_fetch_block (hart s1)) with (seq_fetch_block (hart s)). rewrite (stuck_seq a _ K).
  change (icache_block_valid (hart s1) (block_at (hart s1) (icache_index a)))
    with (icache_block_valid (hart s) (block_at (hart s) (icache_index a))).
  rewrite (stuck_icache a _ K). cbn [andb].
  change (fetch_at (hart s1)) with (fetch_at (hart s)).
  destruct (Z.eqb_spec (Z.shiftr a RV_PAGE_SHIFT)
    (f_n_pages (fetch_at (hart s) (fetch_index (Z.shiftr a RV_PAGE_SHIFT))))) as [Et|_];
    [by destruct (stuck_tlb a _ K)|]. cbn [negb].
  unfold mmu_translate. cbv zeta.
  change (page_table (hart (on_hart _ s1))) with (page_table (hart s)). rewrite (stuck_paging a _ K).
  assert (Em : merr (on_hart (fun h => h <| exc_val := a |>) s1) = false).
  { unfold merr, err. change (error (hart (on_hart _ s1))) with (error (hart s)).
    by rewrite (stuck_error a _ K). }
  rewrite Em. cbn [mem_fetch emu_bus]. unfold emu_mem_fetch.
  pose proof (stuck_outside a _ K) as Ho.
  destruct (Z.leb_spec (RAM_SIZE / RV_PAGE_SIZE) (Z.shiftr a RV_PAGE_SHIFT)); [|lia].
  rewrite merr_raise. reflexivity.
Qed.

(** What [stuck_at] reads besides the PC, the mode and the error. *)
Definition same_stuck (h h' : hart_t) : Prop :=
  hsm_status h' = hsm_status h /\ stvec_addr h' = stvec_addr h /\
  stvec_vectored h' = stvec_vectored h /\ page_table h' = page_table h /\ sip h' = sip h /\
  sie h' = sie h /\ seq_fetch_block h' = seq_fetch_block h /\ icache h' = icache h /\
  icache_epoch h' = icache_epoch h /\ cache_fetch h' = cache_fetch h.

Lemma same_stuck_failed a h : same_stuck h (fetch_failed a h).
Proof. unfold same_stuck. split_and!; reflexivity. Qed.
Lemma same_stuck_save h : same_stuck h (trap_save h).
Proof. unfold same_stuck. split_and!; reflexivity. Qed.
Lemma same_stuck_enter h p : same_stuck h (trap_enter h p).
Proof. unfold same_stuck. split_and!; reflexivity. Qed.
Lemma same_stuck_trans h1 h2 h3 : same_stuck h1 h2 -> same_stuck h2 h3 -> same_stuck h1 h3.
Proof. unfold same_stuck. intros. destruct_and!. split_and!; congruence. Qed.

Lemma stuck_ext a h h' : same_stuck h h' -> error h' = ERR_NONE -> s_mode h' = true -> pc h' = a ->
  stuck_at a h -> stuck_at a h'.
Proof.
  intros (E1 & E2 & E3 & E4 & E5 & E6 & E7 & E8 & E9 & E10) He Hm Hp K. destruct K.
  split; try congruence.
  - unfold icache_block_valid, block_at in *. congruence.
  - unfold fetch_at in *. congruence.
Qed.

Lemma enter_pc h p : pc (trap_enter h p) = p /\ s_mode (trap_enter h p) = true /\ error (trap_enter h p) = ERR_NONE.
Proof. by split_and!. Qed.

Lemma stuck_again a h : stuck_at a h -> stuck_at a (hart_trap (fetch_failed a h)).
Proof.
  intros K. assert (Hm : s_mode (fetch_failed a h) = true) by apply K.
  rewrite (hart_trap_s _ Hm).
  pose proof (same_stuck_trans _ _ _ (same_stuck_failed a h) (same_stuck_save (fetch_failed a h))) as S.
  revert S. generalize (trap_save (fetch_failed a h)). intros h2 S.
  assert (Ev : vector_of h2 = a).
  { unfold vector_of. destruct S as (_ & Ea & Ed & _). rewrite Ea, Ed, (stuck_direct a h K). apply K. }
  rewrite Ev. destruct (enter_pc h2 a) as (P1 & P2 & P3).
  apply (stuck_ext a h); [|exact P3|exact P2|exact P1|exact K].
  eapply same_stuck_trans; [exact S|apply same_stuck_enter].
Qed.

Lemma stuck_step a steps s : 0 < steps -> stuck_at a (hart s) ->
  vm_step_many steps s = (0, on_hart (fetch_failed a) s).
Proof.
  intros Hs K. unfold vm_step_many. rewrite (stuck_started a _ K). unfold merr, err.
  rewrite (stuck_error a _ K). cbn [negb orb Z.eqb]. rewrite Z.eqb_refl. cbn [negb orb].
  destruct (Z.to_nat steps) as [|n] eqn:En; [lia|]. by rewrite (stuck_fetch a).
Qed.

(** An unfetchable trap vector hangs the emulator. If a hart stands at its
    own trap vector and the vector lies outside RAM, every round of
    [semu_step_chunk] faults on the fetch without executing an instruction, traps
    back to the vector and consumes none of the quota: with any amount of fuel the
    chunk does not return, so the loops around it never again poll the devices or
    look at the stop flag and the termination signal. *)
Theorem step_chunk_livelock a steps s fuel : 0 < steps -> stuck_at a (hart s) ->
  semu_step_chunk fuel steps s = None.
Proof.
  intros Hs. revert s. induction fuel as [|fuel IH]; intros s K; [done|]. cbn [semu_step_chunk].
  destruct (Z.ltb_spec 0 steps); [|lia]. rewrite (stuck_step a) by done. cbv zeta.
  change (error (hart (on_hart (fetch_failed a) s))) with ERR_EXCEPTION.
  change (exc_cause (hart (on_hart (fetch_failed a) s))) with RV_EXC_FETCH_FAULT.
  cbn [Z.eqb]. rewrite Z.sub_0_r. destruct (_ =? _) eqn:Ec; [done|].
  apply IH. exact (stuck_again a (hart s) K).
Qed.
End Chunk.
