(* ===== verification/DmaProps.v ===== *)
(** * Direct memory access of the devices

    What a device's accesses to guest RAM leave alone: the device state, the
    typing of RAM, and, when they are in range, the out-of-range flag. The devices
    that work on any [machine D] share these lemmas. *)

From stdpp Require Import base gmap list.
From Stdlib Require Import ZArith Lia Bool.
From S2P Require Import Prelude Isa Hart Machine Tlb Device Virtio VirtioProps.
Open Scope Z_scope.

Section DevFrame.
Context {D : Type}.
Implicit Types m : machine D.

Lemma dev_touch o l m : dev (touch o l m) = dev m.
Proof. unfold touch. by case_match. Qed.
Lemma dev_ram_put i v m : dev (ram_put i v m) = dev m.
Proof. unfold ram_put, wr32. cbv zeta. apply dev_touch. Qed.
Lemma dev_ram_get i m : dev (snd (ram_get i m)) = dev m.
Proof. apply dev_touch. Qed.
Lemma dev_dma_write bytes : forall o m, dev (dma_write o bytes m) = dev m.
Proof.
  induction bytes as [|b bytes IH]; intros o m; [done|]. cbn [dma_write]. rewrite IH.
  unfold wr8. apply dev_touch.
Qed.
Lemma dev_used_append q u i l m : dev (used_append q u i l m) = dev m.
Proof. unfold used_append. cbv zeta. by rewrite !dev_ram_put. Qed.
Lemma dev_used_publish q u m : dev (used_publish q u m) = dev m.
Proof. unfold used_publish, ram_get. by rewrite dev_ram_put, dev_touch, dev_ram_put, dev_touch. Qed.
Lemma dev_raise c v m : dev (raise c v m) = dev m.
Proof. reflexivity. Qed.
Lemma dev_avail_entry q i m : dev (snd (avail_entry q i m)) = dev m.
Proof. apply dev_touch. Qed.
End DevFrame.
#[export] Hint Rewrite @dev_touch @dev_ram_put @dev_ram_get @dev_dma_write @dev_used_append @dev_raise
  @dev_avail_entry : semu.


(** [s'] comes from [s] by memory accesses, all of them in RAM if [P] holds. *)
Record mem_step {D} (P : Prop) (s s' : machine D) : Prop := {
  ms_dev : dev s' = dev s;
  ms_ram : ram_ok (ram s) -> ram_ok (ram s');
  ms_oob : P -> ram_oob s' = ram_oob s }.

Section MemStep.
Context {D : Type}.
Implicit Types s : machine D.

Lemma mem_refl P s : mem_step P s s.
Proof. done. Qed.

Lemma mem_trans P s1 s2 s3 : mem_step P s1 s2 -> mem_step P s2 s3 -> mem_step P s1 s3.
Proof. intros [D1 R1 O1] [D2 R2 O2]. constructor; [congruence|auto|]. intros HP. by rewrite O2, O1. Qed.

Lemma mem_touch (P : Prop) o l s : (P -> in_ram o l = true) -> mem_step P s (touch o l s).
Proof.
  intros H. constructor; [apply dev_touch| |].
  - intros R. unfold touch. by case_match.
  - intros HP. unfold touch. by rewrite H.
Qed.

Lemma mem_put (P : Prop) i v s : is_u32 v -> (P -> in_ram (4 * i) 4 = true) -> mem_step P s (ram_put i v s).
Proof.
  intros Hv H. constructor; [apply dev_ram_put| |].
  - intros R j. unfold ram_put, wr32. change (ram (_ <| ram := ?m |>)) with m. rewrite word_insert.
    case_decide; [done|apply R].
  - intros HP. unfold ram_put, wr32, touch. by rewrite H.
Qed.

Lemma mem_wr8 (P : Prop) o v s : is_byte v -> (P -> in_ram o 1 = true) -> mem_step P s (wr8 o v s).
Proof.
  intros Hv H. constructor.
  - unfold wr8. apply dev_touch.
  - intros R. by apply ram_ok_wr8.
  - intros HP. unfold wr8, touch. by rewrite H.
Qed.

Lemma dma_touch_in_ram o l s : in_ram o l = true -> touch o l s = s.
Proof. unfold touch. by intros ->. Qed.

Lemma in_ram_iff o l : in_ram o l = true <-> 0 <= o /\ o + l <= RAM_SIZE.
Proof. unfold in_ram. rewrite andb_true_iff, !Z.leb_le. done. Qed.

Lemma mem_dma_write (P : Prop) bytes : forall o s, Forall is_byte bytes ->
  (P -> in_ram o (Z.of_nat (length bytes)) = true) -> mem_step P s (dma_write o bytes s).
Proof.
  induction bytes as [|b bytes IH]; intros o s Hb H; [apply mem_refl|]. apply Forall_cons in Hb as [H1 H2].
  cbn [dma_write]. eapply mem_trans; [apply mem_wr8; [done|]|apply IH; [done|]];
    intros HP; specialize (H HP); rewrite in_ram_iff in *; cbn [length] in H; lia.
Qed.

Lemma word_in_ram i : 0 <= i < RAM_SIZE / 4 -> in_ram (4 * i) 4 = true.
Proof. intros H. rewrite in_ram_iff. unfold RAM_SIZE in *. Z.div_mod_to_equations. lia. Qed.

Lemma rd32_u32 s o : ram_ok (ram s) -> is_u32 (rd32 s o).
Proof. intros R. apply R. Qed.

(** Two words of a used-ring element. *)
Lemma mem_used_append (P : Prop) q u id len s : is_u32 id -> is_u32 len ->
  (P -> 0 < QueueNum q <= 2 ^ 16 /\ 0 <= QueueUsed q /\ QueueUsed q + QueueNum q * 2 < RAM_SIZE / 4) ->
  mem_step P s (used_append q u id len s).
Proof.
  intros H1 H2 H. unfold used_append. cbv zeta.
  assert (B : P -> let a := QueueUsed q + 1 + u mod QueueNum q * 2 in
    u32 a = a /\ u32 (a + 1) = a + 1 /\ 0 <= a /\ a + 1 < RAM_SIZE / 4).
  { intros HP. destruct (H HP) as (Hn & Hu & Hr). cbv zeta.
    pose proof (Z.mod_pos_bound u (QueueNum q)). unfold RAM_SIZE in *.
    change (512 * 1024 * 1024 / 4) with 134217728 in *. rewrite !u32_id by (unfold is_u32; lia). lia. }
  eapply mem_trans; apply mem_put; try done; intros HP; destruct (B HP) as (-> & ? & ? & ?); apply word_in_ram;
    [lia|]. rewrite H0. lia.
Qed.

Lemma mem_avail_entry (P : Prop) q idx s :
  (P -> 0 <= idx /\ 0 <= QueueAvail q /\ QueueAvail q + 1 + idx / 2 < RAM_SIZE / 4) ->
  mem_step P s (snd (avail_entry q idx s)).
Proof.
  intros H. unfold avail_entry, ram_get. cbn [snd]. apply mem_touch. intros HP. destruct (H HP) as (Hi & Ha & Hr).
  apply word_in_ram. pose proof (Z.div_pos idx 2). rewrite u32_id; [lia|].
  unfold RAM_SIZE in *. change (512 * 1024 * 1024 / 4) with 134217728 in *. unfold is_u32. lia.
Qed.

Lemma avail_entry_u16 q idx s : 0 <= fst (avail_entry q idx s) < 2 ^ 16.
Proof. unfold avail_entry, ram_get. cbn [fst]. apply Z.mod_pos_bound. lia. Qed.

(** *** Fields of structures *)

Lemma lor_shiftl_low a n b : 0 <= n -> 0 <= b < 2 ^ n -> Z.lor (Z.shiftl a n) b = a * 2 ^ n + b.
Proof.
  intros Hn Hb. rewrite <- Z.shiftl_mul_pow2 by done.
  assert (L : Z.land (Z.shiftl a n) b = 0).
  { apply Z.bits_inj'. intros k Hk. rewrite Z.land_spec, Z.bits_0, Z.shiftl_spec by done.
    destruct (Z.lt_ge_cases k n); [by rewrite Z.testbit_neg_r by lia|].
    rewrite (testbit_small n b k) by lia. apply andb_false_r. }
  by rewrite (Z.add_nocarry_lxor _ _ L), (Z.lxor_lor _ _ L).
Qed.

Lemma le_bytes_ok n v : Forall is_byte (le_bytes n v) /\ length (le_bytes n v) = n.
Proof.
  unfold le_bytes. split; [|by rewrite length_fmap, length_seq].
  apply Forall_fmap, Forall_forall. intros k _. apply Z.mod_pos_bound. lia.
Qed.

Lemma mem_put32 off v s : 0 <= off -> off + 4 <= RAM_SIZE -> mem_step True s (put32 off v s).
Proof.
  intros H1 H2. destruct (le_bytes_ok 4 v) as [B L]. apply mem_dma_write; [done|]. intros _.
  rewrite L. apply in_ram_iff. lia.
Qed.

Lemma mem_put64 off v s : 0 <= off -> off + 8 <= RAM_SIZE -> mem_step True s (put64 off v s).
Proof.
  intros H1 H2. destruct (le_bytes_ok 8 v) as [B L]. apply mem_dma_write; [done|]. intros _.
  rewrite L. apply in_ram_iff. lia.
Qed.

Lemma mem_memset off n s : 0 <= off -> 0 <= n -> off + n <= RAM_SIZE -> mem_step True s (g_memset0 off n s).
Proof.
  intros H1 H2 H3. apply mem_dma_write.
  - apply Forall_replicate. unfold is_byte. lia.
  - intros _. rewrite length_replicate. apply in_ram_iff. lia.
Qed.

Lemma u32_nonneg x : 0 <= u32 x.
Proof. pose proof (u32_range x). unfold is_u32 in *. lia. Qed.

Lemma le_value_range bytes : Forall is_byte bytes -> 0 <= le_value bytes < 2 ^ (8 * Z.of_nat (length bytes)).
Proof.
  induction 1 as [|b bytes Hb _ IH]; [cbn; lia|]. cbn [le_value length].
  replace (8 * Z.of_nat (S (length bytes))) with (8 * Z.of_nat (length bytes) + 8) by lia.
  rewrite Z.pow_add_r by lia. unfold is_byte in Hb. rewrite Z.lor_comm.
  rewrite lor_shiftl_low by (change (2 ^ 8) with 256; lia). change (2 ^ 8) with 256. nia.
Qed.

Lemma fld32_u32 s off : is_u32 (fld32 s off).
Proof.
  unfold fld32. assert (H : Forall is_byte (fst (dma_read off 4 s))).
  { unfold dma_read. cbn [fst]. apply Forall_fmap, Forall_forall. intros k _. apply rd8_byte. }
  apply le_value_range in H. exact H.
Qed.

Lemma fld64_u64 s off : 0 <= fld64 s off < 2 ^ 64.
Proof.
  unfold fld64. assert (H : Forall is_byte (fst (dma_read off 8 s))).
  { unfold dma_read. cbn [fst]. apply Forall_fmap, Forall_forall. intros k _. apply rd8_byte. }
  apply le_value_range in H. exact H.
Qed.

(** What a store of bytes leaves to a later read. *)
Lemma dma_read_write_same o bytes s : ram_ok (ram s) -> Forall is_byte bytes ->
  fst (dma_read o (length bytes) (dma_write o bytes s)) = bytes.
Proof.
  intros R B. unfold dma_read. cbn [fst]. apply list_eq. intros i. rewrite list_lookup_fmap.
  destruct (decide (i < length bytes)%nat) as [Hi|Hi].
  - rewrite lookup_seq_lt by done. cbn. rewrite dma_write_rd8 by done.
    rewrite (proj2 (Z.leb_le _ _)), (proj2 (Z.ltb_lt _ _)) by lia. cbn [andb]. unfold arr_get.
    replace (Z.to_nat (o + Z.of_nat i - o)) with i by lia.
    destruct (lookup_lt_is_Some_2 bytes i Hi) as [b ->]. done.
  - rewrite lookup_seq_ge by lia. symmetry. apply lookup_ge_None. lia.
Qed.
Lemma dma_read_write_other o bytes s o' n : ram_ok (ram s) -> Forall is_byte bytes ->
  o' + Z.of_nat n <= o \/ o + Z.of_nat (length bytes) <= o' ->
  fst (dma_read o' n (dma_write o bytes s)) = fst (dma_read o' n s).
Proof.
  intros R B H. unfold dma_read. cbn [fst]. apply list_fmap_ext. intros i k Hk.
  apply lookup_seq in Hk as [-> Hk]. rewrite dma_write_rd8 by done. cbn [plus].
  destruct (Z.leb_spec o (o' + Z.of_nat i)), (Z.ltb_spec (o' + Z.of_nat i) (o + Z.of_nat (length bytes))); cbn [andb]; done || lia.
Qed.

Lemma le_value_bytes n : forall v, le_value (le_bytes n v) = v mod 2 ^ (8 * Z.of_nat n).
Proof.
  induction n as [|n IH]; intros v; [by rewrite Z.mod_1_r|].
  assert (E : le_bytes (S n) v = v mod 2 ^ 8 :: le_bytes n (Z.shiftr v 8)).
  { apply list_eq. intros i. unfold le_bytes. rewrite list_lookup_fmap. destruct i as [|i].
    - cbn. by rewrite Z.shiftr_0_r.
    - change ((?x :: ?l) !! S i) with (l !! i). rewrite list_lookup_fmap. destruct (decide (i < n)%nat) as [Hi|Hi].
      + rewrite !lookup_seq_lt by lia. cbn. rewrite Z.shiftr_shiftr by lia. do 3 f_equal. lia.
      + rewrite !lookup_seq_ge by lia. done. }
  rewrite E. cbn [le_value]. rewrite IH, Z.shiftr_div_pow2, Z.lor_comm by lia.
  rewrite lor_shiftl_low by (lia || (apply Z.mod_pos_bound; lia)).
  replace (8 * Z.of_nat (S n)) with (8 + 8 * Z.of_nat n) by lia. rewrite Z.pow_add_r by lia.
  rewrite Z.rem_mul_r by lia. lia.
Qed.

Lemma fld32_put32_eq o v s : ram_ok (ram s) -> fld32 (put32 o v s) o = u32 v.
Proof.
  intros R. destruct (le_bytes_ok 4 v) as [B L]. unfold fld32, put32.
  pose proof (dma_read_write_same o (le_bytes 4 v) s R B) as H. rewrite L in H. rewrite H. apply (le_value_bytes 4).
Qed.
Lemma fld64_put64_eq o v s : ram_ok (ram s) -> fld64 (put64 o v s) o = u64 v.
Proof.
  intros R. destruct (le_bytes_ok 8 v) as [B L]. unfold fld64, put64.
  pose proof (dma_read_write_same o (le_bytes 8 v) s R B) as H. rewrite L in H. rewrite H. apply (le_value_bytes 8).
Qed.
Lemma fld32_dma_ne o bytes o' s : ram_ok (ram s) -> Forall is_byte bytes ->
  o' + 4 <= o \/ o + Z.of_nat (length bytes) <= o' -> fld32 (dma_write o bytes s) o' = fld32 s o'.
Proof. intros R B H. unfold fld32. by rewrite dma_read_write_other. Qed.
Lemma fld64_dma_ne o bytes o' s : ram_ok (ram s) -> Forall is_byte bytes ->
  o' + 8 <= o \/ o + Z.of_nat (length bytes) <= o' -> fld64 (dma_write o bytes s) o' = fld64 s o'.
Proof. intros R B H. unfold fld64. by rewrite dma_read_write_other. Qed.
Lemma fld32_put32_ne o v o' s : ram_ok (ram s) -> o' + 4 <= o \/ o + 4 <= o' -> fld32 (put32 o v s) o' = fld32 s o'.
Proof. intros R H. destruct (le_bytes_ok 4 v) as [B L]. apply fld32_dma_ne; [done|done|rewrite L; lia]. Qed.
Lemma fld32_put64_ne o v o' s : ram_ok (ram s) -> o' + 4 <= o \/ o + 8 <= o' -> fld32 (put64 o v s) o' = fld32 s o'.
Proof. intros R H. destruct (le_bytes_ok 8 v) as [B L]. apply fld32_dma_ne; [done|done|rewrite L; lia]. Qed.
Lemma fld64_put32_ne o v o' s : ram_ok (ram s) -> o' + 8 <= o \/ o + 4 <= o' -> fld64 (put32 o v s) o' = fld64 s o'.
Proof. intros R H. destruct (le_bytes_ok 4 v) as [B L]. apply fld64_dma_ne; [done|done|rewrite L; lia]. Qed.
Lemma fld64_put64_ne o v o' s : ram_ok (ram s) -> o' + 8 <= o \/ o + 8 <= o' -> fld64 (put64 o v s) o' = fld64 s o'.
Proof. intros R H. destruct (le_bytes_ok 8 v) as [B L]. apply fld64_dma_ne; [done|done|rewrite L; lia]. Qed.

Lemma ram_ok_dma o bytes s : ram_ok (ram s) -> Forall is_byte bytes -> ram_ok (ram (dma_write o bytes s)).
Proof. intros R B. by apply (ms_ram False s _ (mem_dma_write False bytes o s B ltac:(done))). Qed.
Lemma ram_ok_put32 o v s : ram_ok (ram s) -> ram_ok (ram (put32 o v s)).
Proof. intros R. apply ram_ok_dma; [done|apply le_bytes_ok]. Qed.
Lemma ram_ok_put64 o v s : ram_ok (ram s) -> ram_ok (ram (put64 o v s)).
Proof. intros R. apply ram_ok_dma; [done|apply le_bytes_ok]. Qed.
End MemStep.

(** [s'] comes from [s] by stores to the addresses of [R] and reads. *)
Record region_step {D} (R : Z -> Prop) (s s' : machine D) : Prop := {
  rs_mem : mem_step (forall a, R a -> 0 <= a < RAM_SIZE) s s';
  rs_frame : ram_ok (ram s) -> forall a, ~ R a -> rd8 s' a = rd8 s a }.

Section Region.
Context {D : Type}.
Implicit Types s : machine D.

Lemma region_refl R s : region_step R s s.
Proof. constructor; [apply mem_refl|done]. Qed.
Lemma region_trans R s1 s2 s3 : region_step R s1 s2 -> region_step R s2 s3 -> region_step R s1 s3.
Proof.
  intros [M1 F1] [M2 F2]. constructor; [by eapply mem_trans|]. intros O a Ha. rewrite F2 by (done || by apply (ms_ram _ _ _ M1)).
  by apply F1.
Qed.
Lemma region_dma (R : Z -> Prop) o bytes s : Forall is_byte bytes ->
  (forall a, o <= a < o + Z.of_nat (length bytes) -> R a) -> region_step R s (dma_write o bytes s).
Proof.
  intros B H. constructor.
  - destruct bytes as [|b bytes]; [apply mem_refl|]. apply mem_dma_write; [done|]. intros HR. apply in_ram_iff. cbn [length] in *.
    assert (H1 : 0 <= o < RAM_SIZE) by (apply HR, H; lia).
    assert (H2 : 0 <= o + Z.of_nat (length bytes) < RAM_SIZE) by (apply HR, H; lia). lia.
  - intros O a Ha. rewrite dma_write_rd8 by done.
    destruct (Z.leb_spec o a), (Z.ltb_spec a (o + Z.of_nat (length bytes))); cbn [andb]; try done. destruct Ha. apply H. lia.
Qed.
Lemma region_put32 (R : Z -> Prop) o v s : (forall a, o <= a < o + 4 -> R a) -> region_step R s (put32 o v s).
Proof. intros H. destruct (le_bytes_ok 4 v) as [B L]. apply region_dma; [done|by rewrite L]. Qed.
Lemma region_put64 (R : Z -> Prop) o v s : (forall a, o <= a < o + 8 -> R a) -> region_step R s (put64 o v s).
Proof. intros H. destruct (le_bytes_ok 8 v) as [B L]. apply region_dma; [done|by rewrite L]. Qed.
Lemma region_memset (R : Z -> Prop) o n s : 0 <= n -> (forall a, o <= a < o + n -> R a) -> region_step R s (g_memset0 o n s).
Proof.
  intros Hn H. apply region_dma; [apply Forall_replicate; unfold is_byte; lia|]. rewrite length_replicate. by rewrite Z2Nat.id.
Qed.
(** A read that is in RAM. *)
Lemma region_touch (R : Z -> Prop) o n s : in_ram o n = true -> region_step R s (touch o n s).
Proof. intros H. rewrite dma_touch_in_ram by done. apply region_refl. Qed.
End Region.
#[export] Hint Resolve ram_ok_put32 ram_ok_put64 : semu.

(** RAM given by its cells is well formed when they are words, by computation. *)
Lemma ram_ok_check (m : gmap Z Z) : forallb (fun kv => is_u32b kv.2) (map_to_list m) = true -> ram_ok m.
Proof.
  intros F i. unfold word. destruct (m !! i) as [v|] eqn:E; [|split; cbn; lia]. cbn.
  rewrite forallb_forall in F. apply is_u32b_true, (F (i, v)), list_elem_of_In. by apply elem_of_map_to_list.
Qed.
