(* ===== verification/InputCodes.v ===== *)
(** * Event codes of the input devices (virtio-input-codes.h) and the key table

    The codes the guest sees, and the table of virtio-input-event.c that translates
    SDL scancodes into them. The numbers of the scancodes are SDL's: the names are
    the constructors of [sdl_scancode], their values a parameter. *)

From stdpp Require Import base list.
From Stdlib Require Import ZArith Lia.
From S2P Require Import Prelude.
Open Scope Z_scope.

(* [virtio-input-codes.h:11-16] *)
Definition SEMU_EV_SYN := 0x00.
Definition SEMU_EV_KEY := 0x01.
Definition SEMU_EV_REL := 0x02.
Definition SEMU_EV_ABS := 0x03.
Definition SEMU_EV_LED := 0x11.
Definition SEMU_EV_REP := 0x14.

(* [virtio-input-codes.h:25-25] *)
Definition SEMU_SYN_REPORT := 0.

(* [virtio-input-codes.h:35-48] *)
Definition SEMU_KEY_ESC := 1.
Definition SEMU_KEY_1 := 2.
Definition SEMU_KEY_2 := 3.
Definition SEMU_KEY_3 := 4.
Definition SEMU_KEY_4 := 5.
Definition SEMU_KEY_5 := 6.
Definition SEMU_KEY_6 := 7.
Definition SEMU_KEY_7 := 8.
Definition SEMU_KEY_8 := 9.
Definition SEMU_KEY_9 := 10.
Definition SEMU_KEY_0 := 11.
Definition SEMU_KEY_MINUS := 12.
Definition SEMU_KEY_EQUAL := 13.
Definition SEMU_KEY_BACKSPACE := 14.

(* [virtio-input-codes.h:51-64] *)
Definition SEMU_KEY_TAB := 15.
Definition SEMU_KEY_Q := 16.
Definition SEMU_KEY_W := 17.
Definition SEMU_KEY_E := 18.
Definition SEMU_KEY_R := 19.
Definition SEMU_KEY_T := 20.
Definition SEMU_KEY_Y := 21.
Definition SEMU_KEY_U := 22.
Definition SEMU_KEY_I := 23.
Definition SEMU_KEY_O := 24.
Definition SEMU_KEY_P := 25.
Definition SEMU_KEY_LEFTBRACE := 26.
Definition SEMU_KEY_RIGHTBRACE := 27.
Definition SEMU_KEY_ENTER := 28.

(* [virtio-input-codes.h:67-79] *)
Definition SEMU_KEY_LEFTCTRL := 29.
Definition SEMU_KEY_A := 30.
Definition SEMU_KEY_S := 31.
Definition SEMU_KEY_D := 32.
Definition SEMU_KEY_F := 33.
Definition SEMU_KEY_G := 34.
Definition SEMU_KEY_H := 35.
Definition SEMU_KEY_J := 36.
Definition SEMU_KEY_K := 37.
Definition SEMU_KEY_L := 38.
Definition SEMU_KEY_SEMICOLON := 39.
Definition SEMU_KEY_APOSTROPHE := 40.
Definition SEMU_KEY_GRAVE := 41.

(* [virtio-input-codes.h:82-94] *)
Definition SEMU_KEY_LEFTSHIFT := 42.
Definition SEMU_KEY_BACKSLASH := 43.
Definition SEMU_KEY_Z := 44.
Definition SEMU_KEY_X := 45.
Definition SEMU_KEY_C := 46.
Definition SEMU_KEY_V := 47.
Definition SEMU_KEY_B := 48.
Definition SEMU_KEY_N := 49.
Definition SEMU_KEY_M := 50.
Definition SEMU_KEY_COMMA := 51.
Definition SEMU_KEY_DOT := 52.
Definition SEMU_KEY_SLASH := 53.
Definition SEMU_KEY_RIGHTSHIFT := 54.

(* [virtio-input-codes.h:97-99] *)
Definition SEMU_KEY_LEFTALT := 56.
Definition SEMU_KEY_SPACE := 57.
Definition SEMU_KEY_CAPSLOCK := 58.

(* [virtio-input-codes.h:102-113] *)
Definition SEMU_KEY_F1 := 59.
Definition SEMU_KEY_F2 := 60.
Definition SEMU_KEY_F3 := 61.
Definition SEMU_KEY_F4 := 62.
Definition SEMU_KEY_F5 := 63.
Definition SEMU_KEY_F6 := 64.
Definition SEMU_KEY_F7 := 65.
Definition SEMU_KEY_F8 := 66.
Definition SEMU_KEY_F9 := 67.
Definition SEMU_KEY_F10 := 68.
Definition SEMU_KEY_F11 := 87.
Definition SEMU_KEY_F12 := 88.

(* [virtio-input-codes.h:116-133] *)
Definition SEMU_KEY_NUMLOCK := 69.
Definition SEMU_KEY_SCROLLLOCK := 70.
Definition SEMU_KEY_KP7 := 71.
Definition SEMU_KEY_KP8 := 72.
Definition SEMU_KEY_KP9 := 73.
Definition SEMU_KEY_KPASTERISK := 55.
Definition SEMU_KEY_KPMINUS := 74.
Definition SEMU_KEY_KP4 := 75.
Definition SEMU_KEY_KP5 := 76.
Definition SEMU_KEY_KP6 := 77.
Definition SEMU_KEY_KPPLUS := 78.
Definition SEMU_KEY_KP1 := 79.
Definition SEMU_KEY_KP2 := 80.
Definition SEMU_KEY_KP3 := 81.
Definition SEMU_KEY_KP0 := 82.
Definition SEMU_KEY_KPDOT := 83.
Definition SEMU_KEY_KPENTER := 96.
Definition SEMU_KEY_KPSLASH := 98.

(* [virtio-input-codes.h:136-137] *)
Definition SEMU_KEY_RIGHTCTRL := 97.
Definition SEMU_KEY_RIGHTALT := 100.

(* [virtio-input-codes.h:140-149] *)
Definition SEMU_KEY_HOME := 102.
Definition SEMU_KEY_UP := 103.
Definition SEMU_KEY_PAGEUP := 104.
Definition SEMU_KEY_LEFT := 105.
Definition SEMU_KEY_RIGHT := 106.
Definition SEMU_KEY_END := 107.
Definition SEMU_KEY_DOWN := 108.
Definition SEMU_KEY_PAGEDOWN := 109.
Definition SEMU_KEY_INSERT := 110.
Definition SEMU_KEY_DELETE := 111.

(* [virtio-input-codes.h:154-156] *)
Definition SEMU_BTN_LEFT := 0x110.
Definition SEMU_BTN_RIGHT := 0x111.
Definition SEMU_BTN_MIDDLE := 0x112.

(* [virtio-input-codes.h:164-167] *)
Definition SEMU_REL_X := 0x00.
Definition SEMU_REL_Y := 0x01.
Definition SEMU_REL_HWHEEL := 0x06.
Definition SEMU_REL_WHEEL := 0x08.

(* [virtio-input-codes.h:172-173] *)
Definition SEMU_ABS_X := 0x00.
Definition SEMU_ABS_Y := 0x01.

(* [virtio-input-codes.h:179-181] *)
Definition SEMU_LED_NUML := 0x00.
Definition SEMU_LED_CAPSL := 0x01.
Definition SEMU_LED_SCROLLL := 0x02.

(* [virtio-input-codes.h:186-187] *)
Definition SEMU_REP_DELAY := 0x00.
Definition SEMU_REP_PERIOD := 0x01.

(* [virtio-input-codes.h:192-193] *)
Definition SEMU_INPUT_PROP_POINTER := 0x00.
Definition SEMU_INPUT_PROP_DIRECT := 0x01.

(** The scancodes the table names. *)
(* [virtio-input-event.c:41-142] vinput_key_map *)
Inductive sdl_scancode :=
  | SDL_SCANCODE_ESCAPE | SDL_SCANCODE_1 | SDL_SCANCODE_2 | SDL_SCANCODE_3 | SDL_SCANCODE_4
  | SDL_SCANCODE_5 | SDL_SCANCODE_6 | SDL_SCANCODE_7 | SDL_SCANCODE_8 | SDL_SCANCODE_9
  | SDL_SCANCODE_0 | SDL_SCANCODE_MINUS | SDL_SCANCODE_EQUALS | SDL_SCANCODE_BACKSPACE
  | SDL_SCANCODE_TAB | SDL_SCANCODE_Q | SDL_SCANCODE_W | SDL_SCANCODE_E | SDL_SCANCODE_R
  | SDL_SCANCODE_T | SDL_SCANCODE_Y | SDL_SCANCODE_U | SDL_SCANCODE_I | SDL_SCANCODE_O
  | SDL_SCANCODE_P | SDL_SCANCODE_LEFTBRACKET | SDL_SCANCODE_RIGHTBRACKET | SDL_SCANCODE_RETURN
  | SDL_SCANCODE_LCTRL | SDL_SCANCODE_A | SDL_SCANCODE_S | SDL_SCANCODE_D | SDL_SCANCODE_F
  | SDL_SCANCODE_G | SDL_SCANCODE_H | SDL_SCANCODE_J | SDL_SCANCODE_K | SDL_SCANCODE_L
  | SDL_SCANCODE_SEMICOLON | SDL_SCANCODE_APOSTROPHE | SDL_SCANCODE_GRAVE | SDL_SCANCODE_LSHIFT
  | SDL_SCANCODE_BACKSLASH | SDL_SCANCODE_Z | SDL_SCANCODE_X | SDL_SCANCODE_C | SDL_SCANCODE_V
  | SDL_SCANCODE_B | SDL_SCANCODE_N | SDL_SCANCODE_M | SDL_SCANCODE_COMMA | SDL_SCANCODE_PERIOD
  | SDL_SCANCODE_SLASH | SDL_SCANCODE_RSHIFT | SDL_SCANCODE_LALT | SDL_SCANCODE_SPACE
  | SDL_SCANCODE_CAPSLOCK | SDL_SCANCODE_F1 | SDL_SCANCODE_F2 | SDL_SCANCODE_F3 | SDL_SCANCODE_F4
  | SDL_SCANCODE_F5 | SDL_SCANCODE_F6 | SDL_SCANCODE_F7 | SDL_SCANCODE_F8 | SDL_SCANCODE_F9
  | SDL_SCANCODE_F10 | SDL_SCANCODE_NUMLOCKCLEAR | SDL_SCANCODE_SCROLLLOCK | SDL_SCANCODE_KP_7
  | SDL_SCANCODE_KP_8 | SDL_SCANCODE_KP_9 | SDL_SCANCODE_KP_MULTIPLY | SDL_SCANCODE_KP_MINUS
  | SDL_SCANCODE_KP_4 | SDL_SCANCODE_KP_5 | SDL_SCANCODE_KP_6 | SDL_SCANCODE_KP_PLUS
  | SDL_SCANCODE_KP_1 | SDL_SCANCODE_KP_2 | SDL_SCANCODE_KP_3 | SDL_SCANCODE_KP_0
  | SDL_SCANCODE_KP_PERIOD | SDL_SCANCODE_F11 | SDL_SCANCODE_F12 | SDL_SCANCODE_KP_ENTER
  | SDL_SCANCODE_KP_DIVIDE | SDL_SCANCODE_RCTRL | SDL_SCANCODE_RALT | SDL_SCANCODE_HOME
  | SDL_SCANCODE_UP | SDL_SCANCODE_PAGEUP | SDL_SCANCODE_LEFT | SDL_SCANCODE_RIGHT
  | SDL_SCANCODE_END | SDL_SCANCODE_DOWN | SDL_SCANCODE_PAGEDOWN | SDL_SCANCODE_INSERT
  | SDL_SCANCODE_DELETE.

#[export] Instance sdl_scancode_eq_dec : EqDecision sdl_scancode.
Proof. solve_decision. Defined.

(* [virtio-input-event.c:18-21] vinput_key_map_entry *)
Record vinput_key_map_entry := mk_key { key_scancode : sdl_scancode; key_linux : Z }.

(* [virtio-input-event.c:41-142] vinput_key_map *)
Definition vinput_key_map : list vinput_key_map_entry :=
  [mk_key SDL_SCANCODE_ESCAPE SEMU_KEY_ESC; mk_key SDL_SCANCODE_1 SEMU_KEY_1;
   mk_key SDL_SCANCODE_2 SEMU_KEY_2; mk_key SDL_SCANCODE_3 SEMU_KEY_3;
   mk_key SDL_SCANCODE_4 SEMU_KEY_4; mk_key SDL_SCANCODE_5 SEMU_KEY_5;
   mk_key SDL_SCANCODE_6 SEMU_KEY_6; mk_key SDL_SCANCODE_7 SEMU_KEY_7;
   mk_key SDL_SCANCODE_8 SEMU_KEY_8; mk_key SDL_SCANCODE_9 SEMU_KEY_9;
   mk_key SDL_SCANCODE_0 SEMU_KEY_0; mk_key SDL_SCANCODE_MINUS SEMU_KEY_MINUS;
   mk_key SDL_SCANCODE_EQUALS SEMU_KEY_EQUAL; mk_key SDL_SCANCODE_BACKSPACE SEMU_KEY_BACKSPACE;
   mk_key SDL_SCANCODE_TAB SEMU_KEY_TAB; mk_key SDL_SCANCODE_Q SEMU_KEY_Q;
   mk_key SDL_SCANCODE_W SEMU_KEY_W; mk_key SDL_SCANCODE_E SEMU_KEY_E;
   mk_key SDL_SCANCODE_R SEMU_KEY_R; mk_key SDL_SCANCODE_T SEMU_KEY_T;
   mk_key SDL_SCANCODE_Y SEMU_KEY_Y; mk_key SDL_SCANCODE_U SEMU_KEY_U;
   mk_key SDL_SCANCODE_I SEMU_KEY_I; mk_key SDL_SCANCODE_O SEMU_KEY_O;
   mk_key SDL_SCANCODE_P SEMU_KEY_P; mk_key SDL_SCANCODE_LEFTBRACKET SEMU_KEY_LEFTBRACE;
   mk_key SDL_SCANCODE_RIGHTBRACKET SEMU_KEY_RIGHTBRACE; mk_key SDL_SCANCODE_RETURN SEMU_KEY_ENTER;
   mk_key SDL_SCANCODE_LCTRL SEMU_KEY_LEFTCTRL; mk_key SDL_SCANCODE_A SEMU_KEY_A;
   mk_key SDL_SCANCODE_S SEMU_KEY_S; mk_key SDL_SCANCODE_D SEMU_KEY_D;
   mk_key SDL_SCANCODE_F SEMU_KEY_F; mk_key SDL_SCANCODE_G SEMU_KEY_G;
   mk_key SDL_SCANCODE_H SEMU_KEY_H; mk_key SDL_SCANCODE_J SEMU_KEY_J;
   mk_key SDL_SCANCODE_K SEMU_KEY_K; mk_key SDL_SCANCODE_L SEMU_KEY_L;
   mk_key SDL_SCANCODE_SEMICOLON SEMU_KEY_SEMICOLON;
   mk_key SDL_SCANCODE_APOSTROPHE SEMU_KEY_APOSTROPHE; mk_key SDL_SCANCODE_GRAVE SEMU_KEY_GRAVE;
   mk_key SDL_SCANCODE_LSHIFT SEMU_KEY_LEFTSHIFT; mk_key SDL_SCANCODE_BACKSLASH SEMU_KEY_BACKSLASH;
   mk_key SDL_SCANCODE_Z SEMU_KEY_Z; mk_key SDL_SCANCODE_X SEMU_KEY_X;
   mk_key SDL_SCANCODE_C SEMU_KEY_C; mk_key SDL_SCANCODE_V SEMU_KEY_V;
   mk_key SDL_SCANCODE_B SEMU_KEY_B; mk_key SDL_SCANCODE_N SEMU_KEY_N;
   mk_key SDL_SCANCODE_M SEMU_KEY_M; mk_key SDL_SCANCODE_COMMA SEMU_KEY_COMMA;
   mk_key SDL_SCANCODE_PERIOD SEMU_KEY_DOT; mk_key SDL_SCANCODE_SLASH SEMU_KEY_SLASH;
   mk_key SDL_SCANCODE_RSHIFT SEMU_KEY_RIGHTSHIFT; mk_key SDL_SCANCODE_LALT SEMU_KEY_LEFTALT;
   mk_key SDL_SCANCODE_SPACE SEMU_KEY_SPACE; mk_key SDL_SCANCODE_CAPSLOCK SEMU_KEY_CAPSLOCK;
   mk_key SDL_SCANCODE_F1 SEMU_KEY_F1; mk_key SDL_SCANCODE_F2 SEMU_KEY_F2;
   mk_key SDL_SCANCODE_F3 SEMU_KEY_F3; mk_key SDL_SCANCODE_F4 SEMU_KEY_F4;
   mk_key SDL_SCANCODE_F5 SEMU_KEY_F5; mk_key SDL_SCANCODE_F6 SEMU_KEY_F6;
   mk_key SDL_SCANCODE_F7 SEMU_KEY_F7; mk_key SDL_SCANCODE_F8 SEMU_KEY_F8;
   mk_key SDL_SCANCODE_F9 SEMU_KEY_F9; mk_key SDL_SCANCODE_F10 SEMU_KEY_F10;
   mk_key SDL_SCANCODE_NUMLOCKCLEAR SEMU_KEY_NUMLOCK;
   mk_key SDL_SCANCODE_SCROLLLOCK SEMU_KEY_SCROLLLOCK; mk_key SDL_SCANCODE_KP_7 SEMU_KEY_KP7;
   mk_key SDL_SCANCODE_KP_8 SEMU_KEY_KP8; mk_key SDL_SCANCODE_KP_9 SEMU_KEY_KP9;
   mk_key SDL_SCANCODE_KP_MULTIPLY SEMU_KEY_KPASTERISK;
   mk_key SDL_SCANCODE_KP_MINUS SEMU_KEY_KPMINUS; mk_key SDL_SCANCODE_KP_4 SEMU_KEY_KP4;
   mk_key SDL_SCANCODE_KP_5 SEMU_KEY_KP5; mk_key SDL_SCANCODE_KP_6 SEMU_KEY_KP6;
   mk_key SDL_SCANCODE_KP_PLUS SEMU_KEY_KPPLUS; mk_key SDL_SCANCODE_KP_1 SEMU_KEY_KP1;
   mk_key SDL_SCANCODE_KP_2 SEMU_KEY_KP2; mk_key SDL_SCANCODE_KP_3 SEMU_KEY_KP3;
   mk_key SDL_SCANCODE_KP_0 SEMU_KEY_KP0; mk_key SDL_SCANCODE_KP_PERIOD SEMU_KEY_KPDOT;
   mk_key SDL_SCANCODE_F11 SEMU_KEY_F11; mk_key SDL_SCANCODE_F12 SEMU_KEY_F12;
   mk_key SDL_SCANCODE_KP_ENTER SEMU_KEY_KPENTER; mk_key SDL_SCANCODE_KP_DIVIDE SEMU_KEY_KPSLASH;
   mk_key SDL_SCANCODE_RCTRL SEMU_KEY_RIGHTCTRL; mk_key SDL_SCANCODE_RALT SEMU_KEY_RIGHTALT;
   mk_key SDL_SCANCODE_HOME SEMU_KEY_HOME; mk_key SDL_SCANCODE_UP SEMU_KEY_UP;
   mk_key SDL_SCANCODE_PAGEUP SEMU_KEY_PAGEUP; mk_key SDL_SCANCODE_LEFT SEMU_KEY_LEFT;
   mk_key SDL_SCANCODE_RIGHT SEMU_KEY_RIGHT; mk_key SDL_SCANCODE_END SEMU_KEY_END;
   mk_key SDL_SCANCODE_DOWN SEMU_KEY_DOWN; mk_key SDL_SCANCODE_PAGEDOWN SEMU_KEY_PAGEDOWN;
   mk_key SDL_SCANCODE_INSERT SEMU_KEY_INSERT; mk_key SDL_SCANCODE_DELETE SEMU_KEY_DELETE].
