(* ===== verification/InputEvent.v ===== *)
(** * The host side of the input devices

    virtio-input-event.c: the SDL thread translates window events into commands
    and pushes them into one queue per device; the emulator thread pops them. The
    part of window-sw.c this code calls is modelled with it: the wake pipe and the
    mouse grab. SDL itself is the parameter [Sdl]. The functions here are the
    sequential meaning of the code; [InputConc] has the interleaved one. *)

From stdpp Require Import base list.
From Stdlib Require Import ZArith Lia Bool.
From S2P Require Import Prelude InputCodes.
Open Scope Z_scope.

(* [virtio-input-event.c:9-13] *)
Definition VINPUT_CMD_QUEUE_SIZE := 1024.
Definition VINPUT_CMD_QUEUE_MASK := VINPUT_CMD_QUEUE_SIZE - 1.
Definition VINPUT_SDL_EVENT_BURST_LIMIT := 64.

(* [virtio-input-event.h:16-20] *)
Definition VINPUT_KEYBOARD_ID := 0.
Definition VINPUT_MOUSE_ID := 1.
Definition VINPUT_DEV_CNT := 2.

(** The tagged union: the constructor is the tag. *)
(* [virtio-input-event.h:26-55] vinput_cmd *)
Inductive vinput_cmd :=
  | VINPUT_CMD_KEYBOARD_KEY (key value : Z)
  | VINPUT_CMD_MOUSE_BUTTON (button : Z) (pressed : bool)
  | VINPUT_CMD_MOUSE_MOTION (dx dy : Z)
  | VINPUT_CMD_MOUSE_WHEEL (dx dy : Z).

(* [virtio-input-event.c:28-32] vinput_cmd_queue *)
Record vinput_cmd_queue := mk_cmdq { entries : list vinput_cmd; q_head : Z; q_tail : Z }.

(** The statics of virtio-input-event.c and of window-sw.c; [wake_bytes] are the
    bytes in the wake pipe and [sdl_input_window] whether there is a window. *)
(* [virtio-input-event.c:34-39] vinput_cmd_queues, vinput_cmd_wake_pending *)
Record vinput_host := mk_vhost {
  vinput_cmd_queues : list vinput_cmd_queue;
  vinput_cmd_wake_pending : bool;
  wake_write_fd : Z;
  wake_bytes : Z;
  headless_mode : bool;
  should_exit : bool;
  mouse_grabbed : bool;
  sdl_input_window : bool }.

#[export] Instance eta_cmdq : Eta vinput_cmd_queue := fun r => mk_cmdq (entries r) (q_head r) (q_tail r).
#[export] Instance eta_vhost : Eta vinput_host := fun r =>
  mk_vhost (vinput_cmd_queues r) (vinput_cmd_wake_pending r) (wake_write_fd r) (wake_bytes r)
    (headless_mode r) (should_exit r) (mouse_grabbed r) (sdl_input_window r).
#[export] Instance set_entries : Setter entries := ltac:(solve_setter).
#[export] Instance set_q_head : Setter q_head := ltac:(solve_setter).
#[export] Instance set_q_tail : Setter q_tail := ltac:(solve_setter).
#[export] Instance set_cmd_queues : Setter vinput_cmd_queues := ltac:(solve_setter).
#[export] Instance set_wake_pending : Setter vinput_cmd_wake_pending := ltac:(solve_setter).
#[export] Instance set_wake_write_fd : Setter wake_write_fd := ltac:(solve_setter).
#[export] Instance set_wake_bytes : Setter wake_bytes := ltac:(solve_setter).
#[export] Instance set_headless_mode : Setter headless_mode := ltac:(solve_setter).
#[export] Instance set_should_exit : Setter should_exit := ltac:(solve_setter).
#[export] Instance set_mouse_grabbed : Setter mouse_grabbed := ltac:(solve_setter).
#[export] Instance set_sdl_input_window : Setter sdl_input_window := ltac:(solve_setter).

Implicit Types (h : vinput_host) (q : vinput_cmd_queue).

(** Zero-initialised storage. *)
Definition zero_cmd := VINPUT_CMD_KEYBOARD_KEY 0 0.
Definition zero_cmdq : vinput_cmd_queue := mk_cmdq (replicate (Z.to_nat VINPUT_CMD_QUEUE_SIZE) zero_cmd) 0 0.

Definition cmdq_at h (dev_id : Z) : vinput_cmd_queue := arr_get zero_cmdq (vinput_cmd_queues h) dev_id.
Definition upd_cmdq (dev_id : Z) (f : vinput_cmd_queue -> vinput_cmd_queue) h : vinput_host :=
  h <| vinput_cmd_queues := arr_set (vinput_cmd_queues h) dev_id (f (cmdq_at h dev_id)) |>.

(** The successor of a ring index. *)
(* [virtio-input-event.c:149-149] vinput_push_cmd *)
Definition ring_next (i : Z) : Z := Z.land (u32 (i + 1)) VINPUT_CMD_QUEUE_MASK.

(** ** The wake pipe and the window state (window-sw.c) *)

(** Bytes the kernel buffers for a non-blocking pipe before [write] fails. *)
Definition PIPE_CAPACITY := 65536.

(* [window-sw.c:66-69] window_set_wake_fd_sw *)
Definition window_set_wake_fd_sw (fd : Z) h : vinput_host := h <| wake_write_fd := fd |>.

(* [window-sw.c:71-81] window_wake_backend_sw *)
Definition window_wake_backend_sw h : vinput_host :=
  if 0 <=? wake_write_fd h then
    if wake_bytes h <? PIPE_CAPACITY then h <| wake_bytes := wake_bytes h + 1 |> else h
  else h.

(* [window-sw.c:83-91] window_shutdown_sw *)
Definition window_shutdown_sw h : vinput_host := window_wake_backend_sw (h <| should_exit := true |>).

(* [window-sw.c:93-96] window_is_closed_sw *)
Definition window_is_closed_sw h : bool := should_exit h.

(* [window-sw.c:132-135] window_is_mouse_grabbed_sw *)
Definition window_is_mouse_grabbed_sw h : bool := mouse_grabbed h.

(** ** The queues *)

(* [virtio-input-event.c:144-176] vinput_push_cmd *)
Definition vinput_push_cmd (dev_id : Z) (event : vinput_cmd) h : bool * vinput_host :=
  let head := q_head (cmdq_at h dev_id) in
  let tail := q_tail (cmdq_at h dev_id) in
  let next := ring_next head in
  if next =? tail then (false, h)
  else
    let h := upd_cmdq dev_id (fun q => q <| entries := arr_set (entries q) head event |>) h in
    let h := upd_cmdq dev_id (fun q => q <| q_head := next |>) h in
    let old := vinput_cmd_wake_pending h in
    let h := h <| vinput_cmd_wake_pending := true |> in
    (true, if old then h else window_wake_backend_sw h).

(* [virtio-input-event.c:178-188] vinput_all_queues_empty *)
Definition vinput_all_queues_empty h : bool :=
  forallb (fun i => q_tail (cmdq_at h i) =? q_head (cmdq_at h i)) (seqZ 0 VINPUT_DEV_CNT).

(* [virtio-input-event.c:219-236] vinput_pop_cmd *)
Definition vinput_pop_cmd (dev_id : Z) h : option vinput_cmd * vinput_host :=
  let tail := q_tail (cmdq_at h dev_id) in
  let head := q_head (cmdq_at h dev_id) in
  if tail =? head then (None, h)
  else
    let event := arr_get zero_cmd (entries (cmdq_at h dev_id)) tail in
    (Some event, upd_cmdq dev_id (fun q => q <| q_tail := ring_next tail |>) h).

(* [virtio-input-event.c:238-251] vinput_rearm_cmd_wake *)
Definition vinput_rearm_cmd_wake h : bool * vinput_host :=
  let h := h <| vinput_cmd_wake_pending := false |> in (vinput_all_queues_empty h, h).

(* [virtio-input-event.c:253-256] vinput_may_have_pending_cmds *)
Definition vinput_may_have_pending_cmds h : bool := vinput_cmd_wake_pending h.

(** [while (vinput_pop_cmd(dev_id, &event)) body(event);] A queue holds less than
    [VINPUT_CMD_QUEUE_SIZE] commands, so that many rounds empty it. *)
Fixpoint pop_loop {S : Type} (fuel : nat) (dev_id : Z) (body : vinput_cmd -> S -> S)
    (st : S) (h : vinput_host) : S * vinput_host :=
  match fuel with
  | O => (st, h)
  | S fuel =>
    match vinput_pop_cmd dev_id h with
    | (None, h) => (st, h)
    | (Some event, h) => pop_loop fuel dev_id body (body event st) h
    end
  end.
Definition pop_all {S : Type} := @pop_loop S (Z.to_nat VINPUT_CMD_QUEUE_SIZE).

(* [virtio-input-event.c:258-287] vinput_reset_host_events *)
Definition vinput_reset_host_events (dev_id : Z) h : vinput_host :=
  let '(_, h) := pop_all dev_id (fun _ u => u) tt h in
  let h := h <| vinput_cmd_wake_pending := false |> in
  if vinput_all_queues_empty h then h
  else
    let old := vinput_cmd_wake_pending h in
    let h := h <| vinput_cmd_wake_pending := true |> in
    if old then h else window_wake_backend_sw h.

(** ** Translating SDL events *)

(** The fields of [SDL_Event] the code reads; [SDL_OTHER] is any other event. *)
Inductive sdl_event :=
  | SDL_QUIT
  | SDL_WINDOWEVENT (focus_lost : bool)
  | SDL_KEYDOWN (sc kmod : Z) (repeat : bool)
  | SDL_KEYUP (sc : Z)
  | SDL_MOUSEBUTTONDOWN (button : Z)
  | SDL_MOUSEBUTTONUP (button : Z)
  | SDL_MOUSEMOTION (xrel yrel : Z)
  | SDL_MOUSEWHEEL (x y : Z) (flipped : bool)
  | SDL_OTHER.

(** What SDL provides: its numbering of scancodes, modifiers and buttons, the
    event queue, and the calls that change the pointer mode ([true] is success). *)
Class Sdl (W : Type) := {
  scancode : sdl_scancode -> Z;
  KMOD_CTRL : Z; KMOD_ALT : Z;
  SDL_BUTTON_LEFT : Z; SDL_BUTTON_MIDDLE : Z; SDL_BUTTON_RIGHT : Z;
  sdl_wait_event : W -> option sdl_event * W;
  sdl_poll_event : W -> option sdl_event * W;
  sdl_set_relative_mouse_mode : bool -> W -> bool * W;
  sdl_set_window_grab : bool -> W -> W;
  sdl_show_cursor : bool -> W -> W }.

(** SDL's enumerations have distinct values. *)
Class SdlLaws (W : Type) `{!Sdl W} := {
  scancode_inj :: Inj (=) (=) scancode;
  buttons_distinct : NoDup [SDL_BUTTON_LEFT; SDL_BUTTON_RIGHT; SDL_BUTTON_MIDDLE] }.

Section Events.
Context {W : Type} `{SdlW : Sdl W}.

(* [window-sw.c:103-130] window_set_mouse_grab_sw *)
Definition window_set_mouse_grab_sw (grabbed : bool) (h : vinput_host) (w : W) : vinput_host * W :=
  if headless_mode h || negb (sdl_input_window h) then (h <| mouse_grabbed := false |>, w)
  else if Bool.eqb (mouse_grabbed h) grabbed then (h, w)
  else if grabbed then
    let '(ok, w) := sdl_set_relative_mouse_mode true w in
    if ok then (h <| mouse_grabbed := grabbed |>, sdl_show_cursor false (sdl_set_window_grab true w))
    else (h, w)
  else
    let w := sdl_set_window_grab false w in
    let w := snd (sdl_set_relative_mouse_mode false w) in
    (h <| mouse_grabbed := grabbed |>, sdl_show_cursor true w).

(* [virtio-input-event.c:191-203] vinput_sdl_button_to_linux_key *)
Definition vinput_sdl_button_to_linux_key (sdl_button : Z) : Z :=
  if sdl_button =? SDL_BUTTON_LEFT then SEMU_BTN_LEFT
  else if sdl_button =? SDL_BUTTON_RIGHT then SEMU_BTN_RIGHT
  else if sdl_button =? SDL_BUTTON_MIDDLE then SEMU_BTN_MIDDLE
  else -1.

(* [virtio-input-event.c:208-217] vinput_sdl_scancode_to_linux_key *)
Fixpoint key_lookup (map : list vinput_key_map_entry) (sdl_scancode : Z) : Z :=
  match map with
  | [] => -1
  | e :: map => if sdl_scancode =? scancode (key_scancode e) then key_linux e
                else key_lookup map sdl_scancode
  end.
Definition vinput_sdl_scancode_to_linux_key := key_lookup vinput_key_map.

Definition push (dev_id : Z) (event : vinput_cmd) (h : vinput_host) : vinput_host :=
  snd (vinput_push_cmd dev_id event h).

(** One event of the burst; [None] is a request to quit. *)
(* [virtio-input-event.c:302-392] vinput_handle_events *)
Definition handle_event (e : sdl_event) (h : vinput_host) (w : W) : option (vinput_host * W) :=
  match e with
  | SDL_QUIT => None
  | SDL_WINDOWEVENT focus_lost => Some (if focus_lost then window_set_mouse_grab_sw false h w else (h, w))
  | SDL_KEYDOWN sc kmod repeat =>
    Some (if window_is_mouse_grabbed_sw h && (sc =? scancode SDL_SCANCODE_G)
             && nz (Z.land kmod KMOD_CTRL) && nz (Z.land kmod KMOD_ALT)
          then window_set_mouse_grab_sw false h w
          else if repeat then (h, w)
          else
            let linux_key := vinput_sdl_scancode_to_linux_key sc in
            if 0 <=? linux_key
            then (push VINPUT_KEYBOARD_ID (VINPUT_CMD_KEYBOARD_KEY (u32 linux_key) 1) h, w) else (h, w))
  | SDL_KEYUP sc =>
    let linux_key := vinput_sdl_scancode_to_linux_key sc in
    Some (if 0 <=? linux_key
          then (push VINPUT_KEYBOARD_ID (VINPUT_CMD_KEYBOARD_KEY (u32 linux_key) 0) h, w) else (h, w))
  | SDL_MOUSEBUTTONDOWN button =>
    let '(h, w) := window_set_mouse_grab_sw true h w in
    let linux_key := vinput_sdl_button_to_linux_key button in
    Some (if 0 <=? linux_key
          then (push VINPUT_MOUSE_ID (VINPUT_CMD_MOUSE_BUTTON (u32 linux_key) true) h, w) else (h, w))
  | SDL_MOUSEBUTTONUP button =>
    let linux_key := vinput_sdl_button_to_linux_key button in
    Some (if 0 <=? linux_key
          then (push VINPUT_MOUSE_ID (VINPUT_CMD_MOUSE_BUTTON (u32 linux_key) false) h, w) else (h, w))
  | SDL_MOUSEMOTION xrel yrel =>
    Some (if negb (window_is_mouse_grabbed_sw h) || ((xrel =? 0) && (yrel =? 0)) then (h, w)
          else (push VINPUT_MOUSE_ID (VINPUT_CMD_MOUSE_MOTION xrel yrel) h, w))
  | SDL_MOUSEWHEEL x y flipped =>
    let dx := if flipped then s32 (- x) else x in
    let dy := if flipped then s32 (- y) else y in
    Some (push VINPUT_MOUSE_ID (VINPUT_CMD_MOUSE_WHEEL dx dy) h, w)
  | SDL_OTHER => Some (h, w)
  end.

(** The [do ... while]: at most [VINPUT_SDL_EVENT_BURST_LIMIT] events. *)
(* [virtio-input-event.c:289-397] vinput_handle_events *)
Fixpoint burst (n : nat) (e : sdl_event) (h : vinput_host) (w : W) : bool * vinput_host * W :=
  match n with
  | O => (false, h, w)
  | S n =>
    match handle_event e h w with
    | None => (true, h, w)
    | Some (h, w) =>
      match n with
      | O => (false, h, w)
      | S _ => match sdl_poll_event w with
               | (Some e, w) => burst n e h w
               | (None, w) => (false, h, w)
               end
      end
    end
  end.
Definition vinput_handle_events (h : vinput_host) (w : W) : bool * vinput_host * W :=
  match sdl_wait_event w with
  | (None, w) => (false, h, w)
  | (Some e, w) => burst (Z.to_nat VINPUT_SDL_EVENT_BURST_LIMIT) e h w
  end.

(** A round of the window loop in the build with virtio-input and no display: a
    pause when headless; [None] when the loop is over. *)
(* [window-sw.c:460-511] window_main_loop_sw *)
Definition window_main_loop_step (h : vinput_host) (w : W) : option (vinput_host * W) :=
  if window_is_closed_sw h then None
  else if headless_mode h then Some (h, w)
  else
    let '(quit, h, w) := vinput_handle_events h w in
    Some (if quit then window_shutdown_sw h else h, w).
End Events.

(** ** The key bitmap *)

(* [virtio-input.c:120-123] vinput_bitmap_set_bit *)
Definition vinput_bitmap_set_bit (map : list Z) (bit : Z) : list Z :=
  arr_set map (bit / 8) (Z.lor (arr_get 0 map (bit / 8)) (u8 (Z.shiftl 1 (bit mod 8)))).

(* [virtio-input-event.c:399-414] virtio_input_fill_ev_key_bitmap *)
Definition virtio_input_fill_ev_key_bitmap (bitmap : list Z) (bitmap_size : Z) : Z * list Z :=
  let '(max_byte, bitmap) :=
    foldl (fun '(max_byte, bitmap) e =>
      let code := key_linux e in
      let byte_idx := code / 8 in
      if bitmap_size <=? byte_idx then (max_byte, bitmap)
      else (if max_byte <? byte_idx then byte_idx else max_byte, vinput_bitmap_set_bit bitmap code))
      (0, bitmap) vinput_key_map in
  (max_byte + 1, bitmap).
