(* ===== verification/Ring.v ===== *)
(** * Index arithmetic of single-producer single-consumer rings

    virtio-input-event.c and vgpu-display.c keep their commands in an array whose
    size [N] is a power of two, with a [head] index the producer advances and a
    [tail] index the consumer advances; the ring is empty when they are equal and
    full when the successor of [head] is [tail]. The lemmas here are those two
    queues' common part: they are about the array, the two indices and the
    sequence of entries between them. *)

From stdpp Require Import base list.
From Stdlib Require Import ZArith Lia Bool.
From S2P Require Import Prelude.
Open Scope Z_scope.

Section Ring.
Context {A : Type} (z : A) (N : Z).
Hypothesis N_pos : 1 < N.
Implicit Types (es : list A) (h t i : Z).

Definition in_range i : Prop := 0 <= i < N.
Definition succ_idx i : Z := (i + 1) mod N.
Definition count h t : Z := (h - t) mod N.

(** [n] entries from index [i] on, wrapping around. *)
Definition slice es i (n : Z) : list A := (fun k => arr_get z es ((i + k) mod N)) <$> seqZ 0 n.

(** The entries of the ring, oldest first. *)
Definition ring_contents es h t : list A := slice es t (count h t).

Lemma succ_in i : in_range (succ_idx i).
Proof using N_pos. apply Z.mod_pos_bound. lia. Qed.

Lemma count_range h t : 0 <= count h t < N.
Proof using N_pos. apply Z.mod_pos_bound. lia. Qed.

(** A difference of indices reduced modulo the size. *)
Lemma count_cases h t : in_range h -> in_range t ->
  count h t = if t <=? h then h - t else h - t + N.
Proof using N_pos.
  intros H1 H2. unfold count, in_range in *. destruct (Z.leb_spec t h).
  - apply Z.mod_small. lia.
  - rewrite <- (Z.mod_add _ 1) by lia. rewrite Z.mul_1_l. apply Z.mod_small. lia.
Qed.

Lemma succ_cases i : in_range i -> succ_idx i = if i + 1 <? N then i + 1 else 0.
Proof using N_pos.
  intros H. unfold succ_idx, in_range in *. destruct (Z.ltb_spec (i + 1) N).
  - apply Z.mod_small. lia.
  - replace (i + 1) with N by lia. apply Z.mod_same. lia.
Qed.

Ltac cases := repeat match goal with
  | H : context [?a <=? ?b] |- _ => destruct (Z.leb_spec a b)
  | H : context [?a <? ?b] |- _ => destruct (Z.ltb_spec a b)
  | |- context [?a <=? ?b] => destruct (Z.leb_spec a b)
  | |- context [?a <? ?b] => destruct (Z.ltb_spec a b)
  end.

Lemma empty_iff h t : in_range h -> in_range t -> (t = h <-> count h t = 0).
Proof using N_pos. intros H1 H2. rewrite count_cases by done. unfold in_range in *. cases; lia. Qed.

Lemma full_iff h t : in_range h -> in_range t -> (succ_idx h = t <-> count h t = N - 1).
Proof using N_pos.
  intros H1 H2. rewrite count_cases, succ_cases by done. unfold in_range in *. cases; lia.
Qed.

Lemma count_push h t : in_range h -> in_range t -> count h t < N - 1 ->
  count (succ_idx h) t = count h t + 1.
Proof using N_pos.
  intros H1 H2. rewrite !count_cases, succ_cases by (done || apply succ_in). unfold in_range in *. cases; lia.
Qed.

Lemma count_pop h t : in_range h -> in_range t -> 0 < count h t ->
  count h (succ_idx t) = count h t - 1.
Proof using N_pos.
  intros H1 H2. rewrite !count_cases, succ_cases by (done || apply succ_in). unfold in_range in *. cases; lia.
Qed.

(** The slot at [head] is the one after the last entry, and not an entry. *)
Lemma head_slot h t : in_range h -> (t + count h t) mod N = h.
Proof using N_pos.
  intros H1. unfold count. rewrite Z.add_mod_idemp_r by lia.
  replace (t + (h - t)) with h by lia. by apply Z.mod_small.
Qed.

Lemma not_head_slot h t k : in_range h -> in_range t -> 0 <= k < count h t -> (t + k) mod N <> h.
Proof using N_pos.
  intros H1 H2 Hk E. rewrite count_cases in Hk by done. unfold in_range in *.
  revert Hk. destruct (Z.leb_spec t h); intros Hk.
  - rewrite Z.mod_small in E by lia. lia.
  - destruct (Z.lt_ge_cases (t + k) N); [rewrite Z.mod_small in E by lia; lia|].
    rewrite <- (Z.mod_add _ (-1)) in E by lia. rewrite Z.mod_small in E by lia. lia.
Qed.

Lemma slice_snoc es i n : 0 <= n ->
  slice es i (n + 1) = slice es i n ++ [arr_get z es ((i + n) mod N)].
Proof using.
  intros Hn. unfold slice. rewrite (seqZ_app 0 n 1) by lia. rewrite fmap_app, Z.add_0_l. reflexivity.
Qed.

Lemma slice_cons es i n : 0 < n -> in_range i ->
  slice es i n = arr_get z es i :: slice es (succ_idx i) (n - 1).
Proof using N_pos.
  intros Hn Hi. unfold slice. rewrite seqZ_cons by lia. cbn [fmap list_fmap].
  rewrite Z.add_0_r, (Z.mod_small i) by done. f_equal.
  change (Z.succ 0) with (1 + 0). rewrite <- (fmap_add_seqZ 1 0 (Z.pred n)), <- list_fmap_compose.
  replace (Z.pred n) with (n - 1) by lia.
  apply list_fmap_ext. intros idx k Hk. cbn. f_equal. unfold succ_idx.
  rewrite Z.add_mod_idemp_l by lia. f_equal. lia.
Qed.

(** Writing the slot at [head] leaves the contents alone. *)
Lemma contents_store es h t c : in_range h -> in_range t ->
  ring_contents (arr_set es h c) h t = ring_contents es h t.
Proof using N_pos.
  intros H1 H2. unfold ring_contents, slice. apply list_fmap_ext. intros idx k Hk.
  apply list_elem_of_lookup_2, elem_of_seqZ in Hk. pose proof (count_range h t).
  apply arr_get_set_ne; [apply H1|apply Z.mod_pos_bound; lia|].
  intros E. symmetry in E. apply (not_head_slot h t k) in E; done || lia.
Qed.

Lemma contents_push es h t : in_range h -> in_range t -> count h t < N - 1 ->
  ring_contents es (succ_idx h) t = ring_contents es h t ++ [arr_get z es h].
Proof using N_pos.
  intros H1 H2 Hl. unfold ring_contents. rewrite count_push by done.
  rewrite slice_snoc by apply count_range. by rewrite head_slot.
Qed.

Lemma contents_pop es h t : in_range h -> in_range t -> 0 < count h t ->
  ring_contents es h t = arr_get z es t :: ring_contents es h (succ_idx t).
Proof using N_pos.
  intros H1 H2 Hl. unfold ring_contents. rewrite slice_cons by done. by rewrite count_pop.
Qed.

Lemma length_contents es h t : Z.of_nat (length (ring_contents es h t)) = count h t.
Proof using N_pos.
  unfold ring_contents, slice. rewrite length_fmap, length_seqZ. pose proof (count_range h t). lia.
Qed.
End Ring.

(** The successor as the code computes it, with a mask. *)
Lemma land_mask_succ (bits i : Z) : 0 <= bits -> 0 <= i < 2 ^ 31 ->
  Z.land (u32 (i + 1)) (Z.ones bits) = succ_idx (2 ^ bits) i.
Proof.
  intros Hb Hi. rewrite Z.land_ones by lia. rewrite u32_id by (unfold is_u32; lia). reflexivity.
Qed.
