(* ===== verification/InputConc.v ===== *)
(** * The input queues under concurrency

    The SDL thread (producer) and the emulator thread (consumer) share the command
    queues and the wake gate of virtio-input-event.c. Each thread is a program
    counter over the atomic accesses of the source, in program order, and the
    system interleaves them. The source orders the gate with sequentially
    consistent operations and the indices with acquire and release; the model is
    interleaving, that is sequential consistency for all of them. Ghost histories
    record the commands published and taken, per device.

    Shown: the ring is a queue (what was taken is a prefix of what was published,
    the rest is in the ring, at most 1023 entries), whatever the interleaving; and
    no wake-up is lost: between the functions of the two threads, a non-empty queue
    implies the gate is set, so the next peripheral tick drains it. *)

From stdpp Require Import base list relations.
From Stdlib Require Import ZArith Lia Bool.
From S2P Require Import Prelude Ring InputCodes InputEvent.
Open Scope Z_scope.

(** ** The threads *)

(** Producer, inside [vinput_push_cmd]. *)
(* [virtio-input-event.c:144-176] vinput_push_cmd *)
Inductive producer :=
  | P_idle
  | P_load_head (d : Z) (c : vinput_cmd)
  | P_load_tail (d : Z) (c : vinput_cmd) (head : Z)
  | P_store_entry (d : Z) (c : vinput_cmd) (head : Z)
  | P_store_head (d : Z) (c : vinput_cmd) (head : Z)
  | P_exchange
  | P_wake.

(** What the consumer is doing: draining both queues
    ([virtio_input_drain_host_events]) or resetting one device. *)
Inductive consumer_task := Drain | Reset.

(** Consumer, inside [vinput_pop_cmd], [vinput_rearm_cmd_wake],
    [vinput_all_queues_empty] and [vinput_reset_host_events]. *)
(* [virtio-input-event.c:219-287] vinput_pop_cmd, vinput_rearm_cmd_wake, vinput_reset_host_events *)
Inductive consumer :=
  | C_idle
  | C_load_tail (k : consumer_task) (d : Z)
  | C_load_head (k : consumer_task) (d tail : Z)
  | C_load_entry (k : consumer_task) (d tail : Z)
  | C_store_tail (k : consumer_task) (d tail : Z) (c : vinput_cmd)
  | C_clear (k : consumer_task)
  | C_check_tail (k : consumer_task) (i : Z)
  | C_check_head (k : consumer_task) (i tail : Z)
  | C_exchange
  | C_wake.

Record sys := mk_sys {
  prod : producer; cons : consumer; shared : vinput_host;
  sent : Z -> list vinput_cmd; got : Z -> list vinput_cmd }.

Definition hist_app (f : Z -> list vinput_cmd) (d : Z) (c : vinput_cmd) : Z -> list vinput_cmd :=
  fun i => if i =? d then f i ++ [c] else f i.

(** One atomic access of the producer. *)
(* [virtio-input-event.c:144-176] vinput_push_cmd *)
Definition producer_step (s : sys) : sys :=
  let h := shared s in
  match prod s with
  | P_idle => s
  | P_load_head d c => mk_sys (P_load_tail d c (q_head (cmdq_at h d))) (cons s) h (sent s) (got s)
  | P_load_tail d c head =>
    mk_sys (if ring_next head =? q_tail (cmdq_at h d) then P_idle else P_store_entry d c head)
      (cons s) h (sent s) (got s)
  | P_store_entry d c head =>
    mk_sys (P_store_head d c head) (cons s)
      (upd_cmdq d (fun q => q <| entries := arr_set (entries q) head c |>) h) (sent s) (got s)
  | P_store_head d c head =>
    mk_sys P_exchange (cons s) (upd_cmdq d (fun q => q <| q_head := ring_next head |>) h)
      (hist_app (sent s) d c) (got s)
  | P_exchange =>
    mk_sys (if vinput_cmd_wake_pending h then P_idle else P_wake) (cons s)
      (h <| vinput_cmd_wake_pending := true |>) (sent s) (got s)
  | P_wake => mk_sys P_idle (cons s) (window_wake_backend_sw h) (sent s) (got s)
  end.

(** After a queue was found empty by a [pop]. *)
(* [virtio-input.c:472-518] virtio_input_drain_host_events *)
Definition after_empty (k : consumer_task) (d : Z) : consumer :=
  match k with
  | Drain => if d + 1 <? VINPUT_DEV_CNT then C_load_tail Drain (d + 1) else C_clear Drain
  | Reset => C_clear Reset
  end.

(** One atomic access of the consumer. *)
(* [virtio-input-event.c:178-287] vinput_pop_cmd, vinput_rearm_cmd_wake, vinput_reset_host_events *)
Definition consumer_step (s : sys) : sys :=
  let h := shared s in
  let goto c := mk_sys (prod s) c h (sent s) (got s) in
  match cons s with
  | C_idle => s
  | C_load_tail k d => goto (C_load_head k d (q_tail (cmdq_at h d)))
  | C_load_head k d tail =>
    goto (if tail =? q_head (cmdq_at h d) then after_empty k d else C_load_entry k d tail)
  | C_load_entry k d tail => goto (C_store_tail k d tail (arr_get zero_cmd (entries (cmdq_at h d)) tail))
  | C_store_tail k d tail c =>
    mk_sys (prod s) (C_load_tail k d) (upd_cmdq d (fun q => q <| q_tail := ring_next tail |>) h)
      (sent s) (hist_app (got s) d c)
  | C_clear k =>
    mk_sys (prod s) (C_check_tail k 0) (h <| vinput_cmd_wake_pending := false |>) (sent s) (got s)
  | C_check_tail k i =>
    goto (if i <? VINPUT_DEV_CNT then C_check_head k i (q_tail (cmdq_at h i)) else C_idle)
  | C_check_head k i tail =>
    goto (if tail =? q_head (cmdq_at h i) then C_check_tail k (i + 1)
          else match k with Drain => C_load_tail Drain 0 | Reset => C_exchange end)
  | C_exchange =>
    mk_sys (prod s) (if vinput_cmd_wake_pending h then C_idle else C_wake)
      (h <| vinput_cmd_wake_pending := true |>) (sent s) (got s)
  | C_wake => mk_sys (prod s) C_idle (window_wake_backend_sw h) (sent s) (got s)
  end.

(** The interleavings: the producer may be asked to push at any time it is idle;
    the emulator thread ticks (draining if the gate is set), handles a guest reset
    of a device, or takes a byte out of the wake pipe. *)
Inductive sys_step (s : sys) : sys -> Prop :=
  | step_push d c : prod s = P_idle -> 0 <= d < VINPUT_DEV_CNT ->
      sys_step s (mk_sys (P_load_head d c) (cons s) (shared s) (sent s) (got s))
  | step_tick : cons s = C_idle -> vinput_may_have_pending_cmds (shared s) = true ->
      sys_step s (mk_sys (prod s) (C_load_tail Drain VINPUT_KEYBOARD_ID) (shared s) (sent s) (got s))
  | step_reset d : cons s = C_idle -> 0 <= d < VINPUT_DEV_CNT ->
      sys_step s (mk_sys (prod s) (C_load_tail Reset d) (shared s) (sent s) (got s))
  | step_poll : cons s = C_idle -> 0 < wake_bytes (shared s) ->
      sys_step s (mk_sys (prod s) C_idle ((shared s) <| wake_bytes := wake_bytes (shared s) - 1 |>)
                    (sent s) (got s))
  | step_producer : sys_step s (producer_step s)
  | step_consumer : sys_step s (consumer_step s).

(** Both queues empty, nothing sent. *)
Definition sys_init (h : vinput_host) : Prop :=
  length (vinput_cmd_queues h) = 2%nat /\ Forall (fun q => q = zero_cmdq) (vinput_cmd_queues h).
Definition start (h : vinput_host) : sys := mk_sys P_idle C_idle h (fun _ => []) (fun _ => []).
Definition reachable (s : sys) : Prop := exists h, sys_init h /\ rtc sys_step (start h) s.

(** ** The ring *)

Definition ring_len (q : vinput_cmd_queue) : Z := count VINPUT_CMD_QUEUE_SIZE (q_head q) (q_tail q).

(** The commands in the ring, oldest first. *)
Definition contents (q : vinput_cmd_queue) : list vinput_cmd :=
  ring_contents zero_cmd VINPUT_CMD_QUEUE_SIZE (entries q) (q_head q) (q_tail q).

Definition in_ring (i : Z) : Prop := 0 <= i < VINPUT_CMD_QUEUE_SIZE.
Definition queue_ok (q : vinput_cmd_queue) : Prop :=
  length (entries q) = Z.to_nat VINPUT_CMD_QUEUE_SIZE /\ in_ring (q_head q) /\ in_ring (q_tail q).

Lemma queue_size_pos : 1 < VINPUT_CMD_QUEUE_SIZE.
Proof. reflexivity. Qed.

Lemma ring_next_succ i : in_ring i -> ring_next i = succ_idx VINPUT_CMD_QUEUE_SIZE i.
Proof.
  intros Hi. apply (land_mask_succ 10); [lia|]. unfold in_ring, VINPUT_CMD_QUEUE_SIZE in Hi. lia.
Qed.

Lemma ring_next_in i : in_ring i -> in_ring (ring_next i).
Proof. intros H. rewrite ring_next_succ by done. apply succ_in. reflexivity. Qed.

Lemma ring_len_range q : 0 <= ring_len q < VINPUT_CMD_QUEUE_SIZE.
Proof. apply count_range. reflexivity. Qed.

(** Emptiness, fullness, push and pop, from the lemmas on rings. *)
Lemma ring_empty_iff q : queue_ok q -> (q_tail q = q_head q <-> ring_len q = 0).
Proof. intros (_ & H1 & H2). by apply (empty_iff _ queue_size_pos). Qed.

Lemma ring_full_iff q : queue_ok q ->
  (ring_next (q_head q) = q_tail q <-> ring_len q = VINPUT_CMD_QUEUE_SIZE - 1).
Proof. intros (_ & H1 & H2). rewrite ring_next_succ by done. by apply (full_iff _ queue_size_pos). Qed.

Lemma ring_len_push q : queue_ok q -> ring_len q < VINPUT_CMD_QUEUE_SIZE - 1 ->
  ring_len (q <| q_head := ring_next (q_head q) |>) = ring_len q + 1.
Proof. intros (_ & H1 & H2) Hl. rewrite ring_next_succ by done. by apply (count_push _ queue_size_pos). Qed.

Lemma ring_len_pop q : queue_ok q -> 0 < ring_len q ->
  ring_len (q <| q_tail := ring_next (q_tail q) |>) = ring_len q - 1.
Proof. intros (_ & H1 & H2) Hl. rewrite ring_next_succ by done. by apply (count_pop _ queue_size_pos). Qed.

(** Writing the slot at [head] leaves the contents alone. *)
Lemma contents_store_entry q c : queue_ok q ->
  contents (q <| entries := arr_set (entries q) (q_head q) c |>) = contents q.
Proof. intros (_ & H1 & H2). by apply (contents_store _ _ queue_size_pos). Qed.

Lemma cmdq_contents_push q c : queue_ok q -> ring_len q < VINPUT_CMD_QUEUE_SIZE - 1 ->
  arr_get zero_cmd (entries q) (q_head q) = c ->
  contents (q <| q_head := ring_next (q_head q) |>) = contents q ++ [c].
Proof.
  intros (_ & H1 & H2) Hl <-. rewrite ring_next_succ by done. by apply (contents_push _ _ queue_size_pos).
Qed.

Lemma cmdq_contents_pop q : queue_ok q -> 0 < ring_len q ->
  contents q = arr_get zero_cmd (entries q) (q_tail q) :: contents (q <| q_tail := ring_next (q_tail q) |>).
Proof.
  intros (_ & H1 & H2) Hl. rewrite ring_next_succ by done. by apply (contents_pop _ _ queue_size_pos).
Qed.

Lemma cmdq_length_contents q : Z.of_nat (length (contents q)) = ring_len q.
Proof. apply (length_contents _ _ queue_size_pos). Qed.

(** The queue of one device does not see updates of the other. *)
Lemma cmdq_upd_eq h d f : 0 <= d < Z.of_nat (length (vinput_cmd_queues h)) ->
  cmdq_at (upd_cmdq d f h) d = f (cmdq_at h d).
Proof. intros Hd. unfold cmdq_at, upd_cmdq. cbn [vinput_cmd_queues setter set_cmd_queues]. by apply arr_get_set_eq. Qed.

Lemma cmdq_upd_ne h d d' f : 0 <= d -> 0 <= d' -> d <> d' -> cmdq_at (upd_cmdq d f h) d' = cmdq_at h d'.
Proof. intros. unfold cmdq_at, upd_cmdq. cbn [vinput_cmd_queues setter set_cmd_queues]. by apply arr_get_set_ne. Qed.

Lemma length_upd_cmdq h d f : length (vinput_cmd_queues (upd_cmdq d f h)) = length (vinput_cmd_queues h).
Proof. unfold upd_cmdq. cbn [vinput_cmd_queues setter set_cmd_queues]. apply length_arr_set. Qed.

Lemma wake_queues h : vinput_cmd_queues (window_wake_backend_sw h) = vinput_cmd_queues h.
Proof. unfold window_wake_backend_sw. by repeat case_match. Qed.

Lemma cmdq_wake h d : cmdq_at (window_wake_backend_sw h) d = cmdq_at h d.
Proof. unfold cmdq_at. by rewrite wake_queues. Qed.

Lemma pending_wake h : vinput_cmd_wake_pending (window_wake_backend_sw h) = vinput_cmd_wake_pending h.
Proof. unfold window_wake_backend_sw. by repeat case_match. Qed.

(** ** The invariant *)

(** What the program counter of the producer knows about queue [q] of device [d]. *)
Definition prod_ok (p : producer) (d : Z) (q : vinput_cmd_queue) : Prop :=
  match p with
  | P_load_tail d' _ head => d' = d -> head = q_head q
  | P_store_entry d' _ head => d' = d -> head = q_head q /\ ring_len q < VINPUT_CMD_QUEUE_SIZE - 1
  | P_store_head d' c head => d' = d ->
      head = q_head q /\ ring_len q < VINPUT_CMD_QUEUE_SIZE - 1 /\ arr_get zero_cmd (entries q) head = c
  | _ => True
  end.

Definition cons_ok (c : consumer) (d : Z) (q : vinput_cmd_queue) : Prop :=
  match c with
  | C_load_head _ d' tail | C_check_head _ d' tail => d' = d -> tail = q_tail q
  | C_load_entry _ d' tail => d' = d -> tail = q_tail q /\ 0 < ring_len q
  | C_store_tail _ d' tail e => d' = d ->
      tail = q_tail q /\ 0 < ring_len q /\ arr_get zero_cmd (entries q) tail = e
  | _ => True
  end.

(** The devices the threads work on exist. *)
Definition prod_dev (p : producer) : Prop :=
  match p with
  | P_load_head d _ | P_load_tail d _ _ | P_store_entry d _ _ | P_store_head d _ _ => 0 <= d < VINPUT_DEV_CNT
  | _ => True
  end.
Definition cons_dev (c : consumer) : Prop :=
  match c with
  | C_load_tail _ d | C_load_head _ d _ | C_load_entry _ d _ | C_store_tail _ d _ _ | C_check_head _ d _ =>
      0 <= d < VINPUT_DEV_CNT
  | C_check_tail _ d => 0 <= d <= VINPUT_DEV_CNT
  | _ => True
  end.

(** The consumer will still look at queue [d] before it goes idle. *)
Definition will_look (c : consumer) (d : Z) : Prop :=
  match c with
  | C_idle | C_wake => False
  | C_check_tail _ i | C_check_head _ i _ => i <= d
  | _ => True
  end.

Record dev_inv (s : sys) (d : Z) : Prop := {
  di_ok : queue_ok (cmdq_at (shared s) d);
  di_fifo : sent s d = got s d ++ contents (cmdq_at (shared s) d);
  di_prod : prod_ok (prod s) d (cmdq_at (shared s) d);
  di_cons : cons_ok (cons s) d (cmdq_at (shared s) d);
  di_gate : 0 < ring_len (cmdq_at (shared s) d) ->
    vinput_cmd_wake_pending (shared s) = true \/ prod s = P_exchange \/ will_look (cons s) d }.

Record sys_inv (s : sys) : Prop := {
  si_len : length (vinput_cmd_queues (shared s)) = 2%nat;
  si_prod : prod_dev (prod s);
  si_cons : cons_dev (cons s);
  si_dev : forall d, 0 <= d < VINPUT_DEV_CNT -> dev_inv s d }.

(** A step that changes neither the queues nor the histories. *)
Lemma inv_local s p c h : sys_inv s -> (forall d, cmdq_at h d = cmdq_at (shared s) d) ->
  length (vinput_cmd_queues h) = 2%nat -> prod_dev p -> cons_dev c ->
  (forall d, 0 <= d < VINPUT_DEV_CNT ->
     prod_ok p d (cmdq_at (shared s) d) /\ cons_ok c d (cmdq_at (shared s) d) /\
     (0 < ring_len (cmdq_at (shared s) d) ->
        vinput_cmd_wake_pending h = true \/ p = P_exchange \/ will_look c d)) ->
  sys_inv (mk_sys p c h (sent s) (got s)).
Proof.
  intros [L Pd Cd Dv] Hq Hl Hp Hc Hd. constructor; cbn; try done.
  intros d Hdv. destruct (Hd d Hdv) as (A & B & C). destruct (Dv d Hdv).
  constructor; cbn; rewrite ?Hq; done.
Qed.

(** A step that changes the queue of device [d0]. *)
Lemma inv_queue s d0 f p c snt gt : sys_inv s -> 0 <= d0 < VINPUT_DEV_CNT -> prod_dev p -> cons_dev c ->
  (forall d, 0 <= d < VINPUT_DEV_CNT -> d <> d0 ->
     snt d = sent s d /\ gt d = got s d /\
     prod_ok p d (cmdq_at (shared s) d) /\ cons_ok c d (cmdq_at (shared s) d)) ->
  (let q := f (cmdq_at (shared s) d0) in
   queue_ok q /\ snt d0 = gt d0 ++ contents q /\ prod_ok p d0 q /\ cons_ok c d0 q) ->
  (forall d, 0 <= d < VINPUT_DEV_CNT ->
     0 < ring_len (if d =? d0 then f (cmdq_at (shared s) d0) else cmdq_at (shared s) d) ->
     vinput_cmd_wake_pending (shared s) = true \/ p = P_exchange \/ will_look c d) ->
  sys_inv (mk_sys p c (upd_cmdq d0 f (shared s)) snt gt).
Proof.
  intros [L Pd Cd Dv] Hd0 Hp Hc Ho Hs G. constructor; cbn [prod cons shared sent got]; [by rewrite length_upd_cmdq|done|done|].
  intros d Hd. specialize (G d Hd). destruct (Dv d Hd).
  assert (E : cmdq_at (upd_cmdq d0 f (shared s)) d
              = if d =? d0 then f (cmdq_at (shared s) d0) else cmdq_at (shared s) d).
  { destruct (Z.eqb_spec d d0) as [Hd1|Hne]; [rewrite Hd1|by rewrite cmdq_upd_ne by lia].
    apply cmdq_upd_eq. rewrite L. unfold VINPUT_DEV_CNT in Hd0. lia. }
  destruct (Z.eqb_spec d d0) as [Hd1|Hne].
  - destruct Hs as (? & ? & ? & ?). constructor; cbn [prod cons shared sent got]; rewrite ?E; try done; by rewrite Hd1.
  - destruct (Ho d Hd Hne) as (E1 & E2 & ? & ?).
    constructor; cbn [prod cons shared sent got]; rewrite ?E, ?E1, ?E2; done.
Qed.

Lemma hist_app_eq f d c : hist_app f d c d = f d ++ [c].
Proof. unfold hist_app. by rewrite Z.eqb_refl. Qed.
Lemma hist_app_ne f d c d' : d' <> d -> hist_app f d c d' = f d'.
Proof. unfold hist_app. by destruct (Z.eqb_spec d' d). Qed.

(** The gate is kept by a step of a thread that is not past its own duty. *)
Ltac gate G := intros Hn; destruct (G Hn) as [?|[?|?]]; [auto|congruence|auto].

Lemma producer_step_inv s : sys_inv s -> sys_inv (producer_step s).
Proof.
  intros I. pose proof I as [L Pd Cd Dv]. unfold producer_step. destruct (prod s) eqn:Ep.
  - done.
  - apply inv_local; try done. intros d' Hd'. destruct (Dv d' Hd') as [? ? ? ? G]. cbn.
    split_and!; [congruence|done|]. gate G.
  - apply inv_local; try done; [by case_match|]. intros d' Hd'. destruct (Dv d' Hd') as [Q ? P ? G].
    rewrite Ep in P. cbn in P. split_and!; [|done|gate G].
    destruct (Z.eqb_spec (ring_next head) (q_tail (cmdq_at (shared s) d))) as [|Ne]; [done|].
    cbn. intros <-. specialize (P eq_refl). subst head. split; [done|].
    pose proof (ring_len_range (cmdq_at (shared s) d)). pose proof (proj2 (ring_full_iff _ Q)). lia.
  - destruct (Dv d Pd) as [Q F P C G]. rewrite Ep in P. destruct (P eq_refl) as [-> Hl].
    set (q := cmdq_at (shared s) d) in *. apply inv_queue; try done.
    + intros d' Hd' Hne. destruct (Dv d' Hd'). by split_and!.
    + fold q. cbv zeta. split_and!.
      * split; [|apply Q]. cbn. rewrite length_arr_set. apply Q.
      * by rewrite contents_store_entry.
      * intros _. split_and!; [done|done|]. apply arr_get_set_eq.
        destruct Q as (-> & H & _). unfold in_ring in H. lia.
      * clear -C Q. destruct (cons s) as [| | |k d' tail|k d' tail e| | | | |]; cbn in *; try done.
        intros Hd. destruct (C Hd) as (-> & Hp & <-). split_and!; [done|done|].
        pose proof (proj1 (ring_empty_iff q Q)). destruct Q as (_ & Q1 & Q2).
        apply arr_get_set_ne; [apply Q1|apply Q2|]. lia.
    + intros d' Hd'. destruct (Dv d' Hd') as [_ _ _ _ G'].
      destruct (Z.eqb_spec d' d) as [E|]; [rewrite E in *|]; gate G'.
  - destruct (Dv d Pd) as [Q F P C G]. rewrite Ep in P. destruct (P eq_refl) as (-> & Hl & Hc).
    set (q := cmdq_at (shared s) d) in *. apply inv_queue; try done.
    + intros d' Hd' Hne. destruct (Dv d' Hd'). rewrite hist_app_ne by done. done.
    + fold q. cbv zeta. split_and!.
      * destruct Q as (Q0 & Q1 & Q2). split_and!; [done|by apply ring_next_in|done].
      * rewrite hist_app_eq, F, <- app_assoc. by rewrite (cmdq_contents_push q c).
      * done.
      * clear -C Q Hl. pose proof (ring_len_push q Q Hl).
        destruct (cons s) as [| | |k d' tail|k d' tail e| | | | |]; cbn in *; try done;
          intros Hd; destruct (C Hd) as (? & Hp); [split; [done|lia]|].
        destruct Hp. split_and!; [done|lia|done].
    + auto.
  - apply inv_local; try done; [by case_match|]. intros d' Hd'. destruct (Dv d' Hd'). 
    split_and!; [by case_match|done|]. intros _. by left.
  - apply inv_local; try done; [intros; apply cmdq_wake|by rewrite wake_queues|].
    intros d' Hd'. destruct (Dv d' Hd') as [? ? ? ? G]. split_and!; try done.
    rewrite pending_wake. gate G.
Qed.

Lemma consumer_step_inv s : sys_inv s -> sys_inv (consumer_step s).
Proof.
  intros I. pose proof I as [L Pd Cd Dv]. unfold consumer_step. destruct (cons s) eqn:Ec.
  - done.
  - apply inv_local; try done. intros d' Hd'. destruct (Dv d' Hd') as [? ? ? ? G].
    split_and!; [done|cbn; congruence|]. rewrite Ec in G. apply G.
  - destruct (Dv d Cd) as [Q _ _ C _]. rewrite Ec in C. specialize (C eq_refl). subst tail.
    destruct (Z.eqb_spec (q_tail (cmdq_at (shared s) d)) (q_head (cmdq_at (shared s) d))) as [E|Ne].
    + apply inv_local; try done.
      { cbn in Cd. destruct k; [|done]. cbn [after_empty].
        destruct (Z.ltb_spec (d + 1) VINPUT_DEV_CNT); [cbn; lia|done]. }
      intros d' Hd'. destruct (Dv d' Hd') as [? ? ? ? G]. split_and!; [done| |];
        unfold after_empty; repeat case_match; cbn; auto.
    + apply inv_local; try done. intros d' Hd'. destruct (Dv d' Hd') as [? ? ? ? G].
      split_and!; [done| |cbn; auto]. cbn. intros <-. split; [done|].
      pose proof (ring_len_range (cmdq_at (shared s) d)). pose proof (proj2 (ring_empty_iff _ Q)). lia.
  - destruct (Dv d Cd) as [Q _ _ C _]. rewrite Ec in C. destruct (C eq_refl) as [-> Hl].
    apply inv_local; try done. intros d' Hd'. destruct (Dv d' Hd'). split_and!; [done| |cbn; auto].
    cbn. intros <-. done.
  - destruct (Dv d Cd) as [Q F P C _]. rewrite Ec in C. destruct (C eq_refl) as (-> & Hl & He).
    set (q := cmdq_at (shared s) d) in *. apply inv_queue; try done.
    + intros d' Hd' Hne. destruct (Dv d' Hd'). by rewrite hist_app_ne.
    + fold q. cbv zeta. split_and!.
      * destruct Q as (Q0 & Q1 & Q2). split_and!; [done|done|by apply ring_next_in].
      * rewrite hist_app_eq, F, <- app_assoc. rewrite (cmdq_contents_pop q Q Hl), He. done.
      * clear -P Q Hl. pose proof (ring_len_pop q Q Hl).
        destruct (prod s); cbn in *; try done; intros Hd; destruct (P Hd) as (? & Hp).
        -- split; [done|lia].
        -- destruct Hp. split_and!; [done|lia|done].
      * done.
    + intros. right. right. done.
  - apply inv_local; try done.
    intros d' Hd'. destruct (Dv d' Hd'). split_and!; try done. intros _. right. right. cbn. lia.
  - cbn in Cd. apply inv_local; try done.
    { destruct (Z.ltb_spec i VINPUT_DEV_CNT); [cbn; lia|done]. }
    intros d' Hd'. destruct (Dv d' Hd') as [? ? ? ? G]. rewrite Ec in G. split_and!; [done| |].
    + case_match; cbn; [congruence|done].
    + destruct (Z.ltb_spec i VINPUT_DEV_CNT); [apply G|]. cbn in G. intros Hn.
      destruct (G Hn) as [?|[?|?]]; [auto|auto|lia].
  - destruct (Dv i Cd) as [Q _ _ C _]. rewrite Ec in C. specialize (C eq_refl). subst tail. cbn in Cd.
    destruct (Z.eqb_spec (q_tail (cmdq_at (shared s) i)) (q_head (cmdq_at (shared s) i))) as [E|Ne].
    + apply inv_local; try done; [cbn; lia|]. intros d' Hd'. destruct (Dv d' Hd') as [? ? ? ? G].
      split_and!; try done. intros Hn. rewrite Ec in G. cbn in G. destruct (G Hn) as [?|[?|?]]; auto.
      right. right. cbn. destruct (Z.eq_dec i d') as [<-|]; [|lia].
      apply (ring_empty_iff _ Q) in E. lia.
    + apply inv_local; try done; [case_match; cbn; unfold VINPUT_DEV_CNT; done || lia|].
      intros d' Hd'. destruct (Dv d' Hd'). split_and!; [done|by case_match|]. case_match; cbn; auto.
  - apply inv_local; try done; [by case_match|]. intros d' Hd'. destruct (Dv d' Hd').
    split_and!; [done|by case_match|]. intros _. by left.
  - apply inv_local; try done; [intros; apply cmdq_wake|by rewrite wake_queues|].
    intros d' Hd'. destruct (Dv d' Hd') as [? ? ? ? G]. split_and!; try done.
    rewrite pending_wake. rewrite Ec in G. apply G.
Qed.

Lemma sys_step_inv s s' : sys_inv s -> sys_step s s' -> sys_inv s'.
Proof.
  intros I [d c Hp Hd|Hc Hw|d Hc Hd|Hc Hw| |].
  - pose proof I as [L Pd Cd Dv]. apply inv_local; try done. intros d' Hd'.
    destruct (Dv d' Hd') as [? ? ? ? G]. split_and!; try done. gate G.
  - pose proof I as [L Pd Cd Dv]. apply inv_local; try done.
    intros d' Hd'. destruct (Dv d' Hd'). split_and!; try done. cbn. auto.
  - pose proof I as [L Pd Cd Dv]. apply inv_local; try done. intros d' Hd'. destruct (Dv d' Hd').
    split_and!; try done. cbn. auto.
  - pose proof I as [L Pd Cd Dv]. apply inv_local; try done. intros d' Hd'.
    destruct (Dv d' Hd') as [? ? ? ? G]. rewrite Hc in G. split_and!; try done.
  - by apply producer_step_inv.
  - by apply consumer_step_inv.
Qed.

Lemma start_inv h : sys_init h -> sys_inv (start h).
Proof.
  intros [L F]. constructor; try done. intros d Hd.
  assert (E : cmdq_at h d = zero_cmdq) by (apply (arr_get_Forall (fun q => q = zero_cmdq)); done).
  constructor; cbn; rewrite ?E; try done.
Qed.

Lemma reachable_inv s : reachable s -> sys_inv s.
Proof.
  intros (h & Hi & Hr). apply start_inv in Hi. revert Hi. induction Hr as [|s1 s2 s3 H12 _ IH]; [done|].
  intros I. apply IH. by eapply sys_step_inv.
Qed.

(** C15: The command rings are FIFO queues under every interleaving of the SDL
    thread and the emulator thread. At any reachable moment what the emulator has
    taken from a device's ring is a prefix of what the SDL thread has published to
    it, in the order of publication, and exactly the remainder is in the ring, at
    most 1023 commands: nothing is lost, duplicated, reordered or torn. *)
Theorem spsc_fifo s d : reachable s -> 0 <= d < VINPUT_DEV_CNT ->
  sent s d = got s d ++ contents (cmdq_at (shared s) d) /\
  Z.of_nat (length (contents (cmdq_at (shared s) d))) <= VINPUT_CMD_QUEUE_SIZE - 1.
Proof.
  intros Hr Hd. destruct (si_dev s (reachable_inv s Hr) d Hd) as [Q F _ _ _]. split; [done|].
  rewrite cmdq_length_contents. pose proof (ring_len_range (cmdq_at (shared s) d)). lia.
Qed.

(** C16: No wake-up is lost. At any reachable moment at which the emulator thread
    is outside the input code and the SDL thread is not between publishing a
    command and raising the gate, a command waiting in either ring implies that the
    gate is raised; so the next peripheral tick drains it, even across device
    resets that clear the gate. *)
Theorem no_lost_wakeup s d : reachable s -> cons s = C_idle -> prod s <> P_exchange ->
  0 <= d < VINPUT_DEV_CNT -> contents (cmdq_at (shared s) d) <> [] ->
  vinput_may_have_pending_cmds (shared s) = true.
Proof.
  intros Hr Hc Hp Hd Hn. destruct (si_dev s (reachable_inv s Hr) d Hd) as [_ _ _ _ G].
  rewrite Hc in G. destruct G as [?|[?|[]]]; try done.
  rewrite <- cmdq_length_contents. destruct (contents _); [done|cbn; lia].
Qed.
