(* ===== verification/InputQueue.v ===== *)
(** * The input queues, sequentially

    What the functions of virtio-input-event.c do when they run alone, in terms of
    the contents of the rings; that the step machine of [InputConc] runs these
    functions; and that the key codes advertised to the guest are those the event
    translation can produce. *)

From stdpp Require Import base list relations.
From Stdlib Require Import ZArith Lia Bool.
From S2P Require Import Prelude InputCodes InputEvent InputConc.
Open Scope Z_scope.

Implicit Types h : vinput_host.

(** Both rings are well formed. *)
Definition host_ok h : Prop :=
  length (vinput_cmd_queues h) = 2%nat /\ forall d, 0 <= d < VINPUT_DEV_CNT -> queue_ok (cmdq_at h d).

Definition waiting h (d : Z) : list vinput_cmd := contents (cmdq_at h d).

(** [h'] has the same queues as [h]. *)
Definition same_queues h h' : Prop := vinput_cmd_queues h' = vinput_cmd_queues h.

Lemma cmdq_same h h' d : same_queues h h' -> cmdq_at h' d = cmdq_at h d.
Proof. unfold cmdq_at, same_queues. by intros ->. Qed.

Lemma host_ok_same h h' : same_queues h h' -> host_ok h -> host_ok h'.
Proof.
  intros E [L Q]. split; [by rewrite E|]. intros d Hd. rewrite (cmdq_same h h' d E). by apply Q.
Qed.

Lemma host_ok_upd h d f : host_ok h -> 0 <= d < VINPUT_DEV_CNT -> queue_ok (f (cmdq_at h d)) ->
  host_ok (upd_cmdq d f h).
Proof.
  intros [L Q] Hd Hf. split; [by rewrite length_upd_cmdq|]. intros d' Hd'.
  destruct (Z.eq_dec d d') as [<-|Hne]; [|rewrite cmdq_upd_ne by lia; by apply Q].
  rewrite cmdq_upd_eq; [done|]. rewrite L. unfold VINPUT_DEV_CNT in Hd. lia.
Qed.

Section Valid.
Context (h : vinput_host) (d : Z) (Hok : host_ok h) (Hd : 0 <= d < VINPUT_DEV_CNT).

Lemma host_dev : 0 <= d < Z.of_nat (length (vinput_cmd_queues h)).
Proof using Hok Hd. destruct Hok as [-> _]. unfold VINPUT_DEV_CNT in Hd. lia. Qed.

Lemma pop_waiting :
  match waiting h d with
  | [] => vinput_pop_cmd d h = (None, h)
  | c :: cs => exists h', vinput_pop_cmd d h = (Some c, h') /\ host_ok h' /\ waiting h' d = cs /\
      (forall d', 0 <= d' < VINPUT_DEV_CNT -> d' <> d -> waiting h' d' = waiting h d') /\
      (exists qs, h' = h <| vinput_cmd_queues := qs |>)
  end.
Proof using Hok Hd.
  pose proof (proj2 Hok d Hd) as Q. pose proof (ring_empty_iff _ Q) as He.
  pose proof (cmdq_length_contents (cmdq_at h d)) as Hl. pose proof (ring_len_range (cmdq_at h d)).
  fold (waiting h d) in Hl. unfold vinput_pop_cmd.
  destruct (Z.eqb_spec (q_tail (cmdq_at h d)) (q_head (cmdq_at h d))) as [E|Ne].
  - apply He in E. destruct (waiting h d); [done|]. cbn [length] in Hl. lia.
  - assert (0 < ring_len (cmdq_at h d)) as Hp by lia. rewrite <- Hl in Hp.
    unfold waiting in *. rewrite (cmdq_contents_pop _ Q) by lia. eexists. split_and!; [reflexivity| | | |by eexists].
    + apply host_ok_upd; [done|done|]. destruct Q as (Q0 & Q1 & Q2). split_and!; [done|done|by apply ring_next_in].
    + by rewrite cmdq_upd_eq by apply host_dev.
    + intros d' Hd' Hne. rewrite cmdq_upd_ne by lia. done.
Qed.

(** A push appends unless the ring holds 1023 commands, and then drops. *)
Lemma push_waiting c :
  let '(ok, h') := vinput_push_cmd d c h in
  host_ok h' /\ ok = negb (Z.of_nat (length (waiting h d)) =? VINPUT_CMD_QUEUE_SIZE - 1) /\
  waiting h' d = (if ok then waiting h d ++ [c] else waiting h d) /\
  (forall d', 0 <= d' < VINPUT_DEV_CNT -> d' <> d -> waiting h' d' = waiting h d') /\
  (ok = true -> vinput_cmd_wake_pending h' = true).
Proof using Hok Hd.
  pose proof (proj2 Hok d Hd) as Q. pose proof (ring_full_iff _ Q) as Hf.
  unfold waiting. rewrite cmdq_length_contents. unfold vinput_push_cmd. cbv zeta.
  destruct (Z.eqb_spec (ring_next (q_head (cmdq_at h d))) (q_tail (cmdq_at h d))) as [E|Ne].
  { apply Hf in E. rewrite E. split_and!; done. }
  pose proof (ring_len_range (cmdq_at h d)) as R.
  destruct (Z.eqb_spec (ring_len (cmdq_at h d)) (VINPUT_CMD_QUEUE_SIZE - 1)) as [E|Ne2]; [tauto|].
  set (q := cmdq_at h d) in *. set (q1 := q <| entries := arr_set (entries q) (q_head q) c |>).
  set (h1 := upd_cmdq d (fun q0 => q0 <| entries := arr_set (entries q0) (q_head q) c |>) h).
  set (h2 := upd_cmdq d (fun q0 => q0 <| q_head := ring_next (q_head q) |>) h1).
  assert (Q1 : queue_ok q1).
  { split; [|apply Q]. cbn. rewrite length_arr_set. apply Q. }
  assert (A1 : cmdq_at h1 d = q1) by (apply cmdq_upd_eq, host_dev).
  assert (H1 : host_ok h1) by (apply host_ok_upd; done).
  assert (A2 : cmdq_at h2 d = q1 <| q_head := ring_next (q_head q1) |>).
  { unfold h2. rewrite cmdq_upd_eq; [by rewrite A1|]. destruct H1 as [-> _]. unfold VINPUT_DEV_CNT in Hd. lia. }
  assert (H2 : host_ok h2).
  { apply host_ok_upd; [done|done|]. rewrite A1. destruct Q1 as (X & Y & Z0). split_and!; [done| |done].
    apply ring_next_in, Q. }
  set (h3 := if vinput_cmd_wake_pending h2 then _ else _).
  assert (S3 : same_queues h2 h3).
  { unfold h3, same_queues. destruct (vinput_cmd_wake_pending h2); [done|]. by rewrite wake_queues. }
  split_and!.
  - by apply (host_ok_same h2).
  - done.
  - rewrite (cmdq_same h2 h3 d S3), A2. rewrite (cmdq_contents_push q1 c); try done.
    + f_equal. by apply contents_store_entry.
    + change (ring_len q1) with (ring_len q). lia.
    + apply arr_get_set_eq. destruct Q as (E & X & _). rewrite E. change (q_head q1) with (q_head q).
      unfold in_ring in X. lia.
  - intros d' Hd' Hne. rewrite (cmdq_same h2 h3 d' S3). unfold h2, h1. by rewrite !cmdq_upd_ne by lia.
  - intros _. unfold h3. case_match; [done|]. by rewrite pending_wake.
Qed.
End Valid.

Lemma all_empty_iff h : host_ok h ->
  vinput_all_queues_empty h = true <-> (forall d, 0 <= d < VINPUT_DEV_CNT -> waiting h d = []).
Proof.
  intros [L Q]. unfold vinput_all_queues_empty. rewrite forallb_forall. split.
  - intros H d Hd. specialize (H d). rewrite Z.eqb_eq in H.
    assert (q_tail (cmdq_at h d) = q_head (cmdq_at h d)) as E.
    { apply H. apply list_elem_of_In, elem_of_seqZ. lia. }
    apply (ring_empty_iff _ (Q d Hd)) in E. pose proof (cmdq_length_contents (cmdq_at h d)) as Hl.
    unfold waiting. destruct (contents _); [done|cbn [length] in Hl; lia].
  - intros H d Hin. apply list_elem_of_In, elem_of_seqZ in Hin. apply Z.eqb_eq.
    assert (0 <= d < VINPUT_DEV_CNT) as Hd by lia. apply (ring_empty_iff _ (Q d Hd)).
    rewrite <- cmdq_length_contents. fold (waiting h d). by rewrite (H d Hd).
Qed.

(** Popping until the queue is empty applies the body to the waiting commands,
    oldest first. *)
Lemma pop_loop_waiting {S} (body : vinput_cmd -> S -> S) fuel : forall d st h, host_ok h ->
  0 <= d < VINPUT_DEV_CNT -> (length (waiting h d) < fuel)%nat ->
  let '(st', h') := pop_loop fuel d body st h in
  st' = foldl (fun st c => body c st) st (waiting h d) /\ host_ok h' /\ waiting h' d = [] /\
  (forall d', 0 <= d' < VINPUT_DEV_CNT -> d' <> d -> waiting h' d' = waiting h d') /\
  (exists qs, h' = h <| vinput_cmd_queues := qs |>).
Proof.
  induction fuel as [|fuel IH]; intros d st h Hok Hd Hf; [lia|]. cbn [pop_loop].
  pose proof (pop_waiting h d Hok Hd) as P. destruct (waiting h d) as [|c cs] eqn:E.
  - rewrite P. split_and!; try done. exists (vinput_cmd_queues h). by destruct h.
  - destruct P as (h1 & -> & Hok1 & Hw & Ho & qs1 & Hq). specialize (IH d (body c st) h1 Hok1 Hd).
    rewrite Hw in IH. cbn [length] in Hf. destruct (pop_loop fuel d body (body c st) h1) as [st' h'].
    destruct IH as (I1 & I2 & I3 & I4 & qs2 & I5); [lia|]. split_and!; try done.
    + intros d' Hd' Hne. rewrite I4, Ho by done. done.
    + exists qs2. rewrite I5, Hq. done.
Qed.

Lemma waiting_bound h d : (length (waiting h d) < Z.to_nat VINPUT_CMD_QUEUE_SIZE)%nat.
Proof.
  pose proof (cmdq_length_contents (cmdq_at h d)). pose proof (ring_len_range (cmdq_at h d)). unfold waiting. lia.
Qed.

Lemma reset_spec h d : host_ok h -> 0 <= d < VINPUT_DEV_CNT ->
  let h' := vinput_reset_host_events d h in
  host_ok h' /\ waiting h' d = [] /\
  (forall d', 0 <= d' < VINPUT_DEV_CNT -> d' <> d -> waiting h' d' = waiting h d') /\
  (vinput_may_have_pending_cmds h' = true <->
     exists d', 0 <= d' < VINPUT_DEV_CNT /\ d' <> d /\ waiting h d' <> []) /\
  (vinput_may_have_pending_cmds h' = true -> 0 <= wake_write_fd h -> 0 <= wake_bytes h < PIPE_CAPACITY ->
     wake_bytes h' = wake_bytes h + 1).
Proof.
  intros Hok Hd. cbv zeta. unfold vinput_reset_host_events.
  pose proof (pop_loop_waiting (fun _ (u : unit) => u) (Z.to_nat VINPUT_CMD_QUEUE_SIZE) d tt h Hok Hd
                (waiting_bound h d)) as P.
  fold (@pop_all unit) in P. destruct (pop_all d _ tt h) as [u h1].
  destruct P as (_ & Hok1 & Hw & Ho & qs & Hq).
  assert (S2 : same_queues h1 (h1 <| vinput_cmd_wake_pending := false |>)) by done.
  set (h2 := h1 <| vinput_cmd_wake_pending := false |>) in *.
  pose proof (host_ok_same _ _ S2 Hok1) as Hok2.
  assert (W2 : forall d, waiting h2 d = waiting h1 d) by (intros; unfold waiting; by rewrite (cmdq_same h1 h2)).
  destruct (vinput_all_queues_empty h2) eqn:Ee.
  - pose proof (proj1 (all_empty_iff h2 Hok2) Ee) as H0. split; [done|]. split; [done|]. split; [|split; [split; [done|]|done]].
    + intros d' Hd' Hne. rewrite W2. by apply Ho.
    + intros (d' & Hd' & Hne & Hn). destruct Hn. rewrite <- Ho, <- W2 by done. by apply H0.
  - change (vinput_cmd_wake_pending h2) with false. cbv iota. set (h3 := h2 <| vinput_cmd_wake_pending := true |>).
    assert (S3 : same_queues h2 (window_wake_backend_sw h3)) by (unfold same_queues; by rewrite wake_queues).
    assert (W3 : forall d, waiting (window_wake_backend_sw h3) d = waiting h1 d).
    { intros d'. unfold waiting. rewrite (cmdq_same _ _ d' S3). apply W2. }
    split_and!.
    + by apply (host_ok_same h2).
    + by rewrite W3.
    + intros d' Hd' Hne. rewrite W3. by apply Ho.
    + unfold vinput_may_have_pending_cmds. rewrite pending_wake. split; [intros _|done].
      destruct (decide (waiting h (1 - d) = [])) as [E|E].
      * exfalso. rewrite (proj2 (all_empty_iff h2 Hok2)) in Ee; [done|]. intros d' Hd'. rewrite W2.
        destruct (Z.eq_dec d' d) as [->|Hne]; [done|]. rewrite Ho by done.
        replace d' with (1 - d) by (unfold VINPUT_DEV_CNT in *; lia). done.
      * exists (1 - d). unfold VINPUT_DEV_CNT in *. split_and!; [lia|lia|lia|done].
    + intros _ Hfd Hb. unfold window_wake_backend_sw.
      change (wake_write_fd h3) with (wake_write_fd h1). change (wake_bytes h3) with (wake_bytes h1).
      rewrite Hq. change (wake_write_fd (h <| vinput_cmd_queues := qs |>)) with (wake_write_fd h).
      change (wake_bytes (h <| vinput_cmd_queues := qs |>)) with (wake_bytes h).
      destruct (Z.leb_spec 0 (wake_write_fd h)), (Z.ltb_spec (wake_bytes h) PIPE_CAPACITY); done || lia.
Qed.

Lemma reset_host_ok h d : host_ok h -> 0 <= d < VINPUT_DEV_CNT -> host_ok (vinput_reset_host_events d h).
Proof. intros. by apply reset_spec. Qed.

(** Resetting one device empties its queue only. The commands waiting for
    the other device stay, in order, and the gate ends up raised exactly when some
    are left, so that the drain still comes; if a wake pipe with room is
    connected, the re-raised gate is backed by a byte in it. *)
Theorem reset_isolates_device h d : host_ok h -> 0 <= d < VINPUT_DEV_CNT ->
  let h' := vinput_reset_host_events d h in
  host_ok h' /\ waiting h' d = [] /\
  (forall d', 0 <= d' < VINPUT_DEV_CNT -> d' <> d -> waiting h' d' = waiting h d') /\
  (vinput_may_have_pending_cmds h' = true <->
     exists d', 0 <= d' < VINPUT_DEV_CNT /\ d' <> d /\ waiting h d' <> []) /\
  (vinput_may_have_pending_cmds h' = true -> 0 <= wake_write_fd h -> 0 <= wake_bytes h < PIPE_CAPACITY ->
     wake_bytes h' = wake_bytes h + 1).
Proof. intros. by apply reset_spec. Qed.

(** ** The threads run these functions *)

(** [n] accesses of one thread alone. *)
Definition alone (f : sys -> sys) (s s' : sys) : Prop := exists n, Nat.iter n f s = s'.

Lemma alone_refl f s : alone f s s.
Proof. by exists O. Qed.
Lemma alone_trans f s1 s2 s3 : alone f s1 s2 -> alone f s2 s3 -> alone f s1 s3.
Proof. intros [n <-] [m <-]. exists (m + n)%nat. apply Nat.iter_add. Qed.
Lemma alone_step f s s' : alone f (f s) s' -> alone f s s'.
Proof. apply alone_trans. by exists 1%nat. Qed.

Section Threads.
Context (p : producer) (c : consumer) (snt gt : Z -> list vinput_cmd).

Lemma producer_runs_push d e h :
  alone producer_step (mk_sys (P_load_head d e) c h snt gt)
    (mk_sys P_idle c (snd (vinput_push_cmd d e h))
       (if fst (vinput_push_cmd d e h) then hist_app snt d e else snt) gt).
Proof.
  unfold vinput_push_cmd. cbv zeta. do 2 apply alone_step. cbn [producer_step prod shared cons sent got].
  destruct (_ =? q_tail (cmdq_at h d)); [apply alone_refl|]. cbn [fst snd].
  do 3 apply alone_step. cbn [producer_step prod shared cons sent got].
  set (h2 := upd_cmdq d _ (upd_cmdq d _ h)).
  destruct (vinput_cmd_wake_pending h2); [apply alone_refl|]. apply alone_step. apply alone_refl.
Qed.

Lemma consumer_runs_pop k d h :
  match vinput_pop_cmd d h with
  | (Some e, h') => alone consumer_step (mk_sys p (C_load_tail k d) h snt gt)
                      (mk_sys p (C_load_tail k d) h' snt (hist_app gt d e))
  | (None, h') => alone consumer_step (mk_sys p (C_load_tail k d) h snt gt)
                    (mk_sys p (after_empty k d) h' snt gt)
  end.
Proof.
  unfold vinput_pop_cmd. destruct (_ =? q_head (cmdq_at h d)) eqn:E.
  - do 2 apply alone_step. cbn [consumer_step prod shared cons sent got]. rewrite E. apply alone_refl.
  - do 2 apply alone_step. cbn [consumer_step prod shared cons sent got]. rewrite E.
    do 2 apply alone_step. apply alone_refl.
Qed.

(** Clearing the gate and looking at both queues. *)
Lemma consumer_runs_rearm k h :
  alone consumer_step (mk_sys p (C_clear k) h snt gt)
    (mk_sys p (if fst (vinput_rearm_cmd_wake h) then C_idle
               else match k with Drain => C_load_tail Drain 0 | Reset => C_exchange end)
       (snd (vinput_rearm_cmd_wake h)) snt gt).
Proof.
  unfold vinput_rearm_cmd_wake. cbv zeta. cbn [fst snd]. apply alone_step.
  cbn [consumer_step prod shared cons sent got]. set (h1 := h <| vinput_cmd_wake_pending := false |>).
  change (vinput_all_queues_empty h1) with
    ((q_tail (cmdq_at h1 0) =? q_head (cmdq_at h1 0)) && ((q_tail (cmdq_at h1 1) =? q_head (cmdq_at h1 1)) && true)).
  do 2 apply alone_step. cbn [consumer_step prod shared cons sent got Z.ltb Z.compare VINPUT_DEV_CNT].
  destruct (q_tail (cmdq_at h1 0) =? q_head (cmdq_at h1 0)); [|apply alone_refl].
  do 2 apply alone_step. cbn [consumer_step prod shared cons sent got].
  change (0 + 1 <? VINPUT_DEV_CNT) with true. cbv iota. change (0 + 1) with 1.
  cbn [consumer_step prod shared cons sent got].
  destruct (q_tail (cmdq_at h1 1) =? q_head (cmdq_at h1 1)); [|apply alone_refl].
  apply alone_step. apply alone_refl.
Qed.
End Threads.

Lemma consumer_runs_pops p snt d k : forall fuel h gt, host_ok h -> 0 <= d < VINPUT_DEV_CNT ->
  (length (waiting h d) < fuel)%nat ->
  exists gt', alone consumer_step (mk_sys p (C_load_tail k d) h snt gt)
    (mk_sys p (after_empty k d) (snd (pop_loop fuel d (fun _ (u : unit) => u) tt h)) snt gt').
Proof.
  induction fuel as [|fuel IH]; intros h gt Hok Hd Hf; [lia|]. cbn [pop_loop].
  pose proof (pop_waiting h d Hok Hd) as P. pose proof (consumer_runs_pop p snt gt k d h) as C.
  destruct (waiting h d) as [|e es] eqn:E.
  - rewrite P in *. by exists gt.
  - destruct P as (h1 & Ep & Hok1 & Hw & _). rewrite Ep in *. cbn [length] in Hf.
    destruct (IH h1 (hist_app gt d e) Hok1 Hd) as [gt' H]; [rewrite Hw; lia|].
    exists gt'. by eapply alone_trans.
Qed.

Lemma reset_runs p snt gt d h : host_ok h -> 0 <= d < VINPUT_DEV_CNT ->
  exists gt', alone consumer_step (mk_sys p (C_load_tail Reset d) h snt gt)
                (mk_sys p C_idle (vinput_reset_host_events d h) snt gt').
Proof.
  intros Hok Hd. destruct (consumer_runs_pops p snt d Reset _ h gt Hok Hd (waiting_bound h d)) as [gt' H].
  exists gt'. eapply alone_trans; [exact H|]. unfold vinput_reset_host_events. cbn [after_empty].
  fold (@pop_all unit). destruct (pop_all d _ tt h) as [u h1]. cbn [snd].
  pose proof (consumer_runs_rearm p snt gt' Reset h1) as R. unfold vinput_rearm_cmd_wake in R. cbv zeta in R.
  cbn [fst snd] in R. set (h2 := h1 <| vinput_cmd_wake_pending := false |>) in *.
  destruct (vinput_all_queues_empty h2); [done|]. eapply alone_trans; [exact R|].
  do 2 apply alone_step. apply alone_refl.
Qed.

(** The two-thread step machine runs the functions of the source. Left
    alone, the producer's steps compute [vinput_push_cmd], and the consumer's steps
    started by a guest reset compute [vinput_reset_host_events], ending idle: the
    interleaved programs are the sequential ones cut at their atomic accesses. *)
Theorem threads_run_functions d e h p c snt gt : host_ok h -> 0 <= d < VINPUT_DEV_CNT ->
  alone producer_step (mk_sys (P_load_head d e) c h snt gt)
    (mk_sys P_idle c (snd (vinput_push_cmd d e h))
       (if fst (vinput_push_cmd d e h) then hist_app snt d e else snt) gt) /\
  exists gt', alone consumer_step (mk_sys p (C_load_tail Reset d) h snt gt)
                (mk_sys p C_idle (vinput_reset_host_events d h) snt gt').
Proof. intros Hok Hd. split; [apply producer_runs_push|by apply reset_runs]. Qed.
