(* ===== verification/VirtioInput.v ===== *)
(** * The keyboard and the mouse (virtio-input.c)

    Both devices share the code: a register file each, a configuration window,
    an event queue the emulator fills and a status queue it drains. They run on a
    machine whose device state is [input_dev]. The configuration structure is kept
    as fields; [cfg_bytes] is its memory image. *)

From Stdlib Require Import Ascii String List.
From stdpp Require Import base gmap list.
From Stdlib Require Import ZArith Lia Bool.
From S2P Require Import Prelude Isa Hart Machine Loops Device Virtio.
From S2P Require Import InputCodes InputEvent.
Open Scope Z_scope.

(* [virtio-input.c:36-43] *)
Definition BUS_VIRTUAL := 0x06.
Definition VINPUT_KEYBOARD_NAME : String.string := "VirtIO Keyboard"%string.
Definition VINPUT_MOUSE_NAME : String.string := "VirtIO Mouse"%string.
Definition VINPUT_SERIAL : String.string := "None"%string.

(* [virtio-input.c:45-48] *)
Definition VIRTIO_INPUT_FEATURES_0 := 0.
Definition VIRTIO_INPUT_FEATURES_1 := 1.
Definition VIRTIO_INPUT_QUEUE_NUM_MAX := 1024.

(* [virtio-input.c:53-62] *)
Definition VIRTIO_INPUT_EVENTQ := 0.
Definition VIRTIO_INPUT_STATUSQ := 1.
Definition VIRTIO_INPUT_REG_SELECT := 0x100.
Definition VIRTIO_INPUT_REG_SUBSEL := 0x101.
Definition VIRTIO_INPUT_REG_SIZE := 0x102.

(* [virtio-input.c:64-72] virtio_input_config_select *)
Definition VIRTIO_INPUT_CFG_UNSET := 0x00.
Definition VIRTIO_INPUT_CFG_ID_NAME := 0x01.
Definition VIRTIO_INPUT_CFG_ID_SERIAL := 0x02.
Definition VIRTIO_INPUT_CFG_ID_DEVIDS := 0x03.
Definition VIRTIO_INPUT_CFG_PROP_BITS := 0x10.
Definition VIRTIO_INPUT_CFG_EV_BITS := 0x11.
Definition VIRTIO_INPUT_CFG_ABS_INFO := 0x12.

(* [virtio-input-event.h:10-11] VIRTIO_INPUT_CFG_PAYLOAD_SIZE *)
Definition VIRTIO_INPUT_CFG_PAYLOAD_SIZE := 128.

(* [virtio-input.c:89-100] virtio_input_config *)
Record virtio_input_config := mk_icfg {
  cfg_select : Z; cfg_subsel : Z; cfg_size : Z; cfg_reserved : list Z; cfg_u : list Z }.

(* [virtio-input.c:102-106] virtio_input_event *)
Record virtio_input_event := mk_iev { ev_type : Z; ev_code : Z; ev_value : Z }.

(** [vinput] is a pointer to the register file: an index, or null. *)
(* [virtio-input.c:108-112] vinput_data *)
Record vinput_data := mk_vdata { vd_vinput : option Z; vd_cfg : virtio_input_config; vd_type : Z }.

(** [priv] points into [vinput_dev]. *)
(* [device.h:254-269] virtio_input_state_t *)
Record virtio_input_state_t := mk_vinput { vi_regs : virtio_state; vi_priv : Z }.

(** Both register files, the statics of virtio-input.c, and the host side;
    [cfg_oob] records a read outside a configuration structure, [in_div_zero] a
    division by zero, [init_exit] the exit of the process in the initialisation. *)
(* [virtio-input.c:114-114] vinput_dev *)
Record input_dev := mk_indev {
  vinputs : list virtio_input_state_t;
  vinput_dev : list vinput_data;
  vinput_dev_cnt : Z;
  vhost : vinput_host;
  cfg_oob : bool; in_div_zero : bool; init_exit : bool }.

#[export] Instance eta_icfg : Eta virtio_input_config := fun r =>
  mk_icfg (cfg_select r) (cfg_subsel r) (cfg_size r) (cfg_reserved r) (cfg_u r).
#[export] Instance eta_vdata : Eta vinput_data := fun r => mk_vdata (vd_vinput r) (vd_cfg r) (vd_type r).
#[export] Instance eta_vinput : Eta virtio_input_state_t := fun r => mk_vinput (vi_regs r) (vi_priv r).
#[export] Instance eta_indev : Eta input_dev := fun r =>
  mk_indev (vinputs r) (vinput_dev r) (vinput_dev_cnt r) (vhost r) (cfg_oob r) (in_div_zero r) (init_exit r).
#[export] Instance set_cfg_select : Setter cfg_select := ltac:(solve_setter).
#[export] Instance set_cfg_subsel : Setter cfg_subsel := ltac:(solve_setter).
#[export] Instance set_cfg_size : Setter cfg_size := ltac:(solve_setter).
#[export] Instance set_cfg_u : Setter cfg_u := ltac:(solve_setter).
#[export] Instance set_vd_vinput : Setter vd_vinput := ltac:(solve_setter).
#[export] Instance set_vd_cfg : Setter vd_cfg := ltac:(solve_setter).
#[export] Instance set_vd_type : Setter vd_type := ltac:(solve_setter).
#[export] Instance set_vi_regs : Setter vi_regs := ltac:(solve_setter).
#[export] Instance set_vi_priv : Setter vi_priv := ltac:(solve_setter).
#[export] Instance set_vinputs : Setter vinputs := ltac:(solve_setter).
#[export] Instance set_vinput_dev : Setter vinput_dev := ltac:(solve_setter).
#[export] Instance set_vinput_dev_cnt : Setter vinput_dev_cnt := ltac:(solve_setter).
#[export] Instance set_vhost : Setter vhost := ltac:(solve_setter).
#[export] Instance set_cfg_oob : Setter cfg_oob := ltac:(solve_setter).
#[export] Instance set_in_div_zero : Setter in_div_zero := ltac:(solve_setter).
#[export] Instance set_init_exit : Setter init_exit := ltac:(solve_setter).

(** ** Configuration structure *)

Definition zero_payload : list Z := replicate (Z.to_nat VIRTIO_INPUT_CFG_PAYLOAD_SIZE) 0.
Definition zero_icfg : virtio_input_config := mk_icfg 0 0 0 (replicate 5 0) zero_payload.

(** The packed structure in memory, and its size. *)
Definition cfg_bytes (c : virtio_input_config) : list Z :=
  [cfg_select c; cfg_subsel c; cfg_size c] ++ cfg_reserved c ++ cfg_u c.
Definition sizeof_input_config := 8 + VIRTIO_INPUT_CFG_PAYLOAD_SIZE.
Definition sizeof_input_event := 8.

(** [memcpy] of the start of the payload. *)
Definition put_payload (bytes : list Z) (u : list Z) : list Z := bytes ++ drop (length bytes) u.

Definition string_bytes (str : String.string) : list Z := (fun c => Z.of_N (N_of_ascii c)) <$> String.list_ascii_of_string str.

(* [virtio-input.c:128-134] vinput_bitmap_get_size *)
Fixpoint bitmap_get_size (bitmap : list Z) (max_bytes : nat) : nat :=
  match max_bytes with
  | O => O
  | S m => if arr_get 0 bitmap (Z.of_nat m) =? 0 then bitmap_get_size bitmap m else max_bytes
  end.
Definition vinput_bitmap_get_size (bitmap : list Z) (max_bytes : Z) : Z :=
  Z.of_nat (bitmap_get_size bitmap (Z.to_nat max_bytes)).

(** A payload bitmap with the given bits set, and its announced size. *)
Definition cfg_set_bits (bits : list Z) (c : virtio_input_config) : virtio_input_config :=
  let u := foldl vinput_bitmap_set_bit zero_payload bits in
  c <| cfg_u := u |> <| cfg_size := u8 (vinput_bitmap_get_size u VIRTIO_INPUT_CFG_PAYLOAD_SIZE) |>.

(* [virtio-input.c:520-536] virtio_input_properties *)
Definition virtio_input_properties (dev_id : Z) (c : virtio_input_config) : virtio_input_config :=
  let c := c <| cfg_u := zero_payload |> in
  if dev_id =? VINPUT_KEYBOARD_ID then c <| cfg_size := 0 |>
  else if dev_id =? VINPUT_MOUSE_ID then cfg_set_bits [SEMU_INPUT_PROP_POINTER] c
  else c.

(* [virtio-input.c:538-565] virtio_input_fill_keyboard_ev_bits *)
Definition virtio_input_fill_keyboard_ev_bits (event : Z) (c : virtio_input_config) : virtio_input_config :=
  let c := c <| cfg_u := zero_payload |> in
  if event =? SEMU_EV_KEY then
    let '(n, u) := virtio_input_fill_ev_key_bitmap (cfg_u c) VIRTIO_INPUT_CFG_PAYLOAD_SIZE in
    c <| cfg_u := u |> <| cfg_size := u8 n |>
  else if event =? SEMU_EV_LED then cfg_set_bits [SEMU_LED_NUML; SEMU_LED_CAPSL; SEMU_LED_SCROLLL] c
  else if event =? SEMU_EV_REP then cfg_set_bits [SEMU_REP_DELAY; SEMU_REP_PERIOD] c
  else c <| cfg_size := 0 |>.

(* [virtio-input.c:567-591] virtio_input_fill_mouse_ev_bits *)
Definition virtio_input_fill_mouse_ev_bits (event : Z) (c : virtio_input_config) : virtio_input_config :=
  let c := c <| cfg_u := zero_payload |> in
  if event =? SEMU_EV_KEY then cfg_set_bits [SEMU_BTN_LEFT; SEMU_BTN_RIGHT; SEMU_BTN_MIDDLE] c
  else if event =? SEMU_EV_REL then cfg_set_bits [SEMU_REL_X; SEMU_REL_Y; SEMU_REL_HWHEEL; SEMU_REL_WHEEL] c
  else c <| cfg_size := 0 |>.

(* [virtio-input.c:593-603] virtio_input_fill_ev_bits *)
Definition virtio_input_fill_ev_bits (dev_id event : Z) (c : virtio_input_config) : virtio_input_config :=
  if dev_id =? VINPUT_KEYBOARD_ID then virtio_input_fill_keyboard_ev_bits event c
  else if dev_id =? VINPUT_MOUSE_ID then virtio_input_fill_mouse_ev_bits event c
  else c.

(* [virtio-input.c:605-614] virtio_input_fill_abs_info *)
Definition virtio_input_fill_abs_info (c : virtio_input_config) : virtio_input_config := c <| cfg_size := 0 |>.

(* [virtio-input.c:115-118] vinput_dev_name *)
Definition vinput_dev_name (dev_id : Z) : String.string :=
  if dev_id =? VINPUT_KEYBOARD_ID then VINPUT_KEYBOARD_NAME else VINPUT_MOUSE_NAME.

(** [strcpy] stores the terminating zero too, where the payload already has one. *)
Definition cfg_string (str : String.string) (c : virtio_input_config) : virtio_input_config :=
  c <| cfg_u := put_payload (string_bytes str ++ [0]) (cfg_u c) |>
    <| cfg_size := u8 (Z.of_nat (length (string_bytes str))) |>.

(* [virtio-input.c:616-652] virtio_input_cfg_read *)
Definition virtio_input_cfg_read (dev_id : Z) (c : virtio_input_config) : virtio_input_config :=
  let c := c <| cfg_u := zero_payload |> <| cfg_size := 0 |> in
  let sel := cfg_select c in
  if sel =? VIRTIO_INPUT_CFG_UNSET then c
  else if sel =? VIRTIO_INPUT_CFG_ID_NAME then cfg_string (vinput_dev_name dev_id) c
  else if sel =? VIRTIO_INPUT_CFG_ID_SERIAL then cfg_string VINPUT_SERIAL c
  else if sel =? VIRTIO_INPUT_CFG_ID_DEVIDS then
    c <| cfg_u := put_payload (le_bytes 2 BUS_VIRTUAL ++ le_bytes 2 0 ++ le_bytes 2 0 ++ le_bytes 2 1) (cfg_u c) |>
      <| cfg_size := 8 |>
  else if sel =? VIRTIO_INPUT_CFG_PROP_BITS then virtio_input_properties dev_id c
  else if sel =? VIRTIO_INPUT_CFG_EV_BITS then virtio_input_fill_ev_bits dev_id (cfg_subsel c) c
  else if sel =? VIRTIO_INPUT_CFG_ABS_INFO then virtio_input_fill_abs_info c
  else c.

(** ** Register file and queues *)

Abbreviation M := (machine input_dev).
Implicit Types s : M.

Definition zero_vinput : virtio_input_state_t := mk_vinput (zero_virtio 2) 0.
Definition zero_vdata : vinput_data := mk_vdata None zero_icfg 0.

Definition vinput_at s (v : Z) : virtio_input_state_t := arr_get zero_vinput (vinputs (dev s)) v.
Definition vi_at s (v : Z) : virtio_state := vi_regs (vinput_at s v).
Definition on_vi (v : Z) (f : virtio_state -> virtio_state) s : M :=
  on_dev (fun d => d <| vinputs := arr_set (vinputs d) v
                          ((vinput_at s v) <| vi_regs := f (vi_at s v) |>) |>) s.
Definition data_at s (i : Z) : vinput_data := arr_get zero_vdata (vinput_dev (dev s)) i.
Definition on_cfg (i : Z) (f : virtio_input_config -> virtio_input_config) s : M :=
  on_dev (fun d => d <| vinput_dev := arr_set (vinput_dev d) i
                          ((data_at s i) <| vd_cfg := f (vd_cfg (data_at s i)) |>) |>) s.
Definition on_vhost (f : vinput_host -> vinput_host) s : M := on_dev (fun d => d <| vhost := f (vhost d) |>) s.

(** [PRIV(vinput)] *)
Definition PRIV s (v : Z) : Z := vi_priv (vinput_at s v).

(* [virtio-input.c:136-141] virtio_input_set_fail *)
Definition virtio_input_set_fail (d : virtio_state) : virtio_state :=
  let d := d <| Status := Z.lor (Status d) VIRTIO_STATUS__DEVICE_NEEDS_RESET |> in
  if nz (Z.land (Status d) VIRTIO_STATUS__DRIVER_OK)
  then d <| InterruptStatus := Z.lor (InterruptStatus d) VIRTIO_INT__CONF_CHANGE |> else d.

(* [virtio-input.c:143-157] virtio_input_is_config_access *)
Definition virtio_input_is_config_access (addr access_size : Z) : bool :=
  let base := Z.shiftl VIRTIO_Config 2 in
  let end_ := u32 (base + sizeof_input_config) in
  if access_size =? 0 then false
  else if addr <? base then false
  else if end_ <? addr + access_size then false
  else true.

(* [virtio-input.c:159-166] virtio_input_preprocess *)
Definition virtio_input_preprocess (d : virtio_state) (addr : Z) : Z * virtio_state :=
  if (RAM_SIZE <=? addr) || nz (Z.land addr 3) then (0, virtio_input_set_fail d) else (Z.shiftr addr 2, d).

Definition vq s (v i : Z) : virtq_t := queue_at (vi_at s v) i.
Definition on_vq (v i : Z) (f : virtq_t -> virtq_t) s : M := on_vi v (upd_queue i f) s.

(** The used-ring header: flags zero, index [new_used]. *)
Definition put_used_hdr (q : virtq_t) (new_used : Z) s : M := ram_put (QueueUsed q) (shl32 new_used 16) s.

(** [ram[avail] >> (16 * (queue_idx % 2))] for the next entry; [None] is a
    division by zero. *)
Definition next_buffer (q : virtq_t) s : option (Z * M) :=
  if QueueNum q =? 0 then None
  else
    let queue_idx := u16 (last_avail q mod QueueNum q) in
    Some (avail_entry q queue_idx s).

(** The four words of a descriptor: address, its high half, length, flags. *)
Definition input_desc (q : virtq_t) (buffer_idx : Z) s : Z * Z * Z * Z * M :=
  let d := u32 (QueueDesc q + buffer_idx * 4) in
  let '(a, s) := ram_get d s in
  let '(ah, s) := ram_get (d + 1) s in
  let '(l, s) := ram_get (d + 2) s in
  let '(f, s) := ram_get (d + 3) s in
  (a, ah, l, Z.land f 0xFFFF, s).

(** The loop of [virtio_input_drain_statusq]; [None] when it fails the device. *)
(* [virtio-input.c:194-226] virtio_input_drain_statusq *)
Fixpoint statusq_loop (fuel : nat) (v new_avail new_used : Z) (consumed : bool) s : option (Z * bool) * M :=
  match fuel with
  | O => (Some (new_used, consumed), s)
  | S fuel =>
    let q := vq s v VIRTIO_INPUT_STATUSQ in
    if last_avail q =? new_avail then (Some (new_used, consumed), s)
    else
      match next_buffer q s with
      | None => (None, on_dev (fun d => d <| in_div_zero := true |>) s)
      | Some (buffer_idx, s) =>
        if QueueNum q <=? buffer_idx then (None, on_vi v virtio_input_set_fail s)
        else
          let '(desc_addr, desc_addr_high, desc_len, desc_flags, s) := input_desc q buffer_idx s in
          if nz desc_addr_high || nz (Z.land desc_flags VIRTIO_DESC_F_WRITE)
             || (desc_len <? sizeof_input_event) || (RAM_SIZE - sizeof_input_event <? desc_addr)
          then (None, on_vi v virtio_input_set_fail s)
          else
            let s := used_append q new_used buffer_idx 0 s in
            let s := on_vq v VIRTIO_INPUT_STATUSQ (fun q => q <| last_avail := u16 (last_avail q + 1) |>) s in
            statusq_loop fuel v new_avail (u16 (new_used + 1)) true s
      end
  end.

(** The 16-bit distance bounds the rounds. *)
(* [virtio-input.c:174-235] virtio_input_drain_statusq *)
Definition virtio_input_drain_statusq (v : Z) s : M :=
  let q := vq s v VIRTIO_INPUT_STATUSQ in
  if negb (nz (Z.land (Status (vi_at s v)) VIRTIO_STATUS__DRIVER_OK)) || negb (ready q) then s
  else
    let '(w, s) := ram_get (QueueAvail q) s in
    let new_avail := u16 (Z.shiftr w 16) in
    let avail_delta := u16 (new_avail - last_avail q) in
    let '(w, s) := ram_get (QueueUsed q) s in
    let new_used := u16 (Z.shiftr w 16) in
    if u16 (QueueNum q) <? avail_delta then on_vi v virtio_input_set_fail s
    else
      match statusq_loop (S (Z.to_nat avail_delta)) v new_avail new_used false s with
      | (None, s) => s
      | (Some (new_used, consumed), s) =>
        if consumed then
          let s := put_used_hdr q new_used s in
          let '(w, s) := ram_get (QueueAvail q) s in
          if nz (Z.land w 1) then s
          else on_vi v (fun d => d <| InterruptStatus := Z.lor (InterruptStatus d) VIRTIO_INT__USED_RING |>) s
        else s
      end.

(* [virtio-input.c:237-252] virtio_input_update_status *)
Definition virtio_input_update_status (v status : Z) s : M :=
  let s := on_vi v (fun d => d <| Status := Z.lor (Status d) status |>) s in
  if nz status then s
  else
    let dev_id := vd_type (data_at s (PRIV s v)) in
    let s := on_vhost (vinput_reset_host_events dev_id) s in
    on_vi v (fun _ => zero_virtio 2) s.

(** The bytes of an event in memory. *)
Definition event_bytes (e : virtio_input_event) : list Z :=
  le_bytes 2 (ev_type e) ++ le_bytes 2 (ev_code e) ++ le_bytes 4 (ev_value e).

(** The loop of [virtio_input_desc_handler] over the events. *)
(* [virtio-input.c:283-327] virtio_input_desc_handler *)
Fixpoint put_events (v : Z) (evs : list virtio_input_event) (new_used : Z) s : option Z * M :=
  match evs with
  | [] => (Some new_used, s)
  | e :: evs =>
    let q := vq s v VIRTIO_INPUT_EVENTQ in
    match next_buffer q s with
    | None => (None, on_dev (fun d => d <| in_div_zero := true |>) s)
    | Some (buffer_idx, s) =>
      if QueueNum q <=? buffer_idx then (None, on_vi v virtio_input_set_fail s)
      else
        let '(addr, addr_high, len, flags, s) := input_desc q buffer_idx s in
        if nz addr_high || negb (nz (Z.land flags VIRTIO_DESC_F_WRITE))
           || (len <? sizeof_input_event) || (RAM_SIZE - sizeof_input_event <? addr)
        then (None, on_vi v virtio_input_set_fail s)
        else
          let s := dma_write addr (event_bytes e) s in
          let s := used_append q new_used buffer_idx sizeof_input_event s in
          let s := on_vq v VIRTIO_INPUT_EVENTQ (fun q => q <| last_avail := u16 (last_avail q + 1) |>) s in
          put_events v evs (u16 (new_used + 1)) s
    end
  end.

(* [virtio-input.c:255-335] virtio_input_desc_handler *)
Definition virtio_input_desc_handler (v : Z) (input_ev : list virtio_input_event) s : bool * M :=
  let q := vq s v VIRTIO_INPUT_EVENTQ in
  let '(w, s) := ram_get (QueueAvail q) s in
  let new_avail := u16 (Z.shiftr w 16) in
  let '(w, s) := ram_get (QueueUsed q) s in
  let new_used := u16 (Z.shiftr w 16) in
  let end_ := u32 (last_avail q + Z.of_nat (length input_ev)) in
  let flattened_avail_idx := if new_avail <? last_avail q then u32 (new_avail + 2 ^ 16) else new_avail in
  if flattened_avail_idx <? end_ then (false, s)
  else
    match put_events v input_ev new_used s with
    | (None, s) => (false, s)
    | (Some new_used, s) => (true, put_used_hdr q new_used s)
    end.

(* [virtio-input.c:337-385] virtio_input_update_eventq *)
Definition virtio_input_update_eventq (dev_id : Z) (input_ev : list virtio_input_event) s : M :=
  match vd_vinput (data_at s dev_id) with
  | None => s
  | Some v =>
    let q := vq s v VIRTIO_INPUT_EVENTQ in
    if nz (Z.land (Status (vi_at s v)) VIRTIO_STATUS__DEVICE_NEEDS_RESET) then s
    else if negb (nz (Z.land (Status (vi_at s v)) VIRTIO_STATUS__DRIVER_OK) && ready q) then s
    else
      let '(w, s) := ram_get (QueueAvail q) s in
      let new_avail := u16 (Z.shiftr w 16) in
      let avail_delta := u16 (new_avail - last_avail q) in
      if u16 (QueueNum q) <? avail_delta then on_vi v virtio_input_set_fail s
      else if last_avail q =? new_avail then s
      else
        let '(wrote_events, s) := virtio_input_desc_handler v input_ev s in
        if wrote_events then
          let '(w, s) := ram_get (QueueAvail q) s in
          if nz (Z.land w 1) then s
          else on_vi v (fun d => d <| InterruptStatus := Z.lor (InterruptStatus d) VIRTIO_INT__USED_RING |>) s
        else s
  end.

(** ** Host events *)

Definition syn_report : virtio_input_event := mk_iev SEMU_EV_SYN SEMU_SYN_REPORT 0.

(* [virtio-input.c:387-401] virtio_input_update_key *)
Definition virtio_input_update_key (key ev_value : Z) s : M :=
  virtio_input_update_eventq VINPUT_KEYBOARD_ID [mk_iev SEMU_EV_KEY (u16 key) ev_value; syn_report] s.

(* [virtio-input.c:403-417] virtio_input_update_mouse_button_state *)
Definition virtio_input_update_mouse_button_state (button : Z) (pressed : bool) s : M :=
  virtio_input_update_eventq VINPUT_MOUSE_ID [mk_iev SEMU_EV_KEY (u16 button) (b2z pressed); syn_report] s.

(** The non-zero axes. *)
Definition rel_events (code_x code_y dx dy : Z) : list virtio_input_event :=
  (if nz dx then [mk_iev SEMU_EV_REL code_x (u32 dx)] else []) ++
  (if nz dy then [mk_iev SEMU_EV_REL code_y (u32 dy)] else []).

(* [virtio-input.c:419-440] virtio_input_update_mouse_motion *)
Definition virtio_input_update_mouse_motion (dx dy : Z) s : M :=
  match rel_events SEMU_REL_X SEMU_REL_Y dx dy with
  | [] => s
  | evs => virtio_input_update_eventq VINPUT_MOUSE_ID (evs ++ [syn_report]) s
  end.

(* [virtio-input.c:442-470] virtio_input_update_scroll *)
Definition virtio_input_update_scroll (dx dy : Z) s : M :=
  match rel_events SEMU_REL_HWHEEL SEMU_REL_WHEEL dx dy with
  | [] => s
  | evs => virtio_input_update_eventq VINPUT_MOUSE_ID (evs ++ [syn_report]) s
  end.

(** What the drain does with a command of each queue. *)
Definition apply_keyboard (c : vinput_cmd) s : M :=
  match c with VINPUT_CMD_KEYBOARD_KEY key value => virtio_input_update_key key value s | _ => s end.
Definition apply_mouse (c : vinput_cmd) s : M :=
  match c with
  | VINPUT_CMD_MOUSE_BUTTON button pressed => virtio_input_update_mouse_button_state button pressed s
  | VINPUT_CMD_MOUSE_MOTION dx dy => virtio_input_update_mouse_motion dx dy s
  | VINPUT_CMD_MOUSE_WHEEL dx dy => virtio_input_update_scroll dx dy s
  | _ => s
  end.

(** [while (vinput_pop_cmd(dev_id, &event)) apply(event);] on the machine. *)
Fixpoint drain_queue (fuel : nat) (dev_id : Z) (apply : vinput_cmd -> M -> M) s : M :=
  match fuel with
  | O => s
  | S fuel =>
    match vinput_pop_cmd dev_id (vhost (dev s)) with
    | (None, _) => s
    | (Some event, h) => drain_queue fuel dev_id apply (apply event (on_vhost (fun _ => h) s))
    end
  end.

(** A round of the [for (;;)]; the loop ends when no queue was refilled, which
    without the other thread is after the first round. *)
(* [virtio-input.c:472-518] virtio_input_drain_host_events *)
Fixpoint drain_rounds (rounds : nat) s : option M :=
  match rounds with
  | O => None
  | S rounds =>
    let s := drain_queue (Z.to_nat VINPUT_CMD_QUEUE_SIZE) VINPUT_KEYBOARD_ID apply_keyboard s in
    let s := drain_queue (Z.to_nat VINPUT_CMD_QUEUE_SIZE) VINPUT_MOUSE_ID apply_mouse s in
    let '(done_, h) := vinput_rearm_cmd_wake (vhost (dev s)) in
    let s := on_vhost (fun _ => h) s in
    if done_ then Some s else drain_rounds rounds s
  end.
Definition virtio_input_drain_host_events (s : M) : option M := drain_rounds 1 s.

(* [virtio-input.c:927-933] virtio_input_irq_pending *)
Definition virtio_input_irq_pending (v : Z) s : bool := nz (InterruptStatus (vi_at s v)).

(** ** Registers *)

Definition reg_addr (r : Z) : Z := Z.shiftl r 2.

(* [virtio-input.c:654-715] virtio_input_reg_read *)
Definition virtio_input_reg_read (v addr size : Z) s : option Z * M :=
  let d := vi_at s v in
  if addr =? reg_addr VIRTIO_MagicValue then (Some 0x74726976, s)
  else if addr =? reg_addr VIRTIO_Version then (Some 2, s)
  else if addr =? reg_addr VIRTIO_DeviceID then (Some 18, s)
  else if addr =? reg_addr VIRTIO_VendorID then (Some VIRTIO_VENDOR_ID, s)
  else if addr =? reg_addr VIRTIO_DeviceFeatures then
    (Some (if DeviceFeaturesSel d =? 0 then VIRTIO_INPUT_FEATURES_0
           else if DeviceFeaturesSel d =? 1 then VIRTIO_INPUT_FEATURES_1 else 0), s)
  else if addr =? reg_addr VIRTIO_QueueNumMax then (Some VIRTIO_INPUT_QUEUE_NUM_MAX, s)
  else if addr =? reg_addr VIRTIO_QueueReady then (Some (b2z (ready (queue_at d (QueueSel d)))), s)
  else if addr =? reg_addr VIRTIO_InterruptStatus then (Some (InterruptStatus d), s)
  else if addr =? reg_addr VIRTIO_Status then (Some (Status d), s)
  else if addr =? reg_addr VIRTIO_ConfigGeneration then (Some 0, s)
  else if addr =? VIRTIO_INPUT_REG_SIZE then
    let p := PRIV s v in
    let s := on_cfg p (virtio_input_cfg_read (vd_type (data_at s p))) s in
    (Some (cfg_size (vd_cfg (data_at s p))), s)
  else if negb (RANGE_CHECK addr (reg_addr VIRTIO_Config) sizeof_input_config) then (None, s)
  else
    let offset := addr - VIRTIO_INPUT_REG_SELECT in
    let bytes := cfg_bytes (vd_cfg (data_at s (PRIV s v))) in
    let s := if (0 <=? offset) && (offset + size <=? sizeof_input_config) then s
             else on_dev (fun d => d <| cfg_oob := true |>) s in
    (Some (le_value (take (Z.to_nat size) (drop (Z.to_nat offset) bytes))), s).

(** The check of a queue whose [ready] bit is set. *)
(* [virtio-input.c:748-769] virtio_input_reg_write *)
Definition rings_fit (q : virtq_t) : bool :=
  let qnum := QueueNum q in
  let ram_words := RAM_SIZE / 4 in
  negb ((qnum =? 0) || (ram_words <=? u32 (QueueAvail q + 1 + (qnum - 1) / 2))
        || (ram_words <? u32 (QueueDesc q + qnum * 4)) || (ram_words <=? u32 (QueueUsed q + qnum * 2))).

(** [VIRTIO_INPUT_QUEUE.field = virtio_input_preprocess(vinput, value)] *)
Definition set_input_addr (f : Z -> virtq_t -> virtq_t) (value : Z) (d : virtio_state) : virtio_state :=
  let '(a, d) := virtio_input_preprocess d value in upd_queue (QueueSel d) (f a) d.

(* [virtio-input.c:717-828] virtio_input_reg_write *)
Definition virtio_input_reg_write (v addr value : Z) s : bool * M :=
  let d := vi_at s v in
  let regs f := (true, on_vi v f s) in
  let nop := (true, s) in
  let fail := (true, on_vi v virtio_input_set_fail s) in
  if addr =? reg_addr VIRTIO_DeviceFeaturesSel then regs (fun d => d <| DeviceFeaturesSel := value |>)
  else if addr =? reg_addr VIRTIO_DriverFeatures then
    if DriverFeaturesSel d =? 0 then regs (fun d => d <| DriverFeatures := value |>) else nop
  else if addr =? reg_addr VIRTIO_DriverFeaturesSel then regs (fun d => d <| DriverFeaturesSel := value |>)
  else if addr =? reg_addr VIRTIO_QueueSel then
    if value <? Z.of_nat (length (queues d)) then regs (fun d => d <| QueueSel := value |>) else fail
  else if addr =? reg_addr VIRTIO_QueueNum then
    if (0 <? value) && (value <=? VIRTIO_INPUT_QUEUE_NUM_MAX)
    then regs (upd_queue (QueueSel d) (fun q => q <| QueueNum := value |>)) else fail
  else if addr =? reg_addr VIRTIO_QueueReady then
    let rdy := nz (Z.land value 1) in
    let s := on_vi v (upd_queue (QueueSel d) (fun q => q <| ready := rdy |>)) s in
    if rdy then
      let q := queue_at d (QueueSel d) in
      if negb (rings_fit q) then (true, on_vi v virtio_input_set_fail s)
      else
        let '(w, s) := ram_get (QueueAvail q) s in
        (true, on_vi v (upd_queue (QueueSel d) (fun q => q <| last_avail := u16 (Z.shiftr w 16) |>)) s)
    else (true, s)
  else if addr =? reg_addr VIRTIO_QueueDescLow then
    regs (set_input_addr (fun a q => q <| QueueDesc := a |>) value)
  else if addr =? reg_addr VIRTIO_QueueDescHigh then if nz value then fail else nop
  else if addr =? reg_addr VIRTIO_QueueDriverLow then
    regs (set_input_addr (fun a q => q <| QueueAvail := a |>) value)
  else if addr =? reg_addr VIRTIO_QueueDriverHigh then if nz value then fail else nop
  else if addr =? reg_addr VIRTIO_QueueDeviceLow then
    regs (set_input_addr (fun a q => q <| QueueUsed := a |>) value)
  else if addr =? reg_addr VIRTIO_QueueDeviceHigh then if nz value then fail else nop
  else if addr =? reg_addr VIRTIO_QueueNotify then
    if Z.of_nat (length (queues d)) <=? value then fail
    else if value =? VIRTIO_INPUT_STATUSQ then (true, virtio_input_drain_statusq v s) else nop
  else if addr =? reg_addr VIRTIO_InterruptACK then
    regs (fun d => d <| InterruptStatus := Z.land (InterruptStatus d) (not32 value) |>)
  else if addr =? reg_addr VIRTIO_Status then (true, virtio_input_update_status v value s)
  else if addr =? reg_addr VIRTIO_SHMSel then nop
  else if addr =? VIRTIO_INPUT_REG_SELECT then
    (true, on_cfg (PRIV s v) (fun c => c <| cfg_select := u8 value |>) s)
  else if addr =? VIRTIO_INPUT_REG_SUBSEL then
    (true, on_cfg (PRIV s v) (fun c => c <| cfg_subsel := u8 value |>) s)
  else (false, s).

(** Alignment rules: common registers by aligned words only, the configuration
    window by naturally aligned accesses of any size. *)
Definition input_misaligned (addr access_size : Z) : bool :=
  if negb (virtio_input_is_config_access addr access_size)
  then negb (access_size =? 4) || nz (Z.land addr 3)
  else nz (Z.land addr (access_size - 1)).

(* [virtio-input.c:830-877] virtio_input_read *)
Definition virtio_input_read (v addr width : Z) s : option Z * M :=
  let access access_size :=
    if input_misaligned addr access_size then (None, raise RV_EXC_LOAD_MISALIGN (exc_val (hart s)) s)
    else match virtio_input_reg_read v addr access_size s with
         | (Some x, s) => (Some x, s)
         | (None, s) => (None, raise RV_EXC_LOAD_FAULT (exc_val (hart s)) s)
         end in
  if width =? RV_MEM_LW then access 4
  else if (width =? RV_MEM_LBU) || (width =? RV_MEM_LB) then access 1
  else if (width =? RV_MEM_LHU) || (width =? RV_MEM_LH) then access 2
  else (None, raise RV_EXC_ILLEGAL_INSN 0 s).

(* [virtio-input.c:879-925] virtio_input_write *)
Definition virtio_input_write (v addr width value : Z) s : M :=
  let access access_size :=
    if input_misaligned addr access_size then raise RV_EXC_STORE_MISALIGN (exc_val (hart s)) s
    else let '(ok, s) := virtio_input_reg_write v addr value s in
         if ok then s else raise RV_EXC_STORE_FAULT (exc_val (hart s)) s in
  if width =? RV_MEM_SW then access 4
  else if width =? RV_MEM_SB then access 1
  else if width =? RV_MEM_SH then access 2
  else raise RV_EXC_ILLEGAL_INSN 0 s.

(* [virtio-input.c:935-949] virtio_input_init *)
Definition virtio_input_init (v : Z) s : M :=
  let n := vinput_dev_cnt (dev s) in
  if VINPUT_DEV_CNT <=? n then on_dev (fun d => d <| init_exit := true |>) s
  else
    on_dev (fun d =>
      d <| vinputs := arr_set (vinputs d) v ((vinput_at s v) <| vi_priv := n |>) |>
        <| vinput_dev := arr_set (vinput_dev d) n
             ((data_at s n) <| vd_type := n |> <| vd_vinput := Some v |>) |>
        <| vinput_dev_cnt := n + 1 |>) s.

(** The input part of the peripheral tick, up to the PLIC lines: drain if the
    gate is raised. *)
(* [main.c:256-269] emu_tick_peripherals *)
Definition input_tick (s : M) : option M :=
  if vinput_may_have_pending_cmds (vhost (dev s)) then virtio_input_drain_host_events s else Some s.
