(* ===== verification/InputProps.v ===== *)
(** * Properties of the input devices *)

From stdpp Require Import base gmap list.
From Stdlib Require Import ZArith Lia Bool.
From S2P Require Import Prelude Isa Hart Machine RamProps Tlb Loops Device Virtio VirtioProps.
From S2P Require Import DmaProps.
From S2P Require Import InputCodes InputEvent InputConc InputQueue VirtioInput.
Open Scope Z_scope.

Implicit Types s : M.

(** ** Well-formed device state *)

Definition queue_regs_ok (q : virtq_t) : Prop :=
  0 <= QueueNum q <= VIRTIO_INPUT_QUEUE_NUM_MAX /\ 0 <= QueueDesc q < RAM_SIZE / 4 /\
  0 <= QueueAvail q < RAM_SIZE / 4 /\ 0 <= QueueUsed q < RAM_SIZE / 4 /\ 0 <= last_avail q < 2 ^ 16.

Definition regs_ok (d : virtio_state) : Prop :=
  length (queues d) = 2%nat /\ 0 <= QueueSel d < 2 /\ Forall queue_regs_ok (queues d).

Definition cfg_ok (c : virtio_input_config) : Prop :=
  is_byte (cfg_select c) /\ is_byte (cfg_subsel c) /\ is_byte (cfg_size c) /\
  length (cfg_reserved c) = 5%nat /\ Forall is_byte (cfg_reserved c) /\
  length (cfg_u c) = Z.to_nat VIRTIO_INPUT_CFG_PAYLOAD_SIZE /\ Forall is_byte (cfg_u c).

(** The structures have their C types: array lengths, field widths, valid
    pointers; and nothing undefined has happened. *)
Record input_wf (d : input_dev) : Prop := {
  iw_vinputs : length (vinputs d) = 2%nat /\
    Forall (fun v => regs_ok (vi_regs v) /\ 0 <= vi_priv v < VINPUT_DEV_CNT) (vinputs d);
  iw_data : length (vinput_dev d) = 2%nat /\
    Forall (fun x => cfg_ok (vd_cfg x) /\ 0 <= vd_type x < VINPUT_DEV_CNT) (vinput_dev d);
  iw_host : host_ok (vhost d);
  iw_safe : cfg_oob d = false /\ in_div_zero d = false }.

Lemma zero_queue_ok : queue_regs_ok zero_queue.
Proof. vm_compute. intuition discriminate. Qed.
Lemma zero_virtio_ok : regs_ok (zero_virtio 2).
Proof. split_and!; cbn; try lia. repeat constructor; apply zero_queue_ok. Qed.

Lemma queue_at_ok d i : regs_ok d -> queue_regs_ok (queue_at d i).
Proof. intros (_ & _ & H). apply (arr_get_Forall queue_regs_ok); [apply zero_queue_ok|done]. Qed.

Lemma arr_set_Forall {A} (P : A -> Prop) l i x : Forall P l -> P x -> Forall P (arr_set l i x).
Proof. intros. by apply Forall_insert. Qed.

Lemma upd_queue_ok i f d : regs_ok d -> queue_regs_ok (f (queue_at d i)) -> regs_ok (upd_queue i f d).
Proof.
  intros (L & S & F) Hf. split_and!; [|apply S|apply S|].
  - cbn. by rewrite length_arr_set.
  - cbn. by apply arr_set_Forall.
Qed.

Lemma set_fail_ok d : regs_ok d -> regs_ok (virtio_input_set_fail d).
Proof. intros H. unfold virtio_input_set_fail. cbv zeta. by case_match. Qed.

Lemma vinput_at_ok s v : input_wf (dev s) ->
  regs_ok (vi_at s v) /\ 0 <= PRIV s v < VINPUT_DEV_CNT.
Proof.
  intros [[_ F] _ _ _]. unfold vi_at, PRIV, vinput_at.
  apply (arr_get_Forall (fun v => regs_ok (vi_regs v) /\ 0 <= vi_priv v < VINPUT_DEV_CNT)); [|done].
  split; [apply zero_virtio_ok|cbn; unfold VINPUT_DEV_CNT; lia].
Qed.

Lemma data_at_ok s i : input_wf (dev s) -> cfg_ok (vd_cfg (data_at s i)) /\ 0 <= vd_type (data_at s i) < VINPUT_DEV_CNT.
Proof.
  intros [_ [_ F] _ _]. unfold data_at.
  apply (arr_get_Forall (fun x => cfg_ok (vd_cfg x) /\ 0 <= vd_type x < VINPUT_DEV_CNT)); [|done].
  split; [|cbn; unfold VINPUT_DEV_CNT; lia].
  unfold cfg_ok, is_byte. cbn [vd_cfg zero_vdata zero_icfg cfg_select cfg_subsel cfg_size cfg_reserved cfg_u].
  split_and!; try lia; try reflexivity; unfold zero_payload; apply Forall_replicate; lia.
Qed.

Lemma wf_on_vi v f s : input_wf (dev s) -> (regs_ok (vi_at s v) -> regs_ok (f (vi_at s v))) ->
  input_wf (dev (on_vi v f s)).
Proof.
  intros W Hf. destruct (vinput_at_ok s v W) as [R P]. destruct W as [[L F] D H S]. constructor; try done.
  split; [by cbn; rewrite length_arr_set|]. cbn. apply arr_set_Forall; [done|]. split; [by apply Hf|done].
Qed.

Lemma wf_on_cfg i f s : input_wf (dev s) -> (cfg_ok (vd_cfg (data_at s i)) -> cfg_ok (f (vd_cfg (data_at s i)))) ->
  input_wf (dev (on_cfg i f s)).
Proof.
  intros W Hf. destruct (data_at_ok s i W) as [R P]. destruct W as [V [L F] H S]. constructor; try done.
  split; [by cbn; rewrite length_arr_set|]. cbn. apply arr_set_Forall; [done|]. split; [by apply Hf|done].
Qed.

Lemma wf_dev s s' : dev s' = dev s -> input_wf (dev s) -> input_wf (dev s').
Proof. by intros ->. Qed.

Lemma wf_on_vhost f s : input_wf (dev s) -> host_ok (f (vhost (dev s))) -> input_wf (dev (on_vhost f s)).
Proof. intros [V D H S] Hf. by constructor. Qed.

Lemma preprocess_ok d a : 0 <= a -> regs_ok d ->
  0 <= fst (virtio_input_preprocess d a) < RAM_SIZE / 4 /\ regs_ok (snd (virtio_input_preprocess d a)) /\
  queues (snd (virtio_input_preprocess d a)) = queues d.
Proof.
  intros Ha R. unfold virtio_input_preprocess. destruct (Z.leb_spec RAM_SIZE a); cbn [orb].
  { split_and!; cbn [fst snd]; try done; [by apply set_fail_ok|].
    unfold virtio_input_set_fail. cbv zeta. by case_match. }
  destruct (nz (Z.land a 3)); cbn [fst snd].
  { split_and!; try done; [by apply set_fail_ok|]. unfold virtio_input_set_fail. cbv zeta. by case_match. }
  rewrite Z.shiftr_div_pow2 by lia. change (2 ^ 2) with 4. split_and!; try done; unfold RAM_SIZE in *;
    Z.div_mod_to_equations; lia.
Qed.

(** ** The configuration window *)

Definition payload_okb (u : list Z) : bool :=
  Nat.eqb (length u) (Z.to_nat VIRTIO_INPUT_CFG_PAYLOAD_SIZE) && forallb (fun b => (0 <=? b) && (b <? 256)) u.

Lemma payload_okb_true u : payload_okb u = true ->
  length u = Z.to_nat VIRTIO_INPUT_CFG_PAYLOAD_SIZE /\ Forall is_byte u.
Proof.
  unfold payload_okb. intros [H1 H2]%andb_prop. split; [by apply Nat.eqb_eq|].
  apply Forall_forall. intros x Hx. rewrite forallb_forall in H2.
  apply list_elem_of_In in Hx. apply H2, andb_prop in Hx as [? ?]. unfold is_byte. lia.
Qed.

(** Any new payload and size of the right types keep the structure well formed. *)
Lemma cfg_ok_payload c u n : cfg_ok c -> payload_okb u = true -> is_byte n ->
  cfg_ok (c <| cfg_u := u |> <| cfg_size := n |>).
Proof.
  intros (A & B & C & D & E & _) [H1 H2]%payload_okb_true Hn. unfold cfg_ok.
  cbn [cfg_select cfg_subsel cfg_size cfg_reserved cfg_u setter set_cfg_u set_cfg_size]. done.
Qed.

Lemma is_byte_u8 x : is_byte (u8 x).
Proof. apply Z.mod_pos_bound. lia. Qed.

Lemma set_bits_ok bits c : cfg_ok c -> payload_okb (foldl vinput_bitmap_set_bit zero_payload bits) = true ->
  cfg_ok (cfg_set_bits bits c).
Proof. intros Hc Hu. unfold cfg_set_bits. cbv zeta. apply cfg_ok_payload; [done|done|apply is_byte_u8]. Qed.

Lemma is_byte_0 : is_byte 0.
Proof. unfold is_byte. lia. Qed.

Lemma zero_payload_okb : payload_okb zero_payload = true.
Proof. vm_compute. reflexivity. Qed.

Lemma blank_ok c : cfg_ok c -> cfg_ok (c <| cfg_u := zero_payload |>).
Proof.
  intros Hc. pose proof (cfg_ok_payload c zero_payload (cfg_size c) Hc zero_payload_okb) as H.
  destruct Hc as (? & ? & Hs & _). specialize (H Hs). by destruct c.
Qed.

Lemma blank_size_ok c n : cfg_ok c -> is_byte n -> cfg_ok (c <| cfg_u := zero_payload |> <| cfg_size := n |>).
Proof. intros. apply cfg_ok_payload; [done|apply zero_payload_okb|done]. Qed.

Lemma key_bitmap_okb : payload_okb (snd (virtio_input_fill_ev_key_bitmap zero_payload VIRTIO_INPUT_CFG_PAYLOAD_SIZE)) = true.
Proof. vm_compute. reflexivity. Qed.

Ltac bits_ok := apply set_bits_ok; [by apply blank_ok|vm_compute; reflexivity].

Lemma properties_ok dev_id c : cfg_ok c -> cfg_ok (virtio_input_properties dev_id c).
Proof.
  intros Hc. unfold virtio_input_properties. cbv zeta. destruct (dev_id =? VINPUT_KEYBOARD_ID).
  { apply blank_size_ok; [done|apply is_byte_0]. }
  destruct (dev_id =? VINPUT_MOUSE_ID); [bits_ok|by apply blank_ok].
Qed.

Lemma keyboard_bits_ok event c : cfg_ok c -> cfg_ok (virtio_input_fill_keyboard_ev_bits event c).
Proof.
  intros Hc. unfold virtio_input_fill_keyboard_ev_bits. cbv zeta.
  change (cfg_u (c <| cfg_u := zero_payload |>)) with zero_payload.
  destruct (event =? SEMU_EV_KEY).
  { pose proof key_bitmap_okb as K. destruct (virtio_input_fill_ev_key_bitmap _ _) as [n u]. cbn [snd] in K.
    apply cfg_ok_payload; [by apply blank_ok|done|apply is_byte_u8]. }
  destruct (event =? SEMU_EV_LED); [bits_ok|]. destruct (event =? SEMU_EV_REP); [bits_ok|].
  apply blank_size_ok; [done|apply is_byte_0].
Qed.

Lemma mouse_bits_ok event c : cfg_ok c -> cfg_ok (virtio_input_fill_mouse_ev_bits event c).
Proof.
  intros Hc. unfold virtio_input_fill_mouse_ev_bits. cbv zeta.
  destruct (event =? SEMU_EV_KEY); [bits_ok|]. destruct (event =? SEMU_EV_REL); [bits_ok|].
  apply blank_size_ok; [done|apply is_byte_0].
Qed.

Lemma cfg_string_ok str c : cfg_ok c -> payload_okb (put_payload (string_bytes str ++ [0]) (cfg_u c)) = true ->
  cfg_ok (cfg_string str c).
Proof. intros. unfold cfg_string. apply cfg_ok_payload; [done|done|apply is_byte_u8]. Qed.

Lemma cfg_read_ok dev_id c : cfg_ok c -> cfg_ok (virtio_input_cfg_read dev_id c).
Proof.
  intros Hc. unfold virtio_input_cfg_read. cbv zeta. pose proof (blank_size_ok c 0 Hc is_byte_0) as H0.
  assert (U : cfg_u (c <| cfg_u := zero_payload |> <| cfg_size := 0 |>) = zero_payload) by reflexivity.
  set (c0 := c <| cfg_u := zero_payload |> <| cfg_size := 0 |>) in *. clearbody c0.
  destruct (cfg_select c0 =? VIRTIO_INPUT_CFG_UNSET); [exact H0|].
  destruct (cfg_select c0 =? VIRTIO_INPUT_CFG_ID_NAME).
  { apply cfg_string_ok; [exact H0|]. rewrite U. unfold vinput_dev_name.
    destruct (dev_id =? VINPUT_KEYBOARD_ID); vm_compute; reflexivity. }
  destruct (cfg_select c0 =? VIRTIO_INPUT_CFG_ID_SERIAL).
  { apply cfg_string_ok; [exact H0|]. rewrite U. vm_compute. reflexivity. }
  destruct (cfg_select c0 =? VIRTIO_INPUT_CFG_ID_DEVIDS).
  { rewrite U. apply cfg_ok_payload; [exact H0|vm_compute; reflexivity|unfold is_byte; lia]. }
  destruct (cfg_select c0 =? VIRTIO_INPUT_CFG_PROP_BITS); [by apply properties_ok|].
  destruct (cfg_select c0 =? VIRTIO_INPUT_CFG_EV_BITS).
  { unfold virtio_input_fill_ev_bits. destruct (dev_id =? VINPUT_KEYBOARD_ID); [by apply keyboard_bits_ok|].
    destruct (dev_id =? VINPUT_MOUSE_ID); [by apply mouse_bits_ok|exact H0]. }
  destruct (cfg_select c0 =? VIRTIO_INPUT_CFG_ABS_INFO); [|exact H0].
  unfold virtio_input_fill_abs_info. pose proof (blank_size_ok c0 0 H0 is_byte_0) as H1.
  rewrite <- U in H1. by destruct c0.
Qed.

Lemma length_cfg_bytes c : cfg_ok c -> Z.of_nat (length (cfg_bytes c)) = sizeof_input_config.
Proof. intros (_ & _ & _ & D & _ & H & _). unfold cfg_bytes. rewrite !length_app, D, H. reflexivity. Qed.

(** An access that passes the alignment rules and the range check stays inside
    the structure. *)
Lemma config_access_inside addr size : 0 <= addr < 2 ^ 31 -> size = 1 \/ size = 2 \/ size = 4 ->
  input_misaligned addr size = false -> RANGE_CHECK addr (reg_addr VIRTIO_Config) sizeof_input_config = true ->
  0 <= addr - VIRTIO_INPUT_REG_SELECT /\ addr - VIRTIO_INPUT_REG_SELECT + size <= sizeof_input_config.
Proof.
  intros Ha Hs Hm Hr. unfold RANGE_CHECK in Hr. change (reg_addr VIRTIO_Config) with 0x100 in Hr.
  change sizeof_input_config with 136 in *. unfold VIRTIO_INPUT_REG_SELECT.
  assert (R : 0x100 <= addr < 0x188).
  { apply Z.leb_le in Hr. unfold s32, sext in Hr.
    set (x := u32 (addr - 256)) in Hr. set (y := u32 (256 + 136 - 1 - addr)) in Hr.
    assert (Hx : is_u32 x) by apply u32_range. assert (Hy : is_u32 y) by apply u32_range.
    assert (L : Z.lor x y < 2 ^ 31).
    { cbv zeta in Hr. rewrite Z.mod_small in Hr by (apply lor_is_u32; done).
      destruct (Z.ltb_spec (Z.lor x y) (2 ^ (32 - 1))) as [?|Hge]; [done|].
      pose proof (lor_is_u32 x y Hx Hy) as [_ ?]. lia. }
    assert (x < 2 ^ 31 /\ y < 2 ^ 31) as [Lx Ly].
    { split; (eapply Z.le_lt_trans; [|exact L]).
      - apply Z.ldiff_le; [apply Z.lor_nonneg; split; [apply Hx|apply Hy]|]. apply Z.bits_inj'. intros n Hn.
        rewrite Z.ldiff_spec, Z.lor_spec, Z.bits_0. by destruct (Z.testbit x n), (Z.testbit y n).
      - apply Z.ldiff_le; [apply Z.lor_nonneg; split; [apply Hx|apply Hy]|]. apply Z.bits_inj'. intros n Hn.
        rewrite Z.ldiff_spec, Z.lor_spec, Z.bits_0. by destruct (Z.testbit x n), (Z.testbit y n). }
    unfold x, y, u32 in Lx, Ly. change (2 ^ 32) with 4294967296 in *. change (2 ^ 31) with 2147483648 in *.
    Z.div_mod_to_equations. lia. }
  unfold input_misaligned, virtio_input_is_config_access in Hm. cbv zeta in Hm.
  change (Z.shiftl VIRTIO_Config 2) with 256 in Hm. change (u32 (256 + sizeof_input_config)) with 392 in Hm.
  destruct (Z.eqb_spec size 0); [lia|]. destruct (Z.ltb_spec addr 256); [lia|].
  destruct (Z.ltb_spec 392 (addr + size)); [|lia]. cbn [negb] in Hm.
  destruct (Z.eqb_spec size 4) as [->|]; cbn [orb negb] in Hm; [|discriminate Hm].
  assert (addr mod 4 = 0).
  { unfold nz in Hm. change 3 with (Z.ones 2) in Hm. rewrite Z.land_ones in Hm by lia.
    destruct (Z.eqb_spec (addr mod 2 ^ 2) 0); done. }
  Z.div_mod_to_equations. lia.
Qed.

Lemma reg_read_wf v addr size s : input_wf (dev s) -> 0 <= addr < 2 ^ 31 -> size = 1 \/ size = 2 \/ size = 4 ->
  input_misaligned addr size = false -> input_wf (dev (snd (virtio_input_reg_read v addr size s))).
Proof.
  intros W Ha Hs Hm. unfold virtio_input_reg_read. cbv zeta.
  repeat match goal with |- input_wf (dev (snd (if ?b then _ else _))) => destruct b eqn:? end; try done.
  - cbn [snd]. apply wf_on_cfg; [done|]. intros Hc. by apply cfg_read_ok.
  - destruct (config_access_inside addr size) as [H1 H2]; try done; [by apply negb_false_iff|].
    cbn [snd]. destruct (Z.leb_spec 0 (addr - VIRTIO_INPUT_REG_SELECT)); [|lia].
    destruct (Z.leb_spec (addr - VIRTIO_INPUT_REG_SELECT + size) sizeof_input_config); [done|lia].
Qed.

Lemma read_wf v addr width s : input_wf (dev s) -> 0 <= addr < 2 ^ 31 ->
  input_wf (dev (snd (virtio_input_read v addr width s))).
Proof.
  intros W Ha. unfold virtio_input_read. cbv zeta.
  assert (A : forall n, n = 1 \/ n = 2 \/ n = 4 -> input_wf (dev (snd (
    if input_misaligned addr n then (None, raise RV_EXC_LOAD_MISALIGN (exc_val (hart s)) s)
    else match virtio_input_reg_read v addr n s with
         | (Some x, s) => (Some x, s)
         | (None, s) => (None, raise RV_EXC_LOAD_FAULT (exc_val (hart s)) s)
         end)))).
  { intros n Hn. destruct (input_misaligned addr n) eqn:E; [done|].
    pose proof (reg_read_wf v addr n s W Ha Hn E) as H.
    destruct (virtio_input_reg_read v addr n s) as [[x|] s']; done. }
  destruct (width =? RV_MEM_LW); [apply A; lia|].
  destruct ((width =? RV_MEM_LBU) || (width =? RV_MEM_LB)); [apply A; lia|].
  destruct ((width =? RV_MEM_LHU) || (width =? RV_MEM_LH)); [apply A; lia|done].
Qed.

(** ** Queues *)

(** A valid register file of a well-formed machine. *)
Lemma vinputs_len s v : input_wf (dev s) -> 0 <= v < 2 -> 0 <= v < Z.of_nat (length (vinputs (dev s))).
Proof. intros [[-> _] _ _ _]. lia. Qed.

Lemma vi_at_on_vi v f s : input_wf (dev s) -> 0 <= v < 2 -> vi_at (on_vi v f s) v = f (vi_at s v).
Proof.
  intros W Hv. unfold vi_at at 1, vinput_at. cbn. rewrite arr_get_set_eq; [done|]. by apply vinputs_len.
Qed.

Lemma vi_at_dev s s' v : dev s' = dev s -> vi_at s' v = vi_at s v.
Proof. unfold vi_at, vinput_at. by intros ->. Qed.

Lemma queue_at_upd d i f : regs_ok d -> 0 <= i < 2 -> queue_at (upd_queue i f d) i = f (queue_at d i).
Proof. intros (L & _) Hi. unfold queue_at at 1, upd_queue. cbn. apply arr_get_set_eq. rewrite L. lia. Qed.

(** The queue, when its rings are inside RAM. *)
Lemma rings_fit_bounds q : queue_regs_ok q -> rings_fit q = true ->
  0 < QueueNum q /\ QueueAvail q + 1 + (QueueNum q - 1) / 2 < RAM_SIZE / 4 /\
  QueueDesc q + QueueNum q * 4 <= RAM_SIZE / 4 /\ QueueUsed q + QueueNum q * 2 < RAM_SIZE / 4.
Proof.
  unfold queue_regs_ok, rings_fit, VIRTIO_INPUT_QUEUE_NUM_MAX, RAM_SIZE.
  change (512 * 1024 * 1024 / 4) with 134217728. cbv zeta. intros (A & B & C & D & _).
  rewrite negb_true_iff, !orb_false_iff. intros [[[H1 H2] H3] H4]. apply Z.eqb_neq in H1.
  pose proof (Z.div_le_upper_bound (QueueNum q - 1) 2 1024). pose proof (Z.div_pos (QueueNum q - 1) 2).
  rewrite u32_id in H2, H3, H4 by (unfold is_u32; lia). lia.
Qed.

Definition fits (q : virtq_t) : Prop := rings_fit q = true.

Section Consume.
Context (q : virtq_t) (Hq : queue_regs_ok q).

Lemma next_buffer_mem s : 0 < QueueNum q -> exists b s',
  next_buffer q s = Some (b, s') /\ 0 <= b < 2 ^ 16 /\ mem_step (fits q) s s'.
Proof using Hq.
  intros Hn. unfold next_buffer. destruct (Z.eqb_spec (QueueNum q) 0); [lia|]. cbv zeta.
  set (idx := u16 (last_avail q mod QueueNum q)).
  pose proof (avail_entry_u16 q idx s) as B. pose proof (mem_avail_entry (fits q) q idx s) as Hm.
  destruct (avail_entry q idx s) as [b s'] eqn:Ea. cbn [fst snd] in *. exists b, s'. split_and!; try done; try lia.
  apply Hm. intros F. destruct (rings_fit_bounds q Hq F) as (_ & F1 & _). destruct Hq as (N & _ & A & _ & L).
  assert (0 <= idx <= QueueNum q - 1) as Hi.
  { unfold idx, u16. pose proof (Z.mod_pos_bound (last_avail q) (QueueNum q)).
    unfold VIRTIO_INPUT_QUEUE_NUM_MAX in N. rewrite Z.mod_small by lia. lia. }
  pose proof (Z.div_le_mono idx (QueueNum q - 1) 2). lia.
Qed.

Lemma input_desc_mem b s : 0 <= b < QueueNum q -> exists a ah l f s',
  input_desc q b s = (a, ah, l, f, s') /\ mem_step (fits q) s s' /\ (ram_ok (ram s) -> 0 <= a).
Proof using Hq.
  intros Hb. unfold input_desc, ram_get. cbv zeta. do 5 eexists. split_and!; [reflexivity| |].
  - assert (B : fits q -> u32 (QueueDesc q + b * 4) = QueueDesc q + b * 4 /\
              0 <= QueueDesc q + b * 4 /\ QueueDesc q + b * 4 + 3 < RAM_SIZE / 4).
    { intros F. destruct (rings_fit_bounds q Hq F) as (_ & _ & F1 & _). destruct Hq as (N & A & _).
      unfold VIRTIO_INPUT_QUEUE_NUM_MAX, RAM_SIZE in *. change (512 * 1024 * 1024 / 4) with 134217728 in *.
      rewrite u32_id by (unfold is_u32; lia). lia. }
    eapply mem_trans; [apply mem_touch|eapply mem_trans; [apply mem_touch|eapply mem_trans; apply mem_touch]];
      intros F; destruct (B F) as (-> & ? & ?); apply word_in_ram; lia.
  - intros R. apply R.
Qed.
End Consume.

Lemma event_bytes_ok e : Forall is_byte (event_bytes e) /\ length (event_bytes e) = 8%nat.
Proof.
  split; [|done]. unfold event_bytes, le_bytes. repeat (apply Forall_app; split);
    apply Forall_fmap, Forall_forall; intros k _; apply Z.mod_pos_bound; lia.
Qed.

(** Advance the queue over [n] entries. *)
Definition advance (i n : Z) (d : virtio_state) : virtio_state :=
  upd_queue i (fun q => q <| last_avail := u16 (last_avail q + n) |>) d.

Lemma advance_ok i n d : regs_ok d -> regs_ok (advance i n d).
Proof.
  intros R. apply upd_queue_ok; [done|]. destruct (queue_at_ok d i R) as (A & B & C & D & _). split_and!; try apply A;
    try apply B; try apply C; try apply D; apply Z.mod_pos_bound; lia.
Qed.

Lemma arr_set_set {A} (l : list A) i x y : arr_set (arr_set l i x) i y = arr_set l i y.
Proof. unfold arr_set. apply list_insert_insert_eq. Qed.

Lemma arr_set_get {A} (d : A) l i : arr_set l i (arr_get d l i) = l.
Proof.
  unfold arr_set, arr_get. destruct (l !! Z.to_nat i) eqn:E; [by apply list_insert_id|].
  apply list_insert_ge. by apply lookup_ge_None.
Qed.

Lemma upd_queue_ext i f g d : f (queue_at d i) = g (queue_at d i) -> upd_queue i f d = upd_queue i g d.
Proof. unfold upd_queue. by intros ->. Qed.

Lemma upd_queue_upd i f g d : regs_ok d -> 0 <= i < 2 ->
  upd_queue i g (upd_queue i f d) = upd_queue i (fun q => g (f q)) d.
Proof.
  intros R Hi. unfold upd_queue at 1. rewrite queue_at_upd by done. unfold upd_queue.
  change (queues (d <| queues := ?x |>)) with x. rewrite arr_set_set. by destruct d.
Qed.

Lemma advance_advance i n m d : regs_ok d -> 0 <= i < 2 ->
  advance i m (advance i n d) = advance i (n + m) d.
Proof.
  intros R Hi. unfold advance. rewrite upd_queue_upd by done. apply upd_queue_ext.
  destruct (queue_at d i) as [n0 a b c la rd]. cbn.
  assert (E : u16 (u16 (la + n) + m) = u16 (la + (n + m))).
  { unfold u16. rewrite Zplus_mod_idemp_l. f_equal. lia. }
  by rewrite E.
Qed.

Lemma advance_0 i d : regs_ok d -> advance i 0 d = d.
Proof.
  intros R. unfold advance, upd_queue. destruct (queue_at_ok d i R) as (_ & _ & _ & _ & L).
  assert (E : (queue_at d i) <| last_avail := u16 (last_avail (queue_at d i) + 0) |> = queue_at d i).
  { unfold u16. rewrite Z.add_0_r, Z.mod_small by lia. by destruct (queue_at d i). }
  rewrite E. unfold queue_at. rewrite arr_set_get. by destruct d.
Qed.

Definition needs_reset (d : virtio_state) : Prop := Z.testbit (Status d) 6 = true.

Lemma set_fail_needs_reset d : needs_reset (virtio_input_set_fail d).
Proof.
  unfold needs_reset, virtio_input_set_fail. cbv zeta.
  assert (B : forall x, Z.testbit (Z.lor x VIRTIO_STATUS__DEVICE_NEEDS_RESET) 6 = true)
    by (intros x; rewrite Z.lor_spec; apply orb_true_r).
  case_match; apply B.
Qed.

(** ** Consuming buffers *)

Lemma dev_on_vi v f s s' : dev s' = dev s -> dev (on_vi v f s') = dev (on_vi v f s).
Proof. intros E. unfold on_vi, vi_at, vinput_at. cbn. by rewrite E. Qed.

Lemma dev_on_vi_twice v f g s : input_wf (dev s) -> 0 <= v < 2 ->
  dev (on_vi v g (on_vi v f s)) = dev (on_vi v (fun d => g (f d)) s).
Proof.
  intros W Hv. unfold on_vi at 1. rewrite vi_at_on_vi by done. unfold vinput_at at 1.
  cbn [dev on_dev setter set_dev on_vi]. cbn. rewrite arr_get_set_eq by (by apply vinputs_len). cbn.
  rewrite arr_set_set. done.
Qed.

Lemma dev_on_vi_ext v f g s : f (vi_at s v) = g (vi_at s v) -> dev (on_vi v f s) = dev (on_vi v g s).
Proof. unfold on_vi. by intros ->. Qed.

Lemma vi_at_of_dev v f s s' : input_wf (dev s) -> 0 <= v < 2 -> dev s' = dev (on_vi v f s) ->
  vi_at s' v = f (vi_at s v).
Proof. intros W Hv E. rewrite (vi_at_dev _ _ v E). by apply vi_at_on_vi. Qed.

(** What a completed step on register file [v] has done: [f] to the registers,
    memory accesses in RAM if [P]. *)
Record dev_step (v : Z) (P : Prop) (f : virtio_state -> virtio_state) (s s' : M) : Prop := {
  ds_dev : dev s' = dev (on_vi v f s);
  ds_ram : ram_ok (ram s) -> ram_ok (ram s');
  ds_oob : P -> ram_oob s' = ram_oob s }.

Lemma dev_step_on_vi v P f s : dev_step v P f s (on_vi v f s).
Proof. done. Qed.

Lemma dev_step_mem v P s s' : input_wf (dev s) -> 0 <= v < 2 -> mem_step P s s' -> dev_step v P (fun d => d) s s'.
Proof.
  intros W Hv [D R O]. constructor; [|done|done]. rewrite D. unfold on_vi, vi_at, vinput_at. cbn.
  destruct (dev s) as [vs ds n h c i e] eqn:E. cbn. symmetry.
  replace ((arr_get zero_vinput vs v) <| vi_regs := vi_regs (arr_get zero_vinput vs v) |>)
    with (arr_get zero_vinput vs v) by (by destruct (arr_get zero_vinput vs v)).
  by rewrite arr_set_get.
Qed.

Lemma dev_step_trans v P f g s1 s2 s3 : input_wf (dev s1) -> 0 <= v < 2 ->
  dev_step v P f s1 s2 -> dev_step v P g s2 s3 -> dev_step v P (fun d => g (f d)) s1 s3.
Proof.
  intros W Hv [D1 R1 O1] [D2 R2 O2]. constructor; [|auto|].
  - rewrite D2, (dev_on_vi v g _ _ D1). by apply dev_on_vi_twice.
  - intros HP. by rewrite O2, O1.
Qed.

Lemma dev_step_ext v P f g s s' : f (vi_at s v) = g (vi_at s v) -> dev_step v P f s s' -> dev_step v P g s s'.
Proof. intros E [D R O]. constructor; try done. rewrite D. by apply dev_on_vi_ext. Qed.

Lemma dev_step_wf v P f s s' : input_wf (dev s) -> (regs_ok (vi_at s v) -> regs_ok (f (vi_at s v))) ->
  dev_step v P f s s' -> input_wf (dev s').
Proof. intros W Hf [D _ _]. rewrite D. by apply wf_on_vi. Qed.

(** The result of a loop that consumes buffers of queue [i]: it has advanced over
    [n] entries, or stopped the device, possibly after some entries. *)
Definition consumed (v i : Z) (P : Prop) (r : option Z) (s s' : M) : Prop :=
  match r with
  | Some n => dev_step v P (advance i n) s s'
  | None => exists k, dev_step v P (fun d => virtio_input_set_fail (advance i k d)) s s'
  end.

Lemma consumed_cons v i P r s s1 s' : input_wf (dev s) -> 0 <= v < 2 -> 0 <= i < 2 ->
  dev_step v P (advance i 1) s s1 -> consumed v i P r s1 s' ->
  consumed v i P ((fun n => 1 + n) <$> r) s s'.
Proof.
  intros W Hv Hi H1 H2. destruct (vinput_at_ok s v W) as [R _]. destruct r as [n|]; cbn in *.
  - eapply dev_step_ext; [|by eapply dev_step_trans]. cbv beta. by apply advance_advance.
  - destruct H2 as [k H2]. exists (1 + k). eapply dev_step_ext; [|by eapply dev_step_trans]. cbv beta.
    by rewrite advance_advance.
Qed.

Lemma consumed_fail v i P s s1 : input_wf (dev s) -> 0 <= v < 2 -> mem_step P s s1 ->
  consumed v i P None s (on_vi v virtio_input_set_fail s1).
Proof.
  intros W Hv Hm. exists 0. destruct (vinput_at_ok s v W) as [R _].
  eapply dev_step_ext; [|eapply dev_step_trans; [done|done|by apply dev_step_mem|apply dev_step_on_vi]].
  cbv beta. by rewrite advance_0.
Qed.

Lemma consumed_one v i P s s1 : input_wf (dev s) -> 0 <= v < 2 -> mem_step P s s1 ->
  dev_step v P (advance i 1) s (on_vq v i (fun q => q <| last_avail := u16 (last_avail q + 1) |>) s1).
Proof.
  intros W Hv Hm. eapply dev_step_ext;
    [|eapply dev_step_trans; [done|done|by apply dev_step_mem|apply dev_step_on_vi]]. done.
Qed.

Lemma queue_after v i s s1 P : input_wf (dev s) -> 0 <= v < 2 -> 0 <= i < 2 ->
  dev_step v P (advance i 1) s s1 ->
  vq s1 v i = (vq s v i) <| last_avail := u16 (last_avail (vq s v i) + 1) |>.
Proof.
  intros W Hv Hi [D _ _]. destruct (vinput_at_ok s v W) as [R _]. unfold vq.
  rewrite (vi_at_of_dev v (advance i 1) s s1 W Hv D). unfold advance. by rewrite queue_at_upd.
Qed.

Lemma put_events_spec v evs : forall used s, input_wf (dev s) -> 0 <= v < 2 -> ram_ok (ram s) ->
  0 < QueueNum (vq s v VIRTIO_INPUT_EVENTQ) -> 0 <= used < 2 ^ 16 ->
  let '(r, s') := put_events v evs used s in
  consumed v VIRTIO_INPUT_EVENTQ (fits (vq s v VIRTIO_INPUT_EVENTQ))
    ((fun _ => Z.of_nat (length evs)) <$> r) s s' /\
  (forall u, r = Some u -> u = u16 (used + Z.of_nat (length evs))).
Proof.
  induction evs as [|e evs IH]; intros used s W Hv Hr Hn Hu.
  { cbn [put_events]. split; [|intros u [= <-]; unfold u16; cbn [length]; rewrite Z.mod_small; lia].
    cbn. destruct (vinput_at_ok s v W) as [R _]. eapply dev_step_ext; [|apply dev_step_mem; [done|done|apply mem_refl]].
    cbv beta. by rewrite advance_0. }
  cbn [put_events]. set (q := vq s v VIRTIO_INPUT_EVENTQ) in *.
  assert (Hq : queue_regs_ok q) by (apply queue_at_ok; by apply vinput_at_ok).
  destruct (next_buffer_mem q Hq s Hn) as (b & s1 & -> & Hb & M1).
  destruct (Z.leb_spec (QueueNum q) b); [split; [by apply consumed_fail|done]|].
  destruct (input_desc_mem q Hq b s1) as (a & ah & l & f & s2 & -> & M2 & Ha); [lia|].
  pose proof (mem_trans _ _ _ _ M1 M2) as M12. specialize (Ha (ms_ram _ _ _ M1 Hr)).
  destruct (_ || _ || (l <? sizeof_input_event) || (RAM_SIZE - sizeof_input_event <? a)) eqn:Ec;
    [split; [by apply consumed_fail|done]|].
  apply orb_false_iff in Ec as [_ Ec]. apply Z.ltb_ge in Ec. destruct (event_bytes_ok e) as [Eb El].
  set (s3 := dma_write a (event_bytes e) s2).
  assert (M3 : mem_step (fits q) s s3).
  { eapply mem_trans; [exact M12|]. apply mem_dma_write; [done|]. intros _. rewrite El, in_ram_iff.
    unfold sizeof_input_event in Ec. lia. }
  set (s4 := used_append q used b sizeof_input_event s3).
  assert (M4 : mem_step (fits q) s s4).
  { eapply mem_trans; [exact M3|]. apply mem_used_append; [unfold is_u32; lia|unfold is_u32, sizeof_input_event; lia|].
    intros F. destruct (rings_fit_bounds q Hq F) as (_ & _ & _ & F1). destruct Hq as (N & _ & _ & U & _).
    unfold VIRTIO_INPUT_QUEUE_NUM_MAX in N. lia. }
  pose proof (consumed_one v VIRTIO_INPUT_EVENTQ _ s s4 W Hv M4) as S5. set (s5 := on_vq _ _ _ s4) in *.
  assert (W5 : input_wf (dev s5)) by (eapply dev_step_wf; [exact W|apply advance_ok|exact S5]).
  pose proof (queue_after v VIRTIO_INPUT_EVENTQ s s5 _ W Hv ltac:(unfold VIRTIO_INPUT_EVENTQ; lia) S5) as Q5. fold q in Q5.
  assert (F5 : fits (vq s5 v VIRTIO_INPUT_EVENTQ) = fits q) by (by rewrite Q5).
  specialize (IH (u16 (used + 1)) s5 W5 Hv (ds_ram _ _ _ _ _ S5 Hr)). rewrite Q5 in IH.
  assert (U1 : 0 <= u16 (used + 1) < 2 ^ 16) by (apply Z.mod_pos_bound; lia).
  specialize (IH Hn U1). destruct (put_events v evs (u16 (used + 1)) s5) as [r s6]. destruct IH as [I1 I2].
  change (fits (q <| last_avail := _ |>)) with (fits q) in I1.
  split.
  - pose proof (consumed_cons v VIRTIO_INPUT_EVENTQ _ _ s s5 s6 W Hv ltac:(unfold VIRTIO_INPUT_EVENTQ; lia) S5 I1) as C.
    destruct r; cbn [fmap option_fmap option_map] in *; [|done].
    replace (Z.of_nat (length (e :: evs))) with (1 + Z.of_nat (length evs)) by (cbn [length]; lia). done.
  - intros u Hru. rewrite (I2 u Hru). unfold u16. rewrite Z.add_mod_idemp_l by lia. f_equal. cbn [length]. lia.
Qed.

(** ** Event delivery *)

(** The driver's index and the device's used index, in RAM. *)
Definition avail_idx s (q : virtq_t) : Z := u16 (Z.shiftr (rd32 s (4 * QueueAvail q)) 16).
Definition used_idx s (q : virtq_t) : Z := u16 (Z.shiftr (rd32 s (4 * QueueUsed q)) 16).

Lemma header_in_ram q o : queue_regs_ok q -> o = QueueAvail q \/ o = QueueUsed q -> in_ram (4 * o) 4 = true.
Proof. intros (_ & _ & A & U & _) [-> | ->]; by apply word_in_ram. Qed.

(** Reading a ring header of a well-formed queue changes nothing. *)
Lemma header_get q o s : queue_regs_ok q -> o = QueueAvail q \/ o = QueueUsed q -> ram_get o s = (rd32 s (4 * o), s).
Proof. intros Hq Ho. unfold ram_get. by rewrite dma_touch_in_ram by (by eapply header_in_ram). Qed.

(** The handler: whether there was room, and what it then did. *)
Lemma desc_handler_spec v evs s : input_wf (dev s) -> 0 <= v < 2 -> ram_ok (ram s) ->
  let q := vq s v VIRTIO_INPUT_EVENTQ in
  let n := Z.of_nat (length evs) in
  0 < QueueNum q -> n < 2 ^ 16 ->
  let '(wrote, s') := virtio_input_desc_handler v evs s in
  if wrote then
    n <= pending (last_avail q) (avail_idx s q) /\
    dev_step v (fits q) (advance VIRTIO_INPUT_EVENTQ n) s s' /\
    rd32 s' (4 * QueueUsed q) = shl32 (u16 (used_idx s q + n)) 16
  else s' = s \/ exists k, dev_step v (fits q) (fun d => virtio_input_set_fail (advance VIRTIO_INPUT_EVENTQ k d)) s s'.
Proof.
  intros W Hv Hr. cbv zeta. set (q := vq s v VIRTIO_INPUT_EVENTQ). intros Hn Hlen.
  assert (Hq : queue_regs_ok q) by (apply queue_at_ok; by apply vinput_at_ok).
  unfold virtio_input_desc_handler. fold q. rewrite !(header_get q _ s Hq) by auto.
  fold (avail_idx s q). fold (used_idx s q). set (n := Z.of_nat (length evs)) in *.
  pose proof Hq as (N & _ & _ & _ & L).
  assert (A : 0 <= avail_idx s q < 2 ^ 16) by (apply Z.mod_pos_bound; lia).
  rewrite (u32_id (last_avail q + n)), (u32_id (avail_idx s q + 2 ^ 16)) by (unfold is_u32; lia).
  destruct (_ <? last_avail q + n) eqn:Eb; [by left|].
  assert (P : n <= pending (last_avail q) (avail_idx s q)).
  { apply Z.ltb_ge in Eb. unfold pending. destruct (Z.ltb_spec (avail_idx s q) (last_avail q)).
    - rewrite <- (Z.mod_add _ 1) by lia. rewrite Z.mod_small by lia. lia.
    - rewrite Z.mod_small by lia. lia. }
  assert (U : 0 <= used_idx s q < 2 ^ 16) by (apply Z.mod_pos_bound; lia).
  pose proof (put_events_spec v evs (used_idx s q) s W Hv Hr Hn U) as H. fold q in H. fold n in H.
  destruct (put_events v evs (used_idx s q) s) as [[u|] s1]; destruct H as [H1 H2]; cbn in H1; [|by right].
  rewrite (H2 u eq_refl). split_and!; [done| |].
  - assert (Hp : mem_step (fits q) s1 (put_used_hdr q (u16 (used_idx s q + n)) s1)).
    { apply mem_put; [apply u32_range|]. intros F. by apply (header_in_ram q _ Hq); right. }
    destruct H1 as [D R O], Hp as [D' R' O']. constructor; [congruence|auto|]. intros F. by rewrite O', O.
  - unfold put_used_hdr, ram_put, rd32, wr32. change (ram (_ <| ram := ?m |>)) with m. rewrite word_insert.
    by rewrite decide_True.
Qed.

(** What became of a group of events. *)
Inductive delivery (v : Z) (evs : list virtio_input_event) (s s' : M) : Prop :=
  | dropped : s' = s -> delivery v evs s s'
  | device_failed : needs_reset (vi_at s' v) -> delivery v evs s s'
  | delivered (q := vq s v VIRTIO_INPUT_EVENTQ) (n := Z.of_nat (length evs)) :
      n <= pending (last_avail q) (avail_idx s q) ->
      vq s' v VIRTIO_INPUT_EVENTQ = q <| last_avail := u16 (last_avail q + n) |> ->
      rd32 s' (4 * QueueUsed q) = shl32 (u16 (used_idx s q + n)) 16 ->
      (Z.testbit (rd32 s' (4 * QueueAvail q)) 0 = false -> Z.testbit (InterruptStatus (vi_at s' v)) 0 = true) ->
      delivery v evs s s'.

Lemma nz_land_1 x : nz (Z.land x 1) = Z.testbit x 0.
Proof.
  unfold nz. change 1 with (Z.ones 1). rewrite Z.land_ones by lia. change (2 ^ 1) with 2.
  rewrite <- Z.bit0_mod. by destruct (Z.testbit x 0).
Qed.

(** The interrupt bit. *)
Definition raise_used (d : virtio_state) : virtio_state :=
  d <| InterruptStatus := Z.lor (InterruptStatus d) VIRTIO_INT__USED_RING |>.

Lemma update_eventq_spec dev_id v evs s : input_wf (dev s) -> 0 <= v < 2 -> ram_ok (ram s) ->
  vd_vinput (data_at s dev_id) = Some v -> Z.of_nat (length evs) < 2 ^ 16 ->
  let s' := virtio_input_update_eventq dev_id evs s in
  delivery v evs s s' /\ input_wf (dev s') /\ ram_ok (ram s') /\ vhost (dev s') = vhost (dev s) /\
  vinput_dev (dev s') = vinput_dev (dev s) /\
  (fits (vq s v VIRTIO_INPUT_EVENTQ) -> ram_oob s' = ram_oob s).
Proof.
  intros W Hv Hr Hd Hn. cbv zeta. unfold virtio_input_update_eventq. rewrite Hd.
  set (q := vq s v VIRTIO_INPUT_EVENTQ). set (n := Z.of_nat (length evs)) in *.
  assert (Hq : queue_regs_ok q) by (apply queue_at_ok; by apply vinput_at_ok).
  assert (Drop : delivery v evs s s) by (by apply dropped).
  destruct (nz _); [split_and!; try done|]. destruct (negb _); [split_and!; try done|].
  rewrite (header_get q _ s Hq) by auto. fold (avail_idx s q).
  destruct (Z.ltb_spec (u16 (QueueNum q)) (u16 (avail_idx s q - last_avail q))) as [|Hdelta].
  { split_and!; try done; [|apply wf_on_vi; [done|apply set_fail_ok]].
    apply device_failed. rewrite vi_at_on_vi by done. apply set_fail_needs_reset. }
  destruct (Z.eqb_spec (last_avail q) (avail_idx s q)) as [|Hne]; [split_and!; try done|].
  assert (Hpos : 0 < QueueNum q).
  { destruct Hq as (N & _ & _ & _ & L). unfold VIRTIO_INPUT_QUEUE_NUM_MAX in N.
    assert (A : 0 <= avail_idx s q < 2 ^ 16) by (apply Z.mod_pos_bound; lia).
    destruct (Z.eq_dec (QueueNum q) 0) as [E0|]; [|lia]. rewrite E0 in Hdelta. unfold u16 in Hdelta.
    change (2 ^ 16) with 65536 in *. Z.div_mod_to_equations. lia. }
  pose proof (desc_handler_spec v evs s W Hv Hr Hpos Hn) as H. cbv zeta in H. fold q in H. fold n in H.
  destruct (virtio_input_desc_handler v evs s) as [[|] s1].
  - destruct H as (P & St & Hu). pose proof (ds_dev _ _ _ _ _ St) as D1.
    assert (W1 : input_wf (dev s1)) by (eapply dev_step_wf; [exact W|apply advance_ok|exact St]).
    pose proof (vi_at_of_dev v _ s s1 W Hv D1) as V1.
    assert (Q1 : vq s1 v VIRTIO_INPUT_EVENTQ = q <| last_avail := u16 (last_avail q + n) |>).
    { unfold vq. rewrite V1. unfold advance. rewrite queue_at_upd; [done|by apply vinput_at_ok|unfold VIRTIO_INPUT_EVENTQ; lia]. }
    rewrite (header_get q _ s1 Hq) by auto. rewrite nz_land_1.
    destruct (Z.testbit (rd32 s1 (4 * QueueAvail q)) 0) eqn:Ef.
    + split_and!; try done.
      * apply delivered; try done. fold q. by rewrite Ef.
      * by apply (ds_ram _ _ _ _ _ St).
      * by rewrite D1.
      * by rewrite D1.
      * by apply (ds_oob _ _ _ _ _ St).
    + fold raise_used. split_and!.
      * apply delivered; try done.
        -- fold q n. rewrite <- Q1. unfold vq. rewrite vi_at_on_vi by done. done.
        -- intros _. rewrite vi_at_on_vi by done. unfold raise_used.
           cbn [InterruptStatus setter set_InterruptStatus]. rewrite Z.lor_spec. apply orb_true_r.
      * apply wf_on_vi; done.
      * by apply (ds_ram _ _ _ _ _ St).
      * change (vhost (dev s1) = vhost (dev s)). by rewrite D1.
      * change (vinput_dev (dev s1) = vinput_dev (dev s)). by rewrite D1.
      * by apply (ds_oob _ _ _ _ _ St).
  - destruct H as [-> | [k St]]; [split_and!; try done|]. pose proof (ds_dev _ _ _ _ _ St) as D1. split_and!.
    + apply device_failed. rewrite (vi_at_of_dev v _ s s1 W Hv D1). apply set_fail_needs_reset.
    + eapply dev_step_wf; [exact W| |exact St]. intros R. by apply set_fail_ok, advance_ok.
    + by apply (ds_ram _ _ _ _ _ St).
    + by rewrite D1.
    + by rewrite D1.
    + by apply (ds_oob _ _ _ _ _ St).
Qed.


(** ** The status queue *)

Lemma statusq_loop_spec v new fuel : forall used c s, input_wf (dev s) -> 0 <= v < 2 -> ram_ok (ram s) ->
  let q := vq s v VIRTIO_INPUT_STATUSQ in
  0 <= new < 2 ^ 16 -> 0 < QueueNum q -> 0 <= used < 2 ^ 16 -> pending (last_avail q) new < Z.of_nat fuel ->
  let '(r, s') := statusq_loop fuel v new used c s in
  consumed v VIRTIO_INPUT_STATUSQ (fits q) ((fun _ => pending (last_avail q) new) <$> r) s s' /\
  (forall u c', r = Some (u, c') -> u = u16 (used + pending (last_avail q) new) /\
                                    c' = c || negb (last_avail q =? new)).
Proof.
  induction fuel as [|fuel IH]; intros used c s W Hv Hr; cbv zeta; set (q := vq s v VIRTIO_INPUT_STATUSQ);
    intros Hnew Hn Hu Hf.
  { pose proof (Z.mod_pos_bound (new - last_avail q) (2 ^ 16)). unfold pending in Hf. lia. }
  cbn [statusq_loop]. fold q.
  assert (Hq : queue_regs_ok q) by (apply queue_at_ok; by apply vinput_at_ok).
  destruct (Z.eqb_spec (last_avail q) new) as [Eq|Ne].
  { assert (P0 : pending (last_avail q) new = 0) by (unfold pending; rewrite Eq, Z.sub_diag; done).
    rewrite P0. split.
    - cbn. eapply dev_step_ext; [|apply dev_step_mem; [done|done|apply mem_refl]]. cbv beta.
      rewrite advance_0; [done|]. by apply vinput_at_ok.
    - intros u c' [= <- <-]. unfold u16. rewrite Z.add_0_r, Z.mod_small by lia. by rewrite orb_false_r. }
  destruct (next_buffer_mem q Hq s Hn) as (b & s1 & -> & Hb & M1).
  destruct (Z.leb_spec (QueueNum q) b); [split; [by apply consumed_fail|done]|].
  destruct (input_desc_mem q Hq b s1) as (a & ah & l & f & s2 & -> & M2 & _); [lia|].
  pose proof (mem_trans _ _ _ _ M1 M2) as M12.
  destruct (_ || _ || (l <? sizeof_input_event) || (RAM_SIZE - sizeof_input_event <? a));
    [split; [by apply consumed_fail|done]|].
  set (s4 := used_append q used b 0 s2).
  assert (M4 : mem_step (fits q) s s4).
  { eapply mem_trans; [exact M12|]. apply mem_used_append; [unfold is_u32; lia|unfold is_u32; lia|].
    intros F. destruct (rings_fit_bounds q Hq F) as (_ & _ & _ & F1). destruct Hq as (N & _ & _ & U & _).
    unfold VIRTIO_INPUT_QUEUE_NUM_MAX in N. lia. }
  pose proof (consumed_one v VIRTIO_INPUT_STATUSQ _ s s4 W Hv M4) as S5. set (s5 := on_vq _ _ _ s4) in *.
  assert (W5 : input_wf (dev s5)) by (eapply dev_step_wf; [exact W|apply advance_ok|exact S5]).
  assert (Hi : 0 <= VIRTIO_INPUT_STATUSQ < 2) by (unfold VIRTIO_INPUT_STATUSQ; lia).
  pose proof (queue_after v VIRTIO_INPUT_STATUSQ s s5 _ W Hv Hi S5) as Q5. fold q in Q5.
  pose proof (pending_step (last_avail q) new (proj2 (proj2 (proj2 (proj2 Hq)))) Hnew Ne) as Hp.
  specialize (IH (u16 (used + 1)) true s5 W5 Hv (ds_ram _ _ _ _ _ S5 Hr)). cbv zeta in IH. rewrite Q5 in IH.
  change (QueueNum (q <| last_avail := _ |>)) with (QueueNum q) in IH.
  change (last_avail (q <| last_avail := ?x |>)) with x in IH.
  change (fits (q <| last_avail := _ |>)) with (fits q) in IH.
  assert (U1 : 0 <= u16 (used + 1) < 2 ^ 16) by (apply Z.mod_pos_bound; lia).
  specialize (IH Hnew Hn U1 ltac:(lia)). destruct (statusq_loop fuel v new (u16 (used + 1)) true s5) as [r s6].
  destruct IH as [I1 I2]. split.
  - pose proof (consumed_cons v VIRTIO_INPUT_STATUSQ _ _ s s5 s6 W Hv Hi S5 I1) as C. rewrite Hp.
    destruct r; cbn [fmap option_fmap option_map] in *; done.
  - intros u c' Hru. destruct (I2 u c' Hru) as [-> ->]. split; [|cbn; by rewrite orb_true_r].
    rewrite Hp. unfold u16. rewrite Z.add_mod_idemp_l by lia. f_equal. lia.
Qed.

Lemma drain_statusq_spec v s : input_wf (dev s) -> 0 <= v < 2 -> ram_ok (ram s) ->
  let q := vq s v VIRTIO_INPUT_STATUSQ in
  let s' := virtio_input_drain_statusq v s in
  input_wf (dev s') /\ ram_ok (ram s') /\ (fits q -> ram_oob s' = ram_oob s) /\
  (nz (Z.land (Status (vi_at s v)) VIRTIO_STATUS__DRIVER_OK) = true -> ready q = true ->
   needs_reset (vi_at s' v) \/ last_avail (vq s' v VIRTIO_INPUT_STATUSQ) = avail_idx s q).
Proof.
  intros W Hv Hr. cbv zeta. set (q := vq s v VIRTIO_INPUT_STATUSQ). unfold virtio_input_drain_statusq. fold q.
  assert (Hq : queue_regs_ok q) by (apply queue_at_ok; by apply vinput_at_ok).
  assert (Hi : 0 <= VIRTIO_INPUT_STATUSQ < 2) by (unfold VIRTIO_INPUT_STATUSQ; lia).
  destruct (nz (Z.land (Status (vi_at s v)) _)) eqn:Est; cbn [negb orb]; [|by split_and!].
  destruct (ready q) eqn:Er; cbn [negb orb]; [|by split_and!].
  rewrite !(header_get q _ s Hq) by auto. fold (avail_idx s q). fold (used_idx s q).
  pose proof Hq as (N & _ & _ & _ & L). unfold VIRTIO_INPUT_QUEUE_NUM_MAX in N.
  assert (A : 0 <= avail_idx s q < 2 ^ 16) by (apply Z.mod_pos_bound; lia).
  assert (U : 0 <= used_idx s q < 2 ^ 16) by (apply Z.mod_pos_bound; lia).
  fold (pending (last_avail q) (avail_idx s q)). change (u16 (avail_idx s q - last_avail q)) with (pending (last_avail q) (avail_idx s q)).
  destruct (Z.ltb_spec (u16 (QueueNum q)) (pending (last_avail q) (avail_idx s q))) as [|Hle].
  { split_and!; try done; [apply wf_on_vi; [done|apply set_fail_ok]|]. intros _ _. left.
    rewrite vi_at_on_vi by done. apply set_fail_needs_reset. }
  pose proof (Z.mod_pos_bound (avail_idx s q - last_avail q) (2 ^ 16)) as Pb.
  fold (pending (last_avail q) (avail_idx s q)) in Pb.
  destruct (Z.eq_dec (last_avail q) (avail_idx s q)) as [Eq|Ne].
  { assert (P0 : pending (last_avail q) (avail_idx s q) = 0) by (unfold pending; rewrite Eq, Z.sub_diag; done).
    rewrite P0. cbn [Z.to_nat statusq_loop]. fold q. rewrite Eq, Z.eqb_refl. by split_and!; auto. }
  assert (Hn : 0 < QueueNum q).
  { destruct (Z.eq_dec (QueueNum q) 0) as [E0|]; [|lia]. rewrite E0 in Hle. exfalso. unfold pending, u16 in *.
    change (2 ^ 16) with 65536 in *. Z.div_mod_to_equations. lia. }
  pose proof (statusq_loop_spec v (avail_idx s q) (S (Z.to_nat (pending (last_avail q) (avail_idx s q))))
                (used_idx s q) false s W Hv Hr A Hn U ltac:(fold q; lia)) as H. cbv zeta in H. fold q in H.
  destruct (statusq_loop _ v _ _ false s) as [[[u c]|] s1]; destruct H as [H1 H2]; cbn in H1.
  - destruct (H2 u c eq_refl) as [-> ->]. destruct (Z.eqb_spec (last_avail q) (avail_idx s q)); [done|]. cbn [negb orb].
    set (s2 := put_used_hdr q _ s1).
    assert (Hp : mem_step (fits q) s1 s2).
    { apply mem_put; [apply u32_range|]. intros F. by apply (header_in_ram q _ Hq); right. }
    assert (St : dev_step v (fits q) (advance VIRTIO_INPUT_STATUSQ (pending (last_avail q) (avail_idx s q))) s s2).
    { destruct H1 as [D R O], Hp as [D' R' O']. constructor; [congruence|auto|]. intros F. by rewrite O', O. }
    assert (W2 : input_wf (dev s2)) by (eapply dev_step_wf; [exact W|apply advance_ok|exact St]).
    assert (Q2 : last_avail (vq s2 v VIRTIO_INPUT_STATUSQ) = avail_idx s q).
    { unfold vq. rewrite (vi_at_of_dev v _ s s2 W Hv (ds_dev _ _ _ _ _ St)). unfold advance.
      rewrite queue_at_upd by (done || by apply vinput_at_ok). fold q.
      change (u16 (last_avail q + pending (last_avail q) (avail_idx s q)) = avail_idx s q).
      unfold u16, pending. rewrite Z.add_mod_idemp_r by lia. replace (last_avail q + (avail_idx s q - last_avail q))
        with (avail_idx s q) by lia. by rewrite Z.mod_small by lia. }
    rewrite (header_get q _ s2 Hq) by auto. case_match.
    + split_and!; [done|by apply (ds_ram _ _ _ _ _ St)|by apply (ds_oob _ _ _ _ _ St)|by right].
    + split_and!; [by apply wf_on_vi|by apply (ds_ram _ _ _ _ _ St)|by apply (ds_oob _ _ _ _ _ St)|].
      right. rewrite <- Q2. unfold vq. by rewrite vi_at_on_vi by done.
  - destruct H1 as [k St]. split_and!.
    + eapply dev_step_wf; [exact W| |exact St]. intros R. by apply set_fail_ok, advance_ok.
    + by apply (ds_ram _ _ _ _ _ St).
    + by apply (ds_oob _ _ _ _ _ St).
    + left. rewrite (vi_at_of_dev v _ s s1 W Hv (ds_dev _ _ _ _ _ St)). apply set_fail_needs_reset.
Qed.

(** ** Register writes *)

Lemma set_addr_ok (f : Z -> virtq_t -> virtq_t) value d : 0 <= value -> regs_ok d ->
  (forall a q, 0 <= a < RAM_SIZE / 4 -> queue_regs_ok q -> queue_regs_ok (f a q)) ->
  regs_ok (set_input_addr f value d).
Proof.
  intros Hv R Hf. unfold set_input_addr. destruct (preprocess_ok d value Hv R) as (A & B & C).
  destruct (virtio_input_preprocess d value) as [a d']. cbn [fst snd] in *. apply upd_queue_ok; [done|].
  apply Hf; [done|]. by apply queue_at_ok.
Qed.

Lemma reg_write_wf v addr value s : input_wf (dev s) -> 0 <= v < 2 -> ram_ok (ram s) -> 0 <= value ->
  input_wf (dev (snd (virtio_input_reg_write v addr value s))).
Proof.
  intros W Hv Hr Hval. destruct (vinput_at_ok s v W) as [R _]. unfold virtio_input_reg_write. cbv zeta.
  assert (F : input_wf (dev (on_vi v virtio_input_set_fail s))) by (apply wf_on_vi; [done|apply set_fail_ok]).
  assert (Q : forall g, (queue_regs_ok (queue_at (vi_at s v) (QueueSel (vi_at s v))) ->
              queue_regs_ok (g (queue_at (vi_at s v) (QueueSel (vi_at s v))))) ->
            input_wf (dev (on_vi v (upd_queue (QueueSel (vi_at s v)) g) s))).
  { intros g Hg. apply wf_on_vi; [done|]. intros _. apply upd_queue_ok; [done|]. apply Hg. by apply queue_at_ok. }
  pose proof R as (RL & RS & RF).
  destruct (addr =? reg_addr VIRTIO_DeviceFeaturesSel); [by apply wf_on_vi|].
  destruct (addr =? reg_addr VIRTIO_DriverFeatures); [case_match; [by apply wf_on_vi|done]|].
  destruct (addr =? reg_addr VIRTIO_DriverFeaturesSel); [by apply wf_on_vi|].
  destruct (addr =? reg_addr VIRTIO_QueueSel).
  { destruct (Z.ltb_spec value (Z.of_nat (length (queues (vi_at s v))))); [|done].
    apply wf_on_vi; [done|]. intros _. split_and!; [done| |cbn; lia|done]. cbn. lia. }
  destruct (addr =? reg_addr VIRTIO_QueueNum).
  { destruct (Z.ltb_spec 0 value); cbn [andb]; [|done].
    destruct (Z.leb_spec value VIRTIO_INPUT_QUEUE_NUM_MAX); [|done].
    apply Q. intros (A & B). split; [cbn; lia|done]. }
  destruct (addr =? reg_addr VIRTIO_QueueReady).
  { assert (Rd : forall b, input_wf (dev (on_vi v (upd_queue (QueueSel (vi_at s v)) (fun q => q <| ready := b |>)) s)))
      by (intros b; by apply Q).
    destruct (nz (Z.land value 1)); [|apply Rd]. case_match; [apply wf_on_vi; [apply Rd|apply set_fail_ok]|].
    set (s1 := on_vi v _ s). unfold ram_get. cbn [snd]. apply wf_on_vi; [rewrite dev_touch; apply Rd|]. intros R1.
    apply upd_queue_ok; [done|]. destruct (queue_at_ok _ (QueueSel (vi_at s v)) R1) as (A & B & C & D & _).
    split_and!; try apply A; try apply B; try apply C; try apply D; apply Z.mod_pos_bound; lia. }
  destruct (addr =? reg_addr VIRTIO_QueueDescLow).
  { apply wf_on_vi; [done|]. intros _. apply set_addr_ok; try done. intros a q Ha (A & B & C). split_and!; try apply A; try apply Ha; apply C. }
  destruct (addr =? reg_addr VIRTIO_QueueDescHigh); [by case_match|].
  destruct (addr =? reg_addr VIRTIO_QueueDriverLow).
  { apply wf_on_vi; [done|]. intros _. apply set_addr_ok; try done. intros a q Ha (A & B & C & D).
    split_and!; try apply A; try apply Ha; try apply B; apply D. }
  destruct (addr =? reg_addr VIRTIO_QueueDriverHigh); [by case_match|].
  destruct (addr =? reg_addr VIRTIO_QueueDeviceLow).
  { apply wf_on_vi; [done|]. intros _. apply set_addr_ok; try done. intros a q Ha (A & B & C & D & E).
    split_and!; try apply A; try apply Ha; try apply B; try apply C; apply E. }
  destruct (addr =? reg_addr VIRTIO_QueueDeviceHigh); [by case_match|].
  destruct (addr =? reg_addr VIRTIO_QueueNotify).
  { case_match; [done|]. case_match; [|done]. by apply drain_statusq_spec. }
  destruct (addr =? reg_addr VIRTIO_InterruptACK); [by apply wf_on_vi|].
  destruct (addr =? reg_addr VIRTIO_Status).
  { cbn [snd]. unfold virtio_input_update_status. cbv zeta. set (s1 := on_vi v _ s).
    assert (W1 : input_wf (dev s1)) by (by apply wf_on_vi). case_match; [done|].
    apply wf_on_vi; [|intros _; apply zero_virtio_ok]. apply wf_on_vhost; [done|].
    apply reset_host_ok; [apply W1|]. by apply data_at_ok. }
  destruct (addr =? reg_addr VIRTIO_SHMSel); [done|].
  destruct (addr =? VIRTIO_INPUT_REG_SELECT).
  { apply wf_on_cfg; [done|]. intros (A & B). split; [apply is_byte_u8|done]. }
  destruct (addr =? VIRTIO_INPUT_REG_SUBSEL); [|done].
  apply wf_on_cfg; [done|]. intros (A & _ & B). split; [apply A|]. split; [apply is_byte_u8|done].
Qed.

(** C17: The device structures keep their C types under every guest access. From
    a well-formed state, any load or store of any width, address and value in the
    register window leaves array lengths, field ranges, queue addresses (inside
    RAM), selected queue and configuration bytes well formed; no read escapes the
    configuration structure and no ring arithmetic divides by zero. *)
Theorem input_state_typed v addr width value s : input_wf (dev s) -> 0 <= v < 2 -> ram_ok (ram s) ->
  0 <= addr < 2 ^ 31 -> 0 <= value ->
  input_wf (dev (snd (virtio_input_read v addr width s))) /\
  input_wf (dev (virtio_input_write v addr width value s)).
Proof.
  intros W Hv Hr Ha Hval. split; [by apply read_wf|]. unfold virtio_input_write. cbv zeta.
  pose proof (reg_write_wf v addr value s W Hv Hr Hval) as H.
  destruct (virtio_input_reg_write v addr value s) as [ok s']. cbn [snd] in H.
  assert (A : input_wf (dev (if ok then s' else raise RV_EXC_STORE_FAULT (exc_val (hart s')) s'))) by (by destruct ok).
  destruct (width =? RV_MEM_SW); [by destruct (input_misaligned addr 4)|].
  destruct (width =? RV_MEM_SB); [by destruct (input_misaligned addr 1)|].
  destruct (width =? RV_MEM_SH); [by destruct (input_misaligned addr 2)|done].
Qed.

(** ** Draining the host queues *)

(** The guest-visible side does not look at the host side. *)
Section Natural.
Context (f : vinput_host -> vinput_host).

Lemma nat_on_vi v g s : on_vi v g (on_vhost f s) = on_vhost f (on_vi v g s).
Proof. reflexivity. Qed.
Lemma nat_touch o l s : touch o l (on_vhost f s) = on_vhost f (touch o l s).
Proof. unfold touch. by case_match. Qed.
Lemma nat_put i x s : ram_put i x (on_vhost f s) = on_vhost f (ram_put i x s).
Proof. unfold ram_put, wr32. rewrite nat_touch. reflexivity. Qed.
Lemma nat_dma_write bytes : forall o s, dma_write o bytes (on_vhost f s) = on_vhost f (dma_write o bytes s).
Proof.
  induction bytes as [|b bytes IH]; intros o s; [done|]. cbn [dma_write]. rewrite <- IH. f_equal.
  unfold wr8. rewrite nat_touch. reflexivity.
Qed.
Lemma nat_used_append q u i l s : used_append q u i l (on_vhost f s) = on_vhost f (used_append q u i l s).
Proof. unfold used_append. cbv zeta. by rewrite !nat_put. Qed.
Lemma nat_get i s : ram_get i (on_vhost f s) = (fst (ram_get i s), on_vhost f (snd (ram_get i s))).
Proof. unfold ram_get. rewrite nat_touch. reflexivity. Qed.
Lemma nat_next q s : next_buffer q (on_vhost f s)
  = (fun '(b, s') => (b, on_vhost f s')) <$> next_buffer q s.
Proof.
  unfold next_buffer, avail_entry. case_match; [done|]. cbv zeta. rewrite nat_get. unfold ram_get. reflexivity.
Qed.
Lemma nat_desc q b s : input_desc q b (on_vhost f s)
  = (let '(a, ah, l, fl, s') := input_desc q b s in (a, ah, l, fl, on_vhost f s')).
Proof. unfold input_desc. cbv zeta. unfold ram_get. rewrite !nat_touch. reflexivity. Qed.

Lemma nat_put_events v evs : forall u s, put_events v evs u (on_vhost f s)
  = (fst (put_events v evs u s), on_vhost f (snd (put_events v evs u s))).
Proof.
  induction evs as [|e evs IH]; intros u s; [done|]. cbn [put_events].
  change (vq (on_vhost f s) v VIRTIO_INPUT_EVENTQ) with (vq s v VIRTIO_INPUT_EVENTQ).
  rewrite nat_next. destruct (next_buffer _ s) as [[b s1]|]; cbn [fmap option_fmap option_map]; [|done].
  case_match; [done|]. rewrite nat_desc. destruct (input_desc _ b s1) as [[[[a ah] l] fl] s2].
  case_match; [done|]. rewrite nat_dma_write, nat_used_append. unfold on_vq. rewrite nat_on_vi. apply IH.
Qed.

Lemma nat_handler v evs s : virtio_input_desc_handler v evs (on_vhost f s)
  = (fst (virtio_input_desc_handler v evs s), on_vhost f (snd (virtio_input_desc_handler v evs s))).
Proof.
  unfold virtio_input_desc_handler.
  change (vq (on_vhost f s) v VIRTIO_INPUT_EVENTQ) with (vq s v VIRTIO_INPUT_EVENTQ).
  rewrite nat_get. destruct (ram_get (QueueAvail _) s) as [w s1]. cbn [fst snd]. rewrite nat_get.
  destruct (ram_get (QueueUsed _) s1) as [w2 s2]. cbn [fst snd]. case_match; [done|].
  rewrite nat_put_events. destruct (put_events v evs _ s2) as [[u|] s3]; cbn [fst snd]; [|done].
  unfold put_used_hdr. by rewrite nat_put.
Qed.

Lemma nat_eventq dev_id evs s :
  virtio_input_update_eventq dev_id evs (on_vhost f s) = on_vhost f (virtio_input_update_eventq dev_id evs s).
Proof.
  unfold virtio_input_update_eventq. change (data_at (on_vhost f s) dev_id) with (data_at s dev_id).
  destruct (vd_vinput (data_at s dev_id)) as [v|]; [|done].
  change (vi_at (on_vhost f s) v) with (vi_at s v).
  change (vq (on_vhost f s) v VIRTIO_INPUT_EVENTQ) with (vq s v VIRTIO_INPUT_EVENTQ).
  case_match; [done|]. case_match; [done|]. rewrite nat_get. destruct (ram_get (QueueAvail _) s) as [w s1].
  cbn [fst snd]. case_match; [done|]. case_match; [done|]. rewrite nat_handler.
  destruct (virtio_input_desc_handler v evs s1) as [[|] s2]; cbn [fst snd]; [|done].
  rewrite nat_get. destruct (ram_get (QueueAvail _) s2) as [w2 s3]. cbn [fst snd]. by case_match.
Qed.

Lemma nat_keyboard c s : apply_keyboard c (on_vhost f s) = on_vhost f (apply_keyboard c s).
Proof. destruct c; try done. apply nat_eventq. Qed.

Lemma nat_mouse c s : apply_mouse c (on_vhost f s) = on_vhost f (apply_mouse c s).
Proof.
  destruct c as [| |dx dy|dx dy]; try done; [apply nat_eventq| |]; cbn [apply_mouse].
  - unfold virtio_input_update_mouse_motion. case_match; [done|apply nat_eventq].
  - unfold virtio_input_update_scroll. case_match; [done|apply nat_eventq].
Qed.
End Natural.

Lemma on_vhost_id s : on_vhost (fun _ => vhost (dev s)) s = s.
Proof. destruct s as [? ? ? ? ? ? ? []]. reflexivity. Qed.

Lemma fold_vhost (apply : vinput_cmd -> M -> M)
    (Hnat : forall f c s, apply c (on_vhost f s) = on_vhost f (apply c s)) cs : forall h s,
  foldl (fun s c => apply c s) (on_vhost (fun _ => h) s) cs = on_vhost (fun _ => h) (foldl (fun s c => apply c s) s cs).
Proof. induction cs as [|c cs IH]; intros h s; [done|]. cbn [foldl]. by rewrite Hnat, IH. Qed.

Lemma drain_queue_spec d (apply : vinput_cmd -> M -> M)
    (Hnat : forall f c s, apply c (on_vhost f s) = on_vhost f (apply c s)) fuel : forall s,
  host_ok (vhost (dev s)) -> 0 <= d < VINPUT_DEV_CNT -> (length (waiting (vhost (dev s)) d) < fuel)%nat ->
  exists h', drain_queue fuel d apply s
             = on_vhost (fun _ => h') (foldl (fun s c => apply c s) s (waiting (vhost (dev s)) d)) /\
    host_ok h' /\ waiting h' d = [] /\
    (forall d', 0 <= d' < VINPUT_DEV_CNT -> d' <> d -> waiting h' d' = waiting (vhost (dev s)) d').
Proof.
  induction fuel as [|fuel IH]; intros s Hok Hd Hf; [lia|]. cbn [drain_queue].
  pose proof (pop_waiting (vhost (dev s)) d Hok Hd) as P.
  destruct (waiting (vhost (dev s)) d) as [|c cs] eqn:E.
  - rewrite P. exists (vhost (dev s)). cbn [foldl]. by rewrite on_vhost_id.
  - destruct P as (h1 & -> & Hok1 & Hw & Ho & _). rewrite Hnat. set (s2 := on_vhost (fun _ => h1) (apply c s)).
    destruct (IH s2) as (h' & -> & I1 & I2 & I3); [exact Hok1|done|change (vhost (dev s2)) with h1; rewrite Hw; cbn [length] in Hf; lia|].
    change (vhost (dev s2)) with h1 in *. rewrite Hw. exists h'. split_and!; try done.
    + cbn [foldl]. unfold s2. rewrite (fold_vhost apply Hnat). reflexivity.
    + intros d' Hd' Hne. by rewrite I3, Ho.
Qed.

Lemma drain_spec s : host_ok (vhost (dev s)) ->
  exists h', virtio_input_drain_host_events s = Some (on_vhost (fun _ => h')
    (foldl (fun s c => apply_mouse c s)
       (foldl (fun s c => apply_keyboard c s) s (waiting (vhost (dev s)) VINPUT_KEYBOARD_ID))
       (waiting (vhost (dev s)) VINPUT_MOUSE_ID))) /\
    host_ok h' /\ (forall d, 0 <= d < VINPUT_DEV_CNT -> waiting h' d = []) /\
    vinput_may_have_pending_cmds h' = false.
Proof.
  intros Hok. unfold virtio_input_drain_host_events. cbn [drain_rounds].
  assert (K : 0 <= VINPUT_KEYBOARD_ID < VINPUT_DEV_CNT) by (unfold VINPUT_KEYBOARD_ID, VINPUT_DEV_CNT; lia).
  assert (Ms : 0 <= VINPUT_MOUSE_ID < VINPUT_DEV_CNT) by (unfold VINPUT_MOUSE_ID, VINPUT_DEV_CNT; lia).
  destruct (drain_queue_spec VINPUT_KEYBOARD_ID apply_keyboard nat_keyboard _ s Hok K (waiting_bound _ _))
    as (h1 & -> & O1 & E1 & W1).
  set (s1 := on_vhost (fun _ => h1) _).
  destruct (drain_queue_spec VINPUT_MOUSE_ID apply_mouse nat_mouse _ s1 O1 Ms (waiting_bound _ _))
    as (h2 & -> & O2 & E2 & W2).
  change (vhost (dev s1)) with h1 in *. rewrite (W1 VINPUT_MOUSE_ID) by done.
  change (vhost (dev (on_vhost (fun _ => h2) ?x))) with h2. unfold vinput_rearm_cmd_wake. cbv zeta.
  set (h3 := h2 <| vinput_cmd_wake_pending := false |>).
  assert (O3 : host_ok h3) by (by apply (host_ok_same h2)).
  assert (E3 : forall d, 0 <= d < VINPUT_DEV_CNT -> waiting h3 d = []).
  { intros d Hd. change (waiting h3 d) with (waiting h2 d). destruct (Z.eq_dec d VINPUT_MOUSE_ID) as [->|Hne]; [done|].
    rewrite W2 by done. replace d with VINPUT_KEYBOARD_ID; [done|].
    unfold VINPUT_KEYBOARD_ID, VINPUT_MOUSE_ID, VINPUT_DEV_CNT in *. lia. }
  rewrite (proj2 (all_empty_iff h3 O3) E3). exists h3. split_and!; try done.
  unfold s1. rewrite (fold_vhost apply_mouse nat_mouse). reflexivity.
Qed.

(** The drain of the peripheral tick hands over everything that waits, in
    order. It returns after one round (without the other thread), and the machine
    is the one on which every waiting keyboard command and then every waiting mouse
    command has been applied oldest first; both queues are then empty and the gate
    is lowered. *)
Theorem drain_applies_in_order s : host_ok (vhost (dev s)) ->
  exists h', virtio_input_drain_host_events s = Some (on_vhost (fun _ => h')
    (foldl (fun s c => apply_mouse c s)
       (foldl (fun s c => apply_keyboard c s) s (waiting (vhost (dev s)) VINPUT_KEYBOARD_ID))
       (waiting (vhost (dev s)) VINPUT_MOUSE_ID))) /\
    (forall d, 0 <= d < VINPUT_DEV_CNT -> waiting h' d = []) /\ vinput_may_have_pending_cmds h' = false.
Proof. intros Hok. destruct (drain_spec s Hok) as (h' & E & _ & W & G). by exists h'. Qed.

(** ** Key codes *)

(** Lookup in the table by name. *)
Fixpoint key_by_name (map : list vinput_key_map_entry) (n : sdl_scancode) : Z :=
  match map with
  | [] => -1
  | e :: map => if decide (n = key_scancode e) then key_linux e else key_by_name map n
  end.

Section Keys.
Context {W : Type} `{SdlW : Sdl W} `{LawsW : !SdlLaws W}.

Lemma key_lookup_name map n : key_lookup map (scancode n) = key_by_name map n.
Proof using LawsW.
  induction map as [|e map IH]; [done|]. cbn [key_lookup key_by_name].
  destruct (Z.eqb_spec (scancode n) (scancode (key_scancode e))) as [E|Ne]; case_decide as Hd; try done.
  - by apply (inj scancode) in E.
  - congruence.
Qed.

Definition key_bit (code : Z) : bool :=
  Z.testbit (arr_get 0 (snd (virtio_input_fill_ev_key_bitmap zero_payload VIRTIO_INPUT_CFG_PAYLOAD_SIZE)) (code / 8))
    (code mod 8).

Lemma key_bits_table code : 0 <= code < 1024 ->
  key_bit code = existsb (Z.eqb code) (key_linux <$> vinput_key_map).
Proof.
  intros Hc. assert (F : forallb (fun c => Bool.eqb (key_bit c) (existsb (Z.eqb c) (key_linux <$> vinput_key_map)))
                           (seqZ 0 1024) = true) by (vm_compute; reflexivity).
  rewrite forallb_forall in F. apply eqb_prop, F. apply list_elem_of_In, elem_of_seqZ. lia.
Qed.

Lemma name_in_table n : In (key_by_name vinput_key_map n) (key_linux <$> vinput_key_map).
Proof.
  assert (H : existsb (Z.eqb (key_by_name vinput_key_map n)) (key_linux <$> vinput_key_map) = true)
    by (destruct n; vm_compute; reflexivity).
  apply existsb_exists in H as (x & Hx & E). apply Z.eqb_eq in E. by rewrite E.
Qed.

Lemma table_has_name code : In code (key_linux <$> vinput_key_map) -> exists n, key_by_name vinput_key_map n = code.
Proof.
  intros Hin. apply list_elem_of_In, list_elem_of_fmap in Hin as (e & -> & He). exists (key_scancode e).
  assert (F : forallb (fun e => key_by_name vinput_key_map (key_scancode e) =? key_linux e) vinput_key_map = true)
    by (vm_compute; reflexivity).
  rewrite forallb_forall in F. by apply Z.eqb_eq, F, list_elem_of_In.
Qed.

(** The keyboard advertises exactly the keys it can send. A bit of the EV_KEY
    bitmap in the configuration window is set if and only if its code is the
    translation of some SDL scancode; for any numbering SDL uses. *)
Theorem advertised_keys_exact c code : 0 <= code < 1024 ->
  Z.testbit (arr_get 0 (cfg_u (virtio_input_fill_keyboard_ev_bits SEMU_EV_KEY c)) (code / 8)) (code mod 8) = true
  <-> exists n, vinput_sdl_scancode_to_linux_key (scancode n) = code.
Proof using LawsW.
  intros Hc. unfold virtio_input_fill_keyboard_ev_bits. cbv zeta. change (SEMU_EV_KEY =? SEMU_EV_KEY) with true.
  change (cfg_u (c <| cfg_u := zero_payload |>)) with zero_payload. cbv iota.
  pose proof (key_bits_table code Hc) as K. unfold key_bit in K.
  destruct (virtio_input_fill_ev_key_bitmap zero_payload _) as [n u]. cbn [snd] in K.
  change (cfg_u (_ <| cfg_u := u |> <| cfg_size := u8 n |>)) with u. rewrite K, existsb_exists.
  unfold vinput_sdl_scancode_to_linux_key. split.
  - intros (x & Hx & E). apply Z.eqb_eq in E. subst x. destruct (table_has_name code Hx) as [m Hm].
    exists m. by rewrite key_lookup_name.
  - intros [m Hm]. exists code. split; [|apply Z.eqb_refl]. rewrite <- Hm, key_lookup_name. apply name_in_table.
Qed.
End Keys.
