(* ===== verification/VgpuDisplay.v ===== *)
(** * The display bridge (vgpu-display.c)

    Commands from the emulator thread (virtio-gpu) to the SDL thread (the window):
    frames and cursor moves go through a small lossy ring, clears of a plane are
    generation counters. A frame command owns a heap payload; the heap of payloads
    is part of the state here, with a flag for a [free] of something that is not
    allocated. The functions are the sequential meaning of the code; [VgpuConc] has
    the interleaved one. *)

From stdpp Require Import base gmap list.
From Stdlib Require Import ZArith Lia Bool.
From S2P Require Import Prelude Ring.
Open Scope Z_scope.

(* [virtio-gpu.h:13-13] *)
Definition VIRTIO_GPU_MAX_SCANOUTS := 16.

(* [vgpu-display.c:11-12] *)
Definition VGPU_DISPLAY_CMD_QUEUE_SIZE := 64.
Definition VGPU_DISPLAY_CMD_QUEUE_MASK := VGPU_DISPLAY_CMD_QUEUE_SIZE - 1.

(** The pixels follow the structure in the same allocation. *)
(* [vgpu-display.h:15-33] vgpu_display_cpu_payload, vgpu_display_payload *)
Record vgpu_display_payload := mk_payload {
  pl_format : Z; pl_width : Z; pl_height : Z; pl_stride : Z; pl_bits_per_pixel : Z; pl_pixels : list Z }.

(** The union with its tag; a payload is a pointer, [0] is [NULL]. *)
(* [vgpu-display.h:42-73] vgpu_display_cmd_type, vgpu_display_cmd *)
Inductive vgpu_display_cmd_body :=
  | VGPU_DISPLAY_CMD_PRIMARY_SET (payload : Z)
  | VGPU_DISPLAY_CMD_PRIMARY_CLEAR
  | VGPU_DISPLAY_CMD_CURSOR_SET (payload x y hot_x hot_y : Z)
  | VGPU_DISPLAY_CMD_CURSOR_CLEAR
  | VGPU_DISPLAY_CMD_CURSOR_MOVE (x y : Z).
Record vgpu_display_cmd := mk_dcmd { dc_body : vgpu_display_cmd_body; dc_scanout_id : Z; dc_generation : Z }.

(* [vgpu-display.c:19-22] vgpu_display_plane_clear_state *)
Record plane_clear_state := mk_clear { generation : Z; consumed_generation : Z }.

(** The two planes of a scanout. *)
Inductive plane := Primary | Cursor.
#[export] Instance plane_eq_dec : EqDecision plane.
Proof. solve_decision. Defined.

(* [vgpu-display.c:24-41] vgpu_display_primary_clear, vgpu_display_cursor_clear, vgpu_display_cmd_queue *)
Record vgpu_display := mk_display {
  vgpu_display_primary_clear : list plane_clear_state;
  vgpu_display_cursor_clear : list plane_clear_state;
  vgpu_display_scanout_count : Z;
  vgpu_display_cmd_queue : list vgpu_display_cmd;
  vgpu_display_cmd_head : Z;
  vgpu_display_cmd_tail : Z;
  vgpu_display_unavailable : bool;
  payload_heap : gmap Z vgpu_display_payload;
  bad_free : bool }.

#[export] Instance eta_clear : Eta plane_clear_state := fun r => mk_clear (generation r) (consumed_generation r).
#[export] Instance set_generation : Setter generation := ltac:(solve_setter).
#[export] Instance set_consumed : Setter consumed_generation := ltac:(solve_setter).
#[export] Instance eta_display : Eta vgpu_display := fun r =>
  mk_display (vgpu_display_primary_clear r) (vgpu_display_cursor_clear r) (vgpu_display_scanout_count r)
    (vgpu_display_cmd_queue r) (vgpu_display_cmd_head r) (vgpu_display_cmd_tail r)
    (vgpu_display_unavailable r) (payload_heap r) (bad_free r).
#[export] Instance set_primary_clear : Setter vgpu_display_primary_clear := ltac:(solve_setter).
#[export] Instance set_cursor_clear : Setter vgpu_display_cursor_clear := ltac:(solve_setter).
#[export] Instance set_scanout_count_field : Setter vgpu_display_scanout_count := ltac:(solve_setter).
#[export] Instance set_display_queue : Setter vgpu_display_cmd_queue := ltac:(solve_setter).
#[export] Instance set_display_head : Setter vgpu_display_cmd_head := ltac:(solve_setter).
#[export] Instance set_display_tail : Setter vgpu_display_cmd_tail := ltac:(solve_setter).
#[export] Instance set_unavailable_field : Setter vgpu_display_unavailable := ltac:(solve_setter).
#[export] Instance set_payload_heap : Setter payload_heap := ltac:(solve_setter).
#[export] Instance set_bad_free : Setter bad_free := ltac:(solve_setter).

Implicit Types (d : vgpu_display) (c : vgpu_display_cmd) (p : plane).

(** Zero-initialised statics; [vgpu_display_scanout_count] starts at one. *)
Definition zero_clear := mk_clear 0 0.
Definition zero_dcmd := mk_dcmd (VGPU_DISPLAY_CMD_PRIMARY_SET 0) 0 0.
Definition display_init : vgpu_display :=
  mk_display (replicate 16 zero_clear) (replicate 16 zero_clear) 1
    (replicate (Z.to_nat VGPU_DISPLAY_CMD_QUEUE_SIZE) zero_dcmd) 0 0 false ∅ false.

Definition clears d p : list plane_clear_state :=
  match p with Primary => vgpu_display_primary_clear d | Cursor => vgpu_display_cursor_clear d end.
Definition clear_at d p (i : Z) : plane_clear_state := arr_get zero_clear (clears d p) i.
Definition upd_clear p (i : Z) (f : plane_clear_state -> plane_clear_state) d : vgpu_display :=
  match p with
  | Primary => d <| vgpu_display_primary_clear := arr_set (clears d p) i (f (clear_at d p i)) |>
  | Cursor => d <| vgpu_display_cursor_clear := arr_set (clears d p) i (f (clear_at d p i)) |>
  end.

(** ** The payload heap *)

(** A [malloc] that succeeds. *)
Definition payload_new (x : vgpu_display_payload) d : Z * vgpu_display :=
  let ptr := fresh (dom (payload_heap d) ∪ {[0]}) in
  (ptr, d <| payload_heap := <[ptr := x]> (payload_heap d) |>).

(** [free(payload)] *)
Definition payload_free (ptr : Z) d : vgpu_display :=
  if ptr =? 0 then d
  else if bool_decide (is_Some (payload_heap d !! ptr))
  then d <| payload_heap := delete ptr (payload_heap d) |> else d <| bad_free := true |>.

(** The payload a command owns. *)
Definition owned c : list Z :=
  match dc_body c with
  | VGPU_DISPLAY_CMD_PRIMARY_SET ptr => [ptr]
  | VGPU_DISPLAY_CMD_CURSOR_SET ptr _ _ _ _ => [ptr]
  | _ => []
  end.

(** The plane a queued command belongs to; a clear has none here. *)
Definition cmd_plane c : option plane :=
  match dc_body c with
  | VGPU_DISPLAY_CMD_PRIMARY_SET _ => Some Primary
  | VGPU_DISPLAY_CMD_CURSOR_SET _ _ _ _ _ => Some Cursor
  | VGPU_DISPLAY_CMD_CURSOR_MOVE _ _ => Some Cursor
  | _ => None
  end.

Definition clear_body p : vgpu_display_cmd_body :=
  match p with Primary => VGPU_DISPLAY_CMD_PRIMARY_CLEAR | Cursor => VGPU_DISPLAY_CMD_CURSOR_CLEAR end.

(** ** Operations *)

(* [vgpu-display.c:160-172] vgpu_display_release_cmd *)
Definition vgpu_display_release_cmd c d : vgpu_display :=
  match dc_body c with
  | VGPU_DISPLAY_CMD_PRIMARY_SET payload => payload_free payload d
  | VGPU_DISPLAY_CMD_CURSOR_SET payload _ _ _ _ => payload_free payload d
  | _ => d
  end.

(* [vgpu-display.c:43-60] vgpu_display_is_cmd_stale *)
Definition vgpu_display_is_cmd_stale c d : bool :=
  match dc_body c with
  | VGPU_DISPLAY_CMD_PRIMARY_SET _ =>
      negb (dc_generation c =? generation (clear_at d Primary (dc_scanout_id c)))
  | VGPU_DISPLAY_CMD_CURSOR_SET _ _ _ _ _ | VGPU_DISPLAY_CMD_CURSOR_MOVE _ _ =>
      negb (dc_generation c =? generation (clear_at d Cursor (dc_scanout_id c)))
  | _ => false
  end.

(** The loop over the scanouts from [i] on. *)
(* [vgpu-display.c:62-89] vgpu_display_pop_pending_clear_cmd *)
Fixpoint pending_clear_from (n : nat) p (i : Z) d : option vgpu_display_cmd * vgpu_display :=
  match n with
  | O => (None, d)
  | S n =>
    let gen := generation (clear_at d p i) in
    if consumed_generation (clear_at d p i) =? gen then pending_clear_from n p (i + 1) d
    else (Some (mk_dcmd (clear_body p) i gen), upd_clear p i (fun st => st <| consumed_generation := gen |>) d)
  end.
Definition vgpu_display_pop_pending_clear_cmd p d : option vgpu_display_cmd * vgpu_display :=
  pending_clear_from (Z.to_nat (vgpu_display_scanout_count d)) p 0 d.

(* [vgpu-display.c:91-98] vgpu_display_set_scanout_count *)
Definition vgpu_display_set_scanout_count (scanout_count : Z) d : vgpu_display :=
  d <| vgpu_display_scanout_count :=
    (if VIRTIO_GPU_MAX_SCANOUTS <? scanout_count then VIRTIO_GPU_MAX_SCANOUTS else scanout_count) |>.

(** [__atomic_add_fetch(&states[scanout_id].generation, 1U, ...)] *)
Definition bump_generation p (scanout_id : Z) d : vgpu_display :=
  upd_clear p scanout_id (fun st => st <| generation := u32 (generation st + 1) |>) d.

(* [vgpu-display.c:100-107] vgpu_display_publish_primary_clear *)
Definition vgpu_display_publish_primary_clear (scanout_id : Z) d : vgpu_display :=
  if vgpu_display_unavailable d then d else bump_generation Primary scanout_id d.

(* [vgpu-display.c:109-116] vgpu_display_publish_cursor_clear *)
Definition vgpu_display_publish_cursor_clear (scanout_id : Z) d : vgpu_display :=
  if vgpu_display_unavailable d then d else bump_generation Cursor scanout_id d.

(* [vgpu-display.c:122-122] vgpu_display_is_cmd_queue_full *)
Definition display_next (i : Z) : Z := Z.land (u32 (i + 1)) VGPU_DISPLAY_CMD_QUEUE_MASK.

(* [vgpu-display.c:118-124] vgpu_display_is_cmd_queue_full *)
Definition vgpu_display_is_cmd_queue_full d : bool :=
  display_next (vgpu_display_cmd_head d) =? vgpu_display_cmd_tail d.

(* [vgpu-display.c:126-143] vgpu_display_push_cmd *)
Definition vgpu_display_push_cmd c d : vgpu_display :=
  let head := vgpu_display_cmd_head d in
  let tail := vgpu_display_cmd_tail d in
  let next := display_next head in
  if next =? tail then vgpu_display_release_cmd c d
  else d <| vgpu_display_cmd_queue := arr_set (vgpu_display_cmd_queue d) head c |>
         <| vgpu_display_cmd_head := next |>.

(* [vgpu-display.c:145-158] vgpu_display_pop_queued_cmd *)
Definition vgpu_display_pop_queued_cmd d : option vgpu_display_cmd * vgpu_display :=
  let tail := vgpu_display_cmd_tail d in
  let head := vgpu_display_cmd_head d in
  if tail =? head then (None, d)
  else (Some (arr_get zero_dcmd (vgpu_display_cmd_queue d) tail),
        d <| vgpu_display_cmd_tail := display_next tail |>).

(** The loop drops at most the commands of the ring, so [VGPU_DISPLAY_CMD_QUEUE_SIZE]
    rounds reach its end; [None] is running out of rounds. *)
(* [vgpu-display.c:174-199] vgpu_display_pop_cmd *)
Fixpoint pop_cmd_loop (fuel : nat) d : option (option vgpu_display_cmd * vgpu_display) :=
  match fuel with
  | O => None
  | S fuel =>
    match vgpu_display_pop_pending_clear_cmd Primary d with
    | (Some c, d) => Some (Some c, d)
    | (None, d) =>
      match vgpu_display_pop_pending_clear_cmd Cursor d with
      | (Some c, d) => Some (Some c, d)
      | (None, d) =>
        match vgpu_display_pop_queued_cmd d with
        | (None, d) => Some (None, d)
        | (Some c, d) =>
          if negb (vgpu_display_is_cmd_stale c d) then Some (Some c, d)
          else pop_cmd_loop fuel (vgpu_display_release_cmd c d)
        end
      end
    end
  end.
Definition vgpu_display_pop_cmd d := pop_cmd_loop (Z.to_nat VGPU_DISPLAY_CMD_QUEUE_SIZE) d.

(** [while (vgpu_display_pop_cmd(&cmd)) vgpu_display_release_cmd(&cmd);] *)
(* [vgpu-display.c:201-218] vgpu_display_set_unavailable *)
Fixpoint drain_all (fuel : nat) d : option vgpu_display :=
  match fuel with
  | O => None
  | S fuel =>
    match vgpu_display_pop_cmd d with
    | None => None
    | Some (None, d) => Some d
    | Some (Some c, d) => drain_all fuel (vgpu_display_release_cmd c d)
    end
  end.
Definition vgpu_display_set_unavailable (fuel : nat) d : option vgpu_display :=
  drain_all fuel (d <| vgpu_display_unavailable := true |>).

(* [vgpu-display.c:220-224] vgpu_display_can_publish *)
Definition vgpu_display_can_publish d : bool :=
  negb (vgpu_display_unavailable d) && negb (vgpu_display_is_cmd_queue_full d).

(* [vgpu-display.c:226-243] vgpu_display_publish_primary_set *)
Definition vgpu_display_publish_primary_set (scanout_id payload : Z) d : vgpu_display :=
  if vgpu_display_unavailable d then payload_free payload d
  else vgpu_display_push_cmd
    (mk_dcmd (VGPU_DISPLAY_CMD_PRIMARY_SET payload) scanout_id
       (generation (clear_at d Primary scanout_id))) d.

(* [vgpu-display.c:245-273] vgpu_display_publish_cursor_set *)
Definition vgpu_display_publish_cursor_set (scanout_id payload x y hot_x hot_y : Z) d : vgpu_display :=
  if vgpu_display_unavailable d then payload_free payload d
  else vgpu_display_push_cmd
    (mk_dcmd (VGPU_DISPLAY_CMD_CURSOR_SET payload x y hot_x hot_y) scanout_id
       (generation (clear_at d Cursor scanout_id))) d.

(* [vgpu-display.c:275-289] vgpu_display_publish_cursor_move *)
Definition vgpu_display_publish_cursor_move (scanout_id x y : Z) d : vgpu_display :=
  if vgpu_display_unavailable d then d
  else vgpu_display_push_cmd
    (mk_dcmd (VGPU_DISPLAY_CMD_CURSOR_MOVE x y) scanout_id (generation (clear_at d Cursor scanout_id))) d.
