(* ===== verification/VgpuConc.v ===== *)
(** * The display bridge under concurrency

    The emulator thread publishes (virtio-gpu-sw.c calls vgpu-display.c), the SDL
    thread drains ([window_drain_display_queue] calls [vgpu_display_pop_cmd] until it
    returns false). Each thread is a program counter over the atomic accesses of
    vgpu-display.c in program order, and the system interleaves them (sequential
    consistency; the source uses acquire and release). Ghost state records the
    commands pushed, popped and applied, and the number of clears of each plane,
    which the 32-bit generation counts modulo 2^32.

    Shown for every interleaving: the ring is a queue of at most 63 commands; each
    payload has exactly one owner until it is freed once; and no command is applied
    after a newer clear of its plane was. Also shown: the check for clears and the
    check for staleness are separate, so a clear can be applied after the frame that
    was published after it. *)

From stdpp Require Import base gmap list relations.
From Stdlib Require Import ZArith Lia Bool Sorted.
From S2P Require Import Prelude Ring VgpuDisplay.
Open Scope Z_scope.

(** ** The threads *)

(** What virtio-gpu-sw.c asks for. *)
Inductive request :=
  | Req_clear (p : plane) (scanout_id : Z)
  | Req_primary_set (scanout_id : Z) (x : vgpu_display_payload)
  | Req_cursor_set (scanout_id : Z) (x : vgpu_display_payload) (cx cy hot_x hot_y : Z)
  | Req_cursor_move (scanout_id cx cy : Z).

(** Emulator thread, inside [vgpu_display_publish_*] and [vgpu_display_push_cmd]. *)
(* [vgpu-display.c:100-143] vgpu_display_publish_primary_clear, vgpu_display_push_cmd *)
Inductive publisher :=
  | D_idle
  | D_clear_check (p : plane) (i : Z)
  | D_clear (p : plane) (i : Z)
  | D_check (b : vgpu_display_cmd_body) (i : Z)
  | D_load_gen (b : vgpu_display_cmd_body) (i : Z)
  | D_load_head (c : vgpu_display_cmd)
  | D_load_tail (c : vgpu_display_cmd) (head : Z)
  | D_store_entry (c : vgpu_display_cmd) (head : Z)
  | D_store_head (c : vgpu_display_cmd) (head : Z)
  | D_release (c : vgpu_display_cmd).

(** SDL thread, inside [vgpu_display_pop_cmd]; [W_apply] is after its return. *)
(* [vgpu-display.c:62-199] vgpu_display_pop_pending_clear_cmd, vgpu_display_pop_queued_cmd, vgpu_display_pop_cmd *)
Inductive window :=
  | W_idle
  | W_count (p : plane)
  | W_gen (p : plane) (i n : Z)
  | W_load_tail
  | W_load_head (tail : Z)
  | W_load_entry (tail : Z)
  | W_store_tail (tail : Z) (c : vgpu_display_cmd)
  | W_stale (c : vgpu_display_cmd)
  | W_release (c : vgpu_display_cmd)
  | W_apply (c : vgpu_display_cmd).

Record dsys := mk_dsys {
  pub : publisher; win : window; dsh : vgpu_display;
  dsent : list vgpu_display_cmd; dgot : list vgpu_display_cmd; applied : list vgpu_display_cmd;
  bumps : plane -> Z -> Z }.

#[export] Instance eta_dsys : Eta dsys := fun r =>
  mk_dsys (pub r) (win r) (dsh r) (dsent r) (dgot r) (applied r) (bumps r).
#[export] Instance set_pub : Setter pub := ltac:(solve_setter).
#[export] Instance set_win : Setter win := ltac:(solve_setter).
#[export] Instance set_dsh : Setter dsh := ltac:(solve_setter).
#[export] Instance set_dsent : Setter dsent := ltac:(solve_setter).
#[export] Instance set_dgot : Setter dgot := ltac:(solve_setter).
#[export] Instance set_applied : Setter applied := ltac:(solve_setter).
#[export] Instance set_bumps : Setter bumps := ltac:(solve_setter).

Implicit Types (s : dsys) (c : vgpu_display_cmd) (p : plane) (d : vgpu_display).

(** The plane a command is about, clears included. *)
Definition about c : plane :=
  match dc_body c with
  | VGPU_DISPLAY_CMD_PRIMARY_SET _ | VGPU_DISPLAY_CMD_PRIMARY_CLEAR => Primary
  | _ => Cursor
  end.
Definition body_plane (b : vgpu_display_cmd_body) : plane := about (mk_dcmd b 0 0).

Definition bump_count p (i : Z) (f : plane -> Z -> Z) : plane -> Z -> Z :=
  fun p' i' => if bool_decide (p' = p) && (i' =? i) then f p' i' + 1 else f p' i'.

(** The publisher enters a function of the bridge; a frame's payload was allocated
    before. *)
(* [vgpu-display.c:226-289] vgpu_display_publish_primary_set, vgpu_display_publish_cursor_set, vgpu_display_publish_cursor_move *)
Definition publish (r : request) s : dsys :=
  match r with
  | Req_clear p i => s <| pub := D_clear_check p i |>
  | Req_primary_set i x =>
    let '(ptr, d) := payload_new x (dsh s) in
    s <| dsh := d |> <| pub := D_check (VGPU_DISPLAY_CMD_PRIMARY_SET ptr) i |>
  | Req_cursor_set i x cx cy hx hy =>
    let '(ptr, d) := payload_new x (dsh s) in
    s <| dsh := d |> <| pub := D_check (VGPU_DISPLAY_CMD_CURSOR_SET ptr cx cy hx hy) i |>
  | Req_cursor_move i cx cy => s <| pub := D_check (VGPU_DISPLAY_CMD_CURSOR_MOVE cx cy) i |>
  end.

(** One atomic access of the emulator thread. *)
(* [vgpu-display.c:100-143] vgpu_display_publish_primary_clear, vgpu_display_push_cmd *)
Definition publisher_step s : dsys :=
  let d := dsh s in
  match pub s with
  | D_idle => s
  | D_clear_check p i => s <| pub := if vgpu_display_unavailable d then D_idle else D_clear p i |>
  | D_clear p i =>
    s <| dsh := bump_generation p i d |> <| bumps := bump_count p i (bumps s) |> <| pub := D_idle |>
  | D_check b i =>
    s <| pub := if vgpu_display_unavailable d then D_release (mk_dcmd b i 0) else D_load_gen b i |>
  | D_load_gen b i => s <| pub := D_load_head (mk_dcmd b i (generation (clear_at d (body_plane b) i))) |>
  | D_load_head c => s <| pub := D_load_tail c (vgpu_display_cmd_head d) |>
  | D_load_tail c head =>
    s <| pub := if display_next head =? vgpu_display_cmd_tail d then D_release c else D_store_entry c head |>
  | D_store_entry c head =>
    s <| dsh := d <| vgpu_display_cmd_queue := arr_set (vgpu_display_cmd_queue d) head c |> |>
      <| pub := D_store_head c head |>
  | D_store_head c head =>
    s <| dsh := d <| vgpu_display_cmd_head := display_next head |> |>
      <| dsent := dsent s ++ [c] |> <| pub := D_idle |>
  | D_release c => s <| dsh := vgpu_display_release_cmd c d |> <| pub := D_idle |>
  end.

(** After the last scanout of a plane was found unchanged. *)
Definition after_clears p : window := match p with Primary => W_count Cursor | Cursor => W_load_tail end.

(** One atomic access of the SDL thread. *)
(* [vgpu-display.c:43-199] vgpu_display_is_cmd_stale, vgpu_display_pop_pending_clear_cmd, vgpu_display_pop_queued_cmd, vgpu_display_pop_cmd *)
Definition window_step s : dsys :=
  let d := dsh s in
  match win s with
  | W_idle => s
  | W_count p => s <| win := W_gen p 0 (vgpu_display_scanout_count d) |>
  | W_gen p i n =>
    if negb (i <? n) then s <| win := after_clears p |>
    else if consumed_generation (clear_at d p i) =? generation (clear_at d p i) then s <| win := W_gen p (i + 1) n |>
    else s <| dsh := upd_clear p i (fun st => st <| consumed_generation := generation (clear_at d p i) |>) d |>
           <| win := W_apply (mk_dcmd (clear_body p) i (generation (clear_at d p i))) |>
  | W_load_tail => s <| win := W_load_head (vgpu_display_cmd_tail d) |>
  | W_load_head tail =>
    s <| win := if tail =? vgpu_display_cmd_head d then W_idle else W_load_entry tail |>
  | W_load_entry tail => s <| win := W_store_tail tail (arr_get zero_dcmd (vgpu_display_cmd_queue d) tail) |>
  | W_store_tail tail c =>
    s <| dsh := d <| vgpu_display_cmd_tail := display_next tail |> |>
      <| dgot := dgot s ++ [c] |> <| win := W_stale c |>
  | W_stale c => s <| win := if vgpu_display_is_cmd_stale c d then W_release c else W_apply c |>
  | W_release c => s <| dsh := vgpu_display_release_cmd c d |> <| win := W_count Primary |>
  | W_apply c =>
    s <| dsh := vgpu_display_release_cmd c d |> <| applied := applied s ++ [c] |> <| win := W_count Primary |>
  end.

Definition request_ok (r : request) : Prop :=
  match r with
  | Req_clear _ i | Req_primary_set i _ | Req_cursor_set i _ _ _ _ _ | Req_cursor_move i _ _ =>
      0 <= i < VIRTIO_GPU_MAX_SCANOUTS
  end.

Inductive dsys_step s : dsys -> Prop :=
  | dstep_publish r : pub s = D_idle -> request_ok r -> dsys_step s (publish r s)
  | dstep_drain : win s = W_idle -> dsys_step s (s <| win := W_count Primary |>)
  | dstep_publisher : dsys_step s (publisher_step s)
  | dstep_window : dsys_step s (window_step s).

(** The bridge as main starts it, with the number of scanouts set. *)
Definition dstart (n : Z) (unavailable : bool) : dsys :=
  mk_dsys D_idle W_idle (vgpu_display_set_scanout_count n display_init <| vgpu_display_unavailable := unavailable |>)
    [] [] [] (fun _ _ => 0).
Definition dreachable s : Prop := exists n u, 0 <= n /\ rtc dsys_step (dstart n u) s.

(** ** The ring *)

Definition dcontents d : list vgpu_display_cmd :=
  ring_contents zero_dcmd VGPU_DISPLAY_CMD_QUEUE_SIZE (vgpu_display_cmd_queue d)
    (vgpu_display_cmd_head d) (vgpu_display_cmd_tail d).
Definition dlen d : Z := count VGPU_DISPLAY_CMD_QUEUE_SIZE (vgpu_display_cmd_head d) (vgpu_display_cmd_tail d).
Definition dring_ok d : Prop :=
  length (vgpu_display_cmd_queue d) = 64%nat /\
  in_range VGPU_DISPLAY_CMD_QUEUE_SIZE (vgpu_display_cmd_head d) /\
  in_range VGPU_DISPLAY_CMD_QUEUE_SIZE (vgpu_display_cmd_tail d).

Lemma dsize_pos : 1 < VGPU_DISPLAY_CMD_QUEUE_SIZE.
Proof. reflexivity. Qed.
Lemma display_next_succ i : in_range VGPU_DISPLAY_CMD_QUEUE_SIZE i ->
  display_next i = succ_idx VGPU_DISPLAY_CMD_QUEUE_SIZE i.
Proof.
  intros Hi. apply (land_mask_succ 6); [lia|]. unfold in_range, VGPU_DISPLAY_CMD_QUEUE_SIZE in Hi. lia.
Qed.
Lemma dlen_range d : 0 <= dlen d < VGPU_DISPLAY_CMD_QUEUE_SIZE.
Proof. apply count_range. reflexivity. Qed.

(** ** Ownership of payloads *)

Definition body_owned (b : vgpu_display_cmd_body) : list Z := owned (mk_dcmd b 0 0).
Definition pub_owned (x : publisher) : list Z :=
  match x with
  | D_check b _ | D_load_gen b _ => body_owned b
  | D_load_head c | D_load_tail c _ | D_store_entry c _ | D_store_head c _ | D_release c => owned c
  | _ => []
  end.
Definition win_owned (x : window) : list Z :=
  match x with W_stale c | W_release c | W_apply c => owned c | _ => [] end.

(** Every payload somebody is responsible for. *)
Definition owners s : list Z := pub_owned (pub s) ++ (dcontents (dsh s) ≫= owned) ++ win_owned (win s).

(** ** The invariant *)

(** The ring carries frames and moves only. *)
Definition frame c : Prop := cmd_plane c <> None.

Definition pub_ok (x : publisher) d : Prop :=
  match x with
  | D_clear_check _ i | D_clear _ i => 0 <= i < VIRTIO_GPU_MAX_SCANOUTS
  | D_check b _ | D_load_gen b _ => frame (mk_dcmd b 0 0)
  | D_load_head c => frame c
  | D_load_tail c head => head = vgpu_display_cmd_head d /\ frame c
  | D_store_entry c head =>
      head = vgpu_display_cmd_head d /\ dlen d < VGPU_DISPLAY_CMD_QUEUE_SIZE - 1 /\ frame c
  | D_store_head c head => head = vgpu_display_cmd_head d /\ dlen d < VGPU_DISPLAY_CMD_QUEUE_SIZE - 1 /\
      arr_get zero_dcmd (vgpu_display_cmd_queue d) head = c /\ frame c
  | _ => True
  end.
Definition win_ok (x : window) d : Prop :=
  match x with
  | W_gen _ i n => 0 <= i /\ n <= VIRTIO_GPU_MAX_SCANOUTS
  | W_load_head tail => tail = vgpu_display_cmd_tail d
  | W_load_entry tail => tail = vgpu_display_cmd_tail d /\ 0 < dlen d
  | W_store_tail tail c => tail = vgpu_display_cmd_tail d /\ 0 < dlen d /\
      arr_get zero_dcmd (vgpu_display_cmd_queue d) tail = c
  | W_stale c => frame c
  | _ => True
  end.

(** The commands applied to one plane of one scanout. *)
Definition applied_to p (i : Z) (l : list vgpu_display_cmd) : list Z :=
  dc_generation <$> filter (fun c => about c = p /\ dc_scanout_id c = i) l.
Definition sorted_gens (l : list Z) : Prop := StronglySorted Z.le l.

Record gens_inv s p (i : Z) : Prop := {
  gi_count : 0 <= bumps s p i /\ generation (clear_at (dsh s) p i) = u32 (bumps s p i);
  gi_applied : bumps s p i < 2 ^ 32 ->
    sorted_gens (applied_to p i (applied s)) /\ Forall (fun g => g <= bumps s p i) (applied_to p i (applied s));
  gi_next : bumps s p i < 2 ^ 32 -> forall c, win s = W_apply c -> about c = p -> dc_scanout_id c = i ->
    Forall (fun g => g <= dc_generation c) (applied_to p i (applied s)) /\ dc_generation c <= bumps s p i }.

Record dinv s : Prop := {
  dv_ring : dring_ok (dsh s);
  dv_clears : forall p, length (clears (dsh s) p) = 16%nat;
  dv_count : 0 <= vgpu_display_scanout_count (dsh s) <= VIRTIO_GPU_MAX_SCANOUTS;
  dv_fifo : dsent s = dgot s ++ dcontents (dsh s);
  dv_frames : Forall frame (dsent s);
  dv_pub : pub_ok (pub s) (dsh s);
  dv_win : win_ok (win s) (dsh s);
  dv_safe : bad_free (dsh s) = false;
  dv_once : NoDup (owners s) /\ 0 ∉ owners s;
  dv_live : dom (payload_heap (dsh s)) = list_to_set (owners s);
  dv_gens : forall p i, 0 <= i < VIRTIO_GPU_MAX_SCANOUTS -> gens_inv s p i }.

(** *** Planes and generations *)

Lemma clears_upd p i f d p' : clears (upd_clear p i f d) p' =
  if decide (p' = p) then arr_set (clears d p) i (f (clear_at d p i)) else clears d p'.
Proof. by destruct p, p'. Qed.

Lemma length_clears_upd p i f d p' : length (clears (upd_clear p i f d) p') = length (clears d p').
Proof. rewrite clears_upd. case_decide as H; [rewrite H; apply length_arr_set|done]. Qed.

Lemma clear_at_upd p i f d p' i' : length (clears d p) = 16%nat -> 0 <= i < 16 -> 0 <= i' ->
  clear_at (upd_clear p i f d) p' i' =
  if bool_decide (p' = p) && (i' =? i) then f (clear_at d p i) else clear_at d p' i'.
Proof.
  intros L Hi Hi'. unfold clear_at. rewrite clears_upd. destruct (decide (p' = p)) as [E|E].
  - rewrite E, bool_decide_eq_true_2 by done. destruct (Z.eqb_spec i' i) as [E'|E']; cbn.
    + rewrite E'. apply arr_get_set_eq. lia.
    + apply arr_get_set_ne; [lia|lia|congruence].
  - by rewrite bool_decide_eq_false_2.
Qed.

(** An update of a plane's counters touches nothing else. *)
Lemma upd_clear_frame p i f d : let d' := upd_clear p i f d in
  vgpu_display_cmd_queue d' = vgpu_display_cmd_queue d /\ vgpu_display_cmd_head d' = vgpu_display_cmd_head d /\
  vgpu_display_cmd_tail d' = vgpu_display_cmd_tail d /\ payload_heap d' = payload_heap d /\
  bad_free d' = bad_free d /\ vgpu_display_scanout_count d' = vgpu_display_scanout_count d.
Proof. by destruct p. Qed.

(** The command is of the current generation of its plane. *)
Definition current c d : Prop := dc_generation c = generation (clear_at d (about c) (dc_scanout_id c)).

Lemma not_stale_current c d : cmd_plane c <> None -> vgpu_display_is_cmd_stale c d = false -> current c d.
Proof.
  unfold cmd_plane, vgpu_display_is_cmd_stale, current, about. destruct (dc_body c); try done; intros _ H;
    apply negb_false_iff, Z.eqb_eq in H; done.
Qed.

(** What applying a current command next needs. *)
Lemma current_next s c p i : gens_inv s p i -> bumps s p i < 2 ^ 32 -> current c (dsh s) ->
  about c = p -> dc_scanout_id c = i ->
  Forall (fun g => g <= dc_generation c) (applied_to p i (applied s)) /\ dc_generation c <= bumps s p i.
Proof.
  intros [[B G] A _] Hb C Ep Ei. unfold current in C. rewrite Ep, Ei, G in C.
  rewrite u32_id in C by (unfold is_u32; lia). rewrite C. split; [apply A; lia|lia].
Qed.

(** *** The ring *)

Lemma dring_facts d : dring_ok d -> let h := vgpu_display_cmd_head d in let t := vgpu_display_cmd_tail d in
  (t = h <-> dlen d = 0) /\ (display_next h = t <-> dlen d = VGPU_DISPLAY_CMD_QUEUE_SIZE - 1).
Proof.
  intros (_ & H1 & H2). cbv zeta. rewrite display_next_succ by done.
  split; [by apply (empty_iff _ dsize_pos)|by apply (full_iff _ dsize_pos)].
Qed.

Lemma dpush_entry d c : dring_ok d ->
  let d' := d <| vgpu_display_cmd_queue := arr_set (vgpu_display_cmd_queue d) (vgpu_display_cmd_head d) c |> in
  dring_ok d' /\ dcontents d' = dcontents d /\ dlen d' = dlen d /\
  arr_get zero_dcmd (vgpu_display_cmd_queue d') (vgpu_display_cmd_head d) = c.
Proof.
  intros (L & H1 & H2). cbv zeta. split_and!; try done.
  - split_and!; try done. change (length (arr_set (vgpu_display_cmd_queue d) (vgpu_display_cmd_head d) c) = 64%nat).
    by rewrite length_arr_set.
  - by apply (contents_store _ _ dsize_pos).
  - apply arr_get_set_eq. unfold in_range, VGPU_DISPLAY_CMD_QUEUE_SIZE in H1. lia.
Qed.

Lemma dpush_head d c : dring_ok d -> dlen d < VGPU_DISPLAY_CMD_QUEUE_SIZE - 1 ->
  arr_get zero_dcmd (vgpu_display_cmd_queue d) (vgpu_display_cmd_head d) = c ->
  let d' := d <| vgpu_display_cmd_head := display_next (vgpu_display_cmd_head d) |> in
  dring_ok d' /\ dcontents d' = dcontents d ++ [c] /\ dlen d' = dlen d + 1.
Proof.
  intros (L & H1 & H2) Hl <-. cbv zeta. rewrite display_next_succ by done. split_and!.
  - split_and!; [done|apply (succ_in _ dsize_pos)|done].
  - by apply (contents_push _ _ dsize_pos).
  - by apply (count_push _ dsize_pos).
Qed.

Lemma dpop_tail d : dring_ok d -> 0 < dlen d ->
  let d' := d <| vgpu_display_cmd_tail := display_next (vgpu_display_cmd_tail d) |> in
  dring_ok d' /\ dlen d' = dlen d - 1 /\
  dcontents d = arr_get zero_dcmd (vgpu_display_cmd_queue d) (vgpu_display_cmd_tail d) :: dcontents d'.
Proof.
  intros (L & H1 & H2) Hl. cbv zeta. rewrite display_next_succ by done. split_and!.
  - split_and!; [done|done|apply (succ_in _ dsize_pos)].
  - by apply (count_pop _ dsize_pos).
  - by apply (contents_pop _ _ dsize_pos).
Qed.

(** *** Payloads *)

Lemma owned_body b i g : owned (mk_dcmd b i g) = body_owned b.
Proof. done. Qed.

(** Releasing a command frees what it owns and nothing else. *)
Lemma release_spec c d rest : NoDup (owned c ++ rest) -> 0 ∉ owned c ++ rest ->
  dom (payload_heap d) = list_to_set (owned c ++ rest) ->
  exists h, vgpu_display_release_cmd c d = d <| payload_heap := h |> /\ dom h = list_to_set rest.
Proof.
  assert (F : forall ptr, owned c = [ptr] -> NoDup (ptr :: rest) -> 0 ∉ ptr :: rest ->
    dom (payload_heap d) = list_to_set (ptr :: rest) ->
    exists h, payload_free ptr d = d <| payload_heap := h |> /\ dom h = list_to_set rest).
  { intros ptr _ N Z0 Dm. apply NoDup_cons in N as [N _]. unfold payload_free.
    destruct (Z.eqb_spec ptr 0) as [E|E]; [exfalso; apply Z0; rewrite E; set_solver|].
    rewrite bool_decide_eq_true_2.
    - exists (delete ptr (payload_heap d)). split; [done|]. rewrite dom_delete_L, Dm. set_solver.
    - apply elem_of_dom. rewrite Dm. set_solver. }
  unfold vgpu_display_release_cmd. unfold owned in *. destruct (dc_body c); cbn [app]; intros N Z0 Dm;
    (by eapply F) || (exists (payload_heap d); by destruct d).
Qed.

Tactic Notation "dsimp" := cbn [pub win dsh dsent dgot applied bumps setter set_pub set_win set_dsh set_dsent
  set_dgot set_applied set_bumps].
Tactic Notation "dsimp" "in" "*" := cbn [pub win dsh dsent dgot applied bumps setter set_pub set_win set_dsh
  set_dsent set_dgot set_applied set_bumps] in *.

(** *** Preservation

    [dinv_step] assembles the invariant of a state from its parts: the ring and the
    planes of the new bridge state, the owners up to order, and the generations. *)

Lemma gens_keep s s' p i : gens_inv s p i -> bumps s' = bumps s -> applied s' = applied s ->
  generation (clear_at (dsh s') p i) = generation (clear_at (dsh s) p i) ->
  (forall c, win s' = W_apply c -> win s = W_apply c \/ current c (dsh s)) -> gens_inv s' p i.
Proof.
  intros G B A E W. pose proof G as [G1 G2 G3]. constructor; rewrite ?B, ?A, ?E; [done|done|].
  intros Hb c Hw Ep Ei. destruct (W c Hw) as [H|H]; [by apply G3|by apply (current_next s)].
Qed.

(** A thread moves on without touching the shared state. *)
Lemma dinv_pc s x w : dinv s -> pub_ok x (dsh s) -> win_ok w (dsh s) ->
  pub_owned x = pub_owned (pub s) -> win_owned w = win_owned (win s) ->
  (forall c, w = W_apply c -> win s = W_apply c \/ current c (dsh s)) ->
  dinv (s <| pub := x |> <| win := w |>).
Proof.
  intros [] Hx Hw Ox Ow Hc. constructor; try done; unfold owners in *;
    dsimp in *; rewrite ?Ox, ?Ow; try done.
  intros p i Hi. by apply (gens_keep s); [auto| | | |].
Qed.
Lemma dinv_pub s x : dinv s -> pub_ok x (dsh s) -> pub_owned x = pub_owned (pub s) -> dinv (s <| pub := x |>).
Proof. intros H Hx Ox. apply (dinv_pc s x (win s)); try done; [apply H|auto]. Qed.
Lemma dinv_win s w : dinv s -> win_ok w (dsh s) -> win_owned w = win_owned (win s) ->
  (forall c, w = W_apply c -> win s = W_apply c \/ current c (dsh s)) -> dinv (s <| win := w |>).
Proof. intros H Hw Ow Hc. apply (dinv_pc s (pub s) w); try done. apply H. Qed.

(** The heap changes; the ring and the planes do not. *)
Lemma dinv_heap s s' hp : dinv s -> dsh s' = (dsh s) <| payload_heap := hp |> ->
  pub_ok (pub s') (dsh s) -> win_ok (win s') (dsh s) -> dsent s' = dsent s -> dgot s' = dgot s ->
  NoDup (owners s') -> 0 ∉ owners s' -> dom hp = list_to_set (owners s') ->
  (forall p i, 0 <= i < VIRTIO_GPU_MAX_SCANOUTS -> gens_inv s' p i) -> dinv s'.
Proof.
  intros I E Hx Hw Es Eg N Z0 Dm G.
  constructor; rewrite ?E, ?Es, ?Eg; try (apply I); try done; try (by destruct (pub s')); try (by destruct (win s')).
Qed.

(** A party releases a command it owns. *)
Lemma dinv_release s s' c rest : dinv s -> owners s ≡ₚ owned c ++ rest -> owners s' ≡ₚ rest ->
  dsh s' = vgpu_display_release_cmd c (dsh s) ->
  pub_ok (pub s') (dsh s) -> win_ok (win s') (dsh s) -> dsent s' = dsent s -> dgot s' = dgot s ->
  (forall p i, 0 <= i < VIRTIO_GPU_MAX_SCANOUTS ->
     (forall q j, generation (clear_at (dsh s') q j) = generation (clear_at (dsh s) q j)) -> gens_inv s' p i) ->
  dinv s'.
Proof.
  intros I P P' E Hx Hw Es Eg G. destruct (dv_once s I) as [N Z0]. pose proof (dv_live s I) as Dm.
  rewrite P in N, Z0. destruct (release_spec c (dsh s) rest) as (hp & Eh & Dh); [done|done| |].
  { rewrite Dm. apply set_eq. intros x. rewrite !elem_of_list_to_set. by rewrite P. }
  rewrite Eh in E. apply (dinv_heap s s' hp); try done.
  - rewrite P'. by apply NoDup_app in N as (_ & _ & ?).
  - rewrite P'. set_solver.
  - rewrite Dh. apply set_eq. intros x. rewrite !elem_of_list_to_set. by rewrite P'.
  - intros p i Hi. apply G; [done|]. by rewrite E.
Qed.

Lemma owners_release s c : win_owned (win s) = owned c ->
  owners s ≡ₚ owned c ++ pub_owned (pub s) ++ (dcontents (dsh s) ≫= owned).
Proof. intros E. unfold owners. rewrite E. solve_Permutation. Qed.

Lemma dcontents_release c d : dcontents (vgpu_display_release_cmd c d) = dcontents d.
Proof. unfold vgpu_display_release_cmd, payload_free. by repeat case_match. Qed.

(** A step on the ring: the planes and the heap stay. *)
Lemma dinv_ring s s' : dinv s -> dring_ok (dsh s') ->
  (forall p, clears (dsh s') p = clears (dsh s) p) ->
  vgpu_display_scanout_count (dsh s') = vgpu_display_scanout_count (dsh s) ->
  payload_heap (dsh s') = payload_heap (dsh s) -> bad_free (dsh s') = bad_free (dsh s) ->
  dsent s' = dgot s' ++ dcontents (dsh s') -> Forall frame (dsent s') -> pub_ok (pub s') (dsh s') -> win_ok (win s') (dsh s') ->
  owners s' ≡ₚ owners s -> bumps s' = bumps s -> applied s' = applied s ->
  (forall c, win s' = W_apply c -> win s = W_apply c) -> dinv s'.
Proof.
  intros I Hr Hc Hn Hh Hb Hf Hfr Hx Hw P Eb Ea Hwin. destruct (dv_once s I) as [N Z0].
  constructor; rewrite ?Hn, ?Hh, ?Hb; try done; try (apply I).
  - intros p. rewrite Hc. apply I.
  - by rewrite P.
  - rewrite (dv_live s I). apply set_eq. intros x. rewrite !elem_of_list_to_set. by rewrite P.
  - intros p i Hi. apply (gens_keep s); try done; [by apply I| |by auto].
    unfold clear_at. by rewrite Hc.
Qed.

(** A clear of a plane advances its generation. *)
Lemma clear_step_inv s p i : dinv s -> 0 <= i < VIRTIO_GPU_MAX_SCANOUTS -> pub_owned (pub s) = [] ->
  dinv (s <| dsh := bump_generation p i (dsh s) |> <| bumps := bump_count p i (bumps s) |> <| pub := D_idle |>).
Proof.
  intros I Hi Ho. destruct (upd_clear_frame p i (fun st => st <| generation := u32 (generation st + 1) |>) (dsh s))
    as (F1 & F2 & F3 & F4 & F5 & F6). fold (bump_generation p i (dsh s)) in *.
  assert (Ec : dcontents (bump_generation p i (dsh s)) = dcontents (dsh s)) by (unfold dcontents; congruence).
  assert (El : dlen (bump_generation p i (dsh s)) = dlen (dsh s)) by (unfold dlen; congruence).
  assert (Eo : owners (s <| dsh := bump_generation p i (dsh s) |> <| bumps := bump_count p i (bumps s) |>
                         <| pub := D_idle |>) = owners s).
  { unfold owners. dsimp. by rewrite Ec, Ho. }
  constructor; rewrite ?Eo; dsimp; rewrite ?F4, ?F5, ?F6, ?Ec; try (apply I).
  - unfold dring_ok. rewrite F1, F2, F3. apply I.
  - intros q. unfold bump_generation. rewrite length_clears_upd. apply I.
  - done.
  - pose proof (dv_win s I) as W. destruct (win s); cbn in *; rewrite ?F1, ?F3, ?El; done.
  - intros q j Hj. destruct (dv_gens s I q j Hj) as [[G0 G1] G2 G3].
    pose proof (dv_clears s I p) as L.
    assert (Eb : bump_count p i (bumps s) q j = bumps s q j \/
      (bump_count p i (bumps s) q j = bumps s q j + 1)) by (unfold bump_count; case_match; lia).
    constructor; dsimp.
    + split; [lia|]. unfold bump_generation. rewrite clear_at_upd by (done || lia). unfold bump_count.
      destruct (bool_decide (q = p) && (j =? i)) eqn:E; [|done].
      apply andb_true_iff in E as [E1%bool_decide_eq_true E2%Z.eqb_eq]. rewrite <- E1, <- E2.
      cbn [generation]. rewrite G1. unfold u32. rewrite Zplus_mod_idemp_l. done.
    + intros Hb. destruct G2 as [S F]; [lia|]. split; [done|]. eapply Forall_impl; [done|]. cbn. lia.
    + intros Hb c Hc E1 E2. destruct (G3 ltac:(lia) c Hc E1 E2). split; [done|lia].
Qed.

Lemma publisher_step_inv s : dinv s -> dinv (publisher_step s).
Proof.
  intros I. pose proof (dv_pub s I) as P. pose proof (dv_ring s I) as R. pose proof (dring_facts _ R) as [_ F].
  unfold publisher_step. destruct (pub s) as [|p i|p i|b i|b i|c|c head|c head|c head|c] eqn:Ep.
  - done.
  - apply dinv_pub; [done|by case_match|rewrite Ep; by case_match].
  - apply clear_step_inv; [done|done|by rewrite Ep].
  - apply dinv_pub; [done|by case_match|rewrite Ep; by case_match].
  - apply dinv_pub; [done|done|by rewrite Ep].
  - apply dinv_pub; [done|done|by rewrite Ep].
  - destruct P as [-> Hfr]. apply dinv_pub; [done| |rewrite Ep; by case_match].
    destruct (Z.eqb_spec (display_next (vgpu_display_cmd_head (dsh s))) (vgpu_display_cmd_tail (dsh s))) as [|Ne];
      [done|]. split_and!; [done| |done]. pose proof (dlen_range (dsh s)). lia.
  - destruct P as (-> & Hl & Hfr). destruct (dpush_entry (dsh s) c R) as (R' & C' & L' & E').
    apply (dinv_ring s); try done; try (intros []; done).
    + dsimp. rewrite C'. apply I.
    + apply I.
    + pose proof (dv_win s I) as W. clear -W R Hl. dsimp. destruct (win s); try done; cbn in *.
      destruct W as (-> & Hp & <-). split_and!; try done. pose proof (dring_facts _ R) as [Fe _].
      destruct R as (_ & H1 & H2). apply arr_get_set_ne; [apply H1|apply H2|lia].
    + unfold owners. dsimp. rewrite C', Ep. done.
  - destruct P as (-> & Hl & Hc & Hfr). destruct (dpush_head (dsh s) c R Hl Hc) as (R' & C' & L').
    apply (dinv_ring s); try done; try (intros []; done).
    + dsimp. rewrite C', app_assoc. f_equal. apply I.
    + apply Forall_app. split; [apply I|by constructor].
    + pose proof (dv_win s I) as W. clear -W R L'. dsimp. destruct (win s); try done; cbn in *;
        destruct W as (-> & Hp); [split; [done|lia]|]. destruct Hp as (Hp & <-). split_and!; [done|lia|done].
    + unfold owners. dsimp. rewrite C', Ep, bind_app. cbn. rewrite app_nil_r. solve_Permutation.
  - eapply (dinv_release s _ c ((dcontents (dsh s) ≫= owned) ++ win_owned (win s))); try done; try apply I.
    + unfold owners. by rewrite Ep.
    + unfold owners. dsimp. by rewrite dcontents_release.
    + intros p i Hi Hg. apply (gens_keep s); try done; [by apply I|by auto].
Qed.

(** The SDL thread notices a clear. *)
Lemma consume_clear_inv s p i : dinv s -> 0 <= i < VIRTIO_GPU_MAX_SCANOUTS -> win_owned (win s) = [] ->
  dinv (s <| dsh := upd_clear p i (fun st => st <| consumed_generation := generation (clear_at (dsh s) p i) |>) (dsh s) |>
          <| win := W_apply (mk_dcmd (clear_body p) i (generation (clear_at (dsh s) p i))) |>).
Proof.
  intros I Hi Ho. set (f := fun st => st <| consumed_generation := generation (clear_at (dsh s) p i) |>).
  destruct (upd_clear_frame p i f (dsh s)) as (F1 & F2 & F3 & F4 & F5 & F6).
  set (d' := upd_clear p i f (dsh s)) in *.
  assert (Ec : dcontents d' = dcontents (dsh s)) by (unfold dcontents; congruence).
  assert (El : dlen d' = dlen (dsh s)) by (unfold dlen; congruence).
  assert (Eo : owners (s <| dsh := d' |> <| win := W_apply (mk_dcmd (clear_body p) i (generation (clear_at (dsh s) p i))) |>)
               = owners s).
  { unfold owners. dsimp. rewrite Ec, Ho. by destruct p. }
  constructor; rewrite ?Eo; dsimp; rewrite ?F4, ?F5, ?F6, ?Ec; try (apply I).
  - unfold dring_ok. rewrite F1, F2, F3. apply I.
  - intros q. unfold d'. rewrite length_clears_upd. apply I.
  - pose proof (dv_pub s I) as P. destruct (pub s); cbn in *; rewrite ?F1, ?F2, ?El; done.
  - done.
  - intros q j Hj. apply (gens_keep s); try done; [by apply I| |].
    + dsimp. unfold d'. pose proof (dv_clears s I p). rewrite clear_at_upd by (done || lia).
      destruct (bool_decide (q = p) && (j =? i)) eqn:E; [|done].
      apply andb_true_iff in E as [E1%bool_decide_eq_true E2%Z.eqb_eq]. by rewrite <- E1, <- E2.
    + dsimp. intros c [= <-]. right. unfold current, about. by destruct p.
Qed.

(** The window has applied a command. *)
Lemma applied_snoc p i l c : applied_to p i (l ++ [c]) =
  applied_to p i l ++ (if decide (about c = p /\ dc_scanout_id c = i) then [dc_generation c] else []).
Proof. unfold applied_to. rewrite filter_app, fmap_app. f_equal. cbn. by case_decide. Qed.

Lemma sorted_snoc l g : sorted_gens l -> Forall (fun x => x <= g) l -> sorted_gens (l ++ [g]).
Proof.
  intros S F. induction S as [|x l S IH Hx]; [repeat constructor|]. apply Forall_cons in F as [Fx F].
  cbn. constructor; [by apply IH|]. rewrite Forall_app. split; [done|]. by repeat constructor.
Qed.

Lemma apply_gens s p i c : gens_inv s p i -> win s = W_apply c -> forall hp,
  gens_inv (s <| dsh := (dsh s) <| payload_heap := hp |> |> <| applied := applied s ++ [c] |>
              <| win := W_count Primary |>) p i.
Proof.
  intros [G0 G1 G2] Ew hp. constructor; dsimp; [done| |congruence].
  intros Hb. destruct (G1 Hb) as [S F]. rewrite applied_snoc. case_decide as E; [|by rewrite app_nil_r].
  destruct (G2 Hb c Ew (proj1 E) (proj2 E)) as [Fc Hc]. split; [by apply sorted_snoc|].
  rewrite Forall_app. split; [done|]. by repeat constructor.
Qed.

Lemma release_heap_only c d : exists hp b, vgpu_display_release_cmd c d = d <| payload_heap := hp |> <| bad_free := b |>.
Proof.
  assert (F : forall ptr, exists hp b, payload_free ptr d = d <| payload_heap := hp |> <| bad_free := b |>).
  { intros ptr. unfold payload_free. repeat case_match.
    - exists (payload_heap d), (bad_free d). by destruct d.
    - exists (delete ptr (payload_heap d)), (bad_free d). by destruct d.
    - exists (payload_heap d), true. by destruct d. }
  unfold vgpu_display_release_cmd. destruct (dc_body c); try apply F;
    exists (payload_heap d), (bad_free d); by destruct d.
Qed.

Lemma window_step_inv s : dinv s -> dinv (window_step s).
Proof.
  intros I. pose proof (dv_win s I) as W. pose proof (dv_ring s I) as R. pose proof (dring_facts _ R) as [F _].
  unfold window_step. destruct (win s) as [|p|p i n| |tail|tail|tail c|c|c|c] eqn:Ew.
  - done.
  - pose proof (dv_count s I). apply dinv_win; [done|cbn; lia|by rewrite Ew|done].
  - cbn in W. destruct (Z.ltb_spec i n) as [Hi|Hi]; cbn [negb].
    + case_match.
      * apply dinv_win; [done|cbn; lia|by rewrite Ew|done].
      * apply consume_clear_inv; [done|lia|by rewrite Ew].
    + apply dinv_win; [done|by destruct p|rewrite Ew; by destruct p|by destruct p].
  - apply dinv_win; [done|done|by rewrite Ew|done].
  - cbn in W. subst tail. apply dinv_win; [done| |rewrite Ew; by case_match|by case_match].
    destruct (Z.eqb_spec (vgpu_display_cmd_tail (dsh s)) (vgpu_display_cmd_head (dsh s))); [done|].
    split; [done|]. pose proof (dlen_range (dsh s)). lia.
  - destruct W as [-> Hl]. apply dinv_win; [done|done|by rewrite Ew|done].
  - destruct W as (-> & Hl & Hc). destruct (dpop_tail (dsh s) R Hl) as (R' & L' & C'). rewrite Hc in C'.
    apply (dinv_ring s); try done; try (intros []; done).
    + dsimp. rewrite (dv_fifo s I), C', <- app_assoc. done.
    + apply I.
    + pose proof (dv_pub s I) as P. clear -P R L' Hl. dsimp. destruct (pub s); try done; cbn in *;
        destruct P as (-> & Hp); [split_and!; [done|lia|apply Hp]|]. split_and!; [done|lia| |]; apply Hp.
    + pose proof (dv_frames s I) as Fr. rewrite (dv_fifo s I), C' in Fr.
      apply Forall_app in Fr as [_ Fr]. by apply Forall_cons in Fr as [? _].
    + unfold owners. dsimp. rewrite C', Ew. cbn. rewrite app_nil_r. solve_Permutation.
  - destruct (vgpu_display_is_cmd_stale c (dsh s)) eqn:Es.
    + apply dinv_win; [done|done|by rewrite Ew|done].
    + apply dinv_win; [done|done|by rewrite Ew|]. intros c' [= <-]. right.
      by apply not_stale_current.
  - apply (dinv_release s _ c _ I (owners_release s c ltac:(by rewrite Ew))); try done; [|apply I|].
    + unfold owners. dsimp. rewrite dcontents_release. cbn. by rewrite app_nil_r.
    + intros p i Hi Hg. apply (gens_keep s); try done; by apply I.
  - destruct (release_heap_only c (dsh s)) as (hp & b & E).
    apply (dinv_release s _ c _ I (owners_release s c ltac:(by rewrite Ew))); try done; [|apply I|].
    + unfold owners. dsimp. rewrite dcontents_release. cbn. by rewrite app_nil_r.
    + intros p i Hi _. rewrite E. destruct (apply_gens s p i c (dv_gens s I p i Hi) Ew hp). done.
Qed.

(** A frame enters with a fresh payload. *)
Lemma publish_payload_inv s x b i ptr d' : dinv s -> pub s = D_idle -> payload_new x (dsh s) = (ptr, d') ->
  body_owned b = [ptr] -> frame (mk_dcmd b 0 0) -> dinv (s <| dsh := d' |> <| pub := D_check b i |>).
Proof.
  intros I Ep E Hb Hf. unfold payload_new in E. injection E as E1 E2.
  pose proof (is_fresh (dom (payload_heap (dsh s)) ∪ {[0]})) as Fr. rewrite E1 in Fr, E2.
  destruct (dv_once s I) as [N Z0]. pose proof (dv_live s I) as Dm.
  assert (Eo : owners (s <| dsh := d' |> <| pub := D_check b i |>) = ptr :: owners s).
  { unfold owners. dsimp. rewrite Ep. cbn [pub_owned]. rewrite Hb, <- E2. done. }
  eapply (dinv_heap s _ (<[ptr:=x]> (payload_heap (dsh s)))); try rewrite Eo; try done; try apply I.
  - constructor; [|done]. intros H. apply Fr, elem_of_union_l. rewrite Dm. by apply elem_of_list_to_set.
  - set_solver.
  - rewrite dom_insert_L, Dm. done.
  - intros p j Hj. apply (gens_keep s); try done; [by apply I| |by auto]. dsimp. by rewrite <- E2.
Qed.

Lemma publish_inv r s : dinv s -> pub s = D_idle -> request_ok r -> dinv (publish r s).
Proof.
  intros I Ep Hr. destruct r as [p i|i x|i x cx cy hx hy|i cx cy]; cbn [publish].
  - apply dinv_pub; [done|done|by rewrite Ep].
  - destruct (payload_new x (dsh s)) as [ptr d'] eqn:E. by eapply publish_payload_inv.
  - destruct (payload_new x (dsh s)) as [ptr d'] eqn:E. by eapply publish_payload_inv.
  - apply dinv_pub; [done|done|by rewrite Ep].
Qed.

Lemma dsys_step_inv s s' : dinv s -> dsys_step s s' -> dinv s'.
Proof.
  intros I [r Ep Hr|Ew| |].
  - by apply publish_inv.
  - apply dinv_win; [done|done|by rewrite Ew|done].
  - by apply publisher_step_inv.
  - by apply window_step_inv.
Qed.

Lemma dstart_inv n u : 0 <= n -> dinv (dstart n u).
Proof.
  intros Hn. constructor; try done; try (intros []; done).
  - change (0 <= (if VIRTIO_GPU_MAX_SCANOUTS <? n then VIRTIO_GPU_MAX_SCANOUTS else n) <= VIRTIO_GPU_MAX_SCANOUTS).
    unfold VIRTIO_GPU_MAX_SCANOUTS. destruct (Z.ltb_spec 16 n); lia.
  - split; [constructor|]. intros H. inversion H.
  - intros p i Hi. constructor; try done; [|split; constructor]. split; [done|].
    unfold clear_at. assert (E : clears (dsh (dstart n u)) p = replicate 16 zero_clear) by (by destruct p).
    rewrite E, arr_get_replicate. done.
Qed.

Lemma dreachable_inv s : dreachable s -> dinv s.
Proof.
  intros (n & u & Hn & Hr). apply (dstart_inv n u) in Hn. revert Hn.
  induction Hr as [|s1 s2 s3 H12 _ IH]; [done|]. intros I. apply IH. by eapply dsys_step_inv.
Qed.

(** C22: Frame payloads have exactly one owner under every interleaving of the
    emulator thread and the SDL thread. At any reachable moment the ring holds at
    most 63 commands, which are the published ones not yet taken, oldest first; no
    payload was freed twice or freed without being allocated; and the allocated
    payloads are exactly those of the command the emulator thread is publishing, of
    the commands in the ring and of the command the SDL thread is handling, each
    once, so that nothing is leaked and nothing dangles. *)
Theorem display_payload_ownership s : dreachable s ->
  dsent s = dgot s ++ dcontents (dsh s) /\
  Z.of_nat (length (dcontents (dsh s))) <= VGPU_DISPLAY_CMD_QUEUE_SIZE - 1 /\
  bad_free (dsh s) = false /\ NoDup (owners s) /\
  dom (payload_heap (dsh s)) = list_to_set (owners s).
Proof.
  intros Hr. pose proof (dreachable_inv s Hr) as I. split_and!; try apply I.
  unfold dcontents. rewrite (length_contents _ _ dsize_pos). pose proof (dlen_range (dsh s)). unfold dlen in *. lia.
Qed.

(** C23: No stale image is displayed, under every interleaving. As long as a plane
    has been cleared fewer than 2^32 times, the clear and frame commands the window
    applied to it come in the order of their generations: once the window has
    applied a clear, it never applies a frame or a cursor move that was published
    before that clear. *)
Theorem display_never_stale s p i l1 l2 c1 c2 : dreachable s -> 0 <= i < VIRTIO_GPU_MAX_SCANOUTS ->
  bumps s p i < 2 ^ 32 -> applied s = l1 ++ c1 :: l2 -> c2 ∈ l2 ->
  about c1 = p -> dc_scanout_id c1 = i -> about c2 = p -> dc_scanout_id c2 = i ->
  dc_generation c1 <= dc_generation c2.
Proof.
  intros Hr Hi Hb E Hin P1 S1 P2 S2. destruct (gi_applied s p i (dv_gens s (dreachable_inv s Hr) p i Hi) Hb) as [S _].
  unfold applied_to in S. rewrite E, filter_app, fmap_app, filter_cons_True in S by done. cbn in S.
  assert (S' : sorted_gens (dc_generation c1 :: (dc_generation <$> filter (fun c => about c = p /\ dc_scanout_id c = i) l2))).
  { clear -S. induction (dc_generation <$> filter _ l1) as [|x l IH]; [done|]. apply IH. by inversion S. }
  apply StronglySorted_inv in S' as [_ F]. rewrite Forall_forall in F. apply F, list_elem_of_fmap_2.
  by apply list_elem_of_filter.
Qed.

(** ** The functions alone *)

(** A schedule: which thread moves. *)
Inductive choice := Pub (r : request) | Drain_queue | Emu | Sdl_thread.
Definition choose (x : choice) s : dsys :=
  match x with
  | Pub r => match pub s with D_idle => publish r s | _ => s end
  | Drain_queue => match win s with W_idle => s <| win := W_count Primary |> | _ => s end
  | Emu => publisher_step s
  | Sdl_thread => window_step s
  end.

Lemma choose_reachable xs : forall s, Forall (fun x => match x with Pub r => request_ok r | _ => True end) xs ->
  dreachable s -> dreachable (foldl (fun s x => choose x s) s xs).
Proof.
  induction xs as [|x xs IH]; intros s F Hr; [done|]. apply Forall_cons in F as [Fx F]. cbn. apply IH; [done|].
  destruct Hr as (n & u & Hn & Hr). exists n, u. split; [done|].
  destruct x as [r| | |]; cbn [choose].
  - destruct (pub s) eqn:E; try done. eapply rtc_r; [done|]. by apply dstep_publish.
  - destruct (win s) eqn:E; try done. eapply rtc_r; [done|]. by apply dstep_drain.
  - eapply rtc_r; [done|apply dstep_publisher].
  - eapply rtc_r; [done|apply dstep_window].
Qed.

Definition sample_payload : vgpu_display_payload := mk_payload 1 1 1 4 32 [1; 2; 3; 4].

(** The SDL thread passes the checks for clears; then the guest clears the primary
    plane and publishes a frame; then the SDL thread goes on. *)
Definition race : list choice :=
  [Drain_queue] ++ replicate 6 Sdl_thread ++
  [Pub (Req_clear Primary 0); Emu; Emu] ++
  Pub (Req_primary_set 0 sample_payload) :: replicate 6 Emu ++
  replicate 30 Sdl_thread.

(** The window can end blank although the guest's last command was a frame.
    There is a schedule in which the guest clears the primary plane and then
    publishes a frame, between the window's check for clears and its look at the
    ring: the window applies the new frame first and the older clear after it, with
    the same generation, and drops the image. Both threads are idle afterwards and
    nothing is waiting. *)
Theorem display_clear_overtakes_frame : exists s, dreachable s /\ pub s = D_idle /\ win s = W_idle /\
  dcontents (dsh s) = [] /\ (dc_body <$> dsent s) = [VGPU_DISPLAY_CMD_PRIMARY_SET 1] /\
  bumps s Primary 0 = 1 /\ (dc_generation <$> dsent s) = [1] /\
  applied s = dsent s ++ [mk_dcmd VGPU_DISPLAY_CMD_PRIMARY_CLEAR 0 1].
Proof.
  exists (foldl (fun s x => choose x s) (dstart 1 false) race). split.
  - apply choose_reachable; [repeat constructor; cbn; unfold VIRTIO_GPU_MAX_SCANOUTS; lia|].
    exists 1, false. split; [lia|constructor].
  - vm_compute. repeat split.
Qed.
