(* ===== verification/VgpuProps.v ===== *)
(** * What the display bridge hands out

    [vgpu_display_pop_cmd] specified on the abstract view of the bridge: the
    scanouts with a pending clear, per plane, and the sequence of queued commands. *)

From stdpp Require Import base gmap list.
From Stdlib Require Import ZArith Lia Bool.
From S2P Require Import Prelude Ring VgpuDisplay VgpuConc.
Open Scope Z_scope.

Implicit Types (d : vgpu_display) (c : vgpu_display_cmd) (p : plane).

(** The scanouts whose clear the window has not seen. *)
Definition is_pending d p (i : Z) : Prop := consumed_generation (clear_at d p i) <> generation (clear_at d p i).
#[export] Instance is_pending_dec d p i : Decision (is_pending d p i) := ltac:(unfold is_pending; apply _).
Definition pending d p : list Z := filter (is_pending d p) (seqZ 0 (vgpu_display_scanout_count d)).

Record bridge_ok d : Prop := {
  bo_ring : dring_ok d;
  bo_clears : forall p, length (clears d p) = 16%nat;
  bo_count : 0 <= vgpu_display_scanout_count d <= VIRTIO_GPU_MAX_SCANOUTS }.

Definition the_clear d p (i : Z) : vgpu_display_cmd := mk_dcmd (clear_body p) i (generation (clear_at d p i)).
Definition seen p (i : Z) d : vgpu_display :=
  upd_clear p i (fun st => st <| consumed_generation := generation (clear_at d p i) |>) d.

Lemma pending_from n : forall p i d, pending_clear_from n p i d =
  match filter (is_pending d p) (seqZ i (Z.of_nat n)) with
  | [] => (None, d) | j :: _ => (Some (the_clear d p j), seen p j d) end.
Proof.
  induction n as [|n IH]; intros p i d; [done|]. cbn [pending_clear_from].
  rewrite seqZ_cons by lia. replace (Z.pred (Z.of_nat (S n))) with (Z.of_nat n) by lia.
  destruct (Z.eqb_spec (consumed_generation (clear_at d p i)) (generation (clear_at d p i))) as [E|E].
  - rewrite filter_cons_False by (unfold is_pending; tauto). rewrite IH. done.
  - rewrite filter_cons_True by done. done.
Qed.

Lemma pop_pending_spec p d : bridge_ok d -> vgpu_display_pop_pending_clear_cmd p d =
  match pending d p with [] => (None, d) | j :: _ => (Some (the_clear d p j), seen p j d) end.
Proof.
  intros H. unfold vgpu_display_pop_pending_clear_cmd, pending. rewrite pending_from.
  pose proof (bo_count d H). by rewrite Z2Nat.id by lia.
Qed.

Lemma seen_ok p i d : bridge_ok d -> bridge_ok (seen p i d).
Proof.
  intros [R L C]. destruct (upd_clear_frame p i (fun st => st <| consumed_generation := generation (clear_at d p i) |>) d)
    as (F1 & F2 & F3 & F4 & F5 & F6). fold (seen p i d) in *. constructor.
  - unfold dring_ok. by rewrite F1, F2, F3.
  - intros q. unfold seen. rewrite length_clears_upd. apply L.
  - by rewrite F6.
Qed.

(** The clear handed out is no longer pending; the others are. *)
Lemma pending_seen p i d q : bridge_ok d -> 0 <= i < VIRTIO_GPU_MAX_SCANOUTS ->
  pending (seen p i d) q = if decide (q = p) then filter (fun j => j <> i) (pending d q) else pending d q.
Proof.
  intros H Hi. destruct H as [R L C].
  destruct (upd_clear_frame p i (fun st => st <| consumed_generation := generation (clear_at d p i) |>) d)
    as (_ & _ & _ & _ & _ & F6). fold (seen p i d) in *. unfold pending. rewrite F6.
  assert (P : forall j, j ∈ seqZ 0 (vgpu_display_scanout_count d) ->
    (is_pending (seen p i d) q j <-> is_pending d q j /\ ~ (q = p /\ j = i))).
  { intros j Hj%elem_of_seqZ. unfold is_pending, seen. rewrite clear_at_upd by (apply L || done || lia).
    destruct (decide (q = p)) as [E|E].
    - rewrite bool_decide_eq_true_2 by done. destruct (Z.eqb_spec j i) as [E'|E']; cbn; [|tauto].
      split; [congruence|tauto].
    - rewrite bool_decide_eq_false_2 by done. cbn. tauto. }
  revert P. generalize (seqZ 0 (vgpu_display_scanout_count d)). intros l P.
  assert (Hf : filter (is_pending (seen p i d) q) l =
    filter (fun j => ~ (q = p /\ j = i)) (filter (is_pending d q) l)).
  { rewrite list_filter_filter. induction l as [|j l IH]; [done|].
    pose proof (P j ltac:(left)) as Pj. specialize (IH (fun k Hk => P k (list_elem_of_further _ _ _ Hk))).
    rewrite !filter_cons, IH. repeat case_decide; done || (exfalso; tauto). }
  rewrite Hf. destruct (decide (q = p)) as [E|E].
  - apply list_filter_iff. intros j. tauto.
  - clear -E. induction (filter (is_pending d q) l) as [|j l' IH]; [done|].
    rewrite (filter_cons_True (fun j0 => ~ (q = p /\ j0 = i))) by tauto. by rewrite IH.
Qed.

Lemma release_ok c d : bridge_ok d -> bridge_ok (vgpu_display_release_cmd c d).
Proof. intros [R L C]. destruct (release_heap_only c d) as (hp & b & ->).
  constructor; [done|intros []; [apply (L Primary)|apply (L Cursor)]|done].
Qed.

Lemma tail_ok d : bridge_ok d -> 0 < dlen d ->
  bridge_ok (d <| vgpu_display_cmd_tail := display_next (vgpu_display_cmd_tail d) |>).
Proof.
  intros [R L C] Hl. destruct (dpop_tail d R Hl) as (R' & _). constructor; [done| |done]. intros []; [apply (L Primary)|apply (L Cursor)].
Qed.

(** The view of the bridge is not changed by dropping the head of the queue. *)
Lemma drop_view c d : let d' := vgpu_display_release_cmd c (d <| vgpu_display_cmd_tail := display_next (vgpu_display_cmd_tail d) |>) in
  (forall q, pending d' q = pending d q) /\ (forall x, vgpu_display_is_cmd_stale x d' = vgpu_display_is_cmd_stale x d) /\
  dcontents d' = dcontents (d <| vgpu_display_cmd_tail := display_next (vgpu_display_cmd_tail d) |>).
Proof.
  cbv zeta. destruct (release_heap_only c (d <| vgpu_display_cmd_tail := display_next (vgpu_display_cmd_tail d) |>))
    as (hp & b & ->). split_and!; [by intros []|done|done].
Qed.

(** What [vgpu_display_pop_cmd] does to the abstract view: it hands out the pending
    clear of the lowest scanout, primary plane first; without pending clears, the
    oldest queued command that is not stale, dropping the stale ones before it. *)
Definition pop_result d (r : option vgpu_display_cmd) d' : Prop :=
  match pending d Primary, pending d Cursor with
  | i :: rest, _ => r = Some (the_clear d Primary i) /\ dcontents d' = dcontents d /\
      pending d' Primary = rest /\ pending d' Cursor = pending d Cursor
  | [], i :: rest => r = Some (the_clear d Cursor i) /\ dcontents d' = dcontents d /\
      pending d' Primary = [] /\ pending d' Cursor = rest
  | [], [] => pending d' Primary = [] /\ pending d' Cursor = [] /\
      exists skipped, Forall (fun x => vgpu_display_is_cmd_stale x d = true) skipped /\
        match r with
        | None => dcontents d = skipped /\ dcontents d' = []
        | Some c => dcontents d = skipped ++ c :: dcontents d' /\ vgpu_display_is_cmd_stale c d = false
        end
  end.

Lemma NoDup_pending d p : NoDup (pending d p).
Proof. apply NoDup_filter, NoDup_seqZ. Qed.

Lemma filter_head_ne (i : Z) l : NoDup (i :: l) -> filter (fun j => j <> i) (i :: l) = l.
Proof.
  intros [N _]%NoDup_cons. rewrite filter_cons_False by tauto.
  induction l as [|j l IH]; [done|]. rewrite filter_cons_True by (intros ->; apply N; left).
  f_equal. apply IH. intros H. apply N. by right.
Qed.

Lemma pending_range d p i : bridge_ok d -> i ∈ pending d p -> 0 <= i < VIRTIO_GPU_MAX_SCANOUTS.
Proof.
  intros [_ _ C] H. unfold pending in H. apply list_elem_of_filter in H as [_ H%elem_of_seqZ]. lia.
Qed.

Lemma seen_result p i rest d : bridge_ok d -> pending d p = i :: rest ->
  bridge_ok (seen p i d) /\ dcontents (seen p i d) = dcontents d /\ pending (seen p i d) p = rest /\
  forall q, q <> p -> pending (seen p i d) q = pending d q.
Proof.
  intros H E. assert (Hi : 0 <= i < VIRTIO_GPU_MAX_SCANOUTS) by (apply (pending_range d p); [done|rewrite E; left]).
  destruct (upd_clear_frame p i (fun st => st <| consumed_generation := generation (clear_at d p i) |>) d)
    as (F1 & F2 & F3 & _). fold (seen p i d) in *. split_and!.
  - by apply seen_ok.
  - unfold dcontents. congruence.
  - rewrite pending_seen, decide_True by done. rewrite E. apply filter_head_ne. rewrite <- E. apply NoDup_pending.
  - intros q Hq. by rewrite pending_seen, decide_False by done.
Qed.

Lemma pop_loop_spec fuel : forall d, bridge_ok d -> dlen d < Z.of_nat fuel ->
  exists r d', pop_cmd_loop fuel d = Some (r, d') /\ bridge_ok d' /\ pop_result d r d'.
Proof.
  induction fuel as [|fuel IH]; intros d H Hf; [pose proof (dlen_range d); lia|]. cbn [pop_cmd_loop].
  rewrite pop_pending_spec by done. destruct (pending d Primary) as [|i rest] eqn:E1.
  2:{ destruct (seen_result Primary i rest d H E1) as (A & B & C & D). do 2 eexists. split; [done|]. split; [done|].
      unfold pop_result. rewrite E1. split_and!; [done..|by apply D]. }
  rewrite pop_pending_spec by done. destruct (pending d Cursor) as [|i rest] eqn:E2.
  2:{ destruct (seen_result Cursor i rest d H E2) as (A & B & C & D). do 2 eexists. split; [done|]. split; [done|].
      unfold pop_result. rewrite E1, E2. split_and!; [done..| |done]. by rewrite D. }
  unfold vgpu_display_pop_queued_cmd. pose proof (dring_facts d (bo_ring d H)) as [Fe _].
  destruct (Z.eqb_spec (vgpu_display_cmd_tail d) (vgpu_display_cmd_head d)) as [E|E].
  - do 2 eexists. split; [done|]. split; [done|]. unfold pop_result. rewrite E1, E2. split_and!; try done.
    exists []. split; [done|]. assert (Hn : dcontents d = []); [|done].
    apply length_zero_iff_nil. apply Fe in E. unfold dcontents. unfold dlen in E.
    pose proof (length_contents zero_dcmd _ dsize_pos (vgpu_display_cmd_queue d) (vgpu_display_cmd_head d) (vgpu_display_cmd_tail d)). lia.
  - assert (Hl : 0 < dlen d) by (pose proof (dlen_range d); lia).
    destruct (dpop_tail d (bo_ring d H) Hl) as (R' & L' & C'). pose proof (tail_ok d H Hl) as H'.
    destruct (drop_view (arr_get zero_dcmd (vgpu_display_cmd_queue d) (vgpu_display_cmd_tail d)) d) as (V1 & V2 & V3).
    set (c := arr_get zero_dcmd (vgpu_display_cmd_queue d) (vgpu_display_cmd_tail d)) in *.
    set (d1 := d <| vgpu_display_cmd_tail := display_next (vgpu_display_cmd_tail d) |>) in *.
    change (vgpu_display_is_cmd_stale c d1) with (vgpu_display_is_cmd_stale c d).
    destruct (vgpu_display_is_cmd_stale c d) eqn:Es; cbn [negb].
    + destruct (IH (vgpu_display_release_cmd c d1)) as (r & d' & Er & Hr & P).
      { by apply release_ok. }
      { destruct (release_heap_only c d1) as (hp & b & ->). change (dlen d1 < Z.of_nat fuel). lia. }
      exists r, d'. split; [done|]. split; [done|]. unfold pop_result in P |- *. rewrite !V1, E1, E2 in P.
      rewrite E1, E2. destruct P as (P1 & P2 & sk & P3 & P4). split_and!; [done|done|]. exists (c :: sk). split.
      * constructor; [done|]. eapply Forall_impl; [exact P3|]. intros x Hx. cbv beta in Hx. by rewrite V2 in Hx.
      * rewrite V3 in P4. rewrite C'. destruct r as [c'|]; destruct P4 as [Q1 Q2]; rewrite Q1; [|done].
        split; [done|]. by rewrite <- V2.
    + do 2 eexists. split; [done|]. split; [done|]. unfold pop_result. rewrite E1, E2.
      split_and!; [exact E1|exact E2|]. exists []. split; [done|]. cbn. rewrite C'. done.
Qed.

(** ** Emptying the bridge *)

Definition backlog d : nat := length (pending d Primary) + length (pending d Cursor) + length (dcontents d).

Lemma release_view c d : bridge_ok d ->
  bridge_ok (vgpu_display_release_cmd c d) /\ backlog (vgpu_display_release_cmd c d) = backlog d.
Proof. intros H. split; [by apply release_ok|]. by destruct (release_heap_only c d) as (hp & b & ->). Qed.

Lemma dlen_contents d : bridge_ok d -> dlen d < VGPU_DISPLAY_CMD_QUEUE_SIZE.
Proof. intros _. apply dlen_range. Qed.

Lemma pop_cmd_spec d : bridge_ok d ->
  exists r d', vgpu_display_pop_cmd d = Some (r, d') /\ bridge_ok d' /\ pop_result d r d'.
Proof. intros H. apply pop_loop_spec; [done|]. by apply dlen_contents. Qed.

Lemma pop_backlog d c d' : pop_result d (Some c) d' -> (backlog d' < backlog d)%nat.
Proof.
  unfold pop_result, backlog. destruct (pending d Primary) as [|i rest].
  - destruct (pending d Cursor) as [|i rest].
    + intros (E1 & E2 & sk & _ & E & _). rewrite E, E1, E2, length_app. cbn. lia.
    + intros (_ & E & E1 & E2). rewrite E, E1, E2. cbn. lia.
  - intros (_ & E & E1 & E2). rewrite E, E1, E2. cbn. lia.
Qed.

Lemma drain_all_spec fuel : forall d, bridge_ok d -> (backlog d < fuel)%nat ->
  exists d', drain_all fuel d = Some d' /\ bridge_ok d' /\ backlog d' = 0%nat.
Proof.
  induction fuel as [|fuel IH]; intros d H Hf; [lia|]. cbn [drain_all].
  destruct (pop_cmd_spec d H) as (r & d' & E & H' & P). rewrite E. destruct r as [c|].
  - pose proof (pop_backlog d c d' P). destruct (release_view c d' H') as [H2 E2]. apply IH; [done|lia].
  - exists d'. split_and!; [done|done|]. unfold pop_result in P. unfold backlog.
    destruct (pending d Primary), (pending d Cursor); destruct P as (P1 & P2 & P3); try done.
    rewrite P1, P2. destruct P3 as (sk & _ & _ & E3). by rewrite E3.
Qed.

Lemma backlog_bound d : bridge_ok d -> (backlog d < 128)%nat.
Proof.
  intros H. pose proof (bo_count d H) as C. unfold backlog, VIRTIO_GPU_MAX_SCANOUTS in *.
  assert (L : forall p, (length (pending d p) <= 16)%nat).
  { intros p. unfold pending. etransitivity; [apply length_filter|]. rewrite length_seqZ. lia. }
  pose proof (L Primary). pose proof (L Cursor). pose proof (dlen_range d) as R. unfold dlen, dcontents in *.
  pose proof (length_contents zero_dcmd _ dsize_pos (vgpu_display_cmd_queue d) (vgpu_display_cmd_head d) (vgpu_display_cmd_tail d)).
  unfold VGPU_DISPLAY_CMD_QUEUE_SIZE in *. lia.
Qed.

(** Draining does not make the bridge available. *)
Lemma pop_unavailable fuel : forall d r d', pop_cmd_loop fuel d = Some (r, d') ->
  vgpu_display_unavailable d' = vgpu_display_unavailable d.
Proof.
  assert (Hp : forall n p i d r d', pending_clear_from n p i d = (r, d') ->
    vgpu_display_unavailable d' = vgpu_display_unavailable d).
  { induction n as [|n IH]; intros p i d r d'; cbn [pending_clear_from]; [by intros [= <- <-]|].
    case_match; [apply IH|]. intros [= <- <-]. by destruct p. }
  induction fuel as [|fuel IH]; intros d r d'; [done|]. cbn [pop_cmd_loop].
  unfold vgpu_display_pop_pending_clear_cmd. destruct (pending_clear_from _ Primary 0 d) as [[c|] d1] eqn:E1;
    apply Hp in E1; [by intros [= <- <-]|].
  destruct (pending_clear_from _ Cursor 0 d1) as [[c|] d2] eqn:E2; apply Hp in E2; [intros [= <- <-]; congruence|].
  destruct (vgpu_display_pop_queued_cmd d2) as [[c|] d3] eqn:E3; unfold vgpu_display_pop_queued_cmd in E3.
  - assert (U3 : vgpu_display_unavailable d3 = vgpu_display_unavailable d2).
    { case_match; [done|]. by injection E3 as <- <-. }
    destruct (negb (vgpu_display_is_cmd_stale c d3)); [intros [= <- <-]; congruence|]. intros H%IH.
    destruct (release_heap_only c d3) as (hp & b & E). rewrite E in H. rewrite H. cbn. congruence.
  - case_match; [|done]. injection E3 as E3; subst d3. intros [= <- <-]. congruence.
Qed.

Lemma drain_unavailable fuel : forall d d', vgpu_display_unavailable d = true -> drain_all fuel d = Some d' ->
  vgpu_display_unavailable d' = true.
Proof.
  induction fuel as [|fuel IH]; intros d d' U; [done|]. cbn [drain_all].
  destruct (vgpu_display_pop_cmd d) as [[[c|] d1]|] eqn:E; [| |done]; apply pop_unavailable in E; rewrite U in E.
  - apply IH. destruct (release_heap_only c d1) as (hp & b & ->). done.
  - by intros [= <-].
Qed.

Lemma set_unavailable_spec d : bridge_ok d -> exists d', vgpu_display_set_unavailable 128 d = Some d' /\
  bridge_ok d' /\ backlog d' = 0%nat /\ vgpu_display_unavailable d' = true.
Proof.
  intros [R L C]. assert (H1 : bridge_ok (d <| vgpu_display_unavailable := true |>)).
  { constructor; [done|intros []; [apply (L Primary)|apply (L Cursor)]|done]. }
  destruct (drain_all_spec 128 _ H1) as (d' & E & H' & B); [apply (backlog_bound _ H1)|].
  exists d'. split_and!; [done..|]. by eapply drain_unavailable; [|exact E].
Qed.

(** Taking a display command terminates and follows the protocol: the pending
    clear of the lowest scanout first, primary planes before cursor planes; when no
    clear is pending, the oldest queued command of its plane's current generation,
    dropping the stale ones before it; nothing only when no clear is pending and the
    ring is left empty. Taking and releasing until nothing is left, as
    [vgpu_display_set_unavailable] does, terminates too and leaves nothing. *)
Theorem display_pop_protocol d : bridge_ok d ->
  (exists r d', vgpu_display_pop_cmd d = Some (r, d') /\ bridge_ok d' /\ pop_result d r d') /\
  (exists d', vgpu_display_set_unavailable 128 d = Some d' /\ backlog d' = 0%nat /\ vgpu_display_can_publish d' = false).
Proof.
  intros H. split; [by apply pop_cmd_spec|].
  destruct (set_unavailable_spec d H) as (d' & E & _ & B & U). exists d'. split_and!; [done..|].
  unfold vgpu_display_can_publish. by rewrite U.
Qed.

(** A bridge with a pending cursor clear and three queued commands, one of them
    stale. *)
Definition sim_bridge : vgpu_display :=
  let d := vgpu_display_set_scanout_count 2 display_init in
  let '(p1, d) := payload_new sample_payload d in
  let d := vgpu_display_publish_primary_set 0 p1 d in
  let d := vgpu_display_publish_cursor_move 1 5 6 d in
  let d := vgpu_display_publish_cursor_clear 1 d in
  vgpu_display_publish_cursor_move 1 7 8 d.

Lemma display_pop_protocol_witness :
  length (dcontents sim_bridge) = 3%nat /\ pending sim_bridge Cursor = [1] /\
  exists d', vgpu_display_set_unavailable 128 sim_bridge = Some d' /\ backlog d' = 0%nat.
Proof.
  split; [vm_compute; reflexivity|]. split; [vm_compute; reflexivity|].
  destruct (display_pop_protocol sim_bridge) as [_ (d' & H1 & H2 & _)].
  - constructor; [vm_compute; repeat split; congruence|intros []; vm_compute; reflexivity|vm_compute; split; congruence].
  - by exists d'.
Defined.

(** The state after the race. *)
Definition sim_raced : dsys := foldl (fun s x => choose x s) (dstart 1 false) race.
Definition sim_publishing : dsys :=
  foldl (fun s x => choose x s) (dstart 1 false) (Pub (Req_primary_set 0 sample_payload) :: replicate 7 Emu
    ++ [Pub (Req_primary_set 0 sample_payload)]).

Lemma race_reachable : dreachable sim_raced /\ dreachable sim_publishing.
Proof.
  split; (apply choose_reachable; [repeat constructor; cbn; unfold VIRTIO_GPU_MAX_SCANOUTS; lia|]);
    (exists 1, false; split; [lia|constructor]).
Qed.

Lemma display_payload_ownership_witness :
  owners sim_publishing = [2; 1] /\ dom (payload_heap (dsh sim_publishing)) = list_to_set (owners sim_publishing).
Proof.
  split; [vm_compute; reflexivity|].
  exact (proj2 (proj2 (proj2 (proj2 (display_payload_ownership sim_publishing (proj2 race_reachable)))))).
Defined.

Lemma display_never_stale_witness : exists c1 c2, applied sim_raced = [] ++ c1 :: [c2] /\
  dc_generation c1 <= dc_generation c2.
Proof.
  exists (mk_dcmd (VGPU_DISPLAY_CMD_PRIMARY_SET 1) 0 1), (mk_dcmd VGPU_DISPLAY_CMD_PRIMARY_CLEAR 0 1).
  assert (E : applied sim_raced = [] ++ mk_dcmd (VGPU_DISPLAY_CMD_PRIMARY_SET 1) 0 1 ::
    [mk_dcmd VGPU_DISPLAY_CMD_PRIMARY_CLEAR 0 1]) by (vm_compute; reflexivity).
  split; [exact E|].
  refine (display_never_stale sim_raced Primary 0 _ _ _ _ (proj1 race_reachable) _ _ E _ _ _ _ _); try reflexivity.
  - vm_compute. split; congruence.
  - left.
Defined.
