(* ===== verification/Window.v ===== *)
(** * The window (window-sw.c)

    The SDL thread: it creates the window, takes the commands of the display bridge
    into the two planes of each scanout, draws the scanouts that changed, and cleans
    up. The build is the one with virtio-gpu and virtio-input; [window_gpu_round] is
    the loop of the build without virtio-input. The wake pipe, the flags and the
    mouse grab are in [InputEvent]. SDL's video functions are the parameter
    [SdlVideo]; the draw calls, whose results the code ignores, are recorded in
    [ws_draws]. Handles are integers, [0] is [NULL]. *)

From stdpp Require Import base gmap list.
From Stdlib Require Import ZArith Lia Bool.
From S2P Require Import Prelude InputCodes InputEvent Ring VgpuDisplay.
Open Scope Z_scope.

(* [virtio-gpu.h:314-323] virtio_gpu_formats *)
Definition VIRTIO_GPU_FORMAT_B8G8R8A8_UNORM := 1.
Definition VIRTIO_GPU_FORMAT_B8G8R8X8_UNORM := 2.
Definition VIRTIO_GPU_FORMAT_A8R8G8B8_UNORM := 3.
Definition VIRTIO_GPU_FORMAT_X8R8G8B8_UNORM := 4.
Definition VIRTIO_GPU_FORMAT_R8G8B8A8_UNORM := 67.
Definition VIRTIO_GPU_FORMAT_X8B8G8R8_UNORM := 68.
Definition VIRTIO_GPU_FORMAT_A8B8G8R8_UNORM := 121.
Definition VIRTIO_GPU_FORMAT_R8G8B8X8_UNORM := 134.

Definition INT_MIN := - 2 ^ 31.
Definition INT_MAX := 2 ^ 31 - 1.

(* [window-sw.c:30-31] *)
Definition SDL_EVENT_BURST_LIMIT := 64.

(* [window-sw.c:38-44] sdl_plane_info *)
Record sdl_plane_info := mk_plane {
  pi_width : Z; pi_height : Z; pi_sdl_format : Z; pi_alpha_blend : bool; pi_texture : Z }.

Record SDL_Rect := mk_rect { rect_x : Z; rect_y : Z; rect_w : Z; rect_h : Z }.

(* [window-sw.c:50-61] sdl_scanout_info *)
Record sdl_scanout_info := mk_scanout_info {
  primary_plane : sdl_plane_info; cursor_plane : sdl_plane_info; cursor_rect : SDL_Rect;
  cursor_hot_x : Z; cursor_hot_y : Z; window_width : Z; window_height : Z;
  sdl_window : Z; sdl_renderer : Z }.

(** A draw call: the renderer, and for a copy the texture and the rectangle, [None]
    being the whole target. *)
Inductive draw_call :=
  | SDL_RenderClear (renderer : Z)
  | SDL_RenderCopy (renderer texture : Z) (dst : option SDL_Rect)
  | SDL_RenderPresent (renderer : Z).

(** The statics of window-sw.c with the bridge and SDL's own state [W]. *)
(* [window-sw.c:21-63] *)
Record window_st (W : Type) := mk_window {
  ws_host : vinput_host;
  ws_sdl_initialized : bool;
  sdl_scanouts : list sdl_scanout_info;
  ws_disp : vgpu_display;
  ws_draws : list draw_call;
  ws_sdl : W }.
Arguments mk_window {W}.
Arguments ws_host {W}.
Arguments ws_sdl_initialized {W}.
Arguments sdl_scanouts {W}.
Arguments ws_disp {W}.
Arguments ws_draws {W}.
Arguments ws_sdl {W}.

#[export] Instance eta_plane_info : Eta sdl_plane_info := fun r =>
  mk_plane (pi_width r) (pi_height r) (pi_sdl_format r) (pi_alpha_blend r) (pi_texture r).
#[export] Instance set_pi_width : Setter pi_width := ltac:(solve_setter).
#[export] Instance set_pi_height : Setter pi_height := ltac:(solve_setter).
#[export] Instance set_pi_sdl_format : Setter pi_sdl_format := ltac:(solve_setter).
#[export] Instance set_pi_alpha_blend : Setter pi_alpha_blend := ltac:(solve_setter).
#[export] Instance set_pi_texture : Setter pi_texture := ltac:(solve_setter).
#[export] Instance eta_rect : Eta SDL_Rect := fun r => mk_rect (rect_x r) (rect_y r) (rect_w r) (rect_h r).
#[export] Instance set_rect_x : Setter rect_x := ltac:(solve_setter).
#[export] Instance set_rect_y : Setter rect_y := ltac:(solve_setter).
#[export] Instance set_rect_w : Setter rect_w := ltac:(solve_setter).
#[export] Instance set_rect_h : Setter rect_h := ltac:(solve_setter).
#[export] Instance eta_scanout_info : Eta sdl_scanout_info := fun r =>
  mk_scanout_info (primary_plane r) (cursor_plane r) (cursor_rect r) (cursor_hot_x r) (cursor_hot_y r)
    (window_width r) (window_height r) (sdl_window r) (sdl_renderer r).
#[export] Instance set_primary_plane : Setter primary_plane := ltac:(solve_setter).
#[export] Instance set_cursor_plane : Setter cursor_plane := ltac:(solve_setter).
#[export] Instance set_cursor_rect : Setter cursor_rect := ltac:(solve_setter).
#[export] Instance set_cursor_hot_x : Setter cursor_hot_x := ltac:(solve_setter).
#[export] Instance set_cursor_hot_y : Setter cursor_hot_y := ltac:(solve_setter).
#[export] Instance set_window_width : Setter window_width := ltac:(solve_setter).
#[export] Instance set_window_height : Setter window_height := ltac:(solve_setter).
#[export] Instance set_sdl_window : Setter sdl_window := ltac:(solve_setter).
#[export] Instance set_sdl_renderer : Setter sdl_renderer := ltac:(solve_setter).
#[export] Instance eta_window {W} : Eta (window_st W) := fun r =>
  mk_window (ws_host r) (ws_sdl_initialized r) (sdl_scanouts r) (ws_disp r) (ws_draws r) (ws_sdl r).
#[export] Instance set_ws_host {W} : Setter (@ws_host W) := ltac:(solve_setter).
#[export] Instance set_ws_sdl_initialized {W} : Setter (@ws_sdl_initialized W) := ltac:(solve_setter).
#[export] Instance set_sdl_scanouts {W} : Setter (@sdl_scanouts W) := ltac:(solve_setter).
#[export] Instance set_ws_disp {W} : Setter (@ws_disp W) := ltac:(solve_setter).
#[export] Instance set_ws_draws {W} : Setter (@ws_draws W) := ltac:(solve_setter).
#[export] Instance set_ws_sdl {W} : Setter (@ws_sdl W) := ltac:(solve_setter).

(** [memset(..., 0, ...)] *)
Definition zero_plane : sdl_plane_info := mk_plane 0 0 0 false 0.
Definition zero_rect : SDL_Rect := mk_rect 0 0 0 0.
Definition zero_scanout_info : sdl_scanout_info := mk_scanout_info zero_plane zero_plane zero_rect 0 0 0 0 0 0.
Definition zero_frame : vgpu_display_payload := mk_payload 0 0 0 0 0 [].

(** What SDL provides to window-sw.c: its pixel formats and the functions that
    create, change and destroy objects. [sdl_create_renderer window software] tries
    the accelerated or the software renderer. *)
Class SdlVideo (W : Type) := {
  SDL_PIXELFORMAT_ARGB8888 : Z; SDL_PIXELFORMAT_XRGB8888 : Z;
  SDL_PIXELFORMAT_BGRA8888 : Z; SDL_PIXELFORMAT_BGRX8888 : Z;
  SDL_PIXELFORMAT_ABGR8888 : Z; SDL_PIXELFORMAT_XBGR8888 : Z;
  SDL_PIXELFORMAT_RGBA8888 : Z; SDL_PIXELFORMAT_RGBX8888 : Z;
  sdl_init_video : W -> bool * W;
  sdl_quit : W -> W;
  sdl_create_window : Z -> Z -> W -> Z * W;
  sdl_destroy_window : Z -> W -> W;
  sdl_create_renderer : Z -> bool -> W -> Z * W;
  sdl_destroy_renderer : Z -> W -> W;
  sdl_set_render_draw_color : Z -> W -> W;
  sdl_create_texture : Z -> Z -> Z -> Z -> W -> Z * W;
  sdl_set_texture_blend_mode : Z -> W -> W;
  sdl_update_texture : Z -> list Z -> Z -> W -> bool * W;
  sdl_destroy_texture : Z -> W -> W }.

Section Window.
Context {W : Type} `{SdlW : Sdl W} `{VideoW : SdlVideo W}.
Implicit Types (s : window_st W) (w : W) (p : sdl_plane_info) (sc : sdl_scanout_info) (frame : vgpu_display_payload).

Definition scanout_at s (i : Z) : sdl_scanout_info := arr_get zero_scanout_info (sdl_scanouts s) i.
Definition draw (cs : list draw_call) s : window_st W := s <| ws_draws := ws_draws s ++ cs |>.

(** ** Planes *)

(* [window-sw.c:139-170] vgpu_format_to_sdl_format *)
Definition vgpu_format_to_sdl_format (format : Z) : option Z :=
  if format =? VIRTIO_GPU_FORMAT_B8G8R8A8_UNORM then Some SDL_PIXELFORMAT_ARGB8888
  else if format =? VIRTIO_GPU_FORMAT_B8G8R8X8_UNORM then Some SDL_PIXELFORMAT_XRGB8888
  else if format =? VIRTIO_GPU_FORMAT_A8R8G8B8_UNORM then Some SDL_PIXELFORMAT_BGRA8888
  else if format =? VIRTIO_GPU_FORMAT_X8R8G8B8_UNORM then Some SDL_PIXELFORMAT_BGRX8888
  else if format =? VIRTIO_GPU_FORMAT_R8G8B8A8_UNORM then Some SDL_PIXELFORMAT_ABGR8888
  else if format =? VIRTIO_GPU_FORMAT_X8B8G8R8_UNORM then Some SDL_PIXELFORMAT_RGBX8888
  else if format =? VIRTIO_GPU_FORMAT_A8B8G8R8_UNORM then Some SDL_PIXELFORMAT_RGBA8888
  else if format =? VIRTIO_GPU_FORMAT_R8G8B8X8_UNORM then Some SDL_PIXELFORMAT_XBGR8888
  else None.

(** [if (texture) SDL_DestroyTexture(texture);] *)
Definition destroy_texture (t : Z) w : W := if t =? 0 then w else sdl_destroy_texture t w.

(* [window-sw.c:172-179] sdl_plane_info_reset *)
Definition sdl_plane_info_reset p w : sdl_plane_info * W :=
  (zero_plane <| pi_alpha_blend := pi_alpha_blend p |>, destroy_texture (pi_texture p) w).

(* [window-sw.c:181-186] sdl_plane_info_cleanup *)
Definition sdl_plane_info_cleanup p w : sdl_plane_info * W := (zero_plane, destroy_texture (pi_texture p) w).

(* [window-sw.c:188-199] sdl_scanout_info_cleanup *)
Definition sdl_scanout_info_cleanup sc w : sdl_scanout_info * W :=
  let w := snd (sdl_plane_info_cleanup (primary_plane sc) w) in
  let w := snd (sdl_plane_info_cleanup (cursor_plane sc) w) in
  let w := if sdl_renderer sc =? 0 then w else sdl_destroy_renderer (sdl_renderer sc) w in
  let w := if sdl_window sc =? 0 then w else sdl_destroy_window (sdl_window sc) w in
  (zero_scanout_info, w).

(** The alpha-capable version of a format. *)
(* [window-sw.c:221-238] sdl_plane_info_get_sdl_format *)
Definition alpha_format (f : Z) : Z :=
  if f =? SDL_PIXELFORMAT_XRGB8888 then SDL_PIXELFORMAT_ARGB8888
  else if f =? SDL_PIXELFORMAT_BGRX8888 then SDL_PIXELFORMAT_BGRA8888
  else if f =? SDL_PIXELFORMAT_RGBX8888 then SDL_PIXELFORMAT_RGBA8888
  else if f =? SDL_PIXELFORMAT_XBGR8888 then SDL_PIXELFORMAT_ABGR8888
  else f.

(* [window-sw.c:201-241] sdl_plane_info_get_sdl_format *)
Definition sdl_plane_info_get_sdl_format p frame : option Z :=
  match vgpu_format_to_sdl_format (pl_format frame) with
  | None => None
  | Some f => Some (if pi_alpha_blend p then alpha_format f else f)
  end.

(** A failing [SDL_SetTextureBlendMode] is only reported. *)
(* [window-sw.c:243-266] sdl_plane_info_create_texture *)
Definition sdl_plane_info_create_texture (renderer : Z) p frame (sdl_format : Z) w : Z * W :=
  let '(texture, w) := sdl_create_texture renderer sdl_format (pl_width frame) (pl_height frame) w in
  if texture =? 0 then (0, w)
  else (texture, if pi_alpha_blend p then sdl_set_texture_blend_mode texture w else w).

(* [window-sw.c:268-311] sdl_plane_info_update_texture *)
Definition sdl_plane_info_update_texture (renderer : Z) p frame w : bool * sdl_plane_info * W :=
  match sdl_plane_info_get_sdl_format p frame with
  | None => (false, p, w)
  | Some sdl_format =>
    let reuse_texture := nz (pi_texture p) && (pi_width p =? pl_width frame)
                         && (pi_height p =? pl_height frame) && (pi_sdl_format p =? sdl_format) in
    let '(texture, w) := if reuse_texture then (pi_texture p, w)
                         else sdl_plane_info_create_texture renderer p frame sdl_format w in
    if negb reuse_texture && (texture =? 0) then (false, p, w)
    else
      let '(ok, w) := sdl_update_texture texture (pl_pixels frame) (pl_stride frame) w in
      if negb ok then (false, p, if reuse_texture then w else sdl_destroy_texture texture w)
      else
        let '(p, w) := if reuse_texture then (p, w)
                       else (p <| pi_texture := texture |>, destroy_texture (pi_texture p) w) in
        (true, p <| pi_width := pl_width frame |> <| pi_height := pl_height frame |>
                 <| pi_sdl_format := sdl_format |>, w)
  end.

(** ** The cursor *)

(** The operands are [int32_t] and [uint32_t], so the differences fit [int64_t]. *)
(* [window-sw.c:313-335] sdl_cursor_rect_update_position *)
Definition sdl_cursor_rect_update_position (rect : SDL_Rect) (x y hot_x hot_y : Z) : option SDL_Rect :=
  let rx := x - hot_x in
  let ry := y - hot_y in
  if (rx <? INT_MIN) || (INT_MAX <? rx) || (ry <? INT_MIN) || (INT_MAX <? ry) then None
  else Some (rect <| rect_x := rx |> <| rect_y := ry |>).

(* [window-sw.c:337-370] sdl_scanout_apply_cursor_frame *)
Definition sdl_scanout_apply_cursor_frame sc frame (x y hot_x hot_y : Z) w : bool * sdl_scanout_info * W :=
  if (INT_MAX <? pl_width frame) || (INT_MAX <? pl_height frame) then (false, sc, w)
  else
    match sdl_cursor_rect_update_position (cursor_rect sc) x y hot_x hot_y with
    | None => (false, sc, w)
    | Some rect =>
      let '(ok, p, w) := sdl_plane_info_update_texture (sdl_renderer sc) (cursor_plane sc) frame w in
      let sc := sc <| cursor_plane := p |> in
      if negb ok then (false, sc, w)
      else (true, sc <| cursor_hot_x := hot_x |> <| cursor_hot_y := hot_y |>
                     <| cursor_rect := rect <| rect_w := pl_width frame |> <| rect_h := pl_height frame |> |>, w)
    end.

(** ** Drawing *)

(** The primary plane fills the window, the cursor is drawn over it. *)
(* [window-sw.c:372-385] sdl_scanout_render *)
Definition sdl_scanout_render sc : list draw_call :=
  let r := sdl_renderer sc in
  [SDL_RenderClear r]
  ++ (if nz (pi_texture (primary_plane sc)) then [SDL_RenderCopy r (pi_texture (primary_plane sc)) None] else [])
  ++ (if nz (pi_texture (cursor_plane sc))
      then [SDL_RenderCopy r (pi_texture (cursor_plane sc)) (Some (cursor_rect sc))] else [])
  ++ [SDL_RenderPresent r].

(** A queued payload is allocated ([VgpuConc.display_payload_ownership]). *)
Definition payload_at s (ptr : Z) : vgpu_display_payload := default zero_frame (payload_heap (ws_disp s) !! ptr).

(** The [switch]: whether the scanout became dirty, its new state. *)
(* [window-sw.c:406-445] window_drain_display_queue *)
Definition scanout_cmd c sc s : bool * sdl_scanout_info * W :=
  let w := ws_sdl s in
  match dc_body c with
  | VGPU_DISPLAY_CMD_PRIMARY_CLEAR =>
    let '(p, w) := sdl_plane_info_reset (primary_plane sc) w in (true, sc <| primary_plane := p |>, w)
  | VGPU_DISPLAY_CMD_CURSOR_CLEAR =>
    let sc := sc <| cursor_rect := zero_rect |> <| cursor_hot_x := 0 |> <| cursor_hot_y := 0 |> in
    let '(p, w) := sdl_plane_info_reset (cursor_plane sc) w in (true, sc <| cursor_plane := p |>, w)
  | VGPU_DISPLAY_CMD_PRIMARY_SET payload =>
    let '(ok, p, w) := sdl_plane_info_update_texture (sdl_renderer sc) (primary_plane sc) (payload_at s payload) w in
    (ok, sc <| primary_plane := p |>, w)
  | VGPU_DISPLAY_CMD_CURSOR_SET payload x y hot_x hot_y =>
    sdl_scanout_apply_cursor_frame sc (payload_at s payload) x y hot_x hot_y w
  | VGPU_DISPLAY_CMD_CURSOR_MOVE x y =>
    match sdl_cursor_rect_update_position (cursor_rect sc) x y (cursor_hot_x sc) (cursor_hot_y sc) with
    | None => (false, sc, w)
    | Some rect => (true, sc <| cursor_rect := rect |>, w)
    end
  end.

(** The body of the loop. *)
(* [window-sw.c:400-447] window_drain_display_queue *)
Definition drain_cmd c (dirty_scanouts : list bool) s : list bool * window_st W :=
  let i := dc_scanout_id c in
  let sc := scanout_at s i in
  if (sdl_window sc =? 0) || (sdl_renderer sc =? 0)
  then (dirty_scanouts, s <| ws_disp := vgpu_display_release_cmd c (ws_disp s) |>)
  else
    let '(dirtied, sc, w) := scanout_cmd c sc s in
    let s := s <| sdl_scanouts := arr_set (sdl_scanouts s) i sc |> <| ws_sdl := w |> in
    (if dirtied then arr_set dirty_scanouts i true else dirty_scanouts,
     s <| ws_disp := vgpu_display_release_cmd c (ws_disp s) |>).

(** [None] is running out of rounds; the bridge holds less than 128 commands. *)
(* [window-sw.c:396-448] window_drain_display_queue *)
Fixpoint drain_loop (fuel : nat) (dirty_scanouts : list bool) s : option (list bool * window_st W) :=
  match fuel with
  | O => None
  | S fuel =>
    match vgpu_display_pop_cmd (ws_disp s) with
    | None => None
    | Some (None, d) => Some (dirty_scanouts, s <| ws_disp := d |>)
    | Some (Some c, d) =>
      let '(dirty_scanouts, s) := drain_cmd c dirty_scanouts (s <| ws_disp := d |>) in
      drain_loop fuel dirty_scanouts s
    end
  end.

(* [window-sw.c:450-455] window_drain_display_queue *)
Definition render_dirty (dirty_scanouts : list bool) s (i : Z) : window_st W :=
  let sc := scanout_at s i in
  if negb (arr_get false dirty_scanouts i) || (sdl_window sc =? 0) || (sdl_renderer sc =? 0) then s
  else draw (sdl_scanout_render sc) s.

Definition DRAIN_ROUNDS : nat := 128.

(* [window-sw.c:387-456] window_drain_display_queue *)
Definition window_drain_display_queue s : option (window_st W) :=
  match drain_loop DRAIN_ROUNDS (replicate 16 false) s with
  | None => None
  | Some (dirty_scanouts, s) => Some (foldl (render_dirty dirty_scanouts) s (seqZ 0 VIRTIO_GPU_MAX_SCANOUTS))
  end.

(** ** The main loop *)

(** A round of the loop, a pause in headless mode; [None] when the loop is over,
    [Some None] is the drain running out of rounds. *)
(* [window-sw.c:460-511] window_main_loop_sw *)
Definition window_round s : option (option (window_st W)) :=
  if window_is_closed_sw (ws_host s) then None
  else if headless_mode (ws_host s) then Some (Some s)
  else
    let '(quit, h, w) := vinput_handle_events (ws_host s) (ws_sdl s) in
    let s := s <| ws_host := h |> <| ws_sdl := w |> in
    Some (if quit then Some (s <| ws_host := window_shutdown_sw (ws_host s) |>)
          else window_drain_display_queue s).

(** The build without virtio-input: whether the burst, which begins with [e], asks
    to quit. *)
(* [window-sw.c:496-503] window_main_loop_sw *)
Fixpoint quit_burst (n : nat) (e : sdl_event) w : bool * W :=
  match n with
  | O => (false, w)
  | S n =>
    match e with
    | SDL_QUIT => (true, w)
    | _ => match n with
           | O => (false, w)
           | S _ => match sdl_poll_event w with
                    | (Some e, w) => quit_burst n e w
                    | (None, w) => (false, w)
                    end
           end
    end
  end.

(* [window-sw.c:474-511] window_main_loop_sw *)
Definition window_gpu_round s : option (option (window_st W)) :=
  if window_is_closed_sw (ws_host s) then None
  else if headless_mode (ws_host s) then Some (Some s)
  else
  let '(quit, w) := match sdl_wait_event (ws_sdl s) with
                    | (Some e, w) => quit_burst (Z.to_nat SDL_EVENT_BURST_LIMIT) e w
                    | (None, w) => (false, w)
                    end in
  let s := s <| ws_sdl := w |> in
  Some (if quit then Some (s <| ws_host := window_shutdown_sw (ws_host s) |>) else window_drain_display_queue s).

(** ** Creation and clean-up *)

(** [headless_mode = true; vgpu_display_set_unavailable();] *)
Definition go_headless s : option (window_st W) :=
  let s := s <| ws_host := (ws_host s) <| headless_mode := true |> |> in
  match vgpu_display_set_unavailable DRAIN_ROUNDS (ws_disp s) with
  | None => None
  | Some d => Some (s <| ws_disp := d |>)
  end.

(** [SDL_Quit(); sdl_initialized = false;] *)
Definition quit_sdl s : window_st W := s <| ws_sdl := sdl_quit (ws_sdl s) |> <| ws_sdl_initialized := false |>.

Definition upd_scanout0 (f : sdl_scanout_info -> sdl_scanout_info) s : window_st W :=
  s <| sdl_scanouts := arr_set (sdl_scanouts s) 0 (f (scanout_at s 0)) |>.

(** The accelerated renderer, else the software one. *)
(* [window-sw.c:559-568] window_init_sw *)
Definition create_renderer (window : Z) w : Z * W :=
  let '(r, w) := sdl_create_renderer window false w in
  if r =? 0 then sdl_create_renderer window true w else (r, w).

(** The renderer and the rest of the initialisation. *)
(* [window-sw.c:559-599] window_init_sw *)
Definition init_renderer (width height window : Z) s : option (window_st W) :=
  let '(renderer, w) := create_renderer window (ws_sdl s) in
  let s := upd_scanout0 (fun sc => sc <| sdl_renderer := renderer |>) (s <| ws_sdl := w |>) in
  if renderer =? 0 then
    let s := s <| ws_sdl := sdl_destroy_window window (ws_sdl s) |> in
    go_headless (quit_sdl (upd_scanout0 (fun sc => sc <| sdl_window := 0 |>) s))
  else
    let s := upd_scanout0 (fun sc => sc <| window_width := width |> <| window_height := height |>
               <| cursor_plane := (cursor_plane sc) <| pi_alpha_blend := true |> |>) s in
    let s := s <| ws_host := (ws_host s) <| sdl_input_window := true |> |> in
    let s := s <| ws_sdl := sdl_set_render_draw_color renderer (ws_sdl s) |> in
    Some (draw [SDL_RenderClear renderer; SDL_RenderPresent renderer] s).

(* [window-sw.c:513-611] window_init_sw *)
Definition window_init_sw (headless : bool) (width height : Z) s : option (window_st W) :=
  if headless then go_headless s
  else
    let '(ok, w) := sdl_init_video (ws_sdl s) in
    let s := s <| ws_sdl := w |> in
    if negb ok then go_headless s
    else
      let s := s <| ws_sdl_initialized := true |> in
      let '(window, w) := sdl_create_window width height (ws_sdl s) in
      let s := upd_scanout0 (fun sc => sc <| sdl_window := window |>) (s <| ws_sdl := w |>) in
      if window =? 0 then go_headless (quit_sdl s)
      else
        init_renderer width height window s.

(** The loop over the scanouts. *)
Fixpoint cleanup_scanouts (l : list sdl_scanout_info) w : list sdl_scanout_info * W :=
  match l with
  | [] => ([], w)
  | sc :: l =>
    let '(sc, w) := sdl_scanout_info_cleanup sc w in
    let '(l, w) := cleanup_scanouts l w in (sc :: l, w)
  end.

(* [window-sw.c:613-652] window_cleanup_sw *)
Definition window_cleanup_sw s : option (window_st W) :=
  let s := if ws_sdl_initialized s
           then let '(h, w) := window_set_mouse_grab_sw false (ws_host s) (ws_sdl s) in
                s <| ws_host := h |> <| ws_sdl := w |>
           else s in
  let s := s <| ws_host := (ws_host s) <| mouse_grabbed := false |> <| wake_write_fd := -1 |> |> in
  let '(l, w) := cleanup_scanouts (sdl_scanouts s) (ws_sdl s) in
  let s := s <| sdl_scanouts := l |> <| ws_sdl := w |> in
  match drain_all DRAIN_ROUNDS (ws_disp s) with
  | None => None
  | Some d =>
    let s := s <| ws_disp := d |> <| ws_host := (ws_host s) <| sdl_input_window := false |> |> in
    let s := if ws_sdl_initialized s then quit_sdl s else s in
    Some (s <| ws_host := (ws_host s) <| headless_mode := false |> <| should_exit := false |> |>)
  end.
End Window.
