(* ===== verification/WindowProps.v ===== *)
(** * The window: what is shown and what is held

    Two facts about window-sw.c. The objects SDL has created for the window are, at
    every point between creation and clean-up, exactly the handles in the scanout
    array, each there once, and clean-up destroys all of them. And draining the
    display bridge makes each scanout show what an abstract screen shows after the
    same commands, where an upload SDL refuses changes nothing but, when the texture
    was reused, its pixels. *)

From stdpp Require Import base gmap list relations.
From Stdlib Require Import ZArith Lia Bool.
From S2P Require Import Prelude InputCodes InputEvent Ring VgpuDisplay VgpuConc VgpuProps Window.
Open Scope Z_scope.

(** The kinds of SDL objects. *)
Inductive sdl_kind := KWindow | KRenderer | KTexture.
#[export] Instance sdl_kind_eq_dec : EqDecision sdl_kind.
Proof. solve_decision. Defined.

(** A creation returns [NULL] and creates nothing, or returns a new handle. *)
Definition creates {W} (live : sdl_kind -> W -> gset Z) (k : sdl_kind) (x : Z) (w w' : W) : Prop :=
  (x = 0 /\ (forall k', live k' w' = live k' w)) \/
  (x <> 0 /\ x ∉ live k w /\ live k w' = {[x]} ∪ live k w /\ (forall k', k' <> k -> live k' w' = live k' w)).

(** What SDL documents. [live k w] are the handles of kind [k] that are created and
    not destroyed, [texture_image w t] the bytes and the pitch last written to [t].
    Destroying a renderer may free the textures that belong to it, destroying a
    window its renderer, quitting everything. *)
Class SdlVideoLaws (W : Type) `{!Sdl W, !SdlVideo W} := {
  live : sdl_kind -> W -> gset Z;
  texture_image : W -> Z -> list Z * Z;
  create_window_law : forall a b w, let '(x, w') := sdl_create_window a b w in creates live KWindow x w w';
  create_renderer_law : forall a b w, let '(x, w') := sdl_create_renderer a b w in creates live KRenderer x w w';
  create_texture_law : forall r f a b w, let '(x, w') := sdl_create_texture r f a b w in
    creates live KTexture x w w' /\
    (forall t, t ∈ live KTexture w -> texture_image w' t = texture_image w t);
  destroy_texture_law : forall t w, let w' := sdl_destroy_texture t w in
    live KTexture w' = live KTexture w ∖ {[t]} /\ (forall k, k <> KTexture -> live k w' = live k w) /\
    (forall t', t' <> t -> texture_image w' t' = texture_image w t');
  destroy_renderer_law : forall r w, let w' := sdl_destroy_renderer r w in
    live KRenderer w' = live KRenderer w ∖ {[r]} /\ live KWindow w' = live KWindow w /\
    live KTexture w' ⊆ live KTexture w;
  destroy_window_law : forall x w, let w' := sdl_destroy_window x w in
    live KWindow w' = live KWindow w ∖ {[x]} /\ live KRenderer w' ⊆ live KRenderer w /\
    live KTexture w' ⊆ live KTexture w;
  update_texture_law : forall t px pitch w, let '(ok, w') := sdl_update_texture t px pitch w in
    (forall k, live k w' = live k w) /\ (forall t', t' <> t -> texture_image w' t' = texture_image w t') /\
    (ok = true -> texture_image w' t = (px, pitch));
  blend_law : forall t w, let w' := sdl_set_texture_blend_mode t w in
    (forall k, live k w' = live k w) /\ (forall t', texture_image w' t' = texture_image w t');
  quit_law : forall k w, live k (sdl_quit w) ⊆ live k w;
  other_laws : forall k w, live k (snd (sdl_init_video w)) = live k w /\
    (forall r, live k (sdl_set_render_draw_color r w) = live k w) /\
    live k (snd (sdl_wait_event w)) = live k w /\ live k (snd (sdl_poll_event w)) = live k w /\
    (forall b, live k (snd (sdl_set_relative_mouse_mode b w)) = live k w) /\
    (forall b, live k (sdl_set_window_grab b w) = live k w) /\
    (forall b, live k (sdl_show_cursor b w) = live k w) }.

(** ** Handles *)

(** The non-null ones. *)
Definition nn (l : list Z) : list Z := filter (fun x => x <> 0) l.

Definition handles (k : sdl_kind) (sc : sdl_scanout_info) : list Z :=
  match k with
  | KWindow => [sdl_window sc]
  | KRenderer => [sdl_renderer sc]
  | KTexture => [pi_texture (primary_plane sc); pi_texture (cursor_plane sc)]
  end.

Lemma nn_app l1 l2 : nn (l1 ++ l2) = nn l1 ++ nn l2.
Proof. apply filter_app. Qed.
Lemma nn_0 : nn [0] = [].
Proof. done. Qed.
Lemma nn_1 x : x <> 0 -> nn [x] = [x].
Proof. intros H. unfold nn. by rewrite filter_cons_True. Qed.
Lemma elem_of_nn x l : x ∈ nn l <-> x <> 0 /\ x ∈ l.
Proof. unfold nn. by rewrite list_elem_of_filter. Qed.

Section Props.
Context {W : Type} `{SdlW : Sdl W} `{VideoW : SdlVideo W} `{Laws : !SdlVideoLaws W}.
Implicit Types (s : window_st W) (w : W) (p : sdl_plane_info) (sc : sdl_scanout_info)
  (frame : vgpu_display_payload) (l rest : list Z) (k : sdl_kind).

(** The objects of kind [k] are exactly the handles [l], without repetition. *)
Definition owns k l w : Prop := NoDup l /\ live k w = list_to_set l.

Definition held k s : list Z := sdl_scanouts s ≫= (fun sc => nn (handles k sc)).

(** The invariant of the SDL thread; only the first scanout gets a window. *)
Record window_inv s : Prop := {
  wi_length : length (sdl_scanouts s) = 16%nat;
  wi_single i : 0 < i < VIRTIO_GPU_MAX_SCANOUTS -> scanout_at s i = zero_scanout_info;
  wi_owns k : owns k (held k s) (ws_sdl s) }.

Lemma owns_perm k l l' w : l ≡ₚ l' -> owns k l w -> owns k l' w.
Proof. intros E [N L]. split; [by rewrite <- E|]. rewrite L. apply leibniz_equiv. by rewrite E. Qed.

Lemma owns_live k l w w' : live k w' = live k w -> owns k l w -> owns k l w'.
Proof. intros E [N L]. split; [done|]. by rewrite E. Qed.

Lemma owns_add k x l w w' : x ∉ live k w -> live k w' = {[x]} ∪ live k w -> owns k l w -> owns k (x :: l) w'.
Proof. intros Hx E [N L]. split; [|by rewrite E, L]. constructor; [|done]. rewrite L in Hx. set_solver. Qed.

Lemma owns_del k x l w w' : live k w' = live k w ∖ {[x]} -> owns k (x :: l) w -> owns k l w'.
Proof.
  intros E [N L]. apply NoDup_cons in N as [Hx N]. split; [done|]. rewrite E, L. apply leibniz_equiv.
  assert (x ∉@{gset Z} list_to_set l) by set_solver. set_solver.
Qed.

Lemma owns_sub k w w' : live k w' ⊆ live k w -> owns k [] w -> owns k [] w'.
Proof. intros E [N L]. split; [done|]. set_solver. Qed.

(** ** A texture upload *)

Lemma destroy_texture_spec t rest w : owns KTexture (nn [t] ++ rest) w ->
  owns KTexture rest (destroy_texture t w) /\
  (forall k, k <> KTexture -> live k (destroy_texture t w) = live k w) /\
  (forall t', t' ∈ rest -> texture_image (destroy_texture t w) t' = texture_image w t').
Proof.
  intros H. unfold destroy_texture. destruct (Z.eqb_spec t 0) as [->|Ht]; [done|].
  rewrite nn_1 in H by done. destruct (destroy_texture_law t w) as (A & B & C). split_and!; [|done|].
  - by eapply owns_del.
  - intros t' Ht'. apply C. intros ->. destruct H as [N _]. by apply NoDup_cons in N as [? _].
Qed.
(** What a plane shows: the texture's size and format and what was written to it. *)
Record plane_view := mk_view { pv_width : Z; pv_height : Z; pv_format : Z; pv_image : list Z * Z }.
Definition plane_shows w p : option plane_view :=
  if pi_texture p =? 0 then None
  else Some (mk_view (pi_width p) (pi_height p) (pi_sdl_format p) (texture_image w (pi_texture p))).

(** SDL can fail to create a texture of the frame's size or to upload the frame. *)
Definition host_refuses frame : Prop :=
  (exists r f w, fst (sdl_create_texture r f (pl_width frame) (pl_height frame) w) = 0) \/
  (exists t w, fst (sdl_update_texture t (pl_pixels frame) (pl_stride frame) w) = false).

Lemma creates_owns k x w w' l : creates live k x w w' -> owns k l w ->
  owns k (nn [x] ++ l) w' /\ (forall k', k' <> k -> live k' w' = live k' w).
Proof.
  intros [[-> E]|(Hx & Hn & E & E')] H.
  { rewrite nn_0. split; [eapply owns_live; [apply E|exact H]|auto]. }
  rewrite nn_1 by done.
  split; [by eapply owns_add|done].
Qed.

(** A new texture next to the owned ones. *)
Lemma plane_texture_spec r p frame f w l : owns KTexture l w ->
  let '(t, w') := sdl_plane_info_create_texture r p frame f w in
  owns KTexture (nn [t] ++ l) w' /\ (forall k, k <> KTexture -> live k w' = live k w) /\
  (forall t', t' ∈ l -> texture_image w' t' = texture_image w t') /\ (t = 0 -> host_refuses frame).
Proof.
  intros H. unfold sdl_plane_info_create_texture.
  pose proof (create_texture_law r f (pl_width frame) (pl_height frame) w) as L.
  destruct (sdl_create_texture _ _ _ _ w) as [t w1] eqn:E. destruct L as [L I].
  destruct (creates_owns _ _ _ _ l L H) as [O K].
  assert (I' : forall t', t' ∈ l -> texture_image w1 t' = texture_image w t').
  { intros t' Ht. apply I. rewrite (proj2 H). by apply elem_of_list_to_set. }
  destruct (Z.eqb_spec t 0) as [->|Ht].
  - split_and!; [done..|]. intros _. left. exists r, f, w. by rewrite E.
  - destruct (pi_alpha_blend p); [|done]. destruct (blend_law t w1) as [B1 B2]. split_and!; [|intros|intros|done].
    + eapply owns_live; eauto.
    + rewrite B1. auto.
    + rewrite B2. auto.
Qed.

(** What an upload to a plane does, when [rest] are the textures of other planes. *)
Definition uploaded p frame w rest (ok : bool) p' w' : Prop :=
  owns KTexture (nn [pi_texture p'] ++ rest) w' /\ (forall k, k <> KTexture -> live k w' = live k w) /\
  (forall t, t ∈ rest -> texture_image w' t = texture_image w t) /\
  pi_alpha_blend p' = pi_alpha_blend p /\
  if ok then exists f, sdl_plane_info_get_sdl_format p frame = Some f /\
    plane_shows w' p' = Some (mk_view (pl_width frame) (pl_height frame) f (pl_pixels frame, pl_stride frame))
  else p' = p /\ (sdl_plane_info_get_sdl_format p frame = None \/ host_refuses frame).

(** The plane after a successful upload to texture [t]. *)
Definition plane_with p frame (f t : Z) : sdl_plane_info :=
  mk_plane (pl_width frame) (pl_height frame) f (pi_alpha_blend p) t.

Lemma upload_reused p frame f w rest ok w' : sdl_plane_info_get_sdl_format p frame = Some f ->
  pi_texture p <> 0 -> owns KTexture (nn [pi_texture p] ++ rest) w ->
  sdl_update_texture (pi_texture p) (pl_pixels frame) (pl_stride frame) w = (ok, w') ->
  uploaded p frame w rest ok (if ok then plane_with p frame f (pi_texture p) else p) w'.
Proof.
  intros Ef Ht H Eu. pose proof (update_texture_law (pi_texture p) (pl_pixels frame) (pl_stride frame) w) as L.
  rewrite Eu in L. destruct L as (L & I & V). rewrite nn_1 in H by done.
  assert (I' : forall t, t ∈ rest -> texture_image w' t = texture_image w t).
  { intros t Hin. apply I. intros ->. by destruct H as [[? _]%NoDup_cons _]. }
  assert (O : owns KTexture (nn [pi_texture p] ++ rest) w').
  { rewrite nn_1 by done. eapply owns_live; eauto. }
  destruct ok; (split_and!; [exact O|auto..|]).
  - exists f. split; [done|]. unfold plane_shows. cbn. by rewrite (proj2 (Z.eqb_neq _ _) Ht), V.
  - right. right. exists (pi_texture p), w. by rewrite Eu.
Qed.

Lemma upload_new p frame f w rest t w0 ok w1 : sdl_plane_info_get_sdl_format p frame = Some f -> t <> 0 ->
  owns KTexture (nn [t] ++ nn [pi_texture p] ++ rest) w0 -> (forall k, k <> KTexture -> live k w0 = live k w) ->
  (forall t', t' ∈ nn [pi_texture p] ++ rest -> texture_image w0 t' = texture_image w t') ->
  sdl_update_texture t (pl_pixels frame) (pl_stride frame) w0 = (ok, w1) ->
  if ok then uploaded p frame w rest true (plane_with p frame f t) (destroy_texture (pi_texture p) w1)
  else uploaded p frame w rest false p (destroy_texture t w1).
Proof.
  intros Ef Ht O K I0 Eu. pose proof (update_texture_law t (pl_pixels frame) (pl_stride frame) w0) as L.
  rewrite Eu in L. destruct L as (L & I & V).
  assert (O1 : owns KTexture (nn [t] ++ nn [pi_texture p] ++ rest) w1) by (eapply owns_live; eauto).
  assert (I' : forall t', t' ∈ rest -> texture_image w1 t' = texture_image w t').
  { intros t' Hin. rewrite I; [apply I0, elem_of_app; by right|]. intros ->. rewrite nn_1 in O by done.
    destruct O as [[N _]%NoDup_cons _]. apply N, elem_of_app. by right. }
  destruct ok.
  - assert (O2 : owns KTexture (nn [pi_texture p] ++ (t :: rest)) w1).
    { eapply owns_perm; [|exact O1]. rewrite (nn_1 t) by done. exact (Permutation_middle _ _ _). }
    destruct (destroy_texture_spec _ _ _ O2) as (O3 & K3 & I3). split_and!.
    + change (owns KTexture (nn [t] ++ rest) (destroy_texture (pi_texture p) w1)). by rewrite nn_1.
    + intros k Hk. rewrite K3, L by done. auto.
    + intros t' Hin. rewrite I3 by (by right). auto.
    + done.
    + exists f. split; [done|]. unfold plane_shows. cbn. rewrite (proj2 (Z.eqb_neq _ _) Ht).
      rewrite I3 by (by left). by rewrite V.
  - destruct (destroy_texture_spec _ _ _ O1) as (O3 & K3 & I3). split_and!; [done| | |done|done|].
    + intros k Hk. rewrite K3, L by done. auto.
    + intros t' Hin. rewrite I3; [auto|]. apply elem_of_app. by right.
    + right. right. exists t, w0. by rewrite Eu.
Qed.

Lemma upload_spec r p frame w rest ok p' w' :
  sdl_plane_info_update_texture r p frame w = (ok, p', w') ->
  owns KTexture (nn [pi_texture p] ++ rest) w -> uploaded p frame w rest ok p' w'.
Proof.
  unfold sdl_plane_info_update_texture. intros E H.
  destruct (sdl_plane_info_get_sdl_format p frame) as [f|] eqn:Ef; [|injection E as <- <- <-; split_and!; by eauto].
  destruct (nz (pi_texture p) && _ && _ && _) eqn:Er; cbn [negb andb] in E.
  - apply andb_prop in Er as [[[Hn _]%andb_prop _]%andb_prop _].
    assert (Ht : pi_texture p <> 0) by (intros E0; by rewrite E0 in Hn).
    destruct (sdl_update_texture _ _ _ w) as [b w1] eqn:Eu. pose proof (upload_reused _ _ _ _ _ _ _ Ef Ht H Eu).
    by destruct b; injection E as <- <- <-.
  - pose proof (plane_texture_spec r p frame f w _ H) as C.
    destruct (sdl_plane_info_create_texture _ _ _ _ w) as [t w0]. destruct C as (O & K & I0 & R).
    destruct (Z.eqb_spec t 0) as [->|Ht].
    + injection E as <- <- <-. split_and!; [done|done| |done|done|by right; apply R].
      intros t Hin. apply I0, elem_of_app. by right.
    + destruct (sdl_update_texture t _ _ w0) as [b w1] eqn:Eu.
      pose proof (upload_new _ _ _ _ _ _ _ _ _ Ef Ht O K I0 Eu) as U.
      destruct b; injection E as <- <- <-; [done|]. unfold destroy_texture in U.
      by rewrite (proj2 (Z.eqb_neq _ _) Ht) in U.
Qed.
(** ** The abstract screen *)

(** What a scanout shows, with the cursor's place and the blending of its planes. *)
Record screen := mk_screen {
  sv_primary : option plane_view; sv_cursor : option plane_view; sv_rect : SDL_Rect;
  sv_hot : Z * Z; sv_alpha : bool * bool }.

Definition screen_of w sc : screen :=
  mk_screen (plane_shows w (primary_plane sc)) (plane_shows w (cursor_plane sc)) (cursor_rect sc)
    (cursor_hot_x sc, cursor_hot_y sc) (pi_alpha_blend (primary_plane sc), pi_alpha_blend (cursor_plane sc)).

(** The view of a frame on a plane; [None] when its format is not supported. *)
Definition frame_view (alpha : bool) frame : option plane_view :=
  f ← sdl_plane_info_get_sdl_format (zero_plane <| pi_alpha_blend := alpha |>) frame;
  Some (mk_view (pl_width frame) (pl_height frame) f (pl_pixels frame, pl_stride frame)).

(** The meaning of a command on the screen; [None] when it cannot be carried out. *)
Definition screen_cmd c frame (v : screen) : option screen :=
  match v with mk_screen prim curs rect hot alpha =>
  match dc_body c with
  | VGPU_DISPLAY_CMD_PRIMARY_CLEAR => Some (mk_screen None curs rect hot alpha)
  | VGPU_DISPLAY_CMD_CURSOR_CLEAR => Some (mk_screen prim None zero_rect (0, 0) alpha)
  | VGPU_DISPLAY_CMD_PRIMARY_SET _ =>
    x ← frame_view (fst alpha) frame; Some (mk_screen (Some x) curs rect hot alpha)
  | VGPU_DISPLAY_CMD_CURSOR_SET _ x y hot_x hot_y =>
    if (INT_MAX <? pl_width frame) || (INT_MAX <? pl_height frame) then None
    else
      at_xy ← sdl_cursor_rect_update_position rect x y hot_x hot_y;
      img ← frame_view (snd alpha) frame;
      Some (mk_screen prim (Some img) (mk_rect (rect_x at_xy) (rect_y at_xy) (pl_width frame) (pl_height frame))
              (hot_x, hot_y) alpha)
  | VGPU_DISPLAY_CMD_CURSOR_MOVE x y =>
    at_xy ← sdl_cursor_rect_update_position rect x y (fst hot) (snd hot);
    Some (mk_screen prim curs at_xy hot alpha)
  end end.

(** Equal but for the pixels: what a failed upload into a reused texture leaves. *)
Definition same_shape (o o' : option plane_view) : Prop :=
  match o, o' with
  | None, None => True
  | Some a, Some b => pv_width a = pv_width b /\ pv_height a = pv_height b /\ pv_format a = pv_format b
  | _, _ => False
  end.
Definition untouched c (v v' : screen) : Prop :=
  sv_rect v' = sv_rect v /\ sv_hot v' = sv_hot v /\ sv_alpha v' = sv_alpha v /\
  same_shape (sv_primary v) (sv_primary v') /\ same_shape (sv_cursor v) (sv_cursor v') /\
  (about c = Primary -> sv_cursor v' = sv_cursor v) /\ (about c = Cursor -> sv_primary v' = sv_primary v).

(** A command is carried out, which marks the scanout dirty, or refused: it has no
    meaning on this screen or SDL failed. *)
Definition cmd_effect c frame (v : screen) (dirtied : bool) (v' : screen) : Prop :=
  if dirtied then screen_cmd c frame v = Some v'
  else untouched c v v' /\ (screen_cmd c frame v = None \/ host_refuses frame).

Lemma same_shape_refl o : same_shape o o.
Proof. by destruct o. Qed.
Lemma untouched_refl c v : untouched c v v.
Proof. split_and!; auto using same_shape_refl. Qed.
Lemma untouched_intro c prim curs prim' curs' rect hot alpha : same_shape prim prim' -> same_shape curs curs' ->
  (about c = Primary -> curs' = curs) -> (about c = Cursor -> prim' = prim) ->
  untouched c (mk_screen prim curs rect hot alpha) (mk_screen prim' curs' rect hot alpha).
Proof. by intros. Qed.
Lemma same_shape_shows w w' p : same_shape (plane_shows w p) (plane_shows w' p).
Proof. unfold plane_shows. by destruct (_ =? _). Qed.

Lemma plane_shows_ext w w' p : (forall t, t ∈ nn [pi_texture p] -> texture_image w' t = texture_image w t) ->
  plane_shows w' p = plane_shows w p.
Proof.
  intros H. unfold plane_shows. destruct (Z.eqb_spec (pi_texture p) 0); [done|]. rewrite H; [done|].
  rewrite nn_1 by done. by left.
Qed.

Lemma screen_of_ext w w' sc : (forall t, t ∈ nn (handles KTexture sc) -> texture_image w' t = texture_image w t) ->
  screen_of w' sc = screen_of w sc.
Proof.
  intros H. unfold screen_of. f_equal; apply plane_shows_ext; intros t Ht; apply H;
    apply elem_of_nn in Ht as [? Ht]; apply elem_of_nn; (split; [done|]); set_solver.
Qed.

Lemma get_format_alpha p frame : sdl_plane_info_get_sdl_format p frame =
  sdl_plane_info_get_sdl_format (zero_plane <| pi_alpha_blend := pi_alpha_blend p |>) frame.
Proof. done. Qed.

(** The payload a command carries. *)
Definition cmd_frame c (d : vgpu_display) : vgpu_display_payload :=
  match dc_body c with
  | VGPU_DISPLAY_CMD_PRIMARY_SET ptr | VGPU_DISPLAY_CMD_CURSOR_SET ptr _ _ _ _ =>
    default zero_frame (payload_heap d !! ptr)
  | _ => zero_frame
  end.

(** What a command does to its scanout. *)
Definition scanout_effect c frame w sc rest (dirtied : bool) sc' w' : Prop :=
  owns KTexture (nn (handles KTexture sc') ++ rest) w' /\ (forall k, k <> KTexture -> live k w' = live k w) /\
  (forall t, t ∈ rest -> texture_image w' t = texture_image w t) /\
  sdl_window sc' = sdl_window sc /\ sdl_renderer sc' = sdl_renderer sc /\
  cmd_effect c frame (screen_of w sc) dirtied (screen_of w' sc').

Lemma primary_set_effect c frame ptr sc r w rest ok p w' : dc_body c = VGPU_DISPLAY_CMD_PRIMARY_SET ptr ->
  owns KTexture (nn (handles KTexture sc) ++ rest) w ->
  sdl_plane_info_update_texture r (primary_plane sc) frame w = (ok, p, w') ->
  scanout_effect c frame w sc rest ok (sc <| primary_plane := p |>) w'.
Proof.
  intros Ec H E. change (handles KTexture sc) with ([pi_texture (primary_plane sc)] ++ [pi_texture (cursor_plane sc)]) in H.
  assert (Ha : about c = Primary) by (by unfold about, cmd_plane; rewrite Ec).
  rewrite nn_app, <- app_assoc in H. destruct (upload_spec _ _ _ _ _ _ _ _ E H) as (O & K & I & A & R).
  split_and!; [|done| |done|done|].
  - change (handles KTexture (sc <| primary_plane := p |>)) with ([pi_texture p] ++ [pi_texture (cursor_plane sc)]).
    by rewrite nn_app, <- app_assoc.
  - intros t Ht. apply I, elem_of_app. by right.
  - assert (C : plane_shows w' (cursor_plane sc) = plane_shows w (cursor_plane sc)).
    { apply plane_shows_ext. intros t Ht. apply I, elem_of_app. by left. }
    unfold cmd_effect, screen_cmd, frame_view, screen_of. cbn. rewrite Ec, A, C.
    rewrite (get_format_alpha (primary_plane sc)) in R. cbn in R. destruct ok.
    + destruct R as (f & Ef & Ev). rewrite Ef. cbn. by rewrite Ev.
    + destruct R as [-> R]. split; [apply untouched_intro; first [congruence|auto using same_shape_refl, same_shape_shows]|].
      destruct R as [Ef|Hh]; [left; by rewrite Ef|by right].
Qed.

Lemma cursor_perm (a b : Z) rest : nn [a; b] ++ rest ≡ₚ nn [b] ++ (nn [a] ++ rest).
Proof. change [a; b] with ([a] ++ [b]). rewrite nn_app. solve_Permutation. Qed.

Lemma cursor_set_effect c frame ptr x y hx hy sc w rest ok sc' w' :
  dc_body c = VGPU_DISPLAY_CMD_CURSOR_SET ptr x y hx hy -> owns KTexture (nn (handles KTexture sc) ++ rest) w ->
  sdl_scanout_apply_cursor_frame sc frame x y hx hy w = (ok, sc', w') ->
  scanout_effect c frame w sc rest ok sc' w'.
Proof.
  intros Ec H E. assert (Ha : about c = Cursor) by (by unfold about, cmd_plane; rewrite Ec).
  assert (Hid : screen_cmd c frame (screen_of w sc) = None -> scanout_effect c frame w sc rest false sc w).
  { intros Hn. split_and!; [done..|]. split; [apply untouched_refl|by left]. }
  unfold sdl_scanout_apply_cursor_frame in E. unfold screen_cmd, screen_of in Hid. rewrite Ec in Hid.
  destruct ((_ <? _) || _) eqn:Esz; [injection E as <- <- <-; by apply Hid|].
  destruct (sdl_cursor_rect_update_position (cursor_rect sc) x y hx hy) as [rect|] eqn:Er;
    [|injection E as <- <- <-; by apply Hid].
  destruct (sdl_plane_info_update_texture _ _ frame w) as [[b p] w1] eqn:Eu. clear Hid.
  assert (H' : owns KTexture (nn [pi_texture (cursor_plane sc)] ++ (nn [pi_texture (primary_plane sc)] ++ rest)) w).
  { eapply owns_perm; [apply cursor_perm|exact H]. }
  destruct (upload_spec _ _ _ _ _ _ _ _ Eu H') as (O & K & I & A & R).
  assert (C : plane_shows w1 (primary_plane sc) = plane_shows w (primary_plane sc)).
  { apply plane_shows_ext. intros t Ht. apply I, elem_of_app. by left. }
  assert (O' : owns KTexture (nn [pi_texture (primary_plane sc); pi_texture p] ++ rest) w1).
  { eapply owns_perm; [symmetry; apply cursor_perm|done]. }
  assert (I' : forall t, t ∈ rest -> texture_image w1 t = texture_image w t).
  { intros t Ht. apply I, elem_of_app. by right. }
  rewrite (get_format_alpha (cursor_plane sc)) in R.
  destruct b; injection E as <- <- <-; (split_and!; [done..|]);
    unfold cmd_effect, screen_cmd, frame_view, screen_of; cbn [fst snd sv_alpha]; rewrite Ec, Esz, Er.
  - destruct R as (f & Ef & Ev). cbn -[plane_shows]. rewrite Ev, C. cbn in Ef. rewrite Ef. cbn. by rewrite A.
  - destruct R as [-> R]. cbn -[plane_shows].
    split; [apply untouched_intro; first [congruence|auto using same_shape_refl, same_shape_shows]|].
    destruct R as [Ef|Hh]; [left; cbn in Ef; by rewrite Ef|by right].
Qed.

Lemma reset_effect c frame p sc1 sc w rest rest' w' : owns KTexture (nn [pi_texture p] ++ rest') w ->
  w' = destroy_texture (pi_texture p) w -> nn (handles KTexture sc1) ++ rest ≡ₚ rest' ->
  sdl_window sc1 = sdl_window sc -> sdl_renderer sc1 = sdl_renderer sc ->
  ((forall t, t ∈ rest' -> texture_image w' t = texture_image w t) ->
   screen_cmd c frame (screen_of w sc) = Some (screen_of w' sc1)) ->
  scanout_effect c frame w sc rest true sc1 w'.
Proof.
  intros H -> Hp Hw Hr E. destruct (destroy_texture_spec _ _ _ H) as (O & K & I).
  split_and!; [|done| |done|done|by apply E].
  - by eapply owns_perm; [symmetry; exact Hp|].
  - intros t Ht. apply I. rewrite <- Hp. apply elem_of_app. by right.
Qed.

Lemma scanout_cmd_effect c sc s rest dirtied sc' w' :
  owns KTexture (nn (handles KTexture sc) ++ rest) (ws_sdl s) ->
  scanout_cmd c sc s = (dirtied, sc', w') ->
  scanout_effect c (cmd_frame c (ws_disp s)) (ws_sdl s) sc rest dirtied sc' w'.
Proof.
  intros H. unfold scanout_cmd, cmd_frame. destruct (dc_body c) as [ptr| |ptr x y hx hy| |x y] eqn:Ec.
  - destruct (sdl_plane_info_update_texture _ _ _ _) as [[ok p] w1] eqn:E. intros [= <- <- <-].
    by eapply primary_set_effect.
  - intros [= <- <- <-]. eapply (reset_effect _ _ (primary_plane sc)); [|done| |done|done|].
    + change (handles KTexture sc) with ([pi_texture (primary_plane sc)] ++ [pi_texture (cursor_plane sc)]) in H.
      by rewrite nn_app, <- app_assoc in H.
    + done.
    + intros I. unfold screen_cmd, screen_of. rewrite Ec. cbn -[plane_shows]. do 2 f_equal.
      symmetry. apply plane_shows_ext. intros t Ht. apply I, elem_of_app. by left.
  - intros E. by eapply cursor_set_effect.
  - intros [= <- <- <-]. eapply (reset_effect _ _ (cursor_plane sc)); [|done| |done|done|].
    + eapply owns_perm; [apply cursor_perm|exact H].
    + cbn -[nn]. change [pi_texture (primary_plane sc); 0] with ([pi_texture (primary_plane sc)] ++ [0]).
      by rewrite nn_app, nn_0, app_nil_r.
    + intros I. unfold screen_cmd, screen_of. rewrite Ec. cbn -[plane_shows]. do 2 f_equal.
      symmetry. apply plane_shows_ext. intros t Ht. apply I, elem_of_app. by left.
  - destruct (sdl_cursor_rect_update_position _ _ _ _ _) as [rect|] eqn:Er; intros [= <- <- <-];
      (split_and!; [done..|]); unfold cmd_effect, screen_cmd; [|split; [apply untouched_refl|left]];
      unfold screen_of; rewrite Ec; cbn [fst snd]; rewrite Er; done.
Qed.

(** ** The scanout array *)

Lemma bind_insert {A} (f : A -> list Z) (l : list A) i x : l !! i = Some x ->
  exists rest, (l ≫= f) ≡ₚ f x ++ rest /\ (forall y, (<[i := y]> l ≫= f) ≡ₚ f y ++ rest) /\
    (forall j z, j <> i -> l !! j = Some z -> f z ⊆ rest).
Proof.
  intros H. exists ((take i l ≫= f) ++ (drop (S i) l ≫= f)).
  assert (Hi : (i < length l)%nat) by (by eapply lookup_lt_Some).
  assert (Hg : forall y, ((take i l ++ y :: drop (S i) l) ≫= f) ≡ₚ f y ++ ((take i l ≫= f) ++ (drop (S i) l ≫= f))).
  { intros y. rewrite bind_app, bind_cons. solve_Permutation. }
  split_and!.
  - rewrite <- Hg. by rewrite take_drop_middle.
  - intros y. by rewrite insert_take_drop, Hg.
  - intros j z Hj Hz t Ht. apply elem_of_app. rewrite !list_elem_of_bind. 
    destruct (decide (j < i)%nat).
    + left. exists z. split; [done|]. apply list_elem_of_lookup. exists j. by rewrite lookup_take_lt.
    + right. exists z. split; [done|]. apply list_elem_of_lookup. exists (j - S i)%nat. rewrite lookup_drop.
      by replace (S i + (j - S i))%nat with j by lia.
Qed.

(** Whether a scanout has a window to draw in. *)
Definition visible sc : bool := negb ((sdl_window sc =? 0) || (sdl_renderer sc =? 0)).

(** What the commands [xs], with their frames, do to the screen of scanout [i] and to
    its dirty mark. *)
Inductive effects (i : Z) : list (vgpu_display_cmd * vgpu_display_payload) ->
    screen * bool -> screen * bool -> Prop :=
  | effects_nil a : effects i [] a a
  | effects_other c frame xs a b : dc_scanout_id c <> i -> effects i xs a b -> effects i ((c, frame) :: xs) a b
  | effects_this c frame xs v dirty v' dirtied b : dc_scanout_id c = i -> cmd_effect c frame v dirtied v' ->
      effects i xs (v', dirtied || dirty) b -> effects i ((c, frame) :: xs) (v, dirty) b.

(** The commands a drain takes from the bridge, with their frames. *)
Fixpoint drain_cmds (fuel : nat) (d : vgpu_display) :
    option (list (vgpu_display_cmd * vgpu_display_payload) * vgpu_display) :=
  match fuel with
  | O => None
  | S fuel =>
    match vgpu_display_pop_cmd d with
    | None => None
    | Some (None, d) => Some ([], d)
    | Some (Some c, d) =>
      '(xs, d') ← drain_cmds fuel (vgpu_display_release_cmd c d); Some ((c, cmd_frame c d) :: xs, d')
    end
  end.

Definition screen_at s (i : Z) : screen := screen_of (ws_sdl s) (scanout_at s i).
Definition in_array (i : Z) : Prop := 0 <= i < VIRTIO_GPU_MAX_SCANOUTS.

(** Every visible scanout underwent the effects of [xs], the others did not change. *)
Definition evolves xs (dirty : list bool) s (dirty' : list bool) s' : Prop := forall i, in_array i ->
  visible (scanout_at s' i) = visible (scanout_at s i) /\
  sdl_renderer (scanout_at s' i) = sdl_renderer (scanout_at s i) /\
  if visible (scanout_at s i)
  then effects i xs (screen_at s i, arr_get false dirty i) (screen_at s' i, arr_get false dirty' i)
  else screen_at s' i = screen_at s i /\ arr_get false dirty' i = arr_get false dirty i.

Lemma effects_app i xs ys a b c : effects i xs a b -> effects i ys b c -> effects i (xs ++ ys) a c.
Proof. induction 1; intros; cbn; [done|apply effects_other; auto|eapply effects_this; eauto]. Qed.

Lemma evolves_trans xs ys d1 d2 d3 s1 s2 s3 : evolves xs d1 s1 d2 s2 -> evolves ys d2 s2 d3 s3 ->
  evolves (xs ++ ys) d1 s1 d3 s3.
Proof.
  intros H1 H2 i Hi. destruct (H1 i Hi) as (V1 & R1 & E1). destruct (H2 i Hi) as (V2 & R2 & E2).
  rewrite V1 in *. split_and!; [congruence..|]. destruct (visible (scanout_at s1 i)).
  - by eapply effects_app.
  - destruct E1, E2. split; congruence.
Qed.

Lemma scanout_lookup s i : window_inv s -> in_array i ->
  sdl_scanouts s !! Z.to_nat i = Some (scanout_at s i).
Proof.
  intros [Hl _ _] Hi. unfold in_array, VIRTIO_GPU_MAX_SCANOUTS in Hi. unfold scanout_at, arr_get.
  destruct (lookup_lt_is_Some_2 (sdl_scanouts s) (Z.to_nat i)) as [x E]; [lia|]. by rewrite E.
Qed.

(** The textures of scanout [i] and those of the others. *)
Lemma held_split s i k : window_inv s -> in_array i ->
  exists rest, owns k (nn (handles k (scanout_at s i)) ++ rest) (ws_sdl s) /\
    (forall sc w, owns k (nn (handles k sc) ++ rest) w ->
       owns k (held k (s <| sdl_scanouts := arr_set (sdl_scanouts s) i sc |> <| ws_sdl := w |>)) w) /\
    (forall j, in_array j -> j <> i -> nn (handles k (scanout_at s j)) ⊆ rest).
Proof.
  intros H Hi. destruct (bind_insert (fun sc => nn (handles k sc)) _ _ _ (scanout_lookup s i H Hi)) as (rest & A & B & C).
  exists rest. split_and!.
  - eapply owns_perm; [exact A|]. apply H.
  - intros sc w Ho. eapply owns_perm; [symmetry; apply B|done].
  - intros j Hj Hne. apply (C (Z.to_nat j)); [unfold in_array in *; lia|]. by apply scanout_lookup.
Qed.

Lemma held_same s i sc w k : window_inv s -> in_array i ->
  handles k sc = handles k (scanout_at s i) -> live k w = live k (ws_sdl s) ->
  owns k (held k (s <| sdl_scanouts := arr_set (sdl_scanouts s) i sc |> <| ws_sdl := w |>)) w.
Proof.
  intros H Hi E L. destruct (held_split s i k H Hi) as (rest & A & B & _). apply B. rewrite E.
  by eapply owns_live.
Qed.

Lemma scanout_at_set s i j sc w d : window_inv s -> in_array i -> in_array j ->
  scanout_at (s <| sdl_scanouts := arr_set (sdl_scanouts s) i sc |> <| ws_sdl := w |> <| ws_disp := d |>) j =
  if j =? i then sc else scanout_at s j.
Proof.
  intros [Hl _ _] Hi Hj. unfold scanout_at, in_array, VIRTIO_GPU_MAX_SCANOUTS in *. cbn.
  destruct (Z.eqb_spec j i) as [->|Hne]; [apply arr_get_set_eq|apply arr_get_set_ne]; lia.
Qed.

Lemma drain_cmd_spec c dirty s dirty' s' : window_inv s -> in_array (dc_scanout_id c) -> length dirty = 16%nat ->
  drain_cmd c dirty s = (dirty', s') ->
  window_inv s' /\ length dirty' = 16%nat /\ ws_disp s' = vgpu_display_release_cmd c (ws_disp s) /\
  ws_draws s' = ws_draws s /\ ws_host s' = ws_host s /\
  evolves [(c, cmd_frame c (ws_disp s))] dirty s dirty' s'.
Proof.
  intros H Hi Hd. unfold drain_cmd. set (i := dc_scanout_id c) in *. set (sc := scanout_at s i).
  destruct (_ || _) eqn:Ev.
  - intros [= <- <-]. split_and!; try done; [by destruct H|]. intros j Hj. split_and!; [done..|].
    destruct (visible (scanout_at s j)) eqn:Evj; [|done]. apply effects_other; [|constructor]. intros Ej.
    unfold visible in Evj. fold i in Ej. subst j. fold sc in Evj. by rewrite Ev in Evj.
  - destruct (held_split s i KTexture H Hi) as (rest & A & B & C).
    destruct (scanout_cmd c (scanout_at s i) s) as [[b sc'] w'] eqn:E.
    destruct (scanout_cmd_effect _ _ _ _ _ _ _ A E) as (O & K & I & Ew & Er & F).
    fold sc in E |- *. unfold sc in E |- *. rewrite E. intros [= <- <-]. split_and!; try done.
    + constructor; [cbn; rewrite length_arr_set; apply H| |intros []].
      * intros j Hj. rewrite scanout_at_set by (unfold in_array in *; first [done|lia]).
        destruct (Z.eqb_spec j i) as [->|Hne]; [|by apply H].
        unfold sc in Ev. by rewrite (wi_single s H i Hj) in Ev.
      * apply held_same; [done..| |by apply K]. cbn. by rewrite Ew.
      * apply held_same; [done..| |by apply K]. cbn. by rewrite Er.
      * by apply B.
    + destruct b; [by rewrite length_arr_set|done].
    + intros j Hj. unfold screen_at. rewrite scanout_at_set by done. cbn [ws_sdl]. 
      destruct (Z.eqb_spec j i) as [->|Hne].
      * unfold visible. rewrite Ew, Er. fold sc. rewrite Ev. cbn [negb]. split_and!; [done..|].
        eapply effects_this; [done|exact F|]. destruct b; [|constructor].
        rewrite arr_get_set_eq by (unfold in_array, VIRTIO_GPU_MAX_SCANOUTS in Hi; lia). constructor.
      * split_and!; [done..|]. 
        assert (Es : screen_of w' (scanout_at s j) = screen_of (ws_sdl s) (scanout_at s j)).
        { apply screen_of_ext. intros t Ht. apply I. by apply (C j). }
        assert (Eb : arr_get false (if b then arr_set dirty i true else dirty) j = arr_get false dirty j).
        { destruct b; [|done]. apply arr_get_set_ne; unfold in_array in *; lia. }
        cbn -[scanout_at screen_of]. rewrite Es, Eb. destruct (visible _); [|done].
        apply effects_other; [auto|constructor].
Qed.

(** ** Draining the bridge *)

(** The queue is sound and names scanouts that exist, as the GPU's back end checks. *)
Definition bridge_ready (d : vgpu_display) : Prop :=
  bridge_ok d /\ Forall (fun c => in_array (dc_scanout_id c)) (dcontents d).

Lemma pop_ready d : bridge_ready d -> exists r d', vgpu_display_pop_cmd d = Some (r, d') /\ bridge_ready d' /\
  match r with
  | Some c => in_array (dc_scanout_id c) /\ (backlog d' < backlog d)%nat
  | None => backlog d' = 0%nat
  end.
Proof.
  intros [H F]. destruct (pop_cmd_spec d H) as (r & d' & E & H' & P). exists r, d'. split; [done|].
  assert (B : forall c, r = Some c -> (backlog d' < backlog d)%nat) by (intros c ->; by eapply pop_backlog).
  assert (R : forall (p : plane) i rest, pending d p = i :: rest -> in_array i).
  { intros p i rest E0. apply (pending_range d p); [done|]. rewrite E0. left. }
  unfold pop_result in P. destruct (pending d Primary) as [|i rest] eqn:E1; [destruct (pending d Cursor) as [|i rest] eqn:E2|].
  - destruct P as (P1 & P2 & sk & _ & P3). destruct r as [c|]; destruct P3 as [P3 P4].
    + rewrite P3, Forall_app, Forall_cons in F. destruct F as (_ & Fc & F). split_and!; by eauto.
    + split; [split; [done|by rewrite P4]|]. unfold backlog. by rewrite P1, P2, P4.
  - destruct P as (-> & P & _). split; [split; [done|by rewrite P]|]. split; [cbn; by eauto|by eauto].
  - destruct P as (-> & P & _). split; [split; [done|by rewrite P]|]. split; [cbn; by eauto|by eauto].
Qed.

Lemma release_ready c d : bridge_ready d ->
  bridge_ready (vgpu_display_release_cmd c d) /\ backlog (vgpu_display_release_cmd c d) = backlog d.
Proof.
  intros [H F]. destruct (release_view c d H) as [H' B]. split; [|done]. split; [done|]. by rewrite dcontents_release.
Qed.

Lemma window_inv_disp s d : window_inv s -> window_inv (s <| ws_disp := d |>).
Proof. by intros []. Qed.

Lemma drain_loop_spec fuel : forall dirty s, window_inv s -> bridge_ready (ws_disp s) ->
  (backlog (ws_disp s) < fuel)%nat -> length dirty = 16%nat ->
  exists dirty' s' xs, drain_loop fuel dirty s = Some (dirty', s') /\
    drain_cmds fuel (ws_disp s) = Some (xs, ws_disp s') /\ window_inv s' /\ bridge_ready (ws_disp s') /\
    backlog (ws_disp s') = 0%nat /\ ws_draws s' = ws_draws s /\ ws_host s' = ws_host s /\
    evolves xs dirty s dirty' s'.
Proof.
  induction fuel as [|fuel IH]; intros dirty s H R Hf Hd; [lia|]. cbn [drain_loop drain_cmds].
  destruct (pop_ready _ R) as ([c|] & d & E & R' & P); rewrite E.
  - destruct P as [Hi Hb]. pose proof (window_inv_disp s d H) as H1.
    destruct (drain_cmd c dirty (s <| ws_disp := d |>)) as [dirty1 s1] eqn:E1.
    destruct (drain_cmd_spec _ _ _ _ _ H1 Hi Hd E1) as (I1 & L1 & D1 & G1 & T1 & V1). cbn in D1, G1, T1.
    destruct (release_ready c d R') as [R1 B1].
    destruct (IH dirty1 s1) as (dirty' & s' & xs & A1 & A2 & A3 & A4 & A5 & A6 & A7 & A8); [done|by rewrite D1| |done|].
    { rewrite D1, B1. lia. }
    exists dirty', s', ((c, cmd_frame c d) :: xs). rewrite D1 in A2. rewrite A2. cbn [mbind option_bind].
    split_and!; [done..|congruence|congruence|]. by apply (evolves_trans [_] xs _ dirty1 _ _ s1).
  - exists dirty, (s <| ws_disp := d |>), []. split_and!; try done; [by apply window_inv_disp|].
    intros i Hi. split_and!; [done..|]. destruct (visible _); [constructor|done].
Qed.

(** The draw calls of a drain. *)
Definition redraw (dirty : list bool) s (i : Z) : list draw_call :=
  if visible (scanout_at s i) && arr_get false dirty i then sdl_scanout_render (scanout_at s i) else [].

Lemma render_all dirty l : forall s, foldl (render_dirty dirty) s l = draw (l ≫= redraw dirty s) s.
Proof.
  induction l as [|i l IH]; intros s; cbn [foldl]; [by destruct s; unfold draw; cbn; rewrite app_nil_r|].
  rewrite IH, bind_cons. 
  assert (E : render_dirty dirty s i = draw (redraw dirty s i) s).
  { unfold render_dirty, redraw, visible. destruct (arr_get _ _ _), (_ =? 0), (_ =? 0); cbn; try done;
      by destruct s; unfold draw; cbn; rewrite app_nil_r. }
  rewrite E. unfold draw. cbn. by rewrite app_assoc.
Qed.

(** What a renderer does with draw calls: a target of images with their places, and
    the picture presented last. *)
Definition layer : Type := (list Z * Z) * option SDL_Rect.
Definition paint w (r : Z) (st : list layer * list layer) (c : draw_call) : list layer * list layer :=
  let '(back, front) := st in
  match c with
  | SDL_RenderClear r' => if r' =? r then ([], front) else st
  | SDL_RenderCopy r' t dst => if r' =? r then (back ++ [(texture_image w t, dst)], front) else st
  | SDL_RenderPresent r' => if r' =? r then (back, back) else st
  end.

(** The picture of a screen: the primary plane over all of it, then the cursor. *)
Definition picture (v : screen) : list layer :=
  match sv_primary v with Some p => [(pv_image p, None)] | None => [] end
  ++ match sv_cursor v with Some p => [(pv_image p, Some (sv_rect v))] | None => [] end.

Lemma paint_render w sc st :
  snd (foldl (paint w (sdl_renderer sc)) st (sdl_scanout_render sc)) = picture (screen_of w sc).
Proof.
  unfold sdl_scanout_render, picture, screen_of, plane_shows, nz. cbn [sv_primary sv_cursor sv_rect].
  destruct st as [back front]. destruct (pi_texture (primary_plane sc) =? 0), (pi_texture (cursor_plane sc) =? 0); cbn;
    by repeat (rewrite Z.eqb_refl; cbn).
Qed.

(** Only the first scanout has a window, so the others draw nothing. *)
Lemma redraw_first dirty s : window_inv s ->
  (seqZ 0 VIRTIO_GPU_MAX_SCANOUTS ≫= redraw dirty s) = redraw dirty s 0.
Proof.
  intros H. change (seqZ 0 VIRTIO_GPU_MAX_SCANOUTS) with (0 :: seqZ 1 15). rewrite bind_cons.
  enough (E : forall l, (forall j, j ∈ l -> 0 < j < VIRTIO_GPU_MAX_SCANOUTS) -> (l ≫= redraw dirty s) = []).
  { rewrite E, app_nil_r; [done|]. intros j Hj%elem_of_seqZ. change VIRTIO_GPU_MAX_SCANOUTS with 16. lia. }
  induction l as [|j l IH]; intros Hl; [done|]. rewrite bind_cons, IH by (intros; apply Hl; by right).
  unfold redraw. rewrite (wi_single s H j); [done|]. apply Hl. by left.
Qed.

Lemma drain_paints dirty s i st : window_inv s -> 0 <= i < VIRTIO_GPU_MAX_SCANOUTS -> visible (scanout_at s i) = true ->
  snd (foldl (paint (ws_sdl s) (sdl_renderer (scanout_at s i))) st (seqZ 0 VIRTIO_GPU_MAX_SCANOUTS ≫= redraw dirty s))
  = if arr_get false dirty i then picture (screen_of (ws_sdl s) (scanout_at s i)) else snd st.
Proof.
  intros H Hi V. rewrite redraw_first by done. destruct (decide (i = 0)) as [->|].
  - unfold redraw. rewrite V. cbn [andb]. destruct (arr_get false dirty 0); [apply paint_render|done].
  - rewrite (wi_single s H i) in V by lia. done.
Qed.

Lemma window_drain_spec s : window_inv s -> bridge_ready (ws_disp s) ->
  exists s' xs dirty, window_drain_display_queue s = Some s' /\
    drain_cmds DRAIN_ROUNDS (ws_disp s) = Some (xs, ws_disp s') /\ window_inv s' /\ bridge_ready (ws_disp s') /\
    backlog (ws_disp s') = 0%nat /\ ws_host s' = ws_host s /\ evolves xs (replicate 16 false) s dirty s' /\
    ws_draws s' = ws_draws s ++ (seqZ 0 VIRTIO_GPU_MAX_SCANOUTS ≫= redraw dirty s').
Proof.
  intros H R. destruct (drain_loop_spec DRAIN_ROUNDS (replicate 16 false) s H R) as
    (dirty & s1 & xs & A1 & A2 & A3 & A4 & A5 & A6 & A7 & A8); [by apply backlog_bound, R|done|].
  unfold window_drain_display_queue. rewrite A1, render_all. exists (draw (seqZ 0 VIRTIO_GPU_MAX_SCANOUTS ≫= redraw dirty s1) s1), xs, dirty.
  split_and!; [done..|by destruct A3|done|done|done|done|]. unfold draw at 1. cbn [ws_draws]. by rewrite <- A6.
Qed.

(** ** Events *)

(** [w'] has the same objects as [w]. *)
Definition same_live w w' : Prop := forall k, live k w' = live k w.

Lemma same_live_trans w1 w2 w3 : same_live w1 w2 -> same_live w2 w3 -> same_live w1 w3.
Proof. intros A B k. by rewrite B, A. Qed.

Lemma grab_live b h w : same_live w (snd (window_set_mouse_grab_sw b h w)).
Proof.
  intros k. unfold window_set_mouse_grab_sw.
  assert (L : forall w, live k (snd (sdl_set_relative_mouse_mode true w)) = live k w /\
                   live k (snd (sdl_set_relative_mouse_mode false w)) = live k w /\
                   (forall b, live k (sdl_set_window_grab b w) = live k w) /\
                   (forall b, live k (sdl_show_cursor b w) = live k w)).
  { intros w1. destruct (other_laws k w1) as (_ & _ & _ & _ & A & B & C). auto. }
  repeat (case_match; cbn [snd]); try done.
  - match goal with E : sdl_set_relative_mouse_mode true w = (_, ?w1) |- _ =>
      destruct (L w) as (A & _); rewrite E in A; cbn in A end.
    by rewrite (proj2 (proj2 (proj2 (L _)))), (proj1 (proj2 (proj2 (L _)))).
  - match goal with E : sdl_set_relative_mouse_mode true w = (_, ?w1) |- _ =>
      destruct (L w) as (A & _); by rewrite E in A end.
  - by rewrite (proj2 (proj2 (proj2 (L _)))), (proj1 (proj2 (L _))), (proj1 (proj2 (proj2 (L _)))).
Qed.

Lemma handle_event_live e h w h' w' : handle_event e h w = Some (h', w') -> same_live w w'.
Proof.
  unfold handle_event. intros H k. pose proof (grab_live false h w k) as G0. pose proof (grab_live true h w k) as G1.
  destruct e; try done; repeat (case_match; try done); simplify_eq; try done;
    repeat match goal with E : window_set_mouse_grab_sw _ _ _ = _ |- _ => rewrite E in * end; done.
Qed.

Lemma poll_live w : same_live w (snd (sdl_poll_event w)).
Proof. intros k. apply (other_laws k w). Qed.
Lemma wait_live w : same_live w (snd (sdl_wait_event w)).
Proof. intros k. apply (other_laws k w). Qed.

Lemma burst_live n : forall e h w, same_live w (snd (burst n e h w)).
Proof.
  induction n as [|n IH]; intros e h w; cbn [burst]; [done|].
  destruct (handle_event e h w) as [[h' w']|] eqn:E; [|done]. apply handle_event_live in E.
  destruct n; [done|]. pose proof (poll_live w') as P.
  destruct (sdl_poll_event w') as [[e'|] w2]; eauto using same_live_trans.
Qed.

Lemma events_live h w : same_live w (snd (vinput_handle_events h w)).
Proof.
  unfold vinput_handle_events. pose proof (wait_live w) as P.
  destruct (sdl_wait_event w) as [[e|] w1]; eauto using same_live_trans, burst_live.
Qed.

Lemma quit_burst_live n : forall e w, same_live w (snd (quit_burst n e w)).
Proof.
  induction n as [|n IH]; intros e w; cbn [quit_burst]; [done|]. pose proof (poll_live w) as P.
  destruct e, n; try done; destruct (sdl_poll_event w) as [[e'|] w2]; eauto using same_live_trans.
Qed.

Lemma window_inv_live s h w b : window_inv s -> same_live (ws_sdl s) w ->
  window_inv (s <| ws_host := h |> <| ws_sdl := w |> <| ws_sdl_initialized := b |>).
Proof.
  intros [L S O] E. constructor; [done|exact S|]. intros k. eapply owns_live; [apply E|apply O].
Qed.

(** ** Rounds *)

Lemma round_ok s : window_inv s -> bridge_ready (ws_disp s) ->
  match window_round s with
  | Some None => False
  | Some (Some s') => window_inv s' /\ bridge_ready (ws_disp s')
  | None => True
  end.
Proof.
  intros H R. unfold window_round. destruct (window_is_closed_sw _); [done|]. destruct (headless_mode _); [done|].
  pose proof (events_live (ws_host s) (ws_sdl s)) as P.
  destruct (vinput_handle_events (ws_host s) (ws_sdl s)) as [[quit h] w].
  pose proof (window_inv_live s h w (ws_sdl_initialized s) H P) as H1. destruct quit.
  - split; [|done]. exact (window_inv_live s (window_shutdown_sw h) w (ws_sdl_initialized s) H P).
  - destruct (window_drain_spec _ H1 R) as (s' & xs & dirty & E & _ & I & R' & _). 
    change (window_drain_display_queue (s <| ws_host := h |> <| ws_sdl := w |>) = Some s') in E. by rewrite E.
Qed.

Lemma gpu_round_ok s : window_inv s -> bridge_ready (ws_disp s) ->
  match window_gpu_round s with
  | Some None => False
  | Some (Some s') => window_inv s' /\ bridge_ready (ws_disp s')
  | None => True
  end.
Proof.
  intros H R. unfold window_gpu_round. destruct (window_is_closed_sw _); [done|]. destruct (headless_mode _); [done|].
  assert (P : same_live (ws_sdl s) (snd (match sdl_wait_event (ws_sdl s) with
                    | (Some e, w) => quit_burst (Z.to_nat SDL_EVENT_BURST_LIMIT) e w
                    | (None, w) => (false, w) end))).
  { pose proof (wait_live (ws_sdl s)) as P. destruct (sdl_wait_event (ws_sdl s)) as [[e|] w1];
      eauto using same_live_trans, quit_burst_live. }
  destruct (match sdl_wait_event (ws_sdl s) with (Some e, w) => _ | (None, w) => _ end) as [quit w].
  pose proof (window_inv_live s (ws_host s) w (ws_sdl_initialized s) H P) as H1. destruct quit.
  - split; [|done]. exact (window_inv_live s (window_shutdown_sw (ws_host s)) w (ws_sdl_initialized s) H P).
  - destruct (window_drain_spec _ H1 R) as (s' & xs & dirty & E & _ & I & R' & _). 
    change (window_drain_display_queue (s <| ws_sdl := w |>) = Some s') in E. by rewrite E.
Qed.

(** ** Creation and clean-up *)

Definition one_scanout sc : list sdl_scanout_info := sc :: replicate 15 zero_scanout_info.

Lemma held_one sc s k : sdl_scanouts s = one_scanout sc -> held k s = nn (handles k sc).
Proof. intros E. unfold held. rewrite E. unfold one_scanout. rewrite bind_cons. by destruct k; cbn; rewrite app_nil_r. Qed.

Lemma inv_one s sc : sdl_scanouts s = one_scanout sc -> (forall k, owns k (nn (handles k sc)) (ws_sdl s)) -> window_inv s.
Proof.
  intros E O. constructor; [by rewrite E| |intros k; by rewrite (held_one sc)].
  intros i Hi. unfold scanout_at. rewrite E. unfold one_scanout, arr_get. replace (Z.to_nat i) with (S (Z.to_nat (i - 1))) by lia.
  cbn [lookup list_lookup]. destruct (replicate 15 zero_scanout_info !! Z.to_nat (i - 1)) eqn:El; [|done].
  by apply lookup_replicate in El as [-> _].
Qed.

Lemma inv_shape s : window_inv s -> sdl_scanouts s = one_scanout (scanout_at s 0).
Proof.
  intros [L S _]. apply list_eq_same_length with (n := 16%nat); [done|done|]. intros i x y Hi Hx Hy.
  assert (Ex : scanout_at s (Z.of_nat i) = x) by (unfold scanout_at, arr_get; by rewrite Nat2Z.id, Hx).
  destruct i as [|i]; cbn in Hy; [by injection Hy as <-|]. 
  rewrite S in Ex by (unfold VIRTIO_GPU_MAX_SCANOUTS; lia).
  assert (Hr : replicate 15 zero_scanout_info !! i = Some y) by exact Hy. apply lookup_replicate in Hr as [-> _]. done.
Qed.

Lemma drained_ready d : bridge_ok d -> backlog d = 0%nat -> bridge_ready d.
Proof.
  intros H B. split; [done|]. unfold backlog in B. replace (dcontents d) with (@nil vgpu_display_cmd); [done|].
  symmetry. apply length_zero_iff_nil. lia.
Qed.

Lemma headless_ok s : window_inv s -> bridge_ready (ws_disp s) ->
  exists s', go_headless s = Some s' /\ window_inv s' /\ bridge_ready (ws_disp s').
Proof.
  intros H [R _]. unfold go_headless. cbn [ws_disp].
  destruct (set_unavailable_spec _ R) as (d' & E & R' & B & _). unfold DRAIN_ROUNDS.
  change (ws_disp (s <| ws_host := (ws_host s) <| headless_mode := true |> |>)) with (ws_disp s). rewrite E.
  eexists. split; [done|]. split; [by destruct H|by apply drained_ready].
Qed.

Lemma owns_nil k w w' : live k w' ⊆ live k w -> live k w = ∅ -> owns k [] w'.
Proof. intros A B. split; [constructor|]. rewrite B in A. cbn. set_solver. Qed.

(** The state before [window_init]: no objects, an empty array. *)
Definition pristine s : Prop :=
  sdl_scanouts s = one_scanout zero_scanout_info /\ (forall k, live k (ws_sdl s) = ∅) /\ bridge_ready (ws_disp s).

Lemma create_renderer_spec x w : let '(r, w') := create_renderer x w in creates live KRenderer r w w'.
Proof.
  unfold create_renderer. pose proof (create_renderer_law x false w) as A.
  destruct (sdl_create_renderer x false w) as [r w1]. destruct (Z.eqb_spec r 0) as [->|Hr]; [|done].
  destruct A as [[_ E]|[? _]]; [|done]. pose proof (create_renderer_law x true w1) as B.
  destruct (sdl_create_renderer x true w1) as [r2 w2]. destruct B as [[-> B]|(B0 & B1 & B2 & B3)].
  - left. split; [done|]. intros k. by rewrite B, E.
  - right. rewrite E in B1, B2. split_and!; [done..|]. intros k Hk. rewrite B3, E; done.
Qed.

Lemma inv_none s sc : sdl_scanouts s = one_scanout sc -> (forall k, nn (handles k sc) = []) ->
  (forall k, live k (ws_sdl s) = ∅) -> window_inv s.
Proof. intros E N L. apply (inv_one s sc E). intros k. rewrite N. split; [constructor|apply L]. Qed.

Lemma quit_none w : (forall k, live k w = ∅) -> forall k, live k (sdl_quit w) = ∅.
Proof. intros H k. pose proof (quit_law k w). rewrite H in *. set_solver. Qed.

(** With a window and no renderer yet. *)
Lemma renderer_ok width height window s sc : sdl_scanouts s = one_scanout sc ->
  sc = zero_scanout_info <| sdl_window := window |> -> window <> 0 -> bridge_ready (ws_disp s) ->
  live KWindow (ws_sdl s) = {[window]} -> live KRenderer (ws_sdl s) = ∅ -> live KTexture (ws_sdl s) = ∅ ->
  exists s', init_renderer width height window s = Some s' /\
    window_inv s' /\ bridge_ready (ws_disp s').
Proof.
  intros Es -> Hw R Lw Lr Lt. unfold init_renderer. pose proof (create_renderer_spec window (ws_sdl s)) as C.
  destruct (create_renderer window (ws_sdl s)) as [r w]. destruct (Z.eqb_spec r 0) as [->|Hr].
  - destruct C as [[_ C]|[? _]]; [|done]. apply headless_ok; [|done].
    eapply inv_none with (sc := zero_scanout_info); [|by intros []|].
    + unfold upd_scanout0, quit_sdl, scanout_at. cbn. by rewrite Es.
    + apply quit_none. cbn. destruct (destroy_window_law window w) as (D1 & D2 & D3). rewrite C in D1, D2, D3.
      intros []; set_solver.
  - destruct C as [[? _]|(_ & _ & C1 & C2)]; [done|]. eexists. split; [done|]. split; [|done].
    eapply inv_one with (sc := mk_scanout_info zero_plane (zero_plane <| pi_alpha_blend := true |>) zero_rect 0 0 width height window r).
    + unfold upd_scanout0, scanout_at, draw. cbn. by rewrite Es.
    + intros k. destruct (other_laws k w) as (_ & D & _). split.
      * destruct k; cbn; repeat case_decide; repeat constructor; set_solver.
      * cbn -[nn list_to_set]. rewrite D. destruct k; cbn -[nn list_to_set]; rewrite ?nn_1 by done.
        -- rewrite C2, Lw by done. set_solver.
        -- rewrite C1, Lr. set_solver.
        -- rewrite C2, Lt by done. set_solver.
Qed.

(** [window_init] returns with exactly the objects it stored, in every outcome. *)
Lemma window_init_ok headless width height s : pristine s ->
  exists s', window_init_sw headless width height s = Some s' /\ window_inv s' /\ bridge_ready (ws_disp s').
Proof.
  intros (Es & El & R). unfold window_init_sw.
  destruct headless; [apply headless_ok; [|done]; by apply (inv_none _ zero_scanout_info); [|intros []|]|].
  assert (L1 : forall k, live k (snd (sdl_init_video (ws_sdl s))) = ∅).
  { intros k. destruct (other_laws k (ws_sdl s)) as [-> _]. apply El. }
  destruct (sdl_init_video (ws_sdl s)) as [ok w1]; cbn in L1.
  destruct ok; cbn [negb]; [|apply headless_ok; [|done]; by apply (inv_none _ zero_scanout_info); [|intros []|]].
  cbn [ws_sdl]. change (ws_sdl (s <| ws_sdl := w1 |> <| ws_sdl_initialized := true |>)) with w1.
  pose proof (create_window_law width height w1) as C. destruct (sdl_create_window width height w1) as [x w2].
  destruct (Z.eqb_spec x 0) as [->|Hx].
  - destruct C as [[_ C]|[? _]]; [|done]. apply headless_ok; [|done].
    eapply inv_none with (sc := zero_scanout_info); [|by intros []|].
    + unfold upd_scanout0, quit_sdl, scanout_at. cbn. by rewrite Es.
    + apply quit_none. intros k. cbn. by rewrite C, L1.
  - destruct C as [[? _]|(_ & _ & C1 & C2)]; [done|].
    eapply (renderer_ok width height x _ (zero_scanout_info <| sdl_window := x |>)); [|done|done|done|..].
    + unfold upd_scanout0, scanout_at. cbn. by rewrite Es.
    + cbn. rewrite C1, L1. set_solver.
    + cbn. by rewrite C2, L1.
    + cbn. by rewrite C2, L1.
Qed.

Lemma cleanup_zero n w : cleanup_scanouts (replicate n zero_scanout_info) w = (replicate n zero_scanout_info, w).
Proof.
  induction n as [|n IH]; [done|].
  change (cleanup_scanouts (replicate (S n) zero_scanout_info) w) with
    (let '(l, w) := cleanup_scanouts (replicate n zero_scanout_info) w in (zero_scanout_info :: l, w)).
  by rewrite IH.
Qed.

Lemma cleanup_one sc w : cleanup_scanouts (one_scanout sc) w =
  (one_scanout zero_scanout_info, snd (sdl_scanout_info_cleanup sc w)).
Proof.
  unfold one_scanout. pose proof (cleanup_zero 15 (snd (sdl_scanout_info_cleanup sc w))) as E.
  revert E. generalize (replicate 15 zero_scanout_info) as l. intros l E. cbn [cleanup_scanouts].
  destruct (sdl_scanout_info_cleanup sc w) as [z w'] eqn:Ec. cbn [snd] in *. rewrite E. by injection Ec as <- _.
Qed.

Lemma cleanup_scanout_spec sc w : (forall k, owns k (nn (handles k sc)) w) ->
  forall k, live k (snd (sdl_scanout_info_cleanup sc w)) = ∅.
Proof.
  intros O. unfold sdl_scanout_info_cleanup, sdl_plane_info_cleanup. cbn [snd].
  pose proof (O KTexture) as Ot. change (handles KTexture sc) with ([pi_texture (primary_plane sc)] ++ [pi_texture (cursor_plane sc)]) in Ot.
  rewrite nn_app in Ot. destruct (destroy_texture_spec _ _ _ Ot) as (O1 & K1 & _).
  rewrite <- (app_nil_r (nn _)) in O1. destruct (destroy_texture_spec _ _ _ O1) as (O2 & K2 & _).
  set (w2 := destroy_texture (pi_texture (cursor_plane sc)) (destroy_texture (pi_texture (primary_plane sc)) w)) in *.
  assert (Lr : live KRenderer w2 = list_to_set (nn [sdl_renderer sc])).
  { rewrite K2, K1 by done. apply (O KRenderer). }
  assert (Lw : live KWindow w2 = list_to_set (nn [sdl_window sc])).
  { rewrite K2, K1 by done. apply (O KWindow). }
  assert (Lt : live KTexture w2 = ∅) by apply O2. clearbody w2. clear - Lr Lw Lt.
  set (w3 := if sdl_renderer sc =? 0 then w2 else sdl_destroy_renderer (sdl_renderer sc) w2).
  assert (L3 : live KRenderer w3 = ∅ /\ live KWindow w3 = list_to_set (nn [sdl_window sc]) /\ live KTexture w3 = ∅).
  { unfold w3. destruct (Z.eqb_spec (sdl_renderer sc) 0) as [E|E]; [by rewrite E in Lr|].
    rewrite nn_1 in Lr by done. destruct (destroy_renderer_law (sdl_renderer sc) w2) as (D1 & -> & D3). set_solver. }
  clearbody w3. destruct L3 as (Lr3 & Lw3 & Lt3).
  destruct (Z.eqb_spec (sdl_window sc) 0) as [E|E]; [rewrite E in Lw3; by intros []|].
  rewrite nn_1 in Lw3 by done. destruct (destroy_window_law (sdl_window sc) w3) as (D1 & D2 & D3). intros []; set_solver.
Qed.

(** ** The life of the window *)

(** A round of the loop, or anything the emulator thread does to the bridge and to
    the flags and queues it shares with the window. *)
Inductive sdl_step s : window_st W -> Prop :=
  | step_round s' : window_round s = Some (Some s') -> sdl_step s s'
  | step_gpu_round s' : window_gpu_round s = Some (Some s') -> sdl_step s s'
  | step_emulator h d : bridge_ready d -> sdl_step s (s <| ws_host := h |> <| ws_disp := d |>).

Definition window_reach s : Prop := exists s0 headless width height s1,
  pristine s0 /\ window_init_sw headless width height s0 = Some s1 /\ rtc sdl_step s1 s.

Lemma window_reach_inv s : window_reach s -> window_inv s /\ bridge_ready (ws_disp s).
Proof.
  intros (s0 & hl & a & b & s1 & F & E & Hs). destruct (window_init_ok hl a b s0 F) as (s1' & E' & I).
  rewrite E in E'. injection E' as <-. clear F E. induction Hs as [|s1 s2 s3 St _ IH]; [done|]. apply IH.
  destruct I as [H R]. destruct St as [s2 E|s2 E|h d Rd].
  - pose proof (round_ok s1 H R) as P. by rewrite E in P.
  - pose proof (gpu_round_ok s1 H R) as P. by rewrite E in P.
  - split; [|done]. by destruct H.
Qed.

Lemma window_cleanup_ok s : window_inv s -> bridge_ready (ws_disp s) ->
  exists s', window_cleanup_sw s = Some s' /\ (forall k, live k (ws_sdl s') = ∅) /\
    sdl_scanouts s' = one_scanout zero_scanout_info /\ bridge_ready (ws_disp s') /\ backlog (ws_disp s') = 0%nat /\
    ws_sdl_initialized s' = false /\ mouse_grabbed (ws_host s') = false /\ headless_mode (ws_host s') = false /\
    should_exit (ws_host s') = false /\ sdl_input_window (ws_host s') = false /\ wake_write_fd (ws_host s') = -1.
Proof.
  intros H [R _]. unfold window_cleanup_sw.
  set (s1 := if ws_sdl_initialized s then _ else s).
  assert (H1 : window_inv s1 /\ ws_disp s1 = ws_disp s /\ ws_sdl_initialized s1 = ws_sdl_initialized s).
  { unfold s1. pose proof (grab_live false (ws_host s) (ws_sdl s)) as G. destruct (ws_sdl_initialized s) eqn:Ei; [|done].
    destruct (window_set_mouse_grab_sw false (ws_host s) (ws_sdl s)) as [h w].
    split; [|done]. exact (window_inv_live s h w (ws_sdl_initialized s) H G). }
  clearbody s1. destruct H1 as (H1 & D1 & B1). pose proof (inv_shape s1 H1) as S1.
  assert (C : forall k, live k (snd (sdl_scanout_info_cleanup (scanout_at s1 0) (ws_sdl s1))) = ∅).
  { apply cleanup_scanout_spec. intros k. rewrite <- (held_one _ _ k S1). apply H1. }
  cbn [sdl_scanouts ws_sdl ws_disp setter set_ws_host set_sdl_scanouts set_ws_sdl set_ws_disp].
  rewrite S1, cleanup_one. cbn [ws_disp]. rewrite D1.
  destruct (drain_all_spec DRAIN_ROUNDS _ R (backlog_bound _ R)) as (d' & -> & R' & B').
  eexists. split; [done|]. cbn -[one_scanout]. clear B1.
  destruct (ws_sdl_initialized s1) eqn:Ei; cbn -[one_scanout]; split_and!; try done; eauto using drained_ready, quit_none.
Qed.

(** C32: SDL objects neither leak nor are used after their destruction: whatever the
    window loop and the emulator have done since [window_init], the windows, renderers
    and textures alive in SDL are exactly the handles in the scanout array, each of
    them once; no round of the loop runs out of its bound on display commands; and
    [window_cleanup] then returns with no object alive, the array, the flags and the
    display bridge empty. *)
Theorem window_resources s : window_reach s ->
  (forall k, NoDup (held k s) /\ live k (ws_sdl s) = list_to_set (held k s)) /\
  window_round s <> Some None /\ window_gpu_round s <> Some None /\
  exists s', window_cleanup_sw s = Some s' /\ pristine s' /\ backlog (ws_disp s') = 0%nat /\
    ws_sdl_initialized s' = false /\ mouse_grabbed (ws_host s') = false /\ headless_mode (ws_host s') = false /\
    should_exit (ws_host s') = false /\ sdl_input_window (ws_host s') = false /\ wake_write_fd (ws_host s') = -1.
Proof.
  intros [H R]%window_reach_inv. split; [apply H|].
  split; [intros E; pose proof (round_ok s H R) as P; by rewrite E in P|].
  split; [intros E; pose proof (gpu_round_ok s H R) as P; by rewrite E in P|].
  destruct (window_cleanup_ok s H R) as (s' & E & L & A & R' & P). exists s'. split; [done|]. by split.
Qed.

(** C31: Draining the display bridge shows what the guest published: it terminates
    and leaves the bridge empty; each scanout with a window shows what the abstract
    screen shows after the commands in the bridge's order, where a refused command
    (unsupported format, cursor out of range, an SDL failure) changes at most the
    pixels of the texture it was to reuse and never marks the scanout; and the draw
    calls it makes present, on the renderer of each marked scanout, exactly the
    picture of that screen, the cursor over the primary plane, and leave what the
    other renderers present as it was. *)
Theorem window_drain_refines s : window_inv s -> bridge_ready (ws_disp s) ->
  exists s' xs dirty draws, window_drain_display_queue s = Some s' /\
    drain_cmds DRAIN_ROUNDS (ws_disp s) = Some (xs, ws_disp s') /\ backlog (ws_disp s') = 0%nat /\
    window_inv s' /\ evolves xs (replicate 16 false) s dirty s' /\ ws_draws s' = ws_draws s ++ draws /\
    forall i st, 0 <= i < VIRTIO_GPU_MAX_SCANOUTS -> visible (scanout_at s' i) = true ->
      snd (foldl (paint (ws_sdl s') (sdl_renderer (scanout_at s' i))) st draws)
      = if arr_get false dirty i then picture (screen_of (ws_sdl s') (scanout_at s' i)) else snd st.
Proof.
  intros H R. destruct (window_drain_spec s H R) as (s' & xs & dirty & A1 & A2 & A3 & A4 & A5 & A6 & A7 & A8).
  eexists s', xs, dirty, _. split_and!; try done. intros i st Hi V. by apply drain_paints.
Qed.
End Props.
