(* ===== verification/GpuDefs.v ===== *)
(** * The GPU device: protocol, state and access to guest memory

    The constants and structures of virtio-gpu.h, the device state with the globals
    of virtio-gpu.c and virtio-gpu-sw.c, and the helpers of virtio-gpu.c through
    which every command handler reaches guest memory. A request is a pointer into
    guest RAM that is read again at each use, so a response that overlaps its own
    request behaves as in the code. [malloc] and [calloc] may fail: the parameter
    [GpuHost]. *)

From stdpp Require Import base gmap list.
From Stdlib Require Import ZArith Lia Bool.
From S2P Require Import Prelude Isa Hart Machine Loops Device Virtio VgpuDisplay.
Open Scope Z_scope.

(* [virtio-gpu.h:16-16] *)
Definition VIRTIO_GPU_FLAG_FENCE := 1.

(* [virtio-gpu.h:40-40] *)
Definition VIRTIO_GPU_MAX_DESC := 3.

(* [virtio-gpu.c:19-28] *)
Definition VIRTIO_F_VERSION_1 := 1.
Definition VIRTIO_GPU_F_EDID := 2.
Definition VIRTIO_GPU_QUEUE_NUM_MAX := 1024.
Definition VIRTIO_GPU_CONTROLQ := 0.
Definition VIRTIO_GPU_CURSORQ := 1.

(* [device.h:15-16] *)
Definition SCREEN_WIDTH := 1024.
Definition SCREEN_HEIGHT := 768.

(* [virtio-gpu.h:265-312] virtio_gpu_ctrl_type *)
Definition VIRTIO_GPU_CMD_GET_DISPLAY_INFO := 0x0100.
Definition VIRTIO_GPU_CMD_RESOURCE_CREATE_2D := 0x0101.
Definition VIRTIO_GPU_CMD_RESOURCE_UNREF := 0x0102.
Definition VIRTIO_GPU_CMD_SET_SCANOUT := 0x0103.
Definition VIRTIO_GPU_CMD_RESOURCE_FLUSH := 0x0104.
Definition VIRTIO_GPU_CMD_TRANSFER_TO_HOST_2D := 0x0105.
Definition VIRTIO_GPU_CMD_RESOURCE_ATTACH_BACKING := 0x0106.
Definition VIRTIO_GPU_CMD_RESOURCE_DETACH_BACKING := 0x0107.
Definition VIRTIO_GPU_CMD_GET_CAPSET_INFO := 0x0108.
Definition VIRTIO_GPU_CMD_GET_CAPSET := 0x0109.
Definition VIRTIO_GPU_CMD_GET_EDID := 0x010a.
Definition VIRTIO_GPU_CMD_RESOURCE_ASSIGN_UUID := 0x010b.
Definition VIRTIO_GPU_CMD_RESOURCE_CREATE_BLOB := 0x010c.
Definition VIRTIO_GPU_CMD_SET_SCANOUT_BLOB := 0x010d.
Definition VIRTIO_GPU_CMD_CTX_CREATE := 0x0200.
Definition VIRTIO_GPU_CMD_RESOURCE_UNMAP_BLOB := 0x0209.
Definition VIRTIO_GPU_CMD_UPDATE_CURSOR := 0x0300.
Definition VIRTIO_GPU_CMD_MOVE_CURSOR := 0x0301.
Definition VIRTIO_GPU_RESP_OK_NODATA := 0x1100.
Definition VIRTIO_GPU_RESP_OK_DISPLAY_INFO := 0x1101.
Definition VIRTIO_GPU_RESP_OK_EDID := 0x1104.
Definition VIRTIO_GPU_RESP_ERR_UNSPEC := 0x1200.
Definition VIRTIO_GPU_RESP_ERR_OUT_OF_MEMORY := 0x1201.
Definition VIRTIO_GPU_RESP_ERR_INVALID_SCANOUT_ID := 0x1202.
Definition VIRTIO_GPU_RESP_ERR_INVALID_RESOURCE_ID := 0x1203.
Definition VIRTIO_GPU_RESP_ERR_INVALID_PARAMETER := 0x1205.

(** The eight supported pixel formats, by their numbers. *)
(* [virtio-gpu.h:314-323] virtio_gpu_formats *)
Definition virtio_gpu_formats : list Z := [1; 2; 3; 4; 67; 68; 121; 134].

(** [sizeof] of the packed structures and the offsets of their fields: every
    structure starts with the 24-byte header. *)
(* [virtio-gpu.h:66-73] virtio_gpu_ctrl_hdr *)
Definition sizeof_ctrl_hdr := 24.
Definition OFF_type := 0.
Definition OFF_flags := 4.
Definition OFF_fence_id := 8.

(* [virtio-gpu.h:82-89] virtio_gpu_resp_disp_info *)
Definition sizeof_display_one := 24.
Definition sizeof_resp_disp_info := 24 + VIRTIO_GPU_MAX_SCANOUTS * sizeof_display_one.

(* [virtio-gpu.h:145-156] virtio_gpu_cmd_get_edid, virtio_gpu_resp_edid *)
Definition sizeof_cmd_get_edid := 32.
Definition sizeof_resp_edid := 24 + 8 + 1024.

(* [virtio-gpu.h:46-57] virtio_gpu_scanout_info, virtio_gpu_data_t *)
Record virtio_gpu_scanout_info := mk_scanout {
  so_width : Z; so_height : Z; so_enabled : Z; primary_resource_id : Z; cursor_resource_id : Z;
  src_x : Z; src_y : Z; src_w : Z; src_h : Z }.
Record virtio_gpu_data_t := mk_gpu_data { scanouts : list virtio_gpu_scanout_info; num_scanouts : Z }.

(** [struct iovec] of a backing entry; the base is an offset into guest RAM. *)
Record backing_iov := mk_biov { biov_base : option Z; biov_len : Z }.

(** A resource: [image] are the bytes of the allocation, [iovec] is [None] for a
    null pointer. Resources enter the list with an image, so the tests for a
    missing image in the code cannot fire and have no counterpart. *)
(* [virtio-gpu-sw.c:31-42] vgpu_sw_resource_2d *)
Record vgpu_sw_resource_2d := mk_res {
  resource_id : Z; r_format : Z; r_width : Z; r_height : Z; r_stride : Z; r_bits_per_pixel : Z;
  image : list Z; image_size : Z; page_cnt : Z; r_iovec : option (list backing_iov) }.

(** The register file, [virtio_gpu_data], the globals of the software back end, the
    display bridge, the host; [host_oob] records a copy outside a host allocation,
    [gpu_exit] the exit of the process. *)
(* [virtio-gpu.c:63-63] virtio_gpu_data *)
Record gpu_dev (E : Type) := mk_gpudev {
  vgpu : virtio_state; gpu_data : virtio_gpu_data_t; res_list : list vgpu_sw_resource_2d; hostmem : Z;
  disp : vgpu_display; gpu_env : E; host_oob : bool; gpu_initialized : bool; gpu_exit : bool }.
Arguments mk_gpudev {E}. Arguments vgpu {E}. Arguments gpu_data {E}. Arguments res_list {E}.
Arguments hostmem {E}. Arguments disp {E}. Arguments gpu_env {E}. Arguments host_oob {E}.
Arguments gpu_initialized {E}. Arguments gpu_exit {E}.

#[export] Instance eta_scanout : Eta virtio_gpu_scanout_info := fun r =>
  mk_scanout (so_width r) (so_height r) (so_enabled r) (primary_resource_id r) (cursor_resource_id r)
    (src_x r) (src_y r) (src_w r) (src_h r).
#[export] Instance set_primary_resource_id : Setter primary_resource_id := ltac:(solve_setter).
#[export] Instance set_cursor_resource_id : Setter cursor_resource_id := ltac:(solve_setter).
#[export] Instance set_src_x : Setter src_x := ltac:(solve_setter).
#[export] Instance set_src_y : Setter src_y := ltac:(solve_setter).
#[export] Instance set_src_w : Setter src_w := ltac:(solve_setter).
#[export] Instance set_src_h : Setter src_h := ltac:(solve_setter).
#[export] Instance eta_gpu_data : Eta virtio_gpu_data_t := fun r => mk_gpu_data (scanouts r) (num_scanouts r).
#[export] Instance set_scanouts : Setter scanouts := ltac:(solve_setter).
#[export] Instance set_num_scanouts : Setter num_scanouts := ltac:(solve_setter).
#[export] Instance eta_res : Eta vgpu_sw_resource_2d := fun r =>
  mk_res (resource_id r) (r_format r) (r_width r) (r_height r) (r_stride r) (r_bits_per_pixel r)
    (image r) (image_size r) (page_cnt r) (r_iovec r).
#[export] Instance set_image : Setter image := ltac:(solve_setter).
#[export] Instance set_page_cnt : Setter page_cnt := ltac:(solve_setter).
#[export] Instance set_r_iovec : Setter r_iovec := ltac:(solve_setter).
#[export] Instance eta_gpudev {E} : Eta (gpu_dev E) := fun r =>
  mk_gpudev (vgpu r) (gpu_data r) (res_list r) (hostmem r) (disp r) (gpu_env r) (host_oob r)
    (gpu_initialized r) (gpu_exit r).
#[export] Instance set_vgpu {E} : Setter (@vgpu E) := ltac:(solve_setter).
#[export] Instance set_gpu_data {E} : Setter (@gpu_data E) := ltac:(solve_setter).
#[export] Instance set_res_list {E} : Setter (@res_list E) := ltac:(solve_setter).
#[export] Instance set_hostmem {E} : Setter (@hostmem E) := ltac:(solve_setter).
#[export] Instance set_disp {E} : Setter (@disp E) := ltac:(solve_setter).
#[export] Instance set_gpu_env {E} : Setter (@gpu_env E) := ltac:(solve_setter).
#[export] Instance set_host_oob {E} : Setter (@host_oob E) := ltac:(solve_setter).
#[export] Instance set_gpu_initialized {E} : Setter (@gpu_initialized E) := ltac:(solve_setter).
#[export] Instance set_gpu_exit {E} : Setter (@gpu_exit E) := ltac:(solve_setter).

Definition zero_scanout : virtio_gpu_scanout_info := mk_scanout 0 0 0 0 0 0 0 0 0.

(** The host's allocator: whether an allocation of so many bytes succeeds. *)
Class GpuHost (E : Type) := { gpu_malloc : Z -> E -> bool * E }.

Section Defs.
Context {E : Type} `{HostE : GpuHost E}.
Abbreviation M := (machine (gpu_dev E)).
Implicit Types s : M.

Definition on_gdev (f : gpu_dev E -> gpu_dev E) s : M := s <| dev := f (dev s) |>.
Definition on_vgpu (f : virtio_state -> virtio_state) s : M := on_gdev (fun d => d <| vgpu := f (vgpu d) |>) s.
Definition on_disp (f : vgpu_display -> vgpu_display) s : M := on_gdev (fun d => d <| disp := f (disp d) |>) s.
Definition g_malloc (size : Z) s : bool * M :=
  let '(ok, e) := gpu_malloc size (gpu_env (dev s)) in (ok, on_gdev (fun d => d <| gpu_env := e |>) s).

(** [PRIV(vgpu)->scanouts[i]] *)
Definition scanout_at s (i : Z) : virtio_gpu_scanout_info := arr_get zero_scanout (scanouts (gpu_data (dev s))) i.
Definition upd_scanout (i : Z) (f : virtio_gpu_scanout_info -> virtio_gpu_scanout_info) s : M :=
  on_gdev (fun d => d <| gpu_data := (gpu_data d) <| scanouts :=
    arr_set (scanouts (gpu_data d)) i (f (scanout_at s i)) |> |>) s.
Definition g_num_scanouts s : Z := num_scanouts (gpu_data (dev s)).

(* [virtio-gpu.c:65-77] virtio_gpu_mem_guest_to_host *)
Definition virtio_gpu_mem_guest_to_host (addr size : Z) : option Z :=
  if (RAM_SIZE <=? addr) || (RAM_SIZE <? size) || (RAM_SIZE <? u32 (addr + size)) then None else Some addr.

(* [virtio-gpu.c:79-84] virtio_gpu_set_fail *)
Definition virtio_gpu_set_fail s : M := on_vgpu virtio_set_fail s.

(** The failure path of the handlers: mark the device, [*plen = 0]. *)
Definition gpu_fail s : Z * M := (0, virtio_gpu_set_fail s).

(** The handlers read fields of the structure only, so the access is noted here. *)
(* [virtio-gpu.c:86-96] virtio_gpu_get_request *)
Definition virtio_gpu_get_request (vq_desc : list virtq_desc) (request_size : Z) s : option Z * M :=
  let d0 := desc_at vq_desc 0 in
  if nz (Z.land (d_flags d0) VIRTIO_DESC_F_WRITE) || (d_len d0 <? request_size) || (2 ^ 32 - 1 <? request_size)
  then (None, s)
  else
    match virtio_gpu_mem_guest_to_host (u32 (d_addr d0)) (u32 request_size) with
    | None => (None, s)
    | Some off => (Some off, touch off request_size s)
    end.

(** The loop [for (int i = 1; i < VIRTIO_GPU_MAX_DESC; i++)] over the rest of the
    chain. *)
(* [virtio-gpu.c:98-121] virtio_gpu_get_response_desc *)
Fixpoint response_from (descs : list virtq_desc) (response_size : Z) : option virtq_desc :=
  match descs with
  | [] => None
  | d :: descs =>
    if negb (nz (Z.land (d_flags d) VIRTIO_DESC_F_WRITE)) then response_from descs response_size
    else if d_len d <? response_size then None else Some d
  end.
Definition virtio_gpu_get_response_desc (vq_desc : list virtq_desc) (response_size : Z) : option virtq_desc :=
  if response_size <=? 2 ^ 32 - 1 then response_from (drop 1 vq_desc) response_size else None.

(** [if (request->flags & VIRTIO_GPU_FLAG_FENCE)]: echo the fence. *)
(* [virtio-gpu.c:140-143] virtio_gpu_write_ctrl_response *)
Definition echo_fence (request response : Z) s : M :=
  if nz (Z.land (fld32 s (request + OFF_flags)) VIRTIO_GPU_FLAG_FENCE) then
    let s := put32 (response + OFF_flags) VIRTIO_GPU_FLAG_FENCE s in
    put64 (response + OFF_fence_id) (fld64 s (request + OFF_fence_id)) s
  else s.

(* [virtio-gpu.c:123-146] virtio_gpu_write_ctrl_response *)
Definition virtio_gpu_write_ctrl_response (request : Z) (response_desc : virtq_desc) (type : Z) s : Z * M :=
  if d_len response_desc <? sizeof_ctrl_hdr then (0, s)
  else
    match virtio_gpu_mem_guest_to_host (u32 (d_addr response_desc)) sizeof_ctrl_hdr with
    | None => (0, s)
    | Some response =>
      let s := g_memset0 response sizeof_ctrl_hdr s in
      let s := put32 (response + OFF_type) type s in
      (sizeof_ctrl_hdr, echo_fence request response s)
    end.

(** [*plen = virtio_gpu_write_ctrl_response(...); if ( ! *plen) virtio_gpu_set_fail(vgpu);] *)
(* [virtio-gpu-sw.c:403-407] vgpu_sw_resource_create_2d_handler *)
Definition respond (request : Z) (response_desc : virtq_desc) (type : Z) s : Z * M :=
  let '(plen, s) := virtio_gpu_write_ctrl_response request response_desc type s in
  (plen, if plen =? 0 then virtio_gpu_set_fail s else s).

(** The prologue of a handler: the response descriptor and the request. *)
(* [virtio-gpu-sw.c:376-390] vgpu_sw_resource_create_2d_handler *)
Definition with_response (vq_desc : list virtq_desc) (request_size : Z)
    (body : Z -> virtq_desc -> M -> Z * M) s : Z * M :=
  match virtio_gpu_get_response_desc vq_desc sizeof_ctrl_hdr with
  | None => gpu_fail s
  | Some response_desc =>
    match virtio_gpu_get_request vq_desc request_size s with
    | (None, s) => gpu_fail s
    | (Some request, s) => body request response_desc s
    end
  end.

(** ** Commands the device answers itself *)

(** [pmodes[i]] *)
(* [virtio-gpu.c:192-197] virtio_gpu_get_display_info_handler *)
Fixpoint put_pmodes (n : nat) (i response : Z) s : M :=
  match n with
  | O => s
  | S n =>
    let one := response + 24 + i * sizeof_display_one in
    let s := put32 (one + 8) (so_width (scanout_at s i)) s in
    let s := put32 (one + 12) (so_height (scanout_at s i)) s in
    let s := put32 (one + 16) (so_enabled (scanout_at s i)) s in
    put_pmodes n (i + 1) response s
  end.

(* [virtio-gpu.c:149-204] virtio_gpu_get_display_info_handler *)
Definition virtio_gpu_get_display_info_handler (vq_desc : list virtq_desc) s : Z * M :=
  match virtio_gpu_get_request vq_desc sizeof_ctrl_hdr s with
  | (None, s) => gpu_fail s
  | (Some request, s) =>
    match virtio_gpu_get_response_desc vq_desc sizeof_resp_disp_info with
    | None => gpu_fail s
    | Some response_desc =>
      match virtio_gpu_mem_guest_to_host (u32 (d_addr response_desc)) sizeof_resp_disp_info with
      | None => gpu_fail s
      | Some response =>
        let s := g_memset0 response sizeof_resp_disp_info s in
        let s := put32 (response + OFF_type) VIRTIO_GPU_RESP_OK_DISPLAY_INFO s in
        let s := put_pmodes (Z.to_nat (s32 (g_num_scanouts s))) 0 response s in
        (sizeof_resp_disp_info, echo_fence request response s)
      end
    end
  end.

(* [virtio-gpu.c:586-606] virtio_gpu_cmd_undefined_handler *)
Definition virtio_gpu_cmd_undefined_handler (vq_desc : list virtq_desc) s : Z * M :=
  match virtio_gpu_get_request vq_desc sizeof_ctrl_hdr s with
  | (None, s) => gpu_fail s
  | (Some _, s) => gpu_fail s
  end.
End Defs.
