(* ===== verification/GpuEdid.v ===== *)
(** * The display identification the GPU generates (EDID, virtio-gpu.c)

    The 128-byte base block as a list of bytes, written field by field as the code
    writes it, and what a reader of the block gets back. *)

From stdpp Require Import base list.
From Stdlib Require Import ZArith Lia Bool.
From S2P Require Import Prelude Isa Hart Machine Loops Device Virtio VirtioProps DmaProps VgpuDisplay GpuDefs.
Open Scope Z_scope.

(* [virtio-gpu.c:31-40] *)
Definition EDID_BLOCK_SIZE := 128.
Definition DMT_BASE_WIDTH := 1024.
Definition DMT_BASE_HEIGHT := 768.
Definition DMT_BASE_PIXEL_CLOCK_10KHZ := 6500.
Definition DMT_BASE_H_BLANK := 320.
Definition DMT_BASE_H_FRONT := 24.
Definition DMT_BASE_H_SYNC := 136.
Definition DMT_BASE_V_BLANK := 38.
Definition DMT_BASE_V_FRONT := 3.
Definition DMT_BASE_V_SYNC := 6.

(* [virtio-gpu.c:41-45] DMT_BOUND_FIELD *)
Definition DMT_BOUND_FIELD (field max : Z) : Z := if max <? field then max else field.

(** Wrap-around at 64 bits. *)
Definition wrap64 (x : Z) : Z := x mod 2 ^ 64.

(* [virtio-gpu.c:206-217] virtio_gpu_generate_edid_checksum *)
Definition virtio_gpu_generate_edid_checksum (edid : list Z) : Z :=
  u8 (0x100 - foldl (fun sum b => u8 (sum + b)) 0 edid).

(* [virtio-gpu.c:219-233] virtio_gpu_edid_pixels_to_mm *)
Definition virtio_gpu_edid_pixels_to_mm (pixels : Z) : Z :=
  let mm := u32 (wrap64 (pixels * 254 + 500) / 1000) in
  let mm := if mm =? 0 then 1 else mm in
  let mm := if 4095 <? mm then 4095 else mm in
  u16 mm.

(* [virtio-gpu.c:235-246] virtio_gpu_edid_mm_to_cm *)
Definition virtio_gpu_edid_mm_to_cm (mm : Z) : Z :=
  let cm := u32 (mm + 5) / 10 in
  let cm := if cm =? 0 then 1 else cm in
  let cm := if 255 <? cm then 255 else cm in
  u8 cm.

(** Stores into the block; a store keeps the low eight bits. *)
Definition put_byte (i v : Z) (edid : list Z) : list Z := arr_set edid i (u8 v).
Fixpoint put_bytes (i : Z) (vs : list Z) (edid : list Z) : list Z :=
  match vs with
  | [] => edid
  | v :: vs => put_bytes (i + 1) vs (put_byte i v edid)
  end.

(* [virtio-gpu.c:248-275] virtio_gpu_edid_set_srgb_chromaticity *)
Definition virtio_gpu_edid_set_srgb_chromaticity (edid : list Z) : list Z :=
  let red_x := 655 in let red_y := 338 in
  let green_x := 307 in let green_y := 614 in
  let blue_x := 154 in let blue_y := 61 in
  let white_x := 320 in let white_y := 337 in
  let low2 v := Z.land v 3 in
  let edid := put_byte 25 (Z.lor (Z.lor (Z.lor (Z.shiftl (low2 red_x) 6) (Z.shiftl (low2 red_y) 4))
                (Z.shiftl (low2 green_x) 2)) (low2 green_y)) edid in
  let edid := put_byte 26 (Z.lor (Z.lor (Z.lor (Z.shiftl (low2 blue_x) 6) (Z.shiftl (low2 blue_y) 4))
                (Z.shiftl (low2 white_x) 2)) (low2 white_y)) edid in
  put_bytes 27 [Z.shiftr red_x 2; Z.shiftr red_y 2; Z.shiftr green_x 2; Z.shiftr green_y 2;
                Z.shiftr blue_x 2; Z.shiftr blue_y 2; Z.shiftr white_x 2; Z.shiftr white_y 2] edid.

(** Blanking, front porch and sync pulse scaled from the base timing. *)
(* [virtio-gpu.c:311-326] virtio_gpu_edid_set_detailed_timing *)
Definition scaled_timing (size blank0 front0 sync0 base : Z) : Z * Z * Z :=
  let scale v := u32 (wrap64 (size * v + base / 2) / base) in
  let blank := scale blank0 in
  let front := scale front0 in
  let sync := scale sync0 in
  let front := if front =? 0 then 1 else front in
  let sync := if sync =? 0 then 1 else sync in
  let blank := if blank <=? u32 (front + sync) then u32 (u32 (front + sync) + 1) else blank in
  (blank, front, sync).

(** The pixel clock, then blanking, front porch and sync pulse of each axis. *)
(* [virtio-gpu.c:292-353] virtio_gpu_edid_set_detailed_timing *)
Definition timing_params (width height : Z) : Z * Z * Z * Z * Z * Z * Z :=
  if (width =? DMT_BASE_WIDTH) && (height =? DMT_BASE_HEIGHT) then
    (DMT_BASE_PIXEL_CLOCK_10KHZ, DMT_BASE_H_BLANK, DMT_BASE_H_FRONT, DMT_BASE_H_SYNC,
     DMT_BASE_V_BLANK, DMT_BASE_V_FRONT, DMT_BASE_V_SYNC)
  else
    let '(h_blank, h_front, h_sync) :=
      scaled_timing width DMT_BASE_H_BLANK DMT_BASE_H_FRONT DMT_BASE_H_SYNC DMT_BASE_WIDTH in
    let '(v_blank, v_front, v_sync) :=
      scaled_timing height DMT_BASE_V_BLANK DMT_BASE_V_FRONT DMT_BASE_V_SYNC DMT_BASE_HEIGHT in
    let clock := u32 (wrap64 (wrap64 (60 * (width + h_blank)) * (height + v_blank) + 5000) / 10000) in
    ((if 0xffff <? clock then 0xffff else clock), h_blank, h_front, h_sync, v_blank, v_front, v_sync).

(* [virtio-gpu.c:277-410] virtio_gpu_edid_set_detailed_timing *)
Definition detailed_timing (width height width_mm height_mm : Z) : list Z :=
  let '(pixel_clock_10khz, h_blank, h_front, h_sync, v_blank, v_front, v_sync) := timing_params width height in
  let width := DMT_BOUND_FIELD width 4095 in
  let height := DMT_BOUND_FIELD height 4095 in
  let h_blank := DMT_BOUND_FIELD h_blank 4095 in
  let h_front := DMT_BOUND_FIELD h_front 1023 in
  let h_sync := DMT_BOUND_FIELD h_sync 1023 in
  let v_blank := DMT_BOUND_FIELD v_blank 4095 in
  let v_front := DMT_BOUND_FIELD v_front 63 in
  let v_sync := DMT_BOUND_FIELD v_sync 63 in
  [Z.land pixel_clock_10khz 0xff;
   Z.land (Z.shiftr pixel_clock_10khz 8) 0xff;
   Z.land width 0xff;
   Z.land h_blank 0xff;
   Z.lor (Z.shiftl (Z.shiftr width 8) 4) (Z.shiftr h_blank 8);
   Z.land height 0xff;
   Z.land v_blank 0xff;
   Z.lor (Z.shiftl (Z.shiftr height 8) 4) (Z.shiftr v_blank 8);
   Z.land h_front 0xff;
   Z.land h_sync 0xff;
   Z.lor (Z.shiftl (Z.land v_front 0xf) 4) (Z.land v_sync 0xf);
   Z.lor (Z.lor (Z.lor (Z.shiftl (Z.shiftr h_front 8) 6) (Z.shiftl (Z.shiftr h_sync 8) 4))
      (Z.shiftl (Z.shiftr v_front 4) 2)) (Z.shiftr v_sync 4);
   Z.land width_mm 0xff;
   Z.land height_mm 0xff;
   Z.lor (Z.shiftl (Z.shiftr width_mm 8) 4) (Z.shiftr height_mm 8);
   0; 0; 0x18].

(** The manufacturer's three letters, five bits each. *)
(* [virtio-gpu.c:446-448] virtio_gpu_generate_edid *)
Definition edid_vendor_id (a b c : Z) : Z :=
  Z.lor (Z.lor (Z.shiftl (Z.land (a - 64) 31) 10) (Z.shiftl (Z.land (b - 64) 31) 5)) (Z.land (c - 64) 31).

(** The block up to the standard timings. *)
(* [virtio-gpu.c:428-508] virtio_gpu_generate_edid *)
Definition edid_base (width height width_mm height_mm : Z) : list Z :=
  let edid := replicate (Z.to_nat EDID_BLOCK_SIZE) 0 in
  let edid := put_bytes 0 [0x00; 0xff; 0xff; 0xff; 0xff; 0xff; 0xff; 0x00] edid in
  let vendor_id := edid_vendor_id 84 87 78 in
  let edid := put_byte 8 (Z.shiftr vendor_id 8) edid in
  let edid := put_byte 9 (Z.land vendor_id 0xff) edid in
  let edid := put_bytes 10 [0; 0; 0; 0; 0; 0] edid in
  let edid := put_byte 16 0 edid in
  let edid := put_byte 17 (2023 - 1990) edid in
  let edid := put_byte 18 1 edid in
  let edid := put_byte 19 4 edid in
  let edid := put_byte 20 (Z.lor (Z.lor (Z.shiftl 1 7) (Z.shiftl 2 4)) 5) edid in
  let edid := put_byte 21 (virtio_gpu_edid_mm_to_cm width_mm) edid in
  let edid := put_byte 22 (virtio_gpu_edid_mm_to_cm height_mm) edid in
  let edid := put_byte 23 120 edid in
  let edid := put_byte 24 6 edid in
  let edid := virtio_gpu_edid_set_srgb_chromaticity edid in
  let edid := put_byte 35 0 edid in
  let edid := put_byte 36 (if (width =? DMT_BASE_WIDTH) && (height =? DMT_BASE_HEIGHT) then 8 else 0) edid in
  let edid := put_byte 37 0 edid in
  put_bytes 38 (replicate 16 1) edid.

(* [virtio-gpu.c:415-528] virtio_gpu_generate_edid *)
Definition virtio_gpu_generate_edid (width height : Z) : list Z :=
  let width := if width =? 0 then SCREEN_WIDTH else width in
  let height := if height =? 0 then SCREEN_HEIGHT else height in
  let width_mm := virtio_gpu_edid_pixels_to_mm width in
  let height_mm := virtio_gpu_edid_pixels_to_mm height in
  let edid := edid_base width height width_mm height_mm in
  let edid := put_bytes 54 (detailed_timing width height width_mm height_mm) edid in
  let edid := foldl (fun edid desc => put_byte (desc + 3) 0x10 edid) edid [72; 90; 108] in
  let edid := put_byte 126 0 edid in
  put_byte (EDID_BLOCK_SIZE - 1) (virtio_gpu_generate_edid_checksum (take 127 edid)) edid.

(** ** Reading the block *)

Definition edid_byte (b : list Z) (i : Z) : Z := arr_get 0 b i.

(** The fields of the preferred timing, EDID 1.4 table 3.21. *)
Definition edid_h_active b := edid_byte b 56 + 256 * (edid_byte b 58 / 16).
Definition edid_h_blank b := edid_byte b 57 + 256 * (edid_byte b 58 mod 16).
Definition edid_v_active b := edid_byte b 59 + 256 * (edid_byte b 61 / 16).
Definition edid_v_blank b := edid_byte b 60 + 256 * (edid_byte b 61 mod 16).
Definition edid_h_front b := edid_byte b 62 + 256 * (edid_byte b 65 / 64).
Definition edid_h_sync b := edid_byte b 63 + 256 * (edid_byte b 65 / 16 mod 4).
Definition edid_v_front b := edid_byte b 64 / 16 + 16 * (edid_byte b 65 / 4 mod 4).
Definition edid_v_sync b := edid_byte b 64 mod 16 + 16 * (edid_byte b 65 mod 4).

Fixpoint sumZ (l : list Z) : Z := match l with [] => 0 | x :: l => x + sumZ l end.

Lemma put_byte_length i v b : length (put_byte i v b) = length b.
Proof. apply length_arr_set. Qed.
Lemma put_bytes_length vs : forall i b, length (put_bytes i vs b) = length b.
Proof. induction vs as [|v vs IH]; intros i b; [done|]. cbn. rewrite IH. apply put_byte_length. Qed.

Lemma get_put_eq i v b : 0 <= i < Z.of_nat (length b) -> edid_byte (put_byte i v b) i = u8 v.
Proof. apply arr_get_set_eq. Qed.
Lemma get_put_ne i j v b : 0 <= i -> 0 <= j -> i <> j -> edid_byte (put_byte i v b) j = edid_byte b j.
Proof. apply arr_get_set_ne. Qed.

Lemma u8_byte x : is_byte (u8 x).
Proof. unfold is_byte, u8. apply Z.mod_pos_bound. lia. Qed.

Lemma bytes_put i v b : Forall is_byte b -> Forall is_byte (put_byte i v b).
Proof. intros H. apply Forall_insert; [done|apply u8_byte]. Qed.
Lemma bytes_puts vs : forall i b, Forall is_byte b -> Forall is_byte (put_bytes i vs b).
Proof. induction vs as [|v vs IH]; intros i b H; [done|]. cbn. by apply IH, bytes_put. Qed.
#[export] Hint Resolve bytes_put bytes_puts : semu.

(** The checksum closes the sum. *)
Lemma fold_sum l : forall a, foldl (fun sum b => u8 (sum + b)) (u8 a) l = u8 (a + sumZ l).
Proof.
  induction l as [|b l IH]; intros a; cbn; [by rewrite Z.add_0_r|].
  replace (u8 (u8 a + b)) with (u8 (a + b)) by (unfold u8; by rewrite Zplus_mod_idemp_l).
  rewrite IH. f_equal. lia.
Qed.

Lemma sumZ_app l1 l2 : sumZ (l1 ++ l2) = sumZ l1 + sumZ l2.
Proof. induction l1 as [|x l1 IH]; cbn; [done|]. rewrite IH. lia. Qed.

Lemma checksum_closes b : length b = 128%nat ->
  sumZ (put_byte 127 (virtio_gpu_generate_edid_checksum (take 127 b)) b) mod 256 = 0.
Proof.
  intros L. unfold put_byte, arr_set. change (Z.to_nat 127) with 127%nat.
  rewrite insert_take_drop by lia. rewrite drop_ge by lia. rewrite sumZ_app. cbn [sumZ].
  unfold virtio_gpu_generate_edid_checksum. change 0 with (u8 0) at 1. rewrite fold_sum, Z.add_0_l.
  generalize (sumZ (take 127 b)). intros x. unfold u8. change (2 ^ 8) with 256.
  rewrite Z.add_0_r, Z.mod_mod, Zplus_mod_idemp_r by lia.
  replace (x + (256 - x mod 256)) with (x - x mod 256 + 1 * 256) by lia. rewrite Z.mod_add by lia.
  rewrite Zminus_mod_idemp_r. by rewrite Z.sub_diag.
Qed.

(** Two fields packed into one byte. *)
Ltac low_bits := rewrite ?(Z.land_ones _ 8), ?(Z.land_ones _ 4), ?Z.shiftr_div_pow2 by lia.

Lemma pack12 x y : 0 <= x < 4096 -> 0 <= y < 4096 ->
  let hi := Z.lor (Z.shiftl (Z.shiftr x 8) 4) (Z.shiftr y 8) in
  u8 (Z.land x 0xff) + 256 * (u8 hi / 16) = x /\ u8 (Z.land y 0xff) + 256 * (u8 hi mod 16) = y.
Proof.
  intros Hx Hy. cbv zeta. change 0xff with (Z.ones 8). low_bits.
  rewrite lor_shiftl_low by (change (2 ^ 4) with 16; change (2 ^ 8) with 256; Z.div_mod_to_equations; lia).
  unfold u8. change (2 ^ 8) with 256. change (2 ^ 4) with 16. Z.div_mod_to_equations. lia.
Qed.

Lemma pack_sync hf hs vf vs : 0 <= hf < 1024 -> 0 <= hs < 1024 -> 0 <= vf < 64 -> 0 <= vs < 64 ->
  let lo := u8 (Z.lor (Z.shiftl (Z.land vf 0xf) 4) (Z.land vs 0xf)) in
  let hi := u8 (Z.lor (Z.lor (Z.lor (Z.shiftl (Z.shiftr hf 8) 6) (Z.shiftl (Z.shiftr hs 8) 4))
      (Z.shiftl (Z.shiftr vf 4) 2)) (Z.shiftr vs 4)) in
  u8 (Z.land hf 0xff) + 256 * (hi / 64) = hf /\ u8 (Z.land hs 0xff) + 256 * (hi / 16 mod 4) = hs /\
  lo / 16 + 16 * (hi / 4 mod 4) = vf /\ lo mod 16 + 16 * (hi mod 4) = vs.
Proof.
  intros H1 H2 H3 H4. cbv zeta. change 0xff with (Z.ones 8). change 0xf with (Z.ones 4). low_bits.
  change (2 ^ 8) with 256. change (2 ^ 4) with 16.
  assert (R : 0 <= hf / 256 < 4 /\ 0 <= hs / 256 < 4 /\ 0 <= vf / 16 < 4 /\ 0 <= vs / 16 < 4)
    by (Z.div_mod_to_equations; lia).
  rewrite <- Z.lor_assoc, <- Z.lor_assoc. rewrite (lor_shiftl_low (vf / 16) 2) by (change (2 ^ 2) with 4; lia).
  change (2 ^ 2) with 4.
  rewrite (lor_shiftl_low (hs / 256) 4) by (change (2 ^ 4) with 16; lia). change (2 ^ 4) with 16.
  rewrite (lor_shiftl_low (hf / 256) 6) by (change (2 ^ 6) with 64; lia). change (2 ^ 6) with 64.
  rewrite (lor_shiftl_low (vf mod 16) 4) by (change (2 ^ 4) with 16; Z.div_mod_to_equations; lia).
  change (2 ^ 4) with 16. unfold u8. change (2 ^ 8) with 256. Z.div_mod_to_equations. lia.
Qed.

(** Scaled porches lie in the blanking interval. *)
Lemma bound_spec f m : DMT_BOUND_FIELD f m = Z.min f m.
Proof. unfold DMT_BOUND_FIELD. destruct (Z.ltb_spec m f); lia. Qed.

Ltac quotient := match goal with |- context [u32 (?x / ?y)] =>
    let A := fresh "A" in set (A := x / y); assert (0 <= A <= 2 ^ 31 - 2) by (subst A; Z.div_mod_to_equations; lia);
    clearbody A; rewrite (u32_id A) by (unfold is_u32; lia) end.
Ltac scaled := intros Hs; unfold is_u32 in Hs; unfold scaled_timing, wrap64;
  rewrite !(Z.mod_small _ (2 ^ 64)) by (Z.div_mod_to_equations; lia); do 3 quotient;
  repeat match goal with |- context [?a =? 0] => destruct (Z.eqb_spec a 0) end;
  repeat match goal with |- context [u32 ?a] => rewrite (u32_id a) by (unfold is_u32; lia) end;
  match goal with |- context [?a <=? ?b] => destruct (Z.leb_spec a b) end;
  intros [= <- <- <-]; lia.

Lemma h_scaled_ok size blank front sync : is_u32 size ->
  scaled_timing size DMT_BASE_H_BLANK DMT_BASE_H_FRONT DMT_BASE_H_SYNC DMT_BASE_WIDTH = (blank, front, sync) ->
  0 <= front /\ 0 <= sync /\ front + sync < blank.
Proof. unfold DMT_BASE_H_BLANK, DMT_BASE_H_FRONT, DMT_BASE_H_SYNC, DMT_BASE_WIDTH. scaled. Qed.

Lemma v_scaled_ok size blank front sync : is_u32 size ->
  scaled_timing size DMT_BASE_V_BLANK DMT_BASE_V_FRONT DMT_BASE_V_SYNC DMT_BASE_HEIGHT = (blank, front, sync) ->
  0 <= front /\ 0 <= sync /\ front + sync < blank.
Proof. unfold DMT_BASE_V_BLANK, DMT_BASE_V_FRONT, DMT_BASE_V_SYNC, DMT_BASE_HEIGHT. scaled. Qed.

(** The effective size and the timing descriptor, read back. *)
Definition eff (size default_size : Z) : Z := if size =? 0 then default_size else size.

Lemma timing_fields w h wm hm : is_u32 w -> is_u32 h ->
  let t := detailed_timing w h wm hm in
  let at_ i := u8 (arr_get 0 t i) in
  length t = 18%nat /\
  at_ 2 + 256 * (at_ 4 / 16) = Z.min w 4095 /\ at_ 5 + 256 * (at_ 7 / 16) = Z.min h 4095 /\
  at_ 8 + 256 * (at_ 11 / 64) + (at_ 9 + 256 * (at_ 11 / 16 mod 4)) < at_ 3 + 256 * (at_ 4 mod 16) /\
  at_ 10 / 16 + 16 * (at_ 11 / 4 mod 4) + (at_ 10 mod 16 + 16 * (at_ 11 mod 4)) < at_ 6 + 256 * (at_ 7 mod 16).
Proof.
  intros Hw Hh. cbv zeta. unfold detailed_timing.
  assert (X : exists clk hb hf hs vb vf vs, (0 <= hf /\ 0 <= hs /\ hf + hs < hb) /\ (0 <= vf /\ 0 <= vs /\ vf + vs < vb) /\
    timing_params w h = (clk, hb, hf, hs, vb, vf, vs)).
  { unfold timing_params. case_match.
    - do 7 eexists. split; [|split; [|reflexivity]];
        unfold DMT_BASE_H_FRONT, DMT_BASE_H_SYNC, DMT_BASE_H_BLANK, DMT_BASE_V_FRONT, DMT_BASE_V_SYNC, DMT_BASE_V_BLANK; lia.
    - destruct (scaled_timing w _ _ _ _) as [[hb hf] hs] eqn:E1. destruct (scaled_timing h _ _ _ _) as [[vb vf] vs] eqn:E2.
      apply h_scaled_ok in E1; [|done]. apply v_scaled_ok in E2; [|done].
      do 7 eexists. split; [exact E1|split; [exact E2|reflexivity]]. }
  destruct X as (clk & hb & hf & hs & vb & vf & vs & Hhor & Hver & ->). rewrite !bound_spec.
  unfold is_u32 in *.
  destruct (pack12 (Z.min w 4095) (Z.min hb 4095)) as [P1 P2]; [lia|lia|].
  destruct (pack12 (Z.min h 4095) (Z.min vb 4095)) as [P3 P4]; [lia|lia|].
  destruct (pack_sync (Z.min hf 1023) (Z.min hs 1023) (Z.min vf 63) (Z.min vs 63)) as (P5 & P6 & P7 & P8); [lia..|].
  split; [reflexivity|]. split; [exact P1|]. split; [exact P3|]. split.
  - eapply (eq_ind _ (fun x => x + _ < _)); [|symmetry; exact P5].
    eapply (eq_ind _ (fun x => _ + x < _)); [|symmetry; exact P6].
    eapply (eq_ind _ (fun x => _ < x)); [|symmetry; exact P2]. lia.
  - eapply (eq_ind _ (fun x => x + _ < _)); [|symmetry; exact P7].
    eapply (eq_ind _ (fun x => _ + x < _)); [|symmetry; exact P8].
    eapply (eq_ind _ (fun x => _ < x)); [|symmetry; exact P4]. lia.
Qed.

(** Bytes 54 to 71 are the timing descriptor. *)
Lemma get_put_bytes vs : forall i b k, 0 <= i -> 0 <= k < Z.of_nat (length vs) ->
  i + Z.of_nat (length vs) <= Z.of_nat (length b) ->
  edid_byte (put_bytes i vs b) (i + k) = u8 (arr_get 0 vs k).
Proof.
  induction vs as [|v vs IH]; intros i b k Hi Hk Hb; cbn [length] in *; [lia|]. cbn [put_bytes].
  destruct (Z.eq_dec k 0) as [->|Hne].
  - rewrite Z.add_0_r. clear IH Hk. assert (F : forall j c, i < j -> edid_byte (put_bytes j vs c) i = edid_byte c i).
    { clear -Hi. induction vs as [|x vs IH]; intros j c Hj; [done|]. cbn [put_bytes]. rewrite IH by lia.
      apply get_put_ne; lia. }
    rewrite F by lia. apply get_put_eq. lia.
  - replace (i + k) with (i + 1 + (k - 1)) by lia. rewrite IH; [|lia|lia|rewrite put_byte_length; lia].
    f_equal. unfold arr_get. replace (Z.to_nat k) with (S (Z.to_nat (k - 1))) by lia. done.
Qed.

Lemma take_put_bytes vs : forall i b n, Z.of_nat n <= i -> take n (put_bytes i vs b) = take n b.
Proof.
  induction vs as [|v vs IH]; intros i b n Hi; [done|]. cbn [put_bytes]. rewrite IH by lia.
  unfold put_byte, arr_set. apply take_insert_ge. lia.
Qed.

Lemma edid_base_ok w h wm hm : length (edid_base w h wm hm) = 128%nat /\ Forall is_byte (edid_base w h wm hm) /\
  take 8 (edid_base w h wm hm) = [0x00; 0xff; 0xff; 0xff; 0xff; 0xff; 0xff; 0x00].
Proof.
  split; [reflexivity|]. split; [|reflexivity]. unfold edid_base, virtio_gpu_edid_set_srgb_chromaticity.
  repeat (apply bytes_put || apply bytes_puts). apply Forall_replicate. split; vm_compute; congruence.
Qed.

(** The generated display identification is a valid EDID block whatever the
    scanout's size: 128 bytes whose sum is zero modulo 256, the fixed header, and a
    preferred timing that reads back the scanout's width and height (a size of zero
    standing for the default, clamped to the 12 bits the format has) with both sync
    pulses and front porches inside the blanking intervals. *)
Theorem edid_block_valid width height : is_u32 width -> is_u32 height ->
  let b := virtio_gpu_generate_edid width height in
  length b = 128%nat /\ Forall is_byte b /\ sumZ b mod 256 = 0 /\
  take 8 b = [0x00; 0xff; 0xff; 0xff; 0xff; 0xff; 0xff; 0x00] /\
  edid_h_active b = Z.min (eff width SCREEN_WIDTH) 4095 /\
  edid_v_active b = Z.min (eff height SCREEN_HEIGHT) 4095 /\
  edid_h_front b + edid_h_sync b < edid_h_blank b /\
  edid_v_front b + edid_v_sync b < edid_v_blank b.
Proof.
  intros Hw Hh. cbv zeta. unfold virtio_gpu_generate_edid. fold (eff width SCREEN_WIDTH). fold (eff height SCREEN_HEIGHT).
  assert (HW : is_u32 (eff width SCREEN_WIDTH)) by (unfold eff; case_match; [split; vm_compute; congruence|done]).
  assert (HH : is_u32 (eff height SCREEN_HEIGHT)) by (unfold eff; case_match; [split; vm_compute; congruence|done]).
  set (W := eff width SCREEN_WIDTH) in *. set (H := eff height SCREEN_HEIGHT) in *. cbv zeta. clearbody W H.
  set (wm := virtio_gpu_edid_pixels_to_mm W). set (hm := virtio_gpu_edid_pixels_to_mm H).
  destruct (timing_fields W H wm hm HW HH) as (Ln & T1 & T2 & T3 & T4). cbv zeta in T1, T2, T3, T4.
  destruct (edid_base_ok W H wm hm) as (LY & BY & HY). set (Y := edid_base W H wm hm) in *. clearbody Y wm hm.
  set (T := detailed_timing W H wm hm) in *. clearbody T. cbn [foldl].
  change (EDID_BLOCK_SIZE - 1) with 127.
  set (X := put_byte 126 0 (put_byte (108 + 3) 16 (put_byte (90 + 3) 16 (put_byte (72 + 3) 16 (put_bytes 54 T Y))))).
  assert (LX : length X = 128%nat) by (unfold X; rewrite !put_byte_length, put_bytes_length; done).
  assert (R : forall k, 0 <= k < 18 -> forall v, edid_byte (put_byte 127 v X) (54 + k) = u8 (arr_get 0 T k)).
  { intros k Hk v. unfold X. rewrite !get_put_ne by lia. apply get_put_bytes; [lia|lia|]. rewrite LY, Ln. lia. }
  split_and!.
  - by rewrite put_byte_length.
  - unfold X. auto 10 with semu.
  - by apply checksum_closes.
  - unfold X, put_byte, arr_set. rewrite !take_insert_ge by lia. by rewrite take_put_bytes.
  - unfold edid_h_active. by rewrite (R 2), (R 4) by lia.
  - unfold edid_v_active. by rewrite (R 5), (R 7) by lia.
  - unfold edid_h_front, edid_h_sync, edid_h_blank. by rewrite (R 8), (R 11), (R 9), (R 3), (R 4) by lia.
  - unfold edid_v_front, edid_v_sync, edid_v_blank. by rewrite (R 10), (R 11), (R 6), (R 7) by lia.
Qed.

Lemma edid_block_valid_witness :
  edid_h_active (virtio_gpu_generate_edid 1280 0) = 1280 /\ edid_v_active (virtio_gpu_generate_edid 1280 0) = 768.
Proof.
  destruct (edid_block_valid 1280 0) as (_ & _ & _ & _ & H1 & H2 & _); [split; vm_compute; congruence..|].
  split; [rewrite H1; vm_compute; reflexivity|rewrite H2; vm_compute; reflexivity].
Defined.
