(* ===== verification/VirtioGpuSw.v ===== *)
(** * The software back end of the GPU (virtio-gpu-sw.c)

    Resources with their host images, the backing pages in guest memory, scanouts,
    and the command handlers. A handler returns the length it stores in [*plen] and
    the new state. The images and the display payloads are host allocations: a copy
    that would leave one sets [host_oob]. A [size_t] is 64 bits wide. *)

From stdpp Require Import base gmap list.
From Stdlib Require Import ZArith Lia Bool.
From S2P Require Import Prelude Isa Hart Machine Loops Device Virtio VirtioProps VgpuDisplay GpuDefs GpuEdid.
Open Scope Z_scope.

(* [virtio-gpu-sw.c:23-26] *)
Definition VGPU_SW_MAX_HOSTMEM := 256 * 1024 * 1024.
Definition VGPU_SW_BACKING_ENTRY_PAGE_SIZE := 4096.
Definition VGPU_SW_MAX_BACKING_ENTRIES := RAM_SIZE / VGPU_SW_BACKING_ENTRY_PAGE_SIZE + 1.

(** [sizeof] of a payload and of a resource on a 64-bit host. *)
Definition sizeof_payload := 32.
Definition sizeof_resource := 72.

(* [virtio-gpu.h:75-80] virtio_gpu_rect *)
Record virtio_gpu_rect := mk_rect { rc_x : Z; rc_y : Z; rc_width : Z; rc_height : Z }.

(** The overflow tests: the result, [None] on overflow. *)
(* [virtio-gpu-sw.c:94-98] vgpu_sw_u64_add_overflow *)
Definition vgpu_sw_u64_add_overflow (a b : Z) : option Z :=
  let out := wrap64 (a + b) in if out <? a then None else Some out.

(* [virtio-gpu-sw.c:100-107] vgpu_sw_u64_mul_overflow *)
Definition vgpu_sw_u64_mul_overflow (a b : Z) : option Z :=
  if negb (a =? 0) && ((2 ^ 64 - 1) / a <? b) then None else Some (wrap64 (a * b)).

(* [virtio-gpu-sw.c:109-119] vgpu_sw_rect_fits *)
Definition vgpu_sw_rect_fits (width height : Z) (rect : virtio_gpu_rect) : bool :=
  if (rc_width rect =? 0) || (rc_height rect =? 0) then false
  else if (width <=? rc_x rect) || (height <=? rc_y rect) then false
  else (rc_width rect <=? width - rc_x rect) && (rc_height rect <=? height - rc_y rect).

(** The sum of the backing entries, [None] on overflow. *)
(* [virtio-gpu-sw.c:147-151] vgpu_sw_transfer_source_fits *)
Fixpoint backing_total (iov : list backing_iov) (acc : Z) : option Z :=
  match iov with
  | [] => Some acc
  | v :: iov => acc ← vgpu_sw_u64_add_overflow acc (biov_len v); backing_total iov acc
  end.

(* [virtio-gpu-sw.c:121-156] vgpu_sw_transfer_source_fits *)
Definition transfer_source_end (r : virtio_gpu_rect) (offset : Z) (res : vgpu_sw_resource_2d)
    (iov : list backing_iov) : option (Z * Z) :=
  let bpp := r_bits_per_pixel res / 8 in
  if rc_height r =? 0 then None else
  row_bytes ← vgpu_sw_u64_mul_overflow (rc_width r) bpp;
  if row_bytes =? 0 then None else
  last_row ← vgpu_sw_u64_mul_overflow (r_stride res) (u32 (rc_height r - 1));
  last_row_offset ← vgpu_sw_u64_add_overflow offset last_row;
  end_offset ← vgpu_sw_u64_add_overflow last_row_offset row_bytes;
  row_stride ← vgpu_sw_u64_mul_overflow (r_stride res) (rc_height r);
  let required_bytes := if row_bytes =? r_stride res then row_stride else end_offset - offset in
  backing_size ← backing_total (take (Z.to_nat (page_cnt res)) iov) 0;
  backing_end ← vgpu_sw_u64_add_overflow offset required_bytes;
  Some (backing_end, backing_size).
Definition vgpu_sw_transfer_source_fits (r : virtio_gpu_rect) (offset : Z) (res : vgpu_sw_resource_2d)
    (iov : list backing_iov) : bool :=
  match transfer_source_end r offset res iov with
  | Some (backing_end, backing_size) => backing_end <=? backing_size
  | None => false
  end.

(* [virtio-gpu-sw.c:1138-1149] vgpu_sw_decode_cursor_coord *)
Definition vgpu_sw_decode_cursor_coord (coord : Z) : Z :=
  if coord <=? 2 ^ 31 - 1 then coord else coord - 2 ^ 32.

(** ** Resources *)

(* [virtio-gpu-sw.c:209-218] vgpu_sw_get_resource_2d *)
Definition find_res (id : Z) (l : list vgpu_sw_resource_2d) : option vgpu_sw_resource_2d :=
  List.find (fun r => resource_id r =? id) l.

(** Writing through the pointer to the resource found, and unlinking it. *)
Fixpoint upd_res (id : Z) (f : vgpu_sw_resource_2d -> vgpu_sw_resource_2d) (l : list vgpu_sw_resource_2d) :
    list vgpu_sw_resource_2d :=
  match l with
  | [] => []
  | r :: l => if resource_id r =? id then f r :: l else r :: upd_res id f l
  end.
Fixpoint del_res (id : Z) (l : list vgpu_sw_resource_2d) : list vgpu_sw_resource_2d :=
  match l with
  | [] => []
  | r :: l => if resource_id r =? id then l else r :: del_res id l
  end.

(** A host buffer: bytes from an offset on, and storing them. *)
Definition buf_read (off n : Z) (buf : list Z) : list Z := take (Z.to_nat n) (drop (Z.to_nat off) buf).
Definition buf_write (off : Z) (bytes buf : list Z) : list Z :=
  take (Z.to_nat off) buf ++ bytes ++ drop (Z.to_nat off + length bytes) buf.
Definition in_buf (off n : Z) (buf : list Z) : bool := (0 <=? off) && (off + n <=? Z.of_nat (length buf)).

Section Sw.
Context {E : Type} `{HostE : GpuHost E}.
Abbreviation M := (machine (gpu_dev E)).
Implicit Types s : M.

(* [virtio-gpu-sw.c:209-218] vgpu_sw_get_resource_2d *)
Definition vgpu_sw_get_resource_2d (id : Z) s : option vgpu_sw_resource_2d := find_res id (res_list (dev s)).
Definition on_res (id : Z) (f : vgpu_sw_resource_2d -> vgpu_sw_resource_2d) s : M :=
  on_gdev (fun d => d <| res_list := upd_res id f (res_list d) |>) s.
Definition flag_host_oob (ok : bool) s : M := if ok then s else on_gdev (fun d => d <| host_oob := true |>) s.

(** The bytes copied, as many as [done]; [offset] is within the rest of the
    backing, [bytes] what is still to copy. *)
(* [virtio-gpu-sw.c:50-92] vgpu_sw_iov_to_buf *)
Fixpoint iov_gather (iov : list backing_iov) (offset bytes : Z) s : list Z * M :=
  match iov with
  | [] => ([], s)
  | v :: iov =>
    if biov_len v =? 0 then iov_gather iov offset bytes s
    else
      match biov_base v with
      | None => ([], s)
      | Some base =>
        if offset <? biov_len v then
          let page_avail := biov_len v - offset in
          let len := if bytes <? page_avail then bytes else page_avail in
          let '(chunk, s) := dma_read (base + offset) (Z.to_nat len) s in
          if bytes <=? len then (chunk, s)
          else let '(rest, s) := iov_gather iov 0 (bytes - len) s in (chunk ++ rest, s)
        else iov_gather iov (offset - biov_len v) bytes s
      end
  end.
Definition vgpu_sw_iov_to_buf (iov : list backing_iov) (iov_cnt offset bytes : Z) s : list Z * M :=
  if bytes =? 0 then ([], s) else iov_gather (take (Z.to_nat iov_cnt) iov) offset bytes s.

(** Copy into the image at [dest]; whether the copy was complete. *)
Definition copy_to_image (id : Z) (iov : list backing_iov) (src_offset dest total : Z) s : bool * M :=
  match vgpu_sw_get_resource_2d id s with
  | None => (false, s)
  | Some res =>
    let '(bytes, s) := vgpu_sw_iov_to_buf iov (page_cnt res) src_offset total s in
    let s := flag_host_oob (in_buf dest (Z.of_nat (length bytes)) (image res)) s in
    (Z.of_nat (length bytes) =? total, on_res id (fun r => r <| image := buf_write dest bytes (image r) |>) s)
  end.

(** The loop over the rows [h], [h + 1], ... *)
(* [virtio-gpu-sw.c:182-195] vgpu_sw_copy_image_from_pages *)
Fixpoint copy_rows (n : nat) (h : Z) (id : Z) (iov : list backing_iov) (r : virtio_gpu_rect)
    (offset stride bpp : Z) s : bool * M :=
  match n with
  | O => (true, s)
  | S n =>
    let src_offset := wrap64 (offset + wrap64 (stride * h)) in
    let dest_offset := wrap64 (wrap64 (wrap64 (rc_y r + h) * stride) + wrap64 (rc_x r * bpp)) in
    let total := wrap64 (rc_width r * bpp) in
    let '(ok, s) := copy_to_image id iov src_offset dest_offset total s in
    if ok then copy_rows n (h + 1) id iov r offset stride bpp s else (false, s)
  end.

(* [virtio-gpu-sw.c:158-198] vgpu_sw_copy_image_from_pages *)
Definition vgpu_sw_copy_image_from_pages (r : virtio_gpu_rect) (offset : Z) (res : vgpu_sw_resource_2d)
    (iov : list backing_iov) s : bool * M :=
  let stride := r_stride res in
  let bpp := r_bits_per_pixel res / 8 in
  if (rc_x r =? 0) && (wrap64 (rc_width r * bpp) =? stride) then
    copy_to_image (resource_id res) iov offset (wrap64 (rc_y r * stride)) (wrap64 (stride * rc_height r)) s
  else copy_rows (Z.to_nat (rc_height r)) 0 (resource_id res) iov r offset stride bpp s.

(* [virtio-gpu-sw.c:200-207] vgpu_sw_destroy_resource_2d *)
Definition vgpu_sw_destroy_resource_2d (res : vgpu_sw_resource_2d) s : M :=
  on_gdev (fun d => d <| res_list := del_res (resource_id res) (res_list d) |>
                      <| hostmem := wrap64 (hostmem d - image_size res) |>) s.

(* [virtio-gpu-sw.c:220-229] vgpu_sw_get_scanout *)
Definition vgpu_sw_get_scanout (scanout_id : Z) s : option virtio_gpu_scanout_info :=
  if g_num_scanouts s <=? scanout_id then None
  else if nz (so_enabled (scanout_at s scanout_id)) then Some (scanout_at s scanout_id) else None.

(** The rows of the snapshot. *)
(* [virtio-gpu-sw.c:329-332] vgpu_sw_create_window_payload *)
Definition snapshot_rows (res : vgpu_sw_resource_2d) (src row_bytes height : Z) : list Z :=
  mjoin ((fun y => buf_read (src + y * r_stride res) row_bytes (image res)) <$> seqZ 0 height).

(** A payload pointer, [0] if none was made. *)
(* [virtio-gpu-sw.c:231-336] vgpu_sw_create_window_payload *)
Definition vgpu_sw_create_window_payload (res : vgpu_sw_resource_2d) (scanout : option virtio_gpu_scanout_info)
    s : Z * M :=
  if (r_bits_per_pixel res =? 0) || negb (r_bits_per_pixel res mod 8 =? 0) then (0, s)
  else
    let bytes_per_pixel := r_bits_per_pixel res / 8 in
    let '(sx, sy, width, height) :=
      match scanout with
      | Some so => (src_x so, src_y so, src_w so, src_h so)
      | None => (0, 0, r_width res, r_height res)
      end in
    if (width =? 0) || (height =? 0) then (0, s)
    else
      let row_bytes := wrap64 (width * bytes_per_pixel) in
      if negb (row_bytes / width =? bytes_per_pixel) then (0, s)
      else if 2 ^ 32 - 1 <? row_bytes then (0, s)
      else if r_stride res <? row_bytes then (0, s)
      else
        let pixels_size := wrap64 (row_bytes * height) in
        if negb (pixels_size / height =? row_bytes) then (0, s)
        else
          let alloc_size := wrap64 (sizeof_payload + pixels_size) in
          if alloc_size <? pixels_size then (0, s)
          else
            let '(ok, s) := g_malloc alloc_size s in
            if negb ok then (0, s)
            else
              let src := wrap64 (wrap64 (sy * r_stride res) + wrap64 (sx * bytes_per_pixel)) in
              let pixels := if r_stride res =? row_bytes then buf_read src pixels_size (image res)
                            else snapshot_rows res src row_bytes height in
              let last := if r_stride res =? row_bytes then src + pixels_size
                          else src + (height - 1) * r_stride res + row_bytes in
              let s := flag_host_oob (in_buf src (last - src) (image res)) s in
              let '(ptr, d) := payload_new (mk_payload (r_format res) width height row_bytes
                                              (r_bits_per_pixel res) pixels) (disp (dev s)) in
              (ptr, on_disp (fun _ => d) s).

(** [for (uint32_t i = 0; i < PRIV(vgpu)->num_scanouts; i++) body(i)] *)
Fixpoint for_scanouts (n : nat) (i : Z) (body : Z -> M -> M) s : M :=
  match n with
  | O => s
  | S n => for_scanouts n (i + 1) body (body i s)
  end.
Definition for_all_scanouts (body : Z -> M -> M) s : M := for_scanouts (Z.to_nat (g_num_scanouts s)) 0 body s.

(** [src_x = src_y = src_w = src_h = 0] with the primary binding. *)
Definition unbind_primary (so : virtio_gpu_scanout_info) : virtio_gpu_scanout_info :=
  so <| primary_resource_id := 0 |> <| src_x := 0 |> <| src_y := 0 |> <| src_w := 0 |> <| src_h := 0 |>.
Definition unbind_cursor (so : virtio_gpu_scanout_info) : virtio_gpu_scanout_info :=
  so <| cursor_resource_id := 0 |>.

(* [virtio-gpu-sw.c:339-370] vgpu_sw_reset *)
Definition vgpu_sw_reset s : M :=
  let s := for_all_scanouts (fun i s =>
    let s := upd_scanout i (fun so => unbind_primary (unbind_cursor so)) s in
    let s := on_disp (vgpu_display_publish_primary_clear i) s in
    on_disp (vgpu_display_publish_cursor_clear i) s) s in
  foldl (fun s res => vgpu_sw_destroy_resource_2d res s) s (res_list (dev s)).

(** A rectangle in a request. *)
Definition get_rect s (off : Z) : virtio_gpu_rect :=
  mk_rect (fld32 s off) (fld32 s (off + 4)) (fld32 s (off + 8)) (fld32 s (off + 12)).

(** ** Command handlers *)

(* [virtio-gpu-sw.c:372-561] vgpu_sw_resource_create_2d_handler *)
Definition vgpu_sw_resource_create_2d_handler (vq_desc : list virtq_desc) s : Z * M :=
  with_response vq_desc 40 (fun request response_desc s =>
    let id := fld32 s (request + 24) in
    let format := fld32 s (request + 28) in
    let width := fld32 s (request + 32) in
    let height := fld32 s (request + 36) in
    if id =? 0 then respond request response_desc VIRTIO_GPU_RESP_ERR_INVALID_RESOURCE_ID s
    else if (width =? 0) || (height =? 0) then respond request response_desc VIRTIO_GPU_RESP_ERR_INVALID_PARAMETER s
    else if bool_decide (is_Some (vgpu_sw_get_resource_2d id s)) then
      respond request response_desc VIRTIO_GPU_RESP_ERR_INVALID_RESOURCE_ID s
    else
      let '(ok, s) := g_malloc sizeof_resource s in
      if negb ok then gpu_fail s
      else if negb (bool_decide (format ∈ virtio_gpu_formats)) then
        respond request response_desc VIRTIO_GPU_RESP_ERR_INVALID_PARAMETER s
      else
        let bits_per_pixel := 32 in
        let stride := wrap64 (Z.shiftr (wrap64 (width * bits_per_pixel + 0x1f)) 5 * 4) in
        if 2 ^ 32 - 1 <? stride then respond request response_desc VIRTIO_GPU_RESP_ERR_OUT_OF_MEMORY s
        else
          let size := wrap64 (stride * height) in
          if nz height && negb (size / height =? stride) then
            respond request response_desc VIRTIO_GPU_RESP_ERR_OUT_OF_MEMORY s
          else if (VGPU_SW_MAX_HOSTMEM <? size) || (VGPU_SW_MAX_HOSTMEM - size <? hostmem (dev s)) then
            respond request response_desc VIRTIO_GPU_RESP_ERR_OUT_OF_MEMORY s
          else
            let '(ok, s) := g_malloc size s in
            if negb ok then gpu_fail s
            else
              let res := mk_res id format width height stride bits_per_pixel
                           (replicate (Z.to_nat size) 0) size 0 None in
              let s := on_gdev (fun d => d <| hostmem := wrap64 (hostmem d + size) |>
                                           <| res_list := res_list d ++ [res] |>) s in
              respond request response_desc VIRTIO_GPU_RESP_OK_NODATA s) s.

(** Scanout [i] loses the resource. *)
(* [virtio-gpu-sw.c:599-616] vgpu_sw_cmd_resource_unref_handler *)
Definition unref_scanout (id i : Z) s : M :=
  if negb (nz (so_enabled (scanout_at s i))) then s
  else
    let s := if primary_resource_id (scanout_at s i) =? id
             then on_disp (vgpu_display_publish_primary_clear i) (upd_scanout i unbind_primary s) else s in
    if cursor_resource_id (scanout_at s i) =? id
    then on_disp (vgpu_display_publish_cursor_clear i) (upd_scanout i unbind_cursor s) else s.

(* [virtio-gpu-sw.c:563-624] vgpu_sw_cmd_resource_unref_handler *)
Definition vgpu_sw_cmd_resource_unref_handler (vq_desc : list virtq_desc) s : Z * M :=
  with_response vq_desc 32 (fun request response_desc s =>
    let id := fld32 s (request + 24) in
    match vgpu_sw_get_resource_2d id s with
    | None => respond request response_desc VIRTIO_GPU_RESP_ERR_INVALID_RESOURCE_ID s
    | Some res =>
      let s := for_all_scanouts (unref_scanout id) s in
      let s := vgpu_sw_destroy_resource_2d res s in
      respond request response_desc VIRTIO_GPU_RESP_OK_NODATA s
    end) s.

(* [virtio-gpu-sw.c:626-735] vgpu_sw_cmd_set_scanout_handler *)
Definition vgpu_sw_cmd_set_scanout_handler (vq_desc : list virtq_desc) s : Z * M :=
  with_response vq_desc 48 (fun request response_desc s =>
    let r := get_rect s (request + 24) in
    let scanout_id := fld32 s (request + 40) in
    let id := fld32 s (request + 44) in
    match vgpu_sw_get_scanout scanout_id s with
    | None => respond request response_desc VIRTIO_GPU_RESP_ERR_INVALID_SCANOUT_ID s
    | Some scanout =>
      if id =? 0 then
        let s := upd_scanout scanout_id unbind_primary s in
        let s := on_disp (vgpu_display_publish_primary_clear scanout_id) s in
        respond request response_desc VIRTIO_GPU_RESP_OK_NODATA s
      else
        match vgpu_sw_get_resource_2d id s with
        | None => respond request response_desc VIRTIO_GPU_RESP_ERR_INVALID_RESOURCE_ID s
        | Some res =>
          if negb (vgpu_sw_rect_fits (r_width res) (r_height res) r) then
            respond request response_desc VIRTIO_GPU_RESP_ERR_INVALID_PARAMETER s
          else if (so_width scanout <? rc_width r) || (so_height scanout <? rc_height r) then
            respond request response_desc VIRTIO_GPU_RESP_ERR_INVALID_PARAMETER s
          else
            let s := upd_scanout scanout_id (fun so =>
              so <| primary_resource_id := resource_id res |> <| src_x := rc_x r |> <| src_y := rc_y r |>
                 <| src_w := rc_width r |> <| src_h := rc_height r |>) s in
            respond request response_desc VIRTIO_GPU_RESP_OK_NODATA s
        end
    end) s.

(** Publish the view of scanout [i] if it shows the resource. *)
(* [virtio-gpu-sw.c:791-815] vgpu_sw_cmd_resource_flush_handler *)
Definition flush_scanout (id : Z) (res : vgpu_sw_resource_2d) (i : Z) s : M :=
  let scanout := scanout_at s i in
  if negb (nz (so_enabled scanout)) || negb (primary_resource_id scanout =? id) then s
  else if negb (vgpu_display_can_publish (disp (dev s))) then s
  else
    let '(payload, s) := vgpu_sw_create_window_payload res (Some scanout) s in
    if payload =? 0 then s else on_disp (vgpu_display_publish_primary_set i payload) s.

(* [virtio-gpu-sw.c:737-821] vgpu_sw_cmd_resource_flush_handler *)
Definition vgpu_sw_cmd_resource_flush_handler (vq_desc : list virtq_desc) s : Z * M :=
  with_response vq_desc 48 (fun request response_desc s =>
    let r := get_rect s (request + 24) in
    let id := fld32 s (request + 40) in
    match vgpu_sw_get_resource_2d id s with
    | None => respond request response_desc VIRTIO_GPU_RESP_ERR_INVALID_RESOURCE_ID s
    | Some res =>
      if negb (vgpu_sw_rect_fits (r_width res) (r_height res) r) then
        respond request response_desc VIRTIO_GPU_RESP_ERR_INVALID_PARAMETER s
      else
        let s := for_all_scanouts (flush_scanout id res) s in
        respond request response_desc VIRTIO_GPU_RESP_OK_NODATA s
    end) s.

(* [virtio-gpu-sw.c:823-918] vgpu_sw_cmd_transfer_to_host_2d_handler *)
Definition vgpu_sw_cmd_transfer_to_host_2d_handler (vq_desc : list virtq_desc) s : Z * M :=
  with_response vq_desc 56 (fun req response_desc s =>
    let r := get_rect s (req + 24) in
    let offset := fld64 s (req + 40) in
    let id := fld32 s (req + 48) in
    match vgpu_sw_get_resource_2d id s with
    | None => respond req response_desc VIRTIO_GPU_RESP_ERR_INVALID_RESOURCE_ID s
    | Some res =>
      match r_iovec res with
      | None => respond req response_desc VIRTIO_GPU_RESP_ERR_UNSPEC s
      | Some iov =>
        if negb (vgpu_sw_rect_fits (r_width res) (r_height res) r) then
          respond req response_desc VIRTIO_GPU_RESP_ERR_INVALID_PARAMETER s
        else if negb (vgpu_sw_transfer_source_fits r offset res iov) then
          respond req response_desc VIRTIO_GPU_RESP_ERR_INVALID_PARAMETER s
        else
          let '(ok, s) := vgpu_sw_copy_image_from_pages r offset res iov s in
          if negb ok then respond req response_desc VIRTIO_GPU_RESP_ERR_UNSPEC s
          else respond req response_desc VIRTIO_GPU_RESP_OK_NODATA s
      end
    end) s.

(** The entries [pages[i]], [pages[i + 1]], ... as host vectors; [None] for an
    address above 4 GiB or a range outside guest RAM. *)
(* [virtio-gpu-sw.c:1032-1071] vgpu_sw_cmd_resource_attach_backing_handler *)
Fixpoint convert_entries (n : nat) (pages : Z) s : option (list backing_iov) :=
  match n with
  | O => Some []
  | S n =>
    let addr := fld64 s pages in
    let length := fld32 s (pages + 8) in
    if 2 ^ 32 - 1 <? addr then None
    else
      match virtio_gpu_mem_guest_to_host (u32 addr) length with
      | None => None
      | Some base => rest ← convert_entries n (pages + 16) s; Some (mk_biov (Some base) length :: rest)
      end
  end.

(* [virtio-gpu-sw.c:920-1077] vgpu_sw_cmd_resource_attach_backing_handler *)
Definition vgpu_sw_cmd_resource_attach_backing_handler (vq_desc : list virtq_desc) s : Z * M :=
  with_response vq_desc 32 (fun backing_info response_desc s =>
    let id := fld32 s (backing_info + 24) in
    let nr_entries := fld32 s (backing_info + 28) in
    if nz (Z.land (d_flags (desc_at vq_desc 1)) VIRTIO_DESC_F_WRITE) then gpu_fail s
    else if (nr_entries =? 0) || (VGPU_SW_MAX_BACKING_ENTRIES <? nr_entries) then
      respond backing_info response_desc VIRTIO_GPU_RESP_ERR_INVALID_PARAMETER s
    else
      let entries_size := wrap64 (16 * nr_entries) in
      if d_len (desc_at vq_desc 1) <? entries_size then
        respond backing_info response_desc VIRTIO_GPU_RESP_ERR_INVALID_PARAMETER s
      else
        match virtio_gpu_mem_guest_to_host (u32 (d_addr (desc_at vq_desc 1))) (u32 entries_size) with
        | None => gpu_fail s
        | Some pages =>
          match vgpu_sw_get_resource_2d id s with
          | None => respond backing_info response_desc VIRTIO_GPU_RESP_ERR_INVALID_RESOURCE_ID s
          | Some res =>
            if bool_decide (is_Some (r_iovec res)) then
              respond backing_info response_desc VIRTIO_GPU_RESP_ERR_UNSPEC s
            else
              let s := on_res id (fun r => r <| page_cnt := nr_entries |>) s in
              let '(ok, s) := g_malloc (wrap64 (16 * nr_entries)) s in
              if negb ok then gpu_fail s
              else
                let s := touch pages entries_size s in
                match convert_entries (Z.to_nat nr_entries) pages s with
                | None =>
                  let s := on_res id (fun r => r <| r_iovec := None |> <| page_cnt := 0 |>) s in
                  respond backing_info response_desc VIRTIO_GPU_RESP_ERR_INVALID_PARAMETER s
                | Some iov =>
                  let s := on_res id (fun r => r <| r_iovec := Some iov |>) s in
                  respond backing_info response_desc VIRTIO_GPU_RESP_OK_NODATA s
                end
          end
        end) s.

(* [virtio-gpu-sw.c:1079-1136] vgpu_sw_cmd_resource_detach_backing_handler *)
Definition vgpu_sw_cmd_resource_detach_backing_handler (vq_desc : list virtq_desc) s : Z * M :=
  with_response vq_desc 32 (fun request response_desc s =>
    let id := fld32 s (request + 24) in
    match vgpu_sw_get_resource_2d id s with
    | None => respond request response_desc VIRTIO_GPU_RESP_ERR_INVALID_RESOURCE_ID s
    | Some res =>
      if negb (bool_decide (is_Some (r_iovec res))) then
        respond request response_desc VIRTIO_GPU_RESP_ERR_UNSPEC s
      else
        let s := on_res id (fun r => r <| r_iovec := None |> <| page_cnt := 0 |>) s in
        respond request response_desc VIRTIO_GPU_RESP_OK_NODATA s
    end) s.

(* [virtio-gpu-sw.c:1151-1254] vgpu_sw_cmd_update_cursor_handler *)
Definition vgpu_sw_cmd_update_cursor_handler (vq_desc : list virtq_desc) s : Z * M :=
  match virtio_gpu_get_request vq_desc 56 s with
  | (None, s) => gpu_fail s
  | (Some cursor, s) =>
    let scanout_id := fld32 s (cursor + 24) in
    let x := fld32 s (cursor + 28) in
    let y := fld32 s (cursor + 32) in
    let id := fld32 s (cursor + 40) in
    let hot_x := fld32 s (cursor + 44) in
    let hot_y := fld32 s (cursor + 48) in
    if nz (Z.land (fld32 s (cursor + OFF_flags)) VIRTIO_GPU_FLAG_FENCE) then gpu_fail s
    else
      match vgpu_sw_get_scanout scanout_id s with
      | None => gpu_fail s
      | Some scanout =>
        if id =? 0 then
          let s := upd_scanout scanout_id unbind_cursor s in
          (0, on_disp (vgpu_display_publish_cursor_clear scanout_id) s)
        else
          match vgpu_sw_get_resource_2d id s with
          | None => gpu_fail s
          | Some res =>
            if (r_width res =? 0) || (r_height res =? 0) || (so_width scanout <? r_width res)
               || (so_height scanout <? r_height res) then gpu_fail s
            else if negb (vgpu_display_can_publish (disp (dev s))) then (0, s)
            else
              let '(payload, s) := vgpu_sw_create_window_payload res None s in
              if payload =? 0 then (0, s)
              else
                let s := upd_scanout scanout_id (fun so => so <| cursor_resource_id := id |>) s in
                (0, on_disp (vgpu_display_publish_cursor_set scanout_id payload
                       (vgpu_sw_decode_cursor_coord x) (vgpu_sw_decode_cursor_coord y) hot_x hot_y) s)
          end
      end
  end.

(* [virtio-gpu-sw.c:1256-1302] vgpu_sw_cmd_move_cursor_handler *)
Definition vgpu_sw_cmd_move_cursor_handler (vq_desc : list virtq_desc) s : Z * M :=
  match virtio_gpu_get_request vq_desc 56 s with
  | (None, s) => gpu_fail s
  | (Some cursor, s) =>
    if nz (Z.land (fld32 s (cursor + OFF_flags)) VIRTIO_GPU_FLAG_FENCE) then gpu_fail s
    else
      match vgpu_sw_get_scanout (fld32 s (cursor + 24)) s with
      | None => gpu_fail s
      | Some _ =>
        (0, on_disp (vgpu_display_publish_cursor_move (fld32 s (cursor + 24))
               (vgpu_sw_decode_cursor_coord (fld32 s (cursor + 28)))
               (vgpu_sw_decode_cursor_coord (fld32 s (cursor + 32)))) s)
      end
  end.
End Sw.
