(* ===== verification/VirtioGpu.v ===== *)
(** * The GPU device (virtio-gpu.c)

    Descriptor chains, command dispatch, the two virtqueues, the register file, on
    top of the software back end. A chain has at most three descriptors and a
    notification handles at most as many chains as the queue has entries, so no
    bound is needed. *)

From stdpp Require Import base gmap list.
From Stdlib Require Import ZArith Lia Bool.
From S2P Require Import Prelude Isa Hart Machine Loops Device Virtio VirtioProps VgpuDisplay GpuDefs GpuEdid VirtioGpuSw.
Open Scope Z_scope.

Section Gpu.
Context {E : Type} `{HostE : GpuHost E}.
Abbreviation M := (machine (gpu_dev E)).
Implicit Types s : M.

(* [virtio-gpu.c:530-584] virtio_gpu_get_edid_handler *)
Definition virtio_gpu_get_edid_handler (vq_desc : list virtq_desc) s : Z * M :=
  match virtio_gpu_get_request vq_desc sizeof_cmd_get_edid s with
  | (None, s) => gpu_fail s
  | (Some request, s) =>
    match virtio_gpu_get_response_desc vq_desc sizeof_resp_edid with
    | None => gpu_fail s
    | Some response_desc =>
      let scanout_id := fld32 s (request + 24) in
      if (g_num_scanouts s <=? scanout_id) || negb (nz (so_enabled (scanout_at s scanout_id))) then
        respond request response_desc VIRTIO_GPU_RESP_ERR_INVALID_SCANOUT_ID s
      else
        let scanout := scanout_at s scanout_id in
        match virtio_gpu_mem_guest_to_host (u32 (d_addr response_desc)) sizeof_resp_edid with
        | None => gpu_fail s
        | Some response =>
          let s := g_memset0 response sizeof_resp_edid s in
          let s := put32 (response + OFF_type) VIRTIO_GPU_RESP_OK_EDID s in
          let s := put32 (response + 24) EDID_BLOCK_SIZE s in
          let s := dma_write (response + 32) (virtio_gpu_generate_edid (so_width scanout) (so_height scanout)) s in
          (sizeof_resp_edid, echo_fence request response s)
        end
    end
  end.

(** Collecting the chain: a list of three descriptors, [None] when the handler
    gives up. *)
(* [virtio-gpu.c:617-648] virtio_gpu_desc_handler *)
Fixpoint collect_descs (n : nat) (i : Z) (queue : virtq_t) (desc_idx : Z) (vq_desc : list virtq_desc) s :
    option (list virtq_desc) * M :=
  match n with
  | O => (Some vq_desc, s)
  | S n =>
    if QueueNum queue <=? desc_idx then (None, virtio_gpu_set_fail s)
    else
      let desc_offset := u32 (QueueDesc queue + u32 (desc_idx * 4)) in
      let '(d1, s) := ram_get (desc_offset + 1) s in
      if negb (d1 =? 0) then (None, virtio_gpu_set_fail s)
      else
        let '(d0, s) := ram_get desc_offset s in
        let '(d2, s) := ram_get (desc_offset + 2) s in
        let '(d3, s) := ram_get (desc_offset + 3) s in
        let vq_desc := arr_set vq_desc i (mk_desc d0 d2 (u16 d3) 0) in
        if negb (nz (Z.land (u16 d3) VIRTIO_DESC_F_NEXT)) then (Some vq_desc, s)
        else collect_descs n (i + 1) queue (Z.shiftr d3 16) vq_desc s
  end.

(** The table [g_virtio_gpu_backend] as the switch uses it: [None] is the default
    case. *)
(* [virtio-gpu-sw.c:1312-1340] g_virtio_gpu_backend *)
Definition gpu_command (type : Z) (vq_desc : list virtq_desc) s : option (Z * M) :=
  if type =? VIRTIO_GPU_CMD_GET_DISPLAY_INFO then Some (virtio_gpu_get_display_info_handler vq_desc s)
  else if type =? VIRTIO_GPU_CMD_RESOURCE_CREATE_2D then Some (vgpu_sw_resource_create_2d_handler vq_desc s)
  else if type =? VIRTIO_GPU_CMD_RESOURCE_UNREF then Some (vgpu_sw_cmd_resource_unref_handler vq_desc s)
  else if type =? VIRTIO_GPU_CMD_SET_SCANOUT then Some (vgpu_sw_cmd_set_scanout_handler vq_desc s)
  else if type =? VIRTIO_GPU_CMD_RESOURCE_FLUSH then Some (vgpu_sw_cmd_resource_flush_handler vq_desc s)
  else if type =? VIRTIO_GPU_CMD_TRANSFER_TO_HOST_2D then Some (vgpu_sw_cmd_transfer_to_host_2d_handler vq_desc s)
  else if type =? VIRTIO_GPU_CMD_RESOURCE_ATTACH_BACKING then
    Some (vgpu_sw_cmd_resource_attach_backing_handler vq_desc s)
  else if type =? VIRTIO_GPU_CMD_RESOURCE_DETACH_BACKING then
    Some (vgpu_sw_cmd_resource_detach_backing_handler vq_desc s)
  else if type =? VIRTIO_GPU_CMD_GET_EDID then Some (virtio_gpu_get_edid_handler vq_desc s)
  else if (VIRTIO_GPU_CMD_GET_CAPSET_INFO <=? type) && (type <=? VIRTIO_GPU_CMD_SET_SCANOUT_BLOB) then
    Some (virtio_gpu_cmd_undefined_handler vq_desc s)
  else if (VIRTIO_GPU_CMD_CTX_CREATE <=? type) && (type <=? VIRTIO_GPU_CMD_RESOURCE_UNMAP_BLOB) then
    Some (virtio_gpu_cmd_undefined_handler vq_desc s)
  else if type =? VIRTIO_GPU_CMD_UPDATE_CURSOR then Some (vgpu_sw_cmd_update_cursor_handler vq_desc s)
  else if type =? VIRTIO_GPU_CMD_MOVE_CURSOR then Some (vgpu_sw_cmd_move_cursor_handler vq_desc s)
  else None.

(** The length for the used ring, [None] when the handler returns an error. *)
(* [virtio-gpu.c:608-736] virtio_gpu_desc_handler *)
Definition virtio_gpu_desc_handler (queue : virtq_t) (queue_index desc_idx : Z) s : option Z * M :=
  match collect_descs (Z.to_nat VIRTIO_GPU_MAX_DESC) 0 queue desc_idx (replicate 3 zero_desc) s with
  | (None, s) => (None, s)
  | (Some vq_desc, s) =>
    match virtio_gpu_get_request vq_desc sizeof_ctrl_hdr s with
    | (None, s) => (None, virtio_gpu_set_fail s)
    | (Some header, s) =>
      let type := fld32 s (header + OFF_type) in
      let is_cursor_cmd := (type =? VIRTIO_GPU_CMD_UPDATE_CURSOR) || (type =? VIRTIO_GPU_CMD_MOVE_CURSOR) in
      if ((queue_index =? VIRTIO_GPU_CONTROLQ) && is_cursor_cmd)
         || ((queue_index =? VIRTIO_GPU_CURSORQ) && negb is_cursor_cmd) then (None, virtio_gpu_set_fail s)
      else if nz (Z.land (d_flags (desc_at vq_desc (VIRTIO_GPU_MAX_DESC - 1))) VIRTIO_DESC_F_NEXT) then
        match virtio_gpu_get_response_desc vq_desc sizeof_ctrl_hdr with
        | None => (None, virtio_gpu_set_fail s)
        | Some response_desc =>
          let '(plen, s) := virtio_gpu_write_ctrl_response header response_desc VIRTIO_GPU_RESP_ERR_UNSPEC s in
          if plen =? 0 then (None, virtio_gpu_set_fail s) else (Some plen, s)
        end
      else
        match gpu_command type vq_desc s with
        | Some (plen, s) => (Some plen, s)
        | None => let '(_, s) := virtio_gpu_cmd_undefined_handler vq_desc s in (None, s)
        end
    end
  end.

Definition gqueue s (index : Z) : virtq_t := queue_at (vgpu (dev s)) index.
Definition needs_reset s : bool := nz (Z.land (Status (vgpu (dev s))) VIRTIO_STATUS__DEVICE_NEEDS_RESET).

(** The loop over the new buffers; [None] when a chain stopped it. *)
(* [virtio-gpu.c:768-807] virtio_gpu_queue_notify_handler *)
Fixpoint gpu_notify_loop (n : nat) (index new_used : Z) s : option Z * M :=
  match n with
  | O => (Some new_used, s)
  | S n =>
    let queue := gqueue s index in
    let queue_idx := last_avail queue mod QueueNum queue in
    let '(buffer_idx, s) := avail_entry queue queue_idx s in
    match virtio_gpu_desc_handler queue index buffer_idx s with
    | (None, s) => (None, s)
    | (Some len, s) =>
      let s := used_append queue new_used buffer_idx len s in
      let s := on_vgpu (upd_queue index (fun q => q <| last_avail := u16 (last_avail q + 1) |>)) s in
      let new_used := u16 (new_used + 1) in
      if needs_reset s then (Some new_used, s) else gpu_notify_loop n index new_used s
    end
  end.

(** The loop runs until [last_avail] reaches [new_avail], that is [avail_delta]
    times. *)
(* [virtio-gpu.c:738-816] virtio_gpu_queue_notify_handler *)
Definition virtio_gpu_queue_notify_handler (index : Z) s : M :=
  let queue := gqueue s index in
  if needs_reset s then s
  else if negb (nz (Z.land (Status (vgpu (dev s))) VIRTIO_STATUS__DRIVER_OK) && ready queue) then virtio_gpu_set_fail s
  else
    let '(w, s) := ram_get (QueueAvail queue) s in
    let new_avail := Z.shiftr w 16 in
    let avail_delta := u16 (new_avail - last_avail queue) in
    if u16 (QueueNum queue) <? avail_delta then virtio_gpu_set_fail s
    else if last_avail queue =? new_avail then s
    else
      let '(w, s) := ram_get (QueueUsed queue) s in
      match gpu_notify_loop (Z.to_nat avail_delta) index (Z.shiftr w 16) s with
      | (None, s) => s
      | (Some new_used, s) =>
        let queue := gqueue s index in
        let s := used_publish queue new_used s in
        let '(w, s) := ram_get (QueueAvail queue) s in
        if nz (Z.land w 1) then s
        else on_vgpu (fun d => d <| InterruptStatus := Z.lor (InterruptStatus d) VIRTIO_INT__USED_RING |>) s
      end.

(* [virtio-gpu.c:818-825] virtio_gpu_preprocess *)
Definition virtio_gpu_preprocess (addr : Z) s : Z * M :=
  if (RAM_SIZE <=? addr) || nz (Z.land addr 3) then (0, virtio_gpu_set_fail s) else (Z.shiftr addr 2, s).

(* [virtio-gpu.c:827-853] virtio_gpu_update_status *)
Definition virtio_gpu_update_status (status : Z) s : M :=
  let s := on_vgpu (fun d => d <| Status := Z.lor (Status d) status |>) s in
  if nz status then s
  else on_vgpu (fun _ => zero_virtio 2) (vgpu_sw_reset s).

(* [virtio-gpu.c:855-938] virtio_gpu_reg_read *)
Definition virtio_gpu_reg_read (addr : Z) s : option Z :=
  let d := vgpu (dev s) in
  if addr =? VIRTIO_MagicValue then Some 0x74726976
  else if addr =? VIRTIO_Version then Some 2
  else if addr =? VIRTIO_DeviceID then Some 16
  else if addr =? VIRTIO_VendorID then Some VIRTIO_VENDOR_ID
  else if addr =? VIRTIO_DeviceFeatures then
    Some (if DeviceFeaturesSel d =? 0 then VIRTIO_GPU_F_EDID
          else if DeviceFeaturesSel d =? 1 then VIRTIO_F_VERSION_1 else 0)
  else if addr =? VIRTIO_QueueNumMax then Some VIRTIO_GPU_QUEUE_NUM_MAX
  else if addr =? VIRTIO_QueueReady then Some (b2z (ready (queue_at d (QueueSel d))))
  else if addr =? VIRTIO_InterruptStatus then Some (InterruptStatus d)
  else if addr =? VIRTIO_Status then Some (Status d)
  else if (addr =? VIRTIO_SHMLenLow) || (addr =? VIRTIO_SHMLenHigh) then Some (u32 (-1))
  else if (addr =? VIRTIO_SHMBaseLow) || (addr =? VIRTIO_SHMBaseHigh) then Some 0
  else if addr =? VIRTIO_ConfigGeneration then Some 0
  else if negb (RANGE_CHECK addr VIRTIO_Config 16) then None
  else
    let offset := u32 (Z.shiftl (addr - VIRTIO_Config) 2) in
    if offset =? 0 then Some 0
    else if offset =? 8 then Some (g_num_scanouts s)
    else if offset =? 12 then Some 0
    else None.

(* [virtio-gpu.c:940-965] virtio_gpu_read *)
Definition virtio_gpu_read (addr width : Z) s : option Z * M :=
  if width =? RV_MEM_LW then
    match virtio_gpu_reg_read (Z.shiftr addr 2) s with
    | Some v => (Some v, s)
    | None => (None, raise RV_EXC_LOAD_FAULT (exc_val (hart s)) s)
    end
  else if (width =? RV_MEM_LBU) || (width =? RV_MEM_LB) || (width =? RV_MEM_LHU) || (width =? RV_MEM_LH) then
    (None, raise RV_EXC_LOAD_MISALIGN (exc_val (hart s)) s)
  else (None, raise RV_EXC_ILLEGAL_INSN 0 s).

(** [VIRTIO_GPU_QUEUE] *)
Definition gsel s : virtq_t := gqueue s (QueueSel (vgpu (dev s))).
Definition upd_gsel (f : virtq_t -> virtq_t) s : M := on_vgpu (fun d => upd_queue (QueueSel d) f d) s.

(* [virtio-gpu.c:972-992] virtio_gpu_vq_config_after_ready *)
Definition virtio_gpu_vq_config_after_ready (addr : Z) s : bool :=
  if negb (ready (gsel s)) then false
  else (addr =? VIRTIO_QueueNum) || (addr =? VIRTIO_QueueDescLow) || (addr =? VIRTIO_QueueDescHigh)
    || (addr =? VIRTIO_QueueDriverLow) || (addr =? VIRTIO_QueueDriverHigh)
    || (addr =? VIRTIO_QueueDeviceLow) || (addr =? VIRTIO_QueueDeviceHigh).

(** Whether the rings of a queue that is to become ready are refused. *)
(* [virtio-gpu.c:1041-1057] virtio_gpu_reg_write *)
Definition rings_refused (q : virtq_t) : bool :=
  let qnum := QueueNum q in
  let ram_words := RAM_SIZE / 4 in
  let desc_end := u32 (QueueDesc q + u32 (qnum * 4)) in
  let avail_end := u32 (u32 (QueueAvail q + 1) + u32 (qnum + 1) / 2) in
  let used_end := u32 (u32 (QueueUsed q + 1) + u32 (qnum * 2)) in
  (qnum =? 0) || (ram_words <? desc_end) || (ram_words <? avail_end) || (ram_words <? used_end).

(* [virtio-gpu.c:1027-1065] virtio_gpu_reg_write *)
Definition write_queue_ready (value : Z) s : M :=
  let s := upd_gsel (fun q => q <| ready := nz (Z.land value 1) |>) s in
  if negb (nz (Z.land value 1)) then s
  else if rings_refused (gsel s) then virtio_gpu_set_fail (upd_gsel (fun q => q <| ready := false |>) s)
  else
    let '(w, s) := ram_get (QueueAvail (gsel s)) s in
    upd_gsel (fun q => q <| last_avail := Z.shiftr w 16 |>) s.

(** [false] is a store fault. *)
(* [virtio-gpu.c:994-1123] virtio_gpu_reg_write *)
Definition virtio_gpu_reg_write (addr value : Z) s : bool * M :=
  let d := vgpu (dev s) in
  if virtio_gpu_vq_config_after_ready addr s then (true, virtio_gpu_set_fail s)
  else if addr =? VIRTIO_DeviceFeaturesSel then (true, on_vgpu (fun d => d <| DeviceFeaturesSel := value |>) s)
  else if addr =? VIRTIO_DriverFeatures then
    (true, if DriverFeaturesSel d =? 0 then on_vgpu (fun d => d <| DriverFeatures := value |>) s else s)
  else if addr =? VIRTIO_DriverFeaturesSel then (true, on_vgpu (fun d => d <| DriverFeaturesSel := value |>) s)
  else if addr =? VIRTIO_QueueSel then
    (true, if value <? 2 then on_vgpu (fun d => d <| QueueSel := value |>) s else virtio_gpu_set_fail s)
  else if addr =? VIRTIO_QueueNum then
    (true, if (0 <? value) && (value <=? VIRTIO_GPU_QUEUE_NUM_MAX)
           then upd_gsel (fun q => q <| QueueNum := value |>) s else virtio_gpu_set_fail s)
  else if addr =? VIRTIO_QueueReady then (true, write_queue_ready value s)
  else if addr =? VIRTIO_QueueDescLow then
    let '(a, s) := virtio_gpu_preprocess value s in (true, upd_gsel (fun q => q <| QueueDesc := a |>) s)
  else if addr =? VIRTIO_QueueDescHigh then (true, if nz value then virtio_gpu_set_fail s else s)
  else if addr =? VIRTIO_QueueDriverLow then
    let '(a, s) := virtio_gpu_preprocess value s in (true, upd_gsel (fun q => q <| QueueAvail := a |>) s)
  else if addr =? VIRTIO_QueueDriverHigh then (true, if nz value then virtio_gpu_set_fail s else s)
  else if addr =? VIRTIO_QueueDeviceLow then
    let '(a, s) := virtio_gpu_preprocess value s in (true, upd_gsel (fun q => q <| QueueUsed := a |>) s)
  else if addr =? VIRTIO_QueueDeviceHigh then (true, if nz value then virtio_gpu_set_fail s else s)
  else if addr =? VIRTIO_QueueNotify then
    (true, if value <? 2 then virtio_gpu_queue_notify_handler value s else virtio_gpu_set_fail s)
  else if addr =? VIRTIO_InterruptACK then
    (true, on_vgpu (fun d => d <| InterruptStatus := Z.land (InterruptStatus d) (not32 value) |>) s)
  else if addr =? VIRTIO_Status then (true, virtio_gpu_update_status value s)
  else if addr =? VIRTIO_SHMSel then (true, s)
  else if negb (RANGE_CHECK addr VIRTIO_Config 16) then (false, s)
  else (u32 (Z.shiftl (addr - VIRTIO_Config) 2) =? 4, s).

(* [virtio-gpu.c:1125-1148] virtio_gpu_write *)
Definition virtio_gpu_write (addr width value : Z) s : M :=
  if width =? RV_MEM_SW then
    let '(ok, s) := virtio_gpu_reg_write (Z.shiftr addr 2) value s in
    if ok then s else raise RV_EXC_STORE_FAULT (exc_val (hart s)) s
  else if (width =? RV_MEM_SB) || (width =? RV_MEM_SH) then raise RV_EXC_STORE_MISALIGN (exc_val (hart s)) s
  else raise RV_EXC_ILLEGAL_INSN 0 s.

(** A second initialisation ends the process. *)
(* [virtio-gpu.c:1150-1164] virtio_gpu_init *)
Definition virtio_gpu_init s : M :=
  if gpu_initialized (dev s) then on_gdev (fun d => d <| gpu_exit := true |>) s
  else on_gdev (fun d => d <| gpu_initialized := true |>) s.

(* [virtio-gpu.c:1166-1198] virtio_gpu_register_scanout *)
Definition virtio_gpu_register_scanout (width height : Z) s : Z * M :=
  let scanout_num := g_num_scanouts s in
  if VIRTIO_GPU_MAX_SCANOUTS <=? s32 scanout_num then (0, on_gdev (fun d => d <| gpu_exit := true |>) s)
  else
    let s := upd_scanout scanout_num (fun _ => mk_scanout width height 1 0 0 0 0 0 0) s in
    (scanout_num, on_gdev (fun d => d <| gpu_data := (gpu_data d) <| num_scanouts :=
       u32 (num_scanouts (gpu_data d) + 1) |> |>) s).
End Gpu.
