(* ===== verification/GpuProps.v ===== *)
(** * Safety of the GPU device

    An invariant of the device state that every guest access preserves: registers
    in range and the rings of a ready queue inside RAM, resources whose images have
    the size their geometry needs and whose backing is inside RAM, the accounting
    of host memory, scanout bindings that point to live resources and to a view
    inside them. It implies that no access leaves guest RAM or a host buffer. *)

From stdpp Require Import base gmap list.
From Stdlib Require Import ZArith Lia Bool.
From S2P Require Import Prelude Isa Hart Machine Tlb Loops Device Virtio VirtioProps DmaProps.
From S2P Require Import VgpuDisplay GpuDefs GpuEdid VirtioGpuSw VirtioGpu.
Open Scope Z_scope.

(** ** The invariant *)

Definition gq_ok (q : virtq_t) : Prop :=
  0 <= QueueNum q <= VIRTIO_GPU_QUEUE_NUM_MAX /\ 0 <= QueueDesc q < RAM_SIZE / 4 /\
  0 <= QueueAvail q < RAM_SIZE / 4 /\ 0 <= QueueUsed q < RAM_SIZE / 4 /\ 0 <= last_avail q < 2 ^ 16 /\
  (ready q = true -> rings_refused q = false).
Definition gregs_ok (d : virtio_state) : Prop :=
  length (queues d) = 2%nat /\ Forall gq_ok (queues d) /\ 0 <= QueueSel d < 2.

Definition biov_ok (v : backing_iov) : Prop :=
  exists b, biov_base v = Some b /\ 0 <= b /\ 0 <= biov_len v /\ b + biov_len v <= RAM_SIZE.
Record res_ok (r : vgpu_sw_resource_2d) : Prop := {
  ro_id : 0 < resource_id r < 2 ^ 32;
  ro_width : 0 < r_width r;
  ro_height : 0 < r_height r < 2 ^ 32;
  ro_bpp : r_bits_per_pixel r = 32;
  ro_stride : r_stride r = 4 * r_width r /\ r_stride r < 2 ^ 32;
  ro_size : image_size r = r_stride r * r_height r /\ image_size r <= VGPU_SW_MAX_HOSTMEM;
  ro_image : Z.of_nat (length (image r)) = image_size r;
  ro_iovec : match r_iovec r with
             | None => True
             | Some iov => page_cnt r = Z.of_nat (length iov) /\ Forall biov_ok iov
             end }.

Definition total_size (l : list vgpu_sw_resource_2d) : Z := sumZ (image_size <$> l).

(** A view inside a resource. *)
Definition view_ok (so : virtio_gpu_scanout_info) (r : vgpu_sw_resource_2d) : Prop :=
  0 <= src_x so /\ 0 <= src_y so /\ 0 < src_w so /\ 0 < src_h so /\
  src_x so + src_w so <= r_width r /\ src_y so + src_h so <= r_height r.
Definition bound_ok (l : list vgpu_sw_resource_2d) (so : virtio_gpu_scanout_info) : Prop :=
  (primary_resource_id so <> 0 -> exists r, find_res (primary_resource_id so) l = Some r /\ view_ok so r) /\
  (cursor_resource_id so <> 0 -> exists r, find_res (cursor_resource_id so) l = Some r).

(** Only registered, enabled scanouts are bound. *)
Definition bound_to_any (so : virtio_gpu_scanout_info) : Prop :=
  primary_resource_id so <> 0 \/ cursor_resource_id so <> 0.

Record data_ok {E} (d : gpu_dev E) : Prop := {
  do_scanouts : length (scanouts (gpu_data d)) = 16%nat /\ 0 <= num_scanouts (gpu_data d) <= VIRTIO_GPU_MAX_SCANOUTS;
  do_res : Forall res_ok (res_list d);
  do_ids : NoDup (resource_id <$> res_list d);
  do_mem : hostmem d = total_size (res_list d) /\ hostmem d <= VGPU_SW_MAX_HOSTMEM;
  do_bound : Forall (bound_ok (res_list d)) (scanouts (gpu_data d));
  do_live : forall i so, scanouts (gpu_data d) !! i = Some so -> bound_to_any so ->
    Z.of_nat i < num_scanouts (gpu_data d) /\ so_enabled so <> 0 }.

Record gpu_safe {E} (s : machine (gpu_dev E)) : Prop := {
  gs_ram : ram_ok (ram s);
  gs_oob : ram_oob s = false;
  gs_host : host_oob (dev s) = false;
  gs_regs : gregs_ok (vgpu (dev s));
  gs_data : data_ok (dev s) }.

Section Safe.
Context {E : Type} `{HostE : GpuHost E}.
Abbreviation M := (machine (gpu_dev E)).
Implicit Types s : M.

(** *** Steps that keep it *)

Lemma safe_mem s s' : gpu_safe s -> mem_step True s s' -> gpu_safe s'.
Proof.
  intros [R O H G D] [E1 E2 E3]. constructor; rewrite ?E1; try done; [by apply E2|]. by rewrite E3.
Qed.

(** The registers only. *)
Lemma safe_vgpu f s : gpu_safe s -> gregs_ok (f (vgpu (dev s))) -> gpu_safe (on_vgpu f s).
Proof. intros [R O H G [D1 D2 D3 D4 D5 D6]] Hf. by constructor; [| | | |constructor]. Qed.

Lemma gregs_fail d : gregs_ok d -> gregs_ok (virtio_set_fail d).
Proof. intros H. unfold virtio_set_fail. cbv zeta. by case_match. Qed.

Lemma safe_fail s : gpu_safe s -> gpu_safe (virtio_gpu_set_fail s).
Proof. intros H. apply safe_vgpu; [done|]. apply gregs_fail, H. Qed.

Lemma safe_gpu_fail s : gpu_safe s -> gpu_safe (snd (gpu_fail s)).
Proof. apply safe_fail. Qed.

Lemma safe_disp f s : gpu_safe s -> gpu_safe (on_disp f s).
Proof. intros [R O H G [D1 D2 D3 D4 D5 D6]]. by constructor; [| | | |constructor]. Qed.

Lemma safe_malloc n s : gpu_safe s -> gpu_safe (snd (g_malloc n s)).
Proof.
  intros [R O H G [D1 D2 D3 D4 D5 D6]]. unfold g_malloc. destruct (gpu_malloc n (gpu_env (dev s))) as [ok e].
  by constructor; [| | | |constructor].
Qed.

Lemma malloc_data n s : let s' := snd (g_malloc n s) in
  res_list (dev s') = res_list (dev s) /\ gpu_data (dev s') = gpu_data (dev s) /\ hostmem (dev s') = hostmem (dev s) /\
  ram s' = ram s /\ disp (dev s') = disp (dev s).
Proof. unfold g_malloc. by destruct (gpu_malloc n (gpu_env (dev s))) as [ok e]. Qed.

Lemma safe_raise c v s : gpu_safe s -> gpu_safe (raise c v s).
Proof. intros [R O H G D]. by constructor. Qed.

(** *** Guest memory *)

Lemma guest_to_host_spec addr size off : 0 <= addr -> 0 <= size ->
  virtio_gpu_mem_guest_to_host addr size = Some off -> off = addr /\ 0 <= off /\ off + size <= RAM_SIZE.
Proof.
  intros Ha Hs. unfold virtio_gpu_mem_guest_to_host. case_match eqn:C; [done|]. intros [= <-].
  rewrite !orb_false_iff, Z.leb_gt, !Z.ltb_ge in C. unfold RAM_SIZE in *.
  rewrite u32_id in C by (unfold is_u32; lia). lia.
Qed.

Lemma mem_echo request response s : 0 <= response -> response + 24 <= RAM_SIZE ->
  mem_step True s (echo_fence request response s).
Proof.
  intros H1 H2. unfold echo_fence. case_match; [|apply mem_refl]. unfold OFF_flags, OFF_fence_id.
  eapply mem_trans; [|apply mem_put64; lia]. apply mem_put32; lia.
Qed.

Lemma write_response_mem request rd type s :
  mem_step True s (snd (virtio_gpu_write_ctrl_response request rd type s)).
Proof.
  unfold virtio_gpu_write_ctrl_response. case_match; [apply mem_refl|].
  destruct (virtio_gpu_mem_guest_to_host _ _) as [response|] eqn:G; [|apply mem_refl].
  apply guest_to_host_spec in G as (_ & G1 & G2); [|apply u32_nonneg|done]. cbn [snd]. unfold sizeof_ctrl_hdr, OFF_type in *.
  eapply mem_trans; [|apply mem_echo; lia]. eapply mem_trans; [|apply mem_put32; lia]. apply mem_memset; lia.
Qed.

Lemma safe_respond request rd type s : gpu_safe s -> gpu_safe (snd (respond request rd type s)).
Proof.
  intros H. unfold respond. pose proof (write_response_mem request rd type s) as W.
  destruct (virtio_gpu_write_ctrl_response request rd type s) as [plen s']. cbn [snd] in *.
  pose proof (safe_mem s s' H W). case_match; [by apply safe_fail|done].
Qed.

Lemma get_request_spec vq n s : 0 <= n -> n < 2 ^ 32 ->
  mem_step True s (snd (virtio_gpu_get_request vq n s)).
Proof.
  intros Hn Hn'. unfold virtio_gpu_get_request. case_match; [apply mem_refl|].
  destruct (virtio_gpu_mem_guest_to_host _ _) as [off|] eqn:G; [|apply mem_refl].
  rewrite (u32_id n) in G by (unfold is_u32; lia).
  apply guest_to_host_spec in G as (_ & G1 & G2); [|apply u32_nonneg|done]. apply mem_touch. intros _.
  apply in_ram_iff. lia.
Qed.

Lemma safe_with_response vq n body s : gpu_safe s -> 0 <= n < 2 ^ 32 ->
  (forall req rd s', gpu_safe s' -> gpu_safe (snd (body req rd s'))) ->
  gpu_safe (snd (with_response vq n body s)).
Proof.
  intros H Hn Hb. unfold with_response. case_match; [|by apply safe_gpu_fail].
  pose proof (get_request_spec vq n s ltac:(lia) ltac:(lia)) as G.
  destruct (virtio_gpu_get_request vq n s) as [[req|] s']; cbn [snd] in G; pose proof (safe_mem s s' H G).
  - by apply Hb.
  - by apply safe_gpu_fail.
Qed.
End Safe.

(** ** Resources *)

Lemma find_res_Some id l r : find_res id l = Some r -> resource_id r = id /\ r ∈ l.
Proof.
  intros H. apply List.find_some in H as [H1 H2%Z.eqb_eq]. split; [done|]. by apply list_elem_of_In.
Qed.
Lemma find_res_cons id r l : find_res id (r :: l) = if resource_id r =? id then Some r else find_res id l.
Proof. done. Qed.

Section Upd.
Context (id : Z) (f : vgpu_sw_resource_2d -> vgpu_sw_resource_2d) (f_id : forall r, resource_id (f r) = resource_id r).

Lemma find_upd_eq l : find_res id (upd_res id f l) = f <$> find_res id l.
Proof using f_id.
  induction l as [|r l IH]; [done|]. cbn [upd_res]. rewrite find_res_cons. destruct (resource_id r =? id) eqn:Hid.
  - rewrite find_res_cons, f_id, Hid. done.
  - rewrite find_res_cons, Hid. apply IH.
Qed.
Lemma find_upd_ne id' l : id' <> id -> find_res id' (upd_res id f l) = find_res id' l.
Proof using f_id.
  intros Hne. induction l as [|r l IH]; [done|]. cbn [upd_res]. destruct (Z.eqb_spec (resource_id r) id) as [Hid|Hid].
  - rewrite !find_res_cons, f_id. destruct (Z.eqb_spec (resource_id r) id'); [congruence|done].
  - rewrite !find_res_cons, IH. done.
Qed.
Lemma ids_upd l : resource_id <$> upd_res id f l = resource_id <$> l.
Proof using f_id.
  induction l as [|r l IH]; [done|]. cbn [upd_res]. case_match; cbn; [by rewrite f_id|by rewrite <- IH].
Qed.
Lemma Forall_upd (P : vgpu_sw_resource_2d -> Prop) l :
  Forall P l -> (forall r, find_res id l = Some r -> P (f r)) -> Forall P (upd_res id f l).
Proof using.
  intros F H. induction l as [|r l IH]; [done|]. apply Forall_cons in F as [F1 F2]. cbn [upd_res].
  rewrite find_res_cons in H. case_match; constructor; auto.
Qed.
Lemma total_upd l : (forall r, image_size (f r) = image_size r) -> total_size (upd_res id f l) = total_size l.
Proof using.
  intros Hs. unfold total_size. induction l as [|r l IH]; [done|]. cbn [upd_res]. case_match; cbn; [by rewrite Hs|by rewrite <- IH].
Qed.
Lemma bound_upd l so : (forall r, r_width (f r) = r_width r /\ r_height (f r) = r_height r) ->
  bound_ok l so -> bound_ok (upd_res id f l) so.
Proof using f_id.
  intros G [B1 B2]. assert (X : forall i r, find_res i l = Some r -> exists r', find_res i (upd_res id f l) = Some r' /\
    r_width r' = r_width r /\ r_height r' = r_height r).
  { intros i r Hr. destruct (Z.eq_dec i id) as [->|Hne].
    - exists (f r). rewrite find_upd_eq, Hr. split; [done|apply G].
    - exists r. by rewrite find_upd_ne. }
  split.
  - intros H. destruct (B1 H) as (r & Hr & V). destruct (X _ _ Hr) as (r' & Hr' & W & Hh). exists r'. split; [done|].
    unfold view_ok in *. by rewrite W, Hh.
  - intros H. destruct (B2 H) as (r & Hr). destruct (X _ _ Hr) as (r' & Hr' & _). by exists r'.
Qed.
End Upd.

Lemma find_del_ne id id' l : id' <> id -> find_res id' (del_res id l) = find_res id' l.
Proof.
  intros Hne. induction l as [|r l IH]; [done|]. cbn [del_res]. rewrite find_res_cons.
  destruct (Z.eqb_spec (resource_id r) id) as [Hid|Hid].
  - destruct (Z.eqb_spec (resource_id r) id'); [congruence|done].
  - rewrite find_res_cons, IH. done.
Qed.
Lemma Forall_del {P : vgpu_sw_resource_2d -> Prop} id l : Forall P l -> Forall P (del_res id l).
Proof.
  intros F. induction l as [|r l IH]; [done|]. apply Forall_cons in F as [F1 F2]. cbn [del_res].
  case_match; [done|]. constructor; auto.
Qed.
Lemma ids_del id l : NoDup (resource_id <$> l) -> NoDup (resource_id <$> del_res id l).
Proof.
  intros N. induction l as [|r l IH]; [done|]. cbn in N. apply NoDup_cons in N as [N1 N2]. cbn [del_res].
  destruct (resource_id r =? id); [done|]. cbn. apply NoDup_cons. split; [|by apply IH]. intros H. apply N1.
  clear -H. induction l as [|x l IH]; [done|]. cbn [del_res] in H. destruct (resource_id x =? id); [by right|].
  cbn in H. apply elem_of_cons in H as [->|H]; [by left|right; by apply IH].
Qed.
Lemma total_del id l r : find_res id l = Some r -> total_size (del_res id l) = total_size l - image_size r.
Proof.
  unfold total_size. induction l as [|x l IH]; [done|]. rewrite find_res_cons. cbn [del_res].
  destruct (resource_id x =? id); [intros [= ->]; cbn; lia|]. intros H. cbn. rewrite IH by done. lia.
Qed.
Lemma total_nonneg l : Forall res_ok l -> 0 <= total_size l.
Proof.
  unfold total_size. induction 1 as [|r l H _ IH]; [done|]. cbn.
  destruct H as [_ W Hh _ [S _] [I _] _ _]. nia.
Qed.
Lemma total_find l r id : Forall res_ok l -> find_res id l = Some r -> image_size r <= total_size l.
Proof.
  intros F H. pose proof (total_del id l r H). pose proof (total_nonneg (del_res id l) (Forall_del id l F)). lia.
Qed.

(** ** Reading guest memory *)

Section Transfer.
Context {E : Type} `{HostE : GpuHost E}.
Abbreviation M := (machine (gpu_dev E)).
Implicit Types s : M.

Definition ram_bytes s (off n : Z) : list Z := fst (dma_read off (Z.to_nat n) s).
Definition vec_bytes s (v : backing_iov) : list Z :=
  match biov_base v with Some b => ram_bytes s b (biov_len v) | None => [] end.

(** The backing of a resource as one byte stream. *)
Definition backing_stream s (iov : list backing_iov) : list Z := mjoin (vec_bytes s <$> iov).

Lemma length_ram_bytes s off n : 0 <= n -> Z.of_nat (length (ram_bytes s off n)) = n.
Proof. intros Hn. unfold ram_bytes, dma_read. cbn [fst]. rewrite length_fmap, length_seq. lia. Qed.

Lemma ram_bytes_sub s off n o m : 0 <= o -> 0 <= m -> o + m <= n ->
  take (Z.to_nat m) (drop (Z.to_nat o) (ram_bytes s off n)) = ram_bytes s (off + o) m.
Proof.
  intros Ho Hm Hs. unfold ram_bytes, dma_read. cbn [fst]. rewrite skipn_map, firstn_map.
  rewrite drop_seq, take_seq. rewrite Nat.min_l by lia. cbn [plus].
  apply list_eq. intros i. rewrite !list_lookup_fmap. destruct (decide (i < Z.to_nat m)%nat) as [Hi|Hi].
  - rewrite !lookup_seq_lt by done. cbn. f_equal. f_equal. lia.
  - rewrite !lookup_seq_ge by lia. done.
Qed.

Lemma length_stream s iov : Forall biov_ok iov ->
  Z.of_nat (length (backing_stream s iov)) = sumZ (biov_len <$> iov).
Proof.
  unfold backing_stream. induction 1 as [|v iov (b & Eb & B1 & B2 & B3) _ IH]; [done|]. cbn.
  rewrite length_app, Nat2Z.inj_add. f_equal; [|exact IH]. unfold vec_bytes. rewrite Eb. by apply length_ram_bytes.
Qed.

(** The gathering copy reads the stream, and only guest RAM. *)
Lemma iov_gather_spec iov s : Forall biov_ok iov -> forall offset bytes, 0 <= offset -> 0 < bytes ->
  iov_gather iov offset bytes s = (take (Z.to_nat bytes) (drop (Z.to_nat offset) (backing_stream s iov)), s).
Proof.
  induction 1 as [|v iov (b & Eb & B1 & B2 & B3) F IH]; intros offset bytes Ho Hb.
  { cbn. by rewrite drop_nil, take_nil. }
  assert (Ls : Z.of_nat (length (vec_bytes s v)) = biov_len v) by (unfold vec_bytes; rewrite Eb; by apply length_ram_bytes).
  change (backing_stream s (v :: iov)) with (vec_bytes s v ++ backing_stream s iov). cbn [iov_gather].
  destruct (Z.eqb_spec (biov_len v) 0) as [E0|E0].
  { rewrite IH by done. destruct (vec_bytes s v); [done|]. cbn in Ls. lia. }
  rewrite Eb. destruct (Z.ltb_spec offset (biov_len v)) as [Hl|Hl].
  2:{ rewrite IH by lia. rewrite drop_app_ge by lia. repeat f_equal. lia. }
  rewrite drop_app_le by lia. set (n := if bytes <? biov_len v - offset then bytes else biov_len v - offset).
  assert (Hn : 0 <= n /\ n = Z.min bytes (biov_len v - offset)) by (unfold n; destruct (Z.ltb_spec bytes (biov_len v - offset)); lia).
  clearbody n. assert (T : dma_read (b + offset) (Z.to_nat n) s = (ram_bytes s (b + offset) n, s)).
  { unfold ram_bytes, dma_read. cbn [fst]. f_equal. apply dma_touch_in_ram, in_ram_iff. lia. }
  rewrite T. assert (C : ram_bytes s (b + offset) n = take (Z.to_nat n) (drop (Z.to_nat offset) (vec_bytes s v))).
  { unfold vec_bytes. rewrite Eb, ram_bytes_sub by lia. done. }
  rewrite C. destruct (Z.leb_spec bytes n) as [Hle|Hle].
  - rewrite take_app_le by (rewrite length_drop; lia). f_equal. f_equal. lia.
  - rewrite IH by lia. rewrite drop_0. rewrite take_app_ge by (rewrite length_drop; lia).
    rewrite (take_ge (drop _ _)) by (rewrite length_drop; lia). rewrite length_drop. repeat f_equal. lia.
Qed.

(** *** Host buffers *)

Lemma in_buf_iff off n (buf : list Z) : in_buf off n buf = true <-> 0 <= off /\ off + n <= Z.of_nat (length buf).
Proof. unfold in_buf. rewrite andb_true_iff, !Z.leb_le. done. Qed.

Lemma length_buf_write off bytes (buf : list Z) : 0 <= off -> off + Z.of_nat (length bytes) <= Z.of_nat (length buf) ->
  length (buf_write off bytes buf) = length buf.
Proof. intros H1 H2. unfold buf_write. rewrite !length_app, length_take, length_drop. lia. Qed.

Lemma buf_write_get off bytes (buf : list Z) k : 0 <= off -> off + Z.of_nat (length bytes) <= Z.of_nat (length buf) ->
  0 <= k ->
  arr_get 0 (buf_write off bytes buf) k =
  if (off <=? k) && (k <? off + Z.of_nat (length bytes)) then arr_get 0 bytes (k - off) else arr_get 0 buf k.
Proof.
  intros H1 H2 Hk. unfold buf_write, arr_get.
  destruct (Z.leb_spec off k) as [Hl|Hl]; cbn [andb].
  - rewrite lookup_app_r by (rewrite length_take; lia). rewrite length_take, Nat.min_l by lia.
    replace (Z.to_nat k - Z.to_nat off)%nat with (Z.to_nat (k - off)) by lia.
    destruct (Z.ltb_spec k (off + Z.of_nat (length bytes))).
    + rewrite lookup_app_l by lia. done.
    + rewrite lookup_app_r by lia. rewrite lookup_drop. do 2 f_equal. lia.
  - rewrite lookup_app_l by (rewrite length_take; lia). by rewrite lookup_take_lt by lia.
Qed.

Lemma buf_read_get off n (buf : list Z) k : 0 <= off -> 0 <= k < n ->
  arr_get 0 (buf_read off n buf) k = arr_get 0 buf (off + k).
Proof.
  intros H1 Hk. unfold buf_read, arr_get. rewrite lookup_take_lt by lia. rewrite lookup_drop. do 2 f_equal. lia.
Qed.

Lemma length_buf_read off n (buf : list Z) : 0 <= off -> 0 <= n -> off + n <= Z.of_nat (length buf) ->
  Z.of_nat (length (buf_read off n buf)) = n.
Proof. intros. unfold buf_read. rewrite length_take, length_drop. lia. Qed.

(** *** One copy into the image *)

Definition blit (dest : Z) (bytes : list Z) (r : vgpu_sw_resource_2d) : vgpu_sw_resource_2d :=
  r <| image := buf_write dest bytes (image r) |>.

Lemma on_res_on_res id f g s : (forall r, resource_id (f r) = resource_id r) ->
  on_res id g (on_res id f s) = on_res id (fun r => g (f r)) s.
Proof.
  intros Hf. unfold on_res, on_gdev. cbn [dev setter set_dev].
  assert (X : forall l, upd_res id g (upd_res id f l) = upd_res id (fun r => g (f r)) l).
  { induction l as [|r l IH]; [done|]. cbn [upd_res]. destruct (resource_id r =? id) eqn:Hid; cbn [upd_res].
    - by rewrite Hf, Hid.
    - by rewrite Hid, IH. }
  destruct s as [h p m rp oo bc sj d]. destruct d. cbn. by rewrite X.
Qed.

Lemma copy_to_image_spec id iov src dest total res s :
  vgpu_sw_get_resource_2d id s = Some res -> Forall biov_ok iov -> page_cnt res = Z.of_nat (length iov) ->
  0 <= src -> 0 < total -> src + total <= Z.of_nat (length (backing_stream s iov)) ->
  0 <= dest -> dest + total <= Z.of_nat (length (image res)) ->
  copy_to_image id iov src dest total s = (true, on_res id (blit dest (buf_read src total (backing_stream s iov))) s).
Proof.
  intros Hr F Pc Hs Ht Hst Hd Hdt. unfold copy_to_image. rewrite Hr. unfold vgpu_sw_iov_to_buf.
  destruct (Z.eqb_spec total 0); [lia|]. rewrite Pc, Nat2Z.id, take_ge by done. rewrite iov_gather_spec by done.
  fold (buf_read src total (backing_stream s iov)).
  pose proof (length_buf_read src total (backing_stream s iov) Hs ltac:(lia) Hst) as L. rewrite L, Z.eqb_refl.
  rewrite (proj2 (in_buf_iff dest total (image res))) by lia. done.
Qed.

(** *** A transfer *)

(** The destination rectangle is inside the resource, the source inside the
    backing. *)
Record transfer_ok (r : virtio_gpu_rect) (offset : Z) (res : vgpu_sw_resource_2d) (iov : list backing_iov) s : Prop := {
  to_res : res_ok res;
  to_iov : r_iovec res = Some iov;
  to_rect : 0 <= rc_x r /\ 0 <= rc_y r /\ 0 < rc_width r /\ 0 < rc_height r /\
    rc_x r + rc_width r <= r_width res /\ rc_y r + rc_height r <= r_height res;
  to_source : 0 <= offset /\
    offset + r_stride res * (rc_height r - 1) + 4 * rc_width r <= Z.of_nat (length (backing_stream s iov)) < 2 ^ 64 }.

(** Pixel data of byte [k] of the image after the transfer. *)
Definition transferred (r : virtio_gpu_rect) (offset stride : Z) (stream img : list Z) (k : Z) : Z :=
  let row := k / stride in let col := k mod stride in
  if (rc_y r <=? row) && (row <? rc_y r + rc_height r) && (4 * rc_x r <=? col) && (col <? 4 * (rc_x r + rc_width r))
  then arr_get 0 stream (offset + (row - rc_y r) * stride + (col - 4 * rc_x r))
  else arr_get 0 img k.

Lemma rect_fits_spec w h r : 0 <= rc_x r -> 0 <= rc_y r -> 0 <= rc_width r -> 0 <= rc_height r ->
  vgpu_sw_rect_fits w h r = true ->
  0 < rc_width r /\ 0 < rc_height r /\ rc_x r + rc_width r <= w /\ rc_y r + rc_height r <= h.
Proof.
  intros H1 H2 H3 H4. unfold vgpu_sw_rect_fits. case_match eqn:A; [done|]. case_match eqn:B; [done|].
  rewrite orb_false_iff in A, B. rewrite !Z.eqb_neq in A. rewrite !Z.leb_gt in B.
  rewrite andb_true_iff, !Z.leb_le. lia.
Qed.

Lemma u64_add_spec a b x : 0 <= a < 2 ^ 64 -> 0 <= b < 2 ^ 64 -> vgpu_sw_u64_add_overflow a b = Some x ->
  x = a + b /\ a + b < 2 ^ 64.
Proof.
  intros Ha Hb. unfold vgpu_sw_u64_add_overflow, wrap64. case_match eqn:C; [done|]. intros [= <-].
  rewrite Z.ltb_ge in C. Z.div_mod_to_equations. lia.
Qed.

Lemma u64_mul_spec a b x : 0 <= a < 2 ^ 64 -> 0 <= b < 2 ^ 64 -> vgpu_sw_u64_mul_overflow a b = Some x ->
  x = a * b /\ a * b < 2 ^ 64.
Proof.
  intros Ha Hb. unfold vgpu_sw_u64_mul_overflow, wrap64. destruct (Z.eqb_spec a 0) as [->|Hz]; cbn [negb andb].
  - intros [= <-]. by rewrite Z.mul_0_l.
  - case_match eqn:C; [done|]. intros [= <-]. rewrite Z.ltb_ge in C.
    assert (a * b <= 2 ^ 64 - 1).
    { etransitivity; [apply Z.mul_le_mono_nonneg_l; [lia|exact C]|]. apply Z.mul_div_le. lia. }
    rewrite Z.mod_small by nia. split; [done|lia].
Qed.

Lemma backing_total_spec iov : Forall biov_ok iov -> forall acc x, 0 <= acc < 2 ^ 64 ->
  backing_total iov acc = Some x -> x = acc + sumZ (biov_len <$> iov) /\ x < 2 ^ 64.
Proof.
  induction 1 as [|v iov (b & Eb & B1 & B2 & B3) _ IH]; intros acc x Ha; cbn.
  - intros [= <-]. lia.
  - destruct (vgpu_sw_u64_add_overflow acc (biov_len v)) as [y|] eqn:A; [|done]. cbn.
    unfold RAM_SIZE in B3. apply u64_add_spec in A as [-> A]; [|lia|lia]. intros H.
    apply IH in H; [|lia]. destruct H as [H1 H2]. cbn in H1. lia.
Qed.

Lemma source_fits_spec r offset res iov s : res_ok res -> r_iovec res = Some iov ->
  is_u32 (rc_x r) -> is_u32 (rc_y r) -> is_u32 (rc_width r) -> is_u32 (rc_height r) -> 0 <= offset < 2 ^ 64 ->
  vgpu_sw_rect_fits (r_width res) (r_height res) r = true -> vgpu_sw_transfer_source_fits r offset res iov = true ->
  transfer_ok r offset res iov s.
Proof.
  intros Hres Hiov Hx Hy Hw Hh Ho Hfit. unfold is_u32 in *.
  destruct (rect_fits_spec _ _ r ltac:(lia) ltac:(lia) ltac:(lia) ltac:(lia) Hfit) as (W & Hp & X & Y).
  pose proof Hres as [_ Rw Rh Rb [Rs Rs'] _ _ Ri]. rewrite Hiov in Ri. destruct Ri as [Pc F].
  unfold vgpu_sw_transfer_source_fits, transfer_source_end. rewrite Rb. change (32 / 8) with 4.
  destruct (Z.eqb_spec (rc_height r) 0); [lia|].
  destruct (vgpu_sw_u64_mul_overflow (rc_width r) 4) as [rb|] eqn:E1; cbn [mbind option_bind]; [|done].
  apply u64_mul_spec in E1 as [-> _]; [|lia|lia]. destruct (Z.eqb_spec (rc_width r * 4) 0); [lia|].
  rewrite (u32_id (rc_height r - 1)) by (unfold is_u32; lia).
  destruct (vgpu_sw_u64_mul_overflow (r_stride res) (rc_height r - 1)) as [lr|] eqn:E2; cbn [mbind option_bind]; [|done].
  apply u64_mul_spec in E2 as [-> E2]; [|lia|lia].
  destruct (vgpu_sw_u64_add_overflow offset _) as [lo|] eqn:E3; cbn [mbind option_bind]; [|done].
  apply u64_add_spec in E3 as [-> E3]; [|lia|split; [nia|lia]].
  destruct (vgpu_sw_u64_add_overflow (offset + _) _) as [eo|] eqn:E4; cbn [mbind option_bind]; [|done].
  apply u64_add_spec in E4 as [-> E4]; [|split; [nia|lia]|lia].
  destruct (vgpu_sw_u64_mul_overflow (r_stride res) (rc_height r)) as [rs|] eqn:E5; cbn [mbind option_bind]; [|done].
  apply u64_mul_spec in E5 as [-> E5]; [|lia|lia].
  rewrite Pc, Nat2Z.id, take_ge by done.
  destruct (backing_total iov 0) as [bs|] eqn:E6; cbn [mbind option_bind]; [|done].
  apply backing_total_spec in E6 as [-> E6]; [|done|lia].
  set (req := if rc_width r * 4 =? r_stride res then r_stride res * rc_height r
              else offset + r_stride res * (rc_height r - 1) + rc_width r * 4 - offset).
  assert (Hreq : req = r_stride res * (rc_height r - 1) + rc_width r * 4).
  { unfold req. destruct (Z.eqb_spec (rc_width r * 4) (r_stride res)); [|lia]. nia. }
  clearbody req. destruct (vgpu_sw_u64_add_overflow offset req) as [be|] eqn:E7; [|done].
  assert (Hrange : 0 <= req < 2 ^ 64) by nia. apply u64_add_spec in E7 as [-> E7]; [|lia|done].
  intros Hle%Z.leb_le. constructor; try done; [lia|]. rewrite length_stream by done. lia.
Qed.

(** The image after copying [n] rows from row [h] of the rectangle on. *)
Fixpoint rows_img (n : nat) (h : Z) (r : virtio_gpu_rect) (offset stride : Z) (stream img : list Z) : list Z :=
  match n with
  | O => img
  | S n => rows_img n (h + 1) r offset stride stream
             (buf_write ((rc_y r + h) * stride + rc_x r * 4) (buf_read (offset + stride * h) (rc_width r * 4) stream) img)
  end.

Definition with_image (f : list Z -> list Z) (r : vgpu_sw_resource_2d) : vgpu_sw_resource_2d :=
  r <| image := f (image r) |>.

Lemma backing_stream_ram s s' iov : ram s' = ram s -> backing_stream s' iov = backing_stream s iov.
Proof.
  intros R. unfold backing_stream. f_equal. apply list_fmap_ext. intros i v _. unfold vec_bytes.
  destruct (biov_base v); [|done]. unfold ram_bytes, dma_read. cbn [fst]. apply list_fmap_ext. intros j k _.
  unfold rd8, rd32. by rewrite R.
Qed.

Lemma get_on_res id f s : (forall r, resource_id (f r) = resource_id r) ->
  vgpu_sw_get_resource_2d id (on_res id f s) = f <$> vgpu_sw_get_resource_2d id s.
Proof. intros Hf. unfold vgpu_sw_get_resource_2d, on_res, on_gdev. cbn. by apply find_upd_eq. Qed.

Lemma wrap64_id x : 0 <= x < 2 ^ 64 -> wrap64 x = x.
Proof. apply Z.mod_small. Qed.

Section Rows.
Context (r : virtio_gpu_rect) (offset : Z) (res : vgpu_sw_resource_2d) (iov : list backing_iov) (s0 : M).
Context (Ht : transfer_ok r offset res iov s0).

(** The [j]-th row: source and destination. *)
Lemma row_bounds j : 0 <= j < rc_height r ->
  0 <= offset + r_stride res * j /\
  offset + r_stride res * j + rc_width r * 4 <= Z.of_nat (length (backing_stream s0 iov)) /\
  0 <= (rc_y r + j) * r_stride res + rc_x r * 4 /\
  (rc_y r + j) * r_stride res + rc_x r * 4 + rc_width r * 4 <= image_size res /\
  (rc_y r + j) * r_stride res + rc_x r * 4 < 2 ^ 64.
Proof using Ht.
  intros Hj. destruct Ht as [[_ Rw Rh _ [Rs Rs'] [Sz Sz'] _ _] _ (X0 & Y0 & W & H & X & Y) (O1 & O2 & O3)].
  assert (A1 : 0 <= r_stride res * j) by (apply Z.mul_nonneg_nonneg; lia).
  assert (A2 : r_stride res * j <= r_stride res * (rc_height r - 1)) by (apply Z.mul_le_mono_nonneg_l; lia).
  assert (A3 : 0 <= (rc_y r + j) * r_stride res) by (apply Z.mul_nonneg_nonneg; lia).
  assert (A4 : (rc_y r + j + 1) * r_stride res <= r_height res * r_stride res) by (apply Z.mul_le_mono_nonneg_r; lia).
  unfold VGPU_SW_MAX_HOSTMEM in *. lia.
Qed.

Lemma copy_rows_spec n : forall h s res', 0 <= h -> h + Z.of_nat n <= rc_height r ->
  ram s = ram s0 -> vgpu_sw_get_resource_2d (resource_id res) s = Some res' ->
  page_cnt res' = Z.of_nat (length iov) -> Z.of_nat (length (image res')) = image_size res ->
  copy_rows n h (resource_id res) iov r offset (r_stride res) 4 s =
  (true, on_res (resource_id res) (with_image (rows_img n h r offset (r_stride res) (backing_stream s0 iov))) s).
Proof using Ht.
  induction n as [|n IH]; intros h s res' Hh Hn R G P L.
  { cbn [copy_rows]. f_equal. unfold on_res, on_gdev, with_image. cbn [rows_img].
    assert (X : forall l, upd_res (resource_id res) (fun r0 => r0 <| image := image r0 |>) l = l).
    { induction l as [|x l IH]; [done|]. cbn [upd_res]. rewrite IH. case_match; [by destruct x|done]. }
    destruct s as [hh pp m rp oo bc sj d]. destruct d. cbn. by rewrite X. }
  cbn [copy_rows]. destruct (row_bounds h ltac:(lia)) as (B1 & B2 & B3 & B4 & B5).
  pose proof Ht as [[_ Rw Rh _ [Rs Rs'] [Sz Sz'] _ Ri] Hi (X0 & Y0 & W & H & X & Y) (O1 & O2 & O3)].
  rewrite Hi in Ri. destruct Ri as [_ F].
  assert (0 <= r_stride res * h < 2 ^ 64 /\ 0 <= (rc_y r + h) * r_stride res < 2 ^ 64) as [Q1 Q2].
  { assert (0 <= r_stride res * h) by (apply Z.mul_nonneg_nonneg; lia).
    assert (0 <= (rc_y r + h) * r_stride res) by (apply Z.mul_nonneg_nonneg; lia). lia. }
  rewrite (wrap64_id (r_stride res * h)), (wrap64_id (offset + r_stride res * h)), (wrap64_id (rc_y r + h)),
    (wrap64_id ((rc_y r + h) * r_stride res)), (wrap64_id (rc_x r * 4)), (wrap64_id (rc_width r * 4)),
    (wrap64_id ((rc_y r + h) * r_stride res + rc_x r * 4)) by lia.
  rewrite <- (backing_stream_ram s0 s iov) in B2 by done.
  rewrite (copy_to_image_spec _ _ _ _ _ res' s) by (done || lia). rewrite (backing_stream_ram s0 s iov) in * by done.
  set (bytes := buf_read (offset + r_stride res * h) (rc_width r * 4) (backing_stream s0 iov)).
  assert (Lb : Z.of_nat (length bytes) = rc_width r * 4) by (apply length_buf_read; lia).
  rewrite (IH (h + 1) _ (blit ((rc_y r + h) * r_stride res + rc_x r * 4) bytes res')); [|lia|lia|done| |done|].
  - rewrite on_res_on_res by done. reflexivity.
  - rewrite get_on_res by done. by rewrite G.
  - rewrite <- L. f_equal. apply length_buf_write; lia.
Qed.

(** Position [k] lies in row [j] of the rectangle. *)
Lemma in_row j k : 0 <= j < rc_height r -> 0 <= k ->
  ((rc_y r + j) * r_stride res + rc_x r * 4 <= k < (rc_y r + j) * r_stride res + rc_x r * 4 + rc_width r * 4 <->
   k / r_stride res = rc_y r + j /\ 4 * rc_x r <= k mod r_stride res < 4 * (rc_x r + rc_width r)).
Proof using Ht.
  intros Hj Hk. destruct Ht as [[_ Rw Rh _ [Rs Rs'] [Sz Sz'] _ _] _ (X0 & Y0 & W & H & X & Y) _].
  pose proof (Z.div_mod k (r_stride res) ltac:(lia)) as D. pose proof (Z.mod_pos_bound k (r_stride res) ltac:(lia)) as B.
  set (q := k / r_stride res) in *. set (m := k mod r_stride res) in *. clearbody q m.
  split.
  - intros Hr. assert (Hq : q = rc_y r + j).
    { assert (A : (rc_y r + j) * r_stride res < (q + 1) * r_stride res) by lia.
      assert (A' : q * r_stride res < (rc_y r + j + 1) * r_stride res) by lia.
      apply Z.mul_lt_mono_pos_r in A; [|lia]. apply Z.mul_lt_mono_pos_r in A'; [|lia]. lia. }
    split; [done|]. rewrite Hq in D. lia.
  - intros [-> Hm]. lia.
Qed.

Lemma rows_img_spec n : forall h img, 0 <= h -> h + Z.of_nat n <= rc_height r ->
  Z.of_nat (length img) = image_size res ->
  let img' := rows_img n h r offset (r_stride res) (backing_stream s0 iov) img in
  length img' = length img /\ forall k, 0 <= k ->
  arr_get 0 img' k =
  if (rc_y r + h <=? k / r_stride res) && (k / r_stride res <? rc_y r + h + Z.of_nat n) &&
     (4 * rc_x r <=? k mod r_stride res) && (k mod r_stride res <? 4 * (rc_x r + rc_width r))
  then arr_get 0 (backing_stream s0 iov)
         (offset + (k / r_stride res - rc_y r) * r_stride res + (k mod r_stride res - 4 * rc_x r))
  else arr_get 0 img k.
Proof using Ht.
  induction n as [|n IH]; intros h img Hh Hn L; cbn [rows_img].
  { split; [done|]. intros k Hk. destruct (Z.leb_spec (rc_y r + h) (k / r_stride res)); [|done].
    destruct (Z.ltb_spec (k / r_stride res) (rc_y r + h + Z.of_nat 0)); [lia|done]. }
  destruct (row_bounds h ltac:(lia)) as (B1 & B2 & B3 & B4 & B5).
  pose proof Ht as [_ _ (X0 & Y0 & W & H & X & Y) _].
  set (dest := (rc_y r + h) * r_stride res + rc_x r * 4) in *.
  set (bytes := buf_read (offset + r_stride res * h) (rc_width r * 4) (backing_stream s0 iov)).
  assert (Lb : Z.of_nat (length bytes) = rc_width r * 4) by (apply length_buf_read; lia).
  assert (Lw : length (buf_write dest bytes img) = length img) by (apply length_buf_write; lia).
  destruct (IH (h + 1) (buf_write dest bytes img)) as [L' G]; [lia|lia|lia|]. cbv zeta. split; [congruence|].
  intros k Hk. rewrite G by done. rewrite buf_write_get by lia. rewrite Lb.
  pose proof (in_row h k ltac:(lia) Hk) as R. fold dest in R.
  set (row := k / r_stride res) in *. set (col := k mod r_stride res) in *.
  destruct (Z.leb_spec dest k), (Z.ltb_spec k (dest + rc_width r * 4)); cbn [andb].
  1:{ destruct (proj1 R) as [R1 R2]; [lia|]. rewrite R1 in *.
      destruct (Z.leb_spec (rc_y r + (h + 1)) (rc_y r + h)); [lia|]. cbn [andb].
      rewrite (proj2 (Z.leb_le (rc_y r + h) (rc_y r + h))), (proj2 (Z.ltb_lt _ (rc_y r + h + Z.of_nat (S n)))) by lia.
      rewrite (proj2 (Z.leb_le _ col)), (proj2 (Z.ltb_lt col _)) by lia. cbn [andb].
      unfold bytes. rewrite buf_read_get by lia. f_equal. unfold dest.
      assert (Ek : k = (rc_y r + h) * r_stride res + col).
      { unfold row, col in *. rewrite <- R1. destruct Ht as [[_ Rw _ _ [Rs _] _ _ _] _ _ _].
        rewrite (Z.div_mod k (r_stride res)) at 1 by lia. lia. }
      lia. }
  all: assert (NR : ~ (row = rc_y r + h /\ 4 * rc_x r <= col < 4 * (rc_x r + rc_width r))) by (rewrite <- R; lia).
  all: destruct (Z.leb_spec (4 * rc_x r) col), (Z.ltb_spec col (4 * (rc_x r + rc_width r)));
    rewrite ?andb_false_r, ?andb_true_r; cbn [andb]; try done.
  all: destruct (Z.leb_spec (rc_y r + (h + 1)) row), (Z.leb_spec (rc_y r + h) row),
    (Z.ltb_spec row (rc_y r + (h + 1) + Z.of_nat n)), (Z.ltb_spec row (rc_y r + h + Z.of_nat (S n))); cbn [andb];
    done || lia.
Qed.

(** Both paths of the copy, the contiguous one and the loop over rows, store the
    same bytes. *)
Lemma copy_image_spec : vgpu_sw_get_resource_2d (resource_id res) s0 = Some res ->
  exists f, vgpu_sw_copy_image_from_pages r offset res iov s0 = (true, on_res (resource_id res) (with_image f) s0) /\
    length (f (image res)) = length (image res) /\
    forall k, 0 <= k -> arr_get 0 (f (image res)) k =
      transferred r offset (r_stride res) (backing_stream s0 iov) (image res) k.
Proof using Ht.
  intros G. pose proof Ht as [Rok Hi (X0 & Y0 & W & H & X & Y) (O1 & O2 & O3)].
  pose proof Rok as [_ Rw Rh Rb [Rs Rs'] [Sz Sz'] Li Ri]. rewrite Hi in Ri. destruct Ri as [Pc F].
  unfold vgpu_sw_copy_image_from_pages. rewrite Rb. change (32 / 8) with 4. rewrite (wrap64_id (rc_width r * 4)) by lia.
  destruct (Z.eqb_spec (rc_x r) 0) as [Ex|Ex]; cbn [andb].
  2:{ rewrite (copy_rows_spec _ 0 s0 res) by (done || lia).
      eexists. split; [reflexivity|]. destruct (rows_img_spec (Z.to_nat (rc_height r)) 0 (image res)) as [L1 L2]; [lia|lia|done|].
      split; [done|]. intros k Hk. rewrite L2 by done. unfold transferred. cbv zeta. rewrite Z.add_0_r, Z2Nat.id by lia. done. }
  destruct (Z.eqb_spec (rc_width r * 4) (r_stride res)) as [Ew|Ew].
  2:{ rewrite (copy_rows_spec _ 0 s0 res) by (done || lia).
      eexists. split; [reflexivity|]. destruct (rows_img_spec (Z.to_nat (rc_height r)) 0 (image res)) as [L1 L2]; [lia|lia|done|].
      split; [done|]. intros k Hk. rewrite L2 by done. unfold transferred. cbv zeta. rewrite Z.add_0_r, Z2Nat.id by lia. done. }
  assert (A1 : 0 <= rc_y r * r_stride res) by (apply Z.mul_nonneg_nonneg; lia).
  assert (A2 : 0 < r_stride res * rc_height r) by (apply Z.mul_pos_pos; lia).
  assert (A3 : (rc_y r + rc_height r) * r_stride res <= r_height res * r_stride res) by (apply Z.mul_le_mono_nonneg_r; lia).
  unfold VGPU_SW_MAX_HOSTMEM in *. rewrite (wrap64_id (rc_y r * _)), (wrap64_id (r_stride res * _)) by lia.
  rewrite (copy_to_image_spec _ _ _ _ _ res s0) by (done || lia).
  set (bytes := buf_read offset (r_stride res * rc_height r) (backing_stream s0 iov)).
  assert (Lb : Z.of_nat (length bytes) = r_stride res * rc_height r) by (apply length_buf_read; lia).
  exists (buf_write (rc_y r * r_stride res) bytes). split; [reflexivity|]. split; [apply length_buf_write; lia|].
  intros k Hk. rewrite buf_write_get by lia. rewrite Lb. unfold transferred. cbv zeta. rewrite Ex.
  pose proof (Z.div_mod k (r_stride res) ltac:(lia)) as D. pose proof (Z.mod_pos_bound k (r_stride res) ltac:(lia)) as B.
  set (row := k / r_stride res) in *. set (col := k mod r_stride res) in *.
  rewrite (proj2 (Z.leb_le (4 * 0) col)), (proj2 (Z.ltb_lt col (4 * (0 + rc_width r)))) by lia. rewrite !andb_true_r.
  assert (R1 : rc_y r * r_stride res <= k <-> rc_y r <= row).
  { split; intros Hr.
    - assert (Q : rc_y r * r_stride res < (row + 1) * r_stride res) by lia. apply Z.mul_lt_mono_pos_r in Q; lia.
    - assert (rc_y r * r_stride res <= row * r_stride res) by (apply Z.mul_le_mono_nonneg_r; lia). lia. }
  assert (R2 : k < rc_y r * r_stride res + r_stride res * rc_height r <-> row < rc_y r + rc_height r).
  { split; intros Hr.
    - assert (Q : row * r_stride res < (rc_y r + rc_height r) * r_stride res) by lia. apply Z.mul_lt_mono_pos_r in Q; lia.
    - assert ((row + 1) * r_stride res <= (rc_y r + rc_height r) * r_stride res) by (apply Z.mul_le_mono_nonneg_r; lia). lia. }
  destruct (Z.leb_spec (rc_y r * r_stride res) k), (Z.leb_spec (rc_y r) row); try lia; cbn [andb]; [|done].
  destruct (Z.ltb_spec k (rc_y r * r_stride res + r_stride res * rc_height r)), (Z.ltb_spec row (rc_y r + rc_height r));
    try lia.
  unfold bytes. rewrite buf_read_get by lia. f_equal. lia.
Qed.
End Rows.
End Transfer.
