(* ===== verification/GpuSafe.v ===== *)
(** * No guest access makes the GPU leave its buffers

    Every command handler, the queues and the register file preserve the invariant
    of [GpuProps]; and what the handlers store: a transfer writes exactly the
    rectangle, a snapshot is exactly the view. *)

From stdpp Require Import base gmap list.
From Stdlib Require Import ZArith Lia Bool.
From S2P Require Import Prelude Isa Hart Machine Tlb Loops Device Virtio VirtioProps DmaProps.
From S2P Require Import VgpuDisplay GpuDefs GpuEdid VirtioGpuSw VirtioGpu GpuProps.
Open Scope Z_scope.

Section Handlers.
Context {E : Type} `{HostE : GpuHost E}.
Abbreviation M := (machine (gpu_dev E)).
Implicit Types s : M.

(** The invariant with the virtqueues as they are: handlers do not touch them. *)
Definition qsafe (Q : list virtq_t) s : Prop := gpu_safe s /\ queues (vgpu (dev s)) = Q.

Section Q.
Context (Q : list virtq_t).

Lemma qs_mem s s' : qsafe Q s -> mem_step True s s' -> qsafe Q s'.
Proof. intros [H Hq] Hm. split; [by eapply safe_mem|]. by rewrite (ms_dev True s s' Hm). Qed.

Lemma qs_fail s : qsafe Q s -> qsafe Q (virtio_gpu_set_fail s).
Proof.
  intros [H Hq]. split; [by apply safe_fail|]. rewrite <- Hq. unfold virtio_gpu_set_fail, on_vgpu, on_gdev. cbn.
  unfold virtio_set_fail. cbv zeta. by case_match.
Qed.
Lemma qs_gpu_fail s : qsafe Q s -> qsafe Q (snd (gpu_fail s)).
Proof. apply qs_fail. Qed.
Lemma qs_disp f s : qsafe Q s -> qsafe Q (on_disp f s).
Proof. intros [H Hq]. split; [by apply safe_disp|done]. Qed.
Lemma qs_malloc n s : qsafe Q s -> qsafe Q (snd (g_malloc n s)).
Proof.
  intros [H Hq]. split; [by apply safe_malloc|]. unfold g_malloc.
  by destruct (gpu_malloc n (gpu_env (dev s))) as [ok e].
Qed.
Lemma qs_respond req rd type s : qsafe Q s -> qsafe Q (snd (respond req rd type s)).
Proof.
  intros H. unfold respond. pose proof (write_response_mem req rd type s) as W.
  destruct (virtio_gpu_write_ctrl_response req rd type s) as [plen s']. cbn [snd] in *.
  pose proof (qs_mem s s' H W). case_match; [by apply qs_fail|done].
Qed.
Lemma qs_gpu_request vq n s : 0 <= n < 2 ^ 32 -> qsafe Q s -> qsafe Q (snd (virtio_gpu_get_request vq n s)).
Proof. intros Hn H. eapply qs_mem; [done|]. apply get_request_spec; lia. Qed.
Lemma qs_with_response vq n body s : qsafe Q s -> 0 <= n < 2 ^ 32 ->
  (forall req rd s', qsafe Q s' -> qsafe Q (snd (body req rd s'))) ->
  qsafe Q (snd (with_response vq n body s)).
Proof.
  intros H Hn Hb. unfold with_response. case_match; [|by apply qs_gpu_fail].
  pose proof (qs_gpu_request vq n s Hn H) as G.
  destruct (virtio_gpu_get_request vq n s) as [[req|] s']; cbn [snd] in G; [by apply Hb|by apply qs_gpu_fail].
Qed.

(** A resource is changed in place. *)
Lemma qs_on_res id f s : qsafe Q s ->
  (forall r, resource_id (f r) = resource_id r /\ r_width (f r) = r_width r /\ r_height (f r) = r_height r /\
             image_size (f r) = image_size r) ->
  (forall r, vgpu_sw_get_resource_2d id s = Some r -> res_ok r -> res_ok (f r)) -> qsafe Q (on_res id f s).
Proof.
  intros [[R O H G [D1 D2 D3 [D4 D4'] D5 D6]] Hq] Hf Hok. split; [|done]. constructor; try done.
  assert (Fid : forall r, resource_id (f r) = resource_id r) by apply Hf.
  constructor; cbn [gpu_data res_list hostmem dev on_res on_gdev setter set_dev set_res_list]; try done.
  - cbn. apply Forall_upd; [done|]. intros r Hr. apply Hok; [done|].
    rewrite Forall_forall in D2. apply D2. by apply (find_res_Some id).
  - cbn. by rewrite ids_upd.
  - cbn. rewrite total_upd by apply Hf. done.
  - cbn. eapply Forall_impl; [done|]. intros so. apply bound_upd; [done|]. intros r. split; apply Hf.
Qed.

(** A scanout is rebound. *)
Lemma scanout_bound s i : gpu_safe s -> bound_ok (res_list (dev s)) (scanout_at s i).
Proof.
  intros [_ _ _ _ [_ _ _ _ D5 _]]. unfold scanout_at. by apply (arr_get_Forall (bound_ok (res_list (dev s)))).
Qed.
Lemma qs_upd_scanout i f s : qsafe Q s -> bound_ok (res_list (dev s)) (f (scanout_at s i)) ->
  (bound_to_any (f (scanout_at s i)) -> 0 <= i < g_num_scanouts s /\ so_enabled (f (scanout_at s i)) <> 0) ->
  qsafe Q (upd_scanout i f s).
Proof.
  intros [[R O H G [[D1 D1'] D2 D3 D4 D5 D6]] Hq] Hb Hl. split; [|done]. constructor; try done. constructor; try done.
  - split; [|done]. cbn. by rewrite length_arr_set.
  - cbn. by apply Forall_insert.
  - cbn. intros j so Hj Hs. unfold arr_set in Hj. destruct (decide (j = Z.to_nat i)) as [->|Hne].
    + rewrite list_lookup_insert_eq in Hj by (apply lookup_lt_Some in Hj; rewrite length_insert in Hj; lia).
      injection Hj as <-. destruct (Hl Hs). split; [|done]. unfold g_num_scanouts in *. lia.
    + rewrite list_lookup_insert_ne in Hj by done. by apply (D6 j).
Qed.

(** The scanouts of the state, by index. *)
Lemma scanout_at_upd i f s j : 0 <= i < 16 -> 0 <= j -> length (scanouts (gpu_data (dev s))) = 16%nat ->
  scanout_at (upd_scanout i f s) j = if j =? i then f (scanout_at s i) else scanout_at s j.
Proof.
  intros Hi Hj L. unfold scanout_at at 1. cbn. destruct (Z.eqb_spec j i) as [->|Hne].
  - apply arr_get_set_eq. lia.
  - apply arr_get_set_ne; [lia|lia|congruence].
Qed.

Lemma scanout_live s i : gpu_safe s -> 0 <= i -> bound_to_any (scanout_at s i) ->
  i < g_num_scanouts s /\ so_enabled (scanout_at s i) <> 0.
Proof.
  intros [_ _ _ _ [_ _ _ _ _ D6]] Hi. unfold scanout_at, arr_get, g_num_scanouts.
  destruct (scanouts (gpu_data (dev s)) !! Z.to_nat i) as [so|] eqn:Es; cbn; [|by intros [H|H]].
  intros Hb. destruct (D6 _ so Es Hb). lia.
Qed.

Lemma unbind_primary_ok l so : bound_ok l so -> bound_ok l (unbind_primary so).
Proof. intros [_ B2]. split; [intros H; by destruct (H eq_refl)|done]. Qed.
Lemma unbind_cursor_ok l so : bound_ok l so -> bound_ok l (unbind_cursor so).
Proof. intros [B1 B2]. split; [done|intros H; by destruct (H eq_refl)]. Qed.

Lemma qs_for n : forall i body s, (forall j s', qsafe Q s' -> qsafe Q (body j s')) -> qsafe Q s ->
  qsafe Q (for_scanouts n i body s).
Proof. induction n as [|n IH]; intros i body s Hb H; [done|]. cbn. apply IH; [done|]. by apply Hb. Qed.

(** *** Snapshots *)

Lemma view_of_resource r : res_ok r -> view_ok (mk_scanout 0 0 0 0 0 0 0 (r_width r) (r_height r)) r.
Proof. intros []. unfold view_ok. cbn. lia. Qed.

(** The pixels of a view: row by row. *)
Definition view_pixel (res : vgpu_sw_resource_2d) (sx sy w k : Z) : Z :=
  arr_get 0 (image res) ((sy + k / (4 * w)) * r_stride res + 4 * sx + k mod (4 * w)).

Lemma view_bounds res sx sy w h : res_ok res ->
  0 <= sx -> 0 <= sy -> 0 < w -> 0 < h -> sx + w <= r_width res -> sy + h <= r_height res ->
  0 <= sy * r_stride res /\ 0 <= sy * r_stride res + sx * 4 < 2 ^ 32 /\ 0 < w * 4 <= r_stride res /\
  0 < (w * 4) * h <= VGPU_SW_MAX_HOSTMEM /\
  sy * r_stride res + sx * 4 + (h - 1) * r_stride res + w * 4 <= image_size res.
Proof.
  intros [_ Rw Rh _ [Rs Rs'] [Sz Sz'] _ _] X Y W Hh XW YH.
  assert (A1 : 0 <= sy * r_stride res) by (apply Z.mul_nonneg_nonneg; lia).
  assert (A2 : (sy + h) * r_stride res <= r_height res * r_stride res) by (apply Z.mul_le_mono_nonneg_r; lia).
  assert (A3 : 0 < (w * 4) * h) by (apply Z.mul_pos_pos; lia).
  assert (A4 : (w * 4) * h <= r_stride res * h) by (apply Z.mul_le_mono_nonneg_r; lia).
  assert (A5 : r_stride res * 1 <= r_stride res * h) by (apply Z.mul_le_mono_nonneg_l; lia).
  unfold VGPU_SW_MAX_HOSTMEM in *. lia.
Qed.

Definition sel_view (res : vgpu_sw_resource_2d) (scanout : option virtio_gpu_scanout_info) : Z * Z * Z * Z :=
  match scanout with
  | Some so => (src_x so, src_y so, src_w so, src_h so)
  | None => (0, 0, r_width res, r_height res)
  end.
Definition snapshot (res : vgpu_sw_resource_2d) (sx sy w h : Z) : list Z :=
  if r_stride res =? w * 4 then buf_read (sy * r_stride res + sx * 4) (w * 4 * h) (image res)
  else snapshot_rows res (sy * r_stride res + sx * 4) (w * 4) h.

(** What [vgpu_sw_create_window_payload] does for a view inside the resource. *)
Lemma create_payload_spec res scanout sx sy w h s : res_ok res -> sel_view res scanout = (sx, sy, w, h) ->
  0 <= sx -> 0 <= sy -> 0 < w -> 0 < h -> sx + w <= r_width res -> sy + h <= r_height res ->
  vgpu_sw_create_window_payload res scanout s =
  let '(ok, s) := g_malloc (sizeof_payload + w * 4 * h) s in
  if ok then
    let '(ptr, d) := payload_new (mk_payload (r_format res) w h (w * 4) 32 (snapshot res sx sy w h)) (disp (dev s)) in
    (ptr, on_disp (fun _ => d) s)
  else (0, s).
Proof.
  intros Rok Sel X Y W Hh XW YH. destruct (view_bounds res sx sy w h Rok X Y W Hh XW YH) as (B0 & B1 & B2 & B3 & B4).
  pose proof Rok as [_ Rw Rh Rb [Rs Rs'] [Sz Sz'] Li _]. unfold VGPU_SW_MAX_HOSTMEM in *.
  unfold vgpu_sw_create_window_payload. fold (sel_view res scanout). rewrite Rb, Sel. cbn [orb negb].
  change (32 =? 0) with false. change (32 mod 8 =? 0) with true. cbn [orb negb]. change (32 / 8) with 4.
  destruct (Z.eqb_spec w 0); [lia|]. destruct (Z.eqb_spec h 0); [lia|]. cbn [orb].
  rewrite (wrap64_id (w * 4)), (wrap64_id (w * 4 * h)) by lia.
  replace (w * 4 / w) with 4 by (symmetry; rewrite Z.mul_comm; apply Z.div_mul; lia). cbn [Z.eqb Pos.eqb negb].
  change (4 =? 4) with true. cbn [negb]. destruct (Z.ltb_spec (2 ^ 32 - 1) (w * 4)); [lia|].
  destruct (Z.ltb_spec (r_stride res) (w * 4)); [lia|].
  rewrite Z.div_mul by lia. rewrite Z.eqb_refl. cbn [negb]. unfold sizeof_payload.
  rewrite (wrap64_id (32 + w * 4 * h)) by lia. destruct (Z.ltb_spec (32 + w * 4 * h) (w * 4 * h)); [lia|].
  destruct (g_malloc (32 + w * 4 * h) s) as [[|] s1]; cbn [negb]; [|done].
  rewrite (wrap64_id (sy * r_stride res)), (wrap64_id (sx * 4)), (wrap64_id (sy * r_stride res + sx * 4)) by lia.
  fold (snapshot res sx sy w h).
  rewrite (proj2 (in_buf_iff _ _ (image res))); [done|].
  split; [lia|]. rewrite Li. destruct (Z.eqb_spec (r_stride res) (w * 4)) as [Ee|Ee]; [|lia].
  rewrite Ee in *. lia.
Qed.

(** Rows of equal length, concatenated. *)
Lemma concat_rows (f : Z -> list Z) (L : Z) n : forall i k, 0 < L ->
  (forall y, i <= y < i + Z.of_nat n -> Z.of_nat (length (f y)) = L) -> 0 <= k < L * Z.of_nat n ->
  arr_get 0 (mjoin (f <$> seqZ i (Z.of_nat n))) k = arr_get 0 (f (i + k / L)) (k mod L).
Proof.
  induction n as [|n IH]; intros i k HL Hf Hk; [lia|].
  rewrite seqZ_cons by lia. replace (Z.pred (Z.of_nat (S n))) with (Z.of_nat n) by lia.
  rewrite fmap_cons. change (mjoin (?x :: ?l)) with (x ++ mjoin l).
  pose proof (Hf i ltac:(lia)) as Li. destruct (Z.lt_ge_cases k L) as [Hlt|Hge].
  - rewrite Z.div_small, Z.mod_small, Z.add_0_r by lia. unfold arr_get. rewrite lookup_app_l by lia. done.
  - transitivity (arr_get 0 (mjoin (f <$> seqZ (Z.succ i) (Z.of_nat n))) (k - L)).
    { unfold arr_get. rewrite lookup_app_r by lia. do 2 f_equal. lia. }
    rewrite (IH (Z.succ i) (k - L)); [|done|intros y Hy; apply Hf; lia|lia].
    replace (k / L) with (1 + (k - L) / L). 2:{ replace k with (k - L + 1 * L) at 2 by lia. rewrite Z.div_add by lia. lia. }
    replace (k mod L) with ((k - L) mod L). 2:{ replace k with (k - L + 1 * L) at 2 by lia. by rewrite Z.mod_add by lia. }
    do 2 f_equal. lia.
Qed.

Lemma length_concat_rows (f : Z -> list Z) (L : Z) n : forall i,
  (forall y, i <= y < i + Z.of_nat n -> Z.of_nat (length (f y)) = L) ->
  Z.of_nat (length (mjoin (f <$> seqZ i (Z.of_nat n)))) = L * Z.of_nat n.
Proof.
  induction n as [|n IH]; intros i Hf; [by rewrite Z.mul_0_r|].
  rewrite seqZ_cons by lia. replace (Z.pred (Z.of_nat (S n))) with (Z.of_nat n) by lia.
  rewrite fmap_cons. change (mjoin (?x :: ?l)) with (x ++ mjoin l).
  rewrite length_app, Nat2Z.inj_add, Hf by lia.
  rewrite (IH (Z.succ i)) by (intros y Hy; apply Hf; lia). lia.
Qed.

Lemma snapshot_spec res sx sy w h : res_ok res ->
  0 <= sx -> 0 <= sy -> 0 < w -> 0 < h -> sx + w <= r_width res -> sy + h <= r_height res ->
  Z.of_nat (length (snapshot res sx sy w h)) = 4 * w * h /\
  forall k, 0 <= k < 4 * w * h -> arr_get 0 (snapshot res sx sy w h) k = view_pixel res sx sy w k.
Proof.
  intros Rok X Y W Hh XW YH. destruct (view_bounds res sx sy w h Rok X Y W Hh XW YH) as (B0 & B1 & B2 & B3 & B4).
  pose proof Rok as [_ Rw Rh Rb [Rs Rs'] [Sz Sz'] Li _]. unfold snapshot, view_pixel.
  destruct (Z.eqb_spec (r_stride res) (w * 4)) as [Ee|Ee].
  - assert (sx = 0) by lia. subst sx. rewrite Ee in *. split.
    + rewrite length_buf_read; lia.
    + intros k Hk. rewrite buf_read_get by lia. f_equal. pose proof (Z.div_mod k (4 * w) ltac:(lia)). lia.
  - unfold snapshot_rows. set (f := fun y => buf_read (sy * r_stride res + sx * 4 + y * r_stride res) (w * 4) (image res)).
    assert (Lf : forall y, 0 <= y < 0 + h -> 0 <= sy * r_stride res + sx * 4 + y * r_stride res /\ Z.of_nat (length (f y)) = w * 4).
    { intros y Hy. assert (0 <= y * r_stride res) by (apply Z.mul_nonneg_nonneg; lia).
      assert (y * r_stride res <= (h - 1) * r_stride res) by (apply Z.mul_le_mono_nonneg_r; lia).
      split; [lia|]. unfold f. apply length_buf_read; lia. }
    rewrite <- (Z2Nat.id h) by lia. split.
    + rewrite (length_concat_rows f (w * 4)); [lia|]. rewrite Z2Nat.id by lia. intros y Hy. apply Lf. lia.
    + intros k Hk. rewrite (concat_rows f (w * 4)); [|lia| |lia].
      2:{ rewrite Z2Nat.id by lia. intros y Hy. apply Lf. lia. }
      assert (Hq : 0 <= k / (w * 4) < h).
      { split; [apply Z.div_pos; lia|]. apply Z.div_lt_upper_bound; [lia|]. rewrite Z2Nat.id in Hk by lia. lia. }
      pose proof (Z.mod_pos_bound k (w * 4) ltac:(lia)). rewrite Z.add_0_l. unfold f.
      rewrite buf_read_get; [|apply Lf; lia|lia]. rewrite (Z.mul_comm 4 w). f_equal. lia.
Qed.

(** *** The handlers *)

Lemma qs_payload res scanout s sx sy w h : qsafe Q s -> res_ok res -> sel_view res scanout = (sx, sy, w, h) ->
  0 <= sx -> 0 <= sy -> 0 < w -> 0 < h -> sx + w <= r_width res -> sy + h <= r_height res ->
  let s' := snd (vgpu_sw_create_window_payload res scanout s) in
  qsafe Q s' /\ res_list (dev s') = res_list (dev s) /\ gpu_data (dev s') = gpu_data (dev s).
Proof.
  intros H Rok Sel X Y W Hh XW YH. rewrite (create_payload_spec res scanout sx sy w h) by done.
  pose proof (qs_malloc (sizeof_payload + w * 4 * h) s H) as Hm.
  destruct (malloc_data (sizeof_payload + w * 4 * h) s) as (M1 & M2 & _).
  destruct (g_malloc (sizeof_payload + w * 4 * h) s) as [[|] s1]; cbn [snd] in *; [|done].
  destruct (payload_new _ _) as [ptr d]. cbn [snd]. split; [by apply qs_disp|]. done.
Qed.

Lemma find_app id l r : find_res id (l ++ [r]) =
  match find_res id l with Some x => Some x | None => if resource_id r =? id then Some r else None end.
Proof. induction l as [|x l IH]; [done|]. cbn [app]. rewrite !find_res_cons, IH. by destruct (resource_id x =? id). Qed.

Lemma find_None id l : find_res id l = None -> id ∉ resource_id <$> l.
Proof.
  intros H Hin. apply list_elem_of_fmap_1 in Hin as (r & -> & Hr). apply list_elem_of_In in Hr.
  pose proof (List.find_none _ _ H r Hr) as X. cbn in X. by rewrite Z.eqb_refl in X.
Qed.

(** A new resource. *)
Lemma qs_push s res : qsafe Q s -> res_ok res -> vgpu_sw_get_resource_2d (resource_id res) s = None ->
  hostmem (dev s) + image_size res <= VGPU_SW_MAX_HOSTMEM ->
  qsafe Q (on_gdev (fun d => d <| hostmem := wrap64 (hostmem d + image_size res) |> <| res_list := res_list d ++ [res] |>) s).
Proof.
  intros [[R O H G [D1 D2 D3 [D4 D4'] D5 D6]] Hq] Rok Hn Hm. split; [|done]. constructor; try done.
  assert (0 <= image_size res) by (destruct Rok as [_ _ _ _ _ _ <- _]; lia).
  pose proof (total_nonneg _ D2). constructor; cbn; try done.
  - apply Forall_app. by split; [|constructor].
  - rewrite fmap_app. apply NoDup_app. split; [done|]. split; [|apply NoDup_singleton].
    intros x Hx Hx'. apply list_elem_of_singleton in Hx'. subst x. by apply (find_None _ _ Hn).
  - unfold VGPU_SW_MAX_HOSTMEM in *. rewrite wrap64_id by lia. unfold total_size. rewrite fmap_app, sumZ_app. cbn.
    unfold total_size in D4. lia.
  - eapply Forall_impl; [done|]. intros so [B1 B2]. split.
    + intros Hp. destruct (B1 Hp) as (r & Hr & V). exists r. by rewrite find_app, Hr.
    + intros Hp. destruct (B2 Hp) as (r & Hr). exists r. by rewrite find_app, Hr.
Qed.

Lemma create_2d_safe vq s : qsafe Q s -> qsafe Q (snd (vgpu_sw_resource_create_2d_handler vq s)).
Proof.
  intros H. apply qs_with_response; [done|lia|]. clear s H. intros req rd s H. cbv beta zeta.
  destruct (Z.eqb_spec (fld32 s (req + 24)) 0) as [|Hid]; [by apply qs_respond|].
  destruct ((fld32 s (req + 32) =? 0) || (fld32 s (req + 36) =? 0)) eqn:Hz; [by apply qs_respond|].
  destruct (bool_decide (is_Some (vgpu_sw_get_resource_2d (fld32 s (req + 24)) s))) eqn:Hu; [by apply qs_respond|].
  apply bool_decide_eq_false in Hu. apply eq_None_not_Some in Hu.
  pose proof (fld32_u32 s (req + 24)) as U1. pose proof (fld32_u32 s (req + 32)) as U2. pose proof (fld32_u32 s (req + 36)) as U3.
  set (id := fld32 s (req + 24)) in *. set (format := fld32 s (req + 28)) in *. set (width := fld32 s (req + 32)) in *.
  set (height := fld32 s (req + 36)) in *. clearbody id format width height. unfold is_u32 in *.
  apply orb_false_iff in Hz as [Hw%Z.eqb_neq Hh%Z.eqb_neq].
  pose proof (qs_malloc sizeof_resource s H) as Hm. destruct (malloc_data sizeof_resource s) as (M1 & M2 & M3 & _).
  destruct (g_malloc sizeof_resource s) as [[|] s1]; cbn [snd negb] in *; [|by apply qs_gpu_fail].
  destruct (negb (bool_decide (format ∈ virtio_gpu_formats))); [by apply qs_respond|].
  assert (Es : wrap64 (Z.shiftr (wrap64 (width * 32 + 0x1f)) 5 * 4) = 4 * width).
  { rewrite (wrap64_id (width * 32 + 0x1f)) by lia. rewrite Z.shiftr_div_pow2 by lia. change (2 ^ 5) with 32.
    rewrite wrap64_id; Z.div_mod_to_equations; lia. }
  rewrite Es. destruct (Z.ltb_spec (2 ^ 32 - 1) (4 * width)) as [|Hst]; [by apply qs_respond|].
  destruct (nz height && negb (wrap64 (4 * width * height) / height =? 4 * width)); [by apply qs_respond|].
  assert (Ez : wrap64 (4 * width * height) = 4 * width * height) by (apply wrap64_id; nia). rewrite Ez.
  destruct ((VGPU_SW_MAX_HOSTMEM <? 4 * width * height) || (VGPU_SW_MAX_HOSTMEM - 4 * width * height <? hostmem (dev s1))) eqn:Hc;
    [by apply qs_respond|]. apply orb_false_iff in Hc as [Hc1%Z.ltb_ge Hc2%Z.ltb_ge].
  pose proof (qs_malloc (4 * width * height) s1 Hm) as Hm2.
  destruct (malloc_data (4 * width * height) s1) as (N1 & N2 & N3 & _).
  destruct (g_malloc (4 * width * height) s1) as [[|] s2]; cbn [snd negb] in *; [|by apply qs_gpu_fail].
  apply qs_respond.
  set (res := mk_res id format width height (4 * width) 32 (replicate (Z.to_nat (4 * width * height)) 0) (4 * width * height) 0 None).
  change (4 * width * height) with (image_size res) at 1. apply qs_push; [done| | |].
  - constructor; cbn; try done; try lia. rewrite length_replicate, Z2Nat.id by nia. done.
  - unfold vgpu_sw_get_resource_2d in *. cbn. rewrite N1, M1. done.
  - cbn. rewrite N3. lia.
Qed.

(** Whether a scanout shows the resource. *)
Definition uses (id : Z) (so : virtio_gpu_scanout_info) : Prop :=
  primary_resource_id so = id \/ cursor_resource_id so = id.

(** A resource nothing shows can go. *)
Lemma qs_destroy s res : qsafe Q s -> vgpu_sw_get_resource_2d (resource_id res) s = Some res ->
  (forall so, so ∈ scanouts (gpu_data (dev s)) -> ~ uses (resource_id res) so) ->
  qsafe Q (vgpu_sw_destroy_resource_2d res s).
Proof.
  intros [[R O H G [D1 D2 D3 [D4 D4'] D5 D6]] Hq] Hf Hu. split; [|done]. constructor; try done.
  pose proof (total_find _ res _ D2 Hf) as Tf.
  assert (0 <= image_size res).
  { destruct (find_res_Some _ _ _ Hf) as [_ Hin]. rewrite Forall_forall in D2. destruct (D2 res Hin) as [_ _ _ _ _ _ <- _]. lia. }
  unfold VGPU_SW_MAX_HOSTMEM in *. constructor; cbn; try done.
  - by apply Forall_del.
  - by apply ids_del.
  - fold (total_size (del_res (resource_id res) (res_list (dev s)))). rewrite wrap64_id by lia.
    rewrite (total_del _ _ res) by done. unfold VGPU_SW_MAX_HOSTMEM. lia.
  - rewrite Forall_forall in D5 |- *. intros so Hso. destruct (D5 so Hso) as [B1 B2]. specialize (Hu so Hso). split.
    + intros Hp. destruct (B1 Hp) as (r & Hr & V). exists r. split; [|done]. rewrite find_del_ne; [done|].
      intros Ep. apply Hu. by left.
    + intros Hp. destruct (B2 Hp) as (r & Hr). exists r. rewrite find_del_ne; [done|]. intros Ep. apply Hu. by right.
Qed.

(** What unbinding a scanout leaves. *)
Lemma qs_unbind_primary i s : qsafe Q s -> 0 <= i -> qsafe Q (upd_scanout i unbind_primary s).
Proof.
  intros H Hi. apply qs_upd_scanout; [done|apply unbind_primary_ok, scanout_bound, H|].
  intros [Hb|Hb]; [by destruct (Hb eq_refl)|]. destruct (scanout_live s i (proj1 H) Hi); [by right|]. done.
Qed.
Lemma qs_unbind_cursor i s : qsafe Q s -> 0 <= i -> qsafe Q (upd_scanout i unbind_cursor s).
Proof.
  intros H Hi. apply qs_upd_scanout; [done|apply unbind_cursor_ok, scanout_bound, H|].
  intros [Hb|Hb]; [|by destruct (Hb eq_refl)]. destruct (scanout_live s i (proj1 H) Hi); [by left|]. done.
Qed.

(** The frame of a step that works on scanout [i] only. *)
Record scanout_step (i : Z) s s' : Prop := {
  ss_safe : qsafe Q s';
  ss_res : res_list (dev s') = res_list (dev s);
  ss_num : g_num_scanouts s' = g_num_scanouts s;
  ss_other : forall j, 0 <= j -> j <> i -> scanout_at s' j = scanout_at s j }.

Lemma scanouts_len s : qsafe Q s -> length (scanouts (gpu_data (dev s))) = 16%nat.
Proof. intros [[_ _ _ _ [[L _] _ _ _ _ _]] _]. done. Qed.

Lemma step_unbind_primary i g s : qsafe Q s -> 0 <= i < 16 -> scanout_step i s (on_disp g (upd_scanout i unbind_primary s)).
Proof.
  intros H Hi. constructor; [by apply qs_disp, qs_unbind_primary; [|lia]|done|done|].
  intros j Hj Hne. change (scanout_at (on_disp g ?x) j) with (scanout_at x j).
  rewrite scanout_at_upd by (done || by apply scanouts_len). by destruct (Z.eqb_spec j i).
Qed.
Lemma step_unbind_cursor i g s : qsafe Q s -> 0 <= i < 16 -> scanout_step i s (on_disp g (upd_scanout i unbind_cursor s)).
Proof.
  intros H Hi. constructor; [by apply qs_disp, qs_unbind_cursor; [|lia]|done|done|].
  intros j Hj Hne. change (scanout_at (on_disp g ?x) j) with (scanout_at x j).
  rewrite scanout_at_upd by (done || by apply scanouts_len). by destruct (Z.eqb_spec j i).
Qed.
Lemma step_refl i s : qsafe Q s -> scanout_step i s s.
Proof. by constructor. Qed.
Lemma step_trans i s1 s2 s3 : scanout_step i s1 s2 -> scanout_step i s2 s3 -> scanout_step i s1 s3.
Proof.
  intros [A1 A2 A3 A4] [B1 B2 B3 B4]. constructor; [done|congruence|congruence|].
  intros j Hj Hne. by rewrite B4, A4.
Qed.

(** A loop over the scanouts that establishes [P] of each. *)
Lemma for_scanouts_spec (P : virtio_gpu_scanout_info -> Prop) (body : Z -> M -> M) n : forall i s,
  (forall j s', qsafe Q s' -> 0 <= j < 16 -> scanout_step j s' (body j s') /\ P (scanout_at (body j s') j)) ->
  qsafe Q s -> 0 <= i -> i + Z.of_nat n <= 16 -> (forall j, 0 <= j < i -> P (scanout_at s j)) ->
  let s' := for_scanouts n i body s in
  qsafe Q s' /\ res_list (dev s') = res_list (dev s) /\ g_num_scanouts s' = g_num_scanouts s /\
  (forall j, 0 <= j < i + Z.of_nat n -> P (scanout_at s' j)) /\
  (forall j, i + Z.of_nat n <= j -> scanout_at s' j = scanout_at s j).
Proof.
  induction n as [|n IH]; intros i s Hb H Hi Hn Hp; cbn [for_scanouts].
  { split_and!; try done. intros j Hj. apply Hp. lia. }
  destruct (Hb i s H ltac:(lia)) as [[S1 S2 S3 S4] Pi].
  destruct (IH (i + 1) (body i s)) as (A & B & C & D & F); [done|done|lia|lia| |].
  { intros j Hj. destruct (Z.eq_dec j i) as [->|Hne]; [done|]. rewrite S4 by lia. apply Hp. lia. }
  cbv zeta. split_and!; [done|congruence|congruence| |].
  - intros j Hj. apply D. lia.
  - intros j Hj. rewrite F by lia. apply S4; lia.
Qed.

Lemma num_range s : qsafe Q s -> 0 <= g_num_scanouts s <= 16.
Proof. intros [[_ _ _ _ [[_ N] _ _ _ _ _]] _]. done. Qed.

(** Beyond the registered ones no scanout is bound. *)
Lemma loop_all (P : virtio_gpu_scanout_info -> Prop) (body : Z -> M -> M) s : qsafe Q s ->
  (forall j s', qsafe Q s' -> 0 <= j < 16 -> scanout_step j s' (body j s') /\ P (scanout_at (body j s') j)) ->
  (forall so, ~ bound_to_any so -> P so) ->
  let s' := for_all_scanouts body s in
  qsafe Q s' /\ res_list (dev s') = res_list (dev s) /\
  forall so, so ∈ scanouts (gpu_data (dev s')) -> P so.
Proof.
  intros H Hb Hz. pose proof (num_range s H) as Hn. unfold for_all_scanouts. cbv zeta.
  destruct (for_scanouts_spec P body (Z.to_nat (g_num_scanouts s)) 0 s) as (A & B & C & D & F); [done|done|lia|lia|lia|].
  split_and!; [done|done|]. intros so Hso. apply list_elem_of_lookup in Hso as [k Hk].
  set (s' := for_scanouts (Z.to_nat (g_num_scanouts s)) 0 body s) in *.
  assert (Es : scanout_at s' (Z.of_nat k) = so) by (unfold scanout_at, arr_get; rewrite Nat2Z.id, Hk; done).
  rewrite <- Es. destruct (Z.lt_ge_cases (Z.of_nat k) (g_num_scanouts s)); [apply D; lia|].
  apply Hz. intros Hbd. apply scanout_live in Hbd as [Hl _]; [|apply A|lia]. lia.
Qed.

Lemma unref_scanout_spec id i s : qsafe Q s -> id <> 0 -> 0 <= i < 16 ->
  scanout_step i s (unref_scanout id i s) /\ ~ uses id (scanout_at (unref_scanout id i s) i).
Proof.
  intros H Hid Hi. unfold unref_scanout. destruct (nz (so_enabled (scanout_at s i))) eqn:En; cbn [negb].
  2:{ split; [by apply step_refl|]. unfold nz in En. apply negb_false_iff, Z.eqb_eq in En.
      intros [Hp|Hp]; destruct (scanout_live s i (proj1 H) ltac:(lia)); try done; [left|right]; congruence. }
  set (s1 := if primary_resource_id (scanout_at s i) =? id
             then on_disp (vgpu_display_publish_primary_clear i) (upd_scanout i unbind_primary s) else s).
  assert (S1 : scanout_step i s s1 /\ primary_resource_id (scanout_at s1 i) <> id).
  { unfold s1. destruct (Z.eqb_spec (primary_resource_id (scanout_at s i)) id); [|split; [by apply step_refl|done]].
    split; [by apply step_unbind_primary|]. change (scanout_at (on_disp ?g ?x) i) with (scanout_at x i).
    rewrite scanout_at_upd, Z.eqb_refl by (lia || by apply scanouts_len). cbn. lia. }
  clearbody s1. destruct S1 as [S1 P1]. destruct (Z.eqb_spec (cursor_resource_id (scanout_at s1 i)) id) as [Ec|Ec].
  - pose proof (ss_safe i s s1 S1) as H1. split.
    + eapply step_trans; [exact S1|]. by apply step_unbind_cursor.
    + change (scanout_at (on_disp ?g ?x) i) with (scanout_at x i).
      rewrite scanout_at_upd, Z.eqb_refl by (lia || by apply scanouts_len). intros [X|X]; cbn in X; [done|lia].
  - split; [done|]. by intros [X|X].
Qed.

Lemma unref_safe vq s : qsafe Q s -> qsafe Q (snd (vgpu_sw_cmd_resource_unref_handler vq s)).
Proof.
  intros H. apply qs_with_response; [done|lia|]. clear s H. intros req rd s H. cbv beta zeta.
  set (id := fld32 s (req + 24)). destruct (vgpu_sw_get_resource_2d id s) as [res|] eqn:Hf; [|by apply qs_respond].
  destruct (find_res_Some _ _ _ Hf) as [Hid Hin].
  assert (Hz : id <> 0).
  { destruct H as [[_ _ _ _ [_ D2 _ _ _ _]] _]. rewrite Forall_forall in D2. destruct (D2 res Hin) as [X _ _ _ _ _ _ _]. lia. }
  apply qs_respond. destruct (loop_all (fun so => ~ uses id so) (unref_scanout id) s H) as (A & B & C).
  - intros j s' H' Hj. by apply unref_scanout_spec.
  - intros so Hn [Hu|Hu]; apply Hn; [left|right]; congruence.
  - apply qs_destroy; [done| |].
    + unfold vgpu_sw_get_resource_2d in *. rewrite B, Hid. done.
    + rewrite Hid. apply C.
Qed.

(** Reset: nothing stays bound, every resource goes. *)
Lemma destroy_all l : forall s, qsafe Q s -> res_list (dev s) = l ->
  (forall so, so ∈ scanouts (gpu_data (dev s)) -> ~ bound_to_any so) ->
  qsafe Q (foldl (fun s res => vgpu_sw_destroy_resource_2d res s) s l) /\
  res_list (dev (foldl (fun s res => vgpu_sw_destroy_resource_2d res s) s l)) = [].
Proof.
  induction l as [|res l IH]; intros s H El Hb; [done|]. cbn [foldl].
  assert (Hf : vgpu_sw_get_resource_2d (resource_id res) s = Some res)
    by (unfold vgpu_sw_get_resource_2d; rewrite El, find_res_cons, Z.eqb_refl; done).
  assert (Hz : resource_id res <> 0).
  { destruct H as [[_ _ _ _ [_ D2 _ _ _ _]] _]. rewrite El in D2. apply Forall_cons in D2 as [[X _ _ _ _ _ _ _] _]. lia. }
  apply IH; [|cbn; rewrite El; cbn; by rewrite Z.eqb_refl|done].
  apply qs_destroy; [done|done|]. intros so Hso Hu. apply (Hb so Hso). destruct Hu; [left|right]; congruence.
Qed.

Lemma reset_safe s : qsafe Q s -> qsafe Q (vgpu_sw_reset s) /\ res_list (dev (vgpu_sw_reset s)) = [].
Proof.
  intros H. unfold vgpu_sw_reset. cbv zeta. match goal with |- context [for_all_scanouts ?b s] => set (body := b) end.
  destruct (loop_all (fun so => ~ bound_to_any so) body s H) as (A & B & C); [|done|].
  - intros j s' H' Hj. unfold body.
    change (on_disp ?g (on_disp ?f ?x)) with (on_disp (fun d => g (f d)) x).
    assert (X : ~ bound_to_any (unbind_primary (unbind_cursor (scanout_at s' j)))) by (intros [X|X]; by apply X).
    assert (Eo : forall k, 0 <= k -> scanout_at (upd_scanout j (fun so => unbind_primary (unbind_cursor so)) s') k =
      if k =? j then unbind_primary (unbind_cursor (scanout_at s' j)) else scanout_at s' k).
    { intros k Hk. apply scanout_at_upd; [done|done|by apply scanouts_len]. }
    split.
    + constructor; [|done|done|].
      * apply qs_disp, qs_upd_scanout; [done|apply unbind_primary_ok, unbind_cursor_ok, scanout_bound, H'|done].
      * intros k Hk Hne. change (scanout_at (on_disp ?g ?x) k) with (scanout_at x k). rewrite Eo by done.
        by destruct (Z.eqb_spec k j).
    + change (scanout_at (on_disp ?g ?x) j) with (scanout_at x j). rewrite Eo, Z.eqb_refl by lia. done.
  - by apply destroy_all.
Qed.

Lemma get_scanout_spec i s so : is_u32 i -> vgpu_sw_get_scanout i s = Some so ->
  so = scanout_at s i /\ 0 <= i < g_num_scanouts s /\ so_enabled so <> 0.
Proof.
  intros Hi. unfold is_u32 in Hi. unfold vgpu_sw_get_scanout. destruct (Z.leb_spec (g_num_scanouts s) i); [done|].
  destruct (nz (so_enabled (scanout_at s i))) eqn:En; [|done]. intros [= <-]. split; [done|]. split; [lia|].
  unfold nz in En. by apply negb_true_iff, Z.eqb_neq in En.
Qed.

Lemma set_scanout_safe vq s : qsafe Q s -> qsafe Q (snd (vgpu_sw_cmd_set_scanout_handler vq s)).
Proof.
  intros H. apply qs_with_response; [done|lia|]. clear s H. intros req rd s H. cbv beta zeta.
  pose proof (fld32_u32 s (req + 40)) as Ui.
  assert (Ur : is_u32 (rc_x (get_rect s (req + 24))) /\ is_u32 (rc_y (get_rect s (req + 24))) /\
    is_u32 (rc_width (get_rect s (req + 24))) /\ is_u32 (rc_height (get_rect s (req + 24))))
    by (split_and!; apply fld32_u32).
  set (r := get_rect s (req + 24)) in *. set (i := fld32 s (req + 40)) in *. set (id := fld32 s (req + 44)).
  clearbody r i id.
  destruct (vgpu_sw_get_scanout i s) as [so|] eqn:Hs; [|by apply qs_respond].
  apply get_scanout_spec in Hs as (Eso & Hi & En); [|done].
  destruct (id =? 0); [by apply qs_respond, qs_disp, qs_unbind_primary; [|lia]|].
  destruct (vgpu_sw_get_resource_2d id s) as [res|] eqn:Hf; [|by apply qs_respond].
  destruct (vgpu_sw_rect_fits (r_width res) (r_height res) r) eqn:Hfit; cbn [negb]; [|by apply qs_respond].
  destruct ((so_width so <? rc_width r) || (so_height so <? rc_height r)); [by apply qs_respond|].
  unfold is_u32 in *. apply rect_fits_spec in Hfit as (F1 & F2 & F3 & F4); [|lia..].
  destruct (find_res_Some _ _ _ Hf) as [Hid _]. apply qs_respond, qs_upd_scanout; [done| |].
  - destruct (scanout_bound s i (proj1 H)) as [_ B2]. split; [|exact B2].
    intros _. exists res. cbn. rewrite Hid. split; [exact Hf|]. unfold view_ok. cbn. lia.
  - intros _. split; [done|]. cbn. by rewrite <- Eso.
Qed.

Lemma find_ok s id res : qsafe Q s -> vgpu_sw_get_resource_2d id s = Some res -> res_ok res /\ resource_id res = id.
Proof.
  intros [[_ _ _ _ [_ D2 _ _ _ _]] _] Hf. destruct (find_res_Some _ _ _ Hf) as [Hid Hin].
  rewrite Forall_forall in D2. split; [by apply D2|done].
Qed.

Lemma flush_scanout_safe id res i s : qsafe Q s -> vgpu_sw_get_resource_2d id s = Some res ->
  let s' := flush_scanout id res i s in
  qsafe Q s' /\ res_list (dev s') = res_list (dev s).
Proof.
  intros H Hf. destruct (find_ok s id res H Hf) as [Rok Hid]. unfold flush_scanout. cbv zeta.
  destruct (negb (nz (so_enabled (scanout_at s i)))); cbn [orb]; [done|].
  destruct (Z.eqb_spec (primary_resource_id (scanout_at s i)) id) as [Ep|Ep]; cbn [negb]; [|done].
  destruct (negb (vgpu_display_can_publish (disp (dev s)))); [done|].
  assert (V : view_ok (scanout_at s i) res).
  { destruct (scanout_bound s i (proj1 H)) as [B1 _]. rewrite Ep in B1. destruct B1 as (r & Hr & V).
    - destruct Rok as [X _ _ _ _ _ _ _]. lia.
    - unfold vgpu_sw_get_resource_2d in Hf. rewrite Hf in Hr. by injection Hr as <-. }
  destruct V as (V1 & V2 & V3 & V4 & V5 & V6).
  destruct (qs_payload res (Some (scanout_at s i)) s _ _ _ _ H Rok eq_refl V1 V2 V3 V4 V5 V6) as (A & B & _).
  destruct (vgpu_sw_create_window_payload res (Some (scanout_at s i)) s) as [ptr s1]. cbn [snd] in *.
  case_match; [done|]. split; [by apply qs_disp|done].
Qed.

Lemma flush_loop id res n : forall i s, qsafe Q s -> vgpu_sw_get_resource_2d id s = Some res ->
  qsafe Q (for_scanouts n i (flush_scanout id res) s).
Proof.
  induction n as [|n IH]; intros i s H Hf; [done|]. cbn [for_scanouts].
  destruct (flush_scanout_safe id res i s H Hf) as [A B]. apply IH; [done|].
  unfold vgpu_sw_get_resource_2d in *. by rewrite B.
Qed.

Lemma flush_cmd_safe vq s : qsafe Q s -> qsafe Q (snd (vgpu_sw_cmd_resource_flush_handler vq s)).
Proof.
  intros H. apply qs_with_response; [done|lia|]. clear s H. intros req rd s H. cbv beta zeta.
  destruct (vgpu_sw_get_resource_2d _ s) as [res|] eqn:Hf; [|by apply qs_respond].
  destruct (negb _); [by apply qs_respond|]. by apply qs_respond, flush_loop.
Qed.
End Q.
End Handlers.
