(* ===== verification/GpuEscape.v ===== *)
(** * Every guest access keeps the GPU in its buffers

    The remaining command handlers (transfers, backing, cursor, display information,
    EDID), descriptor chains, the virtqueues and the register file preserve the
    invariant of [GpuProps]. *)

From stdpp Require Import base gmap list.
From Stdlib Require Import ZArith Lia Bool.
From S2P Require Import Prelude Isa Hart Machine Tlb Loops Device Virtio VirtioProps DmaProps.
From S2P Require Import VgpuDisplay GpuDefs GpuEdid VirtioGpuSw VirtioGpu GpuProps GpuSafe.
Open Scope Z_scope.

Section Escape.
Context {E : Type} `{HostE : GpuHost E}.
Abbreviation M := (machine (gpu_dev E)).
Implicit Types s : M.

Section Q.
Context (Q : list virtq_t).

Lemma transfer_safe vq s : qsafe Q s -> qsafe Q (snd (vgpu_sw_cmd_transfer_to_host_2d_handler vq s)).
Proof.
  intros H. apply qs_with_response; [done|lia|]. clear s H. intros req rd s H. cbv beta zeta.
  destruct (vgpu_sw_get_resource_2d (fld32 s (req + 48)) s) as [res|] eqn:Hf; [|by apply qs_respond].
  destruct (find_ok Q s _ res H Hf) as [Rok Hid].
  destruct (r_iovec res) as [iov|] eqn:Hi; [|by apply qs_respond].
  destruct (vgpu_sw_rect_fits (r_width res) (r_height res) (get_rect s (req + 24))) eqn:Hfit; cbn [negb]; [|by apply qs_respond].
  destruct (vgpu_sw_transfer_source_fits (get_rect s (req + 24)) (fld64 s (req + 40)) res iov) eqn:Hsrc; cbn [negb];
    [|by apply qs_respond].
  assert (Ht : transfer_ok (get_rect s (req + 24)) (fld64 s (req + 40)) res iov s).
  { apply source_fits_spec; [exact Rok|exact Hi|apply fld32_u32|apply fld32_u32|apply fld32_u32|apply fld32_u32|apply fld64_u64|exact Hfit|exact Hsrc]. }
  rewrite <- Hid in Hf. destruct (copy_image_spec _ _ res iov s Ht Hf) as (f & Ef & Lf & _). rewrite Ef. cbn [negb].
  apply qs_respond, qs_on_res; [done|done|]. intros r Hr _. rewrite Hf in Hr. injection Hr as <-.
  destruct Rok as [R1 R2 R3 R4 R5 R6 R7 R8]. constructor; try done. cbn. by rewrite Lf.
Qed.

(** Converted backing entries are ranges of guest RAM. *)
Lemma convert_entries_ok n : forall pages s iov, convert_entries n pages s = Some iov ->
  length iov = n /\ Forall biov_ok iov.
Proof.
  induction n as [|n IH]; intros pages s iov; cbn [convert_entries]; [by intros [= <-]|].
  case_match; [done|]. destruct (virtio_gpu_mem_guest_to_host _ _) as [b|] eqn:G; [|done].
  pose proof (fld32_u32 s (pages + 8)) as U. unfold is_u32 in U.
  apply guest_to_host_spec in G as (_ & G1 & G2); [|apply u32_nonneg|lia].
  destruct (convert_entries n (pages + 16) s) as [rest|] eqn:C; [|done]. intros [= <-].
  apply IH in C as [L F]. split; [cbn; by rewrite L|]. constructor; [|done]. exists b. split; [done|].
  cbn [biov_len]. split_and!; lia.
Qed.

Lemma attach_safe vq s : qsafe Q s -> qsafe Q (snd (vgpu_sw_cmd_resource_attach_backing_handler vq s)).
Proof.
  intros H. apply qs_with_response; [done|lia|]. clear s H. intros req rd s H. cbv beta zeta.
  case_match; [by apply qs_gpu_fail|]. pose proof (fld32_u32 s (req + 28)) as U. set (n := fld32 s (req + 28)) in *.
  set (id := fld32 s (req + 24)). unfold is_u32 in U. clearbody n id.
  destruct ((n =? 0) || (VGPU_SW_MAX_BACKING_ENTRIES <? n)) eqn:Hn; [by apply qs_respond|].
  apply orb_false_iff in Hn as [_ Hn%Z.ltb_ge]. unfold VGPU_SW_MAX_BACKING_ENTRIES, VGPU_SW_BACKING_ENTRY_PAGE_SIZE, RAM_SIZE in Hn.
  change (512 * 1024 * 1024 / 4096 + 1) with 131073 in Hn. rewrite (wrap64_id (16 * n)) by lia.
  case_match; [by apply qs_respond|]. rewrite (u32_id (16 * n)) by (unfold is_u32; lia).
  destruct (virtio_gpu_mem_guest_to_host _ (16 * n)) as [pages|] eqn:G; [|by apply qs_gpu_fail].
  apply guest_to_host_spec in G as (_ & G1 & G2); [|apply u32_nonneg|lia].
  destruct (vgpu_sw_get_resource_2d id s) as [res|] eqn:Hf; [|by apply qs_respond].
  destruct (find_ok Q s _ res H Hf) as [Rok Hid]. destruct (r_iovec res) as [iov|] eqn:Hi.
  { rewrite bool_decide_eq_true_2 by done. by apply qs_respond. }
  rewrite bool_decide_eq_false_2 by (by intros []).
  set (s1 := on_res id (fun r => r <| page_cnt := n |>) s).
  assert (K1 : qsafe Q s1).
  { apply qs_on_res; [done|done|]. intros r Hr [R1 R2 R3 R4 R5 R6 R7 R8]. rewrite Hf in Hr. injection Hr as <-.
    constructor; try done. cbn. by rewrite Hi. }
  assert (Hf1 : vgpu_sw_get_resource_2d id s1 = Some (res <| page_cnt := n |>)).
  { unfold s1. rewrite get_on_res by done. by rewrite Hf. }
  clearbody s1. pose proof (qs_malloc Q (16 * n) s1 K1) as K2. destruct (malloc_data (16 * n) s1) as (M1 & _).
  destruct (g_malloc (16 * n) s1) as [[|] s2]; cbn [snd negb] in *; [|by apply qs_gpu_fail].
  rewrite (dma_touch_in_ram pages (16 * n) s2) by (apply in_ram_iff; lia).
  assert (Hf2 : vgpu_sw_get_resource_2d id s2 = Some (res <| page_cnt := n |>))
    by (unfold vgpu_sw_get_resource_2d in *; by rewrite M1).
  destruct Rok as [R1 R2 R3 R4 R5 R6 R7 R8].
  destruct (convert_entries (Z.to_nat n) pages s2) as [iov|] eqn:C; apply qs_respond, qs_on_res; try done;
    intros r Hr _; rewrite Hf2 in Hr; injection Hr as <-; constructor; try done.
  cbn. apply convert_entries_ok in C as [L F]. split; [|done]. rewrite L. lia.
Qed.

Lemma detach_safe vq s : qsafe Q s -> qsafe Q (snd (vgpu_sw_cmd_resource_detach_backing_handler vq s)).
Proof.
  intros H. apply qs_with_response; [done|lia|]. clear s H. intros req rd s H. cbv beta zeta.
  destruct (vgpu_sw_get_resource_2d (fld32 s (req + 24)) s) as [res|] eqn:Hf; [|by apply qs_respond].
  case_match; [by apply qs_respond|]. apply qs_respond, qs_on_res; [done|done|].
  intros r Hr [R1 R2 R3 R4 R5 R6 R7 R8]. by constructor.
Qed.

Lemma update_cursor_safe vq s : qsafe Q s -> qsafe Q (snd (vgpu_sw_cmd_update_cursor_handler vq s)).
Proof.
  intros H. unfold vgpu_sw_cmd_update_cursor_handler. pose proof (qs_gpu_request Q vq 56 s ltac:(lia) H) as H1.
  destruct (virtio_gpu_get_request vq 56 s) as [[req|] s1]; cbn [snd] in H1; [|by apply qs_gpu_fail]. clear s H.
  case_match; [by apply qs_gpu_fail|]. pose proof (fld32_u32 s1 (req + 24)) as Ui. set (i := fld32 s1 (req + 24)) in *.
  set (id := fld32 s1 (req + 40)). clearbody i id.
  destruct (vgpu_sw_get_scanout i s1) as [so|] eqn:Hs; [|by apply qs_gpu_fail].
  apply get_scanout_spec in Hs as (Eso & Hi & En); [|done].
  destruct (Z.eqb_spec id 0) as [|Hid0]; [by apply qs_disp, qs_unbind_cursor; [|lia]|].
  destruct (vgpu_sw_get_resource_2d id s1) as [res|] eqn:Hf; [|by apply qs_gpu_fail].
  destruct (find_ok Q s1 _ res H1 Hf) as [Rok Hid].
  case_match; [by apply qs_gpu_fail|]. case_match; [done|].
  destruct (view_of_resource res Rok) as (V1 & V2 & V3 & V4 & V5 & V6).
  destruct (qs_payload Q res None s1 _ _ _ _ H1 Rok eq_refl V1 V2 V3 V4 V5 V6) as (A & B & C).
  destruct (vgpu_sw_create_window_payload res None s1) as [ptr s2]. cbn [snd] in *.
  case_match; [done|]. apply qs_disp, qs_upd_scanout; [done| |].
  - destruct (scanout_bound s2 i (proj1 A)) as [B1 _]. split; [exact B1|]. intros _. exists res. cbn.
    rewrite B. exact Hf.
  - intros _. unfold g_num_scanouts. rewrite C. split; [done|]. cbn. unfold scanout_at. rewrite C. fold (scanout_at s1 i). by rewrite <- Eso.
Qed.

Lemma move_cursor_safe vq s : qsafe Q s -> qsafe Q (snd (vgpu_sw_cmd_move_cursor_handler vq s)).
Proof.
  intros H. unfold vgpu_sw_cmd_move_cursor_handler. pose proof (qs_gpu_request Q vq 56 s ltac:(lia) H) as H1.
  destruct (virtio_gpu_get_request vq 56 s) as [[req|] s1]; cbn [snd] in H1; [|by apply qs_gpu_fail].
  case_match; [by apply qs_gpu_fail|]. case_match; [by apply qs_disp|by apply qs_gpu_fail].
Qed.

Lemma undefined_safe vq s : qsafe Q s -> qsafe Q (snd (virtio_gpu_cmd_undefined_handler vq s)).
Proof.
  intros H. unfold virtio_gpu_cmd_undefined_handler.
  pose proof (qs_gpu_request Q vq sizeof_ctrl_hdr s ltac:(unfold sizeof_ctrl_hdr; lia) H) as H1.
  destruct (virtio_gpu_get_request vq sizeof_ctrl_hdr s) as [[req|] s1]; by apply qs_gpu_fail.
Qed.

(** *** Information commands *)

Lemma s32_small x : 0 <= x < 2 ^ 31 -> s32 x = x.
Proof.
  intros H. unfold s32, sext. cbv zeta. change (2 ^ (32 - 1)) with (2 ^ 31). rewrite Z.mod_small by lia.
  destruct (Z.ltb_spec x (2 ^ 31)); [done|lia].
Qed.

Lemma mem_pmodes n : forall i response s, 0 <= i -> 0 <= response -> response + 408 <= RAM_SIZE -> i + Z.of_nat n <= 16 ->
  mem_step True s (put_pmodes n i response s).
Proof.
  induction n as [|n IH]; intros i response s Hi Hr Hr' Hn; [apply mem_refl|]. cbn [put_pmodes]. cbv zeta.
  unfold sizeof_display_one. eapply mem_trans; [|apply IH; lia].
  eapply mem_trans; [|apply mem_put32; lia]. eapply mem_trans; [|apply mem_put32; lia]. apply mem_put32; lia.
Qed.

Lemma response_in_ram vq n rd off : 0 <= n -> virtio_gpu_get_response_desc vq n = Some rd ->
  virtio_gpu_mem_guest_to_host (u32 (d_addr rd)) n = Some off -> 0 <= off /\ off + n <= RAM_SIZE.
Proof. intros Hn _ G. apply guest_to_host_spec in G as (_ & G1 & G2); [done|apply u32_nonneg|done]. Qed.

Lemma display_info_safe vq s : qsafe Q s -> qsafe Q (snd (virtio_gpu_get_display_info_handler vq s)).
Proof.
  intros H. unfold virtio_gpu_get_display_info_handler.
  pose proof (qs_gpu_request Q vq sizeof_ctrl_hdr s ltac:(unfold sizeof_ctrl_hdr; lia) H) as H1.
  destruct (virtio_gpu_get_request vq sizeof_ctrl_hdr s) as [[req|] s1]; cbn [snd] in H1; [|by apply qs_gpu_fail].
  clear s H. destruct (virtio_gpu_get_response_desc _ _) as [rd|] eqn:R; [|by apply qs_gpu_fail].
  destruct (virtio_gpu_mem_guest_to_host _ _) as [off|] eqn:G; [|by apply qs_gpu_fail].
  assert (B : 0 <= off /\ off + 408 <= RAM_SIZE) by (eapply (response_in_ram vq 408); [lia|exact R|exact G]).
  clear R G rd. cbv zeta. cbn [snd]. change sizeof_resp_disp_info with 408.
  pose proof (num_range Q s1 H1) as N. apply (qs_mem Q s1); [done|].
  set (s2 := g_memset0 off 408 s1). set (s3 := put32 (off + OFF_type) VIRTIO_GPU_RESP_OK_DISPLAY_INFO s2).
  assert (E3 : g_num_scanouts s3 = g_num_scanouts s1)
    by (unfold g_num_scanouts, s3, s2, put32, g_memset0; by rewrite !dev_dma_write).
  rewrite E3, s32_small by lia. eapply mem_trans; [|apply mem_echo; lia].
  eapply mem_trans; [|apply mem_pmodes; lia]. unfold s3, OFF_type.
  eapply mem_trans; [|apply mem_put32; lia]. apply mem_memset; lia.
Qed.

Lemma edid_bytes w h : length (virtio_gpu_generate_edid w h) = 128%nat /\ Forall is_byte (virtio_gpu_generate_edid w h).
Proof.
  unfold virtio_gpu_generate_edid. cbv zeta.
  set (W := if w =? 0 then SCREEN_WIDTH else w). set (H := if h =? 0 then SCREEN_HEIGHT else h).
  destruct (edid_base_ok W H (virtio_gpu_edid_pixels_to_mm W) (virtio_gpu_edid_pixels_to_mm H)) as (L & B & _).
  set (Y := edid_base _ _ _ _) in *. clearbody Y. set (T := detailed_timing _ _ _ _). clearbody T. cbn [foldl].
  split; [by rewrite !put_byte_length, put_bytes_length|auto 10 with semu].
Qed.

Lemma get_edid_safe vq s : qsafe Q s -> qsafe Q (snd (virtio_gpu_get_edid_handler vq s)).
Proof.
  intros H. unfold virtio_gpu_get_edid_handler.
  pose proof (qs_gpu_request Q vq sizeof_cmd_get_edid s ltac:(unfold sizeof_cmd_get_edid; lia) H) as H1.
  destruct (virtio_gpu_get_request vq sizeof_cmd_get_edid s) as [[req|] s1]; cbn [snd] in H1; [|by apply qs_gpu_fail].
  clear s H. destruct (virtio_gpu_get_response_desc _ _) as [rd|] eqn:R; [|by apply qs_gpu_fail]. cbv zeta.
  case_match; [by apply qs_respond|].
  destruct (virtio_gpu_mem_guest_to_host _ _) as [off|] eqn:G; [|by apply qs_gpu_fail].
  assert (B : 0 <= off /\ off + 1056 <= RAM_SIZE) by (eapply (response_in_ram vq 1056); [lia|exact R|exact G]).
  clear R G rd. cbn [snd]. change sizeof_resp_edid with 1056. apply (qs_mem Q s1); [done|].
  destruct (edid_bytes (so_width (scanout_at s1 (fld32 s1 (req + 24)))) (so_height (scanout_at s1 (fld32 s1 (req + 24)))))
    as [L F]. set (e := virtio_gpu_generate_edid _ _) in *. clearbody e.
  eapply mem_trans; [|apply mem_echo; lia].
  eapply mem_trans; [|apply mem_dma_write; [exact F|intros _; apply in_ram_iff; rewrite L; lia]]. unfold OFF_type.
  eapply mem_trans; [|apply mem_put32; lia]. eapply mem_trans; [|apply mem_put32; lia]. apply mem_memset; lia.
Qed.

Lemma gpu_command_safe type vq s plen s' : qsafe Q s -> gpu_command type vq s = Some (plen, s') -> qsafe Q s'.
Proof.
  intros H. unfold gpu_command.
  repeat (case_match; [intros [= X]; apply (f_equal snd) in X; cbn [snd] in X; rewrite <- X;
    first [by apply display_info_safe|by apply create_2d_safe|by apply unref_safe|by apply set_scanout_safe|
           by apply flush_cmd_safe|by apply transfer_safe|by apply attach_safe|by apply detach_safe|by apply get_edid_safe|
           by apply undefined_safe|by apply update_cursor_safe|by apply move_cursor_safe]|]).
  done.
Qed.
End Q.

(** *** The lengths the handlers report *)

Definition len_ok (p : Z * M) : Prop := is_u32 (fst p).

Lemma len_fail s : len_ok (gpu_fail s).
Proof. split; cbn; lia. Qed.
Lemma len_write_response req rd type s : len_ok (virtio_gpu_write_ctrl_response req rd type s).
Proof.
  unfold virtio_gpu_write_ctrl_response. destruct (d_len rd <? sizeof_ctrl_hdr); [split; cbn; lia|].
  destruct (virtio_gpu_mem_guest_to_host _ _); split; cbn; unfold sizeof_ctrl_hdr; lia.
Qed.
Lemma len_respond req rd type s : len_ok (respond req rd type s).
Proof.
  unfold respond. pose proof (len_write_response req rd type s) as L.
  destruct (virtio_gpu_write_ctrl_response req rd type s) as [plen s1]. by destruct (plen =? 0).
Qed.
Lemma len_with_response vq n body s : (forall req rd s', len_ok (body req rd s')) -> len_ok (with_response vq n body s).
Proof.
  intros Hb. unfold with_response. destruct (virtio_gpu_get_response_desc vq sizeof_ctrl_hdr); [|apply len_fail].
  destruct (virtio_gpu_get_request vq n s) as [[req|] s1]; [apply Hb|apply len_fail].
Qed.
Lemma len_const n s : 0 <= n < 2 ^ 32 -> len_ok (n, s).
Proof. done. Qed.

Ltac len_step :=
  first [apply len_fail | apply len_respond | (apply len_const; split; vm_compute; congruence)
        | apply len_with_response; intros ? ? ?; cbv beta zeta | case_match | progress cbv zeta].

Lemma gpu_command_len type vq s p : gpu_command type vq s = Some p -> len_ok p.
Proof.
  unfold gpu_command. repeat (case_match; [intros [= <-]|]); try done.
  all: unfold virtio_gpu_get_display_info_handler, vgpu_sw_resource_create_2d_handler, vgpu_sw_cmd_resource_unref_handler,
    vgpu_sw_cmd_set_scanout_handler, vgpu_sw_cmd_resource_flush_handler, vgpu_sw_cmd_transfer_to_host_2d_handler,
    vgpu_sw_cmd_resource_attach_backing_handler, vgpu_sw_cmd_resource_detach_backing_handler, virtio_gpu_get_edid_handler,
    virtio_gpu_cmd_undefined_handler, vgpu_sw_cmd_update_cursor_handler, vgpu_sw_cmd_move_cursor_handler.
  all: repeat len_step.
Qed.

Section Q2.
Context (Q : list virtq_t).

(** *** Descriptor chains *)

(** The rings of a ready queue lie in RAM. *)
Lemma rings_in_ram q : gq_ok q -> ready q = true ->
  0 < QueueNum q <= VIRTIO_GPU_QUEUE_NUM_MAX /\ 0 <= QueueDesc q /\ QueueDesc q + QueueNum q * 4 <= RAM_SIZE / 4 /\
  0 <= QueueAvail q /\ QueueAvail q + 1 + (QueueNum q + 1) / 2 <= RAM_SIZE / 4 /\
  0 <= QueueUsed q /\ QueueUsed q + 1 + QueueNum q * 2 <= RAM_SIZE / 4.
Proof.
  intros (Hn & Hd & Ha & Hu & _ & Hr) Er. specialize (Hr Er). unfold rings_refused in Hr. cbv zeta in Hr.
  unfold VIRTIO_GPU_QUEUE_NUM_MAX, RAM_SIZE in *. change (512 * 1024 * 1024 / 4) with 134217728 in *.
  assert (0 <= (QueueNum q + 1) / 2 <= QueueNum q + 1) by (Z.div_mod_to_equations; lia).
  rewrite (u32_id (QueueNum q + 1)), (u32_id (QueueAvail q + 1)), (u32_id (QueueUsed q + 1)), (u32_id (QueueNum q * 4)),
    (u32_id (QueueNum q * 2)) in Hr by (unfold is_u32; lia).
  rewrite !u32_id in Hr by (unfold is_u32; lia).
  rewrite !orb_false_iff, Z.eqb_neq, !Z.ltb_ge in Hr. lia.
Qed.

Lemma mem_get (P : Prop) i s : (P -> in_ram (4 * i) 4 = true) -> mem_step P s (snd (ram_get i s)).
Proof. apply mem_touch. Qed.

Lemma collect_safe n : forall i queue desc_idx vq s, gq_ok queue -> ready queue = true -> 0 <= desc_idx -> qsafe Q s ->
  qsafe Q (snd (collect_descs n i queue desc_idx vq s)).
Proof.
  induction n as [|n IH]; intros i queue idx vq s Hq Hr Hi H; [done|]. cbn [collect_descs].
  destruct (Z.leb_spec (QueueNum queue) idx) as [|Hlt]; [by apply qs_fail|]. cbv zeta.
  destruct (rings_in_ram queue Hq Hr) as (N & D0 & D1 & _). unfold VIRTIO_GPU_QUEUE_NUM_MAX, RAM_SIZE in *.
  change (512 * 1024 * 1024 / 4) with 134217728 in *.
  rewrite (u32_id (idx * 4)) by (unfold is_u32; lia). rewrite (u32_id (QueueDesc queue + idx * 4)) by (unfold is_u32; lia).
  set (o := QueueDesc queue + idx * 4) in *.
  assert (G : forall k s', 0 <= k < 4 -> qsafe Q s' -> qsafe Q (snd (ram_get (o + k) s'))).
  { intros k s' Hk Hs. eapply qs_mem; [exact Hs|]. apply mem_get. intros _. apply word_in_ram. unfold RAM_SIZE.
    change (512 * 1024 * 1024 / 4) with 134217728. lia. }
  pose proof (G 1 s ltac:(lia) H) as H1. destruct (ram_get (o + 1) s) as [d1 s1]. cbn [snd] in H1.
  case_match; [by apply qs_fail|].
  pose proof (G 0 s1 ltac:(lia) H1) as H2. rewrite Z.add_0_r in H2. destruct (ram_get o s1) as [d0 s2]. cbn [snd] in H2.
  pose proof (G 2 s2 ltac:(lia) H2) as H3. destruct (ram_get (o + 2) s2) as [d2 s3]. cbn [snd] in H3.
  pose proof (G 3 s3 ltac:(lia) H3) as H4. assert (P3 : 0 <= fst (ram_get (o + 3) s3)).
  { destruct H3 as [[R _ _ _ _] _]. pose proof (rd32_u32 s3 (4 * (o + 3)) R) as U. unfold is_u32 in U. cbn [ram_get fst]. lia. }
  destruct (ram_get (o + 3) s3) as [d3 s4]. cbn [snd fst] in H4, P3.
  case_match; [done|]. apply IH; [done|done| |done]. by apply Z.shiftr_nonneg.
Qed.

Lemma desc_handler_safe queue index idx s : gq_ok queue -> ready queue = true -> 0 <= idx -> qsafe Q s ->
  let p := virtio_gpu_desc_handler queue index idx s in
  qsafe Q (snd p) /\ forall len, fst p = Some len -> is_u32 len.
Proof.
  intros Hq Hr Hi H. unfold virtio_gpu_desc_handler. cbv zeta.
  pose proof (collect_safe (Z.to_nat VIRTIO_GPU_MAX_DESC) 0 queue idx (replicate 3 zero_desc) s Hq Hr Hi H) as H1.
  destruct (collect_descs _ _ _ _ _ _) as [[vq|] s1]; cbn [snd] in H1; [|done].
  pose proof (qs_gpu_request Q vq sizeof_ctrl_hdr s1 ltac:(unfold sizeof_ctrl_hdr; lia) H1) as H2.
  destruct (virtio_gpu_get_request vq sizeof_ctrl_hdr s1) as [[header|] s2]; cbn [snd] in H2.
  2:{ split; [by apply qs_fail|done]. }
  case_match; [split; [by apply qs_fail|done]|]. case_match.
  - destruct (virtio_gpu_get_response_desc vq sizeof_ctrl_hdr) as [rd|]; [|split; [by apply qs_fail|done]].
    pose proof (write_response_mem header rd VIRTIO_GPU_RESP_ERR_UNSPEC s2) as W. apply (qs_mem Q _ _ H2) in W.
    pose proof (len_write_response header rd VIRTIO_GPU_RESP_ERR_UNSPEC s2) as L.
    destruct (virtio_gpu_write_ctrl_response _ _ _ s2) as [plen s3]. cbn [snd] in W.
    case_match; [split; [by apply qs_fail|done]|]. split; [done|]. by intros ? [= <-].
  - destruct (gpu_command _ vq s2) as [[plen s3]|] eqn:C.
    + split; [by eapply gpu_command_safe|]. intros ? [= <-]. apply gpu_command_len in C. done.
    + pose proof (undefined_safe Q vq s2 H2) as U. destruct (virtio_gpu_cmd_undefined_handler vq s2) as [x s3]. done.
Qed.
End Q2.

(** *** The virtqueues *)

Lemma zero_gqueue_ok : gq_ok zero_queue.
Proof. unfold gq_ok. cbn. unfold RAM_SIZE, VIRTIO_GPU_QUEUE_NUM_MAX. split_and!; vm_compute; congruence. Qed.
Lemma gqueue_ok s i : gpu_safe s -> gq_ok (gqueue s i).
Proof. intros [_ _ _ (_ & F & _) _]. apply (arr_get_Forall gq_ok); [apply zero_gqueue_ok|done]. Qed.
Lemma gregs_upd i f d : gregs_ok d -> gq_ok (f (queue_at d i)) -> gregs_ok (upd_queue i f d).
Proof.
  intros (L & F & S) Hf. split; [cbn; by rewrite length_arr_set|]. split; [|done]. cbn. by apply Forall_insert.
Qed.
Lemma gqueue_upd s i f : gpu_safe s -> 0 <= i < 2 -> gqueue (on_vgpu (upd_queue i f) s) i = f (gqueue s i).
Proof. intros [_ _ _ (L & _) _] Hi. unfold gqueue, queue_at. cbn. apply arr_get_set_eq. lia. Qed.

Lemma shl32_u32 x n : is_u32 (shl32 x n).
Proof. apply u32_range. Qed.
Lemma mem_used_publish q used s : ram_ok (ram s) -> 0 <= QueueUsed q < RAM_SIZE / 4 ->
  mem_step True s (used_publish q used s).
Proof.
  intros R H. unfold used_publish. pose proof (word_in_ram _ H) as I.
  assert (U : is_u32 (rd32 s (4 * QueueUsed q))) by by apply rd32_u32.
  unfold ram_get. cbv zeta. rewrite !(dma_touch_in_ram (4 * QueueUsed q) 4) by done.
  assert (S : mem_step True s (ram_put (QueueUsed q) (Z.land (rd32 s (4 * QueueUsed q)) (MASK 16)) s))
    by (apply mem_put; [by apply land_is_u32_l; [|vm_compute; congruence]|done]).
  eapply mem_trans; [exact S|]. apply mem_put; [|done].
  apply lor_is_u32; [|apply shl32_u32]. apply rd32_u32. by apply (ms_ram True s _ S).
Qed.

(** One used-ring entry and the step of [last_avail]. *)
Lemma notify_step_safe index used id len s : gpu_safe s -> 0 <= index < 2 -> ready (gqueue s index) = true ->
  is_u32 id -> is_u32 len ->
  let s' := on_vgpu (upd_queue index (fun q => q <| last_avail := u16 (last_avail q + 1) |>))
    (used_append (gqueue s index) used id len s) in
  gpu_safe s' /\ ready (gqueue s' index) = true.
Proof.
  intros H Hi Hr Hid Hlen. pose proof (gqueue_ok s index H) as Hq.
  destruct (rings_in_ram _ Hq Hr) as (N & _ & _ & _ & _ & U0 & U1). unfold VIRTIO_GPU_QUEUE_NUM_MAX in N.
  assert (A : mem_step True s (used_append (gqueue s index) used id len s))
    by (apply mem_used_append; [done|done|intros _; lia]).
  pose proof (safe_mem _ _ H A) as H1. assert (E1 : gqueue (used_append (gqueue s index) used id len s) index = gqueue s index)
    by (unfold gqueue at 1; by rewrite (ms_dev True _ _ A)).
  set (s1 := used_append _ _ _ _ s) in *. clearbody s1. cbv zeta. split.
  - apply safe_vgpu; [done|]. apply gregs_upd; [apply H1|]. fold (gqueue s1 index). rewrite E1.
    destruct Hq as (Q1 & Q2 & Q3 & Q4 & Q5 & Q6). unfold gq_ok. cbn. split_and!; try done; try lia.
    all: unfold u16; apply Z.mod_pos_bound; lia.
  - rewrite gqueue_upd by done. cbn. by rewrite E1.
Qed.

Lemma notify_loop_safe n : forall index used s, gpu_safe s -> 0 <= index < 2 -> ready (gqueue s index) = true ->
  let p := gpu_notify_loop n index used s in gpu_safe (snd p) /\ ready (gqueue (snd p) index) = true.
Proof.
  induction n as [|n IH]; intros index used s H Hi Hr; [done|]. cbn [gpu_notify_loop].
  pose proof (gqueue_ok s index H) as Hq. destruct (rings_in_ram _ Hq Hr) as (N & _ & _ & A0 & A1 & _).
  set (q := gqueue s index) in *. pose proof (Z.mod_pos_bound (last_avail q) (QueueNum q) ltac:(lia)) as Hm.
  assert (A : mem_step True s (snd (avail_entry q (last_avail q mod QueueNum q) s))).
  { apply mem_avail_entry. intros _. split; [lia|]. split; [lia|].
    assert (last_avail q mod QueueNum q / 2 < (QueueNum q + 1) / 2) by (Z.div_mod_to_equations; lia). lia. }
  pose proof (avail_entry_u16 q (last_avail q mod QueueNum q) s) as B.
  destruct (avail_entry q _ s) as [id s1]. cbn [snd fst] in A, B.
  pose proof (safe_mem _ _ H A) as H1. assert (E1 : queues (vgpu (dev s1)) = queues (vgpu (dev s))) by (by rewrite (ms_dev True _ _ A)).
  clear A. destruct (desc_handler_safe (queues (vgpu (dev s))) q index id s1 Hq Hr ltac:(lia) (conj H1 E1)) as [[D1 D2] D3].
  destruct (virtio_gpu_desc_handler q index id s1) as [[len|] s2]; cbn [snd fst] in *;
    assert (E2 : gqueue s2 index = q) by (unfold gqueue, queue_at; by rewrite D2).
  2:{ split; [done|]. by rewrite E2. }
  cbv zeta. destruct (notify_step_safe index used id len s2) as [F1 F2];
    [done|done|by rewrite E2|unfold is_u32; lia|by apply D3|]. rewrite E2 in F1, F2.
  case_match; [done|]. by apply IH.
Qed.

Lemma notify_safe index s : gpu_safe s -> 0 <= index < 2 -> gpu_safe (virtio_gpu_queue_notify_handler index s).
Proof.
  intros H Hi. unfold virtio_gpu_queue_notify_handler. cbv zeta. case_match; [done|].
  destruct (ready (gqueue s index)) eqn:Hr; [|rewrite andb_false_r; by apply safe_fail]. case_match; [by apply safe_fail|].
  pose proof (gqueue_ok s index H) as Hq.
  assert (G : forall s' i, gpu_safe s' -> 0 <= i < RAM_SIZE / 4 -> mem_step True s' (snd (ram_get i s'))).
  { intros s' i _ Hb. apply mem_get. intros _. by apply word_in_ram. }
  destruct Hq as (_ & _ & QA & QU & _).
  pose proof (G s _ H QA) as M1. destruct (ram_get (QueueAvail (gqueue s index)) s) as [w s1]. cbn [snd] in M1.
  pose proof (safe_mem _ _ H M1) as K1. case_match; [by apply safe_fail|]. case_match; [done|].
  pose proof (G s1 _ K1 QU) as M2. destruct (ram_get (QueueUsed (gqueue s index)) s1) as [w2 s2]. cbn [snd] in M2.
  pose proof (safe_mem _ _ K1 M2) as K2.
  assert (E2 : gqueue s2 index = gqueue s index) by (unfold gqueue; by rewrite (ms_dev True _ _ M2), (ms_dev True _ _ M1)).
  match goal with |- context [gpu_notify_loop ?n ?i ?u ?x] => destruct (notify_loop_safe n i u x) as [L1 L2];
    [done|done|by rewrite E2|]; destruct (gpu_notify_loop n i u x) as [[nu|] s3] end; cbn [snd] in L1, L2; [|done].
  destruct (gqueue_ok s3 index L1) as (_ & _ & QA3 & QU3 & _).
  assert (M3 : mem_step True s3 (used_publish (gqueue s3 index) nu s3)) by (apply mem_used_publish; [apply L1|done]).
  pose proof (safe_mem _ _ L1 M3) as K4. set (s4 := used_publish _ nu s3) in *. clearbody s4.
  pose proof (G s4 _ K4 QA3) as M4. destruct (ram_get (QueueAvail (gqueue s3 index)) s4) as [w3 s5]. cbn [snd] in M4.
  pose proof (safe_mem _ _ K4 M4) as K5. case_match; [done|]. apply safe_vgpu; [done|]. apply K5.
Qed.

(** *** The registers *)

(** Conjunctions of bounds from hypotheses of the same shape. *)
Ltac bounds := cbn; repeat match goal with H : _ /\ _ |- _ => destruct H end; split_and!; solve [assumption | done | lia].

Lemma gsel_upd f s : gpu_safe s -> gq_ok (f (gsel s)) -> gpu_safe (upd_gsel f s).
Proof. intros H Hf. apply safe_vgpu; [done|]. apply gregs_upd; [apply H|exact Hf]. Qed.
Lemma gsel_ok s : gpu_safe s -> gq_ok (gsel s).
Proof. apply gqueue_ok. Qed.
Lemma gsel_after f s : gpu_safe s -> gsel (upd_gsel f s) = f (gsel s).
Proof. intros H. apply (gqueue_upd s (QueueSel (vgpu (dev s)))); [done|]. by destruct H as [_ _ _ (_ & _ & S) _]. Qed.

(** A field of a queue that is not ready can take any value in range. *)
Lemma gsel_set (f : virtq_t -> virtq_t) s : gpu_safe s -> ready (gsel s) = false ->
  (gq_ok (gsel s) -> let q := f (gsel s) in
   0 <= QueueNum q <= VIRTIO_GPU_QUEUE_NUM_MAX /\ 0 <= QueueDesc q < RAM_SIZE / 4 /\ 0 <= QueueAvail q < RAM_SIZE / 4 /\
   0 <= QueueUsed q < RAM_SIZE / 4 /\ 0 <= last_avail q < 2 ^ 16 /\ ready q = ready (gsel s)) ->
  gpu_safe (upd_gsel f s).
Proof.
  intros H Hr Hf. apply gsel_upd; [done|]. destruct (Hf (gsel_ok s H)) as (F1 & F2 & F3 & F4 & F5 & F6).
  unfold gq_ok. split_and!; try apply F1; try apply F2; try apply F3; try apply F4; try apply F5.
  rewrite F6, Hr. done.
Qed.

Lemma gsel_fail s : gsel (virtio_gpu_set_fail s) = gsel s.
Proof. unfold gsel, gqueue, virtio_gpu_set_fail, on_vgpu, on_gdev. cbn. unfold virtio_set_fail. cbv zeta. by case_match. Qed.

Lemma preprocess_spec addr s : gpu_safe s -> 0 <= addr -> ready (gsel s) = false ->
  let p := virtio_gpu_preprocess addr s in
  gpu_safe (snd p) /\ 0 <= fst p < RAM_SIZE / 4 /\ ready (gsel (snd p)) = false.
Proof.
  intros H Ha Hr. unfold virtio_gpu_preprocess. cbv zeta. destruct (Z.leb_spec RAM_SIZE addr) as [|Hlt]; cbn [orb fst snd].
  - split; [by apply safe_fail|]. split; [split; vm_compute; congruence|]. by rewrite gsel_fail.
  - case_match; cbn [fst snd].
    + split; [by apply safe_fail|]. split; [split; vm_compute; congruence|]. by rewrite gsel_fail.
    + split; [done|]. split; [|done]. rewrite Z.shiftr_div_pow2 by lia. change (2 ^ 2) with 4.
      unfold RAM_SIZE in *. Z.div_mod_to_equations. lia.
Qed.

Lemma write_ready_safe value s : gpu_safe s -> gpu_safe (write_queue_ready value s).
Proof.
  intros H. unfold write_queue_ready. cbv zeta. pose proof (gsel_ok s H) as Hq.
  destruct Hq as (Q1 & Q2 & Q3 & Q4 & Q5 & Q6).
  destruct (nz (Z.land value 1)); cbn [negb].
  2:{ apply gsel_upd; [done|]. unfold gq_ok. bounds. }
  set (q1 := (gsel s) <| ready := true |>).
  assert (E1 : gsel (upd_gsel (fun q => q <| ready := true |>) s) = q1) by by apply gsel_after.
  rewrite E1. destruct (rings_refused q1) eqn:Rr.
  - apply safe_fail.
    set (F := fun (f : virtq_t -> virtq_t) d => upd_queue (QueueSel d) f d).
    change (gpu_safe (on_vgpu (fun d => F (fun q => q <| ready := false |>) (F (fun q => q <| ready := true |>) d)) s)).
    destruct H as [HR HO HH (L & Fa & S) HD]. apply safe_vgpu; [by constructor|]. unfold F, upd_queue, queue_at. cbn.
    split; [cbn; by rewrite !length_arr_set|]. split; [|done]. cbn. unfold arr_set. rewrite list_insert_insert_eq.
    apply Forall_insert; [done|]. fold (arr_set (queues (vgpu (dev s))) (QueueSel (vgpu (dev s)))
      ((arr_get zero_queue (queues (vgpu (dev s))) (QueueSel (vgpu (dev s)))) <| ready := true |>)).
    rewrite arr_get_set_eq by lia. unfold gq_ok. unfold gsel, gqueue, queue_at in *. bounds.
  - assert (H1 : gpu_safe (upd_gsel (fun q => q <| ready := true |>) s)).
    { apply gsel_upd; [done|]. unfold gq_ok. fold q1. bounds. }
    set (s1 := upd_gsel _ s) in *. clearbody s1.
    assert (M1 : mem_step True s1 (snd (ram_get (QueueAvail q1) s1)))
      by (apply mem_get; intros _; by apply word_in_ram).
    pose proof (rd32_u32 s1 (4 * QueueAvail q1) (gs_ram s1 H1)) as U. unfold is_u32 in U.
    assert (E2 : gsel (snd (ram_get (QueueAvail q1) s1)) = q1) by (unfold gsel, gqueue; rewrite (ms_dev True _ _ M1); exact E1).
    unfold ram_get in *. cbn [snd] in *. apply gsel_upd; [by eapply safe_mem|]. rewrite E2.
    set (w := rd32 s1 (4 * QueueAvail q1)) in *. clearbody w.
    assert (0 <= Z.shiftr w 16 < 2 ^ 16)
      by (rewrite Z.shiftr_div_pow2 by lia; change (2 ^ 16) with 65536; Z.div_mod_to_equations; lia).
    unfold gq_ok. bounds.
Qed.

Lemma update_status_safe status s : gpu_safe s -> gpu_safe (virtio_gpu_update_status status s).
Proof.
  intros H. unfold virtio_gpu_update_status. cbv zeta.
  assert (H1 : gpu_safe (on_vgpu (fun d => d <| Status := Z.lor (Status d) status |>) s)) by (apply safe_vgpu; [done|apply H]).
  case_match; [done|]. set (s1 := on_vgpu _ s) in *. clearbody s1.
  destruct (reset_safe (queues (vgpu (dev s1))) s1 (conj H1 eq_refl)) as [[H2 _] _]. apply safe_vgpu; [done|].
  split; [done|]. split; [|cbn; lia]. apply Forall_replicate, zero_gqueue_ok.
Qed.

(** Before a queue is ready its registers are written, afterwards the write fails. *)
Lemma not_ready addr s : virtio_gpu_vq_config_after_ready addr s = false ->
  addr ∈ [VIRTIO_QueueNum; VIRTIO_QueueDescLow; VIRTIO_QueueDriverLow; VIRTIO_QueueDeviceLow] -> ready (gsel s) = false.
Proof.
  unfold virtio_gpu_vq_config_after_ready. intros Hc Ha. destruct (ready (gsel s)); [|done]. cbn [negb] in Hc.
  rewrite !orb_false_iff, !Z.eqb_neq in Hc. rewrite !elem_of_cons in Ha.
  destruct Ha as [->|[->|[->|[->|Ha]]]]; try (by destruct Hc as [[[[[[? ?] ?] ?] ?] ?] ?]). by apply not_elem_of_nil in Ha.
Qed.

Ltac ring_register := match goal with Hn : ready (gsel ?s) = false, H : gpu_safe ?s |- context [virtio_gpu_preprocess ?v ?s] =>
  let A := fresh "A" in destruct (preprocess_spec v s H ltac:(lia) Hn) as (A & ? & ?);
  destruct (virtio_gpu_preprocess v s) as [a s1]; cbn [fst snd] in *;
  cbn [snd]; apply gsel_set; [done|done|]; intros (? & ? & ? & ? & ? & ?); bounds end.

Lemma reg_write_safe addr value s : gpu_safe s -> is_u32 value -> gpu_safe (snd (virtio_gpu_reg_write addr value s)).
Proof.
  intros H Hv. unfold is_u32 in Hv. unfold virtio_gpu_reg_write. cbv zeta.
  destruct (virtio_gpu_vq_config_after_ready addr s) eqn:Hc; [by apply safe_fail|].
  assert (HV : forall f, (forall d, gregs_ok d -> gregs_ok (f d)) -> gpu_safe (on_vgpu f s))
    by (intros f Hf; apply safe_vgpu; [done|apply Hf, H]).
  case_match; [by apply HV|]. case_match; [cbn; case_match; [by apply HV|done]|]. case_match; [by apply HV|].
  case_match.
  { cbn [snd]. destruct (Z.ltb_spec value 2); [|by apply safe_fail]. apply HV. intros d (? & ? & ?). by split; [|split; [|cbn; lia]]. }
  destruct (Z.eqb_spec addr VIRTIO_QueueNum) as [->|_].
  { cbn [snd]. destruct ((0 <? value) && (value <=? VIRTIO_GPU_QUEUE_NUM_MAX)) eqn:Hn; [|by apply safe_fail].
    apply andb_true_iff in Hn as [N1%Z.ltb_lt N2%Z.leb_le].
    apply gsel_set; [done|by apply (not_ready VIRTIO_QueueNum); [|left]|]. intros (? & ? & ? & ? & ? & ?). bounds. }
  case_match; [by apply write_ready_safe|].
  destruct (Z.eqb_spec addr VIRTIO_QueueDescLow) as [->|_].
  { pose proof (not_ready _ s Hc ltac:(rewrite !elem_of_cons; tauto)) as Hn. ring_register. }
  case_match; [cbn; case_match; [by apply safe_fail|done]|].
  destruct (Z.eqb_spec addr VIRTIO_QueueDriverLow) as [->|_].
  { pose proof (not_ready _ s Hc ltac:(rewrite !elem_of_cons; tauto)) as Hn. ring_register. }
  case_match; [cbn; case_match; [by apply safe_fail|done]|].
  destruct (Z.eqb_spec addr VIRTIO_QueueDeviceLow) as [->|_].
  { pose proof (not_ready _ s Hc ltac:(rewrite !elem_of_cons; tauto)) as Hn. ring_register. }
  case_match; [cbn; case_match; [by apply safe_fail|done]|].
  case_match; [cbn [snd]; destruct (Z.ltb_spec value 2); [apply notify_safe; [done|lia]|by apply safe_fail]|].
  case_match; [by apply HV|]. case_match; [by apply update_status_safe|]. repeat (case_match; [done|]). done.
Qed.

Lemma write_safe addr width value s : gpu_safe s -> is_u32 value -> gpu_safe (virtio_gpu_write addr width value s).
Proof.
  intros H Hv. unfold virtio_gpu_write. case_match; [|case_match; by apply safe_raise].
  pose proof (reg_write_safe (Z.shiftr addr 2) value s H Hv) as W.
  destruct (virtio_gpu_reg_write _ value s) as [[] s1]; [done|by apply safe_raise].
Qed.

Lemma read_safe addr width s : gpu_safe s -> gpu_safe (snd (virtio_gpu_read addr width s)).
Proof. intros H. unfold virtio_gpu_read. repeat case_match; try done; by apply safe_raise. Qed.

Lemma register_scanout_safe width height s : gpu_safe s -> gpu_safe (snd (virtio_gpu_register_scanout width height s)).
Proof.
  intros H. unfold virtio_gpu_register_scanout. cbv zeta. destruct H as [R O HO G [[L N] D2 D3 D4 D5 D6]].
  rewrite s32_small by (unfold g_num_scanouts, VIRTIO_GPU_MAX_SCANOUTS in *; lia).
  destruct (Z.leb_spec VIRTIO_GPU_MAX_SCANOUTS (g_num_scanouts s)) as [|Hl]; cbn [snd]; [by constructor; [| | | |constructor]|].
  unfold g_num_scanouts, VIRTIO_GPU_MAX_SCANOUTS in *. constructor; try done. constructor; cbn; try done.
  - rewrite length_arr_set. rewrite u32_id by (unfold is_u32; lia). unfold VIRTIO_GPU_MAX_SCANOUTS. lia.
  - apply Forall_insert; [done|]. by split; intros X; destruct (X eq_refl).
  - intros j so Hj Hb. rewrite u32_id by (unfold is_u32; lia). unfold arr_set in Hj.
    destruct (decide (j = Z.to_nat (num_scanouts (gpu_data (dev s))))) as [->|Hne].
    + rewrite list_lookup_insert_eq in Hj by lia. injection Hj as <-. by destruct Hb as [X|X].
    + rewrite list_lookup_insert_ne in Hj by done. destruct (D6 j so Hj Hb). split; [lia|done].
Qed.
End Escape.
