(* ===== verification/GpuTheorems.v ===== *)
(** * The GPU device: what a guest can make it do

    The reachable states of the device, and the theorems on them: no access outside
    guest RAM or a host allocation, what a transfer stores, what a flush publishes. *)

From stdpp Require Import base gmap list.
From Stdlib Require Import ZArith Lia Bool.
From S2P Require Import Prelude Isa Hart Machine Tlb Loops Device Virtio VirtioProps DmaProps Ring.
From S2P Require Import VgpuDisplay VgpuConc GpuDefs GpuEdid VirtioGpuSw VirtioGpu GpuProps GpuSafe GpuEscape.
Open Scope Z_scope.

Section Theorems.
Context {E : Type} `{HostE : GpuHost E}.
Abbreviation M := (machine (gpu_dev E)).
Implicit Types s : M.

(** The device at power-on: zeroed registers and scanouts, no resource. *)
Definition gpu_fresh (d : vgpu_display) (e : E) : gpu_dev E :=
  mk_gpudev (zero_virtio 2) (mk_gpu_data (replicate 16 zero_scanout) 0) [] 0 d e false false false.

(** The states a guest can bring the device to: scanouts are registered, the guest
    reads and writes registers with any address, width and value and stores anything
    in its memory at any time, and the window thread works on the display bridge. *)
Inductive gpu_reach : M -> Prop :=
  | reach_init s d e : ram_ok (ram s) -> ram_oob s = false -> gpu_reach (s <| dev := gpu_fresh d e |>)
  | reach_device s : gpu_reach s -> gpu_reach (virtio_gpu_init s)
  | reach_scanout s w h : gpu_reach s -> gpu_reach (snd (virtio_gpu_register_scanout w h s))
  | reach_read s addr width : gpu_reach s -> gpu_reach (snd (virtio_gpu_read addr width s))
  | reach_write s addr width value : gpu_reach s -> is_u32 value -> gpu_reach (virtio_gpu_write addr width value s)
  | reach_ram s m : gpu_reach s -> ram_ok m -> gpu_reach (s <| ram := m |>)
  | reach_display s f : gpu_reach s -> gpu_reach (on_disp f s).

Lemma fresh_safe s d e : ram_ok (ram s) -> ram_oob s = false -> gpu_safe (s <| dev := gpu_fresh d e |>).
Proof.
  intros R O. constructor; try done.
  - split; [done|]. split; [|cbn; lia]. apply Forall_replicate, zero_gqueue_ok.
  - constructor; try done.
    + constructor.
    + change (Forall (bound_ok []) (replicate 16 zero_scanout)). apply Forall_replicate.
      by split; intros X; destruct (X eq_refl).
    + change (forall i so, replicate 16 zero_scanout !! i = Some so -> bound_to_any so -> Z.of_nat i < 0 /\ so_enabled so <> 0).
      intros i so Hi [Hb|Hb]; apply lookup_replicate in Hi as [-> _]; by destruct (Hb eq_refl).
Qed.

Lemma reach_safe s : gpu_reach s -> gpu_safe s.
Proof.
  induction 1 as [s d e R O|s _ IH|s w h _ IH|s addr width _ IH|s addr width value _ IH Hv|s m _ IH Hm|s f _ IH].
  - by apply fresh_safe.
  - destruct IH as [R O H G [D1 D2 D3 D4 D5 D6]]. unfold virtio_gpu_init.
    case_match; by constructor; [| | | |constructor].
  - by apply register_scanout_safe.
  - by apply read_safe.
  - by apply write_safe.
  - destruct IH as [R O H G D]. by constructor.
  - by apply safe_disp.
Qed.

(** C20: Whatever the guest writes into the device's registers, its virtqueues and
    the requests in its memory, the GPU never accesses memory outside guest RAM, never
    copies outside a host allocation, holds at most [VGPU_SW_MAX_HOSTMEM] bytes of host
    memory for images, and its accounting is the sum of the live resources; resource
    ids are unique and not zero, images have the size of their geometry, and a scanout that shows a
    resource shows a live one, through a view inside it. *)
Theorem gpu_no_escape s : gpu_reach s ->
  ram_oob s = false /\ host_oob (dev s) = false /\
  hostmem (dev s) = total_size (res_list (dev s)) /\ hostmem (dev s) <= VGPU_SW_MAX_HOSTMEM /\
  NoDup (resource_id <$> res_list (dev s)) /\
  Forall (fun r => resource_id r <> 0 /\ Z.of_nat (length (image r)) = 4 * r_width r * r_height r) (res_list (dev s)) /\
  forall so, so ∈ scanouts (gpu_data (dev s)) -> primary_resource_id so <> 0 ->
    exists r, find_res (primary_resource_id so) (res_list (dev s)) = Some r /\ view_ok so r.
Proof.
  intros Hr. destruct (reach_safe s Hr) as [R O H G [D1 D2 D3 [D4 D4'] D5 D6]]. split_and!; try done.
  - eapply Forall_impl; [exact D2|]. intros r [R1 R2 R3 R4 [R5 _] [R6 _] R7 _]. split; [lia|].
    by rewrite R7, R6, R5.
  - intros so Hso Hp. rewrite Forall_forall in D5. destruct (D5 so Hso) as [B _]. by apply B.
Qed.

(** *** Transfers *)

(** C21: TRANSFER_TO_HOST_2D on a resource with backing answers
    INVALID_PARAMETER, changing nothing, when the rectangle does not fit the resource
    or its source the backing; otherwise it answers OK and the image afterwards has,
    in every row of the rectangle, the bytes of the backing at [offset] plus the row
    times the stride, and everywhere else what it had, whichever of the code's two
    copy paths ran; other resources and guest RAM are unchanged. *)
Theorem transfer_exact vq rd req s res iov : gpu_safe s ->
  virtio_gpu_get_response_desc vq sizeof_ctrl_hdr = Some rd -> virtio_gpu_get_request vq 56 s = (Some req, s) ->
  vgpu_sw_get_resource_2d (fld32 s (req + 48)) s = Some res -> r_iovec res = Some iov ->
  let r := get_rect s (req + 24) in
  let offset := fld64 s (req + 40) in
  if vgpu_sw_rect_fits (r_width res) (r_height res) r && vgpu_sw_transfer_source_fits r offset res iov then
    exists res' s', vgpu_sw_cmd_transfer_to_host_2d_handler vq s = respond req rd VIRTIO_GPU_RESP_OK_NODATA s' /\
      vgpu_sw_get_resource_2d (resource_id res) s' = Some res' /\ ram s' = ram s /\
      length (image res') = length (image res) /\
      (forall k, 0 <= k -> arr_get 0 (image res') k =
         transferred r offset (r_stride res) (backing_stream s iov) (image res) k) /\
      forall id, id <> resource_id res -> vgpu_sw_get_resource_2d id s' = vgpu_sw_get_resource_2d id s
  else vgpu_sw_cmd_transfer_to_host_2d_handler vq s = respond req rd VIRTIO_GPU_RESP_ERR_INVALID_PARAMETER s.
Proof.
  intros H Hrd Hreq Hf Hi. cbv zeta. unfold vgpu_sw_cmd_transfer_to_host_2d_handler, with_response.
  rewrite Hrd, Hreq. cbv zeta. rewrite Hf, Hi.
  destruct (find_ok (queues (vgpu (dev s))) s _ res (conj H eq_refl) Hf) as [Rok Hid].
  destruct (vgpu_sw_rect_fits _ _ _) eqn:Hfit; cbn [andb negb]; [|done].
  destruct (vgpu_sw_transfer_source_fits _ _ _ _) eqn:Hsrc; cbn [negb]; [|done].
  assert (Ht : transfer_ok (get_rect s (req + 24)) (fld64 s (req + 40)) res iov s).
  { apply source_fits_spec; [exact Rok|exact Hi|apply fld32_u32|apply fld32_u32|apply fld32_u32|apply fld32_u32|
      apply fld64_u64|exact Hfit|exact Hsrc]. }
  rewrite <- Hid in Hf. destruct (copy_image_spec _ _ res iov s Ht Hf) as (f & Ef & Lf & Cf). rewrite Ef. cbn [negb].
  do 2 eexists. split; [reflexivity|]. split; [by rewrite get_on_res, Hf|]. split; [done|].
  split; [exact Lf|]. split; [exact Cf|]. intros id Hne. unfold vgpu_sw_get_resource_2d. cbn. by apply find_upd_ne.
Qed.

(** *** Flushing *)

Lemma push_appends c d : dring_ok d -> vgpu_display_is_cmd_queue_full d = false ->
  dcontents (vgpu_display_push_cmd c d) = dcontents d ++ [c] /\ payload_heap (vgpu_display_push_cmd c d) = payload_heap d.
Proof.
  intros R F. unfold vgpu_display_push_cmd, vgpu_display_is_cmd_queue_full in *. cbv zeta. rewrite F. split; [|done].
  destruct (dpush_entry d c R) as (R1 & C1 & L1 & G1). destruct (dring_facts d R) as [_ Fu].
  apply Z.eqb_neq in F. assert (Hl : dlen d < VGPU_DISPLAY_CMD_QUEUE_SIZE - 1).
  { pose proof (dlen_range d). assert (dlen d <> VGPU_DISPLAY_CMD_QUEUE_SIZE - 1) by tauto. lia. }
  rewrite <- L1 in Hl. destruct (dpush_head _ c R1 Hl G1) as (_ & C2 & _). rewrite C1 in C2. exact C2.
Qed.

(** Flushing a resource hands the window, for a scanout that shows it and while
    the bridge accepts frames and the host has memory, exactly the picture of the
    scanout: one more command at the end of the queue, for this scanout and its
    current generation, whose payload has the view's width, height and format and
    whose bytes are those of the resource's image at the view's position, row by row. *)
Theorem flush_publishes_view id res i s : gpu_safe s -> dring_ok (disp (dev s)) ->
  vgpu_sw_get_resource_2d id s = Some res ->
  let so := scanout_at s i in
  so_enabled so <> 0 -> primary_resource_id so = id -> vgpu_display_can_publish (disp (dev s)) = true ->
  fst (g_malloc (sizeof_payload + src_w so * 4 * src_h so) s) = true ->
  let s' := flush_scanout id res i s in
  exists ptr x,
    dcontents (disp (dev s')) = dcontents (disp (dev s)) ++
      [mk_dcmd (VGPU_DISPLAY_CMD_PRIMARY_SET ptr) i (generation (clear_at (disp (dev s)) Primary i))] /\
    ptr <> 0 /\ payload_heap (disp (dev s)) !! ptr = None /\ payload_heap (disp (dev s')) !! ptr = Some x /\
    pl_format x = r_format res /\ pl_width x = src_w so /\ pl_height x = src_h so /\ pl_stride x = 4 * src_w so /\
    Z.of_nat (length (pl_pixels x)) = 4 * src_w so * src_h so /\
    forall row col, 0 <= row < src_h so -> 0 <= col < 4 * src_w so ->
      arr_get 0 (pl_pixels x) (row * pl_stride x + col) =
      arr_get 0 (image res) ((src_y so + row) * r_stride res + 4 * src_x so + col).
Proof.
  intros H R Hf so En Ep Hp Hm. destruct (find_ok (queues (vgpu (dev s))) s id res (conj H eq_refl) Hf) as [Rok Hid].
  assert (V : view_ok so res).
  { destruct (scanout_bound s i H) as [B1 _]. fold so in B1. rewrite Ep in B1. destruct B1 as (r & Hr & V).
    - destruct Rok as [X _ _ _ _ _ _ _]. lia.
    - unfold vgpu_sw_get_resource_2d in Hf. rewrite Hf in Hr. by injection Hr as <-. }
  destruct V as (V1 & V2 & V3 & V4 & V5 & V6). destruct (snapshot_spec res _ _ _ _ Rok V1 V2 V3 V4 V5 V6) as [Ls Gs].
  cbv zeta. unfold flush_scanout. cbv zeta. fold so. unfold nz. rewrite (proj2 (Z.eqb_neq _ _) En), Ep, Z.eqb_refl, Hp.
  cbn [negb orb]. rewrite (create_payload_spec res (Some so) (src_x so) (src_y so) (src_w so) (src_h so)) by done.
  destruct (malloc_data (sizeof_payload + src_w so * 4 * src_h so) s) as (_ & _ & _ & _ & Md).
  destruct (g_malloc (sizeof_payload + src_w so * 4 * src_h so) s) as [ok s1]. cbn [fst snd] in *. subst ok.
  unfold payload_new. rewrite Md. set (ptr := fresh _).
  assert (Hfr : ptr ∉ dom (payload_heap (disp (dev s))) ∪ {[0]}) by apply is_fresh.
  apply not_elem_of_union in Hfr as [Hfr Hz%not_elem_of_singleton]. apply not_elem_of_dom in Hfr. clearbody ptr.
  rewrite (proj2 (Z.eqb_neq ptr 0) Hz). set (x := mk_payload _ _ _ _ _ _).
  set (d := (disp (dev s)) <| payload_heap := <[ptr := x]> (payload_heap (disp (dev s))) |>).
  unfold vgpu_display_can_publish in Hp. apply andb_true_iff in Hp as [Hu%negb_true_iff Hfull%negb_true_iff].
  change (disp (dev (on_disp ?g (on_disp ?f ?y)))) with (g (f (disp (dev y)))). cbv beta.
  unfold vgpu_display_publish_primary_set. change (vgpu_display_unavailable d) with (vgpu_display_unavailable (disp (dev s))).
  rewrite Hu. destruct (push_appends (mk_dcmd (VGPU_DISPLAY_CMD_PRIMARY_SET ptr) i (generation (clear_at d Primary i))) d R Hfull)
    as [C1 C2]. exists ptr, x. rewrite C1, C2. split_and!; try done.
  - cbn. apply lookup_insert_eq.
  - cbn. lia.
  - intros row col Hrow Hcol. change (pl_pixels x) with (snapshot res (src_x so) (src_y so) (src_w so) (src_h so)).
    change (pl_stride x) with (src_w so * 4).
    assert (Hb : 0 <= row * (src_w so * 4)) by (apply Z.mul_nonneg_nonneg; lia).
    assert (Hb2 : row * (src_w so * 4) <= (src_h so - 1) * (src_w so * 4)) by (apply Z.mul_le_mono_nonneg_r; lia).
    rewrite Gs by lia. unfold view_pixel. replace (row * (src_w so * 4) + col) with (col + row * (4 * src_w so)) by lia.
    rewrite Z.div_add, Z.mod_add, Z.div_small, Z.mod_small by lia. f_equal.
Qed.
End Theorems.
