(* ===== verification/VirtioFs.v ===== *)
(** * The shared-directory device (virtio-fs.c, fuse.h)

    FUSE requests in guest memory answered with the host's files. Paths are byte
    lists without the final zero; the host's file system, directory streams and
    allocator are the class [FsHost]. The handles the device gives out are host
    pointers: [dir_handles] is the heap of [dir_handle_t], and [wild_handle] records
    that a pointer from the guest that is not in it was used. Messages to the
    console are left out. *)

From stdpp Require Import base gmap list.
From Stdlib Require Import ZArith Lia Bool.
From S2P Require Import Prelude Isa Hart Machine Loops Device Virtio.
Open Scope Z_scope.

(* [virtio-fs.c:18-24] *)
Definition VFS_DEV_CNT_MAX := 1.
Definition VFS_FEATURES_0 := 0.
Definition VFS_FEATURES_1 := 1.
Definition VFS_QUEUE_NUM_MAX := 1024.
Definition NUM_REQUEST_QUEUES_ADDR := 0x49.

(* [virtio.h:30-41] FUSE op codes *)
Definition FUSE_INIT := 26.
Definition FUSE_GETATTR := 3.
Definition FUSE_OPENDIR := 27.
Definition FUSE_READDIRPLUS := 44.
Definition FUSE_LOOKUP := 1.
Definition FUSE_FORGET := 2.
Definition FUSE_RELEASEDIR := 29.
Definition FUSE_OPEN := 14.
Definition FUSE_READ := 15.
Definition FUSE_RELEASE := 18.
Definition FUSE_FLUSH := 25.
Definition FUSE_DESTROY := 38.

(* [virtio.h:48-61] FUSE init flags *)
Definition FUSE_ASYNC_READ := 1.
Definition FUSE_BIG_WRITES := Z.shiftl 1 5.
Definition FUSE_DO_READDIRPLUS := Z.shiftl 1 13.

(** errno values of the host *)
Definition ENOENT := 2.
Definition ENOMEM := 12.
Definition EOPNOTSUPP := 95.

(** [sizeof] of the structures and the offsets of the fields that are used. *)
(* [fuse.h:8-23] fuse_in_header, fuse_out_header *)
Definition IN_opcode := 4.
Definition IN_unique := 8.
Definition IN_nodeid := 16.
Definition sizeof_out_header := 16.
Definition OUT_error := 4.
Definition OUT_unique := 8.

(* [fuse.h:42-53] fuse_init_out *)
Definition sizeof_init_out := 72.

(* [fuse.h:62-86] fuse_attr, fuse_attr_out *)
Definition sizeof_attr_out := 104.
Definition ATTR_OUT_attr := 16.

(* [fuse.h:93-97] fuse_open_out *)
Definition sizeof_open_out := 16.

(* [fuse.h:109-130] fuse_entry_out, fuse_dirent, fuse_direntplus *)
Definition sizeof_entry_out := 128.
Definition ENTRY_OUT_attr := 40.
Definition sizeof_dirent := 24.
Definition sizeof_direntplus := sizeof_entry_out + sizeof_dirent.

(** What the device uses of [struct stat]. *)
Record stat_t := mk_stat {
  st_ino : Z; st_mode : Z; st_nlink : Z; st_uid : Z; st_gid : Z; st_size : Z; st_blksize : Z; st_blocks : Z;
  st_atime : Z; st_mtime : Z; st_ctime : Z }.

(** The host: a failing call gives its [errno]; a null path is [None]; the entries
    of a directory stream are those [readdir] returns after [rewinddir]. *)
Class FsHost (E : Type) := {
  fs_stat : option (list Z) -> E -> (Z + stat_t) * E;
  fs_open : option (list Z) -> E -> (Z + Z) * E;
  fs_pread : Z -> Z -> Z -> E -> (Z + list Z) * E;
  fs_close : Z -> E -> E;
  fs_opendir : list Z -> E -> option Z * E;
  fs_readdir : Z -> E -> list (list Z) * E;
  fs_closedir : Z -> E -> E;
  fs_malloc : Z -> E -> bool * E }.

(* [device.h:494-498] inode_map_entry *)
Record inode_map_entry := mk_inode { ino : Z; ipath : list Z }.

(* [virtio-fs.c:34-37] dir_handle_t *)
Record dir_handle_t := mk_dirh { dh_dir : Z; dh_path : list Z }.

(** The device, the bytes of its [virtio_fs_config], the static counter. *)
(* [device.h:500-533] virtio_fs_state_t *)
Record fs_dev (E : Type) := mk_fsdev {
  vfs_regs : virtio_state; mount_tag : list Z; shared_dir : option (list Z); inode_map : list inode_map_entry;
  vfs_config : list Z; vfs_dev_cnt : Z; dir_handles : gmap Z dir_handle_t; wild_handle : bool;
  vfs_config_oob : bool; vfs_div_zero : bool; vfs_exit : bool; fs_host : E }.
Arguments mk_fsdev {E}. Arguments vfs_regs {E}. Arguments mount_tag {E}. Arguments shared_dir {E}.
Arguments inode_map {E}. Arguments vfs_config {E}. Arguments vfs_dev_cnt {E}. Arguments dir_handles {E}.
Arguments wild_handle {E}. Arguments vfs_config_oob {E}. Arguments vfs_div_zero {E}. Arguments vfs_exit {E}.
Arguments fs_host {E}.

#[export] Instance eta_fsdev {E} : Eta (fs_dev E) := fun r =>
  mk_fsdev (vfs_regs r) (mount_tag r) (shared_dir r) (inode_map r) (vfs_config r) (vfs_dev_cnt r) (dir_handles r)
    (wild_handle r) (vfs_config_oob r) (vfs_div_zero r) (vfs_exit r) (fs_host r).
#[export] Instance set_vfs_regs {E} : Setter (@vfs_regs E) := ltac:(solve_setter).
#[export] Instance set_mount_tag {E} : Setter (@mount_tag E) := ltac:(solve_setter).
#[export] Instance set_shared_dir {E} : Setter (@shared_dir E) := ltac:(solve_setter).
#[export] Instance set_inode_map {E} : Setter (@inode_map E) := ltac:(solve_setter).
#[export] Instance set_vfs_config {E} : Setter (@vfs_config E) := ltac:(solve_setter).
#[export] Instance set_vfs_dev_cnt {E} : Setter (@vfs_dev_cnt E) := ltac:(solve_setter).
#[export] Instance set_dir_handles {E} : Setter (@dir_handles E) := ltac:(solve_setter).
#[export] Instance set_wild_handle {E} : Setter (@wild_handle E) := ltac:(solve_setter).
#[export] Instance set_vfs_config_oob {E} : Setter (@vfs_config_oob E) := ltac:(solve_setter).
#[export] Instance set_vfs_div_zero {E} : Setter (@vfs_div_zero E) := ltac:(solve_setter).
#[export] Instance set_vfs_exit {E} : Setter (@vfs_exit E) := ltac:(solve_setter).
#[export] Instance set_fs_host {E} : Setter (@fs_host E) := ltac:(solve_setter).

(* [virtio-fs.c:39-47] find_inode_path *)
Definition find_inode_path (map : list inode_map_entry) (i : Z) : option inode_map_entry :=
  List.find (fun e => ino e =? i) map.

(** The C string at the start of a buffer. *)
Fixpoint cstr (bytes : list Z) : list Z :=
  match bytes with [] => [] | b :: bytes => if b =? 0 then [] else b :: cstr bytes end.

Definition SLASH := 47.
Definition path_join (dir name : list Z) : list Z := dir ++ SLASH :: name.

Section Fs.
Context {E : Type} `{HostE : FsHost E}.
Abbreviation M := (machine (fs_dev E)).
Implicit Types s : M.

Definition on_fdev (f : fs_dev E -> fs_dev E) s : M := s <| dev := f (dev s) |>.
Definition on_fregs (f : virtio_state -> virtio_state) s : M := on_fdev (fun d => d <| vfs_regs := f (vfs_regs d) |>) s.

(** Calls of the host. *)
Definition h_call {A} (f : E -> A * E) s : A * M :=
  let '(a, e) := f (fs_host (dev s)) in (a, on_fdev (fun d => d <| fs_host := e |>) s).
Definition h_do (f : E -> E) s : M := on_fdev (fun d => d <| fs_host := f (fs_host d) |>) s.
Definition f_malloc (size : Z) s : bool * M := h_call (fs_malloc size) s.

(** A field read from guest memory. *)
Definition get32 (off : Z) s : Z * M := (fld32 s off, touch off 4 s).
Definition get64 (off : Z) s : Z * M := (fld64 s off, touch off 8 s).

(* [virtio-fs.c:52-57] virtio_fs_set_fail *)
Definition virtio_fs_set_fail s : M := on_fregs virtio_set_fail s.

(* [virtio-fs.c:59-65] vfs_preprocess *)
Definition vfs_preprocess (addr : Z) s : Z * M :=
  if (RAM_SIZE <=? addr) || nz (Z.land addr 3) then (0, virtio_fs_set_fail s) else (Z.shiftr addr 2, s).

(** Without a shared directory the reset does nothing. The copies need two
    allocations; if one fails the device is left without a directory. *)
(* [virtio-fs.c:67-103] virtio_fs_update_status *)
Definition virtio_fs_update_status (status : Z) s : M :=
  let s := on_fregs (fun d => d <| Status := Z.lor (Status d) status |>) s in
  if nz status then s
  else
    match shared_dir (dev s) with
    | None => s
    | Some dir =>
      let len := Z.of_nat (length dir) + 1 in
      let '(ok, s) := f_malloc len s in
      let s := on_fregs (fun _ => zero_virtio 3) s in
      if negb ok then on_fdev (fun d => d <| shared_dir := None |>) s
      else
        let '(ok, s) := f_malloc len s in
        on_fdev (fun d => d <| shared_dir := if ok then Some dir else None |>) s
    end.

(** ** Replies *)

(** [header_resp->out.len = len; header_resp->out.error = 0;] *)
Definition put_header (vq_desc : list virtq_desc) (len : Z) s : M :=
  let header_resp := d_addr (desc_at vq_desc 2) in
  put32 (header_resp + OUT_error) 0 (put32 header_resp (u32 len) s).
(** [*plen = header_resp->out.len;] *)
Definition header_len (vq_desc : list virtq_desc) s : Z * M := get32 (d_addr (desc_at vq_desc 2)) s.
(** [header_resp->out.error = -err; *plen = sizeof(struct fuse_out_header);] *)
Definition put_error (vq_desc : list virtq_desc) (err : Z) s : Z * M :=
  (sizeof_out_header, put32 (d_addr (desc_at vq_desc 2) + OUT_error) (u32 (- err)) s).

(* [virtio-fs.c:105-129] virtio_fs_init_handler *)
Definition virtio_fs_init_handler (vq_desc : list virtq_desc) s : Z * M :=
  let init_out := d_addr (desc_at vq_desc 3) in
  let s := put_header vq_desc (sizeof_out_header + sizeof_init_out) s in
  let s := put32 init_out 7 s in
  let s := put32 (init_out + 4) 41 s in
  let s := put32 (init_out + 8) 0x10000 s in
  let s := put32 (init_out + 12) (Z.lor (Z.lor FUSE_ASYNC_READ FUSE_BIG_WRITES) FUSE_DO_READDIRPLUS) s in
  let s := put16 (init_out + 16) 64 s in
  let s := put16 (init_out + 18) 32 s in
  let s := put32 (init_out + 20) 0x131072 s in
  let s := put32 (init_out + 24) 1 s in
  header_len vq_desc s.

(** The fields of [struct fuse_attr] the device fills in; they are disjoint, so the
    order of the stores, which differs between the handlers, does not matter. *)
(* [virtio-fs.c:171-181] virtio_fs_getattr_handler *)
Definition put_attr (attr : Z) (st : stat_t) s : M :=
  let s := put64 attr (u64 (st_ino st)) s in
  let s := put64 (attr + 8) (u64 (st_size st)) s in
  let s := put64 (attr + 16) (u64 (st_blocks st)) s in
  let s := put64 (attr + 24) (u64 (st_atime st)) s in
  let s := put64 (attr + 32) (u64 (st_mtime st)) s in
  let s := put64 (attr + 40) (u64 (st_ctime st)) s in
  let s := put32 (attr + 60) (u32 (st_mode st)) s in
  let s := put32 (attr + 64) (u32 (st_nlink st)) s in
  let s := put32 (attr + 68) (u32 (st_uid st)) s in
  let s := put32 (attr + 72) (u32 (st_gid st)) s in
  put32 (attr + 80) (u32 (st_blksize st)) s.

(** The path of an inode: the root is the shared directory. [None] without an entry. *)
(* [virtio-fs.c:150-161] virtio_fs_getattr_handler *)
Definition target_path (inode : Z) s : option (option (list Z)) :=
  if inode =? 1 then Some (shared_dir (dev s))
  else (fun e => Some (ipath e)) <$> find_inode_path (inode_map (dev s)) inode.

(* [virtio-fs.c:131-184] virtio_fs_getattr_handler *)
Definition virtio_fs_getattr_handler (vq_desc : list virtq_desc) s : Z * M :=
  let '(inode, s) := get64 (d_addr (desc_at vq_desc 0) + IN_nodeid) s in
  let outattr := d_addr (desc_at vq_desc 3) in
  let s := put_header vq_desc (sizeof_out_header + sizeof_attr_out) s in
  match target_path inode s with
  | None => put_error vq_desc ENOENT s
  | Some path =>
    match h_call (fs_stat path) s with
    | (inl errno, s) => put_error vq_desc errno s
    | (inr st, s) =>
      let s := put64 outattr 60 s in
      let s := put32 (outattr + 8) 0 s in
      let s := put_attr (outattr + ATTR_OUT_attr) st s in
      header_len vq_desc s
    end
  end.

(** Early returns leave the length zero and write no reply. *)
(* [virtio-fs.c:186-234] virtio_fs_opendir_handler *)
Definition virtio_fs_opendir_handler (vq_desc : list virtq_desc) s : Z * M :=
  let '(nodeid, s) := get64 (d_addr (desc_at vq_desc 0) + IN_nodeid) s in
  match find_inode_path (inode_map (dev s)) nodeid with
  | None => (0, s)
  | Some entry =>
    match h_call (fs_opendir (ipath entry)) s with
    | (None, s) => (0, s)
    | (Some dir, s) =>
      let '(ok, s) := f_malloc 16 s in
      if negb ok then (0, h_do (fs_closedir dir) s)
      else
        let '(ok, s) := f_malloc (Z.of_nat (length (ipath entry)) + 1) s in
        if negb ok then (0, h_do (fs_closedir dir) s)
        else
          let handle := fresh (dom (dir_handles (dev s)) ∪ {[0]}) in
          let s := on_fdev (fun d => d <| dir_handles := <[handle := mk_dirh dir (ipath entry)]> (dir_handles d) |>) s in
          let open_out := d_addr (desc_at vq_desc 3) in
          let s := g_memset0 open_out sizeof_open_out s in
          let s := put64 open_out handle s in
          let s := put32 (open_out + 8) 0 s in
          let s := put_header vq_desc (sizeof_out_header + sizeof_open_out) s in
          header_len vq_desc s
    end
  end.

(** [S_ISDIR] *)
Definition S_ISDIR (mode : Z) : bool := Z.land mode 0xF000 =? 0x4000.

(* [virtio-fs.c:283-297] virtio_fs_readdirplus_handler *)
Definition put_entry (entry_out : Z) (st : stat_t) s : M :=
  let s := g_memset0 entry_out sizeof_entry_out s in
  let s := put64 entry_out (u64 (st_ino st)) s in
  put_attr (entry_out + ENTRY_OUT_attr) st s.

(** One directory entry at [base + offset]; gives the offset of the next one. *)
(* [virtio-fs.c:255-312] virtio_fs_readdirplus_handler *)
Definition put_direntplus (base offset : Z) (dir_path name : list Z) s : Z * M :=
  if bool_decide (name = [46]) || bool_decide (name = [46; 46]) then (offset, s)
  else
    let name_len := Z.of_nat (length name) in
    let full_path := path_join dir_path name in
    let '(ok, s) := f_malloc (Z.of_nat (length full_path) + 1) s in
    if negb ok then (offset, s)
    else
      match h_call (fs_stat (Some full_path)) s with
      | (inl _, s) => (offset, s)
      | (inr st, s) =>
        let s := put_entry (base + offset) st s in
        let direntplus := base + offset + sizeof_entry_out in
        let dirent := direntplus + sizeof_entry_out in
        let s := put64 dirent (u64 (st_ino st)) s in
        let s := put32 (dirent + 16) (u32 name_len) s in
        let s := put32 (dirent + 20) (if S_ISDIR (st_mode st) then 4 else 8) s in
        let s := dma_write (dirent + 24) name s in
        let dirent_size := sizeof_direntplus + name_len in
        let dirent_aligned := Z.land (dirent_size + 7) (Z.lnot 7) in
        (offset + (sizeof_entry_out + dirent_aligned), s)
      end.
Fixpoint put_direntries (base offset : Z) (dir_path : list Z) (names : list (list Z)) s : Z * M :=
  match names with
  | [] => (offset, s)
  | name :: names =>
    let '(offset, s) := put_direntplus base offset dir_path name s in
    put_direntries base offset dir_path names s
  end.

(** An allocated handle has a directory stream, so only the null test remains. *)
(* [virtio-fs.c:236-321] virtio_fs_readdirplus_handler *)
Definition virtio_fs_readdirplus_handler (vq_desc : list virtq_desc) s : Z * M :=
  let '(fh, s) := get64 (d_addr (desc_at vq_desc 1)) s in
  if fh =? 0 then (0, s)
  else
    match dir_handles (dev s) !! fh with
    | None => (0, on_fdev (fun d => d <| wild_handle := true |>) s)
    | Some handle =>
      let base := d_addr (desc_at vq_desc 3) in
      let '(names, s) := h_call (fs_readdir (dh_dir handle)) s in
      let '(offset, s) := put_direntries base 0 (dh_path handle) names s in
      let s := put_header vq_desc (sizeof_out_header + offset) s in
      header_len vq_desc s
    end.

(* [virtio-fs.c:323-342] virtio_fs_releasedir_handler *)
Definition virtio_fs_releasedir_handler (vq_desc : list virtq_desc) s : Z * M :=
  let '(fh, s) := get64 (d_addr (desc_at vq_desc 1)) s in
  let s :=
    if fh =? 0 then s
    else
      match dir_handles (dev s) !! fh with
      | None => on_fdev (fun d => d <| wild_handle := true |>) s
      | Some handle => on_fdev (fun d => d <| dir_handles := delete fh (dir_handles d) |>)
                         (h_do (fs_closedir (dh_dir handle)) s)
      end in
  header_len vq_desc (put_header vq_desc sizeof_out_header s).

(** The entry of an inode, added to the map when there is none; [false] when an
    allocation failed. *)
(* [virtio-fs.c:402-422] virtio_fs_lookup_handler *)
Definition remember_inode (i : Z) (host_path : list Z) s : bool * M :=
  match find_inode_path (inode_map (dev s)) i with
  | Some _ => (true, s)
  | None =>
    let '(ok, s) := f_malloc 24 s in
    if negb ok then (false, s)
    else
      let '(ok, s) := f_malloc (Z.of_nat (length host_path) + 1) s in
      if negb ok then (false, s)
      else (true, on_fdev (fun d => d <| inode_map := mk_inode i host_path :: inode_map d |>) s)
  end.

(* [virtio-fs.c:344-449] virtio_fs_lookup_handler *)
Definition virtio_fs_lookup_handler (vq_desc : list virtq_desc) s : Z * M :=
  let '(parent_inode, s) := get64 (d_addr (desc_at vq_desc 0) + IN_nodeid) s in
  let name_len := d_len (desc_at vq_desc 1) in
  if name_len =? 0 then (0, s)
  else
    let '(ok, s) := f_malloc (name_len + 1) s in
    if negb ok then (0, s)
    else
      let '(name_buf, s) := dma_read (d_addr (desc_at vq_desc 1)) (Z.to_nat name_len) s in
      match find_inode_path (inode_map (dev s)) parent_inode with
      | None => (0, s)
      | Some parent_entry =>
        let host_path := path_join (ipath parent_entry) (cstr name_buf) in
        let '(ok, s) := f_malloc (Z.of_nat (length host_path) + 1) s in
        if negb ok then (0, s)
        else
          match h_call (fs_stat (Some host_path)) s with
          | (inl _, s) => put_error vq_desc ENOENT s
          | (inr st, s) =>
            let '(ok, s) := remember_inode (u64 (st_ino st)) host_path s in
            if negb ok then (0, s)
            else
              let s := put_entry (d_addr (desc_at vq_desc 3)) st s in
              let s := put_header vq_desc (sizeof_out_header + sizeof_entry_out) s in
              header_len vq_desc s
          end
      end.

(* [virtio-fs.c:451-497] virtio_fs_open_handler *)
Definition virtio_fs_open_handler (vq_desc : list virtq_desc) s : Z * M :=
  let '(inode, s) := get64 (d_addr (desc_at vq_desc 0) + IN_nodeid) s in
  match target_path inode s with
  | None => put_error vq_desc ENOENT s
  | Some path =>
    match h_call (fs_open path) s with
    | (inl errno, s) => put_error vq_desc errno s
    | (inr fd, s) =>
      let open_out := d_addr (desc_at vq_desc 3) in
      let s := put64 open_out (u64 fd) s in
      let s := put32 (open_out + 8) 0 s in
      let s := put_header vq_desc (sizeof_out_header + sizeof_open_out) s in
      header_len vq_desc s
    end
  end.

(* [virtio-fs.c:499-539] virtio_fs_read_handler *)
Definition virtio_fs_read_handler (vq_desc : list virtq_desc) s : Z * M :=
  let read_in := d_addr (desc_at vq_desc 1) in
  let '(fh, s) := get64 read_in s in
  let '(offset, s) := get64 (read_in + 8) s in
  let '(size, s) := get32 (read_in + 16) s in
  let '(ok, s) := f_malloc size s in
  if negb ok then put_error vq_desc ENOMEM s
  else
    match h_call (fs_pread (s32 fh) size (s64 offset)) s with
    | (inl errno, s) => put_error vq_desc errno s
    | (inr bytes, s) =>
      let s := dma_write (d_addr (desc_at vq_desc 3)) bytes s in
      let s := put_header vq_desc (sizeof_out_header + Z.of_nat (length bytes)) s in
      header_len vq_desc s
    end.

(* [virtio-fs.c:541-554] virtio_fs_release_handler *)
Definition virtio_fs_release_handler (vq_desc : list virtq_desc) s : Z * M :=
  let '(fh, s) := get64 (d_addr (desc_at vq_desc 1)) s in
  let s := h_do (fs_close (s32 fh)) s in
  header_len vq_desc (put_header vq_desc sizeof_out_header s).

(* [virtio-fs.c:556-565] virtio_fs_flush_handler *)
Definition virtio_fs_flush_handler (vq_desc : list virtq_desc) s : Z * M :=
  header_len vq_desc (put_header vq_desc sizeof_out_header s).

(* [virtio-fs.c:568-577] virtio_fs_forget_handler *)
Definition virtio_fs_forget_handler (vq_desc : list virtq_desc) s : Z * M :=
  header_len vq_desc (put_header vq_desc sizeof_out_header s).

(* [virtio-fs.c:579-588] virtio_fs_destroy_handler *)
Definition virtio_fs_destroy_handler (vq_desc : list virtq_desc) s : Z * M :=
  header_len vq_desc (put_header vq_desc sizeof_out_header s).

(* [virtio-fs.c:590-610] virtio_fs_default_handler *)
Definition virtio_fs_default_handler (vq_desc : list virtq_desc) s : Z * M :=
  let '(unique, s) := get64 (d_addr (desc_at vq_desc 0) + IN_unique) s in
  if sizeof_out_header <=? d_len (desc_at vq_desc 2) then
    (sizeof_out_header,
     dma_write (d_addr (desc_at vq_desc 2))
       (le_bytes 4 sizeof_out_header ++ le_bytes 4 (u32 (- EOPNOTSUPP)) ++ le_bytes 8 unique) s)
  else (0, s).

(** ** Queues *)

(** Four descriptors, whatever their flags say. *)
(* [virtio-fs.c:617-626] virtio_fs_desc_handler *)
Fixpoint fs_descs (n : nat) (queue : virtq_t) (desc_idx : Z) s : list virtq_desc * M :=
  match n with
  | O => ([], s)
  | S n =>
    let '(d, s) := read_desc (u32 (QueueDesc queue + desc_idx * 4)) s in
    let '(ds, s) := fs_descs n queue (d_next d) s in
    (mk_desc (d_addr d) (d_len d) (d_flags d) 0 :: ds, s)
  end.

(* [virtio-fs.c:631-671] virtio_fs_desc_handler *)
Definition fs_dispatch (op : Z) (vq_desc : list virtq_desc) s : Z * M :=
  if op =? FUSE_INIT then virtio_fs_init_handler vq_desc s
  else if op =? FUSE_GETATTR then virtio_fs_getattr_handler vq_desc s
  else if op =? FUSE_OPENDIR then virtio_fs_opendir_handler vq_desc s
  else if op =? FUSE_READDIRPLUS then virtio_fs_readdirplus_handler vq_desc s
  else if op =? FUSE_LOOKUP then virtio_fs_lookup_handler vq_desc s
  else if op =? FUSE_FORGET then virtio_fs_forget_handler vq_desc s
  else if op =? FUSE_RELEASEDIR then virtio_fs_releasedir_handler vq_desc s
  else if op =? FUSE_OPEN then virtio_fs_open_handler vq_desc s
  else if op =? FUSE_READ then virtio_fs_read_handler vq_desc s
  else if op =? FUSE_RELEASE then virtio_fs_release_handler vq_desc s
  else if op =? FUSE_FLUSH then virtio_fs_flush_handler vq_desc s
  else if op =? FUSE_DESTROY then virtio_fs_destroy_handler vq_desc s
  else virtio_fs_default_handler vq_desc s.

(* [virtio-fs.c:612-675] virtio_fs_desc_handler *)
Definition virtio_fs_desc_handler (queue : virtq_t) (desc_idx : Z) s : Z * M :=
  let '(vq_desc, s) := fs_descs 4 queue desc_idx s in
  let '(op, s) := get32 (d_addr (desc_at vq_desc 0) + IN_opcode) s in
  fs_dispatch op vq_desc s.

Definition fqueue s (index : Z) : virtq_t := queue_at (vfs_regs (dev s)) index.

(** The loop over the new buffers; [None] when it divides by zero. *)
(* [virtio-fs.c:695-711] virtio_queue_notify_handler *)
Fixpoint fs_notify_loop (n : nat) (index new_used : Z) s : option Z * M :=
  match n with
  | O => (Some new_used, s)
  | S n =>
    let queue := fqueue s index in
    if QueueNum queue =? 0 then (None, on_fdev (fun d => d <| vfs_div_zero := true |>) s)
    else
      let queue_idx := last_avail queue mod QueueNum queue in
      let '(buffer_idx, s) := avail_entry queue queue_idx s in
      let '(len, s) := virtio_fs_desc_handler queue buffer_idx s in
      let s := used_append queue new_used buffer_idx len s in
      let s := on_fregs (upd_queue index (fun q => q <| last_avail := u16 (last_avail q + 1) |>)) s in
      fs_notify_loop n index (u16 (new_used + 1)) s
  end.

(** The loop ends when [last_avail] has reached [new_avail] modulo 2^16. The size
    test compares the difference as an [int]. *)
(* [virtio-fs.c:677-718] virtio_queue_notify_handler *)
Definition virtio_fs_queue_notify_handler (index : Z) s : M :=
  let queue := fqueue s index in
  let status := Status (vfs_regs (dev s)) in
  if nz (Z.land status VIRTIO_STATUS__DEVICE_NEEDS_RESET) then s
  else if negb (nz (Z.land status VIRTIO_STATUS__DRIVER_OK) && ready queue) then virtio_fs_set_fail s
  else
    let '(w, s) := ram_get (QueueAvail queue) s in
    let new_avail := Z.shiftr w 16 in
    if u16 (QueueNum queue) <? new_avail - last_avail queue then virtio_fs_set_fail s
    else if last_avail queue =? new_avail then s
    else
      let '(w, s) := ram_get (QueueUsed queue) s in
      match fs_notify_loop (Z.to_nat (u16 (new_avail - last_avail queue))) index (Z.shiftr w 16) s with
      | (None, s) => s
      | (Some new_used, s) =>
        let queue := fqueue s index in
        let s := used_publish queue new_used s in
        let '(w, s) := ram_get (QueueAvail queue) s in
        if nz (Z.land w 1) then s
        else on_fregs (fun d => d <| InterruptStatus := Z.lor (InterruptStatus d) VIRTIO_INT__USED_RING |>) s
      end.

(** ** Registers *)

(** [sizeof(struct virtio_fs_config)] *)
(* [virtio-fs.c:28-32] virtio_fs_config *)
Definition sizeof_fs_config := 44.

Definition fsel s : virtq_t := fqueue s (QueueSel (vfs_regs (dev s))).
Definition upd_fsel (f : virtq_t -> virtq_t) s : M := on_fregs (fun d => upd_queue (QueueSel d) f d) s.

(** Loads from the configuration: [None] is a fault, a load outside the structure is
    recorded. *)
(* [virtio-fs.c:758-770] virtio_fs_reg_read *)
Definition cfg_read (addr : Z) s : option Z * M :=
  let cfg := vfs_config (dev s) in
  if addr =? NUM_REQUEST_QUEUES_ADDR then
    (Some (le_value (take 4 (drop (Z.to_nat (4 * (addr - VIRTIO_Config))) cfg))), s)
  else if negb (RANGE_CHECK (Z.shiftr addr 2) VIRTIO_Config sizeof_fs_config) then (None, s)
  else
    let cfg_offset := u32 (addr - Z.shiftl VIRTIO_Config 2) in
    (Some (arr_get 0 cfg cfg_offset),
     if cfg_offset <? sizeof_fs_config then s else on_fdev (fun d => d <| vfs_config_oob := true |>) s).

(* [virtio-fs.c:720-772] virtio_fs_reg_read *)
Definition virtio_fs_reg_read (addr : Z) s : option Z * M :=
  let d := vfs_regs (dev s) in
  if addr =? VIRTIO_MagicValue then (Some 0x74726976, s)
  else if addr =? VIRTIO_Version then (Some 2, s)
  else if addr =? VIRTIO_DeviceID then (Some 26, s)
  else if addr =? VIRTIO_VendorID then (Some VIRTIO_VENDOR_ID, s)
  else if addr =? VIRTIO_DeviceFeatures then
    (Some (if DeviceFeaturesSel d =? 0 then VFS_FEATURES_0
           else if DeviceFeaturesSel d =? 1 then VFS_FEATURES_1 else 0), s)
  else if addr =? VIRTIO_QueueNumMax then (Some VFS_QUEUE_NUM_MAX, s)
  else if addr =? VIRTIO_QueueReady then (Some (b2z (ready (fsel s))), s)
  else if addr =? VIRTIO_InterruptStatus then (Some (InterruptStatus d), s)
  else if addr =? VIRTIO_Status then (Some (Status d), s)
  else if addr =? VIRTIO_ConfigGeneration then (Some 0, s)
  else cfg_read addr s.

(** [((uint32_t * ) PRIV(vfs))[i] = value] *)
(* [virtio-fs.c:843-852] virtio_fs_reg_write *)
Definition cfg_write (addr value : Z) s : bool * M :=
  if negb (RANGE_CHECK addr VIRTIO_Config sizeof_fs_config) then (false, s)
  else
    let i := 4 * (addr - VIRTIO_Config) in
    if i + 4 <=? sizeof_fs_config then
      (true, on_fdev (fun d => d <| vfs_config := take (Z.to_nat i) (vfs_config d) ++ le_bytes 4 value
                                      ++ drop (Z.to_nat (i + 4)) (vfs_config d) |>) s)
    else (true, on_fdev (fun d => d <| vfs_config_oob := true |>) s).

(** [false] is a store fault. *)
(* [virtio-fs.c:774-854] virtio_fs_reg_write *)
Definition virtio_fs_reg_write (addr value : Z) s : bool * M :=
  let d := vfs_regs (dev s) in
  if addr =? VIRTIO_DeviceFeaturesSel then (true, on_fregs (fun d => d <| DeviceFeaturesSel := value |>) s)
  else if addr =? VIRTIO_DriverFeatures then
    (true, if DriverFeaturesSel d =? 0 then on_fregs (fun d => d <| DriverFeatures := value |>) s else s)
  else if addr =? VIRTIO_DriverFeaturesSel then (true, on_fregs (fun d => d <| DriverFeaturesSel := value |>) s)
  else if addr =? VIRTIO_QueueSel then
    (true, if value <? 3 then on_fregs (fun d => d <| QueueSel := value |>) s else virtio_fs_set_fail s)
  else if addr =? VIRTIO_QueueNum then
    (true, if (0 <? value) && (value <=? VFS_QUEUE_NUM_MAX)
           then upd_fsel (fun q => q <| QueueNum := value |>) s else virtio_fs_set_fail s)
  else if addr =? VIRTIO_QueueReady then
    let s := upd_fsel (fun q => q <| ready := nz (Z.land value 1) |>) s in
    (true, if nz (Z.land value 1) then
             let '(w, s) := ram_get (QueueAvail (fsel s)) s in
             upd_fsel (fun q => q <| last_avail := Z.shiftr w 16 |>) s
           else s)
  else if addr =? VIRTIO_QueueDescLow then
    let '(a, s) := vfs_preprocess value s in (true, upd_fsel (fun q => q <| QueueDesc := a |>) s)
  else if addr =? VIRTIO_QueueDescHigh then (true, if nz value then virtio_fs_set_fail s else s)
  else if addr =? VIRTIO_QueueDriverLow then
    let '(a, s) := vfs_preprocess value s in (true, upd_fsel (fun q => q <| QueueAvail := a |>) s)
  else if addr =? VIRTIO_QueueDriverHigh then (true, if nz value then virtio_fs_set_fail s else s)
  else if addr =? VIRTIO_QueueDeviceLow then
    let '(a, s) := vfs_preprocess value s in (true, upd_fsel (fun q => q <| QueueUsed := a |>) s)
  else if addr =? VIRTIO_QueueDeviceHigh then (true, if nz value then virtio_fs_set_fail s else s)
  else if addr =? VIRTIO_QueueNotify then
    (true, if value <? 3 then virtio_fs_queue_notify_handler value s else virtio_fs_set_fail s)
  else if addr =? VIRTIO_InterruptACK then
    (true, on_fregs (fun d => d <| InterruptStatus := Z.land (InterruptStatus d) (not32 value) |>) s)
  else if addr =? VIRTIO_Status then (true, virtio_fs_update_status value s)
  else cfg_write addr value s.

(** Byte loads use the byte address as a register number. *)
(* [virtio-fs.c:856-882] virtio_fs_read *)
Definition virtio_fs_read (addr width : Z) s : option Z * M :=
  let load a :=
    match virtio_fs_reg_read a s with
    | (Some v, s) => (Some v, s)
    | (None, s) => (None, raise RV_EXC_LOAD_FAULT (exc_val (hart s)) s)
    end in
  if width =? RV_MEM_LW then load (Z.shiftr addr 2)
  else if (width =? RV_MEM_LBU) || (width =? RV_MEM_LB) then load addr
  else if (width =? RV_MEM_LHU) || (width =? RV_MEM_LH) then
    (None, raise RV_EXC_LOAD_MISALIGN (exc_val (hart s)) s)
  else (None, raise RV_EXC_ILLEGAL_INSN 0 s).

(* [virtio-fs.c:884-904] virtio_fs_write *)
Definition virtio_fs_write (addr width value : Z) s : M :=
  if width =? RV_MEM_SW then
    let '(ok, s) := virtio_fs_reg_write (Z.shiftr addr 2) value s in
    if ok then s else raise RV_EXC_STORE_FAULT (exc_val (hart s)) s
  else if (width =? RV_MEM_SB) || (width =? RV_MEM_SH) then raise RV_EXC_STORE_MISALIGN (exc_val (hart s)) s
  else raise RV_EXC_ILLEGAL_INSN 0 s.

(** [snprintf(tag, 36, "%s", mtag)] *)
Definition put_tag (mtag cfg : list Z) : list Z :=
  let t := take 35 mtag ++ [0] in t ++ drop (length t) cfg.

(** Failures end the process; [false] when there is no directory or no memory for
    its entry. *)
(* [virtio-fs.c:906-958] virtio_fs_init *)
Definition virtio_fs_init (mtag : list Z) (dir : option (list Z)) s : bool * M :=
  let exit2 s := (false, on_fdev (fun d => d <| vfs_exit := true |>) s) in
  if VFS_DEV_CNT_MAX <=? vfs_dev_cnt (dev s) then exit2 s
  else
    let s := on_fdev (fun d => d <| vfs_dev_cnt := vfs_dev_cnt d + 1 |>) s in
    match dir with
    | None => (false, s)
    | Some dir =>
      match h_call (fs_open (Some dir)) s with
      | (inl _, s) => exit2 s
      | (inr _, s) =>
        let '(ok, s) := f_malloc (Z.of_nat (length dir) + 1) s in
        if negb ok then exit2 s
        else
          let s := on_fdev (fun d => d <| shared_dir := Some dir |>
                     <| vfs_config := (fun cfg => take 36 cfg ++ le_bytes 4 2 ++ drop 40 cfg) (put_tag mtag (vfs_config d)) |>
                     <| mount_tag := mtag |>) s in
          let '(ok, s) := f_malloc 24 s in
          if negb ok then (false, s)
          else
            let '(ok, s) := f_malloc (Z.of_nat (length dir) + 1) s in
            if negb ok then (false, s)
            else (true, on_fdev (fun d => d <| inode_map := mk_inode 1 dir :: inode_map d |>) s)
      end
    end.
End Fs.
