(* ===== verification/FsProps.v ===== *)
(** * What the shared-directory device answers

    GETATTR and READ specified on guest memory and the host's answer, on every
    branch; and the paths the device ever uses: all of them are the shared directory
    or extensions of it, a number once given out keeps its path. *)

From stdpp Require Import base gmap list.
From Stdlib Require Import ZArith Lia Bool.
From S2P Require Import Prelude Isa Hart Machine Tlb Loops Device Virtio VirtioProps DmaProps VirtioFs.
Open Scope Z_scope.

(** What POSIX says of [pread]: at most as many bytes as asked for. *)
Class FsLaws (E : Type) `{FsHost E} := {
  pread_len : forall fd n o e bytes, fst (fs_pread fd n o e) = inr bytes -> 0 <= n -> Z.of_nat (length bytes) <= n;
  pread_bytes : forall fd n o e bytes, fst (fs_pread fd n o e) = inr bytes -> Forall is_byte bytes }.

(** Reading fields through a sequence of stores. *)
Ltac fld := repeat first
  [ rewrite fld64_put64_eq by auto 20 with semu | rewrite fld32_put32_eq by auto 20 with semu
  | rewrite fld64_put64_ne by (auto 20 with semu || lia) | rewrite fld64_put32_ne by (auto 20 with semu || lia)
  | rewrite fld32_put64_ne by (auto 20 with semu || lia) | rewrite fld32_put32_ne by (auto 20 with semu || lia) ].

Section Replies.
Context {E : Type} `{HostE : FsHost E}.
Abbreviation M := (machine (fs_dev E)).
Implicit Types s : M.

(** ** Structures read back from memory *)

(** [struct fuse_attr] *)
Definition read_attr s (attr : Z) : stat_t :=
  mk_stat (fld64 s attr) (fld32 s (attr + 60)) (fld32 s (attr + 64)) (fld32 s (attr + 68)) (fld32 s (attr + 72))
    (fld64 s (attr + 8)) (fld32 s (attr + 80)) (fld64 s (attr + 16))
    (fld64 s (attr + 24)) (fld64 s (attr + 32)) (fld64 s (attr + 40)).
(** A [struct stat] in the widths of the protocol. *)
Definition wire_stat (st : stat_t) : stat_t :=
  mk_stat (u64 (st_ino st)) (u32 (st_mode st)) (u32 (st_nlink st)) (u32 (st_uid st)) (u32 (st_gid st))
    (u64 (st_size st)) (u32 (st_blksize st)) (u64 (st_blocks st))
    (u64 (st_atime st)) (u64 (st_mtime st)) (u64 (st_ctime st)).

Definition in_range (o n a : Z) : Prop := o <= a < o + n.

Lemma u64_u64 x : u64 (u64 x) = u64 x.
Proof. unfold u64. by rewrite Z.mod_mod. Qed.

Lemma put_attr_region (R : Z -> Prop) attr st s : (forall a, in_range attr 88 a -> R a) -> region_step R s (put_attr attr st s).
Proof.
  intros H. unfold put_attr. unfold in_range in H. cbv zeta.
  repeat (eapply region_trans; [|first [apply region_put32|apply region_put64]; intros a Ha; apply H; lia]).
  apply region_refl.
Qed.
Lemma put_attr_read attr st s : ram_ok (ram s) -> read_attr (put_attr attr st s) attr = wire_stat st.
Proof.
  intros R. unfold read_attr, put_attr, wire_stat. cbv zeta. f_equal; fld; by rewrite ?u64_u64, ?u32_u32.
Qed.

(** Fields outside the region of a step keep their value. *)
Lemma fld32_region R s s' o : region_step R s s' -> ram_ok (ram s) -> (forall a, in_range o 4 a -> ~ R a) ->
  fld32 s' o = fld32 s o.
Proof.
  intros [_ F] O H. unfold fld32, dma_read. cbn [fst]. f_equal. apply list_fmap_ext. intros i k Hk.
  apply lookup_seq in Hk as [-> Hk]. apply F; [done|]. apply H. unfold in_range. cbn. lia.
Qed.

Lemma fld32_ram s s' o : ram s' = ram s -> fld32 s' o = fld32 s o.
Proof. intros H. unfold fld32, dma_read, rd8, rd32. by rewrite H. Qed.

Lemma put_header_region (R : Z -> Prop) vq len s : let hdr := d_addr (desc_at vq 2) in
  (forall a, in_range hdr 16 a -> R a) -> region_step R s (put_header vq len s).
Proof.
  intros hdr H. unfold put_header, OUT_error. unfold in_range in H. fold hdr.
  eapply region_trans; [|apply region_put32; intros a Ha; apply H; lia].
  apply region_put32. intros a Ha. apply H. lia.
Qed.
Lemma put_header_read vq len s : let hdr := d_addr (desc_at vq 2) in ram_ok (ram s) ->
  fld32 (put_header vq len s) hdr = u32 len /\ fld32 (put_header vq len s) (hdr + 4) = 0.
Proof.
  intros hdr R. unfold put_header, OUT_error. fold hdr. split; fld; [|done]. by rewrite u32_u32.
Qed.

(** A call of the host changes the host only. *)
Lemma h_call_spec {A} (f : E -> A * E) s :
  h_call f s = (fst (f (fs_host (dev s))), on_fdev (fun d => d <| fs_host := snd (f (fs_host (dev s))) |>) s).
Proof. unfold h_call. by destruct (f (fs_host (dev s))). Qed.

Lemma put_error_region (R : Z -> Prop) vq e s : let hdr := d_addr (desc_at vq 2) in
  (forall a, in_range hdr 16 a -> R a) -> region_step R s (snd (put_error vq e s)).
Proof. intros hdr H. unfold in_range in H. cbn. apply region_put32. intros a Ha. apply H. unfold OUT_error in Ha. fold hdr in Ha. lia. Qed.

(** What a handler may change: memory in [R], and the host. *)
Record fs_answer (R : Z -> Prop) s s' : Prop := {
  fa_dev : dev s' = (dev s) <| fs_host := fs_host (dev s') |>;
  fa_ram : ram_ok (ram s) -> ram_ok (ram s');
  fa_oob : (forall a, R a -> 0 <= a < RAM_SIZE) -> ram_oob s' = ram_oob s;
  fa_frame : ram_ok (ram s) -> forall a, ~ R a -> rd8 s' a = rd8 s a }.

Lemma answer_region R s s' : region_step R s s' -> fs_answer R s s'.
Proof. intros [[D1 R1 O1] F]. constructor; try done. rewrite D1. by destruct (dev s). Qed.
Lemma answer_trans R s1 s2 s3 : fs_answer R s1 s2 -> fs_answer R s2 s3 -> fs_answer R s1 s3.
Proof.
  intros [D1 R1 O1 F1] [D2 R2 O2 F2]. constructor; [|auto| |].
  - rewrite D2 at 1. rewrite D1. done.
  - intros HR. by rewrite O2, O1.
  - intros O a Ha. by rewrite F2, F1 by auto.
Qed.
Lemma answer_weaken (R R' : Z -> Prop) s s' : (forall a, R a -> R' a) -> fs_answer R s s' -> fs_answer R' s s'.
Proof. intros H [D1 R1 O1 F1]. constructor; [done|done| |]; intros; [apply O1|apply F1]; auto. Qed.
Lemma answer_host R f s : fs_answer R s (on_fdev (fun d => d <| fs_host := f |>) s).
Proof. by constructor. Qed.
Lemma answer_call {A} R (f : E -> A * E) s : fs_answer R s (snd (h_call f s)).
Proof. rewrite h_call_spec. apply answer_host. Qed.

(** ** GETATTR *)

Lemma get64_in_ram o s : in_ram o 8 = true -> get64 o s = (fld64 s o, s).
Proof. intros H. unfold get64. by rewrite dma_touch_in_ram. Qed.
Lemma get32_in_ram o s : in_ram o 4 = true -> get32 o s = (fld32 s o, s).
Proof. intros H. unfold get32. by rewrite dma_touch_in_ram. Qed.

Lemma in_ram_sub o n o' n' : in_ram o n = true -> o <= o' -> o' + n' <= o + n -> in_ram o' n' = true.
Proof. rewrite !in_ram_iff. lia. Qed.

Lemma error_reply (R : Z -> Prop) vq e s0 s : let hdr := d_addr (desc_at vq 2) in
  (forall a, in_range hdr 16 a -> R a) -> ram_ok (ram s0) -> fs_answer R s0 s ->
  let p := put_error vq e s in fs_answer R s0 (snd p) /\ fst p = 16 /\ fld32 (snd p) (hdr + 4) = u32 (- e).
Proof.
  intros hdr H R0 A. split; [eapply answer_trans; [exact A|]; by apply answer_region, put_error_region|]. split; [done|].
  change (snd (put_error vq e s)) with (put32 (hdr + 4) (u32 (- e)) s).
  rewrite fld32_put32_eq by (apply (fa_ram _ _ _ A); done). apply u32_u32.
Qed.


(** The attributes after a successful [stat]. *)
Lemma getattr_reply vq st s : let hdr := d_addr (desc_at vq 2) in let out := d_addr (desc_at vq 3) in
  ram_ok (ram s) -> in_ram hdr 16 = true -> hdr + 16 <= out \/ out + 104 <= hdr ->
  fld32 s hdr = 120 -> fld32 s (hdr + 4) = 0 ->
  let p := header_len vq (put_attr (out + ATTR_OUT_attr) st (put32 (out + 8) 0 (put64 out 60 s))) in
  fs_answer (in_range out 104) s (snd p) /\ fst p = 120 /\ fld32 (snd p) hdr = 120 /\ fld32 (snd p) (hdr + 4) = 0 /\
  fld64 (snd p) out = 60 /\ read_attr (snd p) (out + 16) = wire_stat st.
Proof.
  intros hdr out R Ih Hd Hl He. unfold ATTR_OUT_attr. cbv zeta.
  set (s1 := put32 (out + 8) 0 (put64 out 60 s)). assert (R1 : ram_ok (ram s1)) by (unfold s1; auto with semu).
  set (s2 := put_attr (out + 16) st s1).
  assert (G : region_step (in_range out 104) s s2).
  { unfold s2, s1. eapply region_trans; [|apply put_attr_region; unfold in_range; intros; lia].
    eapply region_trans; [|apply region_put32; unfold in_range; intros; lia]. apply region_put64. unfold in_range. intros; lia. }
  assert (Gs : region_step (in_range (out + 16) 88) s1 s2) by (apply put_attr_region; done).
  unfold header_len. fold hdr. rewrite get32_in_ram by (eapply in_ram_sub; [exact Ih|lia|lia]). cbn [fst snd].
  assert (K : forall o, in_range hdr 16 o -> in_range hdr 16 (o + 3) -> fld32 s2 o = fld32 s o).
  { intros o H1 H2. apply (fld32_region (in_range out 104)); [done|done|]. unfold in_range in *. lia. }
  rewrite !K by (unfold in_range; lia). rewrite Hl, He.
  split; [by apply answer_region|]. split_and!; try done.
  - transitivity (fld64 s1 out); [|unfold s1; fld; by vm_compute].
    unfold fld64, dma_read. cbn [fst]. f_equal. apply list_fmap_ext. intros i k Hk. apply lookup_seq in Hk as [-> Hk].
    apply (rs_frame _ _ _ Gs); [done|]. unfold in_range. cbn. lia.
  - by apply put_attr_read.
Qed.

(** GETATTR answers exactly what the host's [stat] says: without an entry for the
    inode the error ENOENT, after a failing call its errno, otherwise the length of a
    full reply, no error, and attributes that read back as the host's values in the
    widths of the protocol. Only the reply is written, nothing of the device changes. *)
Theorem fs_getattr_exact vq s :
  let hdr := d_addr (desc_at vq 2) in let out := d_addr (desc_at vq 3) in let req := d_addr (desc_at vq 0) in
  ram_ok (ram s) -> in_ram (req + IN_nodeid) 8 = true -> in_ram hdr 16 = true ->
  hdr + 16 <= out \/ out + 104 <= hdr ->
  let p := virtio_fs_getattr_handler vq s in
  fs_answer (fun a => in_range hdr 16 a \/ in_range out 104 a) s (snd p) /\
  match target_path (fld64 s (req + IN_nodeid)) s with
  | None => fst p = 16 /\ fld32 (snd p) (hdr + 4) = u32 (- ENOENT)
  | Some path =>
    match fst (fs_stat path (fs_host (dev s))) with
    | inl errno => fst p = 16 /\ fld32 (snd p) (hdr + 4) = u32 (- errno)
    | inr st => fst p = 120 /\ fld32 (snd p) hdr = 120 /\ fld32 (snd p) (hdr + 4) = 0 /\
        fld64 (snd p) out = 60 /\ read_attr (snd p) (out + 16) = wire_stat st
    end
  end.
Proof.
  intros hdr out req R Ireq Ihdr Hd. unfold virtio_fs_getattr_handler. fold req out.
  rewrite get64_in_ram by done. cbv zeta. set (ino := fld64 s (req + IN_nodeid)).
  set (s1 := put_header vq (sizeof_out_header + sizeof_attr_out) s).
  set (RR := fun a => in_range hdr 16 a \/ in_range out 104 a).
  assert (G1 : region_step RR s s1) by (apply put_header_region; intros a Ha; by left).
  destruct (put_header_read vq (sizeof_out_header + sizeof_attr_out) s R) as [L1 E1]. fold s1 hdr in L1, E1.
  assert (R1 : ram_ok (ram s1)) by by apply (ms_ram _ _ _ (rs_mem _ _ _ G1)).
  assert (D1 : dev s1 = dev s) by apply (ms_dev _ _ _ (rs_mem _ _ _ G1)). clearbody s1.
  replace (target_path ino s1) with (target_path ino s) by (unfold target_path; by rewrite D1).
  assert (HR : forall a, in_range hdr 16 a -> RR a) by (intros a Ha; by left).
  destruct (target_path ino s) as [path|]; [|apply error_reply; [done|done|by apply answer_region]].
  rewrite h_call_spec, D1. destruct (fst (fs_stat path (fs_host (dev s)))) as [e|st].
  - apply error_reply; [done|done|]. eapply answer_trans; [by apply answer_region|apply answer_host].
  - set (s2 := on_fdev (fun d => d <| fs_host := snd (fs_stat path (fs_host (dev s))) |>) s1).
    assert (L2 : fld32 s2 hdr = 120) by (rewrite (fld32_ram s1 s2) by done; rewrite L1; reflexivity).
    assert (E2 : fld32 s2 (hdr + 4) = 0) by (rewrite (fld32_ram s1 s2) by done; exact E1).
    assert (R2 : ram_ok (ram s2)) by exact R1.
    destruct (getattr_reply vq st s2 R2 Ihdr Hd L2 E2) as (A & B). fold out in A, B.
    split; [|exact B]. eapply answer_trans; [by apply answer_region|]. eapply answer_trans; [apply answer_host|].
    eapply answer_weaken; [|exact A]. intros a Ha. by right.
Qed.

(** ** READ *)

Lemma read_reply vq bytes s : let hdr := d_addr (desc_at vq 2) in let out := d_addr (desc_at vq 3) in
  let n := Z.of_nat (length bytes) in
  ram_ok (ram s) -> Forall is_byte bytes -> in_ram hdr 16 = true -> in_ram out n = true -> hdr + 16 <= out \/ out + n <= hdr ->
  let p := header_len vq (put_header vq (sizeof_out_header + n) (dma_write out bytes s)) in
  fs_answer (fun a => in_range hdr 16 a \/ in_range out n a) s (snd p) /\ fst p = 16 + n /\
  fld32 (snd p) hdr = 16 + n /\ fld32 (snd p) (hdr + 4) = 0 /\
  forall k, 0 <= k < n -> rd8 (snd p) (out + k) = arr_get 0 bytes k.
Proof.
  intros hdr out n R B Ih Io Hd. cbv zeta. set (s1 := dma_write out bytes s). set (RR := fun a => _).
  assert (G1 : region_step RR s s1) by (apply region_dma; [done|intros a Ha; by right]).
  assert (R1 : ram_ok (ram s1)) by by apply ram_ok_dma.
  assert (G2 : region_step RR s1 (put_header vq (sizeof_out_header + n) s1)) by (apply put_header_region; intros a Ha; by left).
  assert (G3 : region_step (in_range hdr 16) s1 (put_header vq (sizeof_out_header + n) s1)) by (apply put_header_region; done).
  destruct (put_header_read vq (sizeof_out_header + n) s1 R1) as [L1 E1]. fold hdr in L1, E1.
  assert (Hn : u32 (sizeof_out_header + n) = 16 + n).
  { apply in_ram_iff in Io. unfold RAM_SIZE in Io. apply u32_id. unfold is_u32, sizeof_out_header. lia. }
  rewrite Hn in L1. set (s2 := put_header vq (sizeof_out_header + n) s1) in *.
  unfold header_len. fold hdr. rewrite get32_in_ram by (eapply in_ram_sub; [exact Ih|lia|lia]). cbn [fst snd].
  split; [apply answer_region; by eapply region_trans|]. split_and!; [done|done|done|].
  intros k Hk. rewrite (rs_frame _ _ _ G3) by (done || (unfold in_range; lia)). unfold s1. rewrite dma_write_rd8 by done.
  rewrite (proj2 (Z.leb_le _ _)), (proj2 (Z.ltb_lt _ _)) by lia. cbn [andb]. f_equal. lia.
Qed.

(** READ answers with exactly the bytes the host's [pread] returned for the file,
    size and offset of the request: they are in the reply buffer in order, the header
    says their number and no error; a failing allocation answers ENOMEM, a failing
    call its errno. Nothing outside the header and as many bytes of the buffer as the
    guest asked for is written. *)
Theorem fs_read_exact `{Laws : !FsLaws E} vq s :
  let hdr := d_addr (desc_at vq 2) in let out := d_addr (desc_at vq 3) in let req := d_addr (desc_at vq 1) in
  let size := fld32 s (req + 16) in
  ram_ok (ram s) -> in_ram req 20 = true -> in_ram hdr 16 = true -> in_ram out size = true ->
  hdr + 16 <= out \/ out + size <= hdr ->
  let p := virtio_fs_read_handler vq s in
  fs_answer (fun a => in_range hdr 16 a \/ in_range out size a) s (snd p) /\
  let '(ok, e) := fs_malloc size (fs_host (dev s)) in
  if ok then
    match fst (fs_pread (s32 (fld64 s req)) size (s64 (fld64 s (req + 8))) e) with
    | inl errno => fst p = 16 /\ fld32 (snd p) (hdr + 4) = u32 (- errno)
    | inr bytes => fst p = 16 + Z.of_nat (length bytes) /\ fld32 (snd p) hdr = 16 + Z.of_nat (length bytes) /\
        fld32 (snd p) (hdr + 4) = 0 /\
        forall k, 0 <= k < Z.of_nat (length bytes) -> rd8 (snd p) (out + k) = arr_get 0 bytes k
    end
  else fst p = 16 /\ fld32 (snd p) (hdr + 4) = u32 (- ENOMEM).
Proof.
  intros hdr out req size R Ireq Ihdr Iout Hd. unfold virtio_fs_read_handler. fold req out. cbv zeta.
  rewrite !get64_in_ram by (eapply in_ram_sub; [exact Ireq|lia|lia]).
  rewrite get32_in_ram by (eapply in_ram_sub; [exact Ireq|lia|lia]). fold size. unfold f_malloc. rewrite h_call_spec.
  set (RR := fun a => _). pose proof (fld32_u32 s (req + 16)) as Us. fold size in Us. unfold is_u32 in Us. clearbody size.
  destruct (fs_malloc size (fs_host (dev s))) as [ok e]. cbn [fst snd].
  set (s1 := on_fdev (fun d => d <| fs_host := e |>) s). assert (A1 : fs_answer RR s s1) by apply answer_host.
  destruct ok; cbn [negb]; [|apply error_reply; [intros a Ha; by left|done|done]].
  rewrite h_call_spec. change (fs_host (dev s1)) with e.
  destruct (fst (fs_pread (s32 (fld64 s req)) size (s64 (fld64 s (req + 8))) e)) as [errno|bytes] eqn:P.
  { apply error_reply; [intros a Ha; by left|done|]. eapply answer_trans; [exact A1|apply answer_host]. }
  set (s2 := on_fdev _ s1). assert (A2 : fs_answer RR s1 s2) by apply answer_host.
  pose proof (pread_bytes _ _ _ _ _ P) as B. pose proof (pread_len _ _ _ _ _ P ltac:(lia)) as L.
  assert (R2 : ram_ok (ram s2)) by exact R. clearbody s2.
  destruct (read_reply vq bytes s2 R2 B Ihdr) as (A3 & Q); [eapply in_ram_sub; [exact Iout|fold out; lia|fold out; lia]|fold hdr out; lia|].
  fold hdr out in A3, Q. split; [|exact Q]. eapply answer_trans; [exact A1|]. eapply answer_trans; [exact A2|].
  eapply answer_weaken; [|exact A3]. intros a [Ha|Ha]; [by left|right]. unfold in_range in *. lia.
Qed.

(** ** The paths the device uses *)

(** The shared directory and what names add to it. *)
Inductive under (root : list Z) : list Z -> Prop :=
  | under_root : under root root
  | under_join p name : under root p -> under root (path_join p name).

(** [K] are entries that have been handed out. *)
Record fs_inv (root : list Z) (K : Z -> option inode_map_entry) (d : fs_dev E) : Prop := {
  fi_dir : shared_dir d = None \/ shared_dir d = Some root;
  fi_paths : Forall (fun e => under root (ipath e)) (inode_map d);
  fi_ids : NoDup (ino <$> inode_map d);
  fi_known : forall i e, K i = Some e -> find_inode_path (inode_map d) i = Some e;
  fi_handles : map_Forall (fun _ h => under root (dh_path h)) (dir_handles d) }.

(** The invariant of a machine. *)
Definition rooted (root : list Z) K s : Prop := fs_inv root K (dev s).

Section Rooted.
Context (root : list Z) (K : Z -> option inode_map_entry).

Lemma rooted_dev s s' : dev s' = dev s -> rooted root K s -> rooted root K s'.
Proof. unfold rooted. by intros ->. Qed.
Lemma rooted_regs f s : rooted root K s -> rooted root K (on_fregs f s).
Proof. intros []. by constructor. Qed.
Lemma rooted_host f s : rooted root K s -> rooted root K (h_do f s).
Proof. intros []. by constructor. Qed.
Lemma rooted_call {A} (f : E -> A * E) s : rooted root K s -> rooted root K (snd (h_call f s)).
Proof. intros []. rewrite h_call_spec. by constructor. Qed.
Lemma rooted_malloc n s : rooted root K s -> rooted root K (snd (f_malloc n s)).
Proof. apply rooted_call. Qed.
Lemma rooted_flag s : rooted root K s -> rooted root K (on_fdev (fun d => d <| wild_handle := true |>) s).
Proof. intros []. by constructor. Qed.
Lemma rooted_fail s : rooted root K s -> rooted root K (virtio_fs_set_fail s).
Proof. apply rooted_regs. Qed.
Lemma rooted_dma o bytes s : rooted root K s -> rooted root K (dma_write o bytes s).
Proof. apply rooted_dev, dev_dma_write. Qed.
Lemma rooted_touch o n s : rooted root K s -> rooted root K (touch o n s).
Proof. apply rooted_dev, dev_touch. Qed.
Lemma rooted_header vq len s : rooted root K s -> rooted root K (put_header vq len s).
Proof. intros H. by do 2 apply rooted_dma. Qed.
Lemma rooted_reply vq len s : rooted root K s -> rooted root K (snd (header_len vq (put_header vq len s))).
Proof. intros H. by apply rooted_touch, rooted_header. Qed.
Lemma rooted_error vq e s : rooted root K s -> rooted root K (snd (put_error vq e s)).
Proof. apply rooted_dma. Qed.
Lemma rooted_attr a st s : rooted root K s -> rooted root K (put_attr a st s).
Proof. intros H. unfold put_attr. cbv zeta. repeat apply rooted_dma. exact H. Qed.
Lemma rooted_entry a st s : rooted root K s -> rooted root K (put_entry a st s).
Proof. intros H. unfold put_entry. apply rooted_attr. by do 2 apply rooted_dma. Qed.

(** Calls whose result is matched on. *)
Ltac call f s H := let H' := fresh "H" in pose proof (rooted_call f s H) as H';
  destruct (h_call f s) as [? ?]; cbn [snd] in H'; clear H; rename H' into H.
Ltac malloc n s H := let H' := fresh "H" in pose proof (rooted_malloc n s H) as H';
  destruct (f_malloc n s) as [? ?]; cbn [snd] in H'; clear H; rename H' into H.

Lemma find_under s i e : rooted root K s -> find_inode_path (inode_map (dev s)) i = Some e -> under root (ipath e).
Proof.
  intros [_ P _ _ _] F. apply List.find_some in F as [F _]. apply list_elem_of_In in F. rewrite Forall_forall in P. by apply P.
Qed.

Lemma rooted_remember i path s : rooted root K s -> under root path -> rooted root K (snd (remember_inode i path s)).
Proof.
  intros H U. unfold remember_inode. destruct (find_inode_path (inode_map (dev s)) i) eqn:F; [done|].
  destruct H as [H1 H2 H3 H4 H5]. unfold f_malloc. rewrite h_call_spec. cbn [fst snd]. case_match; [by constructor|].
  rewrite h_call_spec. cbn [fst snd]. case_match; [by constructor|]. constructor; cbn; try done.
  - by constructor.
  - constructor; [|done]. intros Hin. apply list_elem_of_fmap_1 in Hin as (e & -> & He). apply list_elem_of_In in He.
    pose proof (List.find_none _ _ F e He) as X. cbn in X. by rewrite Z.eqb_refl in X.
  - intros j e Hj. pose proof (H4 j e Hj) as X. unfold find_inode_path in *. cbn. destruct (Z.eqb_spec i j) as [->|]; [congruence|done].
Qed.

Lemma rooted_lookup vq s : rooted root K s -> rooted root K (snd (virtio_fs_lookup_handler vq s)).
Proof.
  intros H. unfold virtio_fs_lookup_handler, get64. cbv zeta. set (s0 := touch _ _ s).
  assert (H0 : rooted root K s0) by by apply rooted_touch. clearbody s0. case_match; [done|]. malloc (d_len (desc_at vq 1) + 1) s0 H0.
  case_match; [done|]. unfold dma_read. set (s1 := touch _ _ m). assert (H1' : rooted root K s1) by by apply rooted_touch.
  destruct (find_inode_path (inode_map (dev s1)) _) as [pe|] eqn:F; [|done]. pose proof (find_under s1 _ pe H1' F) as U.
  clearbody s1. set (path := path_join (ipath pe) _). assert (Up : under root path) by by apply under_join. clearbody path.
  malloc (Z.of_nat (length path) + 1) s1 H1'. case_match; [done|].
  call (fs_stat (Some path)) m0 H1'. destruct s2 as [e|st]; [by apply rooted_error|].
  pose proof (rooted_remember (u64 (st_ino st)) path m1 H1' Up) as K2.
  destruct (remember_inode (u64 (st_ino st)) path m1) as [ok s3]. cbn [snd] in K2. case_match; [done|].
  by apply rooted_reply, rooted_entry.
Qed.

Lemma rooted_getattr vq s : rooted root K s -> rooted root K (snd (virtio_fs_getattr_handler vq s)).
Proof.
  intros H. unfold virtio_fs_getattr_handler, get64. cbv zeta. set (s0 := put_header _ _ _).
  assert (H0 : rooted root K s0) by by apply rooted_header, rooted_touch. clearbody s0.
  destruct (target_path _ s0) as [path|]; [|by apply rooted_error]. call (fs_stat path) s0 H0.
  case_match; [by apply rooted_error|]. unfold header_len, get32. cbn [snd].
  apply rooted_touch, rooted_attr. by do 2 apply rooted_dma.
Qed.

Lemma rooted_opendir vq s : rooted root K s -> rooted root K (snd (virtio_fs_opendir_handler vq s)).
Proof.
  intros H. unfold virtio_fs_opendir_handler, get64. cbv zeta. set (s0 := touch _ _ s).
  assert (H0 : rooted root K s0) by by apply rooted_touch. clearbody s0.
  destruct (find_inode_path (inode_map (dev s0)) _) as [e|] eqn:F; [|done]. pose proof (find_under s0 _ e H0 F) as U.
  call (fs_opendir (ipath e)) s0 H0. case_match; [|done]. malloc 16 m H0. case_match; [by apply rooted_host|].
  malloc (Z.of_nat (length (ipath e)) + 1) m0 H0. case_match; [by apply rooted_host|].
  set (s1 := on_fdev _ m1). assert (K1 : rooted root K s1).
  { destruct H0 as [H1' H2' H3' H4' H5']. constructor; try done. cbn. apply map_Forall_insert_2; [exact U|exact H5']. }
  clearbody s1. apply rooted_reply. by do 3 apply rooted_dma.
Qed.

Lemma rooted_direntries names : forall base off dir s, rooted root K s -> rooted root K (snd (put_direntries base off dir names s)).
Proof.
  induction names as [|name names IH]; intros base off dir s H; [done|]. cbn [put_direntries].
  assert (KH : rooted root K (snd (put_direntplus base off dir name s))).
  { unfold put_direntplus. case_match; [done|]. cbv zeta. malloc (Z.of_nat (length (path_join dir name)) + 1) s H.
    case_match; [done|]. call (fs_stat (Some (path_join dir name))) m H. case_match; [done|]. cbn [snd].
    do 4 apply rooted_dma. by apply rooted_entry. }
  destruct (put_direntplus base off dir name s) as [off' s']. by apply IH.
Qed.

Lemma rooted_readdirplus vq s : rooted root K s -> rooted root K (snd (virtio_fs_readdirplus_handler vq s)).
Proof.
  intros H. unfold virtio_fs_readdirplus_handler, get64. cbv zeta. set (s0 := touch _ _ s).
  assert (H0 : rooted root K s0) by by apply rooted_touch. clearbody s0. case_match; [done|].
  case_match; [|by apply rooted_flag]. call (fs_readdir (dh_dir d)) s0 H0.
  pose proof (rooted_direntries l (d_addr (desc_at vq 3)) 0 (dh_path d) m H0) as KH.
  destruct (put_direntries _ _ _ _ m) as [off s1]. by apply rooted_reply.
Qed.

Lemma rooted_releasedir vq s : rooted root K s -> rooted root K (snd (virtio_fs_releasedir_handler vq s)).
Proof.
  intros H. unfold virtio_fs_releasedir_handler, get64. cbv zeta. set (s0 := touch _ _ s).
  assert (H0 : rooted root K s0) by by apply rooted_touch. clearbody s0. apply rooted_reply.
  case_match; [done|]. case_match; [|by apply rooted_flag]. destruct H0 as [H1' H2' H3' H4' H5'].
  constructor; try done. cbn. by apply map_Forall_delete.
Qed.

Lemma rooted_open vq s : rooted root K s -> rooted root K (snd (virtio_fs_open_handler vq s)).
Proof.
  intros H. unfold virtio_fs_open_handler, get64. cbv zeta. set (s0 := touch _ _ s).
  assert (H0 : rooted root K s0) by by apply rooted_touch. clearbody s0.
  destruct (target_path _ s0) as [path|]; [|by apply rooted_error]. call (fs_open path) s0 H0.
  case_match; [by apply rooted_error|]. apply rooted_reply. by do 2 apply rooted_dma.
Qed.

Lemma rooted_read vq s : rooted root K s -> rooted root K (snd (virtio_fs_read_handler vq s)).
Proof.
  intros H. unfold virtio_fs_read_handler, get64, get32. cbv zeta.
  match goal with |- context [touch ?o 4 ?x] => set (s0 := touch o 4 x) end.
  assert (H0 : rooted root K s0) by by do 3 apply rooted_touch. clearbody s0.
  match goal with |- context [f_malloc ?n s0] => malloc n s0 H0 end. case_match; [by apply rooted_error|].
  match goal with |- context [h_call ?f m] => call f m H0 end. case_match; [by apply rooted_error|].
  by apply rooted_reply, rooted_dma.
Qed.

Lemma rooted_init vq s : rooted root K s -> rooted root K (snd (virtio_fs_init_handler vq s)).
Proof.
  intros H. unfold virtio_fs_init_handler. cbv zeta. unfold header_len, get32. cbn [snd].
  apply rooted_touch. do 8 apply rooted_dma. by apply rooted_header.
Qed.
Lemma rooted_release vq s : rooted root K s -> rooted root K (snd (virtio_fs_release_handler vq s)).
Proof. intros H. unfold virtio_fs_release_handler, get64. by apply rooted_reply, rooted_host, rooted_touch. Qed.

Lemma rooted_descs n : forall q i s, rooted root K s -> rooted root K (snd (fs_descs n q i s)).
Proof.
  induction n as [|n IH]; intros q i s H; [done|]. cbn [fs_descs]. unfold read_desc. cbn [fst snd].
  set (s0 := touch _ _ s). assert (H0 : rooted root K s0) by by apply rooted_touch. clearbody s0.
  match goal with |- context [fs_descs n q ?j s0] => pose proof (IH q j s0 H0) as KH; destruct (fs_descs n q j s0) as [ds s1] end.
  done.
Qed.

Lemma rooted_request q i s : rooted root K s -> rooted root K (snd (virtio_fs_desc_handler q i s)).
Proof.
  intros H. unfold virtio_fs_desc_handler. pose proof (rooted_descs 4 q i s H) as KH.
  destruct (fs_descs 4 q i s) as [vq s1]. cbn [snd] in KH. unfold get32. cbn [snd].
  set (s2 := touch _ _ s1). assert (H2 : rooted root K s2) by by apply rooted_touch. clearbody s2. unfold fs_dispatch.
  case_match; [by apply rooted_init|]. case_match; [by apply rooted_getattr|]. case_match; [by apply rooted_opendir|].
  case_match; [by apply rooted_readdirplus|]. case_match; [by apply rooted_lookup|]. case_match; [by apply rooted_reply|].
  case_match; [by apply rooted_releasedir|]. case_match; [by apply rooted_open|]. case_match; [by apply rooted_read|].
  case_match; [by apply rooted_release|]. case_match; [by apply rooted_reply|]. case_match; [by apply rooted_reply|].
  unfold virtio_fs_default_handler, get64. case_match; [apply rooted_dma|]; by apply rooted_touch.
Qed.

Lemma rooted_used_append q u i l s : rooted root K s -> rooted root K (used_append q u i l s).
Proof. apply rooted_dev, dev_used_append. Qed.
Lemma rooted_publish q u s : rooted root K s -> rooted root K (used_publish q u s).
Proof. apply rooted_dev. unfold used_publish, ram_get. rewrite !dev_ram_put, !dev_touch, dev_ram_put, dev_touch. done. Qed.

Lemma rooted_loop n : forall i u s, rooted root K s -> rooted root K (snd (fs_notify_loop n i u s)).
Proof.
  induction n as [|n IH]; intros i u s H; [done|]. cbn [fs_notify_loop]. cbv zeta.
  case_match; [destruct H; by constructor|].
  match goal with |- context [avail_entry ?q ?k s] => pose proof (rooted_dev s _ (dev_avail_entry q k s) H) as KH; destruct (avail_entry q k s) as [b s1] end.
  cbn [snd] in KH. match goal with |- context [virtio_fs_desc_handler ?q b s1] => pose proof (rooted_request q b s1 KH) as K2; destruct (virtio_fs_desc_handler q b s1) as [len s2] end.
  cbn [snd] in K2. apply IH. by apply rooted_regs, rooted_used_append.
Qed.

Lemma rooted_notify i s : rooted root K s -> rooted root K (virtio_fs_queue_notify_handler i s).
Proof.
  intros H. unfold virtio_fs_queue_notify_handler, ram_get. cbv zeta. case_match; [done|]. case_match; [by apply rooted_fail|].
  set (s1 := touch _ _ s). assert (K1 : rooted root K s1) by by apply rooted_touch. clearbody s1. case_match; [by apply rooted_fail|].
  case_match; [done|]. match goal with |- context [fs_notify_loop ?n ?j ?u (touch ?o ?l s1)] =>
    pose proof (rooted_loop n j u (touch o l s1) (rooted_touch o l s1 K1)) as KH; destruct (fs_notify_loop n j u (touch o l s1)) as [[nu|] s2] end;
    cbn [snd] in KH; [|done].
  set (s3 := touch _ _ (used_publish _ _ _)). assert (K3 : rooted root K s3) by by apply rooted_touch, rooted_publish. clearbody s3.
  case_match; [done|]. by apply rooted_regs.
Qed.

Lemma rooted_status v s : rooted root K s -> rooted root K (virtio_fs_update_status v s).
Proof.
  intros H. unfold virtio_fs_update_status. cbv zeta. set (s0 := on_fregs _ s).
  assert (H0 : rooted root K s0) by by apply rooted_regs. clearbody s0. case_match; [done|].
  destruct (shared_dir (dev s0)) as [dir|] eqn:Ed; [|done]. assert (dir = root).
  { destruct H0 as [[X|X] _ _ _ _]; congruence. } subst dir.
  unfold f_malloc. rewrite h_call_spec. cbn [fst snd]. destruct H0 as [G1 G2 G3 G4 G5].
  case_match; [constructor; try done; by left|]. rewrite h_call_spec. cbn [fst snd].
  constructor; try done. cbn. by case_match; [right|left].
Qed.

Lemma rooted_reg_write a v s : rooted root K s -> rooted root K (snd (virtio_fs_reg_write a v s)).
Proof.
  intros H. unfold virtio_fs_reg_write, vfs_preprocess, ram_get, cfg_write, upd_fsel. cbv zeta.
  repeat (case_match; cbn [snd]; try done;
    try first [by apply rooted_regs | by apply rooted_fail | by apply rooted_notify | by apply rooted_status
              | (apply rooted_regs, rooted_touch; by apply rooted_regs) | (apply rooted_regs; by apply rooted_fail)
              | (destruct H; by constructor)]).
  all: simplify_eq; first [by apply rooted_regs | apply rooted_regs; by apply rooted_fail].
Qed.

Lemma rooted_raise c v s : rooted root K s -> rooted root K (raise c v s).
Proof. by intros []; constructor. Qed.

Lemma rooted_write a w v s : rooted root K s -> rooted root K (virtio_fs_write a w v s).
Proof.
  intros H. unfold virtio_fs_write. case_match; [|case_match; by apply rooted_raise].
  pose proof (rooted_reg_write (Z.shiftr a 2) v s H) as KH. destruct (virtio_fs_reg_write _ v s) as [[] s1]; [done|by apply rooted_raise].
Qed.

Lemma rooted_reg_read a s : rooted root K s -> rooted root K (snd (virtio_fs_reg_read a s)).
Proof.
  intros H. unfold virtio_fs_reg_read. cbv zeta. repeat (case_match; [done|]). unfold cfg_read. cbv zeta.
  case_match; [done|]. case_match; [done|]. cbn [snd]. case_match; [done|]. destruct H; by constructor.
Qed.
Lemma rooted_bus_read a w s : rooted root K s -> rooted root K (snd (virtio_fs_read a w s)).
Proof.
  intros H. unfold virtio_fs_read. cbv zeta.
  assert (L : forall r, rooted root K (snd (match virtio_fs_reg_read r s with
    | (Some v, s) => (Some v, s) | (None, s) => (None, raise RV_EXC_LOAD_FAULT (exc_val (hart s)) s) end))).
  { intros r. pose proof (rooted_reg_read r s H) as KH. destruct (virtio_fs_reg_read r s) as [[v|] s1]; [done|by apply rooted_raise]. }
  case_match; [apply L|]. case_match; [apply L|]. case_match; by apply rooted_raise.
Qed.
End Rooted.

(** The states of a device that shares [root]: initialised with it, then accessed by
    the guest in any way, with any change of memory and of the host in between. *)
Inductive fs_reach (root : list Z) : M -> Prop :=
  | fsr_init s mtag s' : inode_map (dev s) = [] -> dir_handles (dev s) = ∅ ->
      virtio_fs_init mtag (Some root) s = (true, s') -> fs_reach root s'
  | fsr_read s a w : fs_reach root s -> fs_reach root (snd (virtio_fs_read a w s))
  | fsr_write s a w v : fs_reach root s -> fs_reach root (virtio_fs_write a w v s)
  | fsr_ram s m : fs_reach root s -> fs_reach root (s <| ram := m |>)
  | fsr_host s f : fs_reach root s -> fs_reach root (h_do f s).

Definition root_known (root : list Z) (i : Z) : option inode_map_entry := if i =? 1 then Some (mk_inode 1 root) else None.

Lemma init_rooted root mtag s s' : inode_map (dev s) = [] -> dir_handles (dev s) = ∅ ->
  virtio_fs_init mtag (Some root) s = (true, s') -> rooted root (root_known root) s'.
Proof.
  intros Hi Hh. unfold virtio_fs_init. case_match; [done|]. rewrite h_call_spec. case_match; [done|]. unfold f_malloc.
  rewrite h_call_spec. case_match; [done|]. rewrite h_call_spec. case_match; [done|]. rewrite h_call_spec. case_match; [done|].
  intros [= <-]. constructor.
  - right. done.
  - cbn. rewrite Hi. repeat constructor.
  - cbn. rewrite Hi. repeat constructor. apply not_elem_of_nil.
  - intros i e. unfold root_known. destruct (Z.eqb_spec i 1) as [->|]; [|done]. intros [= <-]. done.
  - cbn. rewrite Hh. apply map_Forall_empty.
Qed.

Lemma reach_rooted root s : fs_reach root s -> rooted root (root_known root) s.
Proof.
  induction 1 as [s mtag s' Hi Hh E0|s a w _ IH|s a w v _ IH|s m _ IH|s f _ IH].
  - by eapply init_rooted.
  - by apply rooted_bus_read.
  - by apply rooted_write.
  - by apply (rooted_dev _ _ s).
  - by apply rooted_host.
Qed.

End Replies.
