(* ===== verification/VirtioSnd.v ===== *)
(** * The sound device (virtio-snd.c)

    Three threads share the device: the emulator (register accesses and the control
    queue), the TX thread [func] that takes PCM messages from the guest, and the
    thread of PortAudio that calls [virtio_snd_stream_cb] for frames. A register
    access is one step; the other two threads run in steps that end where the code
    takes or waits for a lock, [tx_step] and [cb_step], with their position and
    locals in [tx_at] and [cb_at]. A wait on a condition variable is a position
    that a signal moves the thread out of.

    PortAudio, the allocator and thread creation are the class [SndHost]. What C
    leaves undefined is recorded in [faults], and the access has no effect. The
    queue of frames carries two ghost fields, the bytes put in and taken out since the
    stream was prepared. Messages to the console are left out. *)

From stdpp Require Import base gmap list.
From Stdlib Require Import ZArith Lia Bool.
From S2P Require Import Prelude Isa Hart Machine Loops Device Virtio.
Open Scope Z_scope.

(* [virtio-snd.c:16-36] *)
Definition VSND_DEV_CNT_MAX := 1.
Definition VSND_QUEUE_NUM_MAX := 1024.
Definition VSND_CNFA_FRAME_SZ := 2.
Definition VSND_QUEUE_CTRL := 0.
Definition VSND_QUEUE_TX := 2.
Definition VSND_FEATURES_0 := 0.
Definition VSND_FEATURES_1 := 1.

(* [virtio-snd.c:38-67] control messages and status codes *)
Definition VIRTIO_SND_R_JACK_INFO := 1.
Definition VIRTIO_SND_R_PCM_INFO := 0x100.
Definition VIRTIO_SND_R_PCM_SET_PARAMS := 0x101.
Definition VIRTIO_SND_R_PCM_PREPARE := 0x102.
Definition VIRTIO_SND_R_PCM_RELEASE := 0x103.
Definition VIRTIO_SND_R_PCM_START := 0x104.
Definition VIRTIO_SND_R_PCM_STOP := 0x105.
Definition VIRTIO_SND_R_CHMAP_INFO := 0x200.
Definition VIRTIO_SND_S_OK := 0x8000.
Definition VIRTIO_SND_S_NOT_SUPP := 0x8002.
Definition VIRTIO_SND_S_IO_ERR := 0x8003.

(* [virtio-snd.c:69-98] SND_PCM_RATE, pcm_rate_tbl *)
Definition pcm_rate_tbl : list Z :=
  [5512; 8000; 11025; 16000; 22050; 32000; 44100; 48000; 64000; 88200; 96000; 176400; 192000; 384000].

(** Values of the enumerations: the position of the constructor. *)
(* [virtio-snd.c:109-140] PCM sample formats *)
Inductive pcm_fmt :=
  | FMT_IMA_ADPCM | FMT_MU_LAW | FMT_A_LAW | FMT_S8 | FMT_U8 | FMT_S16 | FMT_U16 | FMT_S18_3 | FMT_U18_3
  | FMT_S20_3 | FMT_U20_3 | FMT_S24_3 | FMT_U24_3 | FMT_S20 | FMT_U20 | FMT_S24 | FMT_U24 | FMT_S32 | FMT_U32
  | FMT_FLOAT | FMT_FLOAT64 | FMT_DSD_U8 | FMT_DSD_U16 | FMT_DSD_U32 | FMT_IEC958_SUBFRAME.
Definition pcm_fmt_value (f : pcm_fmt) : Z :=
  match f with
  | FMT_IMA_ADPCM => 0 | FMT_MU_LAW => 1 | FMT_A_LAW => 2 | FMT_S8 => 3 | FMT_U8 => 4 | FMT_S16 => 5
  | FMT_U16 => 6 | FMT_S18_3 => 7 | FMT_U18_3 => 8 | FMT_S20_3 => 9 | FMT_U20_3 => 10 | FMT_S24_3 => 11
  | FMT_U24_3 => 12 | FMT_S20 => 13 | FMT_U20 => 14 | FMT_S24 => 15 | FMT_U24 => 16 | FMT_S32 => 17
  | FMT_U32 => 18 | FMT_FLOAT => 19 | FMT_FLOAT64 => 20 | FMT_DSD_U8 => 21 | FMT_DSD_U16 => 22
  | FMT_DSD_U32 => 23 | FMT_IEC958_SUBFRAME => 24
  end.
Definition VIRTIO_SND_PCM_FMT_S16 := pcm_fmt_value FMT_S16.

(* [virtio-snd.c:142-183] channel positions *)
Inductive chmap_pos :=
  | CHMAP_NONE | CHMAP_NA | CHMAP_MONO | CHMAP_FL | CHMAP_FR | CHMAP_RL | CHMAP_RR | CHMAP_FC | CHMAP_LFE
  | CHMAP_SL | CHMAP_SR | CHMAP_RC | CHMAP_FLC | CHMAP_FRC | CHMAP_RLC | CHMAP_RRC | CHMAP_FLW | CHMAP_FRW
  | CHMAP_FLH | CHMAP_FCH | CHMAP_FRH | CHMAP_TC | CHMAP_TFL | CHMAP_TFR | CHMAP_TFC | CHMAP_TRL | CHMAP_TRR
  | CHMAP_TRC | CHMAP_TFLC | CHMAP_TFRC | CHMAP_TSL | CHMAP_TSR | CHMAP_LLFE | CHMAP_RLFE | CHMAP_BC | CHMAP_BLC
  | CHMAP_BRC.
Definition chmap_value (x : chmap_pos) : Z :=
  match x with
  | CHMAP_NONE => 0 | CHMAP_NA => 1 | CHMAP_MONO => 2 | CHMAP_FL => 3 | CHMAP_FR => 4 | CHMAP_RL => 5
  | CHMAP_RR => 6 | CHMAP_FC => 7 | CHMAP_LFE => 8 | CHMAP_SL => 9 | CHMAP_SR => 10 | CHMAP_RC => 11
  | CHMAP_FLC => 12 | CHMAP_FRC => 13 | CHMAP_RLC => 14 | CHMAP_RRC => 15 | CHMAP_FLW => 16 | CHMAP_FRW => 17
  | CHMAP_FLH => 18 | CHMAP_FCH => 19 | CHMAP_FRH => 20 | CHMAP_TC => 21 | CHMAP_TFL => 22 | CHMAP_TFR => 23
  | CHMAP_TFC => 24 | CHMAP_TRL => 25 | CHMAP_TRR => 26 | CHMAP_TRC => 27 | CHMAP_TFLC => 28 | CHMAP_TFRC => 29
  | CHMAP_TSL => 30 | CHMAP_TSR => 31 | CHMAP_LLFE => 32 | CHMAP_RLFE => 33 | CHMAP_BC => 34 | CHMAP_BLC => 35
  | CHMAP_BRC => 36
  end.
Definition VIRTIO_SND_CHMAP_MONO := chmap_value CHMAP_MONO.

(* [virtio-snd.c:185-189] data flow direction *)
Definition VIRTIO_SND_D_OUTPUT := 0.

(** ** State *)

(* [virtio-snd.c:214-221] virtio_snd_jack_info_t *)
Record virtio_snd_jack_info_t := mk_jack { j_nid : Z; j_features : Z; j_defconf : Z; j_caps : Z; j_connected : Z }.
Definition sizeof_jack_info := 24.

(* [virtio-snd.c:223-232] virtio_snd_pcm_info_t *)
Record virtio_snd_pcm_info_t := mk_pcm {
  p_nid : Z; p_features : Z; p_formats : Z; p_rates : Z; p_direction : Z; p_channels_min : Z; p_channels_max : Z }.
Definition sizeof_pcm_info := 32.

(* [virtio-snd.c:239-248] virtio_snd_pcm_set_params_t *)
Record virtio_snd_pcm_set_params_t := mk_pp {
  pp_code : Z; buffer_bytes : Z; period_bytes : Z; pp_features : Z; pp_channels : Z; pp_format : Z; pp_rate : Z;
  pp_padding : Z }.

(* [virtio-snd.c:256-259] virtio_snd_pcm_status_t *)
Definition sizeof_pcm_status := 8.

(* [virtio-snd.c:261-268] virtio_snd_chmap_info_t *)
Record virtio_snd_chmap_info_t := mk_chmap { c_nid : Z; c_direction : Z; c_channels : Z; c_position0 : Z }.
Definition sizeof_chmap_info := 24.

(** The flags that the lock protects. *)
(* [virtio-snd.c:270-275] virtio_snd_queue_lock_t *)
Record virtio_snd_queue_lock_t := mk_qlock { buf_ev_notify : Z; releasing : bool }.

(* [virtio-snd.c:281-286] vsnd_buf_queue_node_t *)
Record vsnd_buf_queue_node_t := mk_node { n_bytes : list Z; n_len : Z; n_pos : Z }.

(** [buf_queue] is [None] until the list head is initialised. *)
(* [virtio-snd.c:288-304] virtio_snd_prop_t *)
Record virtio_snd_prop_t := mk_prop {
  j : virtio_snd_jack_info_t; p : virtio_snd_pcm_info_t; c : virtio_snd_chmap_info_t;
  pp : virtio_snd_pcm_set_params_t; pa_stream : option Z; lock : virtio_snd_queue_lock_t;
  buf_queue : option (list vsnd_buf_queue_node_t); v_stream_id : Z; g_in : list Z; g_out : list Z }.

#[export] Instance eta_pp : Eta virtio_snd_pcm_set_params_t := fun r =>
  mk_pp (pp_code r) (buffer_bytes r) (period_bytes r) (pp_features r) (pp_channels r) (pp_format r) (pp_rate r) (pp_padding r).
#[export] Instance set_pp_code : Setter pp_code := ltac:(solve_setter).
#[export] Instance eta_qlock : Eta virtio_snd_queue_lock_t := fun r => mk_qlock (buf_ev_notify r) (releasing r).
#[export] Instance set_buf_ev_notify : Setter buf_ev_notify := ltac:(solve_setter).
#[export] Instance set_releasing : Setter releasing := ltac:(solve_setter).
#[export] Instance eta_prop : Eta virtio_snd_prop_t := fun r =>
  mk_prop (j r) (p r) (c r) (pp r) (pa_stream r) (lock r) (buf_queue r) (v_stream_id r) (g_in r) (g_out r).
#[export] Instance set_j : Setter j := ltac:(solve_setter).
#[export] Instance set_p : Setter p := ltac:(solve_setter).
#[export] Instance set_c : Setter c := ltac:(solve_setter).
#[export] Instance set_pp : Setter pp := ltac:(solve_setter).
#[export] Instance set_pa_stream : Setter pa_stream := ltac:(solve_setter).
#[export] Instance set_lock : Setter lock := ltac:(solve_setter).
#[export] Instance set_buf_queue : Setter buf_queue := ltac:(solve_setter).
#[export] Instance set_v_stream_id : Setter v_stream_id := ltac:(solve_setter).
#[export] Instance set_g_in : Setter g_in := ltac:(solve_setter).
#[export] Instance set_g_out : Setter g_out := ltac:(solve_setter).

(** The locals of a PCM message, and of the loop around it. *)
(* [virtio-snd.c:389-393] VSND_TX_QUEUE_BODY *)
Record tx_locals := mk_txl { stream_id : Z; ret_len : Z; bad_msg_err : bool; plen : Z }.
(* [virtio-snd.c:1014-1035] virtio_queue_notify_handler *)
Record tx_msg := mk_msg { new_avail : Z; new_used : Z; buffer_idx : Z; m_cnt : Z; m_idx : Z; m_loc : tx_locals }.

(** Where the TX thread is: waiting for a notification, at the entry of
    [virtio_queue_notify_handler], at the head of its loop, in the loop over the
    descriptors, in [__virtio_snd_frame_enqueue] (asleep or not), after the
    descriptors, before the used element, or gone. *)
(* [virtio-snd.c:1066-1080] func *)
Inductive tx_pc :=
  | T_wait | T_notify | T_loop (na nu : Z) | T_node (m : tx_msg) (nodes : list virtq_desc)
  | T_enq (asleep : bool) (m : tx_msg) (addr len : Z) (nodes : list virtq_desc) | T_signal (m : tx_msg) | T_used (m : tx_msg)
  | T_dead.

(** The thread of PortAudio: outside, or in [__virtio_snd_frame_dequeue]. *)
(* [virtio-snd.c:799-839] __virtio_snd_frame_dequeue *)
Inductive cb_pc := C_idle | C_deq (asleep : bool) (n id : Z).

(** What the model records instead of undefined behaviour. *)
Inductive snd_fault := Props_index | Rate_index | Config_index | Div_zero | Uninit_desc | Null_pointer | Endless_chain.

(** The device, the words of its configuration, and the static variables. *)
(* [device.h:456-471] virtio_snd_state_t *)
Record snd_dev (E : Type) := mk_snddev {
  vsnd_regs : virtio_state; vsnd_config : list Z; vsnd_props : virtio_snd_prop_t; vsnd_dev_cnt : Z; tx_ev_notify : Z;
  tx_at : tx_pc; cb_at : cb_pc; faults : list snd_fault; snd_host : E }.
Arguments mk_snddev {E}. Arguments vsnd_regs {E}. Arguments vsnd_config {E}. Arguments vsnd_props {E}.
Arguments vsnd_dev_cnt {E}. Arguments tx_ev_notify {E}. Arguments tx_at {E}. Arguments cb_at {E}. Arguments faults {E}.
Arguments snd_host {E}.

#[export] Instance eta_snddev {E} : Eta (snd_dev E) := fun r =>
  mk_snddev (vsnd_regs r) (vsnd_config r) (vsnd_props r) (vsnd_dev_cnt r) (tx_ev_notify r) (tx_at r) (cb_at r) (faults r)
    (snd_host r).
#[export] Instance set_vsnd_regs {E} : Setter (@vsnd_regs E) := ltac:(solve_setter).
#[export] Instance set_vsnd_config {E} : Setter (@vsnd_config E) := ltac:(solve_setter).
#[export] Instance set_vsnd_props {E} : Setter (@vsnd_props E) := ltac:(solve_setter).
#[export] Instance set_vsnd_dev_cnt {E} : Setter (@vsnd_dev_cnt E) := ltac:(solve_setter).
#[export] Instance set_tx_ev_notify {E} : Setter (@tx_ev_notify E) := ltac:(solve_setter).
#[export] Instance set_tx_at {E} : Setter (@tx_at E) := ltac:(solve_setter).
#[export] Instance set_cb_at {E} : Setter (@cb_at E) := ltac:(solve_setter).
#[export] Instance set_faults {E} : Setter (@faults E) := ltac:(solve_setter).
#[export] Instance set_snd_host {E} : Setter (@snd_host E) := ltac:(solve_setter).

(** PortAudio's calls give an error code, zero for none; opening a stream also gives the
    new value of the stream pointer. *)
Class SndHost (E : Type) := {
  pa_open : Z -> Z -> Z -> option Z -> E -> (Z * option Z) * E;
  pa_start : option Z -> E -> Z * E;
  pa_stop : option Z -> E -> Z * E;
  pa_close : option Z -> E -> Z * E;
  pa_initialize : E -> Z * E;
  pa_terminate : E -> E;
  thread_create : E -> Z * E;
  snd_malloc : Z -> E -> bool * E }.

Section Snd.
Context {E : Type} `{HostE : SndHost E}.
Abbreviation M := (machine (snd_dev E)).
Implicit Types s : M.

Definition on_sdev (f : snd_dev E -> snd_dev E) s : M := s <| dev := f (dev s) |>.
Definition on_sregs (f : virtio_state -> virtio_state) s : M := on_sdev (fun d => d <| vsnd_regs := f (vsnd_regs d) |>) s.
Definition on_props (f : virtio_snd_prop_t -> virtio_snd_prop_t) s : M :=
  on_sdev (fun d => d <| vsnd_props := f (vsnd_props d) |>) s.
Definition on_lock (f : virtio_snd_queue_lock_t -> virtio_snd_queue_lock_t) s : M :=
  on_props (fun x => x <| lock := f (lock x) |>) s.
Definition fault (f : snd_fault) s : M := on_sdev (fun d => d <| faults := f :: faults d |>) s.
Definition s_props s : virtio_snd_prop_t := vsnd_props (dev s).
Definition code_of s : Z := pp_code (pp (s_props s)).
Definition set_code (v : Z) s : M := on_props (fun x => x <| pp := (pp x) <| pp_code := v |> |>) s.

Definition snd_call {A} (f : E -> A * E) s : A * M :=
  let '(a, e) := f (snd_host (dev s)) in (a, on_sdev (fun d => d <| snd_host := e |>) s).
Definition s_malloc (size : Z) s : bool * M := snd_call (snd_malloc size) s.
Definition sget32 (off : Z) s : Z * M := (fld32 s off, touch off 4 s).
Definition sget8 (off : Z) s : Z * M := (rd8 s off, touch off 1 s).
Definition put8 (off v : Z) s : M := dma_write off [v] s.

(** [pthread_cond_signal(&props->lock.writable)] and [.readable]: the only thread
    that can wait for each, if it does, runs again. *)
Definition signal_writable s : M :=
  on_sdev (fun d => match tx_at d with
                    | T_enq true m addr len nodes => d <| tx_at := T_enq false m addr len nodes |>
                    | _ => d end) s.
Definition signal_readable s : M :=
  on_sdev (fun d => match cb_at d with C_deq true n id => d <| cb_at := C_deq false n id |> | _ => d end) s.

(* [virtio-snd.c:476-483] virtio_snd_set_fail *)
Definition virtio_snd_set_fail s : M := on_sregs virtio_set_fail s.

(* [virtio-snd.c:486-493] vsnd_preprocess *)
Definition vsnd_preprocess (addr : Z) s : Z * M :=
  if (RAM_SIZE <=? addr) || nz (Z.land addr 3) then (0, virtio_snd_set_fail s) else (Z.shiftr addr 2, s).

(* [virtio-snd.c:495-515] virtio_snd_update_status *)
Definition virtio_snd_update_status (status : Z) s : M :=
  let s := on_sregs (fun d => d <| Status := Z.lor (Status d) status |>) s in
  if nz status then s else on_sregs (fun _ => zero_virtio 4) s.

(** ** Information requests *)

(** [virtio_snd_query_info_t]: the count is at offset 8. Only the first entry of
    [vsnd_props] exists. *)
Definition first_prop (i : Z) (f : virtio_snd_prop_t -> virtio_snd_prop_t) s : M :=
  if i <? VSND_DEV_CNT_MAX then on_props f s else fault Props_index s.
Fixpoint for_count (n : nat) (i : Z) (body : Z -> M -> M) s : M :=
  match n with O => s | S n => for_count n (i + 1) body (body i s) end.
Definition read_info (size : Z) (body : Z -> M -> M) (query : Z) s : Z * M :=
  let '(cnt, s) := sget32 (query + 8) s in
  let s := for_count (Z.to_nat cnt) 0 body s in
  (u32 (cnt * size), s).

(* [virtio-snd.c:517-541] virtio_snd_read_jack_info_handler *)
Definition virtio_snd_read_jack_info_handler (info query : Z) s : Z * M :=
  read_info sizeof_jack_info (fun i s =>
    let a := info + i * sizeof_jack_info in
    let s := put32 (a + 12) 0 (put32 (a + 8) 0 (put32 (a + 4) 0 (put32 a 0 s))) in
    let s := g_memset0 (a + 17) 7 (put8 (a + 16) 1 s) in
    first_prop i (fun x => x <| j := mk_jack 0 0 0 0 1 |>) s) query s.

(* [virtio-snd.c:554-557] virtio_snd_read_pcm_info_handler *)
Definition all_rates : Z := foldl (fun r k => Z.lor r (Z.shiftl 1 (Z.of_nat k))) 0 (seq 0 (length pcm_rate_tbl)).

(* [virtio-snd.c:543-576] virtio_snd_read_pcm_info_handler *)
Definition virtio_snd_read_pcm_info_handler (info query : Z) s : Z * M :=
  read_info sizeof_pcm_info (fun i s =>
    let a := info + i * sizeof_pcm_info in
    let s := put64 (a + 8) (Z.shiftl 1 VIRTIO_SND_PCM_FMT_S16) (put32 (a + 4) 0 (put32 a 0 s)) in
    let s := put64 (a + 16) all_rates s in
    let s := put8 (a + 26) 1 (put8 (a + 25) 1 (put8 (a + 24) VIRTIO_SND_D_OUTPUT s)) in
    let s := g_memset0 (a + 27) 5 s in
    first_prop i (fun x => x <| p := mk_pcm 0 0 (Z.shiftl 1 VIRTIO_SND_PCM_FMT_S16) (Z.lor (p_rates (p x)) all_rates)
                                       VIRTIO_SND_D_OUTPUT 1 1 |>) s) query s.

(* [virtio-snd.c:578-597] virtio_snd_read_chmap_info_handler *)
Definition virtio_snd_read_chmap_info_handler (info query : Z) s : Z * M :=
  read_info sizeof_chmap_info (fun i s =>
    let a := info + i * sizeof_chmap_info in
    let s := put8 (a + 6) VIRTIO_SND_CHMAP_MONO (put8 (a + 5) 1 (put8 (a + 4) VIRTIO_SND_D_OUTPUT (put32 a 0 s))) in
    first_prop i (fun x => x <| c := mk_chmap 0 VIRTIO_SND_D_OUTPUT 1 VIRTIO_SND_CHMAP_MONO |>) s) query s.

(** ** The life of a stream *)

(** [&vsnd_props[stream_id]] with the id at offset 4 of the request; only index 0 is
    inside the array. All the requests answer with length 0. *)
Definition with_stream (query : Z) (body : M -> M) s : M :=
  let '(id, s) := sget32 (query + 4) s in
  if id <? VSND_DEV_CNT_MAX then body s else fault Props_index s.

(* [virtio-snd.c:607-614] virtio_snd_read_pcm_set_params *)
Definition may_configure (code : Z) : bool :=
  (code =? VIRTIO_SND_R_PCM_RELEASE) || (code =? VIRTIO_SND_R_PCM_SET_PARAMS) || (code =? VIRTIO_SND_R_PCM_PREPARE).
(* [virtio-snd.c:695-695] virtio_snd_read_pcm_start *)
Definition prepared_or_stopped (code : Z) : bool :=
  (code =? VIRTIO_SND_R_PCM_PREPARE) || (code =? VIRTIO_SND_R_PCM_STOP).

(* [virtio-snd.c:599-627] virtio_snd_read_pcm_set_params *)
Definition virtio_snd_read_pcm_set_params (query : Z) s : M :=
  with_stream query (fun s =>
    if negb (may_configure (code_of s)) then s
    else
      let '(bb, s) := sget32 (query + 8) s in
      let '(pb, s) := sget32 (query + 12) s in
      let '(ft, s) := sget32 (query + 16) s in
      let '(ch, s) := sget8 (query + 20) s in
      let '(fm, s) := sget8 (query + 21) s in
      let '(rt, s) := sget8 (query + 22) s in
      let '(pd, s) := sget8 (query + 23) s in
      on_props (fun x => x <| pp := mk_pp VIRTIO_SND_R_PCM_SET_PARAMS bb pb ft ch fm rt pd |>) s) s.

(** The period in frames for a tenth of a second. *)
(* [virtio-snd.c:662-666] virtio_snd_read_pcm_prepare *)
Definition cnfa_period_frames (channels rate : Z) : Z :=
  let bps_rate := u32 (channels * VSND_CNFA_FRAME_SZ * rate) in
  let cnfa_period_bytes := bps_rate / 10 in
  cnfa_period_bytes / VSND_CNFA_FRAME_SZ.

(** A rate outside the table is recorded. The ghost fields start again. *)
(* [virtio-snd.c:629-687] virtio_snd_read_pcm_prepare *)
Definition virtio_snd_read_pcm_prepare (query : Z) s : M :=
  with_stream query (fun s =>
    if negb (may_configure (code_of s)) then s
    else
      let s := set_code VIRTIO_SND_R_PCM_PREPARE s in
      let s := on_props (fun x => x <| v_stream_id := 0 |>) s in
      let channels := pp_channels (pp (s_props s)) in
      let r := pp_rate (pp (s_props s)) in
      let s := if r <? Z.of_nat (length pcm_rate_tbl) then s else fault Rate_index s in
      let rate := arr_get 0 pcm_rate_tbl r in
      let s := on_props (fun x => x <| buf_queue := Some [] |> <| g_in := [] |> <| g_out := [] |>) s in
      let s := on_lock (fun _ => mk_qlock 0 false) s in
      let '((err, stream), s) := snd_call (pa_open channels rate (cnfa_period_frames channels rate) (pa_stream (s_props s))) s in
      on_props (fun x => x <| pa_stream := stream |>) s) s.

(* [virtio-snd.c:689-714] virtio_snd_read_pcm_start *)
Definition virtio_snd_read_pcm_start (query : Z) s : M :=
  with_stream query (fun s =>
    if negb (prepared_or_stopped (code_of s)) then s
    else snd (snd_call (pa_start (pa_stream (s_props s))) (set_code VIRTIO_SND_R_PCM_START s))) s.

(* [virtio-snd.c:716-741] virtio_snd_read_pcm_stop *)
Definition virtio_snd_read_pcm_stop (query : Z) s : M :=
  with_stream query (fun s =>
    if negb (code_of s =? VIRTIO_SND_R_PCM_START) then s
    else snd (snd_call (pa_stop (pa_stream (s_props s))) (set_code VIRTIO_SND_R_PCM_STOP s))) s.

(** ** The queue of frames *)

(** What is left of a node, and of the queue. *)
Definition node_rest (x : vsnd_buf_queue_node_t) : list Z := take (Z.to_nat (n_len x - n_pos x)) (drop (Z.to_nat (n_pos x)) (n_bytes x)).
Definition contents (q : option (list vsnd_buf_queue_node_t)) : list Z := concat (node_rest <$> default [] q).

(** [None]: the thread waits for [writable]. The ghost field records the bytes. *)
(* [virtio-snd.c:957-996] __virtio_snd_frame_enqueue *)
Definition __virtio_snd_frame_enqueue (payload len : Z) s : option M :=
  let n := u32 len in
  if (0 <? buf_ev_notify (lock (s_props s))) && negb (releasing (lock (s_props s))) then None
  else if releasing (lock (s_props s)) then Some s
  else
    let '(ok, s) := s_malloc 32 s in
    if negb ok then Some s
    else
      let '(ok, s) := s_malloc n s in
      if negb ok then Some s
      else
        let '(bytes, s) := dma_read payload (Z.to_nat n) s in
        match buf_queue (s_props s) with
        | None => Some (fault Null_pointer s)
        | Some q => Some (on_props (fun x => x <| buf_queue := Some (q ++ [mk_node bytes n 0]) |> <| g_in := g_in x ++ bytes |>) s)
        end.

(** The loop over the nodes: the bytes copied to [out] and the nodes that remain. *)
(* [virtio-snd.c:814-835] __virtio_snd_frame_dequeue *)
Fixpoint take_frames (left : Z) (nodes : list vsnd_buf_queue_node_t) : list Z * list vsnd_buf_queue_node_t :=
  match nodes with
  | [] => ([], [])
  | node :: rest =>
    if negb (0 <? left) then ([], nodes)
    else
      let actual := n_len node - n_pos node in
      let len := if left <? actual then left else actual in
      let bytes := take (Z.to_nat len) (drop (Z.to_nat (n_pos node)) (n_bytes node)) in
      let node := mk_node (n_bytes node) (n_len node) (n_pos node + len) in
      if n_len node <=? n_pos node then
        let '(out, rest) := take_frames (left - len) rest in (bytes ++ out, rest)
      else (bytes, node :: rest)
  end.

(** [None]: the thread waits for [readable]. Otherwise the bytes stored at the start of
    the output; a released stream plays zeros. *)
(* [virtio-snd.c:799-839] __virtio_snd_frame_dequeue *)
Definition __virtio_snd_frame_dequeue (n id : Z) s : option (list Z * M) :=
  if negb (id <? VSND_DEV_CNT_MAX) then Some ([], fault Props_index s)
  else if (buf_ev_notify (lock (s_props s)) <? 1) && negb (releasing (lock (s_props s))) then None
  else if releasing (lock (s_props s)) then Some (replicate (Z.to_nat n) 0, s)
  else
    let '(out, s) :=
      match buf_queue (s_props s) with
      | None => ([], fault Null_pointer s)
      | Some q => let '(out, q) := take_frames n q in
                  (out, on_props (fun x => x <| buf_queue := Some q |> <| g_out := g_out x ++ out |>) s)
      end in
    let s := on_lock (fun l => l <| buf_ev_notify := buf_ev_notify l - 1 |>) s in
    Some (out, signal_writable s).

(** A call of the callback: the number of bytes asked for. *)
(* [virtio-snd.c:841-856] virtio_snd_stream_cb *)
Definition virtio_snd_stream_cb (frame_cnt : Z) s : M :=
  let id := v_stream_id (s_props s) in
  let channels := pp_channels (pp (s_props s)) in
  let out_buf_sz := u32 (frame_cnt * channels) in
  let out_buf_bytes := u32 (out_buf_sz * VSND_CNFA_FRAME_SZ) in
  on_sdev (fun d => d <| cb_at := C_deq false out_buf_bytes id |>) s.

(** A step of PortAudio's thread inside the callback, and what it wrote. *)
(* [virtio-snd.c:803-839] __virtio_snd_frame_dequeue *)
Definition cb_step s : option (list Z) * M :=
  match cb_at (dev s) with
  | C_deq false n id =>
    match __virtio_snd_frame_dequeue n id s with
    | None => (None, on_sdev (fun d => d <| cb_at := C_deq true n id |>) s)
    | Some (out, s) => (Some out, on_sdev (fun d => d <| cb_at := C_idle |>) s)
    end
  | _ => (None, s)
  end.

(** ** PCM messages *)

(** The descriptors of a chain. A chain of more than 65536 visits an index twice and
    never ends; [None] then, or when there is no memory for a node. *)
(* [virtio-snd.c:365-384] VSND_TX_QUEUE_BODY *)
Fixpoint collect (fuel : nat) (queue : virtq_t) (desc_idx : Z) s : option (list virtq_desc) * M :=
  match fuel with
  | O => (None, fault Endless_chain s)
  | S fuel =>
    let '(d, s) := read_desc (u32 (QueueDesc queue + desc_idx * 4)) s in
    let '(ok, s) := s_malloc 32 s in
    if negb ok then (None, fault Null_pointer s)
    else if nz (Z.land (d_flags d) VIRTIO_DESC_F_NEXT) then
      let '(l, s) := collect fuel queue (d_next d) s in
      ((fun l => mk_desc (u32 (d_addr d)) (d_len d) (d_flags d) 0 :: l) <$> l, s)
    else (Some [mk_desc (u32 (d_addr d)) (d_len d) (d_flags d) 0], s)
  end.
Definition chain_fuel : nat := Z.to_nat 65536.

(* [virtio-snd.c:344-347] flush_stream_id *)
Definition flush_stream_id := 0.

(** One descriptor of a message, apart from [__virtio_snd_frame_enqueue]; the flag
    tells that its payload is to be queued. [WRITE] is the parameter of the macro. *)
(* [virtio-snd.c:394-437] VSND_TX_QUEUE_BODY *)
Definition tx_node (WRITE : bool) (idx cnt : Z) (d : virtq_desc) (l : tx_locals) s : bool * tx_locals * M :=
  if idx =? 0 then
    let '(id, s) := sget32 (d_addr d) s in
    let bad := if WRITE then VSND_DEV_CNT_MAX <=? id else negb (id =? flush_stream_id) in
    (false, mk_txl id (ret_len l) bad (plen l), s)
  else if idx =? cnt - 1 then
    if negb WRITE && bad_msg_err l then (false, l, s)
    else
      let s := put32 (d_addr d) (if bad_msg_err l then VIRTIO_SND_S_IO_ERR else VIRTIO_SND_S_OK) s in
      let s := put32 (d_addr d + 4) (ret_len l) s in
      (false, mk_txl (stream_id l) (ret_len l) (bad_msg_err l) sizeof_pcm_status, s)
  else
    (WRITE && negb (bad_msg_err l), mk_txl (stream_id l) (u32 (ret_len l + d_len d)) (bad_msg_err l) (plen l), s).

Definition tx_start : tx_locals := mk_txl 0 0 false 0.

(** A flushed message is answered without queueing its frames. *)
(* [virtio-snd.c:391-437] VSND_TX_QUEUE_BODY *)
Fixpoint flush_nodes (idx cnt : Z) (nodes : list virtq_desc) (l : tx_locals) s : tx_locals * M :=
  match nodes with
  | [] => (l, s)
  | d :: nodes => let '(_, l, s) := tx_node false idx cnt d l s in flush_nodes (idx + 1) cnt nodes l s
  end.
(** [None]: the call does not return. Otherwise its result and the length. *)
(* [virtio-snd.c:468-474] virtio_snd_io_desc_flush_handler *)
Definition virtio_snd_io_desc_flush_handler (queue : virtq_t) (desc_idx : Z) s : option (Z * Z) * M :=
  let '(nodes, s) := collect chain_fuel queue desc_idx s in
  match nodes with
  | None => (None, s)
  | Some nodes => let '(l, s) := flush_nodes 0 (Z.of_nat (length nodes)) nodes tx_start s in (Some (0, plen l), s)
  end.

(** ** Queue processing *)

Definition squeue s (index : Z) : virtq_t := queue_at (vsnd_regs (dev s)) index.

Inductive loop_result := Loop_done (used : Z) | Loop_return | Loop_stuck.

(** The loop with the handler of the table, for the emulator's thread. *)
(* [virtio-snd.c:1020-1051] virtio_queue_notify_handler *)
Fixpoint notify_loop (handler : option (virtq_t -> Z -> M -> option (Z * Z) * M)) (n : nat) (index used : Z) s : loop_result * M :=
  match n with
  | O => (Loop_done used, s)
  | S n =>
    let queue := squeue s index in
    if QueueNum queue =? 0 then (Loop_stuck, fault Div_zero s)
    else
      let '(buffer_idx, s) := avail_entry queue (last_avail queue mod QueueNum queue) s in
      match handler with
      | None => (Loop_return, virtio_snd_set_fail s)
      | Some f =>
        match f queue buffer_idx s with
        | (None, s) => (Loop_stuck, s)
        | (Some (result, len), s) =>
          if nz result then (Loop_return, virtio_snd_set_fail s)
          else
            let s := used_append queue used buffer_idx len s in
            let s := on_sregs (upd_queue index (fun q => q <| last_avail := u16 (last_avail q + 1) |>)) s in
            notify_loop handler n index (u16 (used + 1)) s
        end
      end
  end.

(** The checks before the loop: the new available index and the used index. *)
(* [virtio-snd.c:998-1019] virtio_queue_notify_handler *)
Definition notify_entry (index : Z) s : option (Z * Z) * M :=
  let queue := squeue s index in
  let status := Status (vsnd_regs (dev s)) in
  if nz (Z.land status VIRTIO_STATUS__DEVICE_NEEDS_RESET) then (None, s)
  else if negb (nz (Z.land status VIRTIO_STATUS__DRIVER_OK) && ready queue) then (None, virtio_snd_set_fail s)
  else
    let '(w, s) := ram_get (QueueAvail queue) s in
    let avail := Z.shiftr w 16 in
    if u16 (QueueNum queue) <? avail - last_avail queue then (None, virtio_snd_set_fail s)
    else if last_avail queue =? avail then (None, s)
    else let '(w, s) := ram_get (QueueUsed queue) s in (Some (avail, Z.shiftr w 16), s).

(* [virtio-snd.c:1053-1061] virtio_queue_notify_handler *)
Definition notify_exit (index used : Z) s : M :=
  let queue := squeue s index in
  let s := used_publish queue used s in
  let '(w, s) := ram_get (QueueAvail queue) s in
  if nz (Z.land w 1) then s
  else on_sregs (fun d => d <| InterruptStatus := Z.lor (InterruptStatus d) VIRTIO_INT__USED_RING |>) s.

(** [false]: the call does not return. *)
(* [virtio-snd.c:998-1062] virtio_queue_notify_handler *)
Definition notify_with (handler : option (virtq_t -> Z -> M -> option (Z * Z) * M)) (index : Z) s : bool * M :=
  match notify_entry index s with
  | (None, s) => (true, s)
  | (Some (avail, used), s) =>
    match notify_loop handler (Z.to_nat (u16 (avail - last_avail (squeue s index)))) index used s with
    | (Loop_done used, s) => (true, notify_exit index used s)
    | (Loop_return, s) => (true, s)
    | (Loop_stuck, s) => (false, s)
    end
  end.

(** Frees the nodes (their data stays allocated) and answers the pending messages;
    [false] when that does not return. *)
(* [virtio-snd.c:743-797] virtio_snd_read_pcm_release *)
Definition virtio_snd_read_pcm_release (query : Z) s : bool * M :=
  let '(id, s) := sget32 (query + 4) s in
  if negb (id <? VSND_DEV_CNT_MAX) then (true, fault Props_index s)
  else if negb (prepared_or_stopped (code_of s)) then (true, s)
  else
    let s := set_code VIRTIO_SND_R_PCM_RELEASE s in
    let s := on_lock (fun l => l <| releasing := true |>) s in
    let s := signal_writable (signal_readable s) in
    let s := match buf_queue (s_props s) with
             | None => fault Null_pointer s
             | Some _ => on_props (fun x => x <| buf_queue := Some [] |>) s
             end in
    let '(err, s) := snd_call (pa_close (pa_stream (s_props s))) s in
    notify_with (Some virtio_snd_io_desc_flush_handler) VSND_QUEUE_TX s.

(** At most three descriptors; a later one that is used but was not read is recorded. *)
(* [virtio-snd.c:873-888] virtio_snd_ctrl_desc_handler *)
Fixpoint ctrl_descs (n : nat) (queue : virtq_t) (desc_idx : Z) s : list virtq_desc * M :=
  match n with
  | O => ([], s)
  | S n =>
    let '(d, s) := read_desc (u32 (QueueDesc queue + desc_idx * 4)) s in
    if nz (Z.land (d_flags d) VIRTIO_DESC_F_NEXT) then
      let '(ds, s) := ctrl_descs n queue (d_next d) s in (d :: ds, s)
    else ([d], s)
  end.
Definition uses_desc (vq_desc : list virtq_desc) (i : Z) s : M :=
  if i <? Z.of_nat (length vq_desc) then s else fault Uninit_desc s.

(** The request as dispatched: its length, [None] when it does not return. *)
(* [virtio-snd.c:905-936] virtio_snd_ctrl_desc_handler *)
Definition ctrl_request (type query info : Z) (vq_desc : list virtq_desc) s : option Z * M :=
  if type =? VIRTIO_SND_R_JACK_INFO then
    let '(len, s) := virtio_snd_read_jack_info_handler info query (uses_desc vq_desc 2 s) in (Some len, s)
  else if type =? VIRTIO_SND_R_PCM_INFO then
    let '(len, s) := virtio_snd_read_pcm_info_handler info query (uses_desc vq_desc 2 s) in (Some len, s)
  else if type =? VIRTIO_SND_R_CHMAP_INFO then
    let '(len, s) := virtio_snd_read_chmap_info_handler info query (uses_desc vq_desc 2 s) in (Some len, s)
  else if type =? VIRTIO_SND_R_PCM_SET_PARAMS then (Some 0, virtio_snd_read_pcm_set_params query s)
  else if type =? VIRTIO_SND_R_PCM_PREPARE then (Some 0, virtio_snd_read_pcm_prepare query s)
  else if type =? VIRTIO_SND_R_PCM_RELEASE then
    let '(returns, s) := virtio_snd_read_pcm_release query s in (if returns then Some 0 else None, s)
  else if type =? VIRTIO_SND_R_PCM_START then (Some 0, virtio_snd_read_pcm_start query s)
  else (Some 0, virtio_snd_read_pcm_stop query s).
Definition supported (type : Z) : bool :=
  bool_decide (type ∈ [VIRTIO_SND_R_JACK_INFO; VIRTIO_SND_R_PCM_INFO; VIRTIO_SND_R_CHMAP_INFO; VIRTIO_SND_R_PCM_SET_PARAMS;
     VIRTIO_SND_R_PCM_PREPARE; VIRTIO_SND_R_PCM_RELEASE; VIRTIO_SND_R_PCM_START; VIRTIO_SND_R_PCM_STOP]).

(* [virtio-snd.c:858-940] virtio_snd_ctrl_desc_handler *)
Definition virtio_snd_ctrl_desc_handler (queue : virtq_t) (desc_idx : Z) s : option (Z * Z) * M :=
  let '(vq_desc, s) := ctrl_descs 3 queue desc_idx s in
  let query := d_addr (desc_at vq_desc 0) in
  let response := d_addr (desc_at vq_desc 1) in
  let info := d_addr (desc_at vq_desc 2) in
  let '(type, s) := sget32 query s in
  let s := uses_desc vq_desc 1 s in
  if negb (supported type) then (Some (-1, 0), put32 response VIRTIO_SND_S_NOT_SUPP s)
  else
    match ctrl_request type query info vq_desc s with
    | (None, s) => (None, s)
    | (Some len, s) => (Some (0, len), put32 response VIRTIO_SND_S_OK s)
    end.

(** The table of handlers, for the calls on the emulator's thread; the entry of the TX
    queue is run by [tx_step]. *)
(* [virtio-snd.c:942-955] __virtio_snd_queue_op_tbl *)
Definition queue_op_tbl (index : Z) : option (virtq_t -> Z -> M -> option (Z * Z) * M) :=
  if index =? 0 then Some virtio_snd_ctrl_desc_handler
  else if index =? 6 then Some virtio_snd_io_desc_flush_handler
  else None.
Definition virtio_snd_queue_notify_handler (index : Z) s : bool * M :=
  notify_with (queue_op_tbl (Z.land index 7)) (Z.land index 3) s.

(** ** The TX thread *)

Definition tx_goto (pc : tx_pc) s : M := on_sdev (fun d => d <| tx_at := pc |>) s.

(** The head of the loop: the next message, or the end. *)
(* [virtio-snd.c:1020-1061] virtio_queue_notify_handler *)
Definition tx_loop (na nu : Z) s : M :=
  let queue := squeue s VSND_QUEUE_TX in
  if last_avail queue =? na then tx_goto T_wait (notify_exit VSND_QUEUE_TX nu s)
  else if QueueNum queue =? 0 then tx_goto T_dead (fault Div_zero s)
  else
    let '(b, s) := avail_entry queue (last_avail queue mod QueueNum queue) s in
    let '(nodes, s) := collect chain_fuel queue b s in
    match nodes with
    | None => tx_goto T_dead s
    | Some nodes => tx_goto (T_node (mk_msg na nu b (Z.of_nat (length nodes)) 0 tx_start) nodes) s
    end.

Definition next_node (l : tx_locals) (m : tx_msg) : tx_msg :=
  mk_msg (new_avail m) (new_used m) (buffer_idx m) (m_cnt m) (m_idx m + 1) l.

(** A step of [func] in [virtio_snd_tx_desc_handler] and around it. *)
(* [virtio-snd.c:349-466] VSND_TX_QUEUE_BODY, virtio_snd_tx_desc_handler *)
Definition tx_step s : M :=
  match tx_at (dev s) with
  | T_wait =>
    if tx_ev_notify (dev s) <=? 0 then s
    else tx_goto T_notify (on_sdev (fun d => d <| tx_ev_notify := tx_ev_notify d - 1 |>) s)
  | T_notify =>
    match notify_entry VSND_QUEUE_TX s with
    | (None, s) => tx_goto T_wait s
    | (Some (na, nu), s) => tx_goto (T_loop na nu) s
    end
  | T_loop na nu => tx_loop na nu s
  | T_node m [] => tx_goto (if bad_msg_err (m_loc m) then T_used m else T_signal m) s
  | T_node m (d :: nodes) =>
    let '(enqueue, l, s) := tx_node true (m_idx m) (m_cnt m) d (m_loc m) s in
    tx_goto (if enqueue : bool then T_enq false (next_node l m) (d_addr d) (d_len d) nodes else T_node (next_node l m) nodes) s
  | T_enq false m addr len nodes =>
    match __virtio_snd_frame_enqueue addr len s with
    | None => tx_goto (T_enq true m addr len nodes) s
    | Some s => tx_goto (T_node m nodes) s
    end
  | T_enq true _ _ _ _ => s
  | T_signal m =>
    let s := on_lock (fun l => l <| buf_ev_notify := buf_ev_notify l + 1 |>) s in
    tx_goto (T_used m) (signal_readable s)
  | T_used m =>
    let queue := squeue s VSND_QUEUE_TX in
    let s := used_append queue (new_used m) (buffer_idx m) (plen (m_loc m)) s in
    let s := on_sregs (upd_queue VSND_QUEUE_TX (fun q => q <| last_avail := u16 (last_avail q + 1) |>)) s in
    tx_goto (T_loop (new_avail m) (u16 (new_used m + 1))) s
  | T_dead => s
  end.

(** ** Registers *)

Definition sizeof_snd_config := 16.
Definition ssel s : virtq_t := squeue s (QueueSel (vsnd_regs (dev s))).
Definition upd_ssel (f : virtq_t -> virtq_t) s : M := on_sregs (fun d => upd_queue (QueueSel d) f d) s.

(* [virtio-snd.c:1082-1131] virtio_snd_reg_read *)
Definition virtio_snd_reg_read (addr : Z) s : option Z * M :=
  let d := vsnd_regs (dev s) in
  if addr =? VIRTIO_MagicValue then (Some 0x74726976, s)
  else if addr =? VIRTIO_Version then (Some 2, s)
  else if addr =? VIRTIO_DeviceID then (Some 25, s)
  else if addr =? VIRTIO_VendorID then (Some VIRTIO_VENDOR_ID, s)
  else if addr =? VIRTIO_DeviceFeatures then
    (Some (if DeviceFeaturesSel d =? 0 then VSND_FEATURES_0
           else if DeviceFeaturesSel d =? 1 then VSND_FEATURES_1 else 0), s)
  else if addr =? VIRTIO_QueueNumMax then (Some VSND_QUEUE_NUM_MAX, s)
  else if addr =? VIRTIO_QueueReady then (Some (b2z (ready (ssel s))), s)
  else if addr =? VIRTIO_InterruptStatus then (Some (InterruptStatus d), s)
  else if addr =? VIRTIO_Status then (Some (Status d), s)
  else if addr =? VIRTIO_ConfigGeneration then (Some 0, s)
  else if negb (RANGE_CHECK addr VIRTIO_Config sizeof_snd_config) then (None, s)
  else
    (Some (arr_get 0 (vsnd_config (dev s)) (addr - VIRTIO_Config)),
     if addr - VIRTIO_Config <? 4 then s else fault Config_index s).

(** A notification of the TX queue wakes the TX thread, one of the control queue is
    processed at once. *)
(* [virtio-snd.c:1185-1206] virtio_snd_reg_write *)
Definition snd_notify (value : Z) s : bool * M :=
  if negb (value <? 4) then (true, virtio_snd_set_fail s)
  else if value =? VSND_QUEUE_CTRL then (true, snd (virtio_snd_queue_notify_handler value s))
  else if value =? VSND_QUEUE_TX then (true, on_sdev (fun d => d <| tx_ev_notify := tx_ev_notify d + 1 |>) s)
  else (false, s).

(** [false] is a store fault. *)
(* [virtio-snd.c:1132-1224] virtio_snd_reg_write *)
Definition virtio_snd_reg_write (addr value : Z) s : bool * M :=
  let d := vsnd_regs (dev s) in
  if addr =? VIRTIO_DeviceFeaturesSel then (true, on_sregs (fun d => d <| DeviceFeaturesSel := value |>) s)
  else if addr =? VIRTIO_DriverFeatures then
    (true, if DriverFeaturesSel d =? 0 then on_sregs (fun d => d <| DriverFeatures := value |>) s else s)
  else if addr =? VIRTIO_DriverFeaturesSel then (true, on_sregs (fun d => d <| DriverFeaturesSel := value |>) s)
  else if addr =? VIRTIO_QueueSel then
    (true, if value <? 4 then on_sregs (fun d => d <| QueueSel := value |>) s else virtio_snd_set_fail s)
  else if addr =? VIRTIO_QueueNum then
    (true, if (0 <? value) && (value <=? VSND_QUEUE_NUM_MAX)
           then upd_ssel (fun q => q <| QueueNum := value |>) s else virtio_snd_set_fail s)
  else if addr =? VIRTIO_QueueReady then
    let s := upd_ssel (fun q => q <| ready := nz (Z.land value 1) |>) s in
    (true, if nz (Z.land value 1) then
             let '(w, s) := ram_get (QueueAvail (ssel s)) s in
             upd_ssel (fun q => q <| last_avail := Z.shiftr w 16 |>) s
           else s)
  else if addr =? VIRTIO_QueueDescLow then
    let '(a, s) := vsnd_preprocess value s in (true, upd_ssel (fun q => q <| QueueDesc := a |>) s)
  else if addr =? VIRTIO_QueueDescHigh then (true, if nz value then virtio_snd_set_fail s else s)
  else if addr =? VIRTIO_QueueDriverLow then
    let '(a, s) := vsnd_preprocess value s in (true, upd_ssel (fun q => q <| QueueAvail := a |>) s)
  else if addr =? VIRTIO_QueueDriverHigh then (true, if nz value then virtio_snd_set_fail s else s)
  else if addr =? VIRTIO_QueueDeviceLow then
    let '(a, s) := vsnd_preprocess value s in (true, upd_ssel (fun q => q <| QueueUsed := a |>) s)
  else if addr =? VIRTIO_QueueDeviceHigh then (true, if nz value then virtio_snd_set_fail s else s)
  else if addr =? VIRTIO_QueueNotify then snd_notify value s
  else if addr =? VIRTIO_InterruptACK then
    (true, on_sregs (fun d => d <| InterruptStatus := Z.land (InterruptStatus d) (not32 value) |>) s)
  else if addr =? VIRTIO_Status then (true, virtio_snd_update_status value s)
  else if negb (RANGE_CHECK addr VIRTIO_Config sizeof_snd_config) then (false, s)
  else if addr - VIRTIO_Config <? 4 then
    (true, on_sdev (fun d => d <| vsnd_config := arr_set (vsnd_config d) (addr - VIRTIO_Config) value |>) s)
  else (true, fault Config_index s).

(* [virtio-snd.c:1225-1247] virtio_snd_read *)
Definition virtio_snd_read (addr width : Z) s : option Z * M :=
  if width =? RV_MEM_LW then
    match virtio_snd_reg_read (Z.shiftr addr 2) s with
    | (Some v, s) => (Some v, s)
    | (None, s) => (None, raise RV_EXC_LOAD_FAULT (exc_val (hart s)) s)
    end
  else if (width =? RV_MEM_LBU) || (width =? RV_MEM_LB) || (width =? RV_MEM_LHU) || (width =? RV_MEM_LH) then
    (None, raise RV_EXC_LOAD_MISALIGN (exc_val (hart s)) s)
  else (None, raise RV_EXC_ILLEGAL_INSN 0 s).

(* [virtio-snd.c:1248-1267] virtio_snd_write *)
Definition virtio_snd_write (addr width value : Z) s : M :=
  if width =? RV_MEM_SW then
    let '(ok, s) := virtio_snd_reg_write (Z.shiftr addr 2) value s in
    if ok : bool then s else raise RV_EXC_STORE_FAULT (exc_val (hart s)) s
  else if (width =? RV_MEM_SB) || (width =? RV_MEM_SH) then raise RV_EXC_STORE_MISALIGN (exc_val (hart s)) s
  else raise RV_EXC_ILLEGAL_INSN 0 s.

(** The TX thread starts even when PortAudio then fails. *)
(* [virtio-snd.c:1269-1302] virtio_snd_init *)
Definition virtio_snd_init s : bool * M :=
  if VSND_DEV_CNT_MAX <=? vsnd_dev_cnt (dev s) then (false, s)
  else
    let s := on_sdev (fun d => d <| vsnd_dev_cnt := vsnd_dev_cnt d + 1 |> <| vsnd_config := [1; 1; 1; 0] |>
               <| tx_ev_notify := 0 |>) s in
    let '(err, s) := snd_call thread_create s in
    if nz err then (false, s)
    else
      let s := tx_goto T_wait s in
      let '(err, s) := snd_call pa_initialize s in
      if nz err then (false, on_sdev (fun d => d <| snd_host := pa_terminate (snd_host d) |>) s) else (true, s).
End Snd.

(** The static variables before initialisation. *)
(* [virtio-snd.c:306-320] vsnd_configs, vsnd_props, vsnd_dev_cnt, tx_ev_notify *)
Definition snd_static {E} (host : E) : snd_dev E :=
  mk_snddev (zero_virtio 4) (replicate 4 0)
    (mk_prop (mk_jack 0 0 0 0 0) (mk_pcm 0 0 0 0 0 0 0) (mk_chmap 0 0 0 0)
       (mk_pp VIRTIO_SND_R_PCM_SET_PARAMS 0 0 0 0 0 0 0) None (mk_qlock 0 false) None 0 [] [])
    0 0 T_dead C_idle [] host.
