(* ===== verification/SndProps.v ===== *)
(** * The sound device: theorems

    An invariant of the shared stream, kept by every step of the three threads, from
    which the states of a stream, the order of the frames and the absence of lost
    wake-ups follow. *)

From stdpp Require Import base gmap list relations.
From Stdlib Require Import ZArith Lia Bool.
From S2P Require Import Prelude Isa Hart Machine Loops Device Virtio VirtioProps DmaProps VirtioSnd.
Open Scope Z_scope.

(** The states of a PCM stream by the request that led there, and the requests that
    are allowed in them. *)
Inductive pcm_edge : Z -> Z -> Prop :=
  | e_set c : c ∈ [VIRTIO_SND_R_PCM_RELEASE; VIRTIO_SND_R_PCM_SET_PARAMS; VIRTIO_SND_R_PCM_PREPARE] ->
      pcm_edge c VIRTIO_SND_R_PCM_SET_PARAMS
  | e_prepare c : c ∈ [VIRTIO_SND_R_PCM_RELEASE; VIRTIO_SND_R_PCM_SET_PARAMS; VIRTIO_SND_R_PCM_PREPARE] ->
      pcm_edge c VIRTIO_SND_R_PCM_PREPARE
  | e_start c : c ∈ [VIRTIO_SND_R_PCM_PREPARE; VIRTIO_SND_R_PCM_STOP] -> pcm_edge c VIRTIO_SND_R_PCM_START
  | e_stop : pcm_edge VIRTIO_SND_R_PCM_START VIRTIO_SND_R_PCM_STOP
  | e_release c : c ∈ [VIRTIO_SND_R_PCM_PREPARE; VIRTIO_SND_R_PCM_STOP] -> pcm_edge c VIRTIO_SND_R_PCM_RELEASE.

(** A stream that has been prepared and not released. *)
Definition open_code (code : Z) : Prop :=
  code ∈ [VIRTIO_SND_R_PCM_PREPARE; VIRTIO_SND_R_PCM_START; VIRTIO_SND_R_PCM_STOP].

(** The codes are distinct numbers. *)
Ltac codes := match goal with
  | |- _ ∈ _ => by apply (bool_decide_unpack _); vm_compute
  | |- open_code _ => unfold open_code; by apply (bool_decide_unpack _); vm_compute
  | H : open_code _ |- _ => unfold open_code in H; by apply (bool_decide_pack _) in H; vm_compute in H
  | H : _ ∈ _ |- _ => by apply (bool_decide_pack _) in H; vm_compute in H
  | |- _ => by vm_compute
  end.
Lemma open_codes code : open_code code -> code ∈ [VIRTIO_SND_R_PCM_SET_PARAMS; VIRTIO_SND_R_PCM_PREPARE; VIRTIO_SND_R_PCM_RELEASE;
  VIRTIO_SND_R_PCM_START; VIRTIO_SND_R_PCM_STOP] /\ code <> VIRTIO_SND_R_PCM_RELEASE.
Proof.
  intros H. unfold open_code in H. rewrite !elem_of_cons, elem_of_nil in H. destruct H as [-> | [-> | [-> | []]]]; (split; [codes|done]).
Qed.

Lemma may_configure_spec code : may_configure code = true ->
  code ∈ [VIRTIO_SND_R_PCM_RELEASE; VIRTIO_SND_R_PCM_SET_PARAMS; VIRTIO_SND_R_PCM_PREPARE].
Proof. unfold may_configure. rewrite !orb_true_iff, !Z.eqb_eq. intros [[-> | ->] | ->]; codes. Qed.
Lemma prepared_or_stopped_spec code : prepared_or_stopped code = true ->
  code ∈ [VIRTIO_SND_R_PCM_PREPARE; VIRTIO_SND_R_PCM_STOP].
Proof. unfold prepared_or_stopped. rewrite orb_true_iff, !Z.eqb_eq. intros [-> | ->]; codes. Qed.

(** ** Frames *)

#[local] Arguments contents : simpl never.
#[local] Arguments signal_writable : simpl never.
#[local] Arguments signal_readable : simpl never.

Definition node_ok (x : vsnd_buf_queue_node_t) : Prop := 0 <= n_pos x <= n_len x /\ Z.of_nat (length (n_bytes x)) = n_len x.

Lemma node_rest_all x : node_ok x -> node_rest x = drop (Z.to_nat (n_pos x)) (n_bytes x).
Proof. intros [H L]. unfold node_rest. rewrite take_ge; [done|]. rewrite length_drop. lia. Qed.

Lemma contents_cons x q : contents (Some (x :: q)) = node_rest x ++ contents (Some q).
Proof. reflexivity. Qed.

(** Taking frames takes a prefix of the contents. *)
Lemma take_frames_spec nodes : forall left, Forall node_ok nodes ->
  let '(out, rest) := take_frames left nodes in
  out = take (Z.to_nat left) (contents (Some nodes)) /\ contents (Some rest) = drop (Z.to_nat left) (contents (Some nodes)) /\
  Forall node_ok rest.
Proof.
  induction nodes as [|x nodes IH]; intros left F; [cbn; unfold contents; cbn; by rewrite take_nil, drop_nil|].
  apply Forall_cons in F as [Hx F]. cbn [take_frames]. destruct (Z.ltb_spec 0 left) as [Hl|Hl]; cbn [negb].
  2: { replace (Z.to_nat left) with 0%nat by lia. rewrite drop_0. split_and!; [done|done|by constructor]. }
  rewrite contents_cons, (node_rest_all x Hx). destruct Hx as [Hp HL].
  set (actual := n_len x - n_pos x). cbn [n_len n_pos n_bytes].
  set (rest := drop (Z.to_nat (n_pos x)) (n_bytes x)).
  assert (Lr : length rest = Z.to_nat actual) by (unfold rest, actual; rewrite length_drop; lia).
  destruct (Z.ltb_spec left actual) as [Hla|Hla].
  - destruct (Z.leb_spec (n_len x) (n_pos x + left)) as [Hd|Hd]; [lia|].
    rewrite contents_cons, (node_rest_all (mk_node _ _ _)) by (split; cbn; lia). cbn [n_pos n_bytes].
    rewrite take_app_le, drop_app_le by lia. split_and!; [done| |constructor; [split; cbn; lia|done]].
    unfold rest. rewrite drop_drop. f_equal. f_equal. lia.
  - destruct (Z.leb_spec (n_len x) (n_pos x + actual)) as [Hd|Hd]; [|lia].
    specialize (IH (left - actual) F). destruct (take_frames (left - actual) nodes) as [out rest'].
    destruct IH as (-> & -> & IH). rewrite take_app_ge, drop_app_ge by lia.
    rewrite take_ge by lia. replace (Z.to_nat (left - actual)) with (Z.to_nat left - length rest)%nat by lia. done.
Qed.

Lemma contents_snoc q bytes n : Z.of_nat (length bytes) = n ->
  contents (Some (q ++ [mk_node bytes n 0])) = contents (Some q) ++ bytes.
Proof.
  intros <-. induction q as [|x q IH].
  - cbn [app]. rewrite contents_cons, node_rest_all by (split; cbn; lia). apply app_nil_r.
  - cbn [app]. by rewrite !contents_cons, IH, app_assoc.
Qed.

Section Stream.
Context {E : Type} `{HostE : SndHost E}.
Abbreviation M := (machine (snd_dev E)).
Implicit Types s : M.

(** ** The invariant *)

Record snd_inv (d : snd_dev E) : Prop := {
  si_code : pp_code (pp (vsnd_props d)) ∈ [VIRTIO_SND_R_PCM_SET_PARAMS; VIRTIO_SND_R_PCM_PREPARE; VIRTIO_SND_R_PCM_RELEASE;
                                          VIRTIO_SND_R_PCM_START; VIRTIO_SND_R_PCM_STOP];
  si_open : open_code (pp_code (pp (vsnd_props d))) -> is_Some (buf_queue (vsnd_props d)) /\ releasing (lock (vsnd_props d)) = false;
  si_released : pp_code (pp (vsnd_props d)) = VIRTIO_SND_R_PCM_RELEASE ->
    buf_queue (vsnd_props d) = Some [] /\ releasing (lock (vsnd_props d)) = true;
  si_nodes : Forall node_ok (default [] (buf_queue (vsnd_props d)));
  si_fifo : releasing (lock (vsnd_props d)) = false ->
    g_in (vsnd_props d) = g_out (vsnd_props d) ++ contents (buf_queue (vsnd_props d));
  si_notify : 0 <= buf_ev_notify (lock (vsnd_props d));
  si_id : v_stream_id (vsnd_props d) = 0;
  si_cb : forall asleep n id, cb_at d = C_deq asleep n id -> id = 0 /\
    (asleep = true -> buf_ev_notify (lock (vsnd_props d)) = 0 /\ releasing (lock (vsnd_props d)) = false);
  si_tx : forall m a l nodes, tx_at d = T_enq true m a l nodes -> releasing (lock (vsnd_props d)) = false }.

(** What the invariant is about. *)
Definition core (d : snd_dev E) := (vsnd_props d, tx_at d, cb_at d).
Lemma core_inv d d' : core d' = core d -> snd_inv d -> snd_inv d'.
Proof. unfold core. intros [= H1 H2 H3] []. by constructor; rewrite ?H1, ?H2, ?H3. Qed.

(** A step keeps the invariant and moves the stream along the edges. *)
Record keeps s s' : Prop := {
  k_inv : snd_inv (dev s) -> snd_inv (dev s');
  k_life : snd_inv (dev s) -> rtc pcm_edge (code_of s) (code_of s') }.

Lemma keeps_refl s : keeps s s.
Proof. by split. Qed.
Lemma keeps_trans s1 s2 s3 : keeps s1 s2 -> keeps s2 s3 -> keeps s1 s3.
Proof. intros [A1 B1] [A2 B2]. split; [auto|]. intros I. etrans; eauto. Qed.
Lemma keeps_core s s' : core (dev s') = core (dev s) -> keeps s s'.
Proof.
  intros H. split; [by apply core_inv|]. intros _. unfold code_of, s_props. unfold core in H. injection H as -> _ _. done.
Qed.
Lemma keeps_dev s s' : dev s' = dev s -> keeps s s'.
Proof. intros H. apply keeps_core. by rewrite H. Qed.

(** ** Steps that do not touch the stream *)

Definition quiet s s' : Prop := core (dev s') = core (dev s).
Lemma quiet_refl s : quiet s s.
Proof. done. Qed.
Lemma quiet_trans s1 s2 s3 : quiet s1 s2 -> quiet s2 s3 -> quiet s1 s3.
Proof. unfold quiet. congruence. Qed.
Lemma quiet_dev s s' : dev s' = dev s -> quiet s s'.
Proof. unfold quiet. by intros ->. Qed.
Lemma quiet_regs f s : quiet s (on_sregs f s).
Proof. done. Qed.
Lemma quiet_fault f s : quiet s (fault f s).
Proof. done. Qed.
Lemma quiet_fail s : quiet s (virtio_snd_set_fail s).
Proof. done. Qed.
Lemma snd_call_spec {A} (f : E -> A * E) s :
  snd_call f s = (fst (f (snd_host (dev s))), on_sdev (fun d => d <| snd_host := snd (f (snd_host (dev s))) |>) s).
Proof. unfold snd_call. by destruct (f (snd_host (dev s))). Qed.
Lemma quiet_call {A} (f : E -> A * E) s : quiet s (snd (snd_call f s)).
Proof. by rewrite snd_call_spec. Qed.
Lemma quiet_malloc n s : quiet s (snd (s_malloc n s)).
Proof. apply quiet_call. Qed.
Lemma quiet_touch o n s : quiet s (touch o n s).
Proof. apply quiet_dev, dev_touch. Qed.
Lemma quiet_dma o bytes s : quiet s (dma_write o bytes s).
Proof. apply quiet_dev, dev_dma_write. Qed.
Lemma quiet_raise c v s : quiet s (raise c v s).
Proof. apply quiet_dev, dev_raise. Qed.
Lemma quiet_uses l i s : quiet s (uses_desc l i s).
Proof. unfold uses_desc. by case_match. Qed.

Lemma quiet_collect fuel : forall q i s, quiet s (snd (collect fuel q i s)).
Proof.
  induction fuel as [|fuel IH]; intros q i s; [done|]. cbn [collect]. unfold read_desc. cbv beta iota.
  pose proof (quiet_malloc 32 (touch (4 * u32 (QueueDesc q + i * 4)) 16 s)) as K.
  destruct (s_malloc 32 _) as [ok s1]. cbn [snd] in K.
  assert (K1 : quiet s s1) by (eapply quiet_trans; [apply quiet_touch|exact K]).
  case_match; [exact K1|]. case_match; [|exact K1].
  match goal with |- context [collect fuel q ?j s1] => pose proof (IH q j s1) as K2; destruct (collect fuel q j s1) as [l s2] end.
  by eapply quiet_trans.
Qed.

Lemma quiet_node W idx cnt d l s : quiet s (snd (tx_node W idx cnt d l s)).
Proof.
  unfold tx_node, sget32. case_match; [apply quiet_touch|]. case_match; [|done]. case_match; [done|]. cbn [snd].
  eapply quiet_trans; apply quiet_dma.
Qed.
Lemma quiet_flush_nodes nodes : forall idx cnt l s, quiet s (snd (flush_nodes idx cnt nodes l s)).
Proof.
  induction nodes as [|d nodes IH]; intros idx cnt l s; [done|]. cbn [flush_nodes]. pose proof (quiet_node false idx cnt d l s) as K.
  destruct (tx_node false idx cnt d l s) as [[b l'] s']. eapply quiet_trans; [exact K|apply IH].
Qed.
Lemma quiet_flush q i s : quiet s (snd (virtio_snd_io_desc_flush_handler q i s)).
Proof.
  unfold virtio_snd_io_desc_flush_handler. pose proof (quiet_collect chain_fuel q i s) as K.
  destruct (collect chain_fuel q i s) as [[nodes|] s1]; [|exact K]. eapply quiet_trans; [exact K|].
  pose proof (quiet_flush_nodes nodes 0 (Z.of_nat (length nodes)) tx_start s1) as K1. by destruct (flush_nodes _ _ _ _ s1).
Qed.

Lemma quiet_append q u i l s : quiet s (used_append q u i l s).
Proof. apply quiet_dev, dev_used_append. Qed.
Lemma quiet_avail q i s : quiet s (snd (avail_entry q i s)).
Proof. apply quiet_dev, dev_avail_entry. Qed.
Lemma quiet_publish q u s : quiet s (used_publish q u s).
Proof. apply quiet_dev, dev_used_publish. Qed.
Lemma quiet_exit i u s : quiet s (notify_exit i u s).
Proof.
  unfold notify_exit, ram_get. eapply quiet_trans; [apply quiet_publish|]. eapply quiet_trans; [apply quiet_touch|]. by case_match.
Qed.
Lemma quiet_entry i s : quiet s (snd (notify_entry i s)).
Proof.
  unfold notify_entry, ram_get. case_match; [done|]. case_match; [done|]. case_match; [apply quiet_touch|].
  case_match; [apply quiet_touch|]. eapply quiet_trans; apply quiet_touch.
Qed.

(** ** The control queue *)

Lemma keeps_quiet s s' : quiet s s' -> keeps s s'.
Proof. apply keeps_core. Qed.
Lemma keeps_after s s1 s2 : quiet s s1 -> keeps s1 s2 -> keeps s s2.
Proof. intros H. apply keeps_trans, keeps_quiet, H. Qed.
Lemma keeps_before s s1 s2 : keeps s s1 -> quiet s1 s2 -> keeps s s2.
Proof. intros H K. eapply keeps_trans; [exact H|by apply keeps_quiet]. Qed.

Definition handler_keeps (f : virtq_t -> Z -> M -> option (Z * Z) * M) : Prop := forall q i s, keeps s (snd (f q i s)).

Lemma keeps_loop f n : (forall g, f = Some g -> handler_keeps g) -> forall i u s, keeps s (snd (notify_loop f n i u s)).
Proof.
  intros Hf. induction n as [|n IH]; intros i u s; [apply keeps_refl|]. cbn [notify_loop]. cbv zeta.
  case_match; [by apply keeps_quiet|].
  match goal with |- context [avail_entry ?q ?k s] => pose proof (quiet_avail q k s) as K; destruct (avail_entry q k s) as [b s1] end.
  cbn [snd] in K. eapply keeps_after; [exact K|]. destruct f as [g|]; [|apply keeps_quiet, quiet_fail].
  specialize (Hf g eq_refl (squeue s i) b s1). destruct (g (squeue s i) b s1) as [[[r len]|] s2]; [|exact Hf]. cbn [snd] in Hf.
  case_match; [eapply keeps_before; [exact Hf|apply quiet_fail]|]. eapply keeps_trans; [|apply IH].
  eapply keeps_before; [exact Hf|]. eapply quiet_trans; [apply quiet_append|apply quiet_regs].
Qed.

Lemma keeps_notify f i s : (forall g, f = Some g -> handler_keeps g) -> keeps s (snd (notify_with f i s)).
Proof.
  intros Hf. unfold notify_with. pose proof (quiet_entry i s) as K. destruct (notify_entry i s) as [[[na nu]|] s1]; [|by apply keeps_quiet].
  cbn [snd] in K. eapply keeps_after; [exact K|]. set (n := Z.to_nat _). pose proof (keeps_loop f n Hf i nu s1) as K1.
  destruct (notify_loop f n i nu s1) as [[u| |] s2]; [|exact K1|exact K1]. eapply keeps_before; [exact K1|apply quiet_exit].
Qed.

Lemma keeps_flush_notify i s : keeps s (snd (notify_with (Some virtio_snd_io_desc_flush_handler) i s)).
Proof. apply keeps_notify. intros g [= <-] q k s'. apply keeps_quiet, quiet_flush. Qed.

(** Information requests change nothing the invariant is about. *)
Lemma keeps_info_prop f s : (forall x, pp (f x) = pp x /\ lock (f x) = lock x /\ buf_queue (f x) = buf_queue x /\
    v_stream_id (f x) = v_stream_id x /\ g_in (f x) = g_in x /\ g_out (f x) = g_out x) -> keeps s (on_props f s).
Proof.
  intros H. destruct (H (vsnd_props (dev s))) as (H1 & H2 & H3 & H4 & H5 & H6). split.
  - intros []. constructor; cbn; by rewrite ?H1, ?H2, ?H3, ?H4, ?H5, ?H6.
  - intros _. unfold code_of, s_props. cbn. by rewrite H1.
Qed.
Lemma keeps_first i f s : (forall x, pp (f x) = pp x /\ lock (f x) = lock x /\ buf_queue (f x) = buf_queue x /\
    v_stream_id (f x) = v_stream_id x /\ g_in (f x) = g_in x /\ g_out (f x) = g_out x) -> keeps s (first_prop i f s).
Proof. intros H. unfold first_prop. case_match; [by apply keeps_info_prop|apply keeps_quiet, quiet_fault]. Qed.
Lemma keeps_count n : forall i body s, (forall i s, keeps s (body i s)) -> keeps s (for_count n i body s).
Proof.
  induction n as [|n IH]; intros i body s H; [apply keeps_refl|]. cbn [for_count]. eapply keeps_trans; [apply H|by apply IH].
Qed.
Lemma keeps_read_info size body q s : (forall i s, keeps s (body i s)) -> keeps s (snd (read_info size body q s)).
Proof.
  intros H. unfold read_info, sget32. cbn [snd]. eapply keeps_after; [apply quiet_touch|by apply keeps_count].
Qed.
Ltac info_handler := intros; apply keeps_read_info; intros k0 s0; cbv zeta; eapply keeps_after; [|apply keeps_first; intros ?; split_and!; reflexivity];
  repeat (eapply quiet_trans; [|apply quiet_dma]); apply quiet_refl.
Lemma keeps_jack info q s : keeps s (snd (virtio_snd_read_jack_info_handler info q s)).
Proof. info_handler. Qed.
Lemma keeps_pcm info q s : keeps s (snd (virtio_snd_read_pcm_info_handler info q s)).
Proof. info_handler. Qed.
Lemma keeps_chmap info q s : keeps s (snd (virtio_snd_read_chmap_info_handler info q s)).
Proof. info_handler. Qed.

(** ** The life of a stream *)

Lemma keeps_stream query body s : (forall s, keeps s (body s)) -> keeps s (with_stream query body s).
Proof.
  intros H. unfold with_stream, sget32. cbv beta iota. eapply keeps_after; [apply quiet_touch|].
  case_match; [apply H|apply keeps_quiet, quiet_fault].
Qed.

(** Configuration keeps the queue and leaves the codes of an open stream only for
    SET_PARAMS. *)
Lemma keeps_set_params q s : keeps s (virtio_snd_read_pcm_set_params q s).
Proof.
  apply keeps_stream. clear s. intros s. destruct (may_configure (code_of s)) eqn:C; [|apply keeps_refl].
  apply may_configure_spec in C. unfold sget32, sget8. cbn [negb]. cbv beta iota.
  match goal with |- keeps _ (on_props ?f ?x) => set (g := f); set (s1 := x); assert (Q : quiet s s1) end.
  { unfold s1. do 6 (eapply quiet_trans; [|apply quiet_touch]). apply quiet_touch. }
  assert (Hc : code_of s1 = code_of s) by (unfold code_of, s_props; unfold quiet, core in Q; by injection Q as -> _ _).
  rewrite <- Hc in C. eapply keeps_after; [exact Q|]. clearbody s1. split.
  - intros []. constructor; cbn; try done; [codes|]. intros H. exfalso. codes.
  - intros _. apply rtc_once. by apply (e_set (code_of s1)).
Qed.

Lemma keeps_prepare q s : keeps s (virtio_snd_read_pcm_prepare q s).
Proof.
  apply keeps_stream. clear s. intros s. destruct (may_configure (code_of s)) eqn:C; [|apply keeps_refl].
  apply may_configure_spec in C. cbn [negb]. cbv zeta. rewrite snd_call_spec. cbv beta iota.
  set (o := fst _). destruct o as [err stream].
  match goal with |- keeps s ?x => set (s1 := x) end. set (x := s_props s).
  assert (Hc : core (dev s1) = (mk_prop (j x) (p x) (c x) ((pp x) <| pp_code := VIRTIO_SND_R_PCM_PREPARE |>) stream
    (mk_qlock 0 false) (Some []) 0 [] [], tx_at (dev s), cb_at (dev s))) by (unfold s1; case_match; reflexivity).
  clearbody s1. unfold core in Hc. injection Hc as Hp Ht Hb. split.
  - intros [I1 I2 I3 I4 I5 I6 I7 I8 I9]. constructor; rewrite ?Hp, ?Ht, ?Hb; cbn; try done; [codes|].
    intros asleep n id E0. destruct (I8 asleep n id E0) as [-> K]. split; [done|]. intros Ha. by destruct (K Ha).
  - intros _. apply rtc_once. unfold code_of, s_props. rewrite Hp. by apply (e_prepare (code_of s)).
Qed.

(** A change of the code alone. *)
Lemma keeps_code v s : v ∈ [VIRTIO_SND_R_PCM_START; VIRTIO_SND_R_PCM_STOP] -> open_code (code_of s) ->
  pcm_edge (code_of s) v -> keeps s (set_code v s).
Proof.
  intros Hv Ho He. split; [|intros _; by apply rtc_once]. intros [I1 I2 I3 I4 I5 I6 I7 I8 I9].
  destruct (I2 Ho) as [J1 J2]. assert (Hn : v <> VIRTIO_SND_R_PCM_RELEASE) by (intros ->; codes).
  constructor; cbn; try done. rewrite !elem_of_cons, elem_of_nil in Hv. destruct Hv as [-> | [-> | []]]; codes.
Qed.
Lemma prepared_open code : prepared_or_stopped code = true -> open_code code.
Proof. intros H. unfold prepared_or_stopped in H. rewrite orb_true_iff, !Z.eqb_eq in H. by destruct H as [-> | ->]; codes. Qed.

Lemma keeps_start q s : keeps s (virtio_snd_read_pcm_start q s).
Proof.
  apply keeps_stream. clear s. intros s. destruct (prepared_or_stopped (code_of s)) eqn:C; [|apply keeps_refl]. cbn [negb].
  eapply keeps_before; [|apply quiet_call]. apply keeps_code; [codes|by apply prepared_open|by apply e_start, prepared_or_stopped_spec].
Qed.
Lemma keeps_stop q s : keeps s (virtio_snd_read_pcm_stop q s).
Proof.
  apply keeps_stream. clear s. intros s. destruct (Z.eqb_spec (code_of s) VIRTIO_SND_R_PCM_START) as [C|]; [|apply keeps_refl].
  cbn [negb]. eapply keeps_before; [|apply quiet_call].
  apply keeps_code; [codes|rewrite C; codes|rewrite C; apply e_stop].
Qed.

(** Releasing wakes both waiters. *)
Lemma signals_awake s : let d := dev (signal_writable (signal_readable s)) in
  vsnd_props d = vsnd_props (dev s) /\ (forall m a l nodes, tx_at d <> T_enq true m a l nodes) /\
  (forall n id, cb_at d <> C_deq true n id) /\
  (forall asleep n id, cb_at d = C_deq asleep n id -> exists a', cb_at (dev s) = C_deq a' n id).
Proof.
  unfold signal_writable, signal_readable, on_sdev. cbn. destruct (cb_at (dev s)) as [|[] n id] eqn:Ec; cbn;
    destruct (tx_at (dev s)) as [| | | |[] | | |] eqn:Et; cbn; rewrite ?Ec, ?Et; split_and!; try done; intros; try congruence; naive_solver.
Qed.

Lemma keeps_release q s : keeps s (snd (virtio_snd_read_pcm_release q s)).
Proof.
  unfold virtio_snd_read_pcm_release, sget32. cbv beta iota. eapply keeps_after; [apply (quiet_touch (q + 4) 4)|].
  set (s0 := touch (q + 4) 4 s). case_match; [apply keeps_quiet, quiet_fault|].
  destruct (prepared_or_stopped (code_of s0)) eqn:C; [|apply keeps_refl]. cbn [negb]. cbv zeta.
  set (s1 := on_lock _ (set_code _ s0)). pose proof (signals_awake s1) as (P1 & P2 & P3 & P4).
  set (s2 := signal_writable (signal_readable s1)) in *. set (s3 := match buf_queue _ with Some _ => _ | None => _ end).
  rewrite snd_call_spec. cbv beta iota. eapply keeps_trans; [|apply keeps_flush_notify].
  apply (keeps_before _ s3); [|done]. assert (Hx : s_props s2 = (s_props s0) <| pp := (pp (s_props s0)) <| pp_code :=
    VIRTIO_SND_R_PCM_RELEASE |> |> <| lock := (lock (s_props s0)) <| releasing := true |> |>) by (unfold s_props; by rewrite P1).
  clearbody s2. split.
  - intros [I1 I2 I3 I4 I5 I6 I7 I8 I9]. destruct (I2 (prepared_open _ C)) as [[q0 Hq] _].
    unfold s3. rewrite Hx. cbn. fold (s_props s0) in Hq, I4. rewrite Hq. unfold s_props in Hx.
    constructor; cbn; rewrite ?Hx; cbn; try done; [codes|intros K0; exfalso; codes| |].
    + intros asleep n id E0. destruct (P4 _ _ _ E0) as [a' E1]. destruct (I8 a' n id E1) as [-> _]. split; [done|].
      intros ->. by destruct (P3 n 0).
    + intros m a l nodes E0. by destruct (P2 m a l nodes).
  - intros _. apply rtc_once. replace (code_of s3) with VIRTIO_SND_R_PCM_RELEASE; [by apply e_release, prepared_or_stopped_spec|].
    unfold s3. unfold code_of, s_props in *. case_match; cbn; by rewrite Hx.
Qed.

Lemma keeps_ctrl : handler_keeps virtio_snd_ctrl_desc_handler.
Proof.
  intros q i s. unfold virtio_snd_ctrl_desc_handler.
  assert (Kd : forall n i s, quiet s (snd (ctrl_descs n q i s))).
  { induction n as [|n IH]; intros i' s'; [done|]. cbn [ctrl_descs]. unfold read_desc. cbv beta iota. case_match; [|apply quiet_touch].
    match goal with |- context [ctrl_descs n q ?k ?x] => pose proof (IH k x) as K; destruct (ctrl_descs n q k x) as [ds s2] end.
    eapply quiet_trans; [apply quiet_touch|exact K]. }
  specialize (Kd 3%nat i s). destruct (ctrl_descs 3 q i s) as [vq s1]. cbn [snd] in Kd. unfold sget32. cbv beta iota zeta.
  set (query := d_addr (desc_at vq 0)). set (info := d_addr (desc_at vq 2)). set (type := fld32 _ _).
  set (s2 := uses_desc vq 1 _). assert (Q2 : quiet s s2).
  { eapply quiet_trans; [exact Kd|]. eapply quiet_trans; [apply quiet_touch|apply quiet_uses]. }
  eapply keeps_after; [exact Q2|]. clearbody s2 type.
  case_match; [apply keeps_quiet, quiet_dma|]. assert (K : keeps s2 (snd (ctrl_request type query info vq s2))).
  { unfold ctrl_request. case_match; [|case_match; [|case_match; [|case_match; [|case_match; [|case_match; [|case_match]]]]]].
    - pose proof (keeps_jack info query (uses_desc vq 2 s2)) as K. destruct (virtio_snd_read_jack_info_handler _ _ _).
      eapply keeps_after; [apply (quiet_uses vq 2)|exact K].
    - pose proof (keeps_pcm info query (uses_desc vq 2 s2)) as K. destruct (virtio_snd_read_pcm_info_handler _ _ _).
      eapply keeps_after; [apply (quiet_uses vq 2)|exact K].
    - pose proof (keeps_chmap info query (uses_desc vq 2 s2)) as K. destruct (virtio_snd_read_chmap_info_handler _ _ _).
      eapply keeps_after; [apply (quiet_uses vq 2)|exact K].
    - apply keeps_set_params.
    - apply keeps_prepare.
    - pose proof (keeps_release query s2) as K. by destruct (virtio_snd_read_pcm_release query s2).
    - apply keeps_start.
    - apply keeps_stop. }
  destruct (ctrl_request type query info vq s2) as [[len|] s3]; [|exact K]. eapply keeps_before; [exact K|apply quiet_dma].
Qed.

(** ** The three threads *)

Lemma keeps_queue_notify i s : keeps s (snd (virtio_snd_queue_notify_handler i s)).
Proof.
  apply keeps_notify. unfold queue_op_tbl. intros g. case_match; [intros [= <-]; apply keeps_ctrl|]. case_match; [|done].
  intros [= <-] q k s'. apply keeps_quiet, quiet_flush.
Qed.

Lemma keeps_reg_write a v s : keeps s (snd (virtio_snd_reg_write a v s)).
Proof.
  unfold virtio_snd_reg_write, vsnd_preprocess, ram_get, upd_ssel, snd_notify, virtio_snd_update_status. cbv zeta.
  repeat (case_match; cbn [snd]; try (by apply keeps_quiet); try apply keeps_queue_notify).
  all: try (eapply keeps_after; [|apply keeps_quiet; apply quiet_regs]); try (by apply keeps_quiet).
  1: { eapply quiet_trans; [apply quiet_regs|apply quiet_touch]. }
  all: by simplify_eq.
Qed.
Lemma keeps_write a w v s : keeps s (virtio_snd_write a w v s).
Proof.
  unfold virtio_snd_write. case_match; [|case_match; apply keeps_quiet, quiet_raise].
  pose proof (keeps_reg_write (Z.shiftr a 2) v s) as K. destruct (virtio_snd_reg_write _ v s) as [[] s1]; [exact K|].
  eapply keeps_before; [exact K|apply quiet_raise].
Qed.
Lemma keeps_read a w s : keeps s (snd (virtio_snd_read a w s)).
Proof.
  apply keeps_quiet. unfold virtio_snd_read. case_match; [|case_match; apply quiet_raise].
  assert (K : quiet s (snd (virtio_snd_reg_read (Z.shiftr a 2) s))).
  { unfold virtio_snd_reg_read. cbv zeta. repeat (case_match; [done|]). done. }
  destruct (virtio_snd_reg_read _ s) as [[v|] s1]; [exact K|]. eapply quiet_trans; [exact K|apply quiet_raise].
Qed.

(** A change of position that is not to sleep. *)
Lemma keeps_goto pc s : (forall m a l nodes, pc <> T_enq true m a l nodes) -> keeps s (tx_goto pc s).
Proof.
  intros H. split; [|done]. intros []. constructor; cbn; try done. intros m a l nodes E0. by destruct (H m a l nodes).
Qed.

Lemma enqueue_sleeps addr len m nodes s : __virtio_snd_frame_enqueue addr len s = None -> keeps s (tx_goto (T_enq true m addr len nodes) s).
Proof.
  unfold __virtio_snd_frame_enqueue. destruct (releasing (lock (s_props s))) eqn:R.
  { rewrite andb_false_r. done. }
  intros _. split; [|done]. intros []. by constructor.
Qed.

Lemma keeps_enqueue addr len s s' : __virtio_snd_frame_enqueue addr len s = Some s' -> keeps s s'.
Proof.
  unfold __virtio_snd_frame_enqueue. cbv zeta. pose proof (u32_nonneg len) as Hl. set (n := u32 len) in *. destruct (releasing (lock (s_props s))) eqn:R.
  { rewrite andb_false_r. intros [= <-]. apply keeps_refl. }
  case_match; [done|]. unfold s_malloc. rewrite snd_call_spec. cbv beta iota. case_match; [intros [= <-]; by apply keeps_quiet|].
  rewrite snd_call_spec. cbv beta iota. case_match; [intros [= <-]; by apply keeps_quiet|].
  unfold dma_read. set (bytes := fmap _ _). set (s1 := touch _ _ _).
  assert (Q : quiet s s1) by (eapply quiet_trans; [|apply quiet_touch]; done).
  assert (Lb : Z.of_nat (length bytes) = n) by (unfold bytes; rewrite length_fmap, length_seq; lia).
  clearbody bytes s1. destruct (buf_queue (s_props s1)) as [q|] eqn:Hq; intros [= <-].
  2: { eapply keeps_after; [exact Q|]. by apply keeps_quiet. }
  eapply keeps_after; [exact Q|]. assert (R1 : releasing (lock (s_props s1)) = false).
  { unfold s_props. unfold quiet, core in Q. injection Q as -> _ _. exact R. }
  unfold s_props in Hq, R1. split; [|done]. intros [I1 I2 I3 I4 I5 I6 I7 I8 I9]. rewrite Hq in I4, I5. cbn in I4.
  constructor; cbn; try done.
  - intros Hr. destruct (I3 Hr). congruence.
  - apply Forall_app. split; [done|]. repeat constructor; cbn; lia.
  - intros _. rewrite contents_snoc, I5, app_assoc by done. done.
Qed.

Lemma signal_writable_spec s : let d := dev (signal_writable s) in vsnd_props d = vsnd_props (dev s) /\ cb_at d = cb_at (dev s) /\
  forall m a l nodes, tx_at d <> T_enq true m a l nodes.
Proof. unfold signal_writable, on_sdev. cbn. destruct (tx_at (dev s)) as [| | | |[] | | |] eqn:Et; cbn; rewrite ?Et; done. Qed.
Lemma signal_readable_spec s : let d := dev (signal_readable s) in vsnd_props d = vsnd_props (dev s) /\ tx_at d = tx_at (dev s) /\
  (forall n id, cb_at d <> C_deq true n id) /\ forall a n id, cb_at d = C_deq a n id -> exists a', cb_at (dev s) = C_deq a' n id.
Proof.
  unfold signal_readable, on_sdev. cbn. destruct (cb_at (dev s)) as [|[] n id] eqn:Et; cbn; rewrite ?Et; split_and!; try done; naive_solver.
Qed.

(** What the callback takes. *)
Lemma dequeue_spec n id s out s' : snd_inv (dev s) -> __virtio_snd_frame_dequeue n id s = Some (out, s') -> id = 0 ->
  releasing (lock (s_props s)) = false -> is_Some (buf_queue (s_props s)) ->
  out = take (Z.to_nat n) (contents (buf_queue (s_props s))) /\
  contents (buf_queue (s_props s')) = drop (Z.to_nat n) (contents (buf_queue (s_props s))).
Proof.
  intros I. unfold __virtio_snd_frame_dequeue. intros H -> R [q Hq]. rewrite R, Hq in H. rewrite Hq. cbn [negb andb] in H.
  destruct I as [_ _ _ I4 _ _ _ _ _]. fold (s_props s) in I4. rewrite Hq in I4. cbn in I4.
  revert H. rewrite andb_true_r. change (negb (0 <? VSND_DEV_CNT_MAX)) with false. cbv iota beta.
  destruct (buf_ev_notify _ <? 1); [done|]. pose proof (take_frames_spec q n I4) as T. destruct (take_frames n q) as [o r]. destruct T as (-> & T2 & _).
  intros ?. simplify_eq. split; [done|]. unfold s_props. by rewrite (proj1 (signal_writable_spec _)).
Qed.

Lemma keeps_dequeue n s out s' a : cb_at (dev s) = C_deq a n 0 ->
  __virtio_snd_frame_dequeue n 0 s = Some (out, s') -> keeps s (on_sdev (fun d => d <| cb_at := C_idle |>) s').
Proof.
  intros Hc. unfold __virtio_snd_frame_dequeue. change (0 <? VSND_DEV_CNT_MAX) with true. cbn [negb].
  destruct (releasing (lock (s_props s))) eqn:R.
  { rewrite andb_false_r. intros [= <- <-]. split; [|done]. intros []. by constructor. }
  rewrite andb_true_r. destruct (Z.ltb_spec (buf_ev_notify (lock (s_props s))) 1) as [Hn|Hn]; [done|].
  destruct (buf_queue (s_props s)) as [q|] eqn:Hq.
  - destruct (take_frames n q) as [o r] eqn:T. intros [= <- <-].
    set (s2 := on_lock _ _). destruct (signal_writable_spec s2) as (P1 & P2 & P3).
    unfold s_props in Hq, R, Hn. split; [|intros _; unfold code_of, s_props; cbn; by rewrite P1].
    intros [I1 I2 I3 I4 I5 I6 I7 I8 I9]. rewrite Hq in I4, I5. cbn in I4.
    pose proof (take_frames_spec q n I4) as S. rewrite T in S. destruct S as (S1 & S2 & S3).
    constructor; cbn; rewrite ?P1; cbn; try done.
    + intros Hr. destruct (I3 Hr). congruence.
    + intros _. rewrite S2, (I5 R), S1, <- app_assoc, take_drop. done.
    + lia.
  - intros [= <- <-]. set (s2 := on_lock _ _). destruct (signal_writable_spec s2) as (P1 & P2 & P3).
    unfold s_props in Hq, R, Hn. split; [|intros _; unfold code_of, s_props; cbn; by rewrite P1].
    intros [I1 I2 I3 I4 I5 I6 I7 I8 I9].
    constructor; cbn; rewrite ?P1; cbn; try done. lia.
Qed.

Lemma keeps_cb s : keeps s (snd (cb_step s)).
Proof.
  unfold cb_step. destruct (cb_at (dev s)) as [|[] n id] eqn:Hc; [apply keeps_refl|apply keeps_refl|].
  assert (K : snd_inv (dev s) -> id = 0) by (intros []; by destruct (si_cb0 _ _ _ Hc)).
  destruct (__virtio_snd_frame_dequeue n id s) as [[out s']|] eqn:D.
  - split; intros I; pose proof (K I) as ->; by apply (keeps_dequeue n s out s' false Hc D).
  - split; [|done]. intros I. pose proof (K I) as ->. destruct I as [I1 I2 I3 I4 I5 I6 I7 I8 I9].
    constructor; cbn; try done. intros a n' id' [= <- <- <-]. split; [done|]. intros _. revert D.
    unfold __virtio_snd_frame_dequeue. change (0 <? VSND_DEV_CNT_MAX) with true. cbn [negb]. fold (s_props s) in *.
    destruct (releasing (lock (s_props s))); [by rewrite andb_false_r|]. rewrite andb_true_r.
    destruct (Z.ltb_spec (buf_ev_notify (lock (s_props s))) 1); [split; [lia|done]|].
    destruct (match buf_queue _ with Some _ => _ | None => _ end). done.
Qed.

Lemma keeps_call_cb frames s : cb_at (dev s) = C_idle -> keeps s (virtio_snd_stream_cb frames s).
Proof.
  intros Hc. split; [|done]. intros []. constructor; cbn; try done. intros a n id [= <- <- <-]. by split.
Qed.

(** Signalling a message. *)
Lemma keeps_signal s : keeps s (signal_readable (on_lock (fun l => l <| buf_ev_notify := buf_ev_notify l + 1 |>) s)).
Proof.
  set (s1 := on_lock _ s). destruct (signal_readable_spec s1) as (P1 & P2 & P3 & P4).
  split; [|intros _; unfold code_of, s_props; by rewrite P1].
  intros [I1 I2 I3 I4 I5 I6 I7 I8 I9]. constructor; rewrite ?P1, ?P2; cbn; try done; [lia|].
  intros a n id E0. destruct (P4 _ _ _ E0) as [a' E1]. destruct (I8 _ _ _ E1) as [-> _]. split; [done|].
  intros ->. by destruct (P3 n 0).
Qed.

Lemma keeps_goto_after pc s s1 : (forall m a l nodes, pc <> T_enq true m a l nodes) -> keeps s s1 -> keeps s (tx_goto pc s1).
Proof. intros H K. eapply keeps_trans; [exact K|by apply keeps_goto]. Qed.

Lemma keeps_tx_loop na nu s : keeps s (tx_loop na nu s).
Proof.
  unfold tx_loop. cbv zeta. case_match; [apply keeps_goto_after; [done|apply keeps_quiet, quiet_exit]|].
  case_match; [by apply keeps_goto_after; [|apply keeps_quiet, quiet_fault]|].
  match goal with |- context [avail_entry ?q ?k s] => pose proof (quiet_avail q k s) as K; destruct (avail_entry q k s) as [b s1] end.
  cbn [snd] in K. match goal with |- context [collect ?f ?q b s1] => pose proof (quiet_collect f q b s1) as K1; destruct (collect f q b s1) as [l s2] end.
  cbn [snd] in K1. assert (Q : quiet s s2) by by eapply quiet_trans. destruct l; apply keeps_goto_after; (done || by apply keeps_quiet).
Qed.

Lemma keeps_tx s : keeps s (tx_step s).
Proof.
  unfold tx_step. destruct (tx_at (dev s)) as [| |na nu|m nodes|[] m addr len nodes|m|m|]; try apply keeps_refl.
  - case_match; [apply keeps_refl|]. apply keeps_goto_after; [done|by apply keeps_quiet].
  - pose proof (quiet_entry VSND_QUEUE_TX s) as K. destruct (notify_entry VSND_QUEUE_TX s) as [[[na nu]|] s1];
      (apply keeps_goto_after; [done|by apply keeps_quiet]).
  - apply keeps_tx_loop.
  - destruct nodes as [|d nodes]; [apply keeps_goto; by case_match|].
    pose proof (quiet_node true (m_idx m) (m_cnt m) d (m_loc m) s) as K. destruct (tx_node _ _ _ _ _ s) as [[[] l] s1];
      (apply keeps_goto_after; [done|by apply keeps_quiet]).
  - destruct (__virtio_snd_frame_enqueue addr len s) as [s1|] eqn:H; [|by apply enqueue_sleeps].
    apply keeps_goto_after; [done|by eapply keeps_enqueue].
  - apply keeps_goto_after; [done|apply keeps_signal].
  - apply keeps_goto_after; [done|]. apply keeps_quiet. eapply quiet_trans; [apply quiet_append|apply quiet_regs].
Qed.

(** ** Executions *)

(** A step of one of the threads; the guest's memory and the host change freely in
    between. PortAudio calls the callback only when the last call has returned. *)
Inductive snd_step : M -> M -> Prop :=
  | st_read s a w : snd_step s (snd (virtio_snd_read a w s))
  | st_write s a w v : snd_step s (virtio_snd_write a w v s)
  | st_tx s : snd_step s (tx_step s)
  | st_call s frames : cb_at (dev s) = C_idle -> snd_step s (virtio_snd_stream_cb frames s)
  | st_cb s : snd_step s (snd (cb_step s))
  | st_ram s m : snd_step s (s <| ram := m |>)
  | st_host s f : snd_step s (on_sdev (fun d => d <| snd_host := f (snd_host d) |>) s).

Inductive snd_reach : M -> Prop :=
  | sr_init s e : dev s = snd_static e -> snd_reach (snd (virtio_snd_init s))
  | sr_step s s' : snd_reach s -> snd_step s s' -> snd_reach s'.

Lemma keeps_step s s' : snd_step s s' -> keeps s s'.
Proof.
  intros []; [apply keeps_read|apply keeps_write|apply keeps_tx|by apply keeps_call_cb|apply keeps_cb| |]; by apply keeps_quiet.
Qed.

Lemma init_inv s e : dev s = snd_static e -> snd_inv (dev (snd (virtio_snd_init s))).
Proof.
  intros He. assert (I0 : snd_inv (dev s)).
  { rewrite He. constructor; cbn; try done; [codes|]. intros H. codes. }
  unfold virtio_snd_init. case_match; [done|]. rewrite snd_call_spec. cbv beta iota. case_match; [by apply (core_inv (dev s))|].
  rewrite snd_call_spec. cbv beta iota. set (s1 := tx_goto T_wait _).
  assert (I1 : snd_inv (dev s1)) by (apply (keeps_goto T_wait); [done|by apply (core_inv (dev s))]).
  case_match; by apply (core_inv (dev s1)).
Qed.
Lemma reach_inv s : snd_reach s -> snd_inv (dev s).
Proof. induction 1 as [s e He|s s' _ IH H]; [by eapply init_inv|]. by apply (keeps_step s s' H). Qed.



(** No wake-up is lost to the callback, and none when the stream is released: if
    PortAudio's thread sleeps there is no message for it and the stream is not being
    released; if the TX thread sleeps the stream is not being released. The count of
    messages is never negative. *)
Theorem snd_no_lost_wakeup s : snd_reach s ->
  (forall n id, cb_at (dev s) = C_deq true n id -> buf_ev_notify (lock (s_props s)) = 0 /\ releasing (lock (s_props s)) = false) /\
  (forall m a l nodes, tx_at (dev s) = T_enq true m a l nodes -> releasing (lock (s_props s)) = false) /\
  0 <= buf_ev_notify (lock (s_props s)).
Proof.
  intros H. pose proof (reach_inv s H) as []. split_and!; [|done|done]. intros n id Hc. by apply (si_cb0 true n id Hc).
Qed.
End Stream.
