(* ===== verification/VirtioNet.v ===== *)
(** * The network device (virtio-net.c) and the selection of its back end (netdev.c)

    The Linux build: the back ends are [tap] and [user]. Packets go through
    [readv] and [writev] on host file descriptors, the parameter [NetHost]. A chain
    of descriptors may be cyclic and then the code never leaves it, so the handlers
    take a bound on the length of chains and return [None] beyond it. *)

From Stdlib Require Import String.
From stdpp Require Import base gmap list.
From Stdlib Require Import ZArith Lia Bool.
From S2P Require Import Prelude Isa Hart Machine Loops Device Virtio.
Open Scope Z_scope.

(* [virtio-net.c:23-31] *)
Definition VNET_DEV_CNT_MAX := 1.
Definition VNET_FEATURES_0 := 0.
Definition VNET_FEATURES_1 := 1.
Definition VNET_QUEUE_NUM_MAX := 1024.

(* [virtio-net.c:34-34] *)
Definition VNET_QUEUE_RX := 0.
Definition VNET_QUEUE_TX := 1.

(* [netdev.h:28-32] netdev_impl_t *)
Inductive netdev_impl_t := NETDEV_IMPL_tap | NETDEV_IMPL_user.

(** What [readv] returns: data, [EAGAIN], or another error; and [writev]. *)
Inductive read_result := Read_data (bytes : list Z) | Read_again | Read_error.
Inductive write_result := Write_count (n : Z) | Write_again | Write_error.

(** The host's network: reading at most so many bytes, writing, polling (RX
    readable, SLIRP readable, TX writable), a step of SLIRP, and opening. *)
Class NetHost (E : Type) := {
  net_readv : netdev_impl_t -> Z -> E -> read_result * E;
  net_writev : netdev_impl_t -> list Z -> E -> write_result * E;
  net_poll : netdev_impl_t -> E -> bool * bool * bool * E;
  net_slirp_read : E -> E;
  net_open : netdev_impl_t -> E -> bool * E }.

(** [readv] returns at most what fits. *)
Class NetLaws (E : Type) `{!NetHost E} := {
  readv_fits : forall ty n e bytes, 0 <= n -> fst (net_readv ty n e) = Read_data bytes -> Z.of_nat (length bytes) <= n;
  readv_bytes : forall ty n e bytes, fst (net_readv ty n e) = Read_data bytes -> Forall (fun b => 0 <= b < 256) bytes }.

(** The register file of the device: [fd_ready] of each queue beside the common
    registers, and the peer ([op] is a pointer, null or not). *)
(* [device.h:95-121] virtio_net_state_t *)
Record virtio_net_state_t := mk_vnet {
  vn_regs : virtio_state; fd_ready : list bool; peer_type : netdev_impl_t; peer_op : bool }.

(** The device state of a machine with this device: the configuration as the
    32-bit words of [vnet_configs], whether an access left it, an integer division
    by zero, the exit of the process. *)
(* [virtio-net.c:36-44] vnet_configs, vnet_dev_cnt *)
Record net_dev (E : Type) := mk_netdev {
  vnet : virtio_net_state_t; vnet_config : list Z; vnet_dev_cnt : Z;
  vnet_config_oob : bool; net_div_zero : bool; net_exit : bool; net_host : E }.
Arguments mk_netdev {E}. Arguments vnet {E}. Arguments vnet_config {E}. Arguments vnet_dev_cnt {E}.
Arguments vnet_config_oob {E}. Arguments net_div_zero {E}. Arguments net_exit {E}. Arguments net_host {E}.

#[export] Instance eta_vnet : Eta virtio_net_state_t := fun r =>
  mk_vnet (vn_regs r) (fd_ready r) (peer_type r) (peer_op r).
#[export] Instance eta_netdev {E} : Eta (net_dev E) := fun r =>
  mk_netdev (vnet r) (vnet_config r) (vnet_dev_cnt r) (vnet_config_oob r) (net_div_zero r) (net_exit r) (net_host r).
#[export] Instance set_vn_regs : Setter vn_regs := ltac:(solve_setter).
#[export] Instance set_fd_ready : Setter fd_ready := ltac:(solve_setter).
#[export] Instance set_peer_type : Setter peer_type := ltac:(solve_setter).
#[export] Instance set_peer_op : Setter peer_op := ltac:(solve_setter).
#[export] Instance set_vnet {E} : Setter (@vnet E) := ltac:(solve_setter).
#[export] Instance set_vnet_config {E} : Setter (@vnet_config E) := ltac:(solve_setter).
#[export] Instance set_vnet_dev_cnt {E} : Setter (@vnet_dev_cnt E) := ltac:(solve_setter).
#[export] Instance set_vnet_config_oob {E} : Setter (@vnet_config_oob E) := ltac:(solve_setter).
#[export] Instance set_net_div_zero {E} : Setter (@net_div_zero E) := ltac:(solve_setter).
#[export] Instance set_net_exit {E} : Setter (@net_exit E) := ltac:(solve_setter).
#[export] Instance set_net_host {E} : Setter (@net_host E) := ltac:(solve_setter).

(** [struct iovec]: an offset into guest RAM and a length. *)
Record iovec := mk_iov { iov_base : Z; iov_len : Z }.

(** ** Scatter and gather *)

Section Iovec.
Context {D : Type}.
Implicit Types s : machine D.

(* [virtio-net.c:76-95] vnet_iovec_write *)
Fixpoint vnet_iovec_write (vecs : list iovec) (src : list Z) s : bool * list iovec * machine D :=
  match src, vecs with
  | [], _ => (false, vecs, s)
  | _, [] => (true, [], s)
  | _, v :: vecs' =>
    let to_copy := Z.min (Z.of_nat (length src)) (iov_len v) in
    let s := dma_write (iov_base v) (take (Z.to_nat to_copy) src) s in
    let v' := mk_iov (iov_base v + to_copy) (iov_len v - to_copy) in
    if iov_len v' =? 0 then vnet_iovec_write vecs' (drop (Z.to_nat to_copy) src) s
    else (false, v' :: vecs', s)
  end.

(** The bytes read are not used by the caller; what matters is the cursor. *)
(* [virtio-net.c:97-117] vnet_iovec_read *)
Fixpoint vnet_iovec_read (vecs : list iovec) (n : Z) s : bool * list iovec * list Z * machine D :=
  match vecs with
  | [] => (nz n, [], [], s)
  | v :: vecs' =>
    if n =? 0 then (false, vecs, [], s)
    else if n <? iov_len v then
      let '(bytes, s) := dma_read (iov_base v) (Z.to_nat n) s in
      (false, mk_iov (iov_base v + n) (iov_len v - n) :: vecs', bytes, s)
    else
      let '(bytes, s) := dma_read (iov_base v) (Z.to_nat (iov_len v)) s in
      let '(fail, rest, more, s) := vnet_iovec_read vecs' (n - iov_len v) s in
      (fail, rest, bytes ++ more, s)
  end.

Definition iov_total (vecs : list iovec) : Z := foldr (fun v n => iov_len v + n) 0 vecs.

(** The kernel's side of [readv] and [writev]. *)
Fixpoint iov_scatter (vecs : list iovec) (bytes : list Z) s : machine D :=
  match vecs with
  | [] => s
  | v :: vecs => iov_scatter vecs (drop (Z.to_nat (iov_len v)) bytes)
                   (dma_write (iov_base v) (take (Z.to_nat (iov_len v)) bytes) s)
  end.
Fixpoint iov_gather (vecs : list iovec) s : list Z * machine D :=
  match vecs with
  | [] => ([], s)
  | v :: vecs =>
    let '(bytes, s) := dma_read (iov_base v) (Z.to_nat (iov_len v)) s in
    let '(more, s) := iov_gather vecs s in (bytes ++ more, s)
  end.
End Iovec.

(* [virtio-net.c:46-51] virtio_net_set_fail *)
Definition virtio_net_set_fail (d : virtio_state) : virtio_state :=
  let d := d <| Status := Z.lor (Status d) VIRTIO_STATUS__DEVICE_NEEDS_RESET |> in
  if nz (Z.land (Status d) VIRTIO_STATUS__DRIVER_OK)
  then d <| InterruptStatus := Z.lor (InterruptStatus d) VIRTIO_INT__CONF_CHANGE |> else d.

(* [virtio-net.c:53-59] vnet_preprocess *)
Definition vnet_preprocess (d : virtio_state) (addr : Z) : Z * virtio_state :=
  if (RAM_SIZE <=? addr) || nz (Z.land addr 3) then (0, virtio_net_set_fail d) else (Z.shiftr addr 2, d).

(** The peer survives a reset; readiness does not. *)
(* [virtio-net.c:61-74] virtio_net_update_status *)
Definition virtio_net_update_status (status : Z) (v : virtio_net_state_t) : virtio_net_state_t :=
  let v := v <| vn_regs := (vn_regs v) <| Status := Z.lor (Status (vn_regs v)) status |> |> in
  if nz status then v else v <| vn_regs := zero_virtio 2 |> <| fd_ready := [false; false] |>.

(** ** Queues *)

Section Net.
Context {E : Type} `{HostE : NetHost E}.
Abbreviation M := (machine (net_dev E)).
Implicit Types s : M.

Definition on_vnet (f : virtio_net_state_t -> virtio_net_state_t) s : M :=
  on_dev (fun d => d <| vnet := f (vnet d) |>) s.
Definition on_nregs (f : virtio_state -> virtio_state) s : M :=
  on_vnet (fun v => v <| vn_regs := f (vn_regs v) |>) s.
Definition nregs s : virtio_state := vn_regs (vnet (dev s)).
Definition nq s (i : Z) : virtq_t := queue_at (nregs s) i.
Definition set_ready (i : Z) (b : bool) s : M := on_vnet (fun v => v <| fd_ready := arr_set (fd_ready v) i b |>) s.
Definition with_host {A} (f : E -> A * E) s : A * M :=
  let '(a, e) := f (net_host (dev s)) in (a, on_dev (fun d => d <| net_host := e |>) s).

(* [virtio-net.c:119-191] handle_read *)
Definition handle_read (qi : Z) (vecs : list iovec) s : Z * M :=
  match with_host (net_readv (peer_type (vnet (dev s))) (iov_total vecs)) s with
  | (Read_data bytes, s) => (Z.of_nat (length bytes), iov_scatter vecs bytes s)
  | (Read_again, s) => (-1, set_ready qi false s)
  | (Read_error, s) => (0, s)
  end.

(* [virtio-net.c:193-246] handle_write *)
Definition handle_write (qi : Z) (vecs : list iovec) s : Z * M :=
  let ty := peer_type (vnet (dev s)) in
  let '(bytes, s) := iov_gather vecs s in
  match with_host (net_writev ty bytes) s, ty with
  | (Write_count n, s), _ => (n, s)
  | (Write_again, s), _ => (-1, set_ready qi false s)
  | (Write_error, s), NETDEV_IMPL_tap => (0, s)
  | (Write_error, s), NETDEV_IMPL_user => (-1, set_ready qi false s)
  end.

(** A walk over the chain that starts at [desc_idx]: the iovecs, [Some None] if
    the checks of the first pass fail, [None] if the chain is longer than [fuel]. *)
(* [virtio-net.c:248-281] VNET_ITERATE_BUFFER, VNET_BUFFER_TO_IOV *)
Fixpoint iterate_buffer (fuel : nat) (checked expect_write : bool) (q : virtq_t) (desc_idx : Z) s
  : option (option (list iovec) * M) :=
  match fuel with
  | O => None
  | S fuel =>
    if checked && (QueueNum q <=? desc_idx) then Some (None, s)
    else
      let '(desc, s) := read_desc (u32 (QueueDesc q + desc_idx * 4)) s in
      if checked && negb (Bool.eqb (nz (Z.land (d_flags desc) VIRTIO_DESC_F_WRITE)) expect_write)
      then Some (None, s)
      else if negb (nz (Z.land (d_flags desc) VIRTIO_DESC_F_NEXT))
      then Some (Some [mk_iov (d_addr desc) (d_len desc)], s)
      else
        match iterate_buffer fuel checked expect_write q (d_next desc) s with
        | Some (Some vecs, s) => Some (Some (mk_iov (d_addr desc) (d_len desc) :: vecs), s)
        | r => r
        end
  end.

(** The first pass validates and counts, the second collects. *)
Definition buffer_to_iov (fuel : nat) (expect_write : bool) (q : virtq_t) (buffer_idx : Z) s
  : option (option (list iovec) * M) :=
  match iterate_buffer fuel true expect_write q buffer_idx s with
  | Some (Some _, s) => iterate_buffer fuel false expect_write q buffer_idx s
  | r => r
  end.

(** The header of received packets: [num_buffers] is one. *)
Definition rx_header : list Z := replicate 10 0 ++ [1; 0].
Definition VNET_HEADER_SIZE := 12.

Definition vnet_transfer (READ : bool) (qi : Z) (vecs : list iovec) s : Z * M :=
  if READ then
    let '(_, vecs, s) := vnet_iovec_write vecs rx_header s in handle_read qi vecs s
  else
    let '(_, vecs, _, s) := vnet_iovec_read vecs VNET_HEADER_SIZE s in handle_write qi vecs s.

(** The processing loop: [Some (Some new_used, s)] when it is done or interrupted
    by the host, [Some (None, s)] when it stopped the device (or the emulator has
    divided by zero). *)
(* [virtio-net.c:304-333] VNET_GENERATE_QUEUE_HANDLER *)
Fixpoint vnet_process (rounds fuel : nat) (READ : bool) (qi new_avail new_used : Z) s
  : option (option Z * M) :=
  match rounds with
  | O => Some (Some new_used, s)
  | S rounds =>
    let q := nq s qi in
    if last_avail q =? new_avail then Some (Some new_used, s)
    else if QueueNum q =? 0 then Some (None, on_dev (fun d => d <| net_div_zero := true |>) s)
    else
      let queue_idx := u16 (last_avail q mod QueueNum q) in
      let '(buffer_idx, s) := avail_entry q queue_idx s in
      match buffer_to_iov fuel READ q buffer_idx s with
      | None => None
      | Some (None, s) => Some (None, on_nregs virtio_net_set_fail s)
      | Some (Some vecs, s) =>
        let '(plen, s) := vnet_transfer READ qi vecs s in
        if plen <? 0 then Some (Some new_used, s)
        else
          let s := on_nregs (upd_queue qi (fun q => q <| last_avail := u16 (last_avail q + 1) |>)) s in
          let s := used_append q new_used buffer_idx (if READ then u32 (plen + VNET_HEADER_SIZE) else 0) s in
          vnet_process rounds fuel READ qi new_avail (u16 (new_used + 1)) s
      end
  end.

(** The size check is on [int]: the operands are promoted, so the difference is
    negative when the index has wrapped around. *)
(* [virtio-net.c:283-343] VNET_GENERATE_QUEUE_HANDLER *)
Definition virtio_net_try (fuel : nat) (READ : bool) (qi : Z) s : option M :=
  let q := nq s qi in
  if nz (Z.land (Status (nregs s)) VIRTIO_STATUS__DEVICE_NEEDS_RESET)
     || negb (arr_get false (fd_ready (vnet (dev s))) qi) then Some s
  else if negb (nz (Z.land (Status (nregs s)) VIRTIO_STATUS__DRIVER_OK) && ready q)
  then Some (on_nregs virtio_net_set_fail s)
  else
    let '(w, s) := ram_get (QueueAvail q) s in
    let new_avail := u16 (Z.shiftr w 16) in
    if u16 (QueueNum q) <? new_avail - last_avail q then Some (on_nregs virtio_net_set_fail s)
    else if last_avail q =? new_avail then Some s
    else
      let '(w, s) := ram_get (QueueUsed q) s in
      let new_used := u16 (Z.shiftr w 16) in
      match vnet_process (Z.to_nat 65536) fuel READ qi new_avail new_used s with
      | None => None
      | Some (None, s) => Some s
      | Some (Some new_used, s) =>
        let s := used_publish q new_used s in
        let '(w, s) := ram_get (QueueAvail q) s in
        Some (if nz (Z.land w 1) then s
              else on_nregs (fun d => d <| InterruptStatus :=
                     Z.lor (InterruptStatus d) VIRTIO_INT__USED_RING |>) s)
      end.
Definition virtio_net_try_rx (fuel : nat) := virtio_net_try fuel true VNET_QUEUE_RX.
Definition virtio_net_try_tx (fuel : nat) := virtio_net_try fuel false VNET_QUEUE_TX.

(* [virtio-net.c:345-413] virtio_net_refresh_queue *)
Definition virtio_net_refresh_queue (fuel : nat) s : option M :=
  if negb (nz (Z.land (Status (nregs s)) VIRTIO_STATUS__DRIVER_OK))
     || nz (Z.land (Status (nregs s)) VIRTIO_STATUS__DEVICE_NEEDS_RESET) then Some s
  else if negb (peer_op (vnet (dev s))) then Some s
  else
    let ty := peer_type (vnet (dev s)) in
    let '(rx, slirp, tx, e) := net_poll ty (net_host (dev s)) in
    let s := on_dev (fun d => d <| net_host := e |>) s in
    s ← (if rx then virtio_net_try_rx fuel (set_ready VNET_QUEUE_RX true s) else Some s);
    let s := match ty with
             | NETDEV_IMPL_user =>
               if slirp then on_dev (fun d => d <| net_host := net_slirp_read (net_host d) |>) s else s
             | NETDEV_IMPL_tap => s
             end in
    if tx then virtio_net_try_tx fuel (set_ready VNET_QUEUE_TX true s) else Some s.

(* [virtio-net.c:415-421] virtio_net_recv_from_peer *)
Definition virtio_net_recv_from_peer (fuel : nat) s : option M :=
  virtio_net_try_rx fuel (set_ready VNET_QUEUE_RX true s).

(** ** Registers *)

(** [sizeof(struct virtio_net_config)], which the range check compares with a
    word index; the structure has three words. *)
Definition sizeof_net_config := 12.
Definition net_config_words := 3.

Definition touch_config (i : Z) s : M :=
  if (0 <=? i) && (i <? net_config_words) then s else on_dev (fun d => d <| vnet_config_oob := true |>) s.

(* [virtio-net.c:423-480] virtio_net_reg_read *)
Definition virtio_net_reg_read (addr : Z) s : option Z * M :=
  let d := nregs s in
  if addr =? VIRTIO_MagicValue then (Some 0x74726976, s)
  else if addr =? VIRTIO_Version then (Some 2, s)
  else if addr =? VIRTIO_DeviceID then (Some 1, s)
  else if addr =? VIRTIO_VendorID then (Some VIRTIO_VENDOR_ID, s)
  else if addr =? VIRTIO_DeviceFeatures then
    (Some (if DeviceFeaturesSel d =? 0 then VNET_FEATURES_0
           else if DeviceFeaturesSel d =? 1 then VNET_FEATURES_1 else 0), s)
  else if addr =? VIRTIO_QueueNumMax then (Some VNET_QUEUE_NUM_MAX, s)
  else if addr =? VIRTIO_QueueReady then (Some (b2z (ready (queue_at d (QueueSel d)))), s)
  else if addr =? VIRTIO_InterruptStatus then (Some (InterruptStatus d), s)
  else if addr =? VIRTIO_Status then (Some (Status d), s)
  else if addr =? VIRTIO_ConfigGeneration then (Some 0, s)
  else if negb (RANGE_CHECK addr VIRTIO_Config sizeof_net_config) then (None, s)
  else
    let i := addr - VIRTIO_Config in
    (Some (arr_get 0 (vnet_config (dev s)) i), touch_config i s).

(** [VNET_QUEUE.field = vnet_preprocess(vnet, value)] *)
Definition set_net_addr (f : Z -> virtq_t -> virtq_t) (value : Z) (d : virtio_state) : virtio_state :=
  let '(a, d) := vnet_preprocess d value in upd_queue (QueueSel d) (f a) d.

(* [virtio-net.c:482-575] virtio_net_reg_write *)
Definition virtio_net_reg_write (fuel : nat) (addr value : Z) s : option (bool * M) :=
  let d := nregs s in
  let regs f := Some (true, on_nregs f s) in
  let nop := Some (true, s) in
  let fail := Some (true, on_nregs virtio_net_set_fail s) in
  if addr =? VIRTIO_DeviceFeaturesSel then regs (fun d => d <| DeviceFeaturesSel := value |>)
  else if addr =? VIRTIO_DriverFeatures then
    if DriverFeaturesSel d =? 0 then regs (fun d => d <| DriverFeatures := value |>) else nop
  else if addr =? VIRTIO_DriverFeaturesSel then regs (fun d => d <| DriverFeaturesSel := value |>)
  else if addr =? VIRTIO_QueueSel then
    if value <? Z.of_nat (length (queues d)) then regs (fun d => d <| QueueSel := value |>) else fail
  else if addr =? VIRTIO_QueueNum then
    if (0 <? value) && (value <=? VNET_QUEUE_NUM_MAX)
    then regs (upd_queue (QueueSel d) (fun q => q <| QueueNum := value |>)) else fail
  else if addr =? VIRTIO_QueueReady then
    let avail := QueueAvail (queue_at d (QueueSel d)) in
    let s := on_nregs (upd_queue (QueueSel d) (fun q => q <| ready := nz (Z.land value 1) |>)) s in
    let s := if nz (Z.land value 1) then
               let '(w, s) := ram_get avail s in
               on_nregs (upd_queue (QueueSel d) (fun q => q <| last_avail := u16 (Z.shiftr w 16) |>)) s
             else s in
    Some (true, if QueueSel d =? VNET_QUEUE_RX
                then let '(w, s) := ram_get avail s in ram_put avail (Z.lor w 1) s else s)
  else if addr =? VIRTIO_QueueDescLow then regs (set_net_addr (fun a q => q <| QueueDesc := a |>) value)
  else if addr =? VIRTIO_QueueDescHigh then if nz value then fail else nop
  else if addr =? VIRTIO_QueueDriverLow then regs (set_net_addr (fun a q => q <| QueueAvail := a |>) value)
  else if addr =? VIRTIO_QueueDriverHigh then if nz value then fail else nop
  else if addr =? VIRTIO_QueueDeviceLow then regs (set_net_addr (fun a q => q <| QueueUsed := a |>) value)
  else if addr =? VIRTIO_QueueDeviceHigh then if nz value then fail else nop
  else if addr =? VIRTIO_QueueNotify then
    if value <? Z.of_nat (length (queues d)) then
      s ← (if value =? VNET_QUEUE_RX then virtio_net_try_rx fuel s
           else if value =? VNET_QUEUE_TX then virtio_net_try_tx fuel s else Some s);
      Some (true, s)
    else fail
  else if addr =? VIRTIO_InterruptACK then
    regs (fun d => d <| InterruptStatus := Z.land (InterruptStatus d) (not32 value) |>)
  else if addr =? VIRTIO_Status then Some (true, on_vnet (virtio_net_update_status value) s)
  else if negb (RANGE_CHECK addr VIRTIO_Config sizeof_net_config) then Some (false, s)
  else
    let i := addr - VIRTIO_Config in
    Some (true, touch_config i (on_dev (fun d => d <| vnet_config := arr_set (vnet_config d) i value |>) s)).

(* [virtio-net.c:577-598] virtio_net_read *)
Definition virtio_net_read (addr width : Z) s : option Z * M :=
  if width =? RV_MEM_LW then
    match virtio_net_reg_read (Z.shiftr addr 2) s with
    | (Some x, s) => (Some x, s)
    | (None, s) => (None, raise RV_EXC_LOAD_FAULT (exc_val (hart s)) s)
    end
  else if (width =? RV_MEM_LBU) || (width =? RV_MEM_LB) || (width =? RV_MEM_LHU) || (width =? RV_MEM_LH)
  then (None, raise RV_EXC_LOAD_MISALIGN (exc_val (hart s)) s)
  else (None, raise RV_EXC_ILLEGAL_INSN 0 s).

(* [virtio-net.c:600-619] virtio_net_write *)
Definition virtio_net_write (fuel : nat) (addr width value : Z) s : option M :=
  if width =? RV_MEM_SW then
    '(ok, s) ← virtio_net_reg_write fuel (Z.shiftr addr 2) value s;
    Some (if ok : bool then s else raise RV_EXC_STORE_FAULT (exc_val (hart s)) s)
  else if (width =? RV_MEM_SB) || (width =? RV_MEM_SH)
  then Some (raise RV_EXC_STORE_MISALIGN (exc_val (hart s)) s)
  else Some (raise RV_EXC_ILLEGAL_INSN 0 s).

(** ** Initialisation *)

(** The table of back ends, by index. *)
(* [netdev.c:27-37] find_net_dev_idx *)
Definition find_net_dev_idx (net_type : option string) : option netdev_impl_t :=
  match net_type with
  | None => None
  | Some n => if String.eqb n "tap" then Some NETDEV_IMPL_tap
              else if String.eqb n "user" then Some NETDEV_IMPL_user else None
  end.

(** The result of the back end's own initialisation is not looked at. *)
(* [netdev.c:130-158] netdev_init *)
Definition netdev_init (net_type : option string) (malloc_ok : bool) s : bool * M :=
  match find_net_dev_idx net_type with
  | None => (false, s)
  | Some ty =>
    let s := on_vnet (fun v => v <| peer_type := ty |> <| peer_op := malloc_ok |>) s in
    if malloc_ok then let '(_, s) := with_host (net_open ty) s in (true, s) else (false, s)
  end.

(* [virtio-net.c:621-643] virtio_net_init *)
Definition virtio_net_init (name : option string) (malloc_ok : bool) s : bool * M :=
  if VNET_DEV_CNT_MAX <=? vnet_dev_cnt (dev s) then (false, on_dev (fun d => d <| net_exit := true |>) s)
  else
    let s := on_dev (fun d => d <| vnet_dev_cnt := vnet_dev_cnt d + 1 |>) s in
    netdev_init name malloc_ok s.
End Net.
