(* ===== verification/NetProps.v ===== *)
(** * Properties of the network device

    Packets cross descriptor chains as byte streams, however the driver splits
    them; and three ways in which a guest can make the device misbehave. *)

From Stdlib Require Import String.
From stdpp Require Import base gmap list.
From Stdlib Require Import ZArith Lia Bool.
From S2P Require Import Prelude Isa Hart Machine Tlb Loops Device Virtio VirtioProps DmaProps.
From S2P Require Import Emulator VirtioNet.
Open Scope Z_scope.

(** ** Chains as byte streams *)

(** The address of every byte of a chain, in order. *)
Definition iov_addrs (vecs : list iovec) : list Z := vecs ≫= (fun v => seqZ (iov_base v) (iov_len v)).
Definition iov_ok (vecs : list iovec) : Prop := Forall (fun v => 0 <= iov_len v) vecs.

Lemma drop_seqZ k m n : Z.of_nat k <= n -> drop k (seqZ m n) = seqZ (m + Z.of_nat k) (n - Z.of_nat k).
Proof.
  intros Hk. replace n with (Z.of_nat k + (n - Z.of_nat k)) at 1 by lia. rewrite seqZ_app by lia.
  apply drop_app_length'. rewrite length_seqZ. lia.
Qed.

Section Stream.
Context {D : Type}.
Implicit Types s : machine D.

(** Store the bytes of a stream one by one at the given addresses. *)
Fixpoint write_stream (addrs bytes : list Z) s : machine D :=
  match addrs, bytes with
  | a :: addrs, b :: bytes => write_stream addrs bytes (wr8 a b s)
  | _, _ => s
  end.

Lemma write_stream_nil addrs s : write_stream addrs [] s = s.
Proof. by destruct addrs. Qed.

Lemma write_stream_app addrs bs cs : forall s, (length bs <= length addrs)%nat ->
  write_stream addrs (bs ++ cs) s = write_stream (drop (length bs) addrs) cs (write_stream addrs bs s).
Proof.
  revert addrs. induction bs as [|b bs IH]; intros addrs s Hl; [by rewrite write_stream_nil|].
  destruct addrs as [|a addrs]; [cbn in Hl; lia|]. cbn. apply IH. cbn in Hl. lia.
Qed.

(** Only as many addresses as there are bytes matter. *)
Lemma write_stream_prefix xs ys bs : forall s, (length bs <= length xs)%nat ->
  write_stream (xs ++ ys) bs s = write_stream xs bs s.
Proof.
  revert xs. induction bs as [|b bs IH]; intros xs s Hl; [by rewrite !write_stream_nil|].
  destruct xs as [|x xs]; [cbn in Hl; lia|]. cbn. apply IH. cbn in Hl. lia.
Qed.

Lemma write_stream_split xs ys bs s : 
  write_stream (xs ++ ys) bs s
  = write_stream ys (drop (length xs) bs) (write_stream xs (take (length xs) bs) s).
Proof.
  revert bs s. induction xs as [|x xs IH]; intros bs s; [cbn; by rewrite drop_0|].
  destruct bs as [|b bs]; cbn; [by rewrite write_stream_nil|]. apply IH.
Qed.

Lemma dma_write_stream bytes : forall o n s, Z.of_nat (length bytes) <= n ->
  dma_write o bytes s = write_stream (seqZ o n) bytes s.
Proof.
  induction bytes as [|b bytes IH]; intros o n s Hn; [by rewrite write_stream_nil|].
  cbn [length] in Hn. rewrite seqZ_cons by lia. cbn [dma_write write_stream]. rewrite (IH _ (Z.pred n)) by lia.
  by replace (Z.succ o) with (o + 1) by lia.
Qed.

Lemma iov_addrs_cons v vecs : iov_addrs (v :: vecs) = seqZ (iov_base v) (iov_len v) ++ iov_addrs vecs.
Proof. done. Qed.

Lemma length_iov_addrs vecs : iov_ok vecs -> Z.of_nat (length (iov_addrs vecs)) = iov_total vecs.
Proof.
  induction 1 as [|v vecs Hv _ IH]; [done|]. rewrite iov_addrs_cons, length_app, length_seqZ. cbn [iov_total foldr].
  fold (iov_total vecs). lia.
Qed.

(** The kernel's scatter is the stream. *)
Lemma iov_scatter_stream vecs : forall bytes s, iov_ok vecs ->
  iov_scatter vecs bytes s = write_stream (iov_addrs vecs) bytes s.
Proof.
  induction vecs as [|v vecs IH]; intros bytes s Hok; [done|]. apply Forall_cons in Hok as [Hv Hok].
  cbn [iov_scatter]. rewrite IH by done. rewrite iov_addrs_cons, write_stream_split, length_seqZ.
  f_equal. apply dma_write_stream. rewrite length_take. lia.
Qed.

(** [vnet_iovec_write] writes the stream and moves the cursor past it. *)
Lemma iovec_write_stream vecs : forall src s, iov_ok vecs -> Z.of_nat (length src) <= iov_total vecs ->
  let '(fail, rest, s') := vnet_iovec_write vecs src s in
  fail = false /\ s' = write_stream (iov_addrs vecs) src s /\ iov_ok rest /\
  iov_addrs rest = drop (length src) (iov_addrs vecs).
Proof.
  induction vecs as [|v vecs IH]; intros src s Hok Hl.
  { destruct src; [done|cbn in Hl; lia]. }
  pose proof Hok as Hok'. apply Forall_cons in Hok' as [Hv Hok'].
  destruct src as [|b src]; cbn [vnet_iovec_write].
  { split_and!; [done|by rewrite write_stream_nil|done|by rewrite drop_0]. } set (bs := b :: src) in *.
  set (n := Z.min (Z.of_nat (length bs)) (iov_len v)). cbn [iov_len]. cbn [iov_total foldr] in Hl. fold (iov_total vecs) in Hl.
  rewrite (dma_write_stream _ _ (iov_len v)) by (rewrite length_take; lia).
  destruct (Z.eqb_spec (iov_len v - n) 0) as [E|Ne].
  - assert (En : n = iov_len v) by lia. assert (iov_len v <= Z.of_nat (length bs)) by lia. rewrite En.
    specialize (IH (drop (Z.to_nat (iov_len v)) bs)
      (write_stream (seqZ (iov_base v) (iov_len v)) (take (Z.to_nat (iov_len v)) bs) s) Hok').
    destruct (vnet_iovec_write vecs _ _) as [[fail rest] s']. destruct IH as (-> & -> & R & A).
    { rewrite length_drop. lia. }
    split_and!; try done.
    + rewrite iov_addrs_cons, write_stream_split, length_seqZ. done.
    + rewrite A, iov_addrs_cons, length_drop, drop_app_ge, length_seqZ; [done|]. rewrite length_seqZ. lia.
  - assert (En : n = Z.of_nat (length bs)) by lia. assert (Z.of_nat (length bs) < iov_len v) by lia.
    rewrite En. rewrite Nat2Z.id, take_ge by lia. split_and!; [done| | |].
    + rewrite iov_addrs_cons. symmetry. apply write_stream_prefix. rewrite length_seqZ. lia.
    + apply Forall_cons. split; [cbn [iov_len]; lia|done].
    + rewrite !iov_addrs_cons. cbn [iov_base iov_len]. rewrite drop_app_le by (rewrite length_seqZ; lia). f_equal.
      symmetry. apply drop_seqZ. lia.
Qed.

(** Gathering reads the stream; so does the header read, which leaves the rest. *)
Lemma dma_read_stream o n s : 0 <= n ->
  fst (dma_read o (Z.to_nat n) s) = rd8 s <$> seqZ o n.
Proof.
  intros Hn. unfold dma_read, seqZ. cbn [fst]. rewrite <- list_fmap_compose. apply list_fmap_ext.
  intros i k _. cbn. f_equal. lia.
Qed.

Lemma rd8_touch o l s a : rd8 (touch o l s) a = rd8 s a.
Proof. unfold rd8, rd32, touch. by case_match. Qed.

Lemma rd8_stream_ext s s' (addrs : list Z) : (forall a, rd8 s' a = rd8 s a) -> rd8 s' <$> addrs = rd8 s <$> addrs.
Proof. intros H. apply list_fmap_ext. intros. apply H. Qed.

Lemma iov_gather_stream vecs : forall s, iov_ok vecs ->
  fst (iov_gather vecs s) = rd8 s <$> iov_addrs vecs /\ (forall a, rd8 (snd (iov_gather vecs s)) a = rd8 s a) /\
  dev (snd (iov_gather vecs s)) = dev s.
Proof.
  induction vecs as [|v vecs IH]; intros s Hok; [done|]. apply Forall_cons in Hok as [Hv Hok].
  cbn [iov_gather]. pose proof (dma_read_stream (iov_base v) (iov_len v) s Hv) as R.
  destruct (dma_read (iov_base v) (Z.to_nat (iov_len v)) s) as [bytes s1] eqn:Ed. cbn [fst] in R.
  assert (T : forall a, rd8 s1 a = rd8 s a).
  { intros a. unfold dma_read in Ed. injection Ed as _ <-. apply rd8_touch. }
  assert (Dv : dev s1 = dev s) by (unfold dma_read in Ed; injection Ed as _ <-; apply dev_touch).
  destruct (IH s1 Hok) as (I1 & I2 & I3). destruct (iov_gather vecs s1) as [more s2]. cbn [fst snd] in *. split_and!.
  - rewrite iov_addrs_cons, fmap_app, R, I1. f_equal. by apply rd8_stream_ext.
  - intros a. by rewrite I2.
  - by rewrite I3.
Qed.

Lemma iovec_read_stream vecs : forall n s, iov_ok vecs -> 0 <= n <= iov_total vecs ->
  let '(fail, rest, bytes, s') := vnet_iovec_read vecs n s in
  fail = false /\ iov_ok rest /\ iov_addrs rest = drop (Z.to_nat n) (iov_addrs vecs) /\
  (forall a, rd8 s' a = rd8 s a) /\ dev s' = dev s.
Proof.
  induction vecs as [|v vecs IH]; intros n s Hok Hn.
  { cbn in *. assert (n = 0) as -> by lia. done. }
  pose proof Hok as Hok'. apply Forall_cons in Hok' as [Hv Hok'].
  cbn [vnet_iovec_read]. cbn [iov_total foldr] in Hn. fold (iov_total vecs) in Hn.
  destruct (Z.eqb_spec n 0) as [->|Hn0]; [by rewrite drop_0|].
  destruct (Z.ltb_spec n (iov_len v)).
  - unfold dma_read. split_and!; [done| | |intros; apply rd8_touch|apply dev_touch].
    + apply Forall_cons. split; [cbn [iov_len]; lia|done].
    + rewrite !iov_addrs_cons. cbn [iov_base iov_len]. rewrite drop_app_le by (rewrite length_seqZ; lia). f_equal.
      rewrite drop_seqZ by lia. by rewrite Z2Nat.id by lia.
  - unfold dma_read. set (s1 := touch _ _ s). specialize (IH (n - iov_len v) s1 Hok').
    destruct (vnet_iovec_read vecs (n - iov_len v) s1) as [[[fail rest] more] s2].
    destruct IH as (-> & R & A & T & Dv); [lia|]. split_and!; try done.
    + rewrite A, iov_addrs_cons, drop_app_ge by (rewrite length_seqZ; lia). f_equal. rewrite length_seqZ. lia.
    + intros a. rewrite T. apply rd8_touch.
    + rewrite Dv. apply dev_touch.
Qed.
End Stream.

(** ** What the device transfers *)

Section Transfer.
Context {E : Type} `{HostE : NetHost E} `{LawsE : !NetLaws E}.
Abbreviation M := (machine (net_dev E)).
Implicit Types s : M.

(** Streams do not depend on the device state. *)
Lemma write_stream_on_dev f addrs : forall bytes s,
  write_stream addrs bytes (on_dev f s) = on_dev f (write_stream addrs bytes s).
Proof.
  induction addrs as [|a addrs IH]; intros [|b bytes] s; try done. cbn [write_stream]. rewrite <- IH. f_equal.
  unfold wr8, touch. by case_match.
Qed.

Lemma dev_write_stream addrs : forall bytes s, dev (write_stream addrs bytes s) = dev s.
Proof.
  induction addrs as [|a addrs IH]; intros [|b bytes] s; try done. cbn [write_stream]. rewrite IH.
  unfold wr8. apply dev_touch.
Qed.

(** A received packet: the host's bytes follow the header in the stream. *)
Lemma rx_transfer qi vecs s bytes : iov_ok vecs -> VNET_HEADER_SIZE <= iov_total vecs ->
  fst (net_readv (peer_type (vnet (dev s))) (iov_total vecs - VNET_HEADER_SIZE) (net_host (dev s))) = Read_data bytes ->
  let '(plen, s') := vnet_transfer true qi vecs s in
  plen = Z.of_nat (length bytes) /\
  ram s' = ram (write_stream (iov_addrs vecs) (rx_header ++ bytes) s).
Proof using LawsE.
  intros Hok Hl Hr. unfold vnet_transfer.
  assert (L12 : Z.of_nat (length rx_header) = VNET_HEADER_SIZE) by reflexivity.
  pose proof (iovec_write_stream vecs rx_header s Hok ltac:(lia)) as H.
  destruct (vnet_iovec_write vecs rx_header s) as [[fail rest] s1]. destruct H as (-> & -> & Rok & A).
  assert (T : iov_total rest = iov_total vecs - VNET_HEADER_SIZE).
  { rewrite <- !length_iov_addrs by done. rewrite A, length_drop. rewrite <- (length_iov_addrs vecs Hok) in Hl. lia. }
  unfold handle_read, with_host. rewrite dev_write_stream, T.
  pose proof (readv_fits _ (iov_total vecs - VNET_HEADER_SIZE) _ _ ltac:(lia) Hr) as Hf. destruct (net_readv _ _ _) as [r e]. cbn [fst] in Hr. subst r.
  split; [done|]. rewrite iov_scatter_stream by done. rewrite A.
  rewrite write_stream_on_dev.
  rewrite write_stream_app; [done|]. pose proof (length_iov_addrs vecs Hok). lia.
Qed.

(** A sent packet: the host gets the stream after the header. *)
Lemma tx_transfer qi vecs s n : iov_ok vecs -> VNET_HEADER_SIZE <= iov_total vecs ->
  let packet := drop (Z.to_nat VNET_HEADER_SIZE) (rd8 s <$> iov_addrs vecs) in
  fst (net_writev (peer_type (vnet (dev s))) packet (net_host (dev s))) = Write_count n ->
  let '(plen, s') := vnet_transfer false qi vecs s in
  plen = n /\ (forall a, rd8 s' a = rd8 s a).
Proof.
  intros Hok Hl. cbv zeta. intros Hw. unfold vnet_transfer.
  pose proof (iovec_read_stream vecs VNET_HEADER_SIZE s Hok ltac:(unfold VNET_HEADER_SIZE in *; lia)) as H.
  destruct (vnet_iovec_read vecs VNET_HEADER_SIZE s) as [[[fail rest] hdr] s1]. destruct H as (-> & Rok & A & T & Dv).
  unfold handle_write. cbv zeta. destruct (iov_gather_stream rest s1 Rok) as (G1 & G2 & G3).
  destruct (iov_gather rest s1) as [bytes s2]. cbn [fst snd] in *.
  assert (Eb : bytes = drop (Z.to_nat VNET_HEADER_SIZE) (rd8 s <$> iov_addrs vecs)).
  { rewrite G1, A, fmap_drop. f_equal. by apply rd8_stream_ext. }
  unfold with_host. rewrite G3, Dv, Eb. destruct (net_writev _ _ _) as [r e]. cbn [fst] in Hw. subst r.
  split; [done|]. intros a. change (rd8 (on_dev ?f s2) a) with (rd8 s2 a). by rewrite G2.
Qed.

(** C19: Packets cross the rings as byte streams. However the driver splits a
    buffer into descriptors, a received packet is stored with its 12-byte header
    (one buffer) first and the host's bytes directly after it, along the addresses
    of the chain in order and nowhere else; and a sent packet is given to the host
    as exactly the bytes of the chain after its first 12. *)
Theorem packets_cross_as_streams qi vecs s : iov_ok vecs -> VNET_HEADER_SIZE <= iov_total vecs ->
  (forall bytes, fst (net_readv (peer_type (vnet (dev s))) (iov_total vecs - VNET_HEADER_SIZE) (net_host (dev s)))
                 = Read_data bytes ->
     fst (vnet_transfer true qi vecs s) = Z.of_nat (length bytes) /\
     ram (snd (vnet_transfer true qi vecs s)) = ram (write_stream (iov_addrs vecs) (rx_header ++ bytes) s)) /\
  (forall n, fst (net_writev (peer_type (vnet (dev s))) (drop (Z.to_nat VNET_HEADER_SIZE) (rd8 s <$> iov_addrs vecs))
                    (net_host (dev s))) = Write_count n ->
     fst (vnet_transfer false qi vecs s) = n /\ (forall a, rd8 (snd (vnet_transfer false qi vecs s)) a = rd8 s a)).
Proof using LawsE.
  intros Hok Hl. split.
  - intros bytes Hr. pose proof (rx_transfer qi vecs s bytes Hok Hl Hr) as H.
    destruct (vnet_transfer true qi vecs s) as [plen s']. done.
  - intros n Hw. pose proof (tx_transfer qi vecs s n Hok Hl Hw) as H.
    destruct (vnet_transfer false qi vecs s) as [plen s']. done.
Qed.

(** ** A guest can hang the device *)

(** Descriptor [i] of [q] names itself as its successor. *)
Definition self_loop (READ : bool) (q : virtq_t) (i : Z) s : Prop :=
  let d := u32 (QueueDesc q + i * 4) in
  in_ram (4 * d) 16 = true /\ i < QueueNum q /\
  let desc := fst (read_desc d s) in
  nz (Z.land (d_flags desc) VIRTIO_DESC_F_NEXT) = true /\
  nz (Z.land (d_flags desc) VIRTIO_DESC_F_WRITE) = READ /\ d_next desc = i.

Lemma self_loop_endless READ q i s : self_loop READ q i s ->
  forall fuel, iterate_buffer fuel true READ q i s = None.
Proof.
  intros (Hr & Hi & Hn & Hw & Hx). unfold read_desc in *. cbn [fst d_flags d_next] in *.
  induction fuel as [|fuel IH]; [done|]. cbn [iterate_buffer]. destruct (Z.leb_spec (QueueNum q) i); [lia|].
  cbn [andb]. unfold read_desc. cbn [d_flags d_next]. rewrite Hn, Hw, Hx.
  rewrite Bool.eqb_reflx. cbn [negb]. unfold touch. rewrite Hr, IH. done.
Qed.

(** The next available buffer of the queue, read without leaving RAM. *)
Definition next_entry q s : Z := fst (avail_entry q (u16 (last_avail q mod QueueNum q)) s).
Definition next_entry_in_ram q : Prop :=
  in_ram (4 * u32 (QueueAvail q + 1 + u16 (last_avail q mod QueueNum q) / 2)) 4 = true.

(** A descriptor that names itself as its successor hangs the emulator. If
    such a descriptor heads the next available buffer of a ready queue, the walk
    over the chain has no bound: for no number of steps does the handler return. *)
Theorem net_cyclic_chain_hangs fuel READ qi s :
  let q := nq s qi in
  let new := u16 (Z.shiftr (rd32 s (4 * QueueAvail q)) 16) in
  nz (Z.land (Status (nregs s)) VIRTIO_STATUS__DEVICE_NEEDS_RESET) = false ->
  nz (Z.land (Status (nregs s)) VIRTIO_STATUS__DRIVER_OK) = true -> ready q = true ->
  arr_get false (fd_ready (vnet (dev s))) qi = true ->
  in_ram (4 * QueueAvail q) 4 = true -> in_ram (4 * QueueUsed q) 4 = true -> next_entry_in_ram q ->
  0 < QueueNum q -> last_avail q <> new -> new - last_avail q <= u16 (QueueNum q) ->
  self_loop READ q (next_entry q s) s ->
  virtio_net_try fuel READ qi s = None.
Proof.
  cbv zeta. set (q := nq s qi). intros H1 H2 H3 H4 H5 H6 H7 H8 H9 H10 Hl. unfold virtio_net_try. fold q.
  rewrite H1, H2, H3, H4. cbn [negb orb andb]. unfold ram_get. rewrite (dma_touch_in_ram _ _ s H5).
  destruct (Z.ltb_spec (u16 (QueueNum q)) (u16 (Z.shiftr (rd32 s (4 * QueueAvail q)) 16) - last_avail q)); [lia|].
  destruct (Z.eqb_spec (last_avail q) (u16 (Z.shiftr (rd32 s (4 * QueueAvail q)) 16))); [done|].
  rewrite (dma_touch_in_ram _ _ s H6). change (Z.to_nat 65536) with (S (Z.to_nat 65535)). cbn [vnet_process]. fold q.
  destruct (Z.eqb_spec (last_avail q) (u16 (Z.shiftr (rd32 s (4 * QueueAvail q)) 16))); [done|].
  destruct (Z.eqb_spec (QueueNum q) 0); [lia|]. unfold next_entry in Hl.
  assert (Ea : avail_entry q (u16 (last_avail q mod QueueNum q)) s
               = (fst (avail_entry q (u16 (last_avail q mod QueueNum q)) s), s)).
  { unfold avail_entry, ram_get, touch. unfold next_entry_in_ram in H7. by rewrite H7. }
  rewrite Ea. unfold buffer_to_iov. by rewrite (self_loop_endless READ q _ s Hl fuel).
Qed.
End Transfer.
