(* ===== verification/Vmnet.v ===== *)
(** * The vmnet back end (netdev-vmnet.c) and the macOS selection (netdev.c)

    Packets that arrive on the interface are handed over by a block on a dispatch
    queue, which writes each of them to a pipe behind its length; the emulator's
    thread reads them there. The operating system and the vmnet framework are the
    class [VmnetHost]; [0] is [NULL]. [reader_step] and [writer_step] are the two
    threads with the pipe between them: what is in the pipe is read as far as it goes,
    and the four bytes of a length are written at once (POSIX: writes of at most
    PIPE_BUF bytes are atomic). Shown: under every interleaving of the dispatch queue
    and the emulator's thread the reader gets the packets the framework delivered,
    whole and in order. *)

From Stdlib Require Import String.
From stdpp Require Import base gmap list relations.
From Stdlib Require Import ZArith Lia Bool.
From S2P Require Import Prelude Isa Hart Machine Virtio DmaProps VirtioNet.
Open Scope Z_scope.

(* [netdev-vmnet.c:28-28] *)
Definition VMNET_BUF_SIZE := 2048.

(* [netdev.h:42-50] net_vmnet_state_t *)
Record net_vmnet_state_t := mk_vmnet {
  vm_iface : Z; vm_queue : Z; vm_sem : Z; pipe_fds : Z * Z; vm_mac : list Z; vm_lock : bool; vm_running : bool }.

#[export] Instance eta_vmnet : Eta net_vmnet_state_t := fun r =>
  mk_vmnet (vm_iface r) (vm_queue r) (vm_sem r) (pipe_fds r) (vm_mac r) (vm_lock r) (vm_running r).
#[export] Instance set_vm_iface : Setter vm_iface := ltac:(solve_setter).
#[export] Instance set_vm_queue : Setter vm_queue := ltac:(solve_setter).
#[export] Instance set_vm_sem : Setter vm_sem := ltac:(solve_setter).
#[export] Instance set_pipe_fds : Setter pipe_fds := ltac:(solve_setter).
#[export] Instance set_vm_mac : Setter vm_mac := ltac:(solve_setter).
#[export] Instance set_vm_lock : Setter vm_lock := ltac:(solve_setter).
#[export] Instance set_vm_running : Setter vm_running := ltac:(solve_setter).

(** [calloc(1, sizeof(net_vmnet_options_t))] *)
Definition zero_vmnet : net_vmnet_state_t := mk_vmnet 0 0 0 (0, 0) (replicate 6 0) false false.

(* [netdev.h:54-59] semu_vmnet_mode_t *)
Inductive semu_vmnet_mode_t := SEMU_VMNET_SHARED | SEMU_VMNET_HOST | SEMU_VMNET_BRIDGED.

(** What [vmnet_start_interface] does: the interface it returns, whether the status
    its completion block gets is [VMNET_SUCCESS], the MAC address in the block's
    dictionary, and whether the block ran before the call returned. *)
Record start_result := mk_start { sr_iface : Z; sr_success : bool; sr_mac : option (list Z); sr_early : bool }.

Class VmnetHost (W : Type) := {
  os_malloc : W -> bool * W;
  os_pipe : W -> option (Z * Z) * W;
  os_nonblock : Z -> W -> W;
  os_close : Z -> W -> W;
  pipe_write : Z -> list Z -> W -> Z * W;
  pipe_read : Z -> Z -> W -> read_result * W;
  dispatch_create : W -> Z * W;
  dispatch_release : Z -> W -> W;
  vmnet_start_interface : semu_vmnet_mode_t -> option (list Z) -> Z -> W -> start_result * W;
  vmnet_set_event_callback : Z -> W -> W;
  vmnet_read : Z -> Z -> W -> option (list (list Z)) * W;
  vmnet_write : Z -> list Z -> W -> option Z * W;
  vmnet_stop_interface : Z -> W -> W;
  user_init : W -> W }.

(** ** The MAC address *)

Definition hex_digit (c : Z) : option Z :=
  if (48 <=? c) && (c <=? 57) then Some (c - 48)
  else if (97 <=? c) && (c <=? 102) then Some (c - 87)
  else if (65 <=? c) && (c <=? 70) then Some (c - 55) else None.
Fixpoint hex_digits (acc : Z) (s : list Z) : Z * list Z :=
  match s with
  | c :: s' => match hex_digit c with Some d => hex_digits (16 * acc + d) s' | None => (acc, s) end
  | [] => (acc, [])
  end.
Definition white (c : Z) : bool := (c =? 32) || ((9 <=? c) && (c <=? 13)).
Fixpoint skip_white (s : list Z) : list Z :=
  match s with c :: s' => if white c then skip_white s' else s | [] => [] end.

(** [%hhx]: white space, a sign, [0x], digits; the value modulo 256. *)
Definition scan_hhx (s : list Z) : option (Z * list Z) :=
  let s := skip_white s in
  let '(neg, s) := match s with
                   | c :: s' => if c =? 45 then (true, s') else if c =? 43 then (false, s') else (false, s)
                   | [] => (false, s)
                   end in
  let s := match s with
           | z :: x :: s' => if (z =? 48) && ((x =? 120) || (x =? 88)) then s' else s
           | _ => s
           end in
  match s with
  | c :: _ =>
    match hex_digit c with
    | Some _ => let '(v, rest) := hex_digits 0 s in Some (u8 (if neg : bool then - v else v), rest)
    | None => None
    end
  | [] => None
  end.

(** [sscanf(s, "%hhx:%hhx:...", ...)]: the conversions before the first mismatch are
    stored. *)
Fixpoint scan_mac (mac : list Z) (s : list Z) : list Z :=
  match mac with
  | [] => []
  | old :: mac' =>
    match scan_hhx s with
    | None => mac
    | Some (v, rest) =>
      v :: match rest with
           | c :: rest' => if c =? 58 then scan_mac mac' rest' else mac'
           | [] => mac'
           end
    end
  end.

Section Vmnet.
Context {W : Type} `{HostW : VmnetHost W}.
Implicit Types (st : net_vmnet_state_t) (w : W).

(** ** Arriving packets *)

(** [buf] is the packet of [len] bytes. The lock is held meanwhile. *)
(* [netdev-vmnet.c:30-56] vmnet_packet_handler *)
Definition vmnet_packet_handler st (buf : list Z) w : W :=
  let len := Z.of_nat (length buf) in
  if len <=? 0 then w
  else
    let '(n, w) := pipe_write (snd (pipe_fds st)) (le_bytes 4 (u32 len)) w in
    if negb (n =? 4) then w else snd (pipe_write (snd (pipe_fds st)) buf w).

(** The block for [VMNET_INTERFACE_PACKETS_AVAILABLE]: at most 32 packets. *)
(* [netdev-vmnet.c:92-123] vmnet_init_shared *)
Definition packets_available st (iface : Z) w : W :=
  match vmnet_read iface 32 w with
  | (None, w) => w
  | (Some pkts, w) => foldl (fun w buf => vmnet_packet_handler st buf w) w pkts
  end.

(** ** Initialisation *)

(** The completion block: the address, and the callback on the variable the result
    of the call is assigned to. *)
(* [netdev-vmnet.c:74-126] vmnet_init_shared *)
Definition interface_started (r : start_result) st w : net_vmnet_state_t * W :=
  if sr_success r then
    let st := match sr_mac r with Some mac => st <| vm_mac := scan_mac (vm_mac st) mac |> | None => st end in
    (st, vmnet_set_event_callback (if sr_early r then 0 else sr_iface r) w)
  else (st, w).

(** The part the three modes share: whether it succeeded. *)
Definition vmnet_init_mode (mode : semu_vmnet_mode_t) (name : option (list Z)) st w : bool * net_vmnet_state_t * W :=
  let '(sem, w) := dispatch_create w in
  let '(queue, w) := dispatch_create w in
  let st := st <| vm_sem := sem |> <| vm_queue := queue |> in
  let '(r, w) := vmnet_start_interface mode name queue w in
  let '(st, w) := interface_started r st w in
  if negb (sr_success r) then (false, st, w) else (true, st <| vm_iface := sr_iface r |>, w).

(* [netdev-vmnet.c:58-140] vmnet_init_shared *)
Definition vmnet_init_shared st w : bool * net_vmnet_state_t * W := vmnet_init_mode SEMU_VMNET_SHARED None st w.
(* [netdev-vmnet.c:142-219] vmnet_init_host *)
Definition vmnet_init_host st w : bool * net_vmnet_state_t * W := vmnet_init_mode SEMU_VMNET_HOST None st w.
(* [netdev-vmnet.c:221-303] vmnet_init_bridged *)
Definition vmnet_init_bridged st (iface_name : option (list Z)) w : bool * net_vmnet_state_t * W :=
  let name := match iface_name with Some [] => None | n => n end in
  vmnet_init_mode SEMU_VMNET_BRIDGED name st w.

(* [netdev-vmnet.c:305-348] net_vmnet_init *)
Definition net_vmnet_init (mode : semu_vmnet_mode_t) (iface_name : option (list Z)) st w : Z * net_vmnet_state_t * W :=
  match os_pipe w with
  | (None, w) => (-1, st, w)
  | (Some fds, w) =>
    let w := os_nonblock (fst fds) w in
    let st := st <| pipe_fds := fds |> <| vm_lock := true |> <| vm_running := true |> in
    let '(ok, st, w) := match mode with
                        | SEMU_VMNET_SHARED => vmnet_init_shared st w
                        | SEMU_VMNET_HOST => vmnet_init_host st w
                        | SEMU_VMNET_BRIDGED => vmnet_init_bridged st iface_name w
                        end in
    if negb ok then
      let w := os_close (snd (pipe_fds st)) (os_close (fst (pipe_fds st)) w) in
      (-1, st <| vm_lock := false |>, w)
    else (0, st, w)
  end.

(** ** Packets for the guest *)

(** Draining a packet that does not fit. *)
(* [netdev-vmnet.c:370-380] net_vmnet_read *)
Fixpoint drain_packet (fuel : nat) (fd remaining : Z) w : W :=
  match fuel with
  | O => w
  | S fuel =>
    if 0 <? remaining then
      match pipe_read fd (if VMNET_BUF_SIZE <? remaining then VMNET_BUF_SIZE else remaining) w with
      | (Read_data (b :: bytes), w) => drain_packet fuel fd (remaining - Z.of_nat (length (b :: bytes))) w
      | (_, w) => w
      end
    else w
  end.

(** The data: the loop spins while the pipe is empty, [None] when it is out of fuel. *)
(* [netdev-vmnet.c:383-397] net_vmnet_read *)
Fixpoint read_data (fuel : nat) (fd pkt_len : Z) (buf : list Z) w : option (option (list Z) * W) :=
  match fuel with
  | O => None
  | S fuel =>
    if Z.of_nat (length buf) <? pkt_len then
      match pipe_read fd (pkt_len - Z.of_nat (length buf)) w with
      | (Read_data bytes, w) => read_data fuel fd pkt_len (buf ++ bytes) w
      | (Read_again, w) => read_data fuel fd pkt_len buf w
      | (Read_error, w) => Some (None, w)
      end
    else Some (Some buf, w)
  end.

(** [Some None] is the result [-1]. *)
(* [netdev-vmnet.c:350-398] net_vmnet_read *)
Definition net_vmnet_read (fuel : nat) st (len : Z) w : option (option (list Z) * W) :=
  let fd := fst (pipe_fds st) in
  match pipe_read fd 4 w with
  | (Read_data bytes, w) =>
    if negb (Z.of_nat (length bytes) =? 4) then Some (None, w)
    else
      let pkt_len := le_value bytes in
      if len <? pkt_len then Some (None, drain_packet (Z.to_nat pkt_len) fd pkt_len w)
      else read_data fuel fd pkt_len [] w
  | (_, w) => Some (None, w)
  end.

(** ** Packets from the guest *)

(* [netdev-vmnet.c:400-426] net_vmnet_write *)
Definition net_vmnet_write st (buf : list Z) w : Z * W :=
  if negb (vm_running st) || (vm_iface st =? 0) then (-1, w)
  else
    match vmnet_write (vm_iface st) buf w with
    | (None, w) => (-1, w)
    | (Some pkt_cnt, w) => (if 0 <? pkt_cnt then Z.of_nat (length buf) else -1, w)
    end.

(** [iov] holds the bytes of its vectors. *)
(* [netdev-vmnet.c:428-456] net_vmnet_writev *)
Definition net_vmnet_writev st (iov : list (list Z)) w : Z * W :=
  if negb (vm_running st) || (vm_iface st =? 0) then (-1, w)
  else
    let total_len := foldl (fun n v => n + Z.of_nat (length v)) 0 iov in
    match vmnet_write (vm_iface st) (concat iov) w with
    | (None, w) => (-1, w)
    | (Some pkt_cnt, w) => (if 0 <? pkt_cnt then total_len else -1, w)
    end.

(* [netdev-vmnet.c:458-461] net_vmnet_get_fd *)
Definition net_vmnet_get_fd st : Z := fst (pipe_fds st).

(* [netdev-vmnet.c:463-490] net_vmnet_cleanup *)
Definition net_vmnet_cleanup st w : net_vmnet_state_t * W :=
  let st := st <| vm_running := false |> in
  let '(st, w) := if nz (vm_iface st) then (st <| vm_iface := 0 |>, vmnet_stop_interface (vm_iface st) w) else (st, w) in
  let '(st, w) := if nz (vm_queue st) then (st <| vm_queue := 0 |>, dispatch_release (vm_queue st) w) else (st, w) in
  let '(st, w) := if nz (vm_sem st) then (st <| vm_sem := 0 |>, dispatch_release (vm_sem st) w) else (st, w) in
  (st <| vm_lock := false |>, os_close (snd (pipe_fds st)) (os_close (fst (pipe_fds st)) w)).

(** ** The selection on macOS *)

Inductive apple_impl := NETDEV_IMPL_vmnet | NETDEV_IMPL_apple_user.
(** [op]: the options of the back end; those of SLIRP are opaque here. *)
Inductive apple_op := Op_null | Op_vmnet (st : net_vmnet_state_t) | Op_user.

(** Whether it succeeded, the type and the options. *)
(* [netdev.c:109-126] netdev_init *)
Definition netdev_init_user (w : W) : bool * apple_impl * apple_op * W :=
  let '(ok, w) := os_malloc w in
  if negb ok then (false, NETDEV_IMPL_apple_user, Op_null, w)
  else (true, NETDEV_IMPL_apple_user, Op_user, user_init w).

(* [netdev.c:78-131] netdev_init *)
Definition netdev_init_apple (net_type : option string) (old : apple_impl) w : bool * apple_impl * apple_op * W :=
  let wants (name : string) := match net_type with None => true | Some n => String.eqb n name end in
  if wants "vmnet"%string then
    let '(ok, w) := os_malloc w in
    if negb ok then (false, NETDEV_IMPL_vmnet, Op_null, w)
    else
      let '(r, st, w) := net_vmnet_init SEMU_VMNET_SHARED None zero_vmnet w in
      if r =? 0 then (true, NETDEV_IMPL_vmnet, Op_vmnet st, w)
      else match net_type with
           | Some _ => (false, NETDEV_IMPL_vmnet, Op_null, w)
           | None => netdev_init_user w
           end
  else if wants "user"%string then netdev_init_user w
  else (false, old, Op_null, w).
End Vmnet.

(** ** The two threads *)

(** What the operating system makes of the next step of the writer. *)
Inductive write_event :=
  | Arrives (pkt : list Z)       (* the framework delivers a packet *)
  | Size_written (ok : bool)     (* the result of the first [write] *)
  | Data_moved (k : Z)           (* bytes of the second [write] reach the pipe *)
  | Data_short.                  (* the second [write] ends before all are there *)

Inductive writer_pc := W_idle | W_size (pkt : list Z) | W_data (rest : list Z).
Inductive reader_pc := R_idle | R_header | R_data (pkt_len : Z) (buf : list Z) | R_drain (remaining : Z).

(** [given] and [got]: the packets whose length was written, and those returned;
    [garbled] counts results of [-1] other than for an empty pipe. *)
Record vmnet_sys := mk_vsys {
  vw : writer_pc; vr : reader_pc; vpipe : list Z; given : list (list Z); got : list (list Z); garbled : nat }.

(** [None]: not a step of the writer here. *)
(* [netdev-vmnet.c:30-56] vmnet_packet_handler *)
Definition writer_step (e : write_event) (s : vmnet_sys) : option vmnet_sys :=
  match vw s, e with
  | W_idle, Arrives pkt =>
    if Z.of_nat (length pkt) <=? 0 then Some s
    else Some (mk_vsys (W_size pkt) (vr s) (vpipe s) (given s) (got s) (garbled s))
  | W_size pkt, Size_written true =>
    Some (mk_vsys (W_data pkt) (vr s) (vpipe s ++ le_bytes 4 (u32 (Z.of_nat (length pkt)))) (given s ++ [pkt]) (got s) (garbled s))
  | W_size pkt, Size_written false => Some (mk_vsys W_idle (vr s) (vpipe s) (given s) (got s) (garbled s))
  | W_data rest, Data_moved k =>
    let n := Z.to_nat k in
    Some (mk_vsys (match drop n rest with [] => W_idle | more => W_data more end) (vr s) (vpipe s ++ take n rest)
            (given s) (got s) (garbled s))
  | W_data rest, Data_short => Some (mk_vsys W_idle (vr s) (vpipe s) (given s) (got s) (garbled s))
  | _, _ => None
  end.

(** A step of [net_vmnet_read] with a buffer of [len] bytes. *)
(* [netdev-vmnet.c:350-398] net_vmnet_read *)
Definition reader_step (len : Z) (s : vmnet_sys) : vmnet_sys :=
  let goto r pipe := mk_vsys (vw s) r pipe (given s) (got s) (garbled s) in
  let refuse pipe := mk_vsys (vw s) R_idle pipe (given s) (got s) (S (garbled s)) in
  match vr s with
  | R_idle => goto R_header (vpipe s)
  | R_header =>
    match vpipe s with
    | [] => goto R_idle []
    | pipe =>
      if negb (Z.of_nat (length (take 4 pipe)) =? 4) then refuse (drop 4 pipe)
      else let pkt_len := le_value (take 4 pipe) in
           if len <? pkt_len then goto (R_drain pkt_len) (drop 4 pipe) else goto (R_data pkt_len []) (drop 4 pipe)
    end
  | R_data pkt_len buf =>
    if Z.of_nat (length buf) <? pkt_len then
      let n := Z.to_nat (pkt_len - Z.of_nat (length buf)) in
      goto (R_data pkt_len (buf ++ take n (vpipe s))) (drop n (vpipe s))
    else mk_vsys (vw s) R_idle (vpipe s) (given s) (got s ++ [buf]) (garbled s)
  | R_drain remaining =>
    if 0 <? remaining then
      match vpipe s with
      | [] => refuse []
      | pipe => let n := Z.to_nat (if VMNET_BUF_SIZE <? remaining then VMNET_BUF_SIZE else remaining) in
                goto (R_drain (remaining - Z.of_nat (length (take n pipe)))) (drop n pipe)
      end
    else refuse (vpipe s)
  end.

(** ** Framing *)

Definition header (pkt : list Z) : list Z := le_bytes 4 (u32 (Z.of_nat (length pkt))).
Definition frames (pkts : list (list Z)) : list Z := concat ((fun p => header p ++ p) <$> pkts).

(** What the framework delivers into buffers of [VMNET_BUF_SIZE]. *)
Definition fits (pkt : list Z) : Prop := 0 < Z.of_nat (length pkt) <= VMNET_BUF_SIZE.

#[local] Arguments header : simpl never.
#[local] Arguments le_bytes : simpl never.

Lemma header_length pkt : length (header pkt) = 4%nat.
Proof. apply le_bytes_ok. Qed.
Lemma header_value pkt : fits pkt -> le_value (header pkt) = Z.of_nat (length pkt).
Proof.
  unfold fits, VMNET_BUF_SIZE. intros H. unfold header. rewrite le_value_bytes. unfold u32.
  change (8 * Z.of_nat 4) with 32. assert (Z.of_nat (length pkt) < 2 ^ 32) by (change (2 ^ 32) with 4294967296; lia).
  rewrite !Z.mod_small by (rewrite ?Z.mod_small; lia). done.
Qed.
Lemma frames_cons p q : frames (p :: q) = header p ++ p ++ frames q.
Proof. unfold frames. rewrite fmap_cons. cbn [concat]. by rewrite <- app_assoc. Qed.
Lemma frames_app q1 q2 : frames (q1 ++ q2) = frames q1 ++ frames q2.
Proof. unfold frames. by rewrite fmap_app, concat_app. Qed.

(** ** The invariant *)

Definition unwritten (s : vmnet_sys) : list Z := match vw s with W_data rest => rest | _ => [] end.

(** What is not yet written belongs to the last packet. *)
Definition tail_of (u : list Z) (q : list (list Z)) : Prop := u = [] \/ exists q0 p, q = q0 ++ [p] /\ u `suffix_of` p.

Record framed (s : vmnet_sys) (pending : list (list Z)) : Prop := {
  fr_given : given s = got s ++ pending;
  fr_fits : Forall fits pending;
  fr_whole : garbled s = 0%nat;
  fr_writer : match vw s with W_idle => True | W_size pkt => fits pkt | W_data rest => rest <> [] end;
  fr_reader :
    match vr s with
    | R_idle | R_header => vpipe s ++ unwritten s = frames pending /\ tail_of (unwritten s) pending
    | R_data n buf => exists pkt q, pending = pkt :: q /\ n = Z.of_nat (length pkt) /\ Z.of_nat (length buf) <= n /\
        buf ++ vpipe s ++ unwritten s = pkt ++ frames q /\ (q = [] \/ tail_of (unwritten s) q)
    | R_drain _ => False
    end }.

Inductive vmnet_step (s : vmnet_sys) : vmnet_sys -> Prop :=
  | step_writer e s' : writer_step e s = Some s' -> e <> Data_short ->
      (forall pkt, e = Arrives pkt -> Z.of_nat (length pkt) <= VMNET_BUF_SIZE) -> vmnet_step s s'
  | step_reader : vmnet_step s (reader_step VMNET_BUF_SIZE s).

Definition vmnet_start : vmnet_sys := mk_vsys W_idle R_idle [] [] [] 0.

Lemma tail_drop k u q : tail_of u q -> tail_of (drop k u) q.
Proof.
  intros [->|(q0 & p & -> & Hs)]; [left; by rewrite drop_nil|]. right. exists q0, p. split; [done|].
  etrans; [|exact Hs]. apply suffix_drop.
Qed.

Lemma tail_snoc pkt q : tail_of pkt (q ++ [pkt]).
Proof. right. by exists q, pkt. Qed.

(** The part of the stream the writer adds stays at its end. *)
Lemma writer_framed e s s' pending : framed s pending -> writer_step e s = Some s' -> e <> Data_short ->
  (forall pkt, e = Arrives pkt -> Z.of_nat (length pkt) <= VMNET_BUF_SIZE) -> exists pending', framed s' pending'.
Proof.
  intros [G F N Wr R] E Hs Ha. destruct s as [w r pipe gv gt n]. unfold writer_step, unwritten in *. cbn in *.
  destruct w as [|pkt|rest], e as [pk|[]|k|]; try done.
  - destruct (Z.leb_spec (Z.of_nat (length pk)) 0); injection E as <-; exists pending; split; cbn; try done.
    specialize (Ha pk eq_refl). unfold fits. lia.
  - injection E as <-. exists (pending ++ [pkt]). split; cbn; [by rewrite G, app_assoc|by apply Forall_app; auto|done| |].
    { intros ->. unfold fits in Wr. cbn in Wr. lia. }
    assert (T : tail_of pkt (pending ++ [pkt])) by apply tail_snoc.
    destruct r as [| |m buf|]; try done.
    1,2: destruct R as [R _]; rewrite app_nil_r in R; subst pipe; split; [|done];
      rewrite frames_app, frames_cons, <- !app_assoc; cbn; by rewrite app_nil_r.
    destruct R as (p & q & -> & -> & Hl & Hc & _). exists p, (q ++ [pkt]). split_and!; try done; [|right; apply tail_snoc].
    rewrite app_nil_r in Hc. rewrite <- app_assoc, app_assoc, Hc, frames_app, frames_cons, <- !app_assoc. cbn. by rewrite app_nil_r.
  - injection E as <-. exists pending. by split.
  - injection E as <-. exists pending.
    assert (U : match (match drop (Z.to_nat k) rest with [] => W_idle | _ :: _ => W_data (drop (Z.to_nat k) rest) end) with
                | W_data rest => rest | _ => [] end = drop (Z.to_nat k) rest) by by destruct (drop _ rest).
    split; cbn; try done; [by destruct (drop _ rest)|]. unfold unwritten. cbn. 
    replace (match drop (Z.to_nat k) rest with [] => W_idle | z :: l => W_data (z :: l) end)
      with (match drop (Z.to_nat k) rest with [] => W_idle | _ :: _ => W_data (drop (Z.to_nat k) rest) end) by by destruct (drop _ rest).
    rewrite U, <- app_assoc, take_drop. destruct r as [| |m buf|]; try done.
    1,2: destruct R as [R1 R2]; split; [done|by apply tail_drop].
    destruct R as (p & q & R1 & R2 & R3 & R4 & [R5|R5]); exists p, q; split_and!; auto using tail_drop.
Qed.

(** A length is in the pipe whole or not at all. *)
Lemma header_whole pipe u p q : pipe ++ u = frames (p :: q) -> tail_of u (p :: q) -> (4 <= length pipe)%nat.
Proof.
  intros E T. assert (L : length (pipe ++ u) = length (frames (p :: q))) by by rewrite E.
  rewrite length_app in L. destruct T as [->|(q0 & p' & Eq & [x Hx])].
  - rewrite frames_cons, !length_app, header_length in L. cbn in L. lia.
  - rewrite Eq, frames_app, frames_cons, !length_app, header_length, Hx, length_app in L. cbn in L. lia.
Qed.

Lemma tail_next u p q : tail_of u (p :: q) -> q = [] \/ tail_of u q.
Proof.
  intros [->|(q0 & p' & Eq & Hs)]; [right; by left|]. destruct q0 as [|x q0]; injection Eq as -> ->; [by left|].
  right. right. by exists q0, p'.
Qed.

Lemma reader_framed s pending : framed s pending -> exists pending', framed (reader_step VMNET_BUF_SIZE s) pending'.
Proof.
  intros [G F N Wr R]. destruct s as [w r pipe gv gt n]. unfold reader_step, unwritten in *. cbn [vw vr vpipe given got garbled] in *. cbv zeta.
  set (u := match w with W_data rest => rest | _ => [] end) in *. destruct r as [| |m buf|]; try done.
  - exists pending. by split.
  - destruct pipe as [|b pipe0]; [exists pending; by split|]. assert (Hp : b :: pipe0 <> []) by done. revert Hp R. generalize (b :: pipe0). clear b pipe0. intros pipe Hp R. destruct R as [R T].
    destruct pending as [|p q]; [by apply app_eq_nil in R as [-> _]|]. pose proof (header_whole _ _ _ _ R T) as L.
    assert (Ef : take 4 (pipe ++ u) = header p).
    { rewrite R, frames_cons. rewrite <- (header_length p). apply take_app_length. }
    rewrite take_app_le in Ef by done.
    assert (Ed : drop 4 pipe ++ u = p ++ frames q).
    { assert (K : drop 4 (pipe ++ u) = p ++ frames q).
      { rewrite R, frames_cons. rewrite <- (header_length p). apply drop_app_length. }
      by rewrite drop_app_le in K. }
    rewrite !Ef, header_length. cbn [Z.of_nat negb Z.eqb Pos.eqb Pos.of_succ_nat Pos.succ].
    apply Forall_cons in F as [Fp Fq]. rewrite header_value by done.
    destruct (Z.ltb_spec VMNET_BUF_SIZE (Z.of_nat (length p))) as [Hlt|_]; [unfold fits in Fp; lia|].
    exists (p :: q). split; cbn; try done; [by constructor|]. exists p, q. split_and!; try done; [apply Nat2Z.is_nonneg|by eapply tail_next].
  - destruct R as (p & q & -> & -> & Hl & Hc & T). destruct (Z.ltb_spec (Z.of_nat (length buf)) (Z.of_nat (length p))) as [Hlt|Hge].
    + exists (p :: q). split; cbn; try done. set (k := Z.to_nat _). exists p, q. split_and!; try done.
      * rewrite length_app, length_take. lia.
      * by rewrite <- Hc, <- app_assoc, (app_assoc (take k pipe)), take_drop.
    + assert (Hb : buf = p /\ pipe ++ u = frames q) by (apply app_inj_1; [lia|done]). destruct Hb as [-> Hp].
      exists q. apply Forall_cons in F as [Fp Fq]. split; cbn; try done.
      * by rewrite G, <- app_assoc.
      * split; [done|]. destruct T as [->|T]; [|done]. left. by apply app_eq_nil in Hp as [_ Hu].
Qed.

Lemma vmnet_reach_framed s : rtc vmnet_step vmnet_start s -> exists pending, framed s pending.
Proof.
  intros R. assert (I0 : exists q, framed vmnet_start q).
  { exists []. split; try done. by split; [|left]. }
  revert I0. generalize vmnet_start R. clear R. intros s0 R. induction R as [|s1 s2 s3 H _ IH]; [done|].
  intros [q I]. apply IH. destruct H as [e s' E1 E2 E3|]; [by eapply writer_framed|by eapply reader_framed].
Qed.

(** ** The function on the pipe *)

(** A host whose [pipe_read] is that of a non-blocking pipe with its writer open. *)
Class PipeLaws (W : Type) `{!VmnetHost W} := {
  pipe_bytes : W -> list Z;
  pipe_read_empty : forall fd n w, 0 < n -> pipe_bytes w = [] ->
    fst (pipe_read fd n w) = Read_again /\ pipe_bytes (snd (pipe_read fd n w)) = [];
  pipe_read_some : forall fd n w, 0 < n -> pipe_bytes w <> [] ->
    fst (pipe_read fd n w) = Read_data (take (Z.to_nat n) (pipe_bytes w)) /\
    pipe_bytes (snd (pipe_read fd n w)) = drop (Z.to_nat n) (pipe_bytes w) }.

Section Read.
Context {W : Type} `{HostW : VmnetHost W} {Laws : PipeLaws W}.
Implicit Types (st : net_vmnet_state_t) (w : W).

Lemma read_whole st w p q : fits p -> pipe_bytes w = frames (p :: q) ->
  exists w', net_vmnet_read 2 st VMNET_BUF_SIZE w = Some (Some p, w') /\ pipe_bytes w' = frames q.
Proof.
  intros Fp Ew. assert (Hne : pipe_bytes w <> []).
  { intros E. apply (f_equal length) in E. rewrite Ew, frames_cons, length_app, header_length in E. done. }
  destruct (pipe_read_some (fst (pipe_fds st)) 4 w eq_refl Hne) as [E1 E2]. unfold net_vmnet_read.
  destruct (pipe_read (fst (pipe_fds st)) 4 w) as [r w1]. cbn [fst snd] in *. subst r.
  assert (Eh : take (Z.to_nat 4) (pipe_bytes w) = header p).
  { rewrite Ew, frames_cons. change (Z.to_nat 4) with 4%nat. rewrite <- (header_length p). apply take_app_length. }
  assert (Ed : pipe_bytes w1 = p ++ frames q).
  { rewrite E2, Ew, frames_cons. change (Z.to_nat 4) with 4%nat. rewrite <- (header_length p). apply drop_app_length. }
  rewrite Eh, header_length, header_value by done. unfold fits in Fp. change (Z.of_nat 4 =? 4) with true. cbn [negb].
  destruct (Z.ltb_spec VMNET_BUF_SIZE (Z.of_nat (length p))); [lia|]. cbn [read_data length].
  destruct (Z.ltb_spec (Z.of_nat 0) (Z.of_nat (length p))); [|lia]. rewrite Z.sub_0_r.
  destruct (pipe_read_some (fst (pipe_fds st)) (Z.of_nat (length p)) w1) as [E3 E4]; [lia|by rewrite Ed; destruct p|].
  destruct (pipe_read (fst (pipe_fds st)) (Z.of_nat (length p)) w1) as [r w2]. cbn [fst snd] in *. subst r.
  rewrite Ed, Nat2Z.id in *. rewrite take_app_length, drop_app_length in *. cbn [app].
  destruct (Z.ltb_spec (Z.of_nat (length p)) (Z.of_nat (length p))); [lia|]. by exists w2.
Qed.

Lemma read_empty st w : pipe_bytes w = [] ->
  exists w', net_vmnet_read 2 st VMNET_BUF_SIZE w = Some (None, w') /\ pipe_bytes w' = [].
Proof.
  intros E. destruct (pipe_read_empty (fst (pipe_fds st)) 4 w eq_refl E) as [E1 E2]. unfold net_vmnet_read.
  destruct (pipe_read (fst (pipe_fds st)) 4 w) as [r w1]. cbn in *. subst r. by exists w1.
Qed.

(** A packet that does not fit the caller's buffer is skipped whole. *)
Lemma drain_whole fd w p q n : 0 <= n -> Z.of_nat (length p) <= n -> pipe_bytes w = p ++ q ->
  pipe_bytes (drain_packet (Z.to_nat n) fd (Z.of_nat (length p)) w) = q.
Proof.
  remember (Z.to_nat n) as fuel eqn:Ef. revert n p w Ef. induction fuel as [|fuel IH]; intros n p w Ef Hn Hl E.
  - assert (p = []) as -> by (apply nil_length_inv; lia). cbn [drain_packet]. by rewrite E.
  - cbn [drain_packet]. destruct (Z.ltb_spec 0 (Z.of_nat (length p))) as [Hp|Hp].
    + set (k := if _ <? _ then _ else _). assert (Hk : 0 < k <= Z.of_nat (length p)).
      { subst k. unfold VMNET_BUF_SIZE. destruct (Z.ltb_spec 2048 (Z.of_nat (length p))); lia. }
      destruct (pipe_read_some fd k w) as [E1 E2]; [lia|by rewrite E; destruct p|].
      destruct (pipe_read fd k w) as [r w1]. cbn [fst snd] in *. subst r.
      assert (Ht : take (Z.to_nat k) (pipe_bytes w) = take (Z.to_nat k) p) by (rewrite E; apply take_app_le; lia).
      assert (Hd : pipe_bytes w1 = drop (Z.to_nat k) p ++ q) by (rewrite E2, E; apply drop_app_le; lia).
      rewrite Ht. destruct (take (Z.to_nat k) p) as [|b l] eqn:Et.
      { apply (f_equal length) in Et. rewrite length_take in Et. cbn in Et. lia. }
      rewrite <- Et, length_take. replace (Z.of_nat (length p) - Z.of_nat (Z.to_nat k `min` length p))
        with (Z.of_nat (length (drop (Z.to_nat k) p))) by (rewrite length_drop; lia).
      apply (IH (n - 1)); [lia..|rewrite length_drop; lia|done].
    + assert (p = []) as -> by (apply nil_length_inv; lia). by rewrite E.
Qed.

(** C24: Packets cross the vmnet pipe whole and in order: however the dispatch queue
    that writes them and the emulator that reads them interleave, as long as no write
    of data ends short, the packets read are the first of those accepted, none is
    garbled and the reader never loses the framing; and whenever neither thread is in
    the middle, [net_vmnet_read] returns at once with exactly the oldest packet not
    yet read and leaves the others, or with nothing when there is none. *)
Theorem vmnet_packets_in_order s : rtc vmnet_step vmnet_start s ->
  garbled s = 0%nat /\ exists pending, given s = got s ++ pending /\
  (vw s = W_idle -> vr s = R_idle -> forall st w, pipe_bytes w = vpipe s ->
    exists w', net_vmnet_read 2 st VMNET_BUF_SIZE w = Some (head pending, w') /\ pipe_bytes w' = frames (tail pending)).
Proof.
  intros [q [G F N _ R]]%vmnet_reach_framed. split; [done|]. exists q. split; [done|]. intros Ew Er st w Ep.
  unfold unwritten in R. rewrite Er, Ew, app_nil_r in R. destruct R as [R _]. rewrite R in Ep.
  destruct q as [|p q]; [by apply read_empty|]. apply Forall_cons in F as [Fp _]. by apply read_whole.
Qed.
End Read.

(** A write of data that ends short garbles what follows: here the reader takes the
    length of the second packet and its data for the rest of the first. *)
Definition run_writer (l : list write_event) (s : vmnet_sys) : option vmnet_sys :=
  foldl (fun s e => s ≫= writer_step e) (Some s) l.

Example short_write_garbles :
  exists s, run_writer [Arrives [1; 2; 3; 4; 5; 6]; Size_written true; Data_moved 1; Data_short;
                        Arrives [7]; Size_written true; Data_moved 1] vmnet_start = Some s /\
    let s' := Nat.iter 4 (reader_step VMNET_BUF_SIZE) s in
    given s' = [[1; 2; 3; 4; 5; 6]; [7]] /\ got s' = [[1; 1; 0; 0; 0; 7]].
Proof. eexists. split; [vm_compute; reflexivity|]. vm_compute. split; reflexivity. Qed.
