(* ===== verification/Slirp.v ===== *)
(** * The user-mode network (slirp.c) and its opening (netdev.c)

    The callbacks the SLIRP library calls, the table of sockets it wants polled, the
    two channels between virtio-net and the library, and the part of the run loop that
    polls. The library and the sockets are the class [SlirpHost]; [0] is [NULL]. The
    library may call the callbacks in any order. [us_fault] records a null pointer or
    a freed timer the code would dereference. Shown: the table of sockets is never
    overrun, its first entry stays the channel of virtio-net, and a round polls the
    library's sockets for the events it asked for. *)

From stdpp Require Import base gmap list relations.
From Stdlib Require Import ZArith Lia Bool.
From S2P Require Import Prelude Isa Hart Machine Loops Device Timer VirtioNet.
Open Scope Z_scope.

(** poll.h *)
Definition POLLIN := 1.
Definition POLLPRI := 2.
Definition POLLOUT := 4.
Definition POLLERR := 8.
Definition POLLHUP := 16.

(* [netdev.h:76-77] *)
Definition SLIRP_POLL_INTERVAL := 100000.
Definition SLIRP_PKT_MAX := 16384.

Record pollfd := mk_pollfd { pfd_fd : Z; pfd_events : Z; pfd_revents : Z }.

(* [netdev.h:80-87] slirp_timer *)
Record slirp_timer := mk_stimer {
  st_timer : semu_timer_t; st_slirp : Z; st_id : Z; st_cb_opaque : Z; st_expire_timer_msec : Z }.

(** [us_timer] points into [us_timers], the timers allocated. *)
(* [netdev.h:89-98] net_user_options_t *)
Record net_user_options_t := mk_user {
  us_slirp : Z; guest_to_host_channel : Z * Z; host_to_guest_channel : Z * Z;
  us_pfd_len : Z; us_pfd_size : Z; us_pfd : list pollfd; us_timer : Z;
  us_timers : gmap Z slirp_timer; us_fault : bool }.

#[export] Instance eta_user : Eta net_user_options_t := fun r =>
  mk_user (us_slirp r) (guest_to_host_channel r) (host_to_guest_channel r) (us_pfd_len r) (us_pfd_size r) (us_pfd r)
    (us_timer r) (us_timers r) (us_fault r).
#[export] Instance set_us_slirp : Setter us_slirp := ltac:(solve_setter).
#[export] Instance set_g2h : Setter guest_to_host_channel := ltac:(solve_setter).
#[export] Instance set_h2g : Setter host_to_guest_channel := ltac:(solve_setter).
#[export] Instance set_us_pfd_len : Setter us_pfd_len := ltac:(solve_setter).
#[export] Instance set_us_pfd_size : Setter us_pfd_size := ltac:(solve_setter).
#[export] Instance set_us_pfd : Setter us_pfd := ltac:(solve_setter).
#[export] Instance set_us_timer : Setter us_timer := ltac:(solve_setter).
#[export] Instance set_us_timers : Setter us_timers := ltac:(solve_setter).
#[export] Instance set_us_fault : Setter us_fault := ltac:(solve_setter).
#[export] Instance eta_pollfd : Eta pollfd := fun r => mk_pollfd (pfd_fd r) (pfd_events r) (pfd_revents r).
#[export] Instance set_pfd_fd : Setter pfd_fd := ltac:(solve_setter).
#[export] Instance set_pfd_events : Setter pfd_events := ltac:(solve_setter).
#[export] Instance set_pfd_revents : Setter pfd_revents := ltac:(solve_setter).
#[export] Instance eta_stimer : Eta slirp_timer := fun r =>
  mk_stimer (st_timer r) (st_slirp r) (st_id r) (st_cb_opaque r) (st_expire_timer_msec r).
#[export] Instance set_st_timer : Setter st_timer := ltac:(solve_setter).

Definition zero_pollfd : pollfd := mk_pollfd 0 0 0.
(** All fields zero. *)
Definition zero_user : net_user_options_t := mk_user 0 (0, 0) (0, 0) 0 0 [] 0 ∅ false.

(** The fields of [SlirpConfig] that are set; addresses are their bytes in network
    order. *)
(* [slirp.c:176-204] slirp_create *)
Record SlirpConfig := mk_cfg {
  cfg_version : Z; restricted : bool; in_enabled : bool; vnetwork : list Z; vnetmask : list Z; vhost_addr : list Z;
  in6_enabled : bool; vprefix_addr6 : list Z; vdhcp_start : list Z; vnameserver : list Z; vnameserver6 : list Z;
  if_mtu : Z; if_mru : Z; disable_host_loopback : bool }.

(** The library and the sockets. [slirp_pollfds_fill] gives the sockets the library
    wants polled, with its own event bits; [pfd_realloc] the new, uninitialised
    entries. [None]: the call fails. *)
Class SlirpHost (W : Type) := {
  SLIRP_POLL_IN : Z; SLIRP_POLL_OUT : Z; SLIRP_POLL_PRI : Z; SLIRP_POLL_ERR : Z; SLIRP_POLL_HUP : Z;
  slirp_at_least : Z -> Z -> bool;
  slirp_new : SlirpConfig -> W -> Z * W;
  slirp_input : Z -> list Z -> W -> W;
  slirp_pollfds_fill : Z -> W -> list (Z * Z) * W;
  slirp_pollfds_poll : Z -> bool -> list Z -> W -> W;
  slirp_handle_timer : Z -> Z -> Z -> W -> W;
  os_socketpair : W -> option (Z * Z) * W;
  os_fcntl_nonblock : Z -> W -> bool * W;
  os_recv : Z -> Z -> W -> read_result * W;
  os_write : Z -> list Z -> W -> Z * W;
  os_poll : list pollfd -> W -> Z * list Z * W;
  pfd_realloc : W -> option (list pollfd) * W;
  timer_malloc : W -> Z * W;
  tap_open : W -> Z * W;
  tap_setiff : Z -> W -> Z * W }.

Section Slirp.
Context {W : Type} `{HostW : SlirpHost W}.
Implicit Types (usr : net_user_options_t) (w : W).

(** ** Callbacks *)

(* [slirp.c:11-17] net_slirp_send_packet *)
Definition net_slirp_send_packet (buf : list Z) usr w : Z * W := os_write (snd (guest_to_host_channel usr)) buf w.

(* [slirp.c:33-38] net_slirp_init_completed *)
Definition net_slirp_init_completed (slirp : Z) usr : net_user_options_t := usr <| us_slirp := slirp |>.

Section Clock.
Context {E : Type} `{HostE : Host E}.
Implicit Types s : machine (emu_state_t E).

(** [int64_t] from [uint64_t]. *)
(* [slirp.c:25-31] net_slirp_clock_get_ns *)
Definition net_slirp_clock_get_ns usr s : Z * net_user_options_t * machine (emu_state_t E) :=
  match us_timers usr !! us_timer usr with
  | None => (0, usr <| us_fault := true |>, s)
  | Some t => let '(v, s) := semu_timer_get (st_timer t) s in (s64 v, usr, s)
  end.

(** The callback [cb] is [net_slirp_timer_cb] always. *)
(* [slirp.c:40-44] slirp_timer_init *)
Definition slirp_timer_init (t : slirp_timer) s : slirp_timer * machine (emu_state_t E) :=
  let '(tm, s) := semu_timer_init CLOCK_FREQ 1 s in (t <| st_timer := tm |>, s).

(* [slirp.c:52-67] net_slirp_timer_new_opaque *)
Definition net_slirp_timer_new_opaque (id cb_opaque : Z) usr s w
    : Z * net_user_options_t * machine (emu_state_t E) * W :=
  let '(p, w) := timer_malloc w in
  let usr := usr <| us_timer := p |> in
  if p =? 0 then (p, usr <| us_fault := true |>, s, w)
  else
    let '(t, s) := slirp_timer_init (mk_stimer (mk_timer 0 0) (us_slirp usr) id cb_opaque (-1)) s in
    (p, usr <| us_timers := <[p := t]> (us_timers usr) |>, s, w).

(** [expire_time] is an [int64_t]. *)
(* [slirp.c:76-83] net_slirp_timer_mod *)
Definition net_slirp_timer_mod (timer expire_time : Z) usr s : net_user_options_t * machine (emu_state_t E) :=
  match us_timers usr !! timer with
  | None => (usr <| us_fault := true |>, s)
  | Some t => let '(tm, s) := semu_timer_rebase (st_timer t) (u64 expire_time) s in
              (usr <| us_timers := <[timer := t <| st_timer := tm |>]> (us_timers usr) |>, s)
  end.
End Clock.

(* [slirp.c:69-74] net_slirp_timer_free *)
Definition net_slirp_timer_free (timer : Z) usr : net_user_options_t :=
  if nz timer then usr <| us_timers := delete timer (us_timers usr) |> else usr.

(* [slirp.c:46-50] net_slirp_timer_cb *)
Definition net_slirp_timer_cb (t : slirp_timer) w : W := slirp_handle_timer (st_slirp t) (st_id t) (st_cb_opaque t) w.

(** ** The poll table *)

Definition bit_if (events bit out : Z) (ret : Z) : Z := if nz (Z.land events bit) then Z.lor ret out else ret.

(* [slirp.c:116-130] poll_to_slirp_poll *)
Definition poll_to_slirp_poll (events : Z) : Z :=
  bit_if events POLLHUP SLIRP_POLL_HUP (bit_if events POLLERR SLIRP_POLL_ERR
    (bit_if events POLLPRI SLIRP_POLL_PRI (bit_if events POLLOUT SLIRP_POLL_OUT (bit_if events POLLIN SLIRP_POLL_IN 0)))).

(* [slirp.c:132-136] semu_slirp_get_revents *)
Definition semu_slirp_get_revents (idx : Z) usr : Z :=
  poll_to_slirp_poll (pfd_revents (arr_get zero_pollfd (us_pfd usr) idx)).

(* [slirp.c:138-158] semu_slirp_add_poll_socket *)
Definition semu_slirp_add_poll_socket (fd events : Z) usr w : Z * net_user_options_t * W :=
  let '(usr, w) :=
    if us_pfd_size usr <=? us_pfd_len usr then
      match pfd_realloc w with
      | (Some fresh, w) => (usr <| us_pfd := us_pfd usr ++ fresh |> <| us_pfd_size := us_pfd_size usr + 16 |>, w)
      | (None, w) => (usr, w)
      end
    else (usr, w) in
  if us_pfd_len usr <? us_pfd_size usr then
    let idx := us_pfd_len usr in
    let old := arr_get zero_pollfd (us_pfd usr) idx in
    (idx, usr <| us_pfd_len := idx + 1 |>
              <| us_pfd := arr_set (us_pfd usr) idx (old <| pfd_fd := fd |> <| pfd_events := poll_to_slirp_poll events |>) |>, w)
  else (-1, usr, w).

(** ** The channels *)

(** The result, [0] when there is nothing. *)
(* [slirp.c:160-174] net_slirp_read *)
Definition net_slirp_read usr w : Z * W :=
  match os_recv (fst (host_to_guest_channel usr)) SLIRP_PKT_MAX w with
  | (Read_again, w) => (0, w)
  | (Read_error, w) => (-1, w)
  | (Read_data pkt, w) => (Z.of_nat (length pkt), slirp_input (us_slirp usr) pkt w)
  end.

(* [slirp.c:176-207] slirp_create *)
Definition slirp_create w : Z * W :=
  let version := if slirp_at_least 4 8 then 6 else if slirp_at_least 4 7 then 4 else 1 in
  let fd00 (last : Z) := [0xfd; 0] ++ replicate 13 0 ++ [last] in
  slirp_new (mk_cfg version false true [10; 0; 2; 0] [255; 255; 255; 0] [10; 0; 2; 2] true (fd00 0)
               [10; 0; 2; 15] [10; 0; 2; 3] (fd00 3) 1500 1500 false) w.

(** [assert(fcntl(...) >= 0)] on both ends of a channel: [false] aborts. *)
(* [slirp.c:219-226] net_slirp_init *)
Definition nonblocking (ch : Z * Z) w : bool * W :=
  let '(ok1, w) := os_fcntl_nonblock (fst ch) w in
  if negb ok1 then (false, w) else os_fcntl_nonblock (snd ch) w.

(** [None] is an abort. *)
(* [slirp.c:209-248] net_slirp_init *)
Definition net_slirp_init usr w : option (Z * net_user_options_t * W) :=
  let '(slirp, w) := slirp_create w in
  let usr := usr <| us_slirp := slirp |> in
  match os_socketpair w with
  | (None, w) => Some (-1, usr, w)
  | (Some g2h, w) =>
    let usr := usr <| guest_to_host_channel := g2h |> in
    let '(ok, w) := nonblocking g2h w in
    if negb ok then None
    else match os_socketpair w with
    | (None, w) => Some (-1, usr, w)
    | (Some h2g, w) =>
      let usr := usr <| host_to_guest_channel := h2g |> in
      let '(ok, w) := nonblocking h2g w in
      if negb ok then None
      else
        let events := Z.lor SLIRP_POLL_IN SLIRP_POLL_HUP in
        let '(_, usr, w) := semu_slirp_add_poll_socket (fst g2h) events usr w in
        let '(_, usr, w) := semu_slirp_add_poll_socket (fst h2g) events usr w in
        Some (0, usr, w)
    end
  end.

(** The result of [net_slirp_init] is not looked at. *)
(* [netdev.c:68-76] net_init_user *)
Definition net_init_user w : option (Z * net_user_options_t * W) :=
  match net_slirp_init zero_user w with None => None | Some (_, usr, w) => Some (0, usr, w) end.

(** The TAP device: the result, which is [false] when it fails, and the descriptor.
    [None] is an abort. *)
(* [netdev.c:43-64] net_init_tap *)
Definition net_init_tap w : option (Z * Z * W) :=
  let '(fd, w) := tap_open w in
  if fd <? 0 then Some (b2z false, fd, w)
  else
    let '(r, w) := tap_setiff fd w in
    if r <? 0 then Some (b2z false, fd, w)
    else let '(ok, w) := os_fcntl_nonblock fd w in if negb ok then None else Some (0, fd, w).

(** ** The run loop *)

(** The library's sockets enter the table one by one; [slirp_pollfds_fill] goes on
    when one is refused. *)
Fixpoint add_sockets (l : list (Z * Z)) usr w : net_user_options_t * W :=
  match l with
  | [] => (usr, w)
  | (fd, events) :: l => let '(_, usr, w) := semu_slirp_add_poll_socket fd events usr w in add_sockets l usr w
  end.

(** [poll] stores [revents] of the first [pfd_len] entries. *)
Fixpoint store_revents (l : list pollfd) (revents : list Z) : list pollfd :=
  match l, revents with
  | p :: l, r :: revents => p <| pfd_revents := r |> :: store_revents l revents
  | _, _ => l
  end.

(** The polling part of a round: the result is whether [virtio_net_recv_from_peer] is
    called. [slirp_pollfds_poll] gets the events of each entry. *)
(* [main.c:1735-1751] semu_run *)
Definition slirp_round usr w : bool * net_user_options_t * W :=
  let usr := usr <| us_pfd_len := 1 |> in
  let '(wanted, w) := slirp_pollfds_fill (us_slirp usr) w in
  let '(usr, w) := add_sockets wanted usr w in
  let '(pollout, revents, w) := os_poll (take (Z.to_nat (us_pfd_len usr)) (us_pfd usr)) w in
  let usr := usr <| us_pfd := store_revents (us_pfd usr) (take (Z.to_nat (us_pfd_len usr)) revents) |> in
  let recv := nz (Z.land (pfd_revents (arr_get zero_pollfd (us_pfd usr) 0)) POLLIN) in
  let answers := (fun i => semu_slirp_get_revents i usr) <$> seqZ 0 (us_pfd_len usr) in
  (recv, usr, slirp_pollfds_poll (us_slirp usr) (pollout <=? 0) answers w).
End Slirp.

(** libslirp.h's event bits, and [realloc] by 16 entries. *)
Class SlirpLaws (W : Type) `{!SlirpHost W} := {
  slirp_bits : (SLIRP_POLL_IN, SLIRP_POLL_OUT, SLIRP_POLL_PRI, SLIRP_POLL_ERR, SLIRP_POLL_HUP) = (1, 2, 4, 8, 16);
  realloc_size : forall w fresh, fst (pfd_realloc w) = Some fresh -> length fresh = 16%nat;
  poll_answers : forall l w, length (snd (fst (os_poll l w))) = length l }.

Section Props.
Context {W : Type} `{HostW : SlirpHost W} {Laws : SlirpLaws W}.
Implicit Types (usr : net_user_options_t) (w : W).

(** ** Event bits *)

(** The system's bits for the library's. *)
Definition slirp_poll_to_poll (events : Z) : Z :=
  bit_if events SLIRP_POLL_HUP POLLHUP (bit_if events SLIRP_POLL_ERR POLLERR
    (bit_if events SLIRP_POLL_PRI POLLPRI (bit_if events SLIRP_POLL_OUT POLLOUT (bit_if events SLIRP_POLL_IN POLLIN 0)))).

(** Only the low five bits matter to the conversion. *)
Lemma bit_if_low events bit out ret : bit ∈ [1; 2; 4; 8; 16] -> bit_if events bit out ret = bit_if (events mod 32) bit out ret.
Proof.
  intros H. unfold bit_if. replace (Z.land (events mod 32) bit) with (Z.land events bit); [done|].
  apply Z.bits_inj'. intros n Hn. rewrite !Z.land_spec. change 32 with (2 ^ 5). rewrite testbit_u by lia.
  destruct (Z.ltb_spec n 5); [done|]. cbn [andb]. rewrite (testbit_small 5 bit n); [by rewrite andb_false_r|lia|].
  rewrite !elem_of_cons, elem_of_nil in H. change (2 ^ 5) with 32. intuition lia.
Qed.

(** A statement on the low five bits holds if it holds of 32 numbers. *)
Lemma low_cases (P : Z -> Prop) : Forall P (seqZ 0 32) -> forall x, P (x mod 32).
Proof.
  intros H x. apply (proj1 (Forall_forall _ _) H), elem_of_seqZ. pose proof (Z.mod_pos_bound x 32). lia.
Qed.

(** The conversion the code uses for the events the library asks for, which is the one
    for the events [poll] reports, is right in this direction too: it exchanges two
    bits and leaves the others. *)
Lemma conversions events : poll_to_slirp_poll events = slirp_poll_to_poll events.
Proof.
  unfold poll_to_slirp_poll, slirp_poll_to_poll, POLLIN, POLLOUT, POLLPRI, POLLERR, POLLHUP. injection slirp_bits as -> -> -> -> ->.
  rewrite !(bit_if_low events) by set_solver. revert events.
  apply (low_cases (fun e => bit_if e 16 16 (bit_if e 8 8 (bit_if e 2 4 (bit_if e 4 2 (bit_if e 1 1 0))))
    = bit_if e 16 16 (bit_if e 8 8 (bit_if e 4 2 (bit_if e 2 4 (bit_if e 1 1 0)))))).
  apply (bool_decide_unpack _). vm_compute. exact I.
Qed.

Lemma conversion_roundtrip events : slirp_poll_to_poll (poll_to_slirp_poll events) = events mod 32.
Proof.
  unfold poll_to_slirp_poll, slirp_poll_to_poll, POLLIN, POLLOUT, POLLPRI, POLLERR, POLLHUP. injection slirp_bits as -> -> -> -> ->.
  rewrite !(bit_if_low events) by set_solver. revert events.
  apply (low_cases (fun e => let x := bit_if e 16 16 (bit_if e 8 8 (bit_if e 2 4 (bit_if e 4 2 (bit_if e 1 1 0)))) in
    bit_if x 16 16 (bit_if x 8 8 (bit_if x 4 2 (bit_if x 2 4 (bit_if x 1 1 0)))) = e)).
  apply (bool_decide_unpack _). vm_compute. exact I.
Qed.

(** ** The table *)

Definition table_ok usr : Prop := 0 <= us_pfd_len usr <= us_pfd_size usr /\ Z.of_nat (length (us_pfd usr)) = us_pfd_size usr.

(** The entries in use, without what [poll] reported. *)
Definition asked usr : list (Z * Z) :=
  (fun p => (pfd_fd p, pfd_events p)) <$> take (Z.to_nat (us_pfd_len usr)) (us_pfd usr).

Definition entry (x : Z * Z) : Z * Z := (fst x, slirp_poll_to_poll (snd x)).

Lemma add_spec fd events usr w : table_ok usr ->
  let '(idx, usr', w') := semu_slirp_add_poll_socket fd events usr w in
  table_ok usr' /\ us_slirp usr' = us_slirp usr /\ us_pfd_size usr <= us_pfd_size usr' /\
  ((idx = us_pfd_len usr /\ us_pfd_len usr' = us_pfd_len usr + 1 /\ asked usr' = asked usr ++ [entry (fd, events)]) \/
   (idx = -1 /\ usr' = usr /\ fst (pfd_realloc w) = None)).
Proof.
  intros [Hl Hs]. unfold semu_slirp_add_poll_socket.
  set (g := if us_pfd_size usr <=? us_pfd_len usr then _ else (usr, w)). destruct g as [usr1 w1] eqn:Eg. subst g.
  assert (G : (us_pfd_len usr1 = us_pfd_len usr /\ us_pfd_len usr < us_pfd_size usr1 /\ us_slirp usr1 = us_slirp usr /\
               us_pfd_size usr <= us_pfd_size usr1 /\
               Z.of_nat (length (us_pfd usr1)) = us_pfd_size usr1 /\ asked usr1 = asked usr) \/
              (usr1 = usr /\ us_pfd_size usr <= us_pfd_len usr /\ fst (pfd_realloc w) = None)).
  { destruct (Z.leb_spec (us_pfd_size usr) (us_pfd_len usr)); [|injection Eg as <- <-; left; split_and!; try done; lia].
    destruct (pfd_realloc w) as [[fresh|] w2] eqn:Er; injection Eg as <- <-; [left|right; by split_and!].
    assert (Hf : length fresh = 16%nat) by (apply (realloc_size w); by rewrite Er).
    cbn. rewrite length_app, Hf. split_and!; try done; try lia. unfold asked. cbn. by rewrite take_app_le by lia. }
  destruct G as [(G1 & G2 & G3 & G4 & G5 & G6)|(-> & G1 & G2)].
  - rewrite G1, (proj2 (Z.ltb_lt _ _) G2). cbn. split_and!; try done; try lia.
    { unfold table_ok. cbn. rewrite length_arr_set. lia. }
    left. split_and!; try done. rewrite <- G6. unfold asked. cbn.
    replace (Z.to_nat (us_pfd_len usr + 1)) with (S (Z.to_nat (us_pfd_len usr))) by lia.
    set (k := Z.to_nat (us_pfd_len usr)). unfold arr_set. fold k. rewrite G1. fold k.
    erewrite take_S_r by (apply list_lookup_insert_eq; lia). rewrite fmap_app, take_insert_ge by lia. cbn.
    unfold entry. cbn. by rewrite conversions.
  - rewrite (proj2 (Z.ltb_ge _ _) G1). split_and!; try done; try lia. right. by split_and!.
Qed.

Definition memory_enough : Prop := forall w, is_Some (fst (pfd_realloc w)).

Lemma add_all_spec l : forall usr w, table_ok usr ->
  let '(usr', w') := add_sockets l usr w in
  table_ok usr' /\ us_slirp usr' = us_slirp usr /\ us_pfd_len usr <= us_pfd_len usr' /\ us_pfd_size usr <= us_pfd_size usr' /\
  exists kept, kept `sublist_of` l /\ asked usr' = asked usr ++ (entry <$> kept) /\ (memory_enough -> kept = l).
Proof.
  induction l as [|[fd events] l IH]; intros usr w H; cbn [add_sockets].
  - split_and!; try done; try lia. exists []. by rewrite app_nil_r.
  - pose proof (add_spec fd events usr w H) as A. destruct (semu_slirp_add_poll_socket fd events usr w) as [[idx usr1] w1].
    destruct A as (A1 & A2 & A3 & A4). specialize (IH usr1 w1 A1). destruct (add_sockets l usr1 w1) as [usr2 w2].
    destruct IH as (B1 & B2 & B3 & B4 & kept & B5 & B6 & B7).
    destruct A4 as [(-> & A5 & A6)|(_ & -> & A5)].
    + split_and!; try done; try congruence; try lia. exists ((fd, events) :: kept). split_and!.
      * by apply sublist_skip.
      * by rewrite B6, A6, <- app_assoc.
      * intros M. by rewrite B7.
    + split_and!; try done. exists kept. split_and!; try done; [by apply sublist_cons|].
      intros M. destruct (M w) as [x Hx]. congruence.
Qed.

(** ** The state between rounds *)

(** The read side [fd] of the channel is the first entry. *)
Record slirp_inv (fd : Z) usr : Prop := {
  si_table : table_ok usr;
  si_len : 1 <= us_pfd_len usr;
  si_first : take 1 (asked usr) = [entry (fd, Z.lor SLIRP_POLL_IN SLIRP_POLL_HUP)] }.

Lemma asked_one usr : 1 <= us_pfd_len usr -> asked (usr <| us_pfd_len := 1 |>) = take 1 (asked usr).
Proof.
  intros H. unfold asked. rewrite <- fmap_take, take_take. replace (1 `min` Z.to_nat (us_pfd_len usr))%nat with 1%nat by lia. done.
Qed.

Lemma asked_store usr l : asked (usr <| us_pfd := store_revents (us_pfd usr) l |>) = asked usr.
Proof.
  unfold asked. cbn. generalize (Z.to_nat (us_pfd_len usr)) as k. generalize (us_pfd usr). intros ps k. revert l k.
  induction ps as [|p ps IH]; intros [|r l] [|k]; try done. cbn. by rewrite IH.
Qed.

Lemma length_store ps : forall l, length (store_revents ps l) = length ps.
Proof. induction ps as [|p ps IH]; intros [|r l]; try done. cbn. by rewrite IH. Qed.

Lemma revents_store ps : forall l i, (length l <= length ps)%nat -> (i < length l)%nat ->
  pfd_revents (default zero_pollfd (store_revents ps l !! i)) = default 0 (l !! i).
Proof. induction ps as [|p ps IH]; intros [|r l] [|i] H1 H2; cbn in *; try lia; try done. apply IH; lia. Qed.

(** A round polls the first entry and what the library wants, for the events it
    wants; the library is told what [poll] reported, in its own bits. *)
Lemma round_spec fd usr w : slirp_inv fd usr ->
  let '(recv, usr', w') := slirp_round usr w in
  slirp_inv fd usr' /\ us_slirp usr' = us_slirp usr /\
  exists kept ps n revents w1 w2, kept `sublist_of` fst (slirp_pollfds_fill (us_slirp usr) w) /\
    (memory_enough -> kept = fst (slirp_pollfds_fill (us_slirp usr) w)) /\
    (fun p => (pfd_fd p, pfd_events p)) <$> ps = entry (fd, Z.lor SLIRP_POLL_IN SLIRP_POLL_HUP) :: (entry <$> kept) /\
    os_poll ps w1 = (n, revents, w2) /\ recv = nz (Z.land (default 0 (head revents)) POLLIN) /\
    w' = slirp_pollfds_poll (us_slirp usr) (n <=? 0) (poll_to_slirp_poll <$> revents) w2.
Proof.
  intros [[Hl Hs] H1 Hf]. unfold slirp_round. set (usr0 := usr <| us_pfd_len := 1 |>).
  assert (T0 : table_ok usr0) by (unfold table_ok; cbn; lia).
  assert (A0 : asked usr0 = [entry (fd, Z.lor SLIRP_POLL_IN SLIRP_POLL_HUP)]) by (unfold usr0; by rewrite asked_one).
  change (us_slirp usr0) with (us_slirp usr). destruct (slirp_pollfds_fill (us_slirp usr) w) as [wanted w0]. cbn [fst].
  pose proof (add_all_spec wanted usr0 w0 T0) as B. destruct (add_sockets wanted usr0 w0) as [usr1 w1].
  destruct B as ([B1 B1'] & B2 & B3 & _ & kept & B4 & B5 & B6). cbn in B2, B3. set (ps := take _ (us_pfd usr1)).
  pose proof (poll_answers ps w1) as L. destruct (os_poll ps w1) as [[n revents] w2] eqn:Ep. cbn [fst snd] in L.
  assert (Lp : length ps = Z.to_nat (us_pfd_len usr1)) by (unfold ps; rewrite length_take; lia).
  rewrite <- Lp, <- L, firstn_all. set (usr2 := usr1 <| us_pfd := _ |>).
  assert (A2 : asked usr2 = entry (fd, Z.lor SLIRP_POLL_IN SLIRP_POLL_HUP) :: (entry <$> kept)).
  { unfold usr2. rewrite asked_store, B5, A0. done. }
  assert (G : forall i, (i < length revents)%nat ->
    pfd_revents (arr_get zero_pollfd (us_pfd usr2) (Z.of_nat i)) = default 0 (revents !! i)).
  { intros i Hi. unfold arr_get. rewrite Nat2Z.id. apply revents_store; [lia|done]. }
  split; [|split; [exact B2|]].
  - split; [unfold table_ok; cbn; rewrite length_store; lia|cbn; lia|by rewrite A2].
  - exists kept, ps, n, revents, w1, w2. split_and!; try done.
    + rewrite <- A2. unfold usr2. by rewrite asked_store.
    + specialize (G 0%nat ltac:(lia)). change (Z.of_nat 0) with 0 in G. rewrite G. by destruct revents.
    + change (us_slirp usr2) with (us_slirp usr1). rewrite B2. f_equal. change (us_pfd_len usr2) with (us_pfd_len usr1). unfold seqZ. rewrite <- Lp, <- L, <- list_fmap_compose.
      apply list_eq. intros i. rewrite !list_lookup_fmap. destruct (decide (i < length revents)%nat) as [Hi|Hi].
      * rewrite lookup_seq_lt by done. cbn. rewrite Z.add_0_r. unfold semu_slirp_get_revents. rewrite G by done.
        by destruct (lookup_lt_is_Some_2 revents i Hi) as [x ->].
      * by rewrite lookup_seq_ge, (proj2 (lookup_ge_None revents i)) by lia.
Qed.

(** Adding leaves the channels and timers. *)
Lemma add_channels fd events usr w :
  let usr' := snd (fst (semu_slirp_add_poll_socket fd events usr w)) in
  guest_to_host_channel usr' = guest_to_host_channel usr /\ us_timers usr' = us_timers usr.
Proof.
  unfold semu_slirp_add_poll_socket. destruct (us_pfd_size usr <=? us_pfd_len usr); [destruct (pfd_realloc w) as [[fresh|] w1]|];
    cbv zeta; by destruct (_ <? _).
Qed.

(** Initialisation, when both channels could be made and entered into the table. *)
Lemma slirp_init_inv w usr w' : net_slirp_init zero_user w = Some (0, usr, w') -> us_pfd_len usr = 2 ->
  slirp_inv (fst (guest_to_host_channel usr)) usr.
Proof.
  unfold net_slirp_init. destruct (slirp_create w) as [h w1]. destruct (os_socketpair w1) as [[g|] w2]; [|done].
  destruct (nonblocking g w2) as [[] w3]; [|done]. destruct (os_socketpair w3) as [[g2|] w4]; [|done].
  destruct (nonblocking g2 w4) as [[] w5]; [|done]. cbn [negb]. set (usr0 := zero_user <| us_slirp := h |> <| guest_to_host_channel := g |> <| host_to_guest_channel := g2 |>).
  set (ev := Z.lor SLIRP_POLL_IN SLIRP_POLL_HUP). assert (T0 : table_ok usr0) by (unfold table_ok; cbn; lia).
  pose proof (add_spec (fst g) ev usr0 w5 T0) as A. pose proof (add_channels (fst g) ev usr0 w5) as C.
  destruct (semu_slirp_add_poll_socket (fst g) ev usr0 w5) as [[i1 usr1] w6]. destruct A as (A1 & _ & _ & A4).
  pose proof (add_spec (fst g2) ev usr1 w6 A1) as B. pose proof (add_channels (fst g2) ev usr1 w6) as C2.
  destruct (semu_slirp_add_poll_socket (fst g2) ev usr1 w6) as [[i2 usr2] w7]. destruct B as (B1 & _ & _ & B4).
  intros [= <- <-] Hs. cbn [fst snd] in C, C2. rewrite (proj1 C2), (proj1 C). change (guest_to_host_channel usr0) with g.
  destruct A4 as [(_ & A5 & A6)|(_ & -> & A5)]; destruct B4 as [(_ & B5 & B6)|(_ & -> & B6)]; change (us_pfd_len usr0) with 0 in *.
  - split; [done|lia|]. by rewrite B6, A6.
  - split; [done|lia|]. by rewrite A6.
  - lia.
  - lia.
Qed.

Section Steps.
Context {E : Type} `{HostE : Host E}.
Implicit Types s : machine (emu_state_t E).

(** What can happen to the options of a running back end: a round of the loop, and
    any callback of the library. *)
Inductive slirp_step usr : net_user_options_t -> Prop :=
  | step_round w : slirp_step usr (snd (fst (slirp_round usr w)))
  | step_add fd events w : slirp_step usr (snd (fst (semu_slirp_add_poll_socket fd events usr w)))
  | step_clock s : slirp_step usr (snd (fst (net_slirp_clock_get_ns usr s)))
  | step_timer_new id cb_opaque s w : slirp_step usr (snd (fst (fst (net_slirp_timer_new_opaque id cb_opaque usr s w))))
  | step_timer_mod timer expire s : slirp_step usr (fst (net_slirp_timer_mod timer expire usr s))
  | step_timer_free timer : slirp_step usr (net_slirp_timer_free timer usr).

(** [usr'] differs in timers only. *)
Lemma slirp_inv_table fd usr usr' : us_pfd usr' = us_pfd usr -> us_pfd_len usr' = us_pfd_len usr ->
  us_pfd_size usr' = us_pfd_size usr -> slirp_inv fd usr -> slirp_inv fd usr'.
Proof. intros E1 E2 E3 [T L F]. unfold table_ok, asked in *. split; unfold table_ok, asked; by rewrite ?E1, ?E2, ?E3. Qed.

Lemma slirp_step_inv fd usr usr' : slirp_step usr usr' -> slirp_inv fd usr -> slirp_inv fd usr'.
Proof.
  intros H I. destruct H as [w|f ev w|s|id op s w|tm ex s|tm].
  - pose proof (round_spec fd usr w I) as R. destruct (slirp_round usr w) as [[? ?] ?]. apply R.
  - pose proof (add_spec f ev usr w (si_table _ _ I)) as A. destruct (semu_slirp_add_poll_socket f ev usr w) as [[i u] w'].
    destruct A as (A1 & _ & _ & [(_ & A2 & A3)|(_ & -> & _)]); [|done]. destruct I as [T L F].
    split; cbn; [done|lia|]. rewrite A3, take_app_le; [done|]. destruct (asked usr); [done|cbn; lia].
  - unfold net_slirp_clock_get_ns. repeat case_match; [done|]. by eapply slirp_inv_table; [..|exact I].
  - unfold net_slirp_timer_new_opaque. repeat case_match; by eapply slirp_inv_table; [..|exact I].
  - unfold net_slirp_timer_mod. repeat case_match; by eapply slirp_inv_table; [..|exact I].
  - unfold net_slirp_timer_free. case_match; by eapply slirp_inv_table; [..|exact I].
Qed.

(** C25: The user-mode network polls what SLIRP asked for: once both channels are
    registered, whatever rounds and callbacks have happened, the table of sockets is
    never overrun; a round polls virtio-net's channel first and then the sockets the
    library wants, in order (all of them while memory lasts), each for the events it
    asked for, wakes virtio-net exactly when the channel is readable and answers the
    library with the reported events in its own bits, a conversion that loses
    nothing. *)
Theorem slirp_polls_wanted w0 usr0 w0' usr w : net_slirp_init zero_user w0 = Some (0, usr0, w0') -> us_pfd_len usr0 = 2 ->
  rtc slirp_step usr0 usr ->
  table_ok usr /\
  (let '(recv, usr', w') := slirp_round usr w in
   exists kept ps n revents w1 w2, kept `sublist_of` fst (slirp_pollfds_fill (us_slirp usr) w) /\
     (memory_enough -> kept = fst (slirp_pollfds_fill (us_slirp usr) w)) /\
     (fun p => (pfd_fd p, pfd_events p)) <$> ps
       = (fst (guest_to_host_channel usr0), Z.lor POLLIN POLLHUP) :: (entry <$> kept) /\
     os_poll ps w1 = (n, revents, w2) /\ recv = nz (Z.land (default 0 (head revents)) POLLIN) /\
     w' = slirp_pollfds_poll (us_slirp usr) (n <=? 0) (poll_to_slirp_poll <$> revents) w2) /\
  (forall events, slirp_poll_to_poll (poll_to_slirp_poll events) = events mod 32).
Proof.
  intros E0 H0 R. assert (I : slirp_inv (fst (guest_to_host_channel usr0)) usr).
  { pose proof (slirp_init_inv _ _ _ E0 H0) as I. clear E0 H0. revert I. generalize (fst (guest_to_host_channel usr0)). intros fd I.
    induction R; eauto using slirp_step_inv. }
  split; [apply I|]. split; [|apply conversion_roundtrip].
  pose proof (round_spec _ usr w I) as P. destruct (slirp_round usr w) as [[recv usr'] w'].
  destruct P as (_ & _ & kept & ps & n & rev & w1 & w2 & P1 & P2 & P3 & P4). exists kept, ps, n, rev, w1, w2.
  split; [exact P1|]. split; [exact P2|]. split; [|exact P4]. rewrite P3. f_equal. unfold entry. cbn. f_equal.
  unfold slirp_poll_to_poll, POLLIN, POLLOUT, POLLPRI, POLLERR, POLLHUP. injection slirp_bits as -> -> -> -> ->. done.
Qed.

(** Arming a timer moves the library's clock: right after [net_slirp_timer_mod] the
    clock that [net_slirp_clock_get_ns] reads shows the expiry time itself, advanced
    by the ticks since. *)
Lemma timer_mod_moves_clock usr s t expire : us_timers usr !! us_timer usr = Some t ->
  let '(usr', s') := net_slirp_timer_mod (us_timer usr) expire usr s in
  exists elapsed, fst (fst (net_slirp_clock_get_ns usr' s')) = s64 (u64 (u64 expire + elapsed)).
Proof.
  intros Et. unfold net_slirp_timer_mod. rewrite Et. pose proof (timer_rebase_get (st_timer t) (u64 expire) s) as G.
  revert G. cbv zeta. destruct (semu_timer_rebase (st_timer t) (u64 expire) s) as [tm s']. intros G.
  unfold net_slirp_clock_get_ns.
  assert (El : us_timers (usr <| us_timers := <[us_timer usr := t <| st_timer := tm |>]> (us_timers usr) |>)
    !! us_timer (usr <| us_timers := <[us_timer usr := t <| st_timer := tm |>]> (us_timers usr) |>) = Some (t <| st_timer := tm |>))
    by apply lookup_insert_eq.
  rewrite El. cbn [st_timer].
  change (st_timer (t <| st_timer := tm |>)) with tm. eexists. rewrite <- G. by destruct (semu_timer_get tm s').
Qed.
End Steps.
End Props.
