(* ===== verification/Full.v ===== *)
(** * The platform with every device (main.c)

    [Platform] is the memory map of the build with the disk and the entropy source.
    This file has the build with every feature: virtio-net, virtio-snd, virtio-fs,
    the two virtio-input devices and virtio-gpu are attached to the bus too. The
    state of a device is a component of [full_dev]; [zoom] runs an operation of a
    device, which is modelled on a machine of its own, on the machine that has all of
    them, so the devices share the processor and guest RAM and nothing else. Each
    device has the part of the host it talks to. *)

From stdpp Require Import base gmap list.
From Stdlib Require Import ZArith Lia Bool.
From S2P Require Import Prelude Isa Hart Machine Loops Device Timer Plic Aclint Uart.
From S2P Require Import Virtio VirtioBlk VirtioRng Platform InputEvent VirtioInput VgpuDisplay GpuDefs VirtioGpuSw VirtioGpu.
From S2P Require Import VirtioFs VirtioSnd VirtioNet.
Open Scope Z_scope.

(* [device.h:92-93] *)
Definition IRQ_VNET_BIT := Z.shiftl 1 2.
(* [device.h:444-445] *)
Definition IRQ_VSND_BIT := Z.shiftl 1 5.
(* [device.h:491-492] *)
Definition IRQ_VFS_BIT := Z.shiftl 1 6.
(* [device.h:239-243] *)
Definition IRQ_VINPUT_KEYBOARD_BIT := Z.shiftl 1 7.
Definition IRQ_VINPUT_MOUSE_BIT := Z.shiftl 1 8.
(* [device.h:300-301] *)
Definition IRQ_VGPU_BIT := Z.shiftl 1 9.

(** An operation of one device on a machine with several. *)
Section Zoom.
Context {D F : Type} (get : F -> D) (put : D -> F -> F).

Definition retype (d : D) (s : machine F) : machine D :=
  mk_machine (hart s) (peers s) (ram s) (ram_ptr s) (ram_oob s) (boot_complete s) (stack_junk s) d.
Definition narrow (s : machine F) : machine D := retype (get (dev s)) s.
Definition widen (s : machine F) (m : machine D) : machine F :=
  mk_machine (hart m) (peers m) (ram m) (ram_ptr m) (ram_oob m) (boot_complete m) (stack_junk m) (put (dev m) (dev s)).

Definition zoom (f : machine D -> machine D) (s : machine F) : machine F := widen s (f (narrow s)).
Definition zoomr {A} (f : machine D -> A * machine D) (s : machine F) : A * machine F :=
  let '(a, m) := f (narrow s) in (a, widen s m).
Definition zoomo (f : machine D -> option (machine D)) (s : machine F) : option (machine F) :=
  widen s <$> f (narrow s).
End Zoom.

(** The devices of [emu_state_t] the basic build has, and the others. *)
(* [device.h:553-609] emu_state_t *)
Record full_dev (E N S F G : Type) := mk_full {
  f_emu : emu_state_t E; f_net : net_dev N; f_snd : snd_dev S; f_fs : fs_dev F; f_input : input_dev; f_gpu : gpu_dev G }.
Arguments mk_full {E N S F G}.
Arguments f_emu {E N S F G}. Arguments f_net {E N S F G}. Arguments f_snd {E N S F G}.
Arguments f_fs {E N S F G}. Arguments f_input {E N S F G}. Arguments f_gpu {E N S F G}.

Section Full.
Context {E N S F G : Type} `{HostE : Host E} {CoroE : Coro E} `{NetN : NetHost N} `{SndS : SndHost S}
  `{FsF : FsHost F} `{GpuG : GpuHost G}.
Abbreviation M := (machine (full_dev E N S F G)).
Implicit Types (s : M) (d : full_dev E N S F G).

#[export] Instance eta_full : Eta (full_dev E N S F G) := fun r =>
  mk_full (f_emu r) (f_net r) (f_snd r) (f_fs r) (f_input r) (f_gpu r).
#[export] Instance set_f_emu : Setter (@f_emu E N S F G) := ltac:(solve_setter).
#[export] Instance set_f_net : Setter (@f_net E N S F G) := ltac:(solve_setter).
#[export] Instance set_f_snd : Setter (@f_snd E N S F G) := ltac:(solve_setter).
#[export] Instance set_f_fs : Setter (@f_fs E N S F G) := ltac:(solve_setter).
#[export] Instance set_f_input : Setter (@f_input E N S F G) := ltac:(solve_setter).
#[export] Instance set_f_gpu : Setter (@f_gpu E N S F G) := ltac:(solve_setter).

Definition put_emu (x : emu_state_t E) d := d <| f_emu := x |>.
Definition put_net (x : net_dev N) d := d <| f_net := x |>.
Definition put_snd (x : snd_dev S) d := d <| f_snd := x |>.
Definition put_fs (x : fs_dev F) d := d <| f_fs := x |>.
Definition put_input (x : input_dev) d := d <| f_input := x |>.
Definition put_gpu (x : gpu_dev G) d := d <| f_gpu := x |>.

Definition at_emu : (machine (emu_state_t E) -> machine (emu_state_t E)) -> M -> M := zoom f_emu put_emu.
Definition at_emur {A} : (machine (emu_state_t E) -> A * machine (emu_state_t E)) -> M -> A * M := zoomr f_emu put_emu.

(** [if (cond) active |= bit; else active &= ~bit; plic_update_interrupts(...);] *)
Definition drive_line (cond : bool) (bit : Z) s : M :=
  at_emu (fun m => plic_update_interrupts (set_line cond bit m)) s.

(** ** Interrupt lines *)

Definition vnet_irq d : bool := nz (InterruptStatus (vn_regs (vnet (f_net d)))).
Definition vsnd_irq d : bool := nz (InterruptStatus (vsnd_regs (f_snd d))).
Definition vfs_irq d : bool := nz (InterruptStatus (vfs_regs (f_fs d))).
Definition vgpu_irq d : bool := nz (InterruptStatus (vgpu (f_gpu d))).
Definition vblk_irq d : bool := nz (InterruptStatus (vblk_regs (vblk (f_emu d)))).
Definition vrng_irq d : bool := nz (InterruptStatus (vrng (f_emu d))).

(** [virtio_input_irq_pending] on the device [v]: the keyboard, the mouse. *)
Definition vinput_irq (v : Z) s : bool := virtio_input_irq_pending v (narrow f_input s).

(* [main.c:91-99] emu_update_vnet_interrupts *)
Definition emu_update_vnet_interrupts s : M := drive_line (vnet_irq (dev s)) IRQ_VNET_BIT s.
(* [main.c:127-135] emu_update_vinput_keyboard_interrupts *)
Definition emu_update_vinput_keyboard_interrupts s : M :=
  drive_line (vinput_irq VINPUT_KEYBOARD_ID s) IRQ_VINPUT_KEYBOARD_BIT s.
(* [main.c:137-145] emu_update_vinput_mouse_interrupts *)
Definition emu_update_vinput_mouse_interrupts s : M :=
  drive_line (vinput_irq VINPUT_MOUSE_ID s) IRQ_VINPUT_MOUSE_BIT s.
(* [main.c:149-157] emu_update_vgpu_interrupts *)
Definition emu_update_vgpu_interrupts s : M := drive_line (vgpu_irq (dev s)) IRQ_VGPU_BIT s.
(* [main.c:177-185] emu_update_vsnd_interrupts *)
Definition emu_update_vsnd_interrupts s : M := drive_line (vsnd_irq (dev s)) IRQ_VSND_BIT s.
(* [main.c:189-197] emu_update_vfs_interrupts *)
Definition emu_update_vfs_interrupts s : M := drive_line (vfs_irq (dev s)) IRQ_VFS_BIT s.

(** ** Polling *)

(** [None]: a chain of virtio-net that does not end within [fuel] descriptors. *)
(* [main.c:219-276] emu_tick_peripherals *)
Definition full_tick_peripherals (fuel : nat) s : option M :=
  let ctr := peripheral_update_ctr (f_emu (dev s)) in
  let s := at_emu (on_dev (fun d : emu_state_t E => d <| peripheral_update_ctr := u32 (ctr - 1) |>)) s in
  if ctr =? 0 then
    let s := at_emu (on_dev (fun d : emu_state_t E => d <| peripheral_update_ctr := 64 |>)) s in
    let s := at_emu u8250_check_ready s in
    let s := at_emu u8250_flush_out s in
    let s := if in_ready (uart (f_emu (dev s))) then at_emu emu_update_uart_interrupts s else s in
    s ← zoomo f_net put_net (virtio_net_refresh_queue fuel) s;
    let s := if vnet_irq (dev s) then emu_update_vnet_interrupts s else s in
    let s := if vblk_irq (dev s) then at_emu emu_update_vblk_interrupts s else s in
    let s := if vrng_irq (dev s) then at_emu emu_update_vrng_interrupts s else s in
    let s := if vsnd_irq (dev s) then emu_update_vsnd_interrupts s else s in
    let s := if vfs_irq (dev s) then emu_update_vfs_interrupts s else s in
    s ← (if vinput_may_have_pending_cmds (vhost (f_input (dev s)))
         then zoomo f_input put_input virtio_input_drain_host_events s else Some s);
    let s := if vinput_irq VINPUT_KEYBOARD_ID s then emu_update_vinput_keyboard_interrupts s else s in
    let s := if vinput_irq VINPUT_MOUSE_ID s then emu_update_vinput_mouse_interrupts s else s in
    Some (if window_is_closed_sw (vhost (f_input (dev s)))
          then at_emu (on_dev (fun d : emu_state_t E => d <| stopped := true |>)) s else s)
  else Some s.

(** ** The memory map *)

(* [main.c:297-300] mem_load *)
Definition uart_load (offset width : Z) s : option Z * M :=
  let '(v, s) := at_emur (u8250_read offset width) s in (v, at_emu emu_update_uart_interrupts s).

(* [main.c:278-356] mem_load *)
Definition full_mem_load (addr width : Z) s : option Z * M :=
  if addr <? RAM_SIZE then ram_read addr width s
  else
    let bad := (None, raise RV_EXC_LOAD_FAULT (exc_val (hart s)) s) in
    let offset := Z.land addr 0xFFFFF in
    if Z.shiftr addr 28 =? 0xF then
      match mmio_region addr with
      | 0x0 | 0x2 => at_emur (plic_read (Z.land addr 0x3FFFFFF) width) s
      | 0x40 => uart_load offset width s
      | 0x41 => zoomr f_net put_net (virtio_net_read offset width) s
      | 0x42 => at_emur (virtio_blk_read offset width) s
      | 0x43 => at_emur (aclint_mtimer_read offset width) s
      | 0x44 => at_emur (aclint_mswi_read offset width) s
      | 0x45 => at_emur (aclint_sswi_read offset width) s
      | 0x46 => at_emur (virtio_rng_read offset width) s
      | 0x47 => zoomr f_snd put_snd (virtio_snd_read offset width) s
      | 0x48 => zoomr f_fs put_fs (virtio_fs_read offset width) s
      | 0x49 => zoomr f_input put_input (virtio_input_read VINPUT_KEYBOARD_ID offset width) s
      | 0x4A => zoomr f_input put_input (virtio_input_read VINPUT_MOUSE_ID offset width) s
      | 0x4B => zoomr f_gpu put_gpu (virtio_gpu_read offset width) s
      | _ => bad
      end
    else bad.

(** [None] as in [full_tick_peripherals]. *)
(* [main.c:358-449] mem_store *)
Definition full_mem_store (fuel : nat) (addr width value : Z) s : option M :=
  if addr <? RAM_SIZE then Some (ram_write addr width value s)
  else
    let bad := Some (raise RV_EXC_STORE_FAULT (exc_val (hart s)) s) in
    let offset := Z.land addr 0xFFFFF in
    if Z.shiftr addr 28 =? 0xF then
      match mmio_region addr with
      | 0x0 | 0x2 => Some (at_emu (fun m => plic_update_interrupts (plic_write (Z.land addr 0x3FFFFFF) width value m)) s)
      | 0x40 => Some (at_emu (fun m => emu_update_uart_interrupts (u8250_write offset width value m)) s)
      | 0x41 => emu_update_vnet_interrupts <$> zoomo f_net put_net (virtio_net_write fuel offset width value) s
      | 0x42 => Some (at_emu (fun m => emu_update_vblk_interrupts (virtio_blk_write offset width value m)) s)
      | 0x43 => Some (at_emu (fun m => aclint_mtimer_update_interrupts (aclint_mtimer_write offset width value m)) s)
      | 0x44 => Some (at_emu (fun m => aclint_mswi_update_interrupts (aclint_mswi_write offset width value m)) s)
      | 0x45 => Some (at_emu (fun m => aclint_sswi_update_interrupts (aclint_sswi_write offset width value m)) s)
      | 0x46 => Some (at_emu (fun m => emu_update_vrng_interrupts (virtio_rng_write offset width value m)) s)
      | 0x47 => Some (emu_update_vsnd_interrupts (zoom f_snd put_snd (virtio_snd_write offset width value) s))
      | 0x48 => Some (emu_update_vfs_interrupts (zoom f_fs put_fs (virtio_fs_write offset width value) s))
      | 0x49 => Some (emu_update_vinput_keyboard_interrupts
                        (zoom f_input put_input (virtio_input_write VINPUT_KEYBOARD_ID offset width value) s))
      | 0x4A => Some (emu_update_vinput_mouse_interrupts
                        (zoom f_input put_input (virtio_input_write VINPUT_MOUSE_ID offset width value) s))
      | 0x4B => Some (emu_update_vgpu_interrupts (zoom f_gpu put_gpu (virtio_gpu_write offset width value) s))
      | _ => bad
      end
    else bad.
End Full.
