(* ===== verification/FullProps.v ===== *)
(** * Interrupt wiring of the whole platform

    A device's interrupt line is the bit of [plic.active] that main.c sets and clears
    from the device's [InterruptStatus]. Here: in every state the processor and the
    poll can reach, the lines agree with the devices. *)

From stdpp Require Import base gmap list relations.
From Stdlib Require Import ZArith Lia Bool.
From S2P Require Import Prelude Isa Hart Machine Loops Device Timer Plic Aclint Uart Virtio VirtioBlk VirtioRng VirtioProps.
From S2P Require Import DmaProps Platform PlatformLaws InputEvent VirtioInput VgpuDisplay GpuDefs VirtioGpuSw VirtioGpu.
From S2P Require Import VirtioFs VirtioSnd VirtioNet Full.
Open Scope Z_scope.

Lemma nz_lor x y : nz x = true -> nz (Z.lor x y) = true.
Proof. rewrite !nz_spec. intros Hx [H _]%Z.lor_eq_0_iff. done. Qed.

(** ** Interrupts are only raised *)

Section Rises.
Context {D : Type} (irq : D -> bool).
Implicit Types s : machine D.

(** From [s] to [s'] the interrupt does not go away. *)
Definition rises s s' : Prop := irq (dev s) = true -> irq (dev s') = true.

Lemma rises_refl s : rises s s.
Proof. by unfold rises. Qed.
Lemma rises_trans s1 s2 s3 : rises s1 s2 -> rises s2 s3 -> rises s1 s3.
Proof. unfold rises. auto. Qed.
Lemma rises_dev s s' : dev s' = dev s -> rises s s'.
Proof. unfold rises. by intros ->. Qed.
Lemma rises_same s s' : irq (dev s') = irq (dev s) -> rises s s'.
Proof. unfold rises. by intros ->. Qed.
End Rises.
#[export] Hint Resolve rises_refl : core.

(** ** virtio-net *)

Section Net.
Context {N : Type} `{NetN : NetHost N}.
Implicit Types s : machine (net_dev N).

Definition nirq (d : net_dev N) : bool := nz (InterruptStatus (vn_regs (vnet d))).
Abbreviation up := (rises nirq).

Lemma net_fail_up s : up s (on_nregs virtio_net_set_fail s).
Proof. unfold rises, on_nregs, on_vnet, nirq, virtio_net_set_fail. cbn. intros H. case_match; [by apply nz_lor|done]. Qed.

Lemma dev_iov_scatter vecs : forall bytes s, dev (iov_scatter vecs bytes s) = dev s.
Proof. induction vecs as [|v vecs IH]; intros bytes s; [done|]. cbn [iov_scatter]. by rewrite IH, dev_dma_write. Qed.

Lemma dev_iov_gather vecs : forall s, dev (snd (iov_gather vecs s)) = dev s.
Proof.
  induction vecs as [|v vecs IH]; intros s; [done|]. cbn [iov_gather dma_read]. specialize (IH (touch (iov_base v) (Z.of_nat (Z.to_nat (iov_len v))) s)).
  destruct (iov_gather vecs _) as [more s']. cbn in *. by rewrite IH, dev_touch.
Qed.

Lemma dev_iovec_write vecs : forall src s, dev (snd (vnet_iovec_write vecs src s)) = dev s.
Proof.
  induction vecs as [|v vecs IH]; intros [|b src] s; [done..|]. cbn [vnet_iovec_write].
  case_match; [rewrite IH|cbn [snd]]; apply dev_dma_write.
Qed.

Lemma dev_iovec_read vecs : forall n s, dev (snd (vnet_iovec_read vecs n s)) = dev s.
Proof.
  induction vecs as [|v vecs IH]; intros n s; [done|]. cbn [vnet_iovec_read dma_read].
  case_match; [done|]. case_match; [apply dev_touch|].
  specialize (IH (n - iov_len v) (touch (iov_base v) (Z.of_nat (Z.to_nat (iov_len v))) s)).
  destruct (vnet_iovec_read vecs _ _) as [[[f r] m] s']. cbn in *. by rewrite IH, dev_touch.
Qed.

Lemma dev_iterate fuel : forall checked w q i s r s', iterate_buffer fuel checked w q i s = Some (r, s') -> dev s' = dev s.
Proof.
  induction fuel as [|fuel IH]; intros checked w q i s r s'; [done|]. cbn [iterate_buffer read_desc].
  case_match; [by intros [= <- <-]|]. case_match; [intros [= <- <-]; apply dev_touch|].
  case_match; [intros [= <- <-]; apply dev_touch|].
  destruct (iterate_buffer fuel _ _ _ _ _) as [[[vecs|] s1]|] eqn:E; [| |done]; apply IH in E; rewrite dev_touch in E;
    by intros [= <- <-].
Qed.

Lemma buffer_to_iov_dev fuel w q i s r s' : buffer_to_iov fuel w q i s = Some (r, s') -> dev s' = dev s.
Proof.
  unfold buffer_to_iov. destruct (iterate_buffer fuel true w q i s) as [[[vecs|] s1]|] eqn:E; [| |done];
    apply dev_iterate in E; [intros H%dev_iterate; congruence|by intros [= <- <-]].
Qed.

Lemma transfer_up READ qi vecs s : up s (snd (vnet_transfer READ qi vecs s)).
Proof.
  unfold vnet_transfer. destruct READ.
  - pose proof (dev_iovec_write vecs rx_header s) as E. destruct (vnet_iovec_write vecs rx_header s) as [[b v] s1].
    cbn in E. unfold handle_read, with_host. apply (rises_trans _ _ s1); [by apply rises_dev|].
    destruct (net_readv _ _ _) as [[bytes| |] e]; cbn [snd]; unfold rises; rewrite ?dev_iov_scatter; done.
  - pose proof (dev_iovec_read vecs VNET_HEADER_SIZE s) as E.
    destruct (vnet_iovec_read vecs VNET_HEADER_SIZE s) as [[[b v] bs] s1]. cbn in E.
    unfold handle_write, with_host. apply (rises_trans _ _ s1); [by apply rises_dev|].
    pose proof (dev_iov_gather v s1) as E2. destruct (iov_gather v s1) as [bytes s2]. cbn in E2.
    apply (rises_trans _ _ s2); [by apply rises_dev|].
    destruct (net_writev _ _ _) as [[n| |] e]; destruct (peer_type (vnet (dev s1))); by apply rises_same.
Qed.

Lemma process_up rounds fuel READ qi new_avail : forall new_used s r s',
  vnet_process rounds fuel READ qi new_avail new_used s = Some (r, s') -> up s s'.
Proof.
  induction rounds as [|rounds IH]; intros new_used s r s'; cbn [vnet_process]; [by intros [= <- <-]|].
  case_match; [by intros [= <- <-]|]. case_match; [intros [= <- <-]; by apply rises_same|].
  pose proof (dev_avail_entry (nq s qi) (u16 (last_avail (nq s qi) mod QueueNum (nq s qi))) s) as E1.
  destruct (avail_entry _ _ s) as [bi s1]. cbn in E1.
  destruct (buffer_to_iov fuel READ (nq s qi) bi s1) as [[[vecs|] s2]|] eqn:E2; [| |done]; apply buffer_to_iov_dev in E2;
    (assert (U2 : up s s2) by (apply rises_dev; congruence)).
  - pose proof (transfer_up READ qi vecs s2) as U3. destruct (vnet_transfer READ qi vecs s2) as [plen s3]. cbn in U3.
    assert (U4 : up s s3) by (by eapply rises_trans). case_match; [by intros [= <- <-]|].
    intros U5%IH. eapply rises_trans; [exact U4|]. eapply rises_trans; [|exact U5]. apply rises_same.
    by rewrite dev_used_append.
  - intros [= <- <-]. eapply rises_trans; [exact U2|apply net_fail_up].
Qed.

Lemma try_up fuel READ qi s s' : virtio_net_try fuel READ qi s = Some s' -> up s s'.
Proof.
  unfold virtio_net_try. case_match; [by intros [= <-]|]. case_match; [intros [= <-]; apply net_fail_up|].
  cbn [ram_get]. set (q := nq s qi). set (s1 := touch (4 * QueueAvail q) 4 s).
  assert (U1 : up s s1) by (apply rises_dev, dev_touch).
  case_match; [intros [= <-]; eapply rises_trans; [exact U1|apply net_fail_up]|].
  case_match; [by intros [= <-]|].
  destruct (vnet_process _ fuel READ qi _ _ _) as [[[u|] s3]|] eqn:E; [| |done]; apply process_up in E;
    (assert (U3 : up s s3) by (eapply rises_trans; [exact U1|]; eapply rises_trans; [|exact E]; apply rises_dev, dev_touch)).
  - intros [= <-]. eapply rises_trans; [exact U3|].
    case_match; unfold rises, on_nregs, on_vnet, nirq; cbn -[used_publish]; rewrite dev_touch, dev_used_publish; [done|].
    apply nz_lor.
  - by intros [= <-].
Qed.

Lemma refresh_up fuel s s' : virtio_net_refresh_queue fuel s = Some s' -> up s s'.
Proof.
  unfold virtio_net_refresh_queue. case_match; [by intros [= <-]|]. case_match; [by intros [= <-]|].
  destruct (net_poll _ _) as [[[rx slirp] tx] e].
  set (s1 := on_dev _ s). assert (U1 : up s s1) by (by apply rises_same).
  destruct (if rx then _ else Some s1) as [s2|] eqn:E; cbn [mbind option_bind]; [|done].
  assert (U2 : up s s2).
  { destruct rx; [apply try_up in E; by eapply rises_trans; [|exact E]|by injection E as <-]. }
  set (s3 := match peer_type _ with NETDEV_IMPL_tap => _ | NETDEV_IMPL_user => _ end).
  assert (U3 : up s s3) by (eapply rises_trans; [exact U2|]; apply rises_same; unfold s3; repeat case_match; done).
  destruct tx; [|by intros [= <-]]. intros U4%try_up. eapply rises_trans; [exact U3|].
  eapply rises_trans; [|exact U4]. by apply rises_same.
Qed.

Lemma net_read_irq addr width s : nirq (dev (snd (virtio_net_read addr width s))) = nirq (dev s).
Proof. unfold virtio_net_read, virtio_net_reg_read, touch_config. repeat case_match; simplify_eq/=; done. Qed.
End Net.

(** ** virtio-input *)

Section Input.
Implicit Types s : machine input_dev.

Definition iirq (j : Z) (d : input_dev) : bool :=
  nz (InterruptStatus (vi_regs (arr_get zero_vinput (vinputs d) j))).
Abbreviation up j := (rises (iirq j)).

(** The register file [j] is the same. *)
Definition apart (j : Z) s s' : Prop := vi_at s' j = vi_at s j.

Lemma apart_trans j s1 s2 s3 : apart j s1 s2 -> apart j s2 s3 -> apart j s1 s3.
Proof. unfold apart. congruence. Qed.
Lemma apart_dev j s s' : dev s' = dev s -> apart j s s'.
Proof. unfold apart, vi_at, vinput_at. by intros ->. Qed.
Lemma apart_vi j v f s : 0 <= j -> 0 <= v -> j <> v -> apart j s (on_vi v f s).
Proof. intros. unfold apart, vi_at, vinput_at at 1, on_vi. cbn. by rewrite arr_get_set_ne. Qed.
Lemma apart_irq j s s' : apart j s s' -> iirq j (dev s') = iirq j (dev s).
Proof. unfold apart, vi_at, vinput_at, iirq. by intros ->. Qed.

Lemma vi_up j v f s : (forall d, nz (InterruptStatus d) = true -> nz (InterruptStatus (f d)) = true) ->
  up j s (on_vi v f s).
Proof.
  intros Hf. unfold rises, iirq, on_vi, vi_at, vinput_at. cbn. unfold arr_get, arr_set.
  destruct (decide (Z.to_nat v = Z.to_nat j)) as [E|E]; [|by rewrite list_lookup_insert_ne by done].
  rewrite E. destruct (decide (Z.to_nat j < length (vinputs (dev s)))%nat) as [Hl|Hl].
  - rewrite list_lookup_insert_eq by done. cbn. apply Hf.
  - by rewrite list_insert_ge by lia.
Qed.

Lemma input_fail_up d : nz (InterruptStatus d) = true -> nz (InterruptStatus (virtio_input_set_fail d)) = true.
Proof. unfold virtio_input_set_fail. cbn. case_match; [apply nz_lor|done]. Qed.

Lemma dev_next_buffer q s r s' : next_buffer q s = Some (r, s') -> dev s' = dev s.
Proof.
  unfold next_buffer. case_match; [done|]. intros E. injection E as _ <-. apply dev_touch.
Qed.

Lemma dev_input_desc q i s : dev (snd (input_desc q i s)) = dev s.
Proof. unfold input_desc, ram_get. cbn. by rewrite !dev_touch. Qed.

Lemma put_events_up j v evs : forall new_used s, up j s (snd (put_events v evs new_used s)).
Proof.
  induction evs as [|e evs IH]; intros new_used s; cbn [put_events]; [done|].
  destruct (next_buffer _ s) as [[bi s1]|] eqn:E; [|by apply rises_same]. apply dev_next_buffer in E.
  assert (U1 : up j s s1) by (by apply rises_dev). 
  case_match; [eapply rises_trans; [exact U1|]; apply vi_up, input_fail_up|].
  pose proof (dev_input_desc (vq s v VIRTIO_INPUT_EVENTQ) bi s1) as E2.
  destruct (input_desc _ bi s1) as [[[[a ah] l] f] s2]. cbn in E2.
  assert (U2 : up j s s2) by (apply rises_dev; congruence).
  case_match; [eapply rises_trans; [exact U2|]; apply vi_up, input_fail_up|].
  eapply rises_trans; [exact U2|]. eapply rises_trans; [|apply IH].
  eapply rises_trans; [|apply vi_up; done]. apply rises_dev. by rewrite dev_used_append, dev_dma_write.
Qed.

Lemma desc_handler_up j v evs s : up j s (snd (virtio_input_desc_handler v evs s)).
Proof.
  unfold virtio_input_desc_handler. cbn [ram_get].
  match goal with |- context [if ?b then (false, _) else _] => destruct b end; [apply rises_dev; cbn; by rewrite !dev_touch|].
  match goal with |- context [put_events v evs ?u ?s0] => pose proof (put_events_up j v evs u s0) as U;
    assert (U0 : up j s s0) by (apply rises_dev; by rewrite !dev_touch);
    destruct (put_events v evs u s0) as [[u'|] s1] end; cbn [snd] in *; eapply rises_trans; try exact U0; try exact U.
  eapply rises_trans; [exact U|]. apply rises_dev, dev_ram_put.
Qed.

Lemma eventq_up j dev_id evs s : up j s (virtio_input_update_eventq dev_id evs s).
Proof.
  unfold virtio_input_update_eventq. destruct (vd_vinput _) as [v|]; [|done].
  case_match; [done|]. case_match; [done|]. cbn [ram_get].
  set (s1 := touch _ _ s). assert (U1 : up j s s1) by (apply rises_dev, dev_touch).
  case_match; [eapply rises_trans; [exact U1|]; apply vi_up, input_fail_up|]. case_match; [done|].
  pose proof (desc_handler_up j v evs s1) as U2. destruct (virtio_input_desc_handler v evs s1) as [b s2]. cbn [snd] in U2.
  eapply rises_trans; [exact U1|]. eapply rises_trans; [exact U2|]. destruct b; [|done].
  case_match; [apply rises_dev, dev_touch|]. eapply rises_trans; [apply rises_dev, dev_touch|].
  apply vi_up. intros d. apply nz_lor.
Qed.

Lemma apply_up j e s : up j s (apply_keyboard e s) /\ up j s (apply_mouse e s).
Proof.
  unfold apply_keyboard, apply_mouse, virtio_input_update_mouse_motion, virtio_input_update_scroll.
  destruct e; split; try done; try apply eventq_up; case_match; try done; apply eventq_up.
Qed.

Lemma drain_queue_up j fuel dev_id f : (forall e s, up j s (f e s)) -> forall s, up j s (drain_queue fuel dev_id f s).
Proof.
  intros Hf. induction fuel as [|fuel IH]; intros s; cbn [drain_queue]; [done|].
  destruct (vinput_pop_cmd dev_id _) as [[e|] h]; [|done]. eapply rises_trans; [|apply IH].
  eapply rises_trans; [|apply Hf]. by apply rises_same.
Qed.

Lemma drain_up j s s' : virtio_input_drain_host_events s = Some s' -> up j s s'.
Proof.
  unfold virtio_input_drain_host_events. cbn [drain_rounds].
  pose proof (drain_queue_up j (Z.to_nat VINPUT_CMD_QUEUE_SIZE) VINPUT_KEYBOARD_ID apply_keyboard
    (fun e s => proj1 (apply_up j e s)) s) as U1.
  set (s1 := drain_queue _ VINPUT_KEYBOARD_ID apply_keyboard s) in *.
  pose proof (drain_queue_up j (Z.to_nat VINPUT_CMD_QUEUE_SIZE) VINPUT_MOUSE_ID apply_mouse
    (fun e s => proj2 (apply_up j e s)) s1) as U2.
  set (s2 := drain_queue _ VINPUT_MOUSE_ID apply_mouse s1) in *. destruct (vinput_rearm_cmd_wake _) as [b h].
  destruct b; [|done]. intros [= <-]. eapply rises_trans; [exact U1|]. eapply rises_trans; [exact U2|]. by apply rises_same.
Qed.

(** A write to one device leaves the other. *)
Lemma statusq_loop_apart j v new_avail fuel : 0 <= j -> 0 <= v -> j <> v -> forall new_used b s,
  apart j s (snd (statusq_loop fuel v new_avail new_used b s)).
Proof.
  intros Hj Hv Hne. induction fuel as [|fuel IH]; intros new_used b s; cbn [statusq_loop]; [done|].
  case_match; [done|]. destruct (next_buffer _ s) as [[bi s1]|] eqn:E; [|done]. apply dev_next_buffer in E.
  apply (apart_dev j) in E. case_match; [eapply apart_trans; [exact E|]; by apply apart_vi|].
  pose proof (dev_input_desc (vq s v VIRTIO_INPUT_STATUSQ) bi s1) as E2.
  destruct (input_desc _ bi s1) as [[[[a ah] l] f] s2]. cbn [snd] in E2. apply (apart_dev j) in E2.
  pose proof (apart_trans _ _ _ _ E E2) as E3. case_match; [eapply apart_trans; [exact E3|]; by apply apart_vi|].
  eapply apart_trans; [exact E3|]. eapply apart_trans; [|apply IH]. eapply apart_trans; [|by apply apart_vi].
  apply apart_dev, dev_used_append.
Qed.

Lemma drain_statusq_apart j v s : 0 <= j -> 0 <= v -> j <> v -> apart j s (virtio_input_drain_statusq v s).
Proof.
  intros Hj Hv Hne. unfold virtio_input_drain_statusq. case_match; [done|]. cbn [ram_get].
  match goal with |- context [statusq_loop ?n v ?a ?u false ?s0] => 
    pose proof (statusq_loop_apart j v a n Hj Hv Hne u false s0) as U;
    assert (U0 : apart j s s0) by (apply apart_dev; by rewrite !dev_touch);
    destruct (statusq_loop n v a u false s0) as [[[u' c]|] s1] end; cbn [snd] in U;
  (case_match; [eapply apart_trans; [exact U0|]; by apply apart_vi|]);
  pose proof (apart_trans _ _ _ _ U0 U) as U1; [|done]. destruct c; [|done].
  case_match; [|eapply apart_trans; [|by apply apart_vi]]; (eapply apart_trans; [exact U1|]); apply apart_dev;
    unfold put_used_hdr; by rewrite dev_touch, dev_ram_put.
Qed.

Lemma reg_write_apart j v addr value s : 0 <= j -> 0 <= v -> j <> v ->
  apart j s (snd (virtio_input_reg_write v addr value s)).
Proof.
  intros Hj Hv Hne. unfold virtio_input_reg_write, virtio_input_update_status. cbn [ram_get].
  repeat (case_match; cbn [snd]); try done; try (by apply apart_vi); try (by apply drain_statusq_apart);
    try (eapply apart_trans; [|by apply apart_vi]; try (by apply apart_vi)).
  eapply apart_trans; [by apply (apart_vi j v (upd_queue (QueueSel (vi_at s v)) (fun q => q <| ready := true |>)))|].
  apply apart_dev, dev_touch.
Qed.

Lemma input_write_apart j v addr width value s : 0 <= j -> 0 <= v -> j <> v ->
  iirq j (dev (virtio_input_write v addr width value s)) = iirq j (dev s).
Proof.
  intros Hj Hv Hne. apply apart_irq. unfold virtio_input_write.
  pose proof (reg_write_apart j v addr value s Hj Hv Hne) as H.
  destruct (virtio_input_reg_write v addr value s) as [b s1]. cbn [snd] in H. repeat case_match; done.
Qed.

Lemma input_read_irq j v addr width s : iirq j (dev (snd (virtio_input_read v addr width s))) = iirq j (dev s).
Proof.
  unfold virtio_input_read.
  assert (H : forall n, iirq j (dev (snd (virtio_input_reg_read v addr n s))) = iirq j (dev s)).
  { intros n. unfold virtio_input_reg_read. repeat case_match; done. }
  pose proof (H 4) as H4. pose proof (H 1) as H1. pose proof (H 2) as H2. clear H.
  repeat match goal with |- context [virtio_input_reg_read v addr ?n s] =>
    destruct (virtio_input_reg_read v addr n s) as [[?|] ?]; cbn [snd] in * end; repeat case_match; done.
Qed.
End Input.

(** ** The basic devices *)

Section Basic.
Context {E : Type} `{HostE : Host E} {CoroE : Coro E} `{!NoCoro E}.
Implicit Types s : machine (emu_state_t E).

Definition blk_irq (d : emu_state_t E) : bool := nz (InterruptStatus (vblk_regs (vblk d))).
Definition rng_irq (d : emu_state_t E) : bool := nz (InterruptStatus (vrng d)).
(** The lines and the interrupt status of the two virtio devices. *)
Definition wires (d : emu_state_t E) : Z * bool * bool := (active (plic d), blk_irq d, rng_irq d).
Definition still s s' : Prop := wires (dev s') = wires (dev s).

Lemma still_refl s : still s s.
Proof. done. Qed.
Lemma still_trans s1 s2 s3 : still s1 s2 -> still s2 s3 -> still s1 s3.
Proof. unfold still. congruence. Qed.
Lemma still_dev s s' : dev s' = dev s -> still s s'.
Proof. unfold still. by intros ->. Qed.
Lemma still_plic_update s : still s (plic_update_interrupts s).
Proof. unfold still. by rewrite dev_plic_update. Qed.
Lemma still_on_host {A} (f : E -> A * E) s : still s (snd (on_host f s)).
Proof. unfold on_host. by destruct (f _). Qed.
Lemma still_uart f s : still s (on_uart f s).
Proof. done. Qed.

Lemma still_plic_read addr width s : still s (snd (plic_read addr width s)).
Proof. unfold plic_read, plic_reg_read, plic_claim. repeat (case_match; simplify_eq/=; try done). Qed.
Lemma still_plic_write addr width value s : still s (plic_write addr width value s).
Proof. unfold plic_write, plic_reg_write, plic_complete. repeat (case_match; simplify_eq/=; try done). Qed.

Lemma still_check_ready s : still s (u8250_check_ready s).
Proof. unfold u8250_check_ready, on_host. case_match; [done|]. destruct (poll_in _) as [[|] e]; done. Qed.
Lemma still_uart_host f s : still s (on_uart_host f s).
Proof. unfold on_uart_host. by destruct (f _ _). Qed.
Lemma still_wait s : u8250_wait_for_input s = s.
Proof. unfold u8250_wait_for_input. by rewrite no_coro. Qed.

Lemma still_read_input s : still s (snd (read_input s)).
Proof.
  unfold read_input. pose proof (still_on_host read_byte s) as H1. destruct (on_host read_byte s) as [b s1].
  cbn [snd] in H1. set (s2 := on_uart _ s1). pose proof (still_check_ready s2) as H3. set (s3 := u8250_check_ready s2) in *.
  assert (H : still s s3) by (eapply still_trans; [exact H1|]; eapply still_trans; [apply still_uart|exact H3]).
  case_match; [|exact H]. pose proof (still_on_host getchar s3) as H4. destruct (on_host getchar s3) as [c s4].
  cbn [snd] in H4. pose proof (still_trans _ _ _ H H4) as H5. case_match; exact H5.
Qed.

Lemma still_handle_in s : still s (snd (u8250_handle_in s)).
Proof.
  unfold u8250_handle_in. rewrite still_wait. set (s1 := u8250_check_ready (u8250_flush_out s)).
  assert (H1 : still s s1) by (eapply still_trans; [apply still_uart_host|apply still_check_ready]).
  assert (H2 : still s (u8250_check_ready s1)) by (eapply still_trans; [exact H1|apply still_check_ready]).
  case_match; [|eapply still_trans; [exact H1|apply still_read_input]].
  case_match; [exact H2|]. eapply still_trans; [exact H2|apply still_read_input].
Qed.

Lemma still_uart_read addr width s : still s (snd (u8250_read addr width s)).
Proof.
  unfold u8250_read. assert (H : still s (snd (u8250_reg_read addr s))).
  { unfold u8250_reg_read. repeat case_match; try done; try apply still_handle_in; apply still_uart. }
  destruct (u8250_reg_read addr s) as [v s1]. repeat case_match; done.
Qed.

Lemma still_uart_write addr width value s : still s (u8250_write addr width value s).
Proof.
  unfold u8250_write, u8250_reg_write, u8250_handle_out. repeat case_match; try done.
  eapply still_trans; [apply still_uart_host|apply still_uart].
Qed.

Lemma still_clocksource t s : still s (snd (semu_timer_clocksource t s)).
Proof.
  unfold semu_timer_clocksource, host_time_ns, on_host, on_tstatic.
  repeat (case_match; simplify_eq/=); done.
Qed.
Lemma still_timer_get t s : still s (snd (semu_timer_get t s)).
Proof. unfold semu_timer_get. pose proof (still_clocksource t s). by destruct (semu_timer_clocksource t s). Qed.
Lemma still_timer_rebase t x s : still s (snd (semu_timer_rebase t x s)).
Proof. unfold semu_timer_rebase. pose proof (still_clocksource t s). by destruct (semu_timer_clocksource t s). Qed.

Lemma still_fault ok c s : still s (Aclint.fault ok c s).
Proof. by destruct ok. Qed.
Lemma still_mtimer_read addr width s : still s (snd (aclint_mtimer_read addr width s)).
Proof.
  unfold aclint_mtimer_read, aclint_mtimer_reg_read. pose proof (still_timer_get (mtime (mtimer (dev s))) s) as K.
  repeat case_match; simplify_eq/=; try apply still_fault; try done.
Qed.
Lemma still_mtimer_update s : still s (aclint_mtimer_update_interrupts s).
Proof.
  unfold aclint_mtimer_update_interrupts. pose proof (still_timer_get (mtime (mtimer (dev s))) s) as K.
  by destruct (semu_timer_get _ s).
Qed.
Lemma still_mtimer_write addr width value s : still s (aclint_mtimer_write addr width value s).
Proof.
  unfold aclint_mtimer_write, aclint_mtimer_reg_write.
  pose proof (still_timer_rebase (mtime (mtimer (dev s)))
    (set_half addr (begin (mtime (mtimer (dev s)))) (shift_up width value)) s) as K.
  destruct (semu_timer_rebase _ _ s) as [tm s1]. repeat case_match; simplify_eq/=; done.
Qed.
Lemma still_swi_read addr width s :
  still s (snd (aclint_mswi_read addr width s)) /\ still s (snd (aclint_sswi_read addr width s)).
Proof. split; apply still_fault. Qed.
Lemma still_swi_write addr width value s :
  still s (aclint_mswi_write addr width value s) /\ still s (aclint_sswi_write addr width value s).
Proof. unfold aclint_mswi_write, aclint_sswi_write. split; case_match; done. Qed.

(** *** virtio-blk and virtio-rng: what each leaves of the other *)

Definition beside_blk (d : emu_state_t E) : Z * bool := (active (plic d), rng_irq d).
Definition beside_rng (d : emu_state_t E) : Z * bool := (active (plic d), blk_irq d).
Definition keepb s s' : Prop := beside_blk (dev s') = beside_blk (dev s).
Definition keepr s s' : Prop := beside_rng (dev s') = beside_rng (dev s).

Lemma keepb_trans s1 s2 s3 : keepb s1 s2 -> keepb s2 s3 -> keepb s1 s3.
Proof. unfold keepb. congruence. Qed.
Lemma keepb_dev s s' : dev s' = dev s -> keepb s s'.
Proof. unfold keepb. by intros ->. Qed.
Lemma keepb_vblk f s : keepb s (on_vblk f s).
Proof. done. Qed.

Lemma collect_keepb n : forall q i s, keepb s (snd (VirtioBlk.collect_descs n q i s)).
Proof.
  induction n as [|n IH]; intros q i s; cbn [VirtioBlk.collect_descs]; [done|]. case_match; [done|]. cbn [read_desc].
  specialize (IH q (d_next (fst (read_desc (u32 (QueueDesc q + u32 (i * 4))) s)))
    (touch (4 * u32 (QueueDesc q + u32 (i * 4))) 16 s)). cbn [read_desc fst] in IH.
  destruct (VirtioBlk.collect_descs n q _ _) as [r s1]. cbn [snd] in *. eapply keepb_trans; [|exact IH]. apply keepb_dev, dev_touch.
Qed.

Lemma dev_wr8' o v s : dev (wr8 o v s) = dev s.
Proof. unfold wr8. apply dev_touch. Qed.

Lemma request_keepb d0 d1 d2 s : keepb s (snd (virtio_blk_request d0 d1 d2 s)).
Proof.
  unfold virtio_blk_request, virtio_blk_read_handler, virtio_blk_write_handler, dma_read.
  repeat case_match; cbn [snd]; unfold keepb; rewrite dev_wr8', ?dev_dma_write; try (by rewrite dev_touch);
    (eapply keepb_trans; [|apply keepb_vblk]); apply keepb_dev; by rewrite !dev_touch.
Qed.

Lemma desc_handler_keepb q i s : keepb s (snd (virtio_blk_desc_handler q i s)).
Proof.
  unfold virtio_blk_desc_handler. pose proof (collect_keepb 3 q i s) as K. destruct (VirtioBlk.collect_descs 3 q i s) as [r s1].
  cbn [snd] in K. repeat (case_match; try exact K). eapply keepb_trans; [exact K|apply request_keepb].
Qed.

Lemma blk_process_keepb fuel i new_avail : forall u s, keepb s (snd (blk_process fuel i new_avail u s)).
Proof.
  induction fuel as [|fuel IH]; intros u s; cbn [blk_process]; [done|]. case_match; [done|]. case_match; [done|].
  pose proof (dev_avail_entry (blk_queue s i) (u16 (last_avail (blk_queue s i) mod QueueNum (blk_queue s i))) s) as E1.
  destruct (avail_entry _ _ s) as [bi s1]. cbn in E1. apply keepb_dev in E1.
  pose proof (desc_handler_keepb (blk_queue s i) bi s1) as K. destruct (virtio_blk_desc_handler _ bi s1) as [[len|] s2];
    cbn [snd] in K; pose proof (keepb_trans _ _ _ E1 K) as K2; [|exact K2].
  eapply keepb_trans; [exact K2|]. eapply keepb_trans; [|apply IH]. eapply keepb_trans; [|apply keepb_vblk].
  apply keepb_dev, dev_used_append.
Qed.

Lemma blk_notify_keepb i s : keepb s (blk_queue_notify_handler i s).
Proof.
  unfold blk_queue_notify_handler. case_match; [done|]. case_match; [done|]. cbn [ram_get].
  set (s1 := touch _ _ s). assert (K1 : keepb s s1) by (apply keepb_dev, dev_touch).
  case_match; [exact K1|]. case_match; [exact K1|].
  match goal with |- context [blk_process ?n i ?a ?u ?s0] => pose proof (blk_process_keepb n i a u s0) as K;
    destruct (blk_process n i a u s0) as [[u'|] s2] end; cbn [snd] in K;
  (assert (K2 : keepb s s2) by (eapply keepb_trans; [exact K1|]; eapply keepb_trans; [|exact K]; apply keepb_dev, dev_touch));
  [|exact K2].
  assert (K3 : keepb s (touch (4 * QueueAvail (blk_queue s i)) 4 (used_publish (blk_queue s i) u' s2))).
  { eapply keepb_trans; [exact K2|]. apply keepb_dev. by rewrite dev_touch, dev_used_publish. }
  case_match; exact K3.
Qed.

Lemma blk_write_keepb addr width value s : keepb s (virtio_blk_write addr width value s).
Proof.
  unfold virtio_blk_write. assert (K : keepb s (snd (virtio_blk_reg_write (Z.shiftr addr 2) value s))).
  { unfold virtio_blk_reg_write. cbn [ram_get]. pose proof (blk_notify_keepb value s) as K0.
    set (s1 := blk_queue_notify_handler value s) in *. clearbody s1. repeat (case_match; cbn [snd]); try done.
    unfold keepb. cbn. by rewrite dev_touch. }
  destruct (virtio_blk_reg_write _ value s) as [b s1]. repeat case_match; done.
Qed.

Lemma blk_read_still addr width s : still s (snd (virtio_blk_read addr width s)).
Proof.
  unfold virtio_blk_read. case_match; [|case_match; done].
  destruct (virtio_blk_reg_read (Z.shiftr addr 2) (vblk (dev s))) as [[v b]|] eqn:Er; [|done].
  assert (Hb : vblk_regs b = vblk_regs (vblk (dev s))).
  { unfold virtio_blk_reg_read, config_get in Er. repeat case_match; simplify_eq/=; done. }
  unfold still, wires, blk_irq, rng_irq. cbn. by rewrite Hb.
Qed.

Lemma rng_write_keepr addr width value s : keepr s (virtio_rng_write addr width value s).
Proof.
  unfold virtio_rng_write. assert (K0 : keepr s (rng_queue_notify_handler s)).
  { unfold rng_queue_notify_handler, on_host, avail_entry. cbn [ram_get read_desc]. case_match; [done|].
    destruct (read_entropy _ _) as [bytes e]. unfold keepr.
    assert (Hw : forall o v (m : machine (emu_state_t E)), dev (wr32 o v m) = dev m) by (intros; apply dev_touch).
    case_match; unfold clear_desc_flags;
      repeat first [rewrite dev_touch|rewrite dev_used_publish|rewrite dev_used_append|rewrite dev_dma_write|rewrite Hw
        |progress change (beside_rng (dev (on_vrng ?f ?x))) with (beside_rng (dev x))
        |progress change (beside_rng (dev (on_dev (fun d => d <| host := e |>) ?x))) with (beside_rng (dev x))]; done. }
  assert (K : keepr s (snd (virtio_rng_reg_write (Z.shiftr addr 2) value s))).
  { unfold virtio_rng_reg_write. cbn [ram_get]. set (s1 := rng_queue_notify_handler s) in *. clearbody s1.
    repeat (case_match; cbn [snd]); try done. unfold keepr. cbn. by rewrite dev_touch. }
  destruct (virtio_rng_reg_write _ value s) as [b s1]. repeat case_match; done.
Qed.

Lemma rng_read_still addr width s : still s (snd (virtio_rng_read addr width s)).
Proof. unfold virtio_rng_read. repeat case_match; done. Qed.
End Basic.

(** ** virtio-snd: its threads *)

Section Snd.
Context {S : Type} `{SndS : SndHost S}.
Implicit Types s : machine (snd_dev S).

Definition sirq (d : snd_dev S) : bool := nz (InterruptStatus (vsnd_regs d)).
Abbreviation up := (rises sirq).

(** The register file is the same. *)
Definition same_regs s s' : Prop := vsnd_regs (dev s') = vsnd_regs (dev s).
Lemma same_regs_trans s1 s2 s3 : same_regs s1 s2 -> same_regs s2 s3 -> same_regs s1 s3.
Proof. unfold same_regs. congruence. Qed.
Lemma same_regs_dev s s' : dev s' = dev s -> same_regs s s'.
Proof. unfold same_regs. by intros ->. Qed.
Lemma same_regs_up s s' : same_regs s s' -> up s s'.
Proof. unfold same_regs, rises, sirq. by intros ->. Qed.
Lemma same_regs_call {A} (f : S -> A * S) s : same_regs s (snd (snd_call f s)).
Proof. unfold snd_call. by destruct (f _). Qed.

Lemma same_regs_malloc n s : same_regs s (snd (s_malloc n s)).
Proof. apply same_regs_call. Qed.

Lemma collect_regs fuel : forall q i s, same_regs s (snd (collect fuel q i s)).
Proof.
  induction fuel as [|fuel IH]; intros q i s; [done|]. cbn [collect read_desc].
  pose proof (same_regs_malloc 32 (touch (4 * u32 (QueueDesc q + i * 4)) 16 s)) as K.
  destruct (s_malloc 32 _) as [ok s1]. cbn [snd] in K.
  assert (K1 : same_regs s s1) by (eapply same_regs_trans; [apply same_regs_dev, dev_touch|exact K]).
  case_match; [exact K1|]. case_match; [|exact K1].
  match goal with |- context [collect fuel q ?j s1] => pose proof (IH q j s1) as K2; destruct (collect fuel q j s1) as [l s2] end.
  by eapply same_regs_trans.
Qed.

Lemma node_regs W idx cnt d l s : same_regs s (snd (tx_node W idx cnt d l s)).
Proof.
  unfold tx_node, sget32. case_match; [apply same_regs_dev, dev_touch|]. case_match; [|done]. case_match; [done|].
  apply same_regs_dev. cbn [snd]. unfold put32. by rewrite !dev_dma_write.
Qed.

Lemma enqueue_regs payload len s s' : __virtio_snd_frame_enqueue payload len s = Some s' -> same_regs s s'.
Proof.
  unfold __virtio_snd_frame_enqueue. case_match; [done|]. case_match; [by intros [= <-]|].
  pose proof (same_regs_malloc 32 s) as K1. destruct (s_malloc 32 s) as [ok s1]. cbn [snd] in K1.
  case_match; [by intros [= <-]|].
  pose proof (same_regs_malloc (u32 len) s1) as K2.
  destruct (s_malloc (u32 len) s1) as [ok2 s2]. cbn [snd] in K2. pose proof (same_regs_trans _ _ _ K1 K2) as K3.
  case_match; [by intros [= <-]|]. cbn [dma_read].
  assert (K4 : same_regs s (touch payload (Z.of_nat (Z.to_nat (u32 len))) s2)).
  { eapply same_regs_trans; [exact K3|]. apply same_regs_dev, dev_touch. }
  case_match; intros [= <-]; exact K4.
Qed.

Lemma snd_fail_up s : up s (virtio_snd_set_fail s).
Proof.
  unfold rises, sirq, virtio_snd_set_fail, on_sregs, virtio_set_fail. cbn. intros H. case_match; [by apply nz_lor|done].
Qed.

Lemma entry_up i s : up s (snd (notify_entry i s)).
Proof.
  unfold notify_entry. cbn [ram_get]. case_match; [done|]. case_match; [apply snd_fail_up|].
  case_match; [eapply rises_trans; [apply rises_dev, dev_touch|apply snd_fail_up]|].
  case_match; cbn [snd]; apply rises_dev; by rewrite ?dev_touch.
Qed.

Lemma exit_up i u s : up s (notify_exit i u s).
Proof.
  unfold notify_exit. cbn [ram_get]. set (s1 := touch _ _ _).
  assert (U : up s s1) by (apply rises_dev; unfold s1; by rewrite dev_touch, dev_used_publish).
  case_match; [exact U|]. eapply rises_trans; [exact U|]. unfold rises, sirq, on_sregs. cbn. apply nz_lor.
Qed.

Lemma tx_loop_up na nu s : up s (tx_loop na nu s).
Proof.
  unfold tx_loop. case_match; [eapply rises_trans; [apply exit_up|]; by apply rises_same|].
  case_match; [by apply rises_same|].
  pose proof (dev_avail_entry (squeue s VSND_QUEUE_TX) (last_avail (squeue s VSND_QUEUE_TX) mod QueueNum (squeue s VSND_QUEUE_TX)) s) as K1.
  destruct (avail_entry _ _ s) as [b s1]. cbn [snd] in K1. pose proof (collect_regs chain_fuel (squeue s VSND_QUEUE_TX) b s1) as K2.
  destruct (collect chain_fuel _ b s1) as [[nodes|] s2]; cbn [snd] in K2; apply same_regs_up;
    (eapply same_regs_trans; [by apply same_regs_dev|]); exact K2.
Qed.

(** The TX thread and PortAudio's callback only add reasons for an interrupt. *)
Lemma tx_up s : up s (tx_step s).
Proof.
  unfold tx_step. destruct (tx_at (dev s)) as [| |na nu|m [|d nodes]|[] m addr len nodes|m|m|]; try done.
  - case_match; [done|]. by apply rises_same.
  - pose proof (entry_up VSND_QUEUE_TX s) as U. destruct (notify_entry VSND_QUEUE_TX s) as [[[na nu]|] s1]; exact U.
  - apply tx_loop_up.
  - by apply rises_same.
  - pose proof (node_regs true (m_idx m) (m_cnt m) d (m_loc m) s) as K. destruct (tx_node _ _ _ _ _ s) as [[b l] s1].
    by apply same_regs_up.
  - destruct (__virtio_snd_frame_enqueue addr len s) as [s1|] eqn:Eq; [|by apply rises_same].
    apply enqueue_regs in Eq. by apply same_regs_up.
  - apply same_regs_up. unfold same_regs, signal_readable. cbn. by case_match; [|case_match].
  - apply rises_same.
    change (sirq (dev (used_append (squeue s VSND_QUEUE_TX) (new_used m) (buffer_idx m) (plen (m_loc m)) s)) = sirq (dev s)).
    by rewrite dev_used_append.
Qed.

Lemma cb_up s : up s (snd (cb_step s)).
Proof.
  unfold cb_step, __virtio_snd_frame_dequeue. apply rises_same. unfold sirq, signal_writable.
  repeat (case_match; simplify_eq/=; try done).
Qed.
End Snd.

(** ** Reads of the other devices *)

Section Reads.
Context {S F G : Type} `{SndS : SndHost S} `{FsF : FsHost F} `{GpuG : GpuHost G}.

Lemma snd_read_regs addr width (s : machine (snd_dev S)) :
  vsnd_regs (dev (snd (virtio_snd_read addr width s))) = vsnd_regs (dev s).
Proof. unfold virtio_snd_read, virtio_snd_reg_read. repeat case_match; simplify_eq/=; done. Qed.

Lemma fs_read_regs addr width (s : machine (fs_dev F)) :
  vfs_regs (dev (snd (virtio_fs_read addr width s))) = vfs_regs (dev s).
Proof. unfold virtio_fs_read, virtio_fs_reg_read, VirtioFs.cfg_read. repeat (case_match; simplify_eq/=; try done). Qed.

Lemma gpu_read_regs addr width (s : machine (gpu_dev G)) :
  vgpu (dev (snd (virtio_gpu_read addr width s))) = vgpu (dev s).
Proof. unfold virtio_gpu_read. repeat case_match; simplify_eq/=; done. Qed.
End Reads.

(** ** The lines *)

Inductive line := VNET | VBLK | VRNG | VSND | VFS | VKEYBOARD | VMOUSE | VGPU.
#[export] Instance line_eq_dec : EqDecision line.
Proof. solve_decision. Defined.

Definition line_no (l : line) : Z :=
  match l with VNET => 2 | VBLK => 3 | VRNG => 4 | VSND => 5 | VFS => 6 | VKEYBOARD => 7 | VMOUSE => 8 | VGPU => 9 end.

Lemma line_no_inj l l' : line_no l = line_no l' -> l = l'.
Proof. by destruct l, l'. Qed.
Lemma line_no_range l : 2 <= line_no l < 32.
Proof. destruct l; cbn; lia. Qed.

(** [if (c) a |= 1 << k; else a &= ~(1 << k);] *)
Definition put_bit (c : bool) (k a : Z) : Z := if c then Z.lor a (Z.shiftl 1 k) else Z.land a (not32 (Z.shiftl 1 k)).

Lemma testbit_put c k a i : 0 <= k < 32 -> 0 <= i < 32 ->
  Z.testbit (put_bit c k a) i = if i =? k then c else Z.testbit a i.
Proof.
  intros Hk Hi. assert (Hb : Z.testbit (Z.shiftl 1 k) i = (i =? k)).
  { rewrite Z.shiftl_1_l, Z.pow2_bits_eqb by lia. apply Z.eqb_sym. }
  unfold put_bit. destruct c.
  - rewrite Z.lor_spec, Hb. destruct (i =? k); [apply orb_true_r|apply orb_false_r].
  - rewrite Z.land_spec. unfold not32. rewrite testbit_u32, Z.lnot_spec, Hb by lia.
    destruct (Z.ltb_spec i 32); [|lia]. destruct (i =? k); [apply andb_false_r|apply andb_true_r].
Qed.

Section Wiring.
Context {E N S F G : Type} `{HostE : Host E} {CoroE : Coro E} `{!NoCoro E} `{NetN : NetHost N} `{SndS : SndHost S}
  `{FsF : FsHost F} `{GpuG : GpuHost G}.
Implicit Types (s : machine (full_dev E N S F G)) (d : full_dev E N S F G) (m : machine (emu_state_t E)) (l : line).

(** Whether the device asks for an interrupt, and whether its line is up. *)
Definition status l d : bool :=
  match l with
  | VNET => vnet_irq d | VBLK => vblk_irq d | VRNG => vrng_irq d | VSND => vsnd_irq d | VFS => vfs_irq d
  | VKEYBOARD => iirq VINPUT_KEYBOARD_ID (f_input d) | VMOUSE => iirq VINPUT_MOUSE_ID (f_input d)
  | VGPU => vgpu_irq d
  end.
Definition raised l d : bool := Z.testbit (active (plic (f_emu d))) (line_no l).

Definition agree l d : Prop := raised l d = status l d.
Definition sound l d : Prop := raised l d = true -> status l d = true.

(** Nothing changes for the lines outside [X]. *)
Definition same_but (X : list line) d d' : Prop :=
  forall l, l ∉ X -> raised l d' = raised l d /\ status l d' = status l d.

Lemma same_but_trans X d1 d2 d3 : same_but X d1 d2 -> same_but X d2 d3 -> same_but X d1 d3.
Proof. intros A B l Hl. destruct (A l Hl), (B l Hl). split; congruence. Qed.
Lemma same_but_weaken X Y d d' : X ⊆ Y -> same_but X d d' -> same_but Y d d'.
Proof. intros H A l Hl. apply A. auto. Qed.
Lemma same_agree X l d d' : same_but X d d' -> l ∉ X -> agree l d -> agree l d'.
Proof. intros A Hl. unfold agree. destruct (A l Hl) as [-> ->]. done. Qed.
Lemma same_sound X l d d' : same_but X d d' -> l ∉ X -> sound l d -> sound l d'.
Proof. intros A Hl. unfold sound. destruct (A l Hl) as [-> ->]. done. Qed.
Lemma agree_sound l d : agree l d -> sound l d.
Proof. unfold agree, sound. by intros ->. Qed.

(** *** Driving a line *)

Lemma drive_spec l c s : same_but [l] (dev s) (dev (drive_line c (Z.shiftl 1 (line_no l)) s)) /\
  raised l (dev (drive_line c (Z.shiftl 1 (line_no l)) s)) = c /\
  status l (dev (drive_line c (Z.shiftl 1 (line_no l)) s)) = status l (dev s).
Proof.
  unfold drive_line, at_emu, zoom, widen. cbn [dev]. set (m := set_line _ _ _). rewrite dev_plic_update.
  assert (A : active (plic (dev (on_plic plic_latch m))) = put_bit c (line_no l) (active (plic (f_emu (dev s))))) by done.
  assert (B : forall l', status l' (put_emu (dev (on_plic plic_latch m)) (dev s)) = status l' (dev s)) by (by intros []).
  pose proof (line_no_range l) as R. set (e := dev (on_plic plic_latch m)) in *. clearbody e.
  assert (C : forall l', raised l' (put_emu e (dev s)) = if line_no l' =? line_no l then c else raised l' (dev s)).
  { intros l'. pose proof (line_no_range l'). unfold raised at 1.
    change (f_emu (put_emu e (dev s))) with e. rewrite A, testbit_put by lia. done. }
  split_and!; [|by rewrite C, Z.eqb_refl|apply B]. intros l' Hl. split; [|apply B]. rewrite C.
  destruct (Z.eqb_spec (line_no l') (line_no l)) as [E0|_]; [|done].
  apply line_no_inj in E0 as ->. exfalso. apply Hl. left.
Qed.

(** A poll of line [l]: drive it when the device asks. *)
Lemma poll_spec l s : sound l (dev s) ->
  let s' := if status l (dev s) then drive_line (status l (dev s)) (Z.shiftl 1 (line_no l)) s else s in
  same_but [l] (dev s) (dev s') /\ agree l (dev s').
Proof.
  intros H s'. unfold s'. destruct (status l (dev s)) eqn:Es.
  - destruct (drive_spec l true s) as (A & B & C). split; [done|]. unfold agree. congruence.
  - split; [by intros ? ?|]. unfold agree, sound in *. rewrite Es in *.
    destruct (raised l (dev s)); [by discriminate (H eq_refl)|done].
Qed.

(** *** The basic devices *)

(** The lines above the UART's, and both devices, are the same. *)
Definition estep X (e e' : emu_state_t E) : Prop := forall d, same_but X (put_emu e d) (put_emu e' d).

Lemma still_estep m m' : still m m' -> estep [] (dev m) (dev m').
Proof.
  unfold still, wires. intros [= A B C] d l _. unfold raised. change (f_emu (put_emu (dev m') d)) with (dev m').
  change (f_emu (put_emu (dev m) d)) with (dev m). rewrite A. by destruct l.
Qed.

Lemma estep_trans X e1 e2 e3 : estep X e1 e2 -> estep X e2 e3 -> estep X e1 e3.
Proof. intros A B d. eapply same_but_trans; [apply A|apply B]. Qed.

Lemma uart_estep m : estep [] (dev m) (dev (emu_update_uart_interrupts m)).
Proof.
  intros d l _. unfold emu_update_uart_interrupts. rewrite dev_plic_update. split; [|by destruct l].
  set (m1 := on_uart u8250_update_interrupts m). set (c := nz _).
  change (Z.testbit (put_bit c 1 (active (plic (dev m)))) (line_no l) = Z.testbit (active (plic (dev m))) (line_no l)).
  pose proof (line_no_range l). rewrite testbit_put by lia. destruct (Z.eqb_spec (line_no l) 1); [lia|done].
Qed.

(** Driving a line of a basic device. *)
Lemma basic_drive l c m d : same_but [l] (put_emu (dev m) d)
    (put_emu (dev (plic_update_interrupts (set_line c (Z.shiftl 1 (line_no l)) m))) d) /\
  raised l (put_emu (dev (plic_update_interrupts (set_line c (Z.shiftl 1 (line_no l)) m))) d) = c /\
  status l (put_emu (dev (plic_update_interrupts (set_line c (Z.shiftl 1 (line_no l)) m))) d) = status l (put_emu (dev m) d).
Proof.
  pose (s := mk_machine (hart m) (peers m) (ram m) (ram_ptr m) (ram_oob m) (boot_complete m) (stack_junk m) (put_emu (dev m) d)).
  pose proof (drive_spec l c s) as H. unfold drive_line, at_emu, zoom, widen in H. cbn [dev] in H.
  replace (narrow f_emu s) with m in H by (by destruct m). exact H.
Qed.

(** *** A device step inside the whole machine *)

Lemma at_emu_same X f s : (forall m, estep X (dev m) (dev (f m))) -> same_but X (dev s) (dev (at_emu f s)).
Proof.
  intros H. specialize (H (narrow f_emu s) (dev s)). unfold at_emu, zoom, widen. cbn [dev].
  change (put_emu (dev (narrow f_emu s)) (dev s)) with (put_emu (f_emu (dev s)) (dev s)) in H.
  replace (put_emu (f_emu (dev s)) (dev s)) with (dev s) in H by (by destruct (dev s)). done.
Qed.

Lemma at_emur_same {A} X (f : machine (emu_state_t E) -> A * machine (emu_state_t E)) s :
  (forall m, estep X (dev m) (dev (snd (f m)))) -> same_but X (dev s) (dev (snd (at_emur f s))).
Proof.
  intros H. pose proof (at_emu_same X (fun m => snd (f m)) s H) as K. unfold at_emur, zoomr.
  unfold at_emu, zoom in K. by destruct (f (narrow f_emu s)).
Qed.

Lemma blk_store_ok f s : (forall m, keepb m (f m)) ->
  let s' := at_emu (fun m => emu_update_vblk_interrupts (f m)) s in same_but [VBLK] (dev s) (dev s') /\ agree VBLK (dev s').
Proof.
  intros K s'. unfold s', at_emu, zoom, widen. cbn [dev]. set (m := f (narrow f_emu s)).
  destruct (basic_drive VBLK (blk_irq (dev m)) m (dev s)) as (A & B & C). split; [|unfold agree; etransitivity; [exact B|]; by etransitivity; [|symmetry; exact C]].
  eapply same_but_trans; [|exact A]. intros l Hl. specialize (K (narrow f_emu s)). fold m in K.
  unfold keepb, beside_blk in K. injection K as K1 K2. unfold raised. change (f_emu (put_emu (dev m) (dev s))) with (dev m).
  rewrite K1. split; [done|]. destruct l; try done. exfalso. apply Hl. left.
Qed.

Lemma rng_store_ok f s : (forall m, keepr m (f m)) ->
  let s' := at_emu (fun m => emu_update_vrng_interrupts (f m)) s in same_but [VRNG] (dev s) (dev s') /\ agree VRNG (dev s').
Proof.
  intros K s'. unfold s', at_emu, zoom, widen. cbn [dev]. set (m := f (narrow f_emu s)).
  destruct (basic_drive VRNG (rng_irq (dev m)) m (dev s)) as (A & B & C). split; [|unfold agree; etransitivity; [exact B|]; by etransitivity; [|symmetry; exact C]].
  eapply same_but_trans; [|exact A]. intros l Hl. specialize (K (narrow f_emu s)). fold m in K.
  unfold keepr, beside_rng in K. injection K as K1 K2. unfold raised. change (f_emu (put_emu (dev m) (dev s))) with (dev m).
  rewrite K1. split; [done|]. destruct l; try done. exfalso. apply Hl. left.
Qed.

(** A device of its own steps, then its line is driven. *)
Lemma drive_after l c s s1 : same_but [l] (dev s) (dev s1) -> c = status l (dev s1) ->
  same_but [l] (dev s) (dev (drive_line c (Z.shiftl 1 (line_no l)) s1)) /\
  agree l (dev (drive_line c (Z.shiftl 1 (line_no l)) s1)).
Proof.
  intros H Hc. destruct (drive_spec l c s1) as (A & B & C). split; [by eapply same_but_trans|].
  unfold agree. by rewrite B, C.
Qed.

Lemma zoom_net_same f s s1 : zoomo f_net put_net f s = Some s1 -> same_but [VNET] (dev s) (dev s1).
Proof.
  unfold zoomo. destruct (f (narrow f_net s)) as [m|]; [|done]. intros [= <-] l Hl. split; [done|].
  destruct l; try done. exfalso. apply Hl. left.
Qed.
Lemma zoom_snd_same f s : same_but [VSND] (dev s) (dev (zoom f_snd put_snd f s)).
Proof. intros l Hl. split; [done|]. destruct l; try done. exfalso. apply Hl. left. Qed.
Lemma zoom_fs_same f s : same_but [VFS] (dev s) (dev (zoom f_fs put_fs f s)).
Proof. intros l Hl. split; [done|]. destruct l; try done. exfalso. apply Hl. left. Qed.
Lemma zoom_gpu_same f s : same_but [VGPU] (dev s) (dev (zoom f_gpu put_gpu f s)).
Proof. intros l Hl. split; [done|]. destruct l; try done. exfalso. apply Hl. left. Qed.
Lemma zoom_keyboard_same addr width value s :
  same_but [VKEYBOARD] (dev s) (dev (zoom f_input put_input (virtio_input_write VINPUT_KEYBOARD_ID addr width value) s)).
Proof.
  intros l Hl. split; [done|]. destruct l; try done; [exfalso; apply Hl; left|].
  apply (input_write_apart VINPUT_MOUSE_ID VINPUT_KEYBOARD_ID); done.
Qed.
Lemma zoom_mouse_same addr width value s :
  same_but [VMOUSE] (dev s) (dev (zoom f_input put_input (virtio_input_write VINPUT_MOUSE_ID addr width value) s)).
Proof.
  intros l Hl. split; [done|]. destruct l; try done; [|exfalso; apply Hl; left].
  apply (input_write_apart VINPUT_KEYBOARD_ID VINPUT_MOUSE_ID); done.
Qed.

(** *** Loads and stores *)

Lemma same_raise X c v s : same_but X (dev s) (dev (raise c v s)).
Proof. by intros ? ?. Qed.

Lemma load_same addr width s : same_but [] (dev s) (dev (snd (full_mem_load addr width s))).
Proof.
  unfold full_mem_load. destruct (addr <? RAM_SIZE).
  { unfold ram_read. repeat case_match; cbn [snd]; try apply same_raise. by rewrite dev_touch. }
  destruct (_ =? 15); [|apply same_raise].
  assert (Hu : forall o, same_but [] (dev s) (dev (snd (uart_load o width s)))).
  { intros o. unfold uart_load. pose proof (at_emur_same [] (u8250_read o width) s (fun m => still_estep _ _ (still_uart_read o width m))) as K.
    destruct (at_emur (u8250_read o width) s) as [v s1]. cbn [snd] in *. eapply same_but_trans; [exact K|].
    apply at_emu_same, uart_estep. }
  set (o := Z.land addr 0xFFFFF). 
  assert (Hn : same_but [] (dev s) (dev (snd (zoomr f_net put_net (virtio_net_read o width) s)))).
  { unfold zoomr. pose proof (net_read_irq o width (narrow f_net s)) as K.
    destruct (virtio_net_read o width _) as [v m]. intros l _. split; [done|]. destruct l; done. }
  assert (Hs : same_but [] (dev s) (dev (snd (zoomr f_snd put_snd (virtio_snd_read o width) s)))).
  { unfold zoomr. pose proof (snd_read_regs o width (narrow f_snd s)) as K. 
    destruct (virtio_snd_read o width _) as [v m]. intros l _. split; [done|]. destruct l; try done;
    cbn in *; unfold vsnd_irq; cbn; by rewrite K. }
  assert (Hf : same_but [] (dev s) (dev (snd (zoomr f_fs put_fs (virtio_fs_read o width) s)))).
  { unfold zoomr. pose proof (fs_read_regs o width (narrow f_fs s)) as K. 
    destruct (virtio_fs_read o width _) as [v m]. intros l _. split; [done|]. destruct l; try done;
    cbn in *; unfold vfs_irq; cbn; by rewrite K. }
  assert (Hg : same_but [] (dev s) (dev (snd (zoomr f_gpu put_gpu (virtio_gpu_read o width) s)))).
  { unfold zoomr. pose proof (gpu_read_regs o width (narrow f_gpu s)) as K. 
    destruct (virtio_gpu_read o width _) as [v m]. intros l _. split; [done|]. destruct l; try done;
    cbn in *; unfold vgpu_irq; cbn; by rewrite K. }
  assert (Hi : forall v, same_but [] (dev s) (dev (snd (zoomr f_input put_input (virtio_input_read v o width) s)))).
  { intros v. unfold zoomr. pose proof (fun j => input_read_irq j v o width (narrow f_input s)) as K.
    destruct (virtio_input_read v o width _) as [x m]. intros l _. split; [done|]. destruct l; try done; apply K. }
  repeat case_match; try apply same_raise; try apply Hu; try apply Hi; try assumption;
    apply at_emur_same; intros m; apply still_estep;
    first [apply still_swi_read|auto using still_plic_read, still_mtimer_read, blk_read_still, rng_read_still].
Qed.

(** A store changes no line, or agrees on the line of the device it went to. *)
Definition stored d d' : Prop := same_but [] d d' \/ exists l, same_but [l] d d' /\ agree l d'.

Lemma stored_emu f s : (forall m, still m (f m)) -> stored (dev s) (dev (at_emu f s)).
Proof. intros Hf. left. apply at_emu_same. intros m. apply still_estep, Hf. Qed.

Lemma stored_drive l c s s1 : same_but [l] (dev s) (dev s1) -> c = status l (dev s1) ->
  stored (dev s) (dev (drive_line c (Z.shiftl 1 (line_no l)) s1)).
Proof. intros H Hc. right. exists l. by apply drive_after. Qed.

(** The devices whose lines are not those of a virtio device. *)
Lemma core_store_stored a o width value s :
  stored (dev s) (dev (at_emu (fun m => emu_update_uart_interrupts (u8250_write o width value m)) s)) /\
  stored (dev s) (dev (at_emu (fun m => plic_update_interrupts (plic_write a width value m)) s)) /\
  stored (dev s) (dev (at_emu (fun m => aclint_mtimer_update_interrupts (aclint_mtimer_write o width value m)) s)) /\
  stored (dev s) (dev (at_emu (fun m => aclint_mswi_update_interrupts (aclint_mswi_write o width value m)) s)) /\
  stored (dev s) (dev (at_emu (fun m => aclint_sswi_update_interrupts (aclint_sswi_write o width value m)) s)).
Proof.
  split_and!; [left; apply at_emu_same|apply stored_emu..]; intros m.
  - eapply estep_trans; [apply still_estep, still_uart_write|apply uart_estep].
  - eapply still_trans; [apply still_plic_write|apply still_plic_update].
  - eapply still_trans; [apply still_mtimer_write|apply still_mtimer_update].
  - apply (still_swi_write o width value m).
  - apply (still_swi_write o width value m).
Qed.

Lemma virtio_store_stored o width value s :
  stored (dev s) (dev (at_emu (fun m => emu_update_vblk_interrupts (virtio_blk_write o width value m)) s)) /\
  stored (dev s) (dev (at_emu (fun m => emu_update_vrng_interrupts (virtio_rng_write o width value m)) s)) /\
  stored (dev s) (dev (emu_update_vsnd_interrupts (zoom f_snd put_snd (virtio_snd_write o width value) s))) /\
  stored (dev s) (dev (emu_update_vfs_interrupts (zoom f_fs put_fs (virtio_fs_write o width value) s))) /\
  stored (dev s) (dev (emu_update_vgpu_interrupts (zoom f_gpu put_gpu (virtio_gpu_write o width value) s))) /\
  stored (dev s) (dev (emu_update_vinput_keyboard_interrupts
    (zoom f_input put_input (virtio_input_write VINPUT_KEYBOARD_ID o width value) s))) /\
  stored (dev s) (dev (emu_update_vinput_mouse_interrupts
    (zoom f_input put_input (virtio_input_write VINPUT_MOUSE_ID o width value) s))).
Proof.
  split_and!.
  - right. exists VBLK. apply blk_store_ok. intros m. apply blk_write_keepb.
  - right. exists VRNG. apply rng_store_ok. intros m. apply rng_write_keepr.
  - apply (stored_drive VSND); [apply zoom_snd_same|done].
  - apply (stored_drive VFS); [apply zoom_fs_same|done].
  - apply (stored_drive VGPU); [apply zoom_gpu_same|done].
  - apply (stored_drive VKEYBOARD); [apply zoom_keyboard_same|done].
  - apply (stored_drive VMOUSE); [apply zoom_mouse_same|done].
Qed.

Lemma net_store_stored fuel o width value s s' :
  emu_update_vnet_interrupts <$> zoomo f_net put_net (virtio_net_write fuel o width value) s = Some s' ->
  stored (dev s) (dev s').
Proof.
  destruct (zoomo _ _ _ s) as [s1|] eqn:E1; [|done]. intros [= <-]. apply (stored_drive VNET); [|done].
  by eapply zoom_net_same.
Qed.

Lemma store_stored fuel addr width value s s' : full_mem_store fuel addr width value s = Some s' ->
  stored (dev s) (dev s').
Proof.
  unfold full_mem_store. destruct (addr <? RAM_SIZE).
  { intros [= <-]. left. unfold ram_write, wr32. repeat case_match; try apply same_raise. by cbn; rewrite dev_touch. }
  set (o := Z.land addr 0xFFFFF). destruct (_ =? 15); [|intros [= <-]; left; apply same_raise].
  destruct (core_store_stored (Z.land addr 0x3FFFFFF) o width value s) as (C1 & C2 & C3 & C4 & C5).
  destruct (virtio_store_stored o width value s) as (V1 & V2 & V3 & V4 & V5 & V6 & V7).
  pose proof (net_store_stored fuel o width value s s') as Vn.
  assert (H0 : stored (dev s) (dev (raise RV_EXC_STORE_FAULT (exc_val (hart s)) s))) by (left; apply same_raise).
  repeat match goal with H : stored _ (dev ?x) |- _ => tryif is_var x then fail else (revert H; generalize x; intros ? H) end.
  repeat case_match; try exact Vn; intros [= <-]; assumption.
Qed.

(** *** The poll *)

Lemma uart_poll_same s : same_but [] (dev s) (dev (
  let s := at_emu u8250_check_ready s in
  let s := at_emu u8250_flush_out s in
  if in_ready (uart (f_emu (dev s))) then at_emu emu_update_uart_interrupts s else s)).
Proof.
  cbv zeta. set (s1 := at_emu u8250_check_ready s). set (s2 := at_emu u8250_flush_out s1).
  assert (H : same_but [] (dev s) (dev s2)).
  { eapply same_but_trans; apply at_emu_same; intros m; apply still_estep; [apply still_check_ready|apply still_uart_host]. }
  case_match; [|exact H]. eapply same_but_trans; [exact H|]. apply at_emu_same, uart_estep.
Qed.

Lemma net_step_sound fuel s s1 : zoomo f_net put_net (virtio_net_refresh_queue fuel) s = Some s1 ->
  sound VNET (dev s) -> sound VNET (dev s1).
Proof.
  unfold zoomo. destruct (virtio_net_refresh_queue fuel (narrow f_net s)) as [m|] eqn:E1; [|done].
  apply refresh_up in E1. intros [= <-] H R. apply E1, H, R.
Qed.

Lemma input_step_sound s s1 j l : zoomo f_input put_input virtio_input_drain_host_events s = Some s1 ->
  (l = VKEYBOARD /\ j = VINPUT_KEYBOARD_ID \/ l = VMOUSE /\ j = VINPUT_MOUSE_ID) -> sound l (dev s) -> sound l (dev s1).
Proof.
  unfold zoomo. destruct (virtio_input_drain_host_events (narrow f_input s)) as [m|] eqn:E1; [|done].
  apply (drain_up j) in E1. intros [= <-] [[-> ->]|[-> ->]] H R; apply E1, H, R.
Qed.

Lemma zoom_input_same s s1 f : zoomo f_input put_input f s = Some s1 -> same_but [VKEYBOARD; VMOUSE] (dev s) (dev s1).
Proof.
  unfold zoomo. destruct (f (narrow f_input s)) as [m|]; [|done]. intros [= <-] l Hl. split; [done|].
  destruct l; try done; exfalso; apply Hl; set_solver.
Qed.

Lemma basic_poll_blk s : sound VBLK (dev s) ->
  let s' := if vblk_irq (dev s) then at_emu emu_update_vblk_interrupts s else s in
  same_but [VBLK] (dev s) (dev s') /\ agree VBLK (dev s').
Proof. exact (poll_spec VBLK s). Qed.
Lemma basic_poll_rng s : sound VRNG (dev s) ->
  let s' := if vrng_irq (dev s) then at_emu emu_update_vrng_interrupts s else s in
  same_but [VRNG] (dev s) (dev s') /\ agree VRNG (dev s').
Proof. exact (poll_spec VRNG s). Qed.

(** No line is up without cause, and those of [A] agree. *)
Definition known (A : list line) d : Prop := (forall l, sound l d) /\ (forall l, l ∈ A -> agree l d).

Lemma known_same A d d' : same_but [] d d' -> known A d -> known A d'.
Proof.
  intros H [K1 K2]. split; intros l; [|intros Hl].
  - eapply same_sound; [exact H|set_solver|apply K1].
  - eapply same_agree; [exact H|set_solver|by apply K2].
Qed.

Lemma known_step A X d d' : same_but X d d' -> (forall l, l ∈ X -> l ∉ A /\ sound l d') -> known A d -> known A d'.
Proof.
  intros H Hx [K1 K2]. split; intros l; [|intros Hl].
  - destruct (decide (l ∈ X)) as [Hl|Hl]; [by apply Hx|]. by eapply same_sound.
  - assert (l ∉ X) by (intros Hlx; by destruct (Hx l Hlx)). eapply same_agree; [done..|by apply K2].
Qed.

Lemma known_poll A l s s' : s' = (if status l (dev s) then drive_line (status l (dev s)) (Z.shiftl 1 (line_no l)) s else s) ->
  known A (dev s) -> known (l :: A) (dev s').
Proof.
  intros -> [K1 K2]. destruct (poll_spec l s (K1 l)) as [H Ga]. cbv zeta in H, Ga.
  set (s' := if status l (dev s) then drive_line (status l (dev s)) (Z.shiftl 1 (line_no l)) s else s) in *. clearbody s'.
  assert (Q : forall l', l' <> l -> l' ∉ [l]) by set_solver. split; intros l'; [|intros Hl];
    (destruct (decide (l' = l)) as [->|Hne]; [by auto using agree_sound|]).
  - by eapply same_sound; eauto.
  - eapply same_agree; eauto. apply K2. set_solver.
Qed.

Lemma tick_known fuel s s' : known [VGPU] (dev s) -> full_tick_peripherals fuel s = Some s' ->
  if peripheral_update_ctr (f_emu (dev s)) =? 0 then forall l, agree l (dev s') else same_but [] (dev s) (dev s').
Proof.
  intros K. unfold full_tick_peripherals. set (c := peripheral_update_ctr _).
  assert (Hc : forall x (t : machine (full_dev E N S F G)), same_but [] (dev t)
    (dev (at_emu (on_dev (fun d : emu_state_t E => d <| peripheral_update_ctr := x |>)) t))).
  { intros x t. apply at_emu_same. intros m. by apply still_estep. }
  destruct (c =? 0); [|intros [= <-]; apply Hc].
  set (s1 := at_emu (on_dev _) (at_emu (on_dev _) s)).
  assert (K1 : known [VGPU] (dev s1)).
  { eapply known_same; [|exact K]. eapply same_but_trans; apply Hc. }
  pose proof (known_same _ _ _ (uart_poll_same s1) K1) as K2. cbv zeta in K2. set (s2 := if in_ready _ then _ else _) in *.
  clearbody s2. clear K1 s1. destruct (zoomo f_net put_net _ s2) as [s3|] eqn:E3; [|done]. cbn [mbind option_bind].
  assert (K3 : known [VGPU] (dev s3)).
  { eapply known_step; [by eapply zoom_net_same| |exact K2]. intros l Hl. assert (l = VNET) as -> by set_solver.
    split; [set_solver|]. eapply net_step_sound; [exact E3|apply K2]. }
  clear K2 E3. set (s4 := if vnet_irq _ then _ else s3). assert (K4 := known_poll _ VNET s3 s4 eq_refl K3). clearbody s4.
  set (s5 := if vblk_irq _ then _ else s4). assert (K5 := known_poll _ VBLK s4 s5 eq_refl K4). clearbody s5.
  set (s6 := if vrng_irq _ then _ else s5). assert (K6 := known_poll _ VRNG s5 s6 eq_refl K5). clearbody s6.
  set (s7 := if vsnd_irq _ then _ else s6). assert (K7 := known_poll _ VSND s6 s7 eq_refl K6). clearbody s7.
  set (s8 := if vfs_irq _ then _ else s7). assert (K8 := known_poll _ VFS s7 s8 eq_refl K7). clearbody s8.
  clear K K3 K4 K5 K6 K7.
  destruct (if vinput_may_have_pending_cmds _ then _ else Some s8) as [s9|] eqn:E9; [|done]. cbn [mbind option_bind].
  assert (K9 : known [VFS; VSND; VRNG; VBLK; VNET; VGPU] (dev s9)).
  { destruct (vinput_may_have_pending_cmds _); [|by injection E9 as <-].
    eapply known_step; [by eapply zoom_input_same| |exact K8]. intros l Hl. split; [set_solver|].
    assert (Hl2 : l = VKEYBOARD \/ l = VMOUSE) by set_solver.
    destruct Hl2 as [->| ->]; eapply input_step_sound; eauto; apply K8. }
  set (s10 := if vinput_irq VINPUT_KEYBOARD_ID s9 then _ else s9). assert (K10 := known_poll _ VKEYBOARD s9 s10 eq_refl K9). clearbody s10.
  set (s11 := if vinput_irq VINPUT_MOUSE_ID s10 then _ else s10). assert (K11 := known_poll _ VMOUSE s10 s11 eq_refl K10). clearbody s11.
  intros [= <-] l. assert (Ga : agree l (dev s11)) by (apply K11; destruct l; set_solver).
  destruct (window_is_closed_sw _); [|exact Ga]. eapply (same_agree []); [|set_solver|exact Ga]. apply at_emu_same. intros m. by apply still_estep.
Qed.

(** ** Every step of the machine *)

(** What the code guarantees between steps: the lines agree, but for the sound
    device, whose own threads can ask before the next poll. *)
Definition lag d : Prop := sound VSND d /\ forall l, l <> VSND -> agree l d.

(** A load, a store, a tick of the poll, or a step of the sound device's threads. *)
Inductive bus_step s : machine (full_dev E N S F G) -> Prop :=
  | step_load addr width : bus_step s (snd (full_mem_load addr width s))
  | step_store fuel addr width value s' : full_mem_store fuel addr width value s = Some s' -> bus_step s s'
  | step_tick fuel s' : full_tick_peripherals fuel s = Some s' -> bus_step s s'
  | step_tx : bus_step s (zoom f_snd put_snd tx_step s)
  | step_call frames : bus_step s (zoom f_snd put_snd (virtio_snd_stream_cb frames) s)
  | step_cb : bus_step s (zoom f_snd put_snd (fun m : machine (snd_dev S) => snd (cb_step m)) s).

Lemma lag_snd f s : (forall m : machine (snd_dev S), rises sirq m (f m)) -> lag (dev s) -> lag (dev (zoom f_snd put_snd f s)).
Proof.
  intros H [L1 L2]. split; [intros R; apply H, L1, R|]. intros l Hl. specialize (L2 l Hl). by destruct l.
Qed.

Lemma lag_known d : lag d -> known [VGPU] d.
Proof.
  intros [H1 H2]. split; intros l.
  - destruct (decide (l = VSND)) as [->|]; [done|]. by apply agree_sound, H2.
  - intros Hl. apply H2. intros ->. set_solver.
Qed.

Lemma lag_same d d' : same_but [] d d' -> lag d -> lag d'.
Proof.
  intros H [H1 H2]. split; [eapply same_sound; [exact H|set_solver|exact H1]|]. intros l Hl.
  eapply same_agree; [exact H|set_solver|by apply H2].
Qed.

Lemma lag_agree d : (forall l, agree l d) -> lag d.
Proof. intros H. split; [by apply agree_sound|auto]. Qed.

Lemma bus_step_lag s s' : bus_step s s' -> lag (dev s) -> lag (dev s').
Proof.
  intros [addr width|fuel addr width value s1 E1|fuel s1 E1| |frames|] L.
  - eapply lag_same; [apply load_same|done].
  - destruct (store_stored _ _ _ _ _ _ E1) as [H|(l & H & A)]; [by eapply lag_same|]. destruct L as [L1 L2].
    assert (Q : forall l', l' <> l -> l' ∉ [l]) by set_solver. split.
    + destruct (decide (VSND = l)) as [<-|]; [by apply agree_sound|]. eapply same_sound; eauto.
    + intros l' Hl. destruct (decide (l' = l)) as [->|]; [done|]. eapply same_agree; eauto.
  - pose proof (tick_known _ _ _ (lag_known _ L) E1) as H. case_match; [by apply lag_agree|by eapply lag_same].
  - by apply lag_snd; [apply tx_up|].
  - apply lag_snd; [|done]. intros m. by apply rises_same.
  - by apply lag_snd; [apply cb_up|].
Qed.

(** Before the first instruction: no line is up, no device asks. *)
Definition lines_down d : Prop := forall l, raised l d = false /\ status l d = false.

End Wiring.
