(* ===== verification/FullBus.v ===== *)
(** * The platform with every device is a lawful bus

    [full_bus] is the memory map of main.c with every device ([Full]) as the bus of the
    processor core. It keeps the contract [BusLaws], so the theorems on the core hold on
    the machine with every device too: for that, no code of virtio-net, virtio-fs,
    virtio-snd, virtio-input and virtio-gpu looks at the hart that makes an access, which
    is shown function by function. *)

From stdpp Require Import base gmap list.
From Stdlib Require Import ZArith Lia Bool.
From S2P Require Import Prelude Isa Hart Machine Mmu Arch RamProps Loops Device Timer Plic.
From S2P Require Import Aclint Uart Virtio VirtioBlk VirtioRng Platform Frame PlatformLaws VirtioNet VirtioFs VirtioSnd.
From S2P Require Import InputEvent VirtioInput VgpuDisplay GpuDefs GpuEdid VirtioGpuSw VirtioGpu Full.
Open Scope Z_scope.

(** ** Code that does not look at the hart *)

(** The hart replaced in every machine of a result. *)
Class HartMap (T : Type) := hmap : hart_t -> T -> T.
#[export] Instance hmap_machine {D} : HartMap (machine D) := with_hart.
#[export] Instance hmap_pair {A B} `{!HartMap A, !HartMap B} : HartMap (A * B) := fun h p => match p with (a, b) => (hmap h a, hmap h b) end.
#[export] Instance hmap_option {A} `{!HartMap A} : HartMap (option A) := fun h o => match o with Some a => Some (hmap h a) | None => None end.
#[export] Instance hmap_other {T} : HartMap T | 100 := fun _ x => x.

(** [f] neither reads nor writes the hart. *)
Definition blind {D T} `{!HartMap T} (f : machine D -> T) : Prop := forall h s, f (with_hart h s) = hmap h (f s).

Create Rewrite HintDb hm.
Ltac hm_red := cbv [hmap hmap_machine hmap_pair hmap_option hmap_other mbind option_bind fmap option_fmap option_map]; cbn [fst snd].
(** What the evaluation of the left-hand side is waiting for. *)
Ltac hm_scrutinee t k :=
  lazymatch t with
  | match ?x with _ => _ end => hm_scrutinee x k
  | _ => k t
  end.
Ltac hm_any :=
  match goal with |- context [match ?x with _ => _ end] =>
    lazymatch x with context [match _ with _ => _ end] => fail | _ => destruct x end end.
Ltac hm_push tac := hm_red; autorewrite with hm; hm_red; tac; hm_red.
Ltac hm_step tac :=
  lazymatch goal with
  | |- match ?x with _ => _ end = _ =>
    hm_scrutinee x ltac:(fun t =>
      lazymatch t with
      | context [match _ with _ => _ end] => first [progress (hm_push tac) | hm_any; cbv beta iota]
      | context [with_hart] =>
        let H := fresh in eassert (H : t = _) by (hm_push tac; reflexivity); progress (rewrite H); clear H; cbv beta iota
      | _ => destruct t; cbv beta iota
      end)
  | _ => first [progress (hm_push tac) | reflexivity | hm_any; cbv beta iota]
  end.
Ltac hm_with tac := intros; try intros ? ?; hm_red; repeat hm_step tac; try congruence.
Ltac hm := hm_with idtac.

Section Dma.
Context {D : Type}.
Implicit Types s : machine D.
Lemma agnosticr_blind {A} (f : machine D -> A * machine D) : agnosticr f -> forall h s, f (with_hart h s) = match f s with (a, s) => (a, with_hart h s) end.
Proof. intros H h s. rewrite H. by destruct (f s). Qed.
Lemma ram_get_hm i h s : ram_get i (with_hart h s) = hmap h (ram_get i s).
Proof. apply agnosticr_blind, ram_get_wh. Qed.
Lemma dma_read_hm o n h s : dma_read o n (with_hart h s) = hmap h (dma_read o n s).
Proof. apply agnosticr_blind, dma_read_wh. Qed.
Lemma read_desc_hm i h s : read_desc i (with_hart h s) = hmap h (read_desc i s).
Proof. apply agnosticr_blind, read_desc_wh. Qed.
Lemma avail_entry_hm q i h s : avail_entry q i (with_hart h s) = hmap h (avail_entry q i s).
Proof. apply agnosticr_blind, avail_entry_wh. Qed.
Lemma fld32_hm h s o : fld32 (with_hart h s) o = fld32 s o. Proof. done. Qed.
Lemma fld64_hm h s o : fld64 (with_hart h s) o = fld64 s o. Proof. done. Qed.
Lemma put16_hm o v : agnostic (D:=D) (put16 o v). Proof. intros h s. apply dma_write_wh. Qed.
Lemma put32_hm o v : agnostic (D:=D) (put32 o v). Proof. intros h s. apply dma_write_wh. Qed.
Lemma put64_hm o v : agnostic (D:=D) (put64 o v). Proof. intros h s. apply dma_write_wh. Qed.
Lemma memset0_hm o n : agnostic (D:=D) (g_memset0 o n). Proof. intros h s. apply dma_write_wh. Qed.
End Dma.
#[export] Hint Rewrite @dev_wh @ram_wh @rd8_wh @rd32_wh @rd32_any_wh @fld32_hm @fld64_hm @on_dev_wh @touch_wh @wr32_wh @wr8_wh @ram_put_wh @dma_write_wh @put16_hm @put32_hm @put64_hm @memset0_hm
  @used_append_wh @used_publish_wh @ram_get_hm @dma_read_hm @read_desc_hm @avail_entry_hm : hm.

(** ** The devices *)

Section Net.
Context {E : Type} `{HostE : NetHost E}.
Implicit Types s : machine (net_dev E).
Lemma iov_write_hm {D} v b h (s : machine D) : vnet_iovec_write v b (with_hart h s) = hmap h (vnet_iovec_write v b s).
Proof. revert b s. induction v as [|x v IH]; intros [|y b] s; try done; cbn [vnet_iovec_write]. hm_with ltac:(rewrite ?IH). Qed.
Lemma iov_read_hm {D} v n h (s : machine D) : vnet_iovec_read v n (with_hart h s) = hmap h (vnet_iovec_read v n s).
Proof. revert n s. induction v as [|x v IH]; intros n s; [done|]; cbn [vnet_iovec_read]. hm_with ltac:(rewrite ?IH). Qed.
Lemma scatter_hm {D} v b h (s : machine D) : iov_scatter v b (with_hart h s) = with_hart h (iov_scatter v b s).
Proof. revert b s. induction v as [|x v IH]; intros b s; [done|]; cbn [iov_scatter]. hm_with ltac:(rewrite ?IH). Qed.
Lemma gather_hm {D} v h (s : machine D) : VirtioNet.iov_gather v (with_hart h s) = hmap h (VirtioNet.iov_gather v s).
Proof. revert s. induction v as [|x v IH]; intros s; [done|]; cbn [VirtioNet.iov_gather]. hm_with ltac:(rewrite ?IH). Qed.
#[local] Hint Rewrite @iov_write_hm @iov_read_hm @scatter_hm @gather_hm : hm.
Lemma with_host_hm {A} (f : E -> A * E) h s : with_host f (with_hart h s) = match with_host f s with (a, s) => (a, with_hart h s) end.
Proof. unfold with_host. hm. Qed.
Lemma nq_hm h s i : nq (with_hart h s) i = nq s i. Proof. done. Qed.
Lemma nregs_hm h s : nregs (with_hart h s) = nregs s. Proof. done. Qed.
Lemma on_vnet_hm f h s : on_vnet f (with_hart h s) = with_hart h (on_vnet f s). Proof. done. Qed.
Lemma on_nregs_hm f h s : on_nregs f (with_hart h s) = with_hart h (on_nregs f s). Proof. done. Qed.
Lemma set_ready_hm i b h s : set_ready i b (with_hart h s) = with_hart h (set_ready i b s). Proof. done. Qed.
#[local] Hint Rewrite @with_host_hm @nq_hm @nregs_hm @on_vnet_hm @on_nregs_hm @set_ready_hm : hm.
Lemma handle_read_hm q v h s : handle_read q v (with_hart h s) = hmap h (handle_read q v s).
Proof. unfold handle_read. hm. Qed.
Lemma handle_write_hm q v h s : handle_write q v (with_hart h s) = hmap h (handle_write q v s).
Proof. unfold handle_write. hm. Qed.
Lemma iterate_buffer_hm n c w q i h s : iterate_buffer n c w q i (with_hart h s) = hmap h (iterate_buffer n c w q i s).
Proof. revert i s. induction n as [|n IH]; intros i s; [done|]. cbn [iterate_buffer]. hm_with ltac:(rewrite ?IH). Qed.
#[local] Hint Rewrite @handle_read_hm @handle_write_hm @iterate_buffer_hm : hm.
Lemma buffer_to_iov_hm n w q i h s : buffer_to_iov n w q i (with_hart h s) = hmap h (buffer_to_iov n w q i s).
Proof. unfold buffer_to_iov. hm. Qed.
Lemma transfer_hm r q v h s : vnet_transfer r q v (with_hart h s) = hmap h (vnet_transfer r q v s).
Proof. unfold vnet_transfer. hm. Qed.
#[local] Hint Rewrite @buffer_to_iov_hm @transfer_hm : hm.
Lemma vnet_process_hm n f r q a u h s : vnet_process n f r q a u (with_hart h s) = hmap h (vnet_process n f r q a u s).
Proof. revert u s. induction n as [|n IH]; intros u s; [done|]. cbn [vnet_process]. hm_with ltac:(rewrite ?IH). Qed.
#[local] Hint Rewrite @vnet_process_hm : hm.
Lemma net_try_hm f r q h s : virtio_net_try f r q (with_hart h s) = hmap h (virtio_net_try f r q s).
Proof. unfold virtio_net_try. hm. Qed.
#[local] Hint Rewrite @net_try_hm : hm.
Lemma touch_config_hm i h s : touch_config i (with_hart h s) = with_hart h (touch_config i s).
Proof. unfold touch_config. hm. Qed.
#[local] Hint Rewrite @touch_config_hm : hm.
Lemma net_reg_read_hm a h s : virtio_net_reg_read a (with_hart h s) = hmap h (virtio_net_reg_read a s).
Proof. unfold virtio_net_reg_read. hm. Qed.
Lemma net_reg_write_hm f a v h s : virtio_net_reg_write f a v (with_hart h s) = hmap h (virtio_net_reg_write f a v s).
Proof. unfold virtio_net_reg_write, virtio_net_try_rx, virtio_net_try_tx. hm. Qed.
End Net.

Section Fs.
Context {E : Type} `{HostE : FsHost E}.
Implicit Types s : machine (fs_dev E).
Abbreviation agn := (agnostic (D:=fs_dev E)).
Abbreviation blind := (blind (D:=fs_dev E)).
Lemma on_fdev_hm f : agn (on_fdev f).
Proof. unfold on_fdev. hm. Qed.
#[local] Hint Rewrite @on_fdev_hm : hm.
Lemma on_fregs_hm f : agn (on_fregs f).
Proof. unfold on_fregs. hm. Qed.
#[local] Hint Rewrite @on_fregs_hm : hm.
Lemma h_call_hm {A} (f : E -> A * E) h s : h_call f (with_hart h s) = match h_call f s with (a, s) => (a, with_hart h s) end.
Proof. unfold h_call. hm. Qed.
#[local] Hint Rewrite @h_call_hm : hm.
Lemma h_do_hm f : agn (h_do f).
Proof. unfold h_do. hm. Qed.
#[local] Hint Rewrite @h_do_hm : hm.
Lemma f_malloc_hm size : blind (f_malloc size).
Proof. unfold f_malloc. hm. Qed.
#[local] Hint Rewrite @f_malloc_hm : hm.
Lemma get32_hm off : blind (get32 off).
Proof. unfold get32. hm. Qed.
#[local] Hint Rewrite @get32_hm : hm.
Lemma get64_hm off : blind (get64 off).
Proof. unfold get64. hm. Qed.
#[local] Hint Rewrite @get64_hm : hm.
Lemma virtio_fs_set_fail_hm : agn virtio_fs_set_fail.
Proof. unfold virtio_fs_set_fail. hm. Qed.
#[local] Hint Rewrite @virtio_fs_set_fail_hm : hm.
Lemma vfs_preprocess_hm addr : blind (vfs_preprocess addr).
Proof. unfold vfs_preprocess. hm. Qed.
#[local] Hint Rewrite @vfs_preprocess_hm : hm.
Lemma virtio_fs_update_status_hm status : agn (virtio_fs_update_status status).
Proof. unfold virtio_fs_update_status. hm. Qed.
#[local] Hint Rewrite @virtio_fs_update_status_hm : hm.
Lemma put_header_hm vq_desc len : agn (put_header vq_desc len).
Proof. unfold put_header. hm. Qed.
#[local] Hint Rewrite @put_header_hm : hm.
Lemma header_len_hm vq_desc : blind (header_len vq_desc).
Proof. unfold header_len. hm. Qed.
#[local] Hint Rewrite @header_len_hm : hm.
Lemma put_error_hm vq_desc err : blind (put_error vq_desc err).
Proof. unfold put_error. hm. Qed.
#[local] Hint Rewrite @put_error_hm : hm.
Lemma virtio_fs_init_handler_hm vq_desc : blind (virtio_fs_init_handler vq_desc).
Proof. unfold virtio_fs_init_handler. hm. Qed.
#[local] Hint Rewrite @virtio_fs_init_handler_hm : hm.
Lemma put_attr_hm attr st : agn (put_attr attr st).
Proof. unfold put_attr. hm. Qed.
#[local] Hint Rewrite @put_attr_hm : hm.
Lemma target_path_hm h s inode : target_path inode (with_hart h s) = target_path inode s.
Proof. done. Qed.
#[local] Hint Rewrite @target_path_hm : hm.
Lemma virtio_fs_getattr_handler_hm vq_desc : blind (virtio_fs_getattr_handler vq_desc).
Proof. unfold virtio_fs_getattr_handler. hm. Qed.
#[local] Hint Rewrite @virtio_fs_getattr_handler_hm : hm.
Lemma virtio_fs_opendir_handler_hm vq_desc : blind (virtio_fs_opendir_handler vq_desc).
Proof. unfold virtio_fs_opendir_handler. hm. Qed.
#[local] Hint Rewrite @virtio_fs_opendir_handler_hm : hm.
Lemma put_entry_hm entry_out st : agn (put_entry entry_out st).
Proof. unfold put_entry. hm. Qed.
#[local] Hint Rewrite @put_entry_hm : hm.
Lemma put_direntplus_hm base offset dir_path name : blind (put_direntplus base offset dir_path name).
Proof. unfold put_direntplus. hm. Qed.
#[local] Hint Rewrite @put_direntplus_hm : hm.
Lemma put_direntries_hm base offset dir_path names : blind (put_direntries base offset dir_path names).
Proof. revert offset. induction names as [|? names IH]; intros offset h s; [done|]. cbn [put_direntries]. hm_with ltac:(rewrite ?IH). Qed.
#[local] Hint Rewrite @put_direntries_hm : hm.
Lemma virtio_fs_readdirplus_handler_hm vq_desc : blind (virtio_fs_readdirplus_handler vq_desc).
Proof. unfold virtio_fs_readdirplus_handler. hm. Qed.
#[local] Hint Rewrite @virtio_fs_readdirplus_handler_hm : hm.
Lemma virtio_fs_releasedir_handler_hm vq_desc : blind (virtio_fs_releasedir_handler vq_desc).
Proof. unfold virtio_fs_releasedir_handler. hm. Qed.
#[local] Hint Rewrite @virtio_fs_releasedir_handler_hm : hm.
Lemma remember_inode_hm i host_path : blind (remember_inode i host_path).
Proof. unfold remember_inode. hm. Qed.
#[local] Hint Rewrite @remember_inode_hm : hm.
Lemma virtio_fs_lookup_handler_hm vq_desc : blind (virtio_fs_lookup_handler vq_desc).
Proof. unfold virtio_fs_lookup_handler. hm. Qed.
#[local] Hint Rewrite @virtio_fs_lookup_handler_hm : hm.
Lemma virtio_fs_open_handler_hm vq_desc : blind (virtio_fs_open_handler vq_desc).
Proof. unfold virtio_fs_open_handler. hm. Qed.
#[local] Hint Rewrite @virtio_fs_open_handler_hm : hm.
Lemma virtio_fs_read_handler_hm vq_desc : blind (virtio_fs_read_handler vq_desc).
Proof. unfold virtio_fs_read_handler. hm. Qed.
#[local] Hint Rewrite @virtio_fs_read_handler_hm : hm.
Lemma virtio_fs_release_handler_hm vq_desc : blind (virtio_fs_release_handler vq_desc).
Proof. unfold virtio_fs_release_handler. hm. Qed.
#[local] Hint Rewrite @virtio_fs_release_handler_hm : hm.
Lemma virtio_fs_flush_handler_hm vq_desc : blind (virtio_fs_flush_handler vq_desc).
Proof. unfold virtio_fs_flush_handler. hm. Qed.
#[local] Hint Rewrite @virtio_fs_flush_handler_hm : hm.
Lemma virtio_fs_forget_handler_hm vq_desc : blind (virtio_fs_forget_handler vq_desc).
Proof. unfold virtio_fs_forget_handler. hm. Qed.
#[local] Hint Rewrite @virtio_fs_forget_handler_hm : hm.
Lemma virtio_fs_destroy_handler_hm vq_desc : blind (virtio_fs_destroy_handler vq_desc).
Proof. unfold virtio_fs_destroy_handler. hm. Qed.
#[local] Hint Rewrite @virtio_fs_destroy_handler_hm : hm.
Lemma virtio_fs_default_handler_hm vq_desc : blind (virtio_fs_default_handler vq_desc).
Proof. unfold virtio_fs_default_handler. hm. Qed.
#[local] Hint Rewrite @virtio_fs_default_handler_hm : hm.
Lemma fs_descs_hm n queue desc_idx : blind (fs_descs n queue desc_idx).
Proof.
  revert queue desc_idx. induction n as [|n IH]; intros queue desc_idx h s; [done|]. cbn [fs_descs]. hm_with ltac:(rewrite ?IH).
Qed.
#[local] Hint Rewrite @fs_descs_hm : hm.
Lemma blind_if {T} `{!HartMap T} (b : bool) (f g : machine (fs_dev E) -> T) : blind f -> blind g -> blind (fun s => if b then f s else g s).
Proof. by destruct b. Qed.
Lemma fs_dispatch_hm op vq_desc : blind (fs_dispatch op vq_desc).
Proof.
  unfold fs_dispatch.
  apply blind_if; [apply virtio_fs_init_handler_hm|]. apply blind_if; [apply virtio_fs_getattr_handler_hm|]. apply blind_if; [apply virtio_fs_opendir_handler_hm|].
  apply blind_if; [apply virtio_fs_readdirplus_handler_hm|]. apply blind_if; [apply virtio_fs_lookup_handler_hm|]. apply blind_if; [apply virtio_fs_forget_handler_hm|].
  apply blind_if; [apply virtio_fs_releasedir_handler_hm|]. apply blind_if; [apply virtio_fs_open_handler_hm|]. apply blind_if; [apply virtio_fs_read_handler_hm|].
  apply blind_if; [apply virtio_fs_release_handler_hm|]. apply blind_if; [apply virtio_fs_flush_handler_hm|]. apply blind_if; [apply virtio_fs_destroy_handler_hm|].
  apply virtio_fs_default_handler_hm.
Qed.
#[local] Hint Rewrite @fs_dispatch_hm : hm.
Lemma virtio_fs_desc_handler_hm queue desc_idx : blind (virtio_fs_desc_handler queue desc_idx).
Proof. unfold virtio_fs_desc_handler. hm. Qed.
#[local] Hint Rewrite @virtio_fs_desc_handler_hm : hm.
Lemma fqueue_hm h s index : fqueue (with_hart h s) index = fqueue s index.
Proof. done. Qed.
#[local] Hint Rewrite @fqueue_hm : hm.
Lemma fs_notify_loop_hm n index new_used : blind (fs_notify_loop n index new_used).
Proof.
  revert index new_used. induction n as [|n IH]; intros index new_used h s; [done|]. cbn [fs_notify_loop]. hm_with ltac:(rewrite ?IH).
Qed.
#[local] Hint Rewrite @fs_notify_loop_hm : hm.
Lemma virtio_fs_queue_notify_handler_hm index : agn (virtio_fs_queue_notify_handler index).
Proof. unfold virtio_fs_queue_notify_handler. hm. Qed.
#[local] Hint Rewrite @virtio_fs_queue_notify_handler_hm : hm.
Lemma fsel_hm h s : fsel (with_hart h s) = fsel s.
Proof. done. Qed.
#[local] Hint Rewrite @fsel_hm : hm.
Lemma upd_fsel_hm f : agn (upd_fsel f).
Proof. unfold upd_fsel. hm. Qed.
#[local] Hint Rewrite @upd_fsel_hm : hm.
Lemma cfg_read_hm addr : blind (cfg_read addr).
Proof. unfold cfg_read. hm. Qed.
#[local] Hint Rewrite @cfg_read_hm : hm.
Lemma virtio_fs_reg_read_hm addr : blind (virtio_fs_reg_read addr).
Proof. unfold virtio_fs_reg_read. hm. Qed.
#[local] Hint Rewrite @virtio_fs_reg_read_hm : hm.
Lemma cfg_write_hm addr value : blind (cfg_write addr value).
Proof. unfold cfg_write. hm. Qed.
#[local] Hint Rewrite @cfg_write_hm : hm.
Lemma virtio_fs_reg_write_hm addr value : blind (virtio_fs_reg_write addr value).
Proof. unfold virtio_fs_reg_write. hm. Qed.
#[local] Hint Rewrite @virtio_fs_reg_write_hm : hm.
End Fs.

Section Snd.
Context {E : Type} `{HostE : SndHost E}.
Implicit Types s : machine (snd_dev E).
Abbreviation agn := (agnostic (D:=snd_dev E)).
Abbreviation blind := (blind (D:=snd_dev E)).
Lemma on_sdev_hm f : agn (on_sdev f).
Proof. unfold on_sdev. hm. Qed.
#[local] Hint Rewrite @on_sdev_hm : hm.
Lemma on_sregs_hm f : agn (on_sregs f).
Proof. unfold on_sregs. hm. Qed.
#[local] Hint Rewrite @on_sregs_hm : hm.
Lemma on_props_hm f : agn (on_props f).
Proof. unfold on_props. hm. Qed.
#[local] Hint Rewrite @on_props_hm : hm.
Lemma on_lock_hm f : agn (on_lock f).
Proof. unfold on_lock. hm. Qed.
#[local] Hint Rewrite @on_lock_hm : hm.
Lemma fault_hm f : agn (fault f).
Proof. unfold fault. hm. Qed.
#[local] Hint Rewrite @fault_hm : hm.
Lemma s_props_hm h s : s_props (with_hart h s) = s_props s.
Proof. done. Qed.
#[local] Hint Rewrite @s_props_hm : hm.
Lemma code_of_hm h s : code_of (with_hart h s) = code_of s.
Proof. done. Qed.
#[local] Hint Rewrite @code_of_hm : hm.
Lemma set_code_hm v : agn (set_code v).
Proof. unfold set_code. hm. Qed.
#[local] Hint Rewrite @set_code_hm : hm.
Lemma snd_call_hm {A} (f : E -> A * E) h s : snd_call f (with_hart h s) = match snd_call f s with (a, s) => (a, with_hart h s) end.
Proof. unfold snd_call. hm. Qed.
#[local] Hint Rewrite @snd_call_hm : hm.
Lemma s_malloc_hm size : blind (s_malloc size).
Proof. unfold s_malloc. hm. Qed.
#[local] Hint Rewrite @s_malloc_hm : hm.
Lemma sget32_hm off : blind (sget32 off).
Proof. unfold sget32. hm. Qed.
#[local] Hint Rewrite @sget32_hm : hm.
Lemma sget8_hm off : blind (sget8 off).
Proof. unfold sget8. hm. Qed.
#[local] Hint Rewrite @sget8_hm : hm.
Lemma put8_hm off v : agn (put8 off v).
Proof. unfold put8. hm. Qed.
#[local] Hint Rewrite @put8_hm : hm.
Lemma signal_writable_hm : agn signal_writable.
Proof. unfold signal_writable. hm. Qed.
#[local] Hint Rewrite @signal_writable_hm : hm.
Lemma signal_readable_hm : agn signal_readable.
Proof. unfold signal_readable. hm. Qed.
#[local] Hint Rewrite @signal_readable_hm : hm.
Lemma virtio_snd_set_fail_hm : agn virtio_snd_set_fail.
Proof. unfold virtio_snd_set_fail. hm. Qed.
#[local] Hint Rewrite @virtio_snd_set_fail_hm : hm.
Lemma vsnd_preprocess_hm addr : blind (vsnd_preprocess addr).
Proof. unfold vsnd_preprocess. hm. Qed.
#[local] Hint Rewrite @vsnd_preprocess_hm : hm.
Lemma virtio_snd_update_status_hm status : agn (virtio_snd_update_status status).
Proof. unfold virtio_snd_update_status. hm. Qed.
#[local] Hint Rewrite @virtio_snd_update_status_hm : hm.
Lemma first_prop_hm i f : agn (first_prop i f).
Proof. unfold first_prop. hm. Qed.
#[local] Hint Rewrite @first_prop_hm : hm.
Lemma for_count_hm n i body : (forall i, agn (body i)) -> agn (for_count n i body).
Proof. intros H. revert i. induction n as [|n IH]; intros i h s; [done|]. cbn [for_count]. by rewrite H, IH. Qed.
Lemma read_info_hm size body query : (forall i, agn (body i)) -> blind (read_info size body query).
Proof. intros H. unfold read_info. hm_with ltac:(rewrite ?for_count_hm by done). Qed.
Lemma virtio_snd_read_jack_info_handler_hm info query : blind (virtio_snd_read_jack_info_handler info query).
Proof. apply read_info_hm. intros i. hm. Qed.
#[local] Hint Rewrite @virtio_snd_read_jack_info_handler_hm : hm.
Lemma virtio_snd_read_pcm_info_handler_hm info query : blind (virtio_snd_read_pcm_info_handler info query).
Proof. apply read_info_hm. intros i. hm. Qed.
#[local] Hint Rewrite @virtio_snd_read_pcm_info_handler_hm : hm.
Lemma virtio_snd_read_chmap_info_handler_hm info query : blind (virtio_snd_read_chmap_info_handler info query).
Proof. apply read_info_hm. intros i. hm. Qed.
#[local] Hint Rewrite @virtio_snd_read_chmap_info_handler_hm : hm.
Lemma with_stream_hm query body : agn body -> agn (with_stream query body).
Proof. intros H. unfold with_stream. hm_with ltac:(rewrite ?H). Qed.
Lemma virtio_snd_read_pcm_set_params_hm query : agn (virtio_snd_read_pcm_set_params query).
Proof. apply with_stream_hm. hm. Qed.
#[local] Hint Rewrite @virtio_snd_read_pcm_set_params_hm : hm.
Lemma virtio_snd_read_pcm_prepare_hm query : agn (virtio_snd_read_pcm_prepare query).
Proof. apply with_stream_hm. hm. Qed.
#[local] Hint Rewrite @virtio_snd_read_pcm_prepare_hm : hm.
Lemma virtio_snd_read_pcm_start_hm query : agn (virtio_snd_read_pcm_start query).
Proof. apply with_stream_hm. hm. Qed.
#[local] Hint Rewrite @virtio_snd_read_pcm_start_hm : hm.
Lemma virtio_snd_read_pcm_stop_hm query : agn (virtio_snd_read_pcm_stop query).
Proof. apply with_stream_hm. hm. Qed.
#[local] Hint Rewrite @virtio_snd_read_pcm_stop_hm : hm.
Lemma __virtio_snd_frame_enqueue_hm payload len : blind (__virtio_snd_frame_enqueue payload len).
Proof. unfold __virtio_snd_frame_enqueue. hm. Qed.
#[local] Hint Rewrite @__virtio_snd_frame_enqueue_hm : hm.
Lemma collect_hm fuel queue desc_idx : blind (collect fuel queue desc_idx).
Proof.
  revert queue desc_idx. induction fuel as [|fuel IH]; intros queue desc_idx h s; [done|]. cbn [collect]. hm_with ltac:(rewrite ?IH).
Qed.
#[local] Hint Rewrite @collect_hm : hm.
Lemma tx_node_hm WRITE idx cnt d l : blind (tx_node WRITE idx cnt d l).
Proof. unfold tx_node. hm. Qed.
#[local] Hint Rewrite @tx_node_hm : hm.
Lemma flush_nodes_hm idx cnt nodes l : blind (flush_nodes idx cnt nodes l).
Proof. revert idx l. induction nodes as [|? nodes IH]; intros idx l h s; [done|]. cbn [flush_nodes]. hm_with ltac:(rewrite ?IH). Qed.
#[local] Hint Rewrite @flush_nodes_hm : hm.
Lemma virtio_snd_io_desc_flush_handler_hm queue desc_idx : blind (virtio_snd_io_desc_flush_handler queue desc_idx).
Proof. unfold virtio_snd_io_desc_flush_handler. hm. Qed.
#[local] Hint Rewrite @virtio_snd_io_desc_flush_handler_hm : hm.
Lemma squeue_hm h s index : squeue (with_hart h s) index = squeue s index.
Proof. done. Qed.
#[local] Hint Rewrite @squeue_hm : hm.
Lemma notify_loop_hm handler n index used :
  (forall f q i, handler = Some f -> blind (f q i)) -> blind (notify_loop handler n index used).
Proof.
  intros H. revert used. induction n as [|n IH]; intros used h s; [done|]. cbn [notify_loop].
  destruct handler as [f|]; [pose proof (fun q i => H f q i eq_refl) as Hf; hm_with ltac:(rewrite ?Hf, ?IH)|hm].
Qed.
Lemma notify_entry_hm index : blind (notify_entry index).
Proof. unfold notify_entry. hm. Qed.
#[local] Hint Rewrite @notify_entry_hm : hm.
Lemma notify_exit_hm index used : agn (notify_exit index used).
Proof. unfold notify_exit. hm. Qed.
#[local] Hint Rewrite @notify_exit_hm : hm.
Lemma notify_with_hm handler index :
  (forall f q i, handler = Some f -> blind (f q i)) -> blind (notify_with handler index).
Proof. intros H. unfold notify_with. hm_with ltac:(rewrite ?notify_loop_hm by done). Qed.
Lemma virtio_snd_read_pcm_release_hm query : blind (virtio_snd_read_pcm_release query).
Proof.
  unfold virtio_snd_read_pcm_release. hm_with ltac:(rewrite ?notify_with_hm by (intros ? q i [= <-]; apply virtio_snd_io_desc_flush_handler_hm)).
Qed.
#[local] Hint Rewrite @virtio_snd_read_pcm_release_hm : hm.
Lemma ctrl_descs_hm n queue desc_idx : blind (ctrl_descs n queue desc_idx).
Proof.
  revert queue desc_idx. induction n as [|n IH]; intros queue desc_idx h s; [done|]. cbn [ctrl_descs]. hm_with ltac:(rewrite ?IH).
Qed.
#[local] Hint Rewrite @ctrl_descs_hm : hm.
Lemma uses_desc_hm vq_desc i : agn (uses_desc vq_desc i).
Proof. unfold uses_desc. hm. Qed.
#[local] Hint Rewrite @uses_desc_hm : hm.
Lemma ctrl_request_hm type query info vq_desc : blind (ctrl_request type query info vq_desc).
Proof. unfold ctrl_request. hm. Qed.
#[local] Hint Rewrite @ctrl_request_hm : hm.
Lemma virtio_snd_ctrl_desc_handler_hm queue desc_idx : blind (virtio_snd_ctrl_desc_handler queue desc_idx).
Proof. unfold virtio_snd_ctrl_desc_handler. hm. Qed.
#[local] Hint Rewrite @virtio_snd_ctrl_desc_handler_hm : hm.
Lemma virtio_snd_queue_notify_handler_hm index : blind (virtio_snd_queue_notify_handler index).
Proof.
  apply notify_with_hm. intros f q i. unfold queue_op_tbl. repeat case_match; intros; simplify_eq;
    [apply virtio_snd_ctrl_desc_handler_hm|apply virtio_snd_io_desc_flush_handler_hm].
Qed.
#[local] Hint Rewrite @virtio_snd_queue_notify_handler_hm : hm.
Lemma tx_goto_hm pc : agn (tx_goto pc).
Proof. unfold tx_goto. hm. Qed.
#[local] Hint Rewrite @tx_goto_hm : hm.
Lemma ssel_hm h s : ssel (with_hart h s) = ssel s.
Proof. done. Qed.
#[local] Hint Rewrite @ssel_hm : hm.
Lemma upd_ssel_hm f : agn (upd_ssel f).
Proof. unfold upd_ssel. hm. Qed.
#[local] Hint Rewrite @upd_ssel_hm : hm.
Lemma virtio_snd_reg_read_hm addr : blind (virtio_snd_reg_read addr).
Proof. unfold virtio_snd_reg_read. hm. Qed.
#[local] Hint Rewrite @virtio_snd_reg_read_hm : hm.
Lemma snd_notify_hm value : blind (snd_notify value).
Proof. unfold snd_notify. hm. Qed.
#[local] Hint Rewrite @snd_notify_hm : hm.
Lemma virtio_snd_reg_write_hm addr value : blind (virtio_snd_reg_write addr value).
Proof. unfold virtio_snd_reg_write. hm. Qed.
#[local] Hint Rewrite @virtio_snd_reg_write_hm : hm.
End Snd.

Section Input.
Implicit Types s : machine input_dev.
Abbreviation agn := (agnostic (D:=input_dev)).
Abbreviation blind := (blind (D:=input_dev)).
Lemma vinput_at_hm h s v : vinput_at (with_hart h s) v = vinput_at s v.
Proof. done. Qed.
#[local] Hint Rewrite @vinput_at_hm : hm.
Lemma vi_at_hm h s v : vi_at (with_hart h s) v = vi_at s v.
Proof. done. Qed.
#[local] Hint Rewrite @vi_at_hm : hm.
Lemma on_vi_hm v f : agn (on_vi v f).
Proof. unfold on_vi. hm. Qed.
#[local] Hint Rewrite @on_vi_hm : hm.
Lemma data_at_hm h s i : data_at (with_hart h s) i = data_at s i.
Proof. done. Qed.
#[local] Hint Rewrite @data_at_hm : hm.
Lemma on_cfg_hm i f : agn (on_cfg i f).
Proof. unfold on_cfg. hm. Qed.
#[local] Hint Rewrite @on_cfg_hm : hm.
Lemma on_vhost_hm f : agn (on_vhost f).
Proof. unfold on_vhost. hm. Qed.
#[local] Hint Rewrite @on_vhost_hm : hm.
Lemma PRIV_hm h s v : PRIV (with_hart h s) v = PRIV s v.
Proof. done. Qed.
#[local] Hint Rewrite @PRIV_hm : hm.
Lemma vq_hm h s v i : vq (with_hart h s) v i = vq s v i.
Proof. done. Qed.
#[local] Hint Rewrite @vq_hm : hm.
Lemma on_vq_hm v i f : agn (on_vq v i f).
Proof. unfold on_vq. hm. Qed.
#[local] Hint Rewrite @on_vq_hm : hm.
Lemma put_used_hdr_hm q new_used : agn (put_used_hdr q new_used).
Proof. unfold put_used_hdr. hm. Qed.
#[local] Hint Rewrite @put_used_hdr_hm : hm.
Lemma next_buffer_hm q : blind (next_buffer q).
Proof. unfold next_buffer. hm. Qed.
#[local] Hint Rewrite @next_buffer_hm : hm.
Lemma input_desc_hm q buffer_idx : blind (input_desc q buffer_idx).
Proof. unfold input_desc. hm. Qed.
#[local] Hint Rewrite @input_desc_hm : hm.
Lemma statusq_loop_hm fuel v new_avail new_used consumed : blind (statusq_loop fuel v new_avail new_used consumed).
Proof.
  revert v new_avail new_used consumed. induction fuel as [|fuel IH]; intros v new_avail new_used consumed h s; [done|]. cbn [statusq_loop]. hm_with ltac:(rewrite ?IH).
Qed.
#[local] Hint Rewrite @statusq_loop_hm : hm.
Lemma virtio_input_drain_statusq_hm v : agn (virtio_input_drain_statusq v).
Proof. unfold virtio_input_drain_statusq. hm. Qed.
#[local] Hint Rewrite @virtio_input_drain_statusq_hm : hm.
Lemma virtio_input_update_status_hm v status : agn (virtio_input_update_status v status).
Proof. unfold virtio_input_update_status. hm. Qed.
#[local] Hint Rewrite @virtio_input_update_status_hm : hm.
Lemma virtio_input_irq_pending_hm h s v : virtio_input_irq_pending v (with_hart h s) = virtio_input_irq_pending v s.
Proof. done. Qed.
#[local] Hint Rewrite @virtio_input_irq_pending_hm : hm.
Lemma virtio_input_reg_read_hm v addr size : blind (virtio_input_reg_read v addr size).
Proof. unfold virtio_input_reg_read. hm. Qed.
#[local] Hint Rewrite @virtio_input_reg_read_hm : hm.
Lemma virtio_input_reg_write_hm v addr value : blind (virtio_input_reg_write v addr value).
Proof. unfold virtio_input_reg_write. hm. Qed.
#[local] Hint Rewrite @virtio_input_reg_write_hm : hm.
End Input.

Section Gpu.
Context {E : Type} `{HostE : GpuHost E}.
Implicit Types s : machine (gpu_dev E).
Abbreviation agn := (agnostic (D:=gpu_dev E)).
Abbreviation blind := (blind (D:=gpu_dev E)).
Lemma on_gdev_hm f : agn (on_gdev f).
Proof. unfold on_gdev, with_response. hm. Qed.
#[local] Hint Rewrite @on_gdev_hm : hm.
Lemma on_vgpu_hm f : agn (on_vgpu f).
Proof. unfold on_vgpu, with_response. hm. Qed.
#[local] Hint Rewrite @on_vgpu_hm : hm.
Lemma on_disp_hm f : agn (on_disp f).
Proof. unfold on_disp, with_response. hm. Qed.
#[local] Hint Rewrite @on_disp_hm : hm.
Lemma g_malloc_hm size : blind (g_malloc size).
Proof. unfold g_malloc, with_response. hm. Qed.
#[local] Hint Rewrite @g_malloc_hm : hm.
Lemma scanout_at_hm h s i : scanout_at (with_hart h s) i = scanout_at s i.
Proof. done. Qed.
#[local] Hint Rewrite @scanout_at_hm : hm.
Lemma upd_scanout_hm i f : agn (upd_scanout i f).
Proof. unfold upd_scanout, with_response. hm. Qed.
#[local] Hint Rewrite @upd_scanout_hm : hm.
Lemma g_num_scanouts_hm h s : g_num_scanouts (with_hart h s) = g_num_scanouts s.
Proof. done. Qed.
#[local] Hint Rewrite @g_num_scanouts_hm : hm.
Lemma virtio_gpu_set_fail_hm : agn virtio_gpu_set_fail.
Proof. unfold virtio_gpu_set_fail, with_response. hm. Qed.
#[local] Hint Rewrite @virtio_gpu_set_fail_hm : hm.
Lemma gpu_fail_hm : blind gpu_fail.
Proof. unfold gpu_fail, with_response. hm. Qed.
#[local] Hint Rewrite @gpu_fail_hm : hm.
Lemma virtio_gpu_get_request_hm vq_desc request_size : blind (virtio_gpu_get_request vq_desc request_size).
Proof. unfold virtio_gpu_get_request, with_response. hm. Qed.
#[local] Hint Rewrite @virtio_gpu_get_request_hm : hm.
Lemma echo_fence_hm request response : agn (echo_fence request response).
Proof. unfold echo_fence, with_response. hm. Qed.
#[local] Hint Rewrite @echo_fence_hm : hm.
Lemma virtio_gpu_write_ctrl_response_hm request response_desc type : blind (virtio_gpu_write_ctrl_response request response_desc type).
Proof. unfold virtio_gpu_write_ctrl_response, with_response. hm. Qed.
#[local] Hint Rewrite @virtio_gpu_write_ctrl_response_hm : hm.
Lemma respond_hm request response_desc type : blind (respond request response_desc type).
Proof. unfold respond, with_response. hm. Qed.
#[local] Hint Rewrite @respond_hm : hm.
Lemma put_pmodes_hm n i response : agn (put_pmodes n i response).
Proof.
  revert i response. induction n as [|n IH]; intros i response h s; [done|]. cbn [put_pmodes]. hm_with ltac:(rewrite ?IH).
Qed.
#[local] Hint Rewrite @put_pmodes_hm : hm.
Lemma virtio_gpu_get_display_info_handler_hm vq_desc : blind (virtio_gpu_get_display_info_handler vq_desc).
Proof. unfold virtio_gpu_get_display_info_handler, with_response. hm. Qed.
#[local] Hint Rewrite @virtio_gpu_get_display_info_handler_hm : hm.
Lemma virtio_gpu_cmd_undefined_handler_hm vq_desc : blind (virtio_gpu_cmd_undefined_handler vq_desc).
Proof. unfold virtio_gpu_cmd_undefined_handler, with_response. hm. Qed.
#[local] Hint Rewrite @virtio_gpu_cmd_undefined_handler_hm : hm.
Lemma vgpu_sw_get_resource_2d_hm h s id : vgpu_sw_get_resource_2d id (with_hart h s) = vgpu_sw_get_resource_2d id s.
Proof. done. Qed.
#[local] Hint Rewrite @vgpu_sw_get_resource_2d_hm : hm.
Lemma on_res_hm id f : agn (on_res id f).
Proof. unfold on_res, with_response. hm. Qed.
#[local] Hint Rewrite @on_res_hm : hm.
Lemma flag_host_oob_hm ok : agn (flag_host_oob ok).
Proof. unfold flag_host_oob, with_response. hm. Qed.
#[local] Hint Rewrite @flag_host_oob_hm : hm.
Lemma iov_gather_hm iov offset bytes : blind (iov_gather iov offset bytes).
Proof.
  revert offset bytes. induction iov as [|? iov IH]; intros offset bytes h s; [done|]. cbn [iov_gather]. hm_with ltac:(rewrite ?IH).
Qed.
#[local] Hint Rewrite @iov_gather_hm : hm.
Lemma vgpu_sw_iov_to_buf_hm iov iov_cnt offset bytes : blind (vgpu_sw_iov_to_buf iov iov_cnt offset bytes).
Proof. unfold vgpu_sw_iov_to_buf, with_response. hm. Qed.
#[local] Hint Rewrite @vgpu_sw_iov_to_buf_hm : hm.
Lemma copy_to_image_hm id iov src_offset dest total : blind (copy_to_image id iov src_offset dest total).
Proof. unfold copy_to_image, with_response. hm. Qed.
#[local] Hint Rewrite @copy_to_image_hm : hm.
Lemma copy_rows_hm n h0 id iov r offset stride bpp : blind (copy_rows n h0 id iov r offset stride bpp).
Proof.
  revert h0 id iov r offset stride bpp. induction n as [|n IH]; intros h0 id iov r offset stride bpp h s; [done|]. cbn [copy_rows]. hm_with ltac:(rewrite ?IH).
Qed.
#[local] Hint Rewrite @copy_rows_hm : hm.
Lemma vgpu_sw_copy_image_from_pages_hm r offset res iov : blind (vgpu_sw_copy_image_from_pages r offset res iov).
Proof. unfold vgpu_sw_copy_image_from_pages, with_response. hm. Qed.
#[local] Hint Rewrite @vgpu_sw_copy_image_from_pages_hm : hm.
Lemma vgpu_sw_destroy_resource_2d_hm res : agn (vgpu_sw_destroy_resource_2d res).
Proof. unfold vgpu_sw_destroy_resource_2d, with_response. hm. Qed.
#[local] Hint Rewrite @vgpu_sw_destroy_resource_2d_hm : hm.
Lemma vgpu_sw_get_scanout_hm h s scanout_id : vgpu_sw_get_scanout scanout_id (with_hart h s) = vgpu_sw_get_scanout scanout_id s.
Proof. done. Qed.
#[local] Hint Rewrite @vgpu_sw_get_scanout_hm : hm.
Lemma vgpu_sw_create_window_payload_hm res scanout : blind (vgpu_sw_create_window_payload res scanout).
Proof. unfold vgpu_sw_create_window_payload, with_response. hm. Qed.
#[local] Hint Rewrite @vgpu_sw_create_window_payload_hm : hm.
Lemma for_scanouts_hm n i body : (forall i, agn (body i)) -> agn (for_scanouts n i body).
Proof. intros H. revert i. induction n as [|n IH]; intros i h s; [done|]. cbn [for_scanouts]. by rewrite H, IH. Qed.
Lemma for_all_scanouts_hm body : (forall i, agn (body i)) -> agn (for_all_scanouts body).
Proof. intros H h s. unfold for_all_scanouts. by rewrite g_num_scanouts_hm, for_scanouts_hm. Qed.
Lemma vgpu_sw_reset_hm : agn vgpu_sw_reset.
Proof.
  intros h s. unfold vgpu_sw_reset. rewrite for_all_scanouts_hm by (intros i h' s'; hm). rewrite dev_wh. generalize (for_all_scanouts
    (fun i s => on_disp (vgpu_display_publish_cursor_clear i) (on_disp (vgpu_display_publish_primary_clear i) (upd_scanout i (fun so => unbind_primary (unbind_cursor so)) s))) s).
  intros s'. generalize (res_list (dev s')) as l. intros l. revert s'. induction l as [|x l IH]; intros s'; [done|]. cbn [foldl].
  by rewrite vgpu_sw_destroy_resource_2d_hm, IH.
Qed.
#[local] Hint Rewrite @vgpu_sw_reset_hm : hm.
Lemma get_rect_hm h s off : get_rect (with_hart h s) off = get_rect s off.
Proof. done. Qed.
#[local] Hint Rewrite @get_rect_hm : hm.
Lemma vgpu_sw_resource_create_2d_handler_hm vq_desc : blind (vgpu_sw_resource_create_2d_handler vq_desc).
Proof. unfold vgpu_sw_resource_create_2d_handler, with_response. hm. Qed.
#[local] Hint Rewrite @vgpu_sw_resource_create_2d_handler_hm : hm.
Lemma unref_scanout_hm id i : agn (unref_scanout id i).
Proof. unfold unref_scanout, with_response. hm. Qed.
#[local] Hint Rewrite @unref_scanout_hm : hm.
Lemma vgpu_sw_cmd_resource_unref_handler_hm vq_desc : blind (vgpu_sw_cmd_resource_unref_handler vq_desc).
Proof. unfold vgpu_sw_cmd_resource_unref_handler, with_response. hm_with ltac:(rewrite ?for_all_scanouts_hm by (intros; apply unref_scanout_hm)). Qed.
#[local] Hint Rewrite @vgpu_sw_cmd_resource_unref_handler_hm : hm.
Lemma vgpu_sw_cmd_set_scanout_handler_hm vq_desc : blind (vgpu_sw_cmd_set_scanout_handler vq_desc).
Proof. unfold vgpu_sw_cmd_set_scanout_handler, with_response. hm. Qed.
#[local] Hint Rewrite @vgpu_sw_cmd_set_scanout_handler_hm : hm.
Lemma flush_scanout_hm id res i : agn (flush_scanout id res i).
Proof. unfold flush_scanout, with_response. hm. Qed.
#[local] Hint Rewrite @flush_scanout_hm : hm.
Lemma vgpu_sw_cmd_resource_flush_handler_hm vq_desc : blind (vgpu_sw_cmd_resource_flush_handler vq_desc).
Proof. unfold vgpu_sw_cmd_resource_flush_handler, with_response. hm_with ltac:(rewrite ?for_all_scanouts_hm by (intros; apply flush_scanout_hm)). Qed.
#[local] Hint Rewrite @vgpu_sw_cmd_resource_flush_handler_hm : hm.
Lemma vgpu_sw_cmd_transfer_to_host_2d_handler_hm vq_desc : blind (vgpu_sw_cmd_transfer_to_host_2d_handler vq_desc).
Proof. unfold vgpu_sw_cmd_transfer_to_host_2d_handler, with_response. hm. Qed.
#[local] Hint Rewrite @vgpu_sw_cmd_transfer_to_host_2d_handler_hm : hm.
Lemma convert_entries_hm h s n pages : convert_entries n pages (with_hart h s) = convert_entries n pages s.
Proof. revert pages. induction n as [|n IH]; intros pages; [done|]. cbn [convert_entries]. hm_with ltac:(rewrite ?IH). Qed.
#[local] Hint Rewrite @convert_entries_hm : hm.
Lemma vgpu_sw_cmd_resource_attach_backing_handler_hm vq_desc : blind (vgpu_sw_cmd_resource_attach_backing_handler vq_desc).
Proof. unfold vgpu_sw_cmd_resource_attach_backing_handler, with_response. hm. Qed.
#[local] Hint Rewrite @vgpu_sw_cmd_resource_attach_backing_handler_hm : hm.
Lemma vgpu_sw_cmd_resource_detach_backing_handler_hm vq_desc : blind (vgpu_sw_cmd_resource_detach_backing_handler vq_desc).
Proof. unfold vgpu_sw_cmd_resource_detach_backing_handler, with_response. hm. Qed.
#[local] Hint Rewrite @vgpu_sw_cmd_resource_detach_backing_handler_hm : hm.
Lemma vgpu_sw_cmd_update_cursor_handler_hm vq_desc : blind (vgpu_sw_cmd_update_cursor_handler vq_desc).
Proof. unfold vgpu_sw_cmd_update_cursor_handler, with_response. hm. Qed.
#[local] Hint Rewrite @vgpu_sw_cmd_update_cursor_handler_hm : hm.
Lemma vgpu_sw_cmd_move_cursor_handler_hm vq_desc : blind (vgpu_sw_cmd_move_cursor_handler vq_desc).
Proof. unfold vgpu_sw_cmd_move_cursor_handler, with_response. hm. Qed.
#[local] Hint Rewrite @vgpu_sw_cmd_move_cursor_handler_hm : hm.
Lemma virtio_gpu_get_edid_handler_hm vq_desc : blind (virtio_gpu_get_edid_handler vq_desc).
Proof. unfold virtio_gpu_get_edid_handler. hm. Qed.
#[local] Hint Rewrite @virtio_gpu_get_edid_handler_hm : hm.
Lemma collect_descs_hm n i queue desc_idx vq_desc : blind (collect_descs n i queue desc_idx vq_desc).
Proof.
  revert i queue desc_idx vq_desc. induction n as [|n IH]; intros i queue desc_idx vq_desc h s; [done|]. cbn [collect_descs]. hm_with ltac:(rewrite ?IH).
Qed.
#[local] Hint Rewrite @collect_descs_hm : hm.
Lemma gpu_command_hm type vq_desc : blind (gpu_command type vq_desc).
Proof. unfold gpu_command. hm. Qed.
#[local] Hint Rewrite @gpu_command_hm : hm.
Lemma virtio_gpu_desc_handler_hm queue queue_index desc_idx : blind (virtio_gpu_desc_handler queue queue_index desc_idx).
Proof. unfold virtio_gpu_desc_handler. hm. Qed.
#[local] Hint Rewrite @virtio_gpu_desc_handler_hm : hm.
Lemma gqueue_hm h s index : gqueue (with_hart h s) index = gqueue s index.
Proof. done. Qed.
#[local] Hint Rewrite @gqueue_hm : hm.
Lemma needs_reset_hm h s : needs_reset (with_hart h s) = needs_reset s.
Proof. done. Qed.
#[local] Hint Rewrite @needs_reset_hm : hm.
Lemma gpu_notify_loop_hm n index new_used : blind (gpu_notify_loop n index new_used).
Proof.
  revert index new_used. induction n as [|n IH]; intros index new_used h s; [done|]. cbn [gpu_notify_loop]. hm_with ltac:(rewrite ?IH).
Qed.
#[local] Hint Rewrite @gpu_notify_loop_hm : hm.
Lemma virtio_gpu_queue_notify_handler_hm index : agn (virtio_gpu_queue_notify_handler index).
Proof. unfold virtio_gpu_queue_notify_handler. hm. Qed.
#[local] Hint Rewrite @virtio_gpu_queue_notify_handler_hm : hm.
Lemma virtio_gpu_preprocess_hm addr : blind (virtio_gpu_preprocess addr).
Proof. unfold virtio_gpu_preprocess. hm. Qed.
#[local] Hint Rewrite @virtio_gpu_preprocess_hm : hm.
Lemma virtio_gpu_update_status_hm status : agn (virtio_gpu_update_status status).
Proof. unfold virtio_gpu_update_status. hm. Qed.
#[local] Hint Rewrite @virtio_gpu_update_status_hm : hm.
Lemma virtio_gpu_reg_read_hm h s addr : virtio_gpu_reg_read addr (with_hart h s) = virtio_gpu_reg_read addr s.
Proof. done. Qed.
#[local] Hint Rewrite @virtio_gpu_reg_read_hm : hm.
Lemma gsel_hm h s : gsel (with_hart h s) = gsel s.
Proof. done. Qed.
#[local] Hint Rewrite @gsel_hm : hm.
Lemma upd_gsel_hm f : agn (upd_gsel f).
Proof. unfold upd_gsel. hm. Qed.
#[local] Hint Rewrite @upd_gsel_hm : hm.
Lemma virtio_gpu_vq_config_after_ready_hm h s addr : virtio_gpu_vq_config_after_ready addr (with_hart h s) = virtio_gpu_vq_config_after_ready addr s.
Proof. done. Qed.
#[local] Hint Rewrite @virtio_gpu_vq_config_after_ready_hm : hm.
Lemma write_queue_ready_hm value : agn (write_queue_ready value).
Proof. unfold write_queue_ready. hm. Qed.
#[local] Hint Rewrite @write_queue_ready_hm : hm.
Lemma virtio_gpu_reg_write_hm addr value : blind (virtio_gpu_reg_write addr value).
Proof. unfold virtio_gpu_reg_write. hm. Qed.
#[local] Hint Rewrite @virtio_gpu_reg_write_hm : hm.
End Gpu.

(** ** Accesses to the devices *)

Section Access.
Context {D : Type}.

(** A load through a register, and one that answers without changing the state. *)
Lemma lawful_load (f : machine D -> option Z * machine D) : agnosticr f ->
  lawfulr (fun s => match f s with
    | (Some x, s) => (Some x, s)
    | (None, s) => (None, raise RV_EXC_LOAD_FAULT (exc_val (hart s)) s)
    end).
Proof.
  intros Hf. apply (lawfulr_bind f (fun v s => match v with
    | Some x => (Some x, s) | None => (None, raise RV_EXC_LOAD_FAULT (exc_val (hart s)) s) end)); [by apply agnosticr_lawful|].
  intros [x|]; [apply lawful_ret, lawful_id|apply lawful_bad].
Qed.

(** Operations that may not end. *)
Definition lawfulo (f : machine D -> option (machine D)) : Prop :=
  forall s, f (arch s) = arch <$> f s /\ (forall s', f s = Some s' -> bus_frame (hart s) (hart s')).

Lemma lawfulo_some f : lawful f -> lawfulo (fun s => Some (f s)).
Proof. intros H s. destruct (H s) as [Ha Hf]. split; [cbn; by rewrite Ha|by intros ? [= <-]]. Qed.

Lemma lawfulo_map g f : lawful g -> lawfulo f -> lawfulo (fun s => g <$> f s).
Proof.
  intros Hg Hf s. destruct (Hf s) as [Fa Ff]. rewrite Fa. destruct (f s) as [m|]; cbn; [|split; [done|by intros]].
  destruct (Hg m) as [Ga Gf]. split; [by rewrite Ga|]. intros ? [= <-]. eapply bus_frame_trans; [by apply Ff|done].
Qed.

Lemma lawfulo_ifc (b : bool) f g : lawfulo f -> lawfulo g -> lawfulo (fun s => if b then f s else g s).
Proof. by destruct b. Qed.
End Access.

Ltac access := cbv zeta; repeat lazymatch goal with
  | |- lawfulr (fun _ => if _ then _ else _) => apply lawfulr_if
  | |- lawfulr (fun _ => (None, raise _ 0 _)) => apply lawful_ill
  | |- lawfulr (fun _ => (None, raise _ _ _)) => apply lawful_bad
  | |- lawful (raise _ _) => apply lawful_raise
  | |- lawful (fun _ => raise _ 0 _) => apply lawful_raise
  | |- lawful (fun _ => raise _ _ _) => apply lawful_fault
  | |- lawful (fun _ => if _ then _ else _) => apply lawful_ifc
  | |- lawful (fun _ => match ?f _ with pair _ _ => _ end) => apply (lawful_fault_bind f)
  | |- lawfulr (fun _ => match ?f _ with pair _ _ => _ end) => apply (lawful_load f)
  end.

(** The result of such an operation is a pair. *)
Ltac by_blind L := intros h s; rewrite L; match goal with |- hmap _ ?x = _ => by destruct x as [[] ?] end.

Section Devices.
Context {E N S F G : Type} `{HostE : Host E} {CoroE : Coro E} {NoC : NoCoro E} `{NetN : NetHost N} `{SndS : SndHost S}
  `{FsF : FsHost F} `{GpuG : GpuHost G}.

Lemma lawful_net_read a w : lawfulr (virtio_net_read (E:=N) a w).
Proof. unfold virtio_net_read. access; by_blind (@net_reg_read_hm). Qed.
Lemma lawful_fs_read a w : lawfulr (virtio_fs_read (E:=F) a w).
Proof. unfold virtio_fs_read. access; by_blind (@virtio_fs_reg_read_hm). Qed.
Lemma lawful_snd_read a w : lawfulr (virtio_snd_read (E:=S) a w).
Proof. unfold virtio_snd_read. access; by_blind (@virtio_snd_reg_read_hm). Qed.
Lemma lawful_input_read v a w : lawfulr (virtio_input_read v a w).
Proof. unfold virtio_input_read. access; by_blind (@virtio_input_reg_read_hm). Qed.
Lemma lawful_gpu_read a w : lawfulr (virtio_gpu_read (E:=G) a w).
Proof.
  unfold virtio_gpu_read. access. apply (lawful_load (fun s => (virtio_gpu_reg_read (Z.shiftr a 2) s, s))).
  intros h s. cbn. by rewrite virtio_gpu_reg_read_hm.
Qed.

Lemma lawful_fs_write a w v : lawful (virtio_fs_write (E:=F) a w v).
Proof. unfold virtio_fs_write. access; by_blind (@virtio_fs_reg_write_hm). Qed.
Lemma lawful_snd_write a w v : lawful (virtio_snd_write (E:=S) a w v).
Proof. unfold virtio_snd_write. access; by_blind (@virtio_snd_reg_write_hm). Qed.
Lemma lawful_input_write i a w v : lawful (virtio_input_write i a w v).
Proof. unfold virtio_input_write. access; by_blind (@virtio_input_reg_write_hm). Qed.
Lemma lawful_gpu_write a w v : lawful (virtio_gpu_write (E:=G) a w v).
Proof. unfold virtio_gpu_write. access; by_blind (@virtio_gpu_reg_write_hm). Qed.
Lemma lawful_net_write n a w v : lawfulo (virtio_net_write (E:=N) n a w v).
Proof.
  unfold virtio_net_write. apply lawfulo_ifc; [|apply lawfulo_ifc; apply lawfulo_some; [apply lawful_fault|apply lawful_raise]].
  intros s. rewrite arch_with, net_reg_write_hm. pose proof (net_reg_write_hm n (Z.shiftr a 2) v (hart s) s) as H.
  rewrite with_hart_eta in H. destruct (virtio_net_reg_write _ _ _ s) as [[ok m]|]; cbn; [|split; [done|by intros]].
  injection H as Hm. assert (Hh : hart m = hart s) by (rewrite Hm; done).
  split; [destruct ok; cbn; rewrite arch_with; unfold raise, on_hart; cbn; by rewrite ?Hh|].
  intros ? [= <-]. rewrite <- Hh. destruct ok; [apply bus_frame_refl|apply bus_frame_raise].
Qed.

(** ** On the machine with every device *)

Section Zoomed.
Context {D X : Type} (get : X -> D) (put : D -> X -> X).

Lemma lawful_zoom f : lawful f -> lawful (zoom get put f).
Proof.
  intros H s. destruct (H (narrow get s)) as [Ha Hf]. split; [|exact Hf]. unfold zoom.
  change (narrow get (arch s)) with (arch (narrow get s)). by rewrite <- Ha.
Qed.
Lemma lawful_zoomr {A} (f : machine D -> A * machine D) : lawfulr f -> lawfulr (zoomr get put f).
Proof.
  intros H s. destruct (H (narrow get s)) as [Ha Hf]. unfold zoomr. change (narrow get (arch s)) with (arch (narrow get s)).
  destruct (f (narrow get s)) as [a m]. rewrite <- Ha. split; [done|exact Hf].
Qed.
Lemma lawful_zoomo f : lawfulo f -> lawfulo (zoomo get put f).
Proof.
  intros H s. destruct (H (narrow get s)) as [Ha Hf]. unfold zoomo. change (narrow get (arch s)) with (arch (narrow get s)).
  rewrite Ha. destruct (f (narrow get s)) as [m|]; cbn; [|split; [done|by intros]]. split; [done|]. intros ? [= <-]. by apply Hf.
Qed.
End Zoomed.

Abbreviation M := (machine (full_dev E N S F G)).
Implicit Types s : M.

Lemma lawful_drive_line (b : M -> bool) bit : (forall s, b (arch s) = b s) -> lawful (fun s : M => drive_line (b s) bit s).
Proof.
  intros Hb s. rewrite Hb. apply (lawful_zoom f_emu put_emu (fun m => plic_update_interrupts (set_line (b s) bit m))).
  apply (lawful_compose plic_update_interrupts (set_line (b s) bit)); [apply lawful_plic_update|by apply agnostic_lawful].
Qed.

Lemma lawful_full_load a w : lawfulr (full_mem_load (E:=E) (N:=N) (S:=S) (F:=F) (G:=G) a w).
Proof.
  unfold full_mem_load. apply lawfulr_if; [apply lawful_ram_read|]. cbv zeta. apply lawfulr_if; [|apply lawful_bad].
  assert (U : forall o, lawfulr (uart_load (E:=E) (N:=N) (S:=S) (F:=F) (G:=G) o w)).
  { intros o. apply (lawfulr_bind (at_emur (u8250_read o w)) (fun v s => (v, at_emu emu_update_uart_interrupts s))).
    - apply lawful_zoomr, lawful_uart_read.
    - intros v. apply lawful_ret, lawful_zoom, lawful_uart_update. }
  destruct (mmio_region a) as [|p|p]; [apply lawful_zoomr, lawful_plic_read| |apply lawful_bad].
  repeat lazymatch goal with
  | |- lawfulr (fun _ => (None, _)) => apply lawful_bad
  | |- lawfulr (fun _ => uart_load _ _ _) => apply U
  | |- lawfulr (fun _ => at_emur (plic_read _ _) _) => apply lawful_zoomr, lawful_plic_read
  | |- lawfulr (fun _ => at_emur (virtio_blk_read _ _) _) => apply lawful_zoomr, lawful_vblk_read
  | |- lawfulr (fun _ => at_emur (virtio_rng_read _ _) _) => apply lawful_zoomr, lawful_vrng_read
  | |- lawfulr (fun _ => at_emur (aclint_mtimer_read _ _) _) => apply lawful_zoomr, lawful_mtimer_read
  | |- lawfulr (fun _ => at_emur (aclint_mswi_read _ _) _) => apply lawful_zoomr, lawful_mswi_read
  | |- lawfulr (fun _ => at_emur (aclint_sswi_read _ _) _) => apply lawful_zoomr, lawful_sswi_read
  | |- lawfulr (fun _ => zoomr _ _ (virtio_net_read _ _) _) => apply lawful_zoomr, lawful_net_read
  | |- lawfulr (fun _ => zoomr _ _ (virtio_snd_read _ _) _) => apply lawful_zoomr, lawful_snd_read
  | |- lawfulr (fun _ => zoomr _ _ (virtio_fs_read _ _) _) => apply lawful_zoomr, lawful_fs_read
  | |- lawfulr (fun _ => zoomr _ _ (virtio_input_read _ _ _) _) => apply lawful_zoomr, lawful_input_read
  | |- lawfulr (fun _ => zoomr _ _ (virtio_gpu_read _ _) _) => apply lawful_zoomr, lawful_gpu_read
  | q : positive |- _ => destruct q as [q|q|]
  end.
Qed.

(** A write to a device of the basic build and its line. *)
Lemma lawfulo_emu g f : lawful g -> lawful f -> lawfulo (fun s : M => Some (at_emu (fun m => g (f m)) s)).
Proof. intros Hg Hf. apply lawfulo_some, (lawful_zoom f_emu put_emu (fun m => g (f m))), (lawful_compose g f); done. Qed.

Lemma lawful_full_store n a w v : lawfulo (full_mem_store (E:=E) (N:=N) (S:=S) (F:=F) (G:=G) n a w v).
Proof.
  unfold full_mem_store. apply lawfulo_ifc; [apply lawfulo_some, lawful_ram_write|]. cbv zeta.
  apply lawfulo_ifc; [|apply lawfulo_some, lawful_fault].
  destruct (mmio_region a) as [|p|p]; [apply lawfulo_emu; [apply lawful_plic_update|apply lawful_plic_write]| |apply lawfulo_some, lawful_fault].
  repeat lazymatch goal with
  | |- lawfulo (fun _ => Some (raise _ _ _)) => apply lawfulo_some, lawful_fault
  | |- lawfulo (fun _ => Some (at_emu (fun _ => plic_update_interrupts _) _)) =>
      apply lawfulo_emu; [apply lawful_plic_update|apply lawful_plic_write]
  | |- lawfulo (fun _ => Some (at_emu (fun _ => emu_update_uart_interrupts _) _)) =>
      apply lawfulo_emu; [apply lawful_uart_update|apply lawful_uart_write]
  | |- lawfulo (fun _ => Some (at_emu (fun _ => emu_update_vblk_interrupts _) _)) =>
      apply lawfulo_emu; [apply lawful_vblk_update|apply lawful_vblk_write]
  | |- lawfulo (fun _ => Some (at_emu (fun _ => emu_update_vrng_interrupts _) _)) =>
      apply lawfulo_emu; [apply lawful_vrng_update|apply lawful_vrng_write]
  | |- lawfulo (fun _ => Some (at_emu (fun _ => aclint_mtimer_update_interrupts _) _)) =>
      apply lawfulo_emu; [apply lawful_mtimer_update|apply lawful_mtimer_write]
  | |- lawfulo (fun _ => Some (at_emu (fun _ => aclint_mswi_update_interrupts _) _)) =>
      apply lawfulo_emu; [apply lawful_mswi_update|apply lawful_mswi_write]
  | |- lawfulo (fun _ => Some (at_emu (fun _ => aclint_sswi_update_interrupts _) _)) =>
      apply lawfulo_emu; [apply lawful_sswi_update|apply lawful_sswi_write]
  | |- lawfulo (fun _ => Some (emu_update_vsnd_interrupts _)) =>
      apply lawfulo_some, (lawful_compose emu_update_vsnd_interrupts (zoom f_snd put_snd _));
      [by apply lawful_drive_line|apply lawful_zoom, lawful_snd_write]
  | |- lawfulo (fun _ => Some (emu_update_vfs_interrupts _)) =>
      apply lawfulo_some, (lawful_compose emu_update_vfs_interrupts (zoom f_fs put_fs _));
      [by apply lawful_drive_line|apply lawful_zoom, lawful_fs_write]
  | |- lawfulo (fun _ => Some (emu_update_vinput_keyboard_interrupts _)) =>
      apply lawfulo_some, (lawful_compose emu_update_vinput_keyboard_interrupts (zoom f_input put_input _));
      [by apply lawful_drive_line|apply lawful_zoom, lawful_input_write]
  | |- lawfulo (fun _ => Some (emu_update_vinput_mouse_interrupts _)) =>
      apply lawfulo_some, (lawful_compose emu_update_vinput_mouse_interrupts (zoom f_input put_input _));
      [by apply lawful_drive_line|apply lawful_zoom, lawful_input_write]
  | |- lawfulo (fun _ => Some (emu_update_vgpu_interrupts _)) =>
      apply lawfulo_some, (lawful_compose emu_update_vgpu_interrupts (zoom f_gpu put_gpu _));
      [by apply lawful_drive_line|apply lawful_zoom, lawful_gpu_write]
  | |- lawfulo (fun _ => _ <$> _) => apply lawfulo_map; [by apply lawful_drive_line|apply lawful_zoomo, lawful_net_write]
  | q : positive |- _ => destruct q as [q|q|]
  end.
Qed.

(** Loads leave RAM alone. *)
Definition reads {D A} (f : machine D -> A * machine D) : Prop :=
  forall s : machine D, ram (snd (f s)) = ram s /\ ram_ptr (snd (f s)) = ram_ptr s.

Lemma reads_zoomr {D X A} (get : X -> D) (put : D -> X -> X) (f : machine D -> A * machine D) : reads f -> reads (zoomr get put f).
Proof. intros H s. specialize (H (narrow get s)). unfold zoomr. by destruct (f (narrow get s)). Qed.

Lemma reads_net a w : reads (virtio_net_read (E:=N) a w).
Proof.
  intros s. unfold virtio_net_read. assert (H : reads (virtio_net_reg_read (E:=N) (Z.shiftr a 2)))
    by (intros m; unfold virtio_net_reg_read, touch_config; by repeat case_match).
  specialize (H s). destruct (virtio_net_reg_read _ s) as [[]]; by repeat case_match.
Qed.
Lemma reads_fs a w : reads (virtio_fs_read (E:=F) a w).
Proof.
  assert (H : forall a, reads (virtio_fs_reg_read (E:=F) a)) by (intros r m; unfold virtio_fs_reg_read, cfg_read; by repeat case_match).
  intros s. unfold virtio_fs_read. cbv zeta. pose proof (H (Z.shiftr a 2) s). pose proof (H a s).
  destruct (virtio_fs_reg_read (Z.shiftr a 2) s) as [[]], (virtio_fs_reg_read a s) as [[]]; by repeat case_match.
Qed.
Lemma reads_snd a w : reads (virtio_snd_read (E:=S) a w).
Proof.
  intros s. unfold virtio_snd_read. assert (H : reads (virtio_snd_reg_read (E:=S) (Z.shiftr a 2)))
    by (intros m; unfold virtio_snd_reg_read; by repeat case_match).
  specialize (H s). destruct (virtio_snd_reg_read _ s) as [[]]; by repeat case_match.
Qed.
Lemma reads_input v a w : reads (virtio_input_read v a w).
Proof.
  assert (H : forall n, reads (virtio_input_reg_read v a n)) by (intros n m; unfold virtio_input_reg_read; by repeat case_match).
  intros s. unfold virtio_input_read. cbv zeta. pose proof (H 4 s). pose proof (H 1 s). pose proof (H 2 s).
  destruct (virtio_input_reg_read v a 4 s) as [[]], (virtio_input_reg_read v a 1 s) as [[]], (virtio_input_reg_read v a 2 s) as [[]];
    by repeat case_match.
Qed.
Lemma reads_gpu a w : reads (virtio_gpu_read (E:=G) a w).
Proof. intros s. unfold virtio_gpu_read. by repeat case_match. Qed.
Lemma reads_plic a w : reads (plic_read (E:=E) a w).
Proof. intros s. unfold plic_read. by repeat case_match. Qed.
Lemma reads_vblk a w : reads (virtio_blk_read (E:=E) a w).
Proof. intros s. unfold virtio_blk_read. by repeat case_match. Qed.
Lemma reads_vrng a w : reads (virtio_rng_read (E:=E) a w).
Proof. intros s. unfold virtio_rng_read. by repeat case_match. Qed.
Lemma reads_mswi a w : reads (aclint_mswi_read (E:=E) a w).
Proof. intros s. unfold aclint_mswi_read, Aclint.fault. cbn. by case_match. Qed.
Lemma reads_sswi a w : reads (aclint_sswi_read (E:=E) a w).
Proof. intros s. unfold aclint_sswi_read, Aclint.fault. cbn. by case_match. Qed.
Lemma reads_uart o w : reads (uart_load (E:=E) (N:=N) (S:=S) (F:=F) (G:=G) o w).
Proof.
  intros s. unfold uart_load, at_emur, at_emu, zoomr, zoom. pose proof (same_ram_uart_read o w (narrow f_emu s)) as [H1 H2].
  destruct (u8250_read o w (narrow f_emu s)) as [v m]. cbn [snd] in *.
  destruct (same_ram_uart_update (narrow f_emu (widen put_emu s m))) as [H3 H4]. split; cbn [widen ram ram_ptr]; [by rewrite H3|by rewrite H4].
Qed.

Lemma reads_full_load a w : reads (full_mem_load (E:=E) (N:=N) (S:=S) (F:=F) (G:=G) a w).
Proof.
  intros s. unfold full_mem_load. destruct (a <? RAM_SIZE). { unfold ram_read, touch. by repeat case_match. }
  cbv zeta. destruct (Z.shiftr a 28 =? 15); [|done]. destruct (mmio_region a) as [|p|p]; [apply reads_zoomr, reads_plic| |done].
  repeat lazymatch goal with
  | q : positive |- context [match ?q with _ => _ end] => destruct q as [q|q|]
  | |- context [uart_load ?o ?w s] => apply (reads_uart o w s)
  | |- context [plic_read] => apply reads_zoomr, reads_plic
  | |- context [virtio_blk_read] => apply reads_zoomr, reads_vblk
  | |- context [virtio_rng_read] => apply reads_zoomr, reads_vrng
  | |- context [aclint_mtimer_read ?o ?w] => apply reads_zoomr; intros m; apply same_ram_mtimer_read
  | |- context [aclint_mswi_read] => apply reads_zoomr, reads_mswi
  | |- context [aclint_sswi_read] => apply reads_zoomr, reads_sswi
  | |- context [virtio_net_read] => apply reads_zoomr, reads_net
  | |- context [virtio_snd_read] => apply reads_zoomr, reads_snd
  | |- context [virtio_fs_read] => apply reads_zoomr, reads_fs
  | |- context [virtio_input_read] => apply reads_zoomr, reads_input
  | |- context [virtio_gpu_read] => apply reads_zoomr, reads_gpu
  | |- _ => done
  end.
Qed.

(** The callbacks of a hart. A store that a chain of virtio-net of more than [fuel]
    descriptors keeps from ending leaves the machine as it is. *)
(* [main.c:852-855] INIT_HART *)
Definition full_bus (fuel : nat) : Bus (full_dev E N S F G) := {|
  mem_fetch n := at_emur (emu_mem_fetch n);
  mem_load := full_mem_load;
  mem_store a w v s := default s (full_mem_store fuel a w v s);
  mem_page_table s := emu_mem_page_table (narrow f_emu s);
  wfi := at_emu wfi_handler;
  clear_ssip := at_emu emu_clear_ssip;
  timer_get t := at_emur (semu_timer_get t) |}.

(** C37: The memory map of main.c with every device keeps the contract the processor
    core relies on. On a single-hart machine: below [RAM_SIZE] a bus load or store is
    [ram_read] or [ram_write], page-table and fetch pointers are exactly the pages of
    RAM; no register access of any device, with all the queue processing it starts,
    depends on or changes the hart's translation caches, and of the hart it touches only
    the error state, the pending interrupts and the WFI flag; a load never writes RAM;
    reading the timer and clearing [ssip] leave the hart alone. So the theorems on
    address translation, the caches and the instructions hold on this machine. *)
Theorem full_implements_bus fuel : @BusLaws (full_dev E N S F G) (full_bus fuel).
Proof.
  pose proof (emu_bus_laws (E:=E)) as L. split; intros; cbn.
  - apply (bus_page_table (BusLaws:=L) (narrow f_emu s)). done.
  - pose proof (bus_fetch (BusLaws:=L) n (narrow f_emu s) H) as X. cbn in X. unfold at_emur, zoomr. rewrite X. by destruct (ram_page n), s as [? ? ? ? ? ? ? []].
  - unfold full_mem_load. by destruct (Z.ltb_spec a RAM_SIZE); [|lia].
  - unfold full_mem_store. by destruct (Z.ltb_spec a RAM_SIZE); [|lia].
  - apply lawful_full_load.
  - destruct (lawful_full_store fuel a w v s) as [H _]. rewrite H. by destruct (full_mem_store fuel a w v s).
  - apply lawful_full_load.
  - destruct (lawful_full_store fuel a w v s) as [_ H]. destruct (full_mem_store fuel a w v s); [by apply H|apply bus_frame_refl].
  - apply reads_full_load.
  - unfold at_emur, zoomr. pose proof (bus_timer_frame (BusLaws:=L) t (narrow f_emu s)) as H. cbn in H. by destruct (semu_timer_get _ _).
  - done.
Qed.
End Devices.
