(* ===== verification/Coro.v ===== *)
(** * Coroutines (coro.c)

    Two layers. [Switch] is the processor's view: the assembly routines of the two
    supported hosts as lists of instructions on registers and memory (64-bit words at
    their addresses, which are aligned), and [make_context]. [Runtime] is the table of
    coroutines and the functions of coro.h; [jump_into] and [jump_out] move control
    between the scheduler and a coroutine. *)

From stdpp Require Import base gmap list.
From Stdlib Require Import ZArith Lia Bool.
From S2P Require Import Prelude.
Open Scope Z_scope.

Module Switch.
Section Cpu.
Context {reg : Type} `{EqDecision reg}.

Record cpu := mk_cpu { rf : reg -> Z; mem : Z -> Z; pc : Z }.
Definition set_reg (r : reg) (v : Z) (f : reg -> Z) : reg -> Z := fun x => if decide (x = r) then v else f x.
Definition set_mem (a v : Z) (m : Z -> Z) : Z -> Z := fun x => if decide (x = a) then v else m x.

(** The instructions the routines use; a pair is two adjacent words. *)
Inductive insn :=
  | I_lea (d : reg) (disp : Z)
  | I_mov (d s : reg)
  | I_store (r b : reg) (off : Z) | I_load (r b : reg) (off : Z)
  | I_stp (r1 r2 b : reg) (off : Z) | I_ldp (r1 r2 b : reg) (off : Z)
  | I_barrier
  | I_jmp_mem (b : reg) (off : Z) | I_jmp (r : reg) | I_ret (sp : reg).

Definition store (r b : reg) (off : Z) (st : cpu) : cpu := mk_cpu (rf st) (set_mem (rf st b + off) (rf st r) (mem st)) (pc st).
Definition load (r b : reg) (off : Z) (st : cpu) : cpu := mk_cpu (set_reg r (mem st (rf st b + off)) (rf st)) (mem st) (pc st).

(** Code is a list of instructions with their lengths; execution runs in order and
    ends with the first jump. The program counter is the address of the next
    instruction while one executes. *)
Fixpoint exec (code : list (insn * Z)) (st : cpu) : cpu :=
  match code with
  | [] => st
  | (i, len) :: code =>
    let st := mk_cpu (rf st) (mem st) (pc st + len) in
    match i with
    | I_lea d disp => exec code (mk_cpu (set_reg d (pc st + disp) (rf st)) (mem st) (pc st))
    | I_mov d s => exec code (mk_cpu (set_reg d (rf st s) (rf st)) (mem st) (pc st))
    | I_store r b off => exec code (store r b off st)
    | I_load r b off => exec code (load r b off st)
    | I_stp r1 r2 b off => exec code (store r2 b (off + 8) (store r1 b off st))
    | I_ldp r1 r2 b off => exec code (load r2 b (off + 8) (load r1 b off st))
    | I_barrier => exec code st
    | I_jmp_mem b off => mk_cpu (rf st) (mem st) (mem st (rf st b + off))
    | I_jmp r => mk_cpu (rf st) (mem st) (rf st r)
    | I_ret sp => mk_cpu (set_reg sp (rf st sp + 8) (rf st)) (mem st) (mem st (rf st sp))
    end
  end.

(** The code from the offset [k] on, if an instruction starts there. *)
Fixpoint code_from (k : Z) (code : list (insn * Z)) : option (list (insn * Z)) :=
  if k =? 0 then Some code
  else match code with [] => None | (_, len) :: code => code_from (k - len) code end.
End Cpu.
Arguments cpu : clear implicits.
Arguments insn : clear implicits.

(** ** x86-64 *)

Inductive x86 := RAX | RDI | RSI | RSP | RBP | RBX | R12 | R13 | R14 | R15.
#[export] Instance x86_eq_dec : EqDecision x86.
Proof. solve_decision. Defined.

(** Offsets in [coro_ctxbuf_t]: rip at 0. *)
(* [coro.c:35-38] coro_ctxbuf_t *)
Definition x86_saved : list (x86 * Z) := [(RSP, 8); (RBP, 16); (RBX, 24); (R12, 32); (R13, 40); (R14, 48); (R15, 56)].

(** The lengths are those of the encodings: seven bytes for [leaq], three and four for
    the moves, two for the jump. *)
(* [coro.c:63-97] _coro_switch *)
Definition x86_switch : list (insn x86 * Z) :=
  [(I_lea RAX 0x3d, 7); (I_store RAX RDI 0, 3); (I_store RSP RDI 8, 4); (I_store RBP RDI 16, 4); (I_store RBX RDI 24, 4);
   (I_store R12 RDI 32, 4); (I_store R13 RDI 40, 4); (I_store R14 RDI 48, 4); (I_store R15 RDI 56, 4);
   (I_load R15 RSI 56, 4); (I_load R14 RSI 48, 4); (I_load R13 RSI 40, 4); (I_load R12 RSI 32, 4); (I_load RBX RSI 24, 4);
   (I_load RBP RSI 16, 4); (I_load RSP RSI 8, 4); (I_jmp_mem RSI 0, 2); (I_ret RSP, 1)].

(* [coro.c:45-61] _coro_wrap_main *)
Definition x86_wrap_main : list (insn x86 * Z) := [(I_mov RDI R13, 3); (I_jmp R12, 3)].

Definition DUMMY_RETURN := 0xdeaddeaddeaddead.

(** The context of a new coroutine, in memory that [calloc] has cleared. *)
(* [coro.c:279-296] make_context *)
Definition x86_make_context (wrap_main entry_wrapper co ctx stack_base stack_size : Z) (m : Z -> Z) : Z -> Z :=
  let stack_size := stack_size - 128 in
  let stack_top := Z.land (stack_base + stack_size) (Z.lnot 15) in
  let stack_high_ptr := stack_top - 8 in
  let m := set_mem stack_high_ptr DUMMY_RETURN m in
  let m := set_mem ctx wrap_main m in
  let m := set_mem (ctx + 8) stack_high_ptr m in
  let m := set_mem (ctx + 32) entry_wrapper m in
  set_mem (ctx + 40) co m.

(** ** AArch64 *)

Inductive arm := X (n : Z) | D (n : Z) | SP.
#[export] Instance arm_eq_dec : EqDecision arm.
Proof. solve_decision. Defined.

(** Offsets in [coro_ctxbuf_t]: x19-x30, sp at 96, lr at 104, d8-d15. *)
(* [coro.c:101-107] coro_ctxbuf_t *)
Definition arm_saved : list (arm * Z) :=
  [(X 19, 0); (X 20, 8); (X 21, 16); (X 22, 24); (X 23, 32); (X 24, 40); (X 25, 48); (X 26, 56); (X 27, 64); (X 28, 72);
   (X 29, 80); (X 30, 88); (D 8, 112); (D 9, 120); (D 10, 128); (D 11, 136); (D 12, 144); (D 13, 152); (D 14, 160); (D 15, 168)].

(* [coro.c:114-158] _coro_switch *)
Definition arm_switch : list (insn arm * Z) :=
  (fun i => (i, 4)) <$>
  [I_mov (X 10) SP; I_mov (X 11) (X 30);
   I_stp (X 19) (X 20) (X 0) 0; I_stp (X 21) (X 22) (X 0) 16; I_stp (D 8) (D 9) (X 0) 112; I_stp (X 23) (X 24) (X 0) 32;
   I_stp (D 10) (D 11) (X 0) 128; I_stp (X 25) (X 26) (X 0) 48; I_stp (D 12) (D 13) (X 0) 144; I_stp (X 27) (X 28) (X 0) 64;
   I_stp (D 14) (D 15) (X 0) 160; I_stp (X 29) (X 30) (X 0) 80; I_stp (X 10) (X 11) (X 0) 96;
   I_ldp (X 19) (X 20) (X 1) 0; I_ldp (X 21) (X 22) (X 1) 16; I_ldp (D 8) (D 9) (X 1) 112; I_ldp (X 23) (X 24) (X 1) 32;
   I_ldp (D 10) (D 11) (X 1) 128; I_ldp (X 25) (X 26) (X 1) 48; I_ldp (D 12) (D 13) (X 1) 144; I_ldp (X 27) (X 28) (X 1) 64;
   I_ldp (D 14) (D 15) (X 1) 160; I_ldp (X 29) (X 30) (X 1) 80; I_ldp (X 10) (X 11) (X 1) 96;
   I_mov SP (X 10); I_barrier; I_barrier; I_jmp (X 11)].

(* [coro.c:160-177] _coro_wrap_main *)
Definition arm_wrap_main : list (insn arm * Z) :=
  (fun i => (i, 4)) <$> [I_mov (X 0) (X 19); I_mov (X 30) (X 21); I_jmp (X 20)].

(* [coro.c:297-305] make_context *)
Definition arm_make_context (wrap_main entry_wrapper co ctx stack_base stack_size : Z) (m : Z -> Z) : Z -> Z :=
  let stack_top := Z.land (stack_base + stack_size) (Z.lnot 15) in
  let m := set_mem ctx co m in
  let m := set_mem (ctx + 8) entry_wrapper m in
  let m := set_mem (ctx + 16) DUMMY_RETURN m in
  let m := set_mem (ctx + 96) stack_top m in
  set_mem (ctx + 104) wrap_main m.
End Switch.

Module Runtime.

(* [coro.c:24-28] coro_state_t *)
Inductive coro_state_t := CORO_STATE_SUSPENDED | CORO_STATE_RUNNING | CORO_STATE_DEAD.
#[export] Instance coro_state_eq_dec : EqDecision coro_state_t.
Proof. solve_decision. Defined.

(** A coroutine in the table has its context and its stack; [canary] tells whether
    the word at the bottom of the stack is intact. *)
(* [coro.c:201-211] coro_t *)
Record coro_t := mk_co { id : Z; func : Z; user_data : Z; state : coro_state_t; canary : bool }.

(** The global state and the thread-local pointer; pointers to coroutines are their
    slots. [at_co] is who executes: the scheduler, or the coroutine of a slot.
    [aborted] is the end of the process. *)
(* [coro.c:213-222] coro_state *)
Record coro_sys := mk_sys {
  coroutines : list (option coro_t); total_slots : Z; hart_slots : Z; current_hart : Z; initialized : bool;
  running : option Z; tls_running_coro : option Z; at_co : option Z; aborted : bool }.

#[export] Instance eta_co : Eta coro_t := fun r => mk_co (id r) (func r) (user_data r) (state r) (canary r).
#[export] Instance set_co_state : Setter state := ltac:(solve_setter).
#[export] Instance set_canary : Setter canary := ltac:(solve_setter).
#[export] Instance eta_sys : Eta coro_sys := fun r =>
  mk_sys (coroutines r) (total_slots r) (hart_slots r) (current_hart r) (initialized r) (running r) (tls_running_coro r)
    (at_co r) (aborted r).
#[export] Instance set_coroutines : Setter coroutines := ltac:(solve_setter).
#[export] Instance set_total_slots : Setter total_slots := ltac:(solve_setter).
#[export] Instance set_hart_slots : Setter hart_slots := ltac:(solve_setter).
#[export] Instance set_current_hart : Setter current_hart := ltac:(solve_setter).
#[export] Instance set_initialized : Setter initialized := ltac:(solve_setter).
#[export] Instance set_running : Setter running := ltac:(solve_setter).
#[export] Instance set_tls_running : Setter tls_running_coro := ltac:(solve_setter).
#[export] Instance set_at_co : Setter at_co := ltac:(solve_setter).
#[export] Instance set_aborted : Setter aborted := ltac:(solve_setter).

(* [coro.c:224-231] CORO_STACK_SIZE, CORO_HART_ID_IDLE *)
Definition CORO_STACK_SIZE := 1024 * 1024.
Definition CORO_HART_ID_IDLE := 0xFFFFFFFF.

(** The static state: zero. *)
Definition coro_zero : coro_sys := mk_sys [] 0 0 0 false None None None false.

Definition slot (s : coro_sys) (k : Z) : option coro_t := arr_get None (coroutines s) k.
Definition set_slot (k : Z) (co : option coro_t) (s : coro_sys) : coro_sys := s <| coroutines := arr_set (coroutines s) k co |>.
Definition set_state (k : Z) (st : coro_state_t) (s : coro_sys) : coro_sys :=
  match slot s k with Some co => set_slot k (Some (co <| state := st |>)) s | None => s end.

(* [coro.c:242-247] coro_clear_running_state *)
Definition coro_clear_running_state (s : coro_sys) : coro_sys :=
  s <| current_hart := CORO_HART_ID_IDLE |> <| running := None |> <| tls_running_coro := None |>.

(* [coro.c:255-267] coro_check_stack *)
Definition coro_check_stack (k : Z) (s : coro_sys) : coro_sys :=
  match slot s k with
  | Some co => if canary co then s else s <| aborted := true |>
  | None => s
  end.

(** Control passes to the coroutine, and from it back to the scheduler. *)
(* [coro.c:309-316] jump_into *)
Definition jump_into (k : Z) (s : coro_sys) : coro_sys :=
  s <| running := Some k |> <| tls_running_coro := Some k |> <| at_co := Some k |>.
(* [coro.c:318-324] jump_out *)
Definition jump_out (k : Z) (s : coro_sys) : coro_sys := (coro_clear_running_state s) <| at_co := None |>.

(** [ok]: the allocation succeeds. *)
(* [coro.c:404-430] coro_init *)
Definition coro_init (total hart : Z) (ok : bool) (s : coro_sys) : bool * coro_sys :=
  if initialized s then (false, s)
  else if (total =? 0) || (256 <? total) || (total <? hart) then (false, s)
  else if negb ok then (false, s)
  else (true, s <| coroutines := replicate (Z.to_nat total) None |> <| total_slots := total |> <| hart_slots := hart |>
               <| current_hart := CORO_HART_ID_IDLE |> <| initialized := true |> <| running := None |>).

(* [coro.c:432-459] coro_cleanup *)
Definition coro_cleanup (s : coro_sys) : coro_sys :=
  if negb (initialized s) then s
  else s <| coroutines := [] |> <| total_slots := 0 |> <| hart_slots := 0 |> <| current_hart := CORO_HART_ID_IDLE |>
         <| initialized := false |> <| running := None |> <| tls_running_coro := None |>.

(** [ok1], [ok2], [ok3]: the structure, its context and its stack are allocated. *)
(* [coro.c:461-540] coro_create_hart *)
Definition coro_create_hart (slot_id : Z) (f : option Z) (arg : Z) (ok1 ok2 ok3 : bool) (s : coro_sys) : bool * coro_sys :=
  if negb (initialized s) then (false, s)
  else if total_slots s <=? slot_id then (false, s)
  else
    match f, slot s slot_id with
    | None, _ => (false, s)
    | Some _, Some _ => (false, s)
    | Some f, None =>
      if negb (ok1 && ok2 && ok3) then (false, s)
      else (true, set_slot slot_id (Some (mk_co slot_id f arg CORO_STATE_SUSPENDED true)) s)
    end.

(** Up to the switch; what follows it runs when control comes back. *)
(* [coro.c:542-568] coro_resume_hart *)
Definition coro_resume_hart (slot_id : Z) (s : coro_sys) : coro_sys :=
  if negb (initialized s) || (total_slots s <=? slot_id) then s
  else
    match slot s slot_id with
    | None => s
    | Some co =>
      if negb (bool_decide (state co = CORO_STATE_SUSPENDED)) then s
      else
        let s := coro_check_stack slot_id s in
        if aborted s then s
        else jump_into slot_id (set_state slot_id CORO_STATE_RUNNING (s <| current_hart := slot_id |>))
    end.
(* [coro.c:569-572] coro_resume_hart *)
Definition resume_return (slot_id : Z) (s : coro_sys) : coro_sys := coro_check_stack slot_id s.

(** Called by a coroutine; its scheduler continues in [coro_resume_hart]. *)
(* [coro.c:574-594] coro_yield *)
Definition coro_yield (s : coro_sys) : coro_sys :=
  if negb (initialized s) then s
  else
    match tls_running_coro s with
    | None => s
    | Some k =>
      match slot s k with
      | None => s
      | Some co =>
        if negb (bool_decide (state co = CORO_STATE_RUNNING)) then s
        else resume_return k (jump_out k (set_state k CORO_STATE_SUSPENDED s))
      end
    end.

(** The function of the coroutine of slot [k] returns. *)
(* [coro.c:393-399] coro_entry_wrapper *)
Definition coro_finish (k : Z) (s : coro_sys) : coro_sys :=
  resume_return k (jump_out k (set_state k CORO_STATE_DEAD s)).

(* [coro.c:596-606] coro_is_suspended *)
Definition coro_is_suspended (slot_id : Z) (s : coro_sys) : bool :=
  if negb (initialized s) || (hart_slots s <=? slot_id) then false
  else match slot s slot_id with None => false | Some co => bool_decide (state co = CORO_STATE_SUSPENDED) end.

(* [coro.c:608-615] coro_current_hart_id *)
Definition coro_current_hart_id (s : coro_sys) : Z := if negb (initialized s) then 0xFFFFFFFF else current_hart s.

(** Calls in the order the program can make them: the scheduler sets up, resumes and
    cleans up; a coroutine yields or returns, and may overrun its stack. *)
Inductive coro_step : coro_sys -> coro_sys -> Prop :=
  | cs_init s total hart ok : at_co s = None -> aborted s = false -> 0 <= total -> 0 <= hart ->
      coro_step s (snd (coro_init total hart ok s))
  | cs_cleanup s : at_co s = None -> aborted s = false -> coro_step s (coro_cleanup s)
  | cs_create s k f arg ok1 ok2 ok3 : at_co s = None -> aborted s = false -> 0 <= k ->
      coro_step s (snd (coro_create_hart k f arg ok1 ok2 ok3 s))
  | cs_resume s k : at_co s = None -> aborted s = false -> 0 <= k -> coro_step s (coro_resume_hart k s)
  | cs_yield s k : at_co s = Some k -> coro_step s (coro_yield s)
  | cs_finish s k : at_co s = Some k -> coro_step s (coro_finish k s)
  | cs_overrun s k co : at_co s = Some k -> slot s k = Some co -> coro_step s (set_slot k (Some (co <| canary := false |>)) s).

Inductive coro_reach : coro_sys -> Prop :=
  | cr_zero : coro_reach coro_zero
  | cr_step s s' : coro_reach s -> coro_step s s' -> coro_reach s'.
End Runtime.
