(* ===== verification/CoroProps.v ===== *)
(** * Coroutines: theorems

    Switching away and back restores the registers a call preserves, on both hosts;
    a new coroutine starts in its wrapper on its own stack; and the table of
    coroutines agrees with who is executing. *)

From stdpp Require Import base gmap list.
From Stdlib Require Import ZArith Lia Bool.
From S2P Require Import Prelude Loops Coro.
Open Scope Z_scope.

Module SwitchProps.
Import Switch.

Lemma set_mem_same a v m : set_mem a v m a = v.
Proof. unfold set_mem. by rewrite decide_True. Qed.
Lemma set_mem_other a v m x : x <> a -> set_mem a v m x = m x.
Proof. intros H. unfold set_mem. by rewrite decide_False. Qed.

Section Blocks.
Context {reg : Type} `{EqDecision reg}.
Implicit Types (m : Z -> Z) (f : reg -> Z) (l : list (reg * Z)).

(** A block of stores through one register, and a block of loads. *)
Definition saves (a : Z) l f m : Z -> Z := foldl (fun m ro => set_mem (a + snd ro) (f (fst ro)) m) m l.
Definition loads (a : Z) m l f : reg -> Z := foldl (fun f ro => set_reg (fst ro) (m (a + snd ro)) f) f l.

Lemma saves_cons a r o l f m : saves a ((r, o) :: l) f m = saves a l f (set_mem (a + o) (f r) m).
Proof. reflexivity. Qed.
Lemma loads_cons a r o l f m : loads a m ((r, o) :: l) f = loads a m l (set_reg r (m (a + o)) f).
Proof. reflexivity. Qed.

Lemma saves_other a l f : forall m x, (forall r o, (r, o) ∈ l -> x <> a + o) -> saves a l f m x = m x.
Proof.
  induction l as [|[r o] l IH]; intros m x H; [done|]. rewrite saves_cons.
  rewrite IH by (intros; eapply H; by apply list_elem_of_further). apply set_mem_other. by eapply H, list_elem_of_here.
Qed.
Lemma saves_get a l f : forall m r o, NoDup (snd <$> l) -> (r, o) ∈ l -> saves a l f m (a + o) = f r.
Proof.
  induction l as [|[r0 o0] l IH]; intros m r o ND H; [by apply elem_of_nil in H|].
  apply NoDup_cons in ND as [N ND]. rewrite saves_cons. apply elem_of_cons in H as [[= -> ->]|H].
  - rewrite saves_other; [apply set_mem_same|]. intros r' o' H' E0. apply N. cbn. replace o0 with o' by lia.
    by apply (list_elem_of_fmap_2 snd _ (r', o')).
  - by apply IH.
Qed.
Lemma loads_other a m l : forall f r, r ∉ (fst <$> l) -> loads a m l f r = f r.
Proof.
  induction l as [|[r0 o0] l IH]; intros f r H; [done|]. cbn in H. rewrite not_elem_of_cons in H. destruct H as [H1 H2].
  rewrite loads_cons. rewrite IH by done. unfold set_reg. by rewrite decide_False.
Qed.
Lemma loads_get a m l : forall f r o, NoDup (fst <$> l) -> (r, o) ∈ l -> loads a m l f r = m (a + o).
Proof.
  induction l as [|[r0 o0] l IH]; intros f r o ND H; [by apply elem_of_nil in H|].
  apply NoDup_cons in ND as [N ND]. rewrite loads_cons. apply elem_of_cons in H as [[= -> ->]|H].
  - rewrite loads_other by done. unfold set_reg. by rewrite decide_True.
  - by apply IH.
Qed.
End Blocks.

(** ** x86-64 *)

(** The callee-saved registers and the stack pointer. *)
Definition x86_rip_saved : list (x86 * Z) := (RAX, 0) :: x86_saved.

Lemma x86_switch_run st : let a := rf st RDI in let b := rf st RSI in
  let f := set_reg RAX (pc st + 7 + 0x3d) (rf st) in let m := saves a x86_rip_saved f (mem st) in
  exec x86_switch st = mk_cpu (loads b m (reverse x86_saved) f) m (m (b + 0)).
Proof. reflexivity. Qed.

(** The [leaq] of the switch computes the address of its [ret]. *)
Lemma x86_ret_addr : code_from (7 + 0x3d) x86_switch = Some [(I_ret RSP, 1)].
Proof. reflexivity. Qed.

(** Sixty-four bytes from [a] and from [c] do not overlap. *)
Definition apart (n a c : Z) : Prop := a + n <= c \/ c + n <= a.

Lemma offset_range {reg} (l : list (reg * Z)) n : forallb (fun ro => (0 <=? snd ro) && (snd ro <? n)) l = true ->
  forall r o, (r, o) ∈ l -> 0 <= o < n.
Proof. rewrite forallb_forall. intros H r o Hr. apply list_elem_of_In, H in Hr. cbn in Hr. lia. Qed.

(** A buffer that another one's saves do not touch. *)
Lemma saves_apart {reg} (l : list (reg * Z)) n c f m x : forallb (fun ro => (0 <=? snd ro) && (snd ro <? n)) l = true ->
  x < c \/ c + n <= x -> saves c l f m x = m x.
Proof. intros H Hx. apply saves_other. intros r o Hr. pose proof (offset_range l n H r o Hr). lia. Qed.

(** C33: On x86-64, a coroutine (or the scheduler) that calls [_coro_switch] and is later
    switched back to by anyone, with its context buffer and its return address intact,
    continues as if the call had returned: at its return address, with the stack
    pointer popped and every callee-saved register as it left them. The displacement
    in the code is the one of the [ret] instruction. *)
Theorem x86_switch_roundtrip st1 st2 : let a := rf st1 RDI in let c := rf st2 RDI in let sp := rf st1 RSP in
  pc st2 = pc st1 -> rf st2 RSI = a ->
  (forall o, 0 <= o < 64 -> mem st2 (a + o) = mem (exec x86_switch st1) (a + o)) -> mem st2 sp = mem st1 sp ->
  apart 64 a c -> (sp < c \/ c + 64 <= sp) ->
  let st3 := exec x86_switch st2 in
  exists code, code_from (pc st3 - pc st1) x86_switch = Some code /\
    let st4 := exec code st3 in
    pc st4 = mem st1 sp /\ rf st4 RSP = sp + 8 /\ forall r, r ∈ [RBX; RBP; R12; R13; R14; R15] -> rf st4 r = rf st1 r.
Proof.
  intros a c sp Hpc Hb Hbuf Hsp Ha Hs. rewrite (x86_switch_run st1) in Hbuf. cbn [mem] in Hbuf. fold a in Hbuf.
  set (f1 := set_reg RAX (pc st1 + 7 + 0x3d) (rf st1)) in *. rewrite (x86_switch_run st2), Hb. fold c.
  set (f2 := set_reg RAX (pc st2 + 7 + 0x3d) (rf st2)). set (m2 := saves c x86_rip_saved f2 (mem st2)).
  assert (G : forall r o, (r, o) ∈ x86_rip_saved -> m2 (a + o) = f1 r).
  { intros r o Hr. pose proof (offset_range x86_rip_saved 64 eq_refl r o Hr). unfold m2.
    rewrite (saves_apart _ 64) by (done || unfold apart in Ha; lia). rewrite Hbuf by lia.
    apply saves_get; [|done]. by apply (bool_decide_unpack _); vm_compute. }
  assert (Gl : forall r o, (r, o) ∈ x86_saved -> loads a m2 (reverse x86_saved) f2 r = f1 r).
  { intros r o Hr. rewrite (loads_get a m2 _ f2 r o); [|by apply (bool_decide_unpack _); vm_compute|by apply elem_of_reverse].
    apply G. by apply list_elem_of_further. }
  cbv zeta. cbn [pc]. rewrite (G RAX 0) by apply list_elem_of_here.
  replace (f1 RAX - pc st1) with (7 + 0x3d) by (unfold f1, set_reg; rewrite decide_True by done; lia).
  exists [(I_ret RSP, 1)]. split; [reflexivity|]. cbn [exec pc rf mem].
  assert (Es : loads a m2 (reverse x86_saved) f2 RSP = sp) by (rewrite (Gl RSP 8); [done|by apply (bool_decide_unpack _); vm_compute]).
  split; [rewrite Es; unfold m2; rewrite (saves_apart _ 64) by (done || lia); done|].
  split; [unfold set_reg; rewrite decide_True by done; by rewrite Es|].
  intros r Hr. unfold set_reg. rewrite decide_False by (intros ->; by apply (bool_decide_pack _) in Hr; vm_compute in Hr).
  rewrite !elem_of_cons, elem_of_nil in Hr.
  destruct Hr as [->|[->|[->|[->|[->|[->|[]]]]]]]; [rewrite (Gl _ 24)|rewrite (Gl _ 16)|rewrite (Gl _ 32)|rewrite (Gl _ 40)|rewrite (Gl _ 48)|rewrite (Gl _ 56)];
    (reflexivity || by apply (bool_decide_unpack _); vm_compute).
Qed.

(** ** AArch64 *)

(** The words in the order of the code; x10 and x11 carry the stack pointer and the
    return address. *)
Definition arm_order : list (arm * Z) :=
  [(X 19, 0); (X 20, 8); (X 21, 16); (X 22, 24); (D 8, 112); (D 9, 120); (X 23, 32); (X 24, 40); (D 10, 128); (D 11, 136);
   (X 25, 48); (X 26, 56); (D 12, 144); (D 13, 152); (X 27, 64); (X 28, 72); (D 14, 160); (D 15, 168); (X 29, 80); (X 30, 88);
   (X 10, 96); (X 11, 104)].

Lemma arm_switch_run st : let a := rf st (X 0) in let b := rf st (X 1) in
  let f := set_reg (X 11) (rf st (X 30)) (set_reg (X 10) (rf st SP) (rf st)) in let m := saves a arm_order f (mem st) in
  let f' := loads b m arm_order f in
  exec arm_switch st = mk_cpu (set_reg SP (f' (X 10)) f') m (f' (X 11)).
Proof. reflexivity. Qed.

(** The same on AArch64: control is back at the link register's address, with the
    stack pointer, x19 to x30 and d8 to d15 as they were. *)
Theorem arm_switch_roundtrip st1 st2 : let a := rf st1 (X 0) in let c := rf st2 (X 0) in
  rf st2 (X 1) = a -> (forall o, 0 <= o < 176 -> mem st2 (a + o) = mem (exec arm_switch st1) (a + o)) -> apart 176 a c ->
  let st3 := exec arm_switch st2 in
  pc st3 = rf st1 (X 30) /\ rf st3 SP = rf st1 SP /\ forall r o, (r, o) ∈ arm_saved -> rf st3 r = rf st1 r.
Proof.
  intros a c Hb Hbuf Ha. rewrite (arm_switch_run st1) in Hbuf. cbn [mem] in Hbuf. fold a in Hbuf. rewrite (arm_switch_run st2), Hb.
  set (f1 := set_reg (X 11) (rf st1 (X 30)) _) in *. set (f2 := set_reg (X 11) (rf st2 (X 30)) _).
  set (m2 := saves (rf st2 (X 0)) arm_order f2 (mem st2)).
  assert (Gl : forall r o, (r, o) ∈ arm_order -> loads a m2 arm_order f2 r = f1 r).
  { intros r o Hr. pose proof (offset_range arm_order 176 eq_refl r o Hr).
    rewrite (loads_get a m2 _ f2 r o) by (done || by apply (bool_decide_unpack _); vm_compute). unfold m2.
    rewrite (saves_apart _ 176) by (done || unfold apart in Ha; fold c; lia). rewrite Hbuf by lia.
    apply saves_get; [|done]. by apply (bool_decide_unpack _); vm_compute. }
  assert (F1 : forall r, r <> X 10 -> r <> X 11 -> f1 r = rf st1 r) by (intros; unfold f1, set_reg; by rewrite !decide_False).
  cbv zeta. cbn [pc rf]. split; [|split].
  - rewrite (Gl (X 11) 104) by (by apply (bool_decide_unpack _); vm_compute). unfold f1, set_reg. by rewrite decide_True.
  - unfold set_reg at 1. rewrite decide_True by done. rewrite (Gl (X 10) 96) by (by apply (bool_decide_unpack _); vm_compute).
    unfold f1, set_reg. by rewrite decide_False, decide_True.
  - intros r o Hr. assert (N : r ∉ [SP; X 10; X 11]).
    { intros Hn. rewrite !elem_of_cons, elem_of_nil in Hn. destruct Hn as [->|[->|[->|[]]]];
        (apply (list_elem_of_fmap_2 fst) in Hr; by apply (bool_decide_pack _) in Hr; vm_compute in Hr). }
    rewrite !not_elem_of_cons in N. destruct N as (N1 & N2 & N3 & _). unfold set_reg at 1. rewrite decide_False by done.
    rewrite (Gl r o); [by apply F1|]. clear -Hr. unfold arm_saved in Hr. rewrite !elem_of_cons, elem_of_nil in Hr.
    repeat destruct Hr as [Hr|Hr]; [..|done]; simplify_eq; by apply (bool_decide_unpack _); vm_compute.
Qed.

(** ** New coroutines *)

(** [x & ~15] *)
Lemma align16 x : let y := Z.land x (Z.lnot 15) in y mod 16 = 0 /\ y <= x < y + 16.
Proof.
  intros y. assert (Hy : y = x - x mod 16).
  { unfold y. change 15 with (Z.ones 4). change 16 with (2 ^ 4). rewrite <- Z.land_ones by lia.
    rewrite <- Z.ldiff_land. rewrite Z.sub_nocarry_ldiff.
    - apply Z.bits_inj'. intros n Hn. rewrite !Z.ldiff_spec, Z.land_spec, !Z.testbit_ones by lia.
      destruct (Z.testbit x n), ((0 <=? n) && (n <? 4)); done.
    - apply Z.bits_inj'. intros n Hn. rewrite Z.ldiff_spec, Z.land_spec, Z.bits_0. by destruct (Z.testbit x n), (Z.testbit (Z.ones 4) n). }
  rewrite Hy. pose proof (Z.mod_pos_bound x 16). split; [|lia]. rewrite Zminus_mod_idemp_r, Z.sub_diag. done.
Qed.

(** The stack of [coro_create_hart]: a mebibyte whose lowest word is the canary. *)
Definition usable_base (stack : Z) := stack + 8.
Definition usable_size := Runtime.CORO_STACK_SIZE - 8.

(** The first switch to a new coroutine enters its wrapper with the coroutine as
    argument, on its own stack: the stack pointer is aligned as at the entry of a
    function, inside the mebibyte allocated for it, above the canary and with the
    red zone below its end, and what it points at is the dummy return address. *)
Theorem x86_first_entry wrap_main entry_wrapper co ctx stack m st :
  let m' := x86_make_context wrap_main entry_wrapper co ctx (usable_base stack) usable_size m in
  mem st = m' -> rf st RSI = ctx -> apart 64 ctx (rf st RDI) ->
  (ctx + 64 <= stack \/ stack + Runtime.CORO_STACK_SIZE <= ctx) ->
  (rf st RDI + 64 <= stack \/ stack + Runtime.CORO_STACK_SIZE <= rf st RDI) ->
  let st1 := exec x86_switch st in
  pc st1 = wrap_main /\
  let st2 := exec x86_wrap_main st1 in
  pc st2 = entry_wrapper /\ rf st2 RDI = co /\ rf st2 RSP mod 16 = 8 /\
  stack + 8 < rf st2 RSP /\ rf st2 RSP + 8 + 128 <= stack + Runtime.CORO_STACK_SIZE /\
  mem st2 (rf st2 RSP) = DUMMY_RETURN /\ mem st2 stack = m stack.
Proof.
  intros m' Hm Hb Ha Hc Hd. rewrite (x86_switch_run st), Hb. set (f := set_reg RAX _ _). set (c := rf st RDI) in *.
  rewrite Hm. set (m2 := saves c x86_rip_saved f m').
  destruct (align16 (usable_base stack + (usable_size - 128))) as [A1 A2]. unfold m', x86_make_context in *.
  set (top := Z.land _ _) in *. unfold usable_base, usable_size, Runtime.CORO_STACK_SIZE in *.
  assert (O : forall x, x < c \/ c + 64 <= x -> m2 x = m' x) by (intros x Hx; by apply (saves_apart _ 64)).
  unfold apart in Ha.
  assert (Ectx : m2 (ctx + 0) = wrap_main /\ m2 (ctx + 8) = top - 8 /\ m2 (ctx + 32) = entry_wrapper /\ m2 (ctx + 40) = co /\
    m2 (top - 8) = DUMMY_RETURN /\ m2 stack = m stack).
  { unfold m' in O. cbv zeta in O. split_and!; rewrite O by lia; rewrite ?set_mem_other by lia; rewrite ?set_mem_same; try done.
    replace (ctx + 0) with ctx by lia. by rewrite set_mem_same. }
  destruct Ectx as (E0 & E1 & E2 & E3 & E4 & E5). cbv zeta. cbn [pc]. split; [exact E0|].
  assert (Gl : forall r o, (r, o) ∈ x86_saved -> loads ctx m2 (reverse x86_saved) f r = m2 (ctx + o)).
  { intros r o Hr. apply loads_get; [by apply (bool_decide_unpack _); vm_compute|by apply elem_of_reverse]. }
  unfold x86_wrap_main. cbn [exec pc rf mem]. unfold set_reg at 1 2. rewrite !decide_False by done.
  rewrite (Gl R12 32), (Gl R13 40) by (by apply (bool_decide_unpack _); vm_compute). rewrite E2, E3.
  split; [done|]. unfold set_reg. rewrite decide_True by done. split; [done|]. rewrite decide_False by done.
  rewrite (Gl RSP 8), E1 by (by apply (bool_decide_unpack _); vm_compute).
  split; [|split_and!; (done || lia)]. replace (top - 8) with (8 + (top - 16)) by lia. rewrite Z.add_mod by lia.
  rewrite <- Zminus_mod_idemp_l, A1. done.
Qed.
End SwitchProps.

Module RuntimeProps.
Import Runtime.

(** Who runs: the coroutine that executes is the only one in the state RUNNING and the
    one every pointer names; the scheduler runs when there is none. *)
Record coro_inv (s : coro_sys) : Prop := {
  ci_len : Z.of_nat (length (coroutines s)) = total_slots s;
  ci_bound : initialized s = true -> 1 <= total_slots s <= 256 /\ 0 <= hart_slots s <= total_slots s;
  ci_closed : initialized s = false -> at_co s = None /\ total_slots s = 0;
  ci_ids : forall k co, 0 <= k -> slot s k = Some co -> id co = k;
  ci_running : forall k co, 0 <= k -> slot s k = Some co -> (state co = CORO_STATE_RUNNING <-> at_co s = Some k);
  ci_at : forall k, at_co s = Some k -> 0 <= k < total_slots s /\ is_Some (slot s k);
  ci_tls : tls_running_coro s = at_co s;
  ci_ptr : running s = at_co s;
  ci_current : initialized s = true -> current_hart s = match at_co s with Some k => k | None => CORO_HART_ID_IDLE end }.

Lemma slot_set_eq s k co : 0 <= k < Z.of_nat (length (coroutines s)) -> slot (set_slot k co s) k = co.
Proof. intros H. unfold slot, set_slot. cbn. by apply arr_get_set_eq. Qed.
Lemma slot_set_ne s k k' co : 0 <= k -> 0 <= k' -> k <> k' -> slot (set_slot k co s) k' = slot s k'.
Proof. intros H1 H2 H3. unfold slot, set_slot. cbn. by apply arr_get_set_ne. Qed.
Lemma slot_range s k co : 0 <= k -> slot s k = Some co -> k < Z.of_nat (length (coroutines s)).
Proof.
  unfold slot, arr_get. intros Hk H. destruct (coroutines s !! Z.to_nat k) eqn:E0; [|done]. apply lookup_lt_Some in E0. lia.
Qed.

(** The check changes nothing but [aborted]. *)
Lemma check_inv k s : coro_inv s -> coro_inv (coro_check_stack k s).
Proof.
  intros I. unfold coro_check_stack. destruct (slot s k) as [co|]; [|done]. destruct (canary co); [done|]. destruct I. by constructor.
Qed.
Lemma check_slot k s : coroutines (coro_check_stack k s) = coroutines s /\ at_co (coro_check_stack k s) = at_co s.
Proof. unfold coro_check_stack. destruct (slot s k) as [co|]; [|done]. by destruct (canary co). Qed.

(** Control leaves the coroutine [k], which is in the state [st] from then on. *)
Lemma leave_inv k st s : st <> CORO_STATE_RUNNING -> coro_inv s -> at_co s = Some k ->
  coro_inv (jump_out k (set_state k st s)).
Proof.
  intros Hst I Hat. pose proof I as [I1 I2 I3 I4 I5 I6 I7 I8 I9]. destruct (I6 k Hat) as [Hk [co Hco]].
  assert (E0 : set_state k st s = set_slot k (Some (co <| state := st |>)) s) by (unfold set_state; by rewrite Hco).
  rewrite E0. assert (Hl : 0 <= k < Z.of_nat (length (coroutines s))) by lia.
  assert (S : forall k' co', 0 <= k' -> slot (jump_out k (set_slot k (Some (co <| state := st |>)) s)) k' = Some co' ->
    id co' = k' /\ state co' <> CORO_STATE_RUNNING).
  { intros k' co' Hk'. change (slot (jump_out k ?x) k') with (slot x k'). destruct (decide (k = k')) as [<-|Hne].
    - rewrite slot_set_eq by done. intros [= <-]. split; [exact (I4 k co (proj1 Hk) Hco)|done].
    - rewrite slot_set_ne by lia. intros H. split; [by apply I4|]. intros Hr. apply (I5 k' co' Hk' H) in Hr. congruence. }
  constructor; cbn; try done.
  - rewrite length_arr_set. done.
  - intros E1. by destruct (I3 E1).
  - intros k' co' Hk' H. by apply S.
  - intros k' co' Hk' H. destruct (S k' co' Hk' H). by split.
Qed.

Lemma init_coro total hart ok s : coro_inv s -> at_co s = None -> 0 <= total -> 0 <= hart -> coro_inv (snd (coro_init total hart ok s)).
Proof.
  intros I Hat Ht Hh. unfold coro_init. case_match; [done|]. case_match; [done|]. case_match; [done|]. cbn [snd].
  assert (S : forall k co, arr_get None (replicate (Z.to_nat total) (None : option coro_t)) k = Some co -> False).
  { intros k co. by rewrite arr_get_replicate. }
  destruct I as [I1 I2 I3 I4 I5 I6 I7 I8 I9]. constructor; cbn; try done.
  - rewrite length_replicate. lia.
  - intros _. lia.
  - intros k co _ H'. by destruct (S k co).
  - intros k co _ H'. by destruct (S k co).
  - rewrite Hat. done.
  - by rewrite Hat.
Qed.

Lemma create_coro k f arg ok1 ok2 ok3 s : coro_inv s -> at_co s = None -> 0 <= k ->
  coro_inv (snd (coro_create_hart k f arg ok1 ok2 ok3 s)).
Proof.
  intros I Hat Hk. unfold coro_create_hart. case_match; [done|]. case_match; [done|]. destruct f as [f|]; [|done].
  case_match; [done|]. case_match; [done|]. cbn [snd]. pose proof I as [I1 I2 I3 I4 I5 I6 I7 I8 I9].
  assert (Hl : 0 <= k < Z.of_nat (length (coroutines s))) by lia. set (co := mk_co k f arg CORO_STATE_SUSPENDED true).
  constructor; cbn; try done.
  - by rewrite length_arr_set.
  - intros k' co' Hk'. destruct (decide (k = k')) as [<-|]; [rewrite slot_set_eq by done; by intros [= <-]|].
    rewrite slot_set_ne by lia. by apply I4.
  - intros k' co' Hk'. destruct (decide (k = k')) as [<-|]; [rewrite slot_set_eq by done; intros [= <-]; by rewrite Hat|].
    rewrite slot_set_ne by lia. by apply I5.
  - rewrite Hat. done.
Qed.

Lemma resume_coro k s : coro_inv s -> at_co s = None -> 0 <= k -> coro_inv (coro_resume_hart k s).
Proof.
  intros I Hat Hk. unfold coro_resume_hart. case_match; [done|]. destruct (slot s k) as [co|] eqn:Hco; [|done].
  case_match; [done|]. pose proof (check_inv k s I) as I'. destruct (check_slot k s) as [C1 C2]. case_match; [exact I'|].
  set (s1 := coro_check_stack k s) in *. clearbody s1. assert (Hco1 : slot s1 k = Some co) by (unfold slot in *; by rewrite C1).
  assert (Hi : initialized s1 = true).
  { destruct (initialized s1) eqn:E0; [done|]. destruct (ci_closed s1 I' E0) as [_ T]. pose proof (slot_range s1 k co Hk Hco1).
    pose proof (ci_len s1 I'). lia. }
  pose proof (slot_range s1 k co Hk Hco1) as Hr. rewrite Hat in C2. clear I Hat. rename I' into I, C2 into Hat.
  pose proof I as [I1 I2 I3 I4 I5 I6 I7 I8 I9]. unfold set_state. change (slot (s1 <| current_hart := k |>) k) with (slot s1 k).
  rewrite Hco1. set (s2 := set_slot _ _ _). assert (S : forall k', 0 <= k' -> slot (jump_into k s2) k' =
    if decide (k' = k) then Some (co <| state := CORO_STATE_RUNNING |>) else slot s1 k').
  { intros k' Hk'. change (slot (jump_into k s2) k') with (slot s2 k'). unfold s2. destruct (decide (k' = k)) as [->|E0].
    - by rewrite slot_set_eq.
    - by rewrite slot_set_ne by lia. }
  constructor; cbn; try done.
  - by rewrite length_arr_set.
  - intros E0. congruence.
  - intros k' co' Hk'. rewrite S by done. destruct (decide (k' = k)) as [->|E0]; [|by apply I4]. intros [= <-]. exact (I4 k co Hk Hco1).
  - intros k' co' Hk'. rewrite S by done. destruct (decide (k' = k)) as [->|E0]; [by intros [= <-]|]. intros H'.
    rewrite (I5 k' co' Hk' H'), Hat. split; [done|]. congruence.
  - intros k' [= <-]. split; [lia|]. change (slot ?x k) with (slot (jump_into k s2) k). rewrite S, decide_True by done. by eexists.
Qed.

Lemma overrun_coro k co s : coro_inv s -> at_co s = Some k -> slot s k = Some co ->
  coro_inv (set_slot k (Some (co <| canary := false |>)) s).
Proof.
  intros I Hat Hco. pose proof I as [I1 I2 I3 I4 I5 I6 I7 I8 I9]. destruct (I6 k Hat) as [Hk _].
  assert (Hl : 0 <= k < Z.of_nat (length (coroutines s))) by lia. constructor; cbn; try done.
  - by rewrite length_arr_set.
  - intros k' co' Hk'. destruct (decide (k = k')) as [<-|]; [rewrite slot_set_eq by done; intros [= <-]; exact (I4 k co (proj1 Hk) Hco)|].
    rewrite slot_set_ne by lia. by apply I4.
  - intros k' co' Hk'. destruct (decide (k = k')) as [<-|]; [rewrite slot_set_eq by done; intros [= <-]; exact (I5 k co (proj1 Hk) Hco)|].
    rewrite slot_set_ne by lia. by apply I5.
  - intros k' H. destruct (I6 k' H) as [G1 G2]. split; [done|]. replace k' with k by congruence. rewrite slot_set_eq by done. by eexists.
Qed.

(** A coroutine that runs can always yield. *)
Lemma yield_eq k s : coro_inv s -> at_co s = Some k ->
  coro_yield s = resume_return k (jump_out k (set_state k CORO_STATE_SUSPENDED s)).
Proof.
  intros I Hat. unfold coro_yield. destruct (initialized s) eqn:Hi.
  2: { destruct (ci_closed s I Hi). congruence. }
  rewrite (ci_tls s I), Hat. cbn [negb]. destruct (ci_at s I k Hat) as [Hk [co Hco]]. rewrite Hco.
  rewrite bool_decide_true by (by apply (ci_running s I k co); [lia|..]). done.
Qed.

Lemma step_inv s s' : coro_step s s' -> coro_inv s -> coro_inv s'.
Proof.
  intros [] I.
  - by apply init_coro.
  - unfold coro_cleanup. case_match; [done|]. destruct I as [I1 I2 I3 I4 I5 I6 I7 I8 I9].
    constructor; cbn; try done. by rewrite H.
  - by apply create_coro.
  - by apply resume_coro.
  - rewrite (yield_eq k) by done. by apply check_inv, leave_inv.
  - by apply check_inv, leave_inv.
  - by apply overrun_coro.
Qed.
Lemma coro_reach_inv s : coro_reach s -> coro_inv s.
Proof.
  induction 1 as [|s s' _ IH H]; [|by eapply step_inv]. constructor; cbn; try done.
Qed.

(** C34: In every sequence of calls the table of coroutines agrees with who executes: at
    most one coroutine is RUNNING, it is the one that executes, and
    [coro_current_hart_id] is its slot, or the idle value when the scheduler
    executes. A running coroutine's yield always returns to the scheduler and leaves
    it SUSPENDED, so it can be resumed; one that has returned is never entered again. *)
Theorem coro_one_running s : coro_reach s ->
  (forall k co, 0 <= k -> slot s k = Some co -> (state co = CORO_STATE_RUNNING <-> at_co s = Some k)) /\
  (initialized s = true -> coro_current_hart_id s = match at_co s with Some k => k | None => CORO_HART_ID_IDLE end) /\
  (forall k, at_co s = Some k -> at_co (coro_yield s) = None /\
    exists co, slot (coro_yield s) k = Some co /\ state co = CORO_STATE_SUSPENDED) /\
  (forall k co, at_co s = None -> 0 <= k -> slot s k = Some co -> state co = CORO_STATE_DEAD -> coro_resume_hart k s = s) /\
  (forall k co, at_co s = None -> aborted s = false -> 0 <= k -> slot s k = Some co -> state co = CORO_STATE_SUSPENDED ->
    canary co = true -> at_co (coro_resume_hart k s) = Some k).
Proof.
  intros H. pose proof (coro_reach_inv s H) as I. pose proof I as [I1 I2 I3 I4 I5 I6 I7 I8 I9]. split_and!.
  - exact I5.
  - intros Hi. unfold coro_current_hart_id. rewrite Hi. by apply I9.
  - intros k Hat. rewrite (yield_eq k) by done. unfold resume_return. destruct (check_slot k (jump_out k (set_state k CORO_STATE_SUSPENDED s))) as [C1 C2].
    split; [by rewrite C2|]. destruct (I6 k Hat) as [Hk [co Hco]]. exists (co <| state := CORO_STATE_SUSPENDED |>). split; [|done].
    unfold slot. rewrite C1. change (slot (set_state k CORO_STATE_SUSPENDED s) k = Some (co <| state := CORO_STATE_SUSPENDED |>)).
    unfold set_state. rewrite Hco. by rewrite slot_set_eq by lia.
  - intros k co _ _ Hco Hst. unfold coro_resume_hart. destruct (negb _ || _); [done|]. rewrite Hco, bool_decide_false; [done|]. by rewrite Hst.
  - intros k co Hat Hab Hk Hco Hst Hca. unfold coro_resume_hart. pose proof (slot_range s k co Hk Hco) as Hr.
    destruct (initialized s) eqn:Hi; [|destruct (I3 eq_refl); lia]. destruct (Z.leb_spec (total_slots s) k); [lia|]. cbn [negb orb].
    rewrite Hco, bool_decide_true by done. cbn [negb]. unfold coro_check_stack. rewrite Hco, Hca, Hab. done.
Qed.

(** A scheduler with two harts: the first has yielded, the second runs. *)
Definition two_harts : coro_sys :=
  coro_resume_hart 1 (coro_yield (coro_resume_hart 0
    (snd (coro_create_hart 1 (Some 1) 1 true true true (snd (coro_create_hart 0 (Some 1) 0 true true true
      (snd (coro_init 2 2 true coro_zero)))))))).
Lemma two_harts_reach : coro_reach two_harts.
Proof.
  eapply cr_step; [|apply cs_resume; (reflexivity || lia)]. eapply cr_step; [|by apply (cs_yield _ 0)].
  eapply cr_step; [|apply cs_resume; (reflexivity || lia)]. eapply cr_step; [|apply cs_create; (reflexivity || lia)].
  eapply cr_step; [|apply cs_create; (reflexivity || lia)]. eapply cr_step; [|apply cs_init; (reflexivity || lia)]. constructor.
Qed.

Lemma coro_one_running_witness :
  at_co two_harts = Some 1 /\ coro_current_hart_id two_harts = 1 /\ at_co (coro_yield two_harts) = None.
Proof.
  destruct (coro_one_running two_harts two_harts_reach) as (_ & T1 & T2 & _).
  split; [reflexivity|]. split; [exact (T1 eq_refl)|]. exact (proj1 (T2 1 eq_refl)).
Defined.
End RuntimeProps.

Module SwitchWitness.
Import Switch SwitchProps.

Lemma mem_mk (f : x86 -> Z) m p : mem (mk_cpu f m p) = m.
Proof. reflexivity. Qed.

(** A caller with its context buffer at 0x1000 and its stack at 0x8000 switches to a
    context at 0x2000, and is switched back to from there. *)
Definition caller : cpu x86 :=
  mk_cpu (fun r => match r with RDI => 0x1000 | RSI => 0x2000 | RSP => 0x8000 | RBX => 11 | R12 => 12 | _ => 7 end)
    (fun a => if a =? 0x8000 then 0x401234 else if a =? 0x2008 then 0x9000 else 0) 0x400000.
Definition callee : cpu x86 :=
  mk_cpu (fun r => match r with RDI => 0x2000 | RSI => 0x1000 | RSP => 0x8ff8 | _ => 99 end) (mem (exec x86_switch caller)) 0x400000.

Lemma x86_switch_roundtrip_witness :
  exists code, code_from (pc (exec x86_switch callee) - 0x400000) x86_switch = Some code /\
    pc (exec code (exec x86_switch callee)) = 0x401234 /\ rf (exec code (exec x86_switch callee)) RBX = 11.
Proof.
  assert (Em : forall a, mem callee a = mem (exec x86_switch caller) a) by (intros a; unfold callee; by rewrite mem_mk).
  destruct (x86_switch_roundtrip caller callee) as (code & T1 & T2 & _ & T3); [vm_compute; reflexivity|vm_compute; reflexivity
    |intros o _; apply Em|vm_compute; reflexivity|vm_compute; left; congruence|vm_compute; right; congruence|].
  assert (E1 : pc caller = 0x400000) by (vm_compute; reflexivity). rewrite E1 in T1.
  assert (E2 : mem caller (rf caller RSP) = 0x401234) by (vm_compute; reflexivity). rewrite E2 in T2.
  assert (E3 : rf caller RBX = 11) by (vm_compute; reflexivity). specialize (T3 RBX). rewrite E3 in T3.
  exists code. split; [exact T1|]. split; [exact T2|]. apply T3. clear. by apply (bool_decide_unpack _); vm_compute.
Defined.

(** A new coroutine at 0x3000 with its context at 0x2000 and its stack at 0x100000. *)
Definition newborn : cpu x86 :=
  mk_cpu (fun r => match r with RDI => 0x1000 | RSI => 0x2000 | _ => 7 end)
    (x86_make_context 0x400100 0x400200 0x3000 0x2000 (usable_base 0x100000) usable_size (fun _ => 0)) 0x400000.
Lemma x86_first_entry_witness :
  pc (exec x86_wrap_main (exec x86_switch newborn)) = 0x400200 /\ rf (exec x86_wrap_main (exec x86_switch newborn)) RDI = 0x3000.
Proof.
  destruct (x86_first_entry 0x400100 0x400200 0x3000 0x2000 0x100000 (fun _ => 0) newborn) as (_ & T1 & T2 & _);
    [reflexivity|reflexivity|vm_compute; right; congruence|vm_compute; left; congruence|vm_compute; left; congruence|].
  split; [exact T1|exact T2].
Defined.
End SwitchWitness.
