(* ===== verification/Boot.v ===== *)
(** * Start-up, scheduling and shutdown (main.c)

    The options, the files mapped into guest memory, the initial state of the
    machine and of the coroutines, the SMP scheduler, signals and the operations
    of the debugger's target, for the build that has the block device and the
    entropy source. The files, memory and the terminal are the class [BootHost]. *)

From stdpp Require Import base gmap list.
From Stdlib Require Import ZArith Lia Bool.
From S2P Require Import Prelude Isa Hart Machine Loops Device Timer Virtio VirtioBlk Platform Emulator Coro.
Open Scope Z_scope.
Import Coro.Runtime.

(** ** Options *)

(** [strtol(s, &end, 10)]: the value, what is left at [end], and whether [errno] is
    set. Without digits [end] is the start. *)
Definition is_space (c : Z) : bool := (c =? 32) || ((9 <=? c) && (c <=? 13)).
Definition is_digit (c : Z) : bool := (48 <=? c) && (c <=? 57).
Fixpoint skip_spaces (s : list Z) : list Z :=
  match s with c :: s' => if is_space c then skip_spaces s' else s | [] => [] end.
Fixpoint digits (acc : Z) (s : list Z) : Z * list Z :=
  match s with
  | c :: s' => if is_digit c then digits (10 * acc + (c - 48)) s' else (acc, s)
  | [] => (acc, [])
  end.
Definition LONG_MAX := 2 ^ 63 - 1.
Definition LONG_MIN := - 2 ^ 63.
Definition strtol (s : list Z) : Z * list Z * bool :=
  let body := skip_spaces s in
  let '(neg, ds) := match body with
                    | c :: rest => if c =? 45 then (true, rest) else if c =? 43 then (false, rest) else (false, body)
                    | [] => (false, body)
                    end in
  match ds with
  | c :: _ =>
    if is_digit c then
      let '(v, rest) := digits 0 ds in
      let v := if neg : bool then - v else v in
      if LONG_MAX <? v then (LONG_MAX, rest, true) else if v <? LONG_MIN then (LONG_MIN, rest, true) else (v, rest, false)
    else (0, s, false)
  | [] => (0, s, false)
  end.

(** An option as [getopt_long] returns it: the letter and [optarg]. *)
(* [main.c:738-752] handle_options *)
Record options := mk_opts {
  kernel_file : option (list Z); dtb_file : option (list Z); initrd_file : option (list Z); disk_file : option (list Z);
  net_dev : option (list Z); shared_dir : option (list Z); hart_count : Z; debug : bool; headless : bool }.
#[export] Instance eta_opts : Eta options := fun r =>
  mk_opts (kernel_file r) (dtb_file r) (initrd_file r) (disk_file r) (net_dev r) (shared_dir r) (hart_count r) (debug r) (headless r).
#[export] Instance set_kernel_file : Setter kernel_file := ltac:(solve_setter).
#[export] Instance set_dtb_file : Setter dtb_file := ltac:(solve_setter).
#[export] Instance set_initrd_file : Setter initrd_file := ltac:(solve_setter).
#[export] Instance set_disk_file : Setter disk_file := ltac:(solve_setter).
#[export] Instance set_net_dev : Setter net_dev := ltac:(solve_setter).
#[export] Instance set_shared_dir : Setter shared_dir := ltac:(solve_setter).
#[export] Instance set_hart_count : Setter hart_count := ltac:(solve_setter).
#[export] Instance set_debug : Setter debug := ltac:(solve_setter).
#[export] Instance set_headless : Setter headless := ltac:(solve_setter).

(* [main.c:780-798] handle_options *)
Definition parse_hart_count (optarg : list Z) : option Z :=
  let '(n, end_, err) := strtol optarg in
  if err || negb (bool_decide (end_ = [])) || bool_decide (end_ = optarg) || (n <? 1) || (32 <? n) then None else Some n.

(** One option: [inl] is the exit code of the process. *)
(* [main.c:763-814] handle_options *)
Definition handle_option (c : Z) (optarg : list Z) (o : options) : Z + options :=
  if c =? 107 (* k *) then inr (o <| kernel_file := Some optarg |>)
  else if c =? 98 (* b *) then inr (o <| dtb_file := Some optarg |>)
  else if c =? 105 (* i *) then inr (o <| initrd_file := Some optarg |>)
  else if c =? 100 (* d *) then inr (o <| disk_file := Some optarg |>)
  else if c =? 110 (* n *) then inr (o <| net_dev := Some optarg |>)
  else if c =? 99 (* c *) then
    match parse_hart_count optarg with None => inl 2 | Some n => inr (o <| hart_count := n |>) end
  else if c =? 115 (* s *) then inr (o <| shared_dir := Some optarg |>)
  else if c =? 103 (* g *) then inr (o <| debug := true |>)
  else if c =? 72 (* H *) then inr (o <| headless := true |>)
  else if c =? 104 (* h *) then inl 0
  else inr o.
Fixpoint fold_options (args : list (Z * list Z)) (o : options) : Z + options :=
  match args with
  | [] => inr o
  | (c, optarg) :: args => match handle_option c optarg o with inl code => inl code | inr o => fold_options args o end
  end.

(** "minimal.dtb" *)
Definition default_dtb : list Z := [109; 105; 110; 105; 109; 97; 108; 46; 100; 116; 98].

(* [main.c:738-826] handle_options *)
Definition handle_options (args : list (Z * list Z)) : Z + options :=
  match fold_options args (mk_opts None None None None None None 1 false false) with
  | inl code => inl code
  | inr o =>
    match kernel_file o with
    | None => inl 2
    | Some _ => inr (match dtb_file o with Some _ => o | None => o <| dtb_file := Some default_dtb |> end)
    end
  end.

(** ** Start-up *)

(** The bytes of a file that can be opened and mapped; memory for RAM and where it
    is; the allocations. *)
Class BootHost (E : Type) := {
  file_bytes : list Z -> E -> option (list Z) * E;
  mmap_ram : E -> option Z * E;
  boot_malloc : E -> bool * E }.

Section Boot.
Context {E : Type} `{HostE : Host E} `{BootE : BootHost E}.
Abbreviation M := (machine (emu_state_t E)).
Implicit Types s : M.

Definition boot_call {A} (f : E -> A * E) s : A * M :=
  let '(a, e) := f (host (dev s)) in (a, on_dev (fun d => d <| host := e |>) s).

(** A file mapped over guest memory at [ram_loc]: whole pages, zero after the end of
    the file. An empty file cannot be mapped. [None]: the process exits. *)
(* [main.c:697-728] map_file *)
Definition map_file (ram_loc : Z) (name : list Z) s : option M :=
  match boot_call (file_bytes name) s with
  | (None, _) => None
  | (Some bytes, s) =>
    let size := Z.of_nat (length bytes) in
    if size =? 0 then None
    else Some (g_memset0 (ram_loc + size) (map_length size - size) (dma_write ram_loc bytes s))
  end.

(* [main.c:935-935] semu_init *)
Definition dtb_addr : Z := RAM_SIZE - DTB_SIZE.
(* [main.c:942-942] semu_init *)
Definition initrd_addr : Z := dtb_addr - INITRD_SIZE.

(** The images: the kernel at the base, the device tree and the optional initrd. *)
(* [main.c:931-945] semu_init *)
Definition load_images (kernel dtb : list Z) (initrd : option (list Z)) s : option M :=
  match map_file 0 kernel s with
  | None => None
  | Some s =>
    match map_file dtb_addr dtb s with
    | None => None
    | Some s => match initrd with None => Some s | Some name => map_file initrd_addr name s end
    end
  end.

(** The harts; [None] when one cannot be allocated. *)
(* [main.c:949-976] semu_init *)
Fixpoint new_harts (n : nat) (i : Z) s : option (list hart_t) * M :=
  match n with
  | O => (Some [], s)
  | S n =>
    let '(ok, s) := boot_call boot_malloc s in
    if negb ok then (None, s)
    else let '(hs, s) := new_harts n (i + 1) s in ((fun hs => new_hart i :: hs) <$> hs, s)
  end.

(** The block device's image; without a file the device is empty. *)
Definition boot_disk (disk : option (list Z)) s : option (virtio_blk_state_t * M) :=
  match disk with
  | None => Some (virtio_blk_init ∅ 0, s)
  | Some name =>
    match boot_call (file_bytes name) s with
    | (None, _) | (Some [], _) => None
    | (Some bytes, s) => Some (virtio_blk_init (list_to_map (imap (fun i b => (Z.of_nat i, b)) bytes)) (Z.of_nat (length bytes)), s)
    end
  end.

(** The coroutines of the harts. *)
(* [main.c:1093-1110] semu_init *)
Fixpoint create_harts (n : nat) (i : Z) (allocs : Z -> bool * bool * bool) (c : coro_sys) : bool * coro_sys :=
  match n with
  | O => (true, c)
  | S n =>
    let '(ok1, ok2, ok3) := allocs i in
    let '(ok, c) := coro_create_hart i (Some 1) i ok1 ok2 ok3 c in
    if negb ok then (false, coro_cleanup c) else create_harts n (i + 1) allocs c
  end.

(** [slots]: one for each hart, and one more with a network device. *)
(* [main.c:1072-1109] semu_init *)
Definition boot_coroutines (slots n_hart : Z) (table : bool) (allocs : Z -> bool * bool * bool) : option coro_sys :=
  if 1 <? n_hart then
    let '(ok, c) := coro_init slots n_hart table coro_zero in
    if negb ok then None
    else
      let '(ok, c) := create_harts (Z.to_nat n_hart) 0 allocs c in
      if negb ok then None else Some c
  else Some coro_zero.

(** The timers and software interrupts. *)
(* [main.c:1004-1011] semu_init *)
Definition boot_aclint (n_hart : Z) s : M :=
  let '(mtime, s) := semu_timer_init CLOCK_FREQ n_hart s in
  let zeros := replicate (Z.to_nat n_hart) 0 in
  on_dev (fun d => d <| mtimer := mk_mtimer zeros n_hart mtime |> <| mswi := mk_mswi zeros n_hart |>
                     <| sswi := mk_sswi zeros n_hart |>) s.

(** The emulator's state as [memset] leaves it. *)
Definition zero_emu (e : E) (t : timer_static) : emu_state_t E :=
  mk_emu false 0 (mk_plic 0 0 (replicate 32 0) 0) (mk_uart 0 0 0 0 0 0 0 false (replicate 128 0) 0 0 false)
    (virtio_blk_init ∅ 0) (zero_virtio 1) (mk_mtimer [] 0 (mk_timer 0 0)) (mk_mswi [] 0) (mk_sswi [] 0) 0 0 false t e.

(** The harts in place, hart 0 running, and the UART's initial state. *)
(* [main.c:975-981] semu_init *)
Definition boot_harts (hs : list hart_t) s : M :=
  on_dev (fun d => d <| uart := (uart d) <| waiting_hart_id := 0xFFFFFFFF |> <| has_waiting_hart := false |> |>)
    (s <| peers := hs |> <| hart := arr_get zero_hart hs 0 |>).

(** What [main] works with: the machine, the coroutines, and the flags it parses. *)
Record booted := mk_booted { b_machine : M; b_coro : coro_sys; b_debug : bool }.

(** Up to the coroutines: the machine and the options. [t] and [junk] are the static
    variables and the stack. *)
(* [main.c:861-1070] semu_init *)
Definition boot_machine (args : list (Z * list Z)) (t : timer_static) (junk : Z) (e : E) : Z + M * options :=
  match handle_options args with
  | inl code => inl code
  | inr o =>
    let '(p, e) := mmap_ram e in
    match p with
    | None => inl 2
    | Some ptr =>
      let s := mk_machine zero_hart [] ∅ ptr false false junk (zero_emu e t) in
      match load_images (default [] (kernel_file o)) (default [] (dtb_file o)) (initrd_file o) s with
      | None => inl 2
      | Some s =>
        let n_hart := hart_count o in
        let '(ok, s) := boot_call boot_malloc s in
        if negb ok then inl 1
        else
          let '(hs, s) := new_harts (Z.to_nat n_hart) 0 s in
          match hs with
          | None => inl 1
          | Some hs =>
            let s := boot_harts hs s in
            match boot_disk (disk_file o) s with
            | None => inl 2
            | Some (blk, s) =>
              let s := on_dev (fun d => d <| vblk := blk |>) s in
              let s := boot_aclint n_hart s in
              inr (on_dev (fun d => d <| peripheral_update_ctr := 0 |>) s, o)
            end
          end
      end
    end
  end.

(** Start-up with the options given. [table] and [allocs] answer the allocations of the
    coroutines. *)
(* [main.c:861-1112] semu_init *)
Definition semu_init (args : list (Z * list Z)) (table : bool) (allocs : Z -> bool * bool * bool) (t : timer_static) (junk : Z)
    (e : E) : Z + booted :=
  match boot_machine args t junk e with
  | inl code => inl code
  | inr (s, o) =>
    match boot_coroutines (hart_count o) (hart_count o) table allocs with
    | None => inl 1
    | Some c => inr (mk_booted s c (debug o))
    end
  end.

(** ** The SMP scheduler *)

(** [slice i] runs the coroutine of hart [i] from where it yielded to its next
    [coro_yield], with [true] when [hart_exec_loop] returns instead; [poll_wait] waits
    for the descriptors of the plan. *)
Section Smp.
Context (slice : Z -> M -> bool * M) (poll_wait : poll_plan -> E -> E).

(** [coro_resume_hart(i)], from the call to its return. *)
Definition resume_one (i : Z) (sc : M * coro_sys) : M * coro_sys :=
  let '(s, c) := sc in
  let c := coro_resume_hart i c in
  if bool_decide (at_co c = Some i) then
    let '(returns, s) := slice i s in (s, if returns : bool then coro_finish i c else coro_yield c)
  else (s, c).

(* [main.c:1680-1694] semu_run *)
Fixpoint resume_all (n : nat) (i : Z) (sc : M * coro_sys) : M * coro_sys :=
  match n with O => sc | S n => resume_all n (i + 1) (resume_one i sc) end.

(* [main.c:1700-1726] semu_run *)
Definition smp_exit (s : M) (c : coro_sys) : M * coro_sys :=
  (on_dev (fun d => d <| exit_code := if stopped d then 1 else 0 |>) s, coro_cleanup c).

(** At most [rounds] rounds; [signals] answers the test of [signal_received]. *)
(* [main.c:1485-1699] semu_run *)
Fixpoint semu_run_smp (rounds : nat) (signals : nat -> bool) (s : M) (c : coro_sys) : option (M * coro_sys) :=
  match rounds with
  | O => None
  | S rounds =>
    if stopped (dev s) || signals rounds then
      Some (smp_exit s c)
    else
      let plan := smp_poll_plan (peers s) (dev s) in
      let s := on_dev (fun d => d <| host := poll_wait plan (host d) |>) s in
      let '(s, c) := resume_all (length (peers s)) 0 (s, c) in
      semu_run_smp rounds signals s c
  end.

(** [timer_ok]: the timer descriptor could be set up. *)
(* [main.c:1401-1484] semu_run *)
Definition semu_run `{CoroE : Coro E} (fuel rounds : nat) (signals : nat -> bool) (timer_ok : bool) (s : M) (c : coro_sys) : option (M * coro_sys) :=
  if 1 <? Z.of_nat (length (peers s)) then
    if negb timer_ok then Some (on_dev (fun d => d <| exit_code := -1 |>) s, c) else semu_run_smp rounds signals s c
  else (fun s => (s, c)) <$> semu_run_single fuel rounds signals s.
End Smp.

(** ** The debugger's target *)

Section Gdb.
Context `{CoroE : Coro E}.

(** Runs until an interrupt from the debugger or a signal. *)
(* [main.c:1812-1843] semu_cont *)
Fixpoint semu_cont (fuel rounds : nat) (interrupts signals : nat -> bool) s : option M :=
  match rounds with
  | O => None
  | S rounds =>
    if interrupts rounds || signals rounds then Some s
    else match semu_step fuel s with None => None | Some (_, s) => semu_cont fuel rounds interrupts signals s end
  end.

(* [main.c:1845-1850] semu_stepi *)
Definition semu_stepi (fuel : nat) s : option M := snd <$> semu_step fuel s.

(* [main.c:1859-1863] semu_get_cpu *)
Definition semu_get_cpu s : Z := curr_cpuid (dev s).

(* [main.c:1865-1869] semu_set_cpu *)
Definition semu_set_cpu (cpuid : Z) s : M := on_dev (fun d => d <| curr_cpuid := cpuid |>) s.

(** The session is run by the debugger library: [session] is [gdbstub_run], [None]
    when [gdbstub_init] fails. *)
(* [main.c:1871-1910] semu_run_debug *)
Definition semu_run_debug (session : option (M -> bool * M)) s : M :=
  let s := on_dev (fun d => d <| curr_cpuid := 0 |>) s in
  match session with
  | None => on_dev (fun d => d <| exit_code := 1 |>) s
  | Some run => let '(ok, s) := run s in on_dev (fun d => d <| exit_code := if ok : bool then 0 else 1 |>) s
  end.

(** The exit code of the process; [None] when it is still running. *)
(* [main.c:1933-2011] main *)
Definition main slice poll_wait (fuel rounds : nat) (signals : nat -> bool) (timer_ok : bool) session
    (args : list (Z * list Z)) table allocs t junk (e : E) : option Z :=
  match semu_init args table allocs t junk e with
  | inl code => Some code
  | inr b =>
    if b_debug b then Some (exit_code (dev (semu_run_debug session (b_machine b))))
    else (fun sc => exit_code (dev (fst sc))) <$> semu_run slice poll_wait fuel rounds signals timer_ok (b_machine b) (b_coro b)
  end.
End Gdb.
End Boot.
