(* ===== verification/BootProps.v ===== *)
(** * Start-up and scheduling: theorems

    The images are where the guest expects them, the machine starts in a state that
    satisfies what the other theorems assume, and the SMP scheduler resumes every
    hart once per round. *)

From stdpp Require Import base gmap list.
From Stdlib Require Import ZArith Lia Bool.
From S2P Require Import Prelude Isa Hart Machine Mmu RamProps Tlb TlbStore Loops Device Timer Plic Virtio VirtioBlk DmaProps.
From S2P Require Import VirtioProps Platform Emulator Coro CoroProps Boot.
Open Scope Z_scope.
Import Coro.Runtime CoroProps.RuntimeProps.

(** ** Options *)

Lemma parse_hart_count_range optarg n : parse_hart_count optarg = Some n -> 1 <= n <= 32.
Proof.
  unfold parse_hart_count. destruct (strtol optarg) as [[v e] err].
  destruct (err || negb (bool_decide (e = [])) || bool_decide (e = optarg) || (v <? 1) || (32 <? v)) eqn:C; [done|].
  rewrite !orb_false_iff in C. intros [= <-]. lia.
Qed.
Lemma handle_option_range c optarg o o' : 1 <= hart_count o <= 32 -> handle_option c optarg o = inr o' -> 1 <= hart_count o' <= 32.
Proof.
  intros H. unfold handle_option. repeat case_match; intros [= <-]; cbn; try done. by eapply parse_hart_count_range.
Qed.
Lemma handle_options_range args o : handle_options args = inr o -> 1 <= hart_count o <= 32.
Proof.
  assert (F : forall args o o', 1 <= hart_count o <= 32 -> fold_options args o = inr o' -> 1 <= hart_count o' <= 32).
  { clear. induction args as [|[c a] args IH]; intros o o' H; [by intros [= <-]|]. cbn [fold_options].
    destruct (handle_option c a o) as [|o1] eqn:E0; [done|]. apply IH. by eapply handle_option_range. }
  unfold handle_options. destruct (fold_options args _) as [|o1] eqn:E0; [done|]. apply F in E0; [|cbn; lia].
  destruct (kernel_file o1); [|done]. intros [= <-]. by destruct (dtb_file o1).
Qed.

(** ** Images *)

(** [host_ok] of an address of RAM is what [mmap] guarantees; files hold bytes. *)
Class BootLaws (E : Type) `{BootHost E} := {
  mmap_ok : forall e p, fst (mmap_ram e) = Some p -> RamProps.host_ok p;
  files_ok : forall name e bytes, fst (file_bytes name e) = Some bytes -> Forall is_byte bytes }.

(** ** The initial state *)

(** Every hart starts with empty translation caches. *)
Definition flush_pages (h : hart_t) : hart_t :=
  h <| ram_load_last_page := 0xFFFFFFFF |> <| ram_store_last_page := 0xFFFFFFFF |>.
Lemma flush_pages_tlb h : same_tlb h (flush_pages h).
Proof. unfold same_tlb. split_and!; reflexivity. Qed.
Lemma vm_init_eq h : vm_init h = flush_pages (mmu_invalidate h).
Proof. reflexivity. Qed.

Lemma vm_init_empty h : tlb_empty (vm_init h).
Proof.
  rewrite vm_init_eq. generalize (mmu_invalidate_empty h). generalize (mmu_invalidate h).
  intros h'. apply tlb_empty_same, flush_pages_tlb.
Qed.

Lemma new_hart_empty i : tlb_empty (new_hart i).
Proof.
  unfold new_hart, INIT_HART. cbv zeta.
  match goal with |- context [vm_init ?a] => generalize (vm_init_empty a); generalize (vm_init a) end.
  intros h. apply tlb_empty_same. unfold same_tlb. destruct (i =? 0); split_and!; reflexivity.
Qed.

Section Boot.
Context {E : Type} `{HostE : Host E} `{BootE : BootHost E} `{Laws : !BootLaws E}.
Abbreviation M := (machine (emu_state_t E)).
Implicit Types s : M.

Lemma boot_call_spec {A} (f : E -> A * E) s :
  boot_call f s = (fst (f (host (dev s))), on_dev (fun d => d <| host := snd (f (host (dev s))) |>) s).
Proof. unfold boot_call. by destruct (f (host (dev s))). Qed.

(** What start-up changes before the devices: memory and the host. *)
Record boots (s s' : M) : Prop := {
  bs_dev : dev s' = (dev s) <| host := host (dev s') |>;
  bs_ptr : ram_ptr s' = ram_ptr s;
  bs_ram : ram_ok (ram s) -> ram_ok (ram s') }.
Lemma boots_trans s1 s2 s3 : boots s1 s2 -> boots s2 s3 -> boots s1 s3.
Proof. intros [D1 P1 R1] [D2 P2 R2]. constructor; [|congruence|auto]. rewrite D2, D1. done. Qed.

Lemma map_length_ge n : 0 < n -> n <= map_length n < n + 4096.
Proof. intros H. unfold map_length. pose proof (Z.div_mod (n + 4095) 4096). pose proof (Z.mod_pos_bound (n + 4095) 4096). lia. Qed.

Lemma ram_ptr_dma bytes : forall o s, ram_ptr (dma_write o bytes s) = ram_ptr s.
Proof. induction bytes as [|b bytes IH]; intros o s; [done|]. cbn [dma_write]. rewrite IH. unfold wr8, touch. cbn. by case_match. Qed.

(** A mapped file: its bytes at its place, nothing else changed. *)
Lemma map_file_spec loc name s s' : map_file loc name s = Some s' -> ram_ok (ram s) ->
  exists bytes, fst (file_bytes name (host (dev s))) = Some bytes /\ bytes <> [] /\ boots s s' /\
    let n := Z.of_nat (length bytes) in
    fst (dma_read loc (length bytes) s') = bytes /\
    (forall a, ~ (loc <= a < loc + map_length n) -> rd8 s' a = rd8 s a) /\
    (0 <= loc -> loc + map_length n <= RAM_SIZE -> ram_oob s' = ram_oob s).
Proof.
  unfold map_file. rewrite boot_call_spec. set (s0 := on_dev _ s). intros H R. assert (R0 : ram_ok (ram s0)) by exact R.
  destruct (fst (file_bytes name (host (dev s)))) as [bytes|] eqn:F; [|done]. cbv beta iota zeta in H.
  destruct (Z.eqb_spec (Z.of_nat (length bytes)) 0) as [|Hn]; [done|]. injection H as <-.
  pose proof (files_ok name _ bytes F) as B. set (n := Z.of_nat (length bytes)) in *. assert (Hn0 : 0 < n) by lia.
  pose proof (map_length_ge n Hn0) as ML. set (s1 := dma_write loc bytes s0).
  set (RR := fun a => loc <= a < loc + map_length n).
  assert (G1 : region_step RR s0 s1) by (apply region_dma; [done|]; unfold RR; fold n; intros; lia).
  assert (G2 : region_step RR s1 (g_memset0 (loc + n) (map_length n - n) s1)) by (apply region_memset; [lia|]; unfold RR; intros; lia).
  assert (G2' : region_step (fun a => loc + n <= a) s1 (g_memset0 (loc + n) (map_length n - n) s1)) by (apply region_memset; [lia|]; intros; lia).
  pose proof (region_trans RR s0 s1 _ G1 G2) as G. assert (R1 : ram_ok (ram s1)) by apply (ms_ram _ _ _ (rs_mem _ _ _ G1)), R0.
  exists bytes. split_and!; [done|by intros ->| | | |].
  - constructor; [|unfold g_memset0, s1; by rewrite !ram_ptr_dma|intros _; by apply (ms_ram _ _ _ (rs_mem _ _ _ G))].
    rewrite (ms_dev _ _ _ (rs_mem _ _ _ G)). unfold s0. done.
  - rewrite <- (dma_read_write_same loc bytes s0 R0 B) at 2. fold s1. unfold dma_read. cbn [fst]. apply list_fmap_ext.
    intros i k Hk. apply lookup_seq in Hk as [-> Hk]. apply (rs_frame _ _ _ G2'); [done|]. unfold n. cbn. lia.
  - intros a Ha. rewrite (rs_frame _ _ _ G R0 a Ha). done.
  - intros H1 H2. apply (ms_oob _ _ _ (rs_mem _ _ _ G)). unfold RR. fold n in H2. intros a Ha. lia.
Qed.

(** [bytes] is what the host gave for the file [name]. *)
Definition is_file (name bytes : list Z) : Prop := exists e, fst (file_bytes name e) = Some bytes.
Definition image_at (loc : Z) (bytes : list Z) s : Prop := fst (dma_read loc (length bytes) s) = bytes.
Definition pages (bytes : list Z) : Z := map_length (Z.of_nat (length bytes)).

Lemma image_frame loc bytes s s' : image_at loc bytes s ->
  (forall k, 0 <= k < Z.of_nat (length bytes) -> rd8 s' (loc + k) = rd8 s (loc + k)) -> image_at loc bytes s'.
Proof.
  unfold image_at, dma_read. cbn [fst]. intros <- H. rewrite length_fmap, length_seq. apply list_fmap_ext.
  intros i k Hk. apply lookup_seq in Hk as [-> Hk]. apply H. rewrite length_fmap, length_seq. cbn. lia.
Qed.

Lemma load_images_spec kernel dtb initrd s s' : load_images kernel dtb initrd s = Some s' -> ram_ok (ram s) ->
  boots s s' /\ exists kb db, is_file kernel kb /\ is_file dtb db /\
  match initrd with
  | None => pages kb <= dtb_addr -> pages db <= DTB_SIZE ->
      image_at 0 kb s' /\ image_at dtb_addr db s' /\ ram_oob s' = ram_oob s
  | Some name => exists ib, is_file name ib /\
      (pages kb <= initrd_addr -> pages db <= DTB_SIZE -> pages ib <= INITRD_SIZE ->
       image_at 0 kb s' /\ image_at dtb_addr db s' /\ image_at initrd_addr ib s' /\ ram_oob s' = ram_oob s)
  end.
Proof.
  unfold load_images. intros H R. destruct (map_file 0 kernel s) as [s1|] eqn:E1; [|done].
  destruct (map_file_spec 0 kernel s s1 E1 R) as (kb & F1 & N1 & B1 & T1 & K1 & O1). pose proof (bs_ram _ _ B1 R) as R1.
  destruct (map_file dtb_addr dtb s1) as [s2|] eqn:E2; [|done].
  destruct (map_file_spec dtb_addr dtb s1 s2 E2 R1) as (db & F2 & N2 & B2 & T2 & K2 & O2). pose proof (bs_ram _ _ B2 R1) as R2.
  assert (Hk : 0 < Z.of_nat (length kb)) by (destruct kb; [done|cbn; lia]). assert (Hd : 0 < Z.of_nat (length db)) by (destruct db; [done|cbn; lia]).
  pose proof (map_length_ge _ Hk) as MK. pose proof (map_length_ge _ Hd) as MD. fold (pages kb) in *. fold (pages db) in *.
  assert (AD : dtb_addr = 535822336) by reflexivity. assert (AI : initrd_addr = 527433728) by reflexivity.
  assert (AS : DTB_SIZE = 1048576) by reflexivity. assert (AR : RAM_SIZE = 536870912) by reflexivity.
  assert (AX : INITRD_SIZE = 8388608) by reflexivity.
  assert (D2 : pages kb <= dtb_addr -> image_at 0 kb s2).
  { intros H1. apply (image_frame 0 kb s1); [exact T1|]. intros k Hk'. apply K2. lia. }
  assert (BB : boots s s2) by by eapply boots_trans.
  destruct initrd as [name|].
  - destruct (map_file_spec initrd_addr name s2 s' H R2) as (ib & F3 & N3 & B3 & T3 & K3 & O3).
    assert (Hi : 0 < Z.of_nat (length ib)) by (destruct ib; [done|cbn; lia]). pose proof (map_length_ge _ Hi) as MI. fold (pages ib) in *.
    split; [by eapply boots_trans|]. exists kb, db. split; [by eexists|]. split; [by eexists|]. exists ib. split; [by eexists|].
    intros H1 H2 H3. split_and!.
    + apply (image_frame 0 kb s2); [apply D2; lia|]. intros k Hk'. apply K3. lia.
    + apply (image_frame dtb_addr db s2); [exact T2|]. intros k Hk'. apply K3. lia.
    + exact T3.
    + rewrite O3, O2, O1 by lia. done.
  - injection H as <-. split; [done|]. exists kb, db. split; [by eexists|]. split; [by eexists|].
    intros H1 H2. split_and!; [by apply D2|exact T2|]. rewrite O2, O1 by lia. done.
Qed.

(** ** Harts and coroutines *)

Lemma new_harts_spec n : forall i s hs s', new_harts n i s = (Some hs, s') ->
  s' = on_dev (fun d => d <| host := host (dev s') |>) s /\ hs = (fun k => new_hart (i + Z.of_nat k)) <$> seq 0 n.
Proof.
  induction n as [|n IH]; intros i s hs s'; cbn [new_harts]; [intros [= <- <-]; split; [by destruct s as [? ? ? ? ? ? ? []]|done]|].
  rewrite boot_call_spec. cbv beta iota. case_match; [done|]. set (s0 := on_dev _ s).
  destruct (new_harts n (i + 1) s0) as [[hs0|] s1] eqn:E0; [|done]. intros [= <- <-]. apply IH in E0 as [E1 ->].
  split; [rewrite E1; by destruct s as [? ? ? ? ? ? ? []]|]. cbn [seq fmap list_fmap]. rewrite Z.add_0_r. f_equal.
  rewrite <- (fmap_S_seq 0 n), <- list_fmap_compose. apply list_fmap_ext. intros k x Hx. unfold compose. f_equal. lia.
Qed.

(** The coroutines of the first [i] harts exist and wait. *)
Definition created (i : Z) (c : coro_sys) : Prop :=
  coro_reach c /\ at_co c = None /\ aborted c = false /\ initialized c = true /\
  (forall k, 0 <= k < i -> exists co, slot c k = Some co /\ state co = CORO_STATE_SUSPENDED /\ canary co = true) /\
  (forall k, i <= k -> slot c k = None).

Lemma create_harts_spec n : forall i allocs c c', 0 <= i -> i + Z.of_nat n <= total_slots c -> created i c ->
  create_harts n i allocs c = (true, c') -> created (i + Z.of_nat n) c' /\ total_slots c' = total_slots c /\ hart_slots c' = hart_slots c.
Proof.
  induction n as [|n IH]; intros i allocs c c' Hi Ht C; [intros [= <-]; by rewrite Z.add_0_r|]. cbn [create_harts].
  destruct (allocs i) as [[ok1 ok2] ok3]. destruct C as (R & A & B & I & S1 & S2).
  pose proof (cs_create c i (Some 1) i ok1 ok2 ok3 A B Hi) as St. pose proof (ci_len c (coro_reach_inv c R)) as L.
  unfold coro_create_hart in *. rewrite I in *. cbn [negb] in *. destruct (Z.leb_spec (total_slots c) i); [lia|].
  rewrite (S2 i) in * by lia. destruct (ok1 && ok2 && ok3); cbn [negb snd] in *; [|done].
  set (co := mk_co i 1 i CORO_STATE_SUSPENDED true) in *. set (c1 := set_slot i (Some co) c) in *. intros H'.
  replace (i + Z.of_nat (S n)) with (i + 1 + Z.of_nat n) by lia.
  change (total_slots c) with (total_slots c1) in Ht |- *. change (hart_slots c) with (hart_slots c1).
  apply (IH (i + 1) allocs c1 c'); [lia|lia| |exact H'].
  split_and!; [by eapply cr_step|done|done|done| |].
  - intros k Hk. destruct (decide (k = i)) as [->|Hne]; [exists co; unfold c1; by rewrite slot_set_eq by lia|].
    unfold c1. rewrite slot_set_ne by lia. apply S1. lia.
  - intros k Hk. unfold c1. rewrite slot_set_ne by lia. apply S2. lia.
Qed.

Lemma boot_coroutines_spec slots n table allocs c : 1 <= n <= slots -> boot_coroutines slots n table allocs = Some c ->
  if 1 <? n then created n c /\ total_slots c = slots /\ hart_slots c = n else c = coro_zero.
Proof.
  intros Hn. unfold boot_coroutines. destruct (Z.ltb_spec 1 n); [|by intros [= <-]].
  destruct (coro_init slots n table coro_zero) as [ok c1] eqn:E1. destruct ok; [|done]. cbn [negb].
  destruct (create_harts (Z.to_nat n) 0 allocs c1) as [[] c2] eqn:E2; [|done]. intros [= <-].
  pose proof (cs_init coro_zero slots n table eq_refl eq_refl ltac:(lia) ltac:(lia)) as St. rewrite E1 in St. cbn [snd] in St.
  assert (Ec : c1 = snd (coro_init slots n table coro_zero)) by by rewrite E1.
  unfold coro_init in Ec, E1. cbn [initialized coro_zero] in Ec, E1. destruct (_ || _) eqn:C in E1; [done|].
  destruct table; [|done]. rewrite C in Ec. cbn [negb snd] in Ec.
  assert (Hc : created 0 c1).
  { split_and!; [eapply cr_step; [constructor|exact St]|by rewrite Ec|by rewrite Ec|by rewrite Ec|intros; lia|].
    intros k Hk. rewrite Ec. unfold slot. cbn. apply arr_get_replicate. }
  assert (T1 : total_slots c1 = slots) by by rewrite Ec. assert (T2 : hart_slots c1 = n) by by rewrite Ec.
  destruct (create_harts_spec (Z.to_nat n) 0 allocs c1 c2 ltac:(lia) ltac:(lia) Hc E2) as (G1 & G2 & G3).
  rewrite Z2Nat.id in G1 by lia. rewrite G2, G3. done.
Qed.

(** ** The machine *)

Lemma hart_at_boot n i : (0 < n)%nat -> arr_get zero_hart ((fun k => new_hart (i + Z.of_nat k)) <$> seq 0 n) 0 = new_hart i.
Proof. destruct n as [|n]; [lia|]. intros _. cbn. by rewrite Z.add_0_r. Qed.

Lemma new_hart_coherent (s : M) : ram_ok (ram s) -> RamProps.host_ok (ram_ptr s) -> hart s = new_hart 0 -> coherent s.
Proof.
  intros R H Hh. split; rewrite ?Hh.
  - split; [exact R|]. rewrite Hh. intros pt Hpt. assert (N : page_table (new_hart 0) = None) by (vm_compute; reflexivity). congruence.
  - exact H.
  - split; [reflexivity|]. split; [reflexivity|]. split; left; reflexivity.
  - exact (tlb_empty_ok _ _ _ _ (new_hart_empty 0)).
Qed.

Lemma plic0_u32 : plic_u32 plic0.
Proof. unfold plic_u32, is_u32. cbn. split_and!; try lia. repeat (constructor; [lia|]). constructor. Qed.

(** The state that start-up leaves, over the memory [s1] with the images. *)
Lemma boot_machine_inv args t junk e s o : boot_machine args t junk e = inr (s, o) ->
  exists ptr e1 s1 disk size mtime tst e2, let n := Z.to_nat (hart_count o) in
  handle_options args = inr o /\ fst (mmap_ram e) = Some ptr /\
  load_images (default [] (kernel_file o)) (default [] (dtb_file o)) (initrd_file o)
    (mk_machine zero_hart [] ∅ ptr false false junk (zero_emu e1 t)) = Some s1 /\
  let hs := (fun k => new_hart (0 + Z.of_nat k)) <$> seq 0 n in
  s = mk_machine (arr_get zero_hart hs 0) hs (ram s1) (ram_ptr s1) (ram_oob s1) (boot_complete s1) (stack_junk s1)
    ((dev s1) <| uart := (uart (dev s1)) <| waiting_hart_id := 0xFFFFFFFF |> <| has_waiting_hart := false |> |>
       <| vblk := virtio_blk_init disk size |> <| mtimer := mk_mtimer (replicate n 0) (hart_count o) mtime |> <| mswi := mk_mswi (replicate n 0) (hart_count o) |>
       <| sswi := mk_sswi (replicate n 0) (hart_count o) |> <| peripheral_update_ctr := 0 |> <| tstatic := tst |> <| host := e2 |>).
Proof.
  unfold boot_machine, boot_harts. intros H. destruct (handle_options args) as [|o'] eqn:Ho; [done|].
  destruct (mmap_ram e) as [[ptr|] e1] eqn:Hp; [|done]. set (s0 := mk_machine zero_hart [] ∅ ptr false false junk (zero_emu e1 t)) in *.
  destruct (load_images (default [] (kernel_file o')) (default [] (dtb_file o')) (initrd_file o') s0) as [s1|] eqn:El; [|done].
  rewrite boot_call_spec in H. cbv beta iota in H. destruct (negb (fst (boot_malloc _))); [done|].
  destruct (new_harts (Z.to_nat (hart_count o')) 0 _) as [[hs|] s2] eqn:En; [|done]. apply new_harts_spec in En as [E2 Eh].
  destruct (boot_disk (disk_file o') _) as [[blk s4]|] eqn:Eb; [|done]. set (s3 := on_dev _ _) in Eb.
  assert (E4 : (exists disk size, blk = virtio_blk_init disk size) /\ s4 = on_dev (fun d => d <| host := host (dev s4) |>) s3).
  { revert Eb. unfold boot_disk. destruct (disk_file o') as [name|]; [|intros [= <- <-]; split; [eauto|by destruct s3 as [? ? ? ? ? ? ? []]]].
    rewrite boot_call_spec. cbv beta iota. destruct (fst (file_bytes name _)) as [[|b0 bs]|]; [done| |done]. intros [= <- <-]. split; [eauto|done]. }
  destruct E4 as [(disk & size & ->) E4].
  unfold boot_aclint, semu_timer_init, host_time_ns, on_host in H.
  destruct (clock_gettime _) as [[sec nsec] e5] in H. cbv beta iota zeta in H.
  match type of H with context [mk_timer ?a ?b] => set (mt := mk_timer a b) in H end.
  match type of H with context [on_tstatic ?f ?x] => set (g := f) in H end. clearbody mt g.
  injection H as <- <-.
  exists ptr, e1, s1, disk, size, mt, (g (tstatic (dev s1))), e5. split_and!; [done|done|done|].
  rewrite <- Eh. clear Eh. unfold s3 in E4. generalize dependent (host (dev s4)). intros h4 E4. rewrite E4.
  generalize dependent (host (dev s2)). intros h2 E2. rewrite E2. clear. destruct s1 as [? ? ? ? ? ? ? []]. reflexivity.
Qed.

Lemma semu_init_inv args table allocs t junk e b : semu_init args table allocs t junk e = inr b ->
  exists o, boot_machine args t junk e = inr (b_machine b, o) /\
    boot_coroutines (hart_count o) (hart_count o) table allocs = Some (b_coro b).
Proof.
  unfold semu_init. destruct (boot_machine args t junk e) as [|[s o]]; [done|].
  destruct (boot_coroutines _ _ table allocs) as [c|] eqn:Ek; [|done]. intros [= <-]. by exists o.
Qed.

(** C35: If start-up succeeds, the machine satisfies what the theorems about it assume: the
    translation caches are coherent, the interrupt controller's words are in range,
    there are between 1 and 32 harts, each reset with its number and the address of
    the device tree in a0 and a1, and only hart 0 is started, at address 0; the timer
    and interrupt arrays have one entry per hart. The kernel, the device tree and
    the initrd are in memory exactly as in their files, inside RAM, if they fit their
    places. With more than one hart, every hart has a coroutine that waits. *)
Theorem boot_state args table allocs t junk e b : semu_init args table allocs t junk e = inr b ->
  let s := b_machine b in let n := Z.of_nat (length (peers s)) in
  coherent s /\ plic_u32 (plic (dev s)) /\ stopped (dev s) = false /\
  1 <= n <= 32 /\ hart s = new_hart 0 /\ peers s = (fun k => new_hart (Z.of_nat k)) <$> seq 0 (length (peers s)) /\
  length (mtimecmp (mtimer (dev s))) = length (peers s) /\ length (msip (mswi (dev s))) = length (peers s) /\
  length (ssip (sswi (dev s))) = length (peers s) /\
  (if 1 <? n then created n (b_coro b) /\ total_slots (b_coro b) = n /\ hart_slots (b_coro b) = n else b_coro b = coro_zero) /\
  exists o kb db, handle_options args = inr o /\ is_file (default [] (kernel_file o)) kb /\ is_file (default [] (dtb_file o)) db /\
  match initrd_file o with
  | None => pages kb <= dtb_addr -> pages db <= DTB_SIZE ->
      image_at 0 kb s /\ image_at dtb_addr db s /\ ram_oob s = false
  | Some name => exists ib, is_file name ib /\
      (pages kb <= initrd_addr -> pages db <= DTB_SIZE -> pages ib <= INITRD_SIZE ->
       image_at 0 kb s /\ image_at dtb_addr db s /\ image_at initrd_addr ib s /\ ram_oob s = false)
  end.
Proof.
  intros (o & H & Ek)%semu_init_inv. destruct (boot_machine_inv args t junk e _ o H) as (ptr & e1 & s1 & disk & size & mtime & tst & e2 & Ho & Hp & El & Em).
  pose proof (handle_options_range args o Ho) as Hn. apply mmap_ok in Hp.
  set (s0 := mk_machine zero_hart [] ∅ ptr false false junk (zero_emu e1 t)) in *.
  assert (R0 : ram_ok (ram s0)) by by apply ram_ok_check.
  destruct (load_images_spec _ _ _ s0 s1 El R0) as ([BD BP BR] & kb & db & F1 & F2 & IM). specialize (BR R0).
  apply boot_coroutines_spec in Ek; [|lia]. rewrite Em. clear Em H.
  set (hs := (fun k => new_hart (0 + Z.of_nat k)) <$> seq 0 (Z.to_nat (hart_count o))). cbv zeta. cbn [peers hart dev].
  assert (Lh : length hs = Z.to_nat (hart_count o)) by (unfold hs; by rewrite length_fmap, length_seq). rewrite Lh, Z2Nat.id by lia.
  assert (H0 : arr_get zero_hart hs 0 = new_hart 0) by (apply hart_at_boot; lia).
  assert (Hh : hs = (fun k => new_hart (Z.of_nat k)) <$> seq 0 (Z.to_nat (hart_count o))).
  { unfold hs. apply list_fmap_ext. intros. by rewrite Z.add_0_l. }
  split; [apply new_hart_coherent; cbn [ram ram_ptr hart]; [exact BR|by rewrite BP|exact H0]|]. clearbody hs.
  split; [cbn [plic dev]; rewrite BD; exact plic0_u32|]. split; [cbn [stopped dev]; by rewrite BD|]. split; [lia|]. split; [exact H0|]. split; [exact Hh|].
  cbn [mtimer mswi sswi mtimecmp msip ssip]. split; [apply length_replicate|]. split; [apply length_replicate|]. split; [apply length_replicate|].
  split; [exact Ek|]. exists o, kb, db. split; [done|]. split; [done|]. split; [done|]. exact IM.
Qed.

(** ** The scheduler *)

(** The scheduler executes and no stack has overflowed. *)
Definition scheduling (c : coro_sys) : Prop :=
  coro_reach c /\ at_co c = None /\ aborted c = false /\ initialized c = true /\
  forall k co, 0 <= k -> slot c k = Some co -> canary co = true.

Section Smp.
Context (slice : Z -> M -> bool * M).

(** A coroutine that waits is run to its next yield; another one is left alone. *)
Lemma resume_one_spec i s c co : scheduling c -> 0 <= i < total_slots c -> slot c i = Some co ->
  exists c', scheduling c' /\ total_slots c' = total_slots c /\ hart_slots c' = hart_slots c /\
    (forall k, 0 <= k -> k <> i -> slot c' k = slot c k) /\
    if bool_decide (state co = CORO_STATE_SUSPENDED) then
      resume_one slice i (s, c) = (snd (slice i s), c') /\
      slot c' i = Some (co <| state := if fst (slice i s) then CORO_STATE_DEAD else CORO_STATE_SUSPENDED |>)
    else resume_one slice i (s, c) = (s, c') /\ slot c' i = Some co.
Proof.
  intros (R & A & B & I & K) Hi Hco. pose proof (ci_len c (coro_reach_inv c R)) as L. unfold resume_one.
  destruct (bool_decide_reflect (state co = CORO_STATE_SUSPENDED)) as [Hs|Hs].
  - assert (E0 : coro_resume_hart i c = jump_into i (set_slot i (Some (co <| state := CORO_STATE_RUNNING |>)) (c <| current_hart := i |>))).
    { unfold coro_resume_hart. rewrite I. cbn [negb orb]. destruct (Z.leb_spec (total_slots c) i); [lia|].
      rewrite Hco, bool_decide_true by done. cbn [negb]. unfold coro_check_stack. rewrite Hco, (K i co ltac:(lia) Hco), B.
      unfold set_state. change (slot (c <| current_hart := i |>) i) with (slot c i). by rewrite Hco. }
    set (c1 := coro_resume_hart i c) in *. assert (R1 : coro_reach c1) by (eapply cr_step; [exact R|by apply cs_resume; [..|lia]]).
    assert (A1 : at_co c1 = Some i) by by rewrite E0. rewrite bool_decide_true by done. destruct (slice i s) as [ret s1]. cbn [fst snd].
    set (st := if ret : bool then CORO_STATE_DEAD else CORO_STATE_SUSPENDED).
    assert (S1 : slot c1 i = Some (co <| state := CORO_STATE_RUNNING |>)).
    { rewrite E0. change (slot (jump_into i ?x) i) with (slot x i). apply slot_set_eq. cbn. lia. }
    set (c2 := jump_out i (set_state i st c1)).
    assert (S2 : slot c2 i = Some (co <| state := st |>)).
    { unfold c2. change (slot (jump_out i ?x) i) with (slot x i). unfold set_state. rewrite S1, slot_set_eq; [done|].
      rewrite E0. cbn. rewrite length_arr_set. lia. }
    assert (E2 : (if ret : bool then coro_finish i c1 else coro_yield c1) = c2).
    { assert (Ec : coro_check_stack i c2 = c2) by (unfold coro_check_stack; rewrite S2; cbn; by rewrite (K i co ltac:(lia) Hco)).
      destruct ret; [exact Ec|]. rewrite (yield_eq i) by (done || by apply coro_reach_inv). exact Ec. }
    exists c2. rewrite E2. assert (F2 : forall k, 0 <= k -> k <> i -> slot c2 k = slot c k).
    { intros k Hk Hne. unfold c2. change (slot (jump_out i ?x) k) with (slot x k). unfold set_state. rewrite S1, slot_set_ne by lia.
      rewrite E0. change (slot (jump_into i ?x) k) with (slot x k). by rewrite slot_set_ne by lia. }
    split; [|split; [|split; [|split; [exact F2|by split]]]].
    + split_and!.
      * rewrite <- E2. destruct ret; (eapply cr_step; [exact R1|]); [by apply cs_finish|by apply (cs_yield _ i)].
      * done.
      * unfold c2, set_state. rewrite S1, E0. exact B.
      * unfold c2, set_state. rewrite S1, E0. exact I.
      * intros k co' Hk. destruct (decide (k = i)) as [->|Hne]; [rewrite S2; intros [= <-]; exact (K i co ltac:(lia) Hco)|].
        rewrite F2 by done. by apply K.
    + unfold c2, set_state. rewrite S1, E0. done.
    + unfold c2, set_state. rewrite S1, E0. done.
  - assert (E0 : coro_resume_hart i c = c).
    { unfold coro_resume_hart. destruct (negb _ || _); [done|]. by rewrite Hco, bool_decide_false. }
    exists c. rewrite E0, A. rewrite bool_decide_false by done. by split_and!.
Qed.

(** C36: Every round of the SMP scheduler resumes each hart whose coroutine waits exactly
    once, in the order of the harts, and no other; control is back in the
    scheduler after each, so the effect on the machine is the harts' slices one after
    the other. A hart that yields waits again for the next round, one that has
    returned stays dead. *)
Theorem smp_round_fair n s c : scheduling c -> total_slots c = Z.of_nat n -> hart_slots c = Z.of_nat n ->
  (forall k, 0 <= k < Z.of_nat n -> is_Some (slot c k)) ->
  let '(s', c') := resume_all slice n 0 (s, c) in
  s' = foldl (fun s i => snd (slice i s)) s (filter (fun i => coro_is_suspended i c = true) (seqZ 0 (Z.of_nat n))) /\
  scheduling c' /\
  forall k co, 0 <= k < Z.of_nat n -> slot c k = Some co -> exists co', slot c' k = Some co' /\
    (state co = CORO_STATE_SUSPENDED -> state co' = CORO_STATE_SUSPENDED \/ state co' = CORO_STATE_DEAD) /\
    (state co <> CORO_STATE_SUSPENDED -> co' = co).
Proof.
  intros W T H F. assert (G : forall m i s c0, scheduling c0 -> total_slots c0 = Z.of_nat n -> hart_slots c0 = Z.of_nat n ->
    0 <= i -> i + Z.of_nat m = Z.of_nat n -> (forall k, i <= k -> slot c0 k = slot c k) ->
    let '(s', c') := resume_all slice m i (s, c0) in
    s' = foldl (fun s i => snd (slice i s)) s (filter (fun i => coro_is_suspended i c = true) (seqZ i (Z.of_nat m))) /\
    scheduling c' /\ (forall k, 0 <= k < i -> slot c' k = slot c0 k) /\
    forall k co, i <= k < Z.of_nat n -> slot c k = Some co -> exists co', slot c' k = Some co' /\
      (state co = CORO_STATE_SUSPENDED -> state co' = CORO_STATE_SUSPENDED \/ state co' = CORO_STATE_DEAD) /\
      (state co <> CORO_STATE_SUSPENDED -> co' = co)).
  { clear s. induction m as [|m IH]; intros i s c0 W0 T0 H0 Hi Hm F0; cbn [resume_all]; [split_and!; [done|done|done|intros; lia]|].
    destruct (F i ltac:(lia)) as [co Hco]. assert (Hco0 : slot c0 i = Some co) by by rewrite F0.
    destruct (resume_one_spec i s c0 co W0 ltac:(lia) Hco0) as (c1 & W1 & T1 & H1 & S1 & E1).
    assert (Es : coro_is_suspended i c = bool_decide (state co = CORO_STATE_SUSPENDED)).
    { unfold coro_is_suspended. destruct W as (_ & _ & _ & -> & _). cbn [negb orb]. rewrite H. destruct (Z.leb_spec (Z.of_nat n) i); [lia|].
      by rewrite Hco. }
    rewrite Nat2Z.inj_succ, seqZ_cons by lia. replace (Z.pred (Z.succ (Z.of_nat m))) with (Z.of_nat m) by lia. change (Z.succ i) with (i + 1).
    rewrite filter_cons, Es.
    assert (X : exists s1 co1, resume_one slice i (s, c0) = (s1, c1) /\ slot c1 i = Some co1 /\
      (state co = CORO_STATE_SUSPENDED -> s1 = snd (slice i s) /\ (state co1 = CORO_STATE_SUSPENDED \/ state co1 = CORO_STATE_DEAD)) /\
      (state co <> CORO_STATE_SUSPENDED -> s1 = s /\ co1 = co)).
    { destruct (bool_decide_reflect (state co = CORO_STATE_SUSPENDED)) as [Hs|Hs]; destruct E1 as [E1 E2]; do 2 eexists; split_and!;
        [exact E1|exact E2| |done|exact E1|exact E2|done|done]. intros _. split; [done|]. cbn. destruct (fst (slice i s)); [by right|by left]. }
    destruct X as (s1 & co1 & X1 & X2 & X3 & X4). rewrite X1.
    specialize (IH (i + 1) s1 c1 W1 ltac:(congruence) ltac:(congruence) ltac:(lia) ltac:(lia)).
    specialize (IH ltac:(intros k Hk; rewrite S1 by lia; apply F0; lia)). destruct (resume_all slice m (i + 1) (s1, c1)) as [s' c'].
    destruct IH as (I1 & I2 & I3 & I4). split_and!.
    - rewrite I1. destruct (bool_decide_reflect (state co = CORO_STATE_SUSPENDED)) as [Hs|Hs].
      + rewrite decide_True by done. cbn [foldl]. by destruct (X3 Hs) as [-> _].
      + rewrite decide_False by done. by destruct (X4 Hs) as [-> _].
    - done.
    - intros k Hk. rewrite I3 by lia. apply S1; lia.
    - intros k co' Hk Hk'. destruct (decide (k = i)) as [->|Hne]; [|apply I4; [lia|done]].
      exists co1. rewrite I3 by lia. split; [done|]. replace co' with co by congruence. split; [apply X3|apply X4]. }
  specialize (G n 0 s c W T H ltac:(lia) ltac:(lia) ltac:(done)). destruct (resume_all slice n 0 (s, c)) as [s' c'].
  destruct G as (G1 & G2 & _ & G3). by split_and!.
Qed.
End Smp.
End Boot.
