(* ===== verification/FullBoot.v ===== *)
(** * Start-up with every device (main.c)

    [Boot] is the start-up of the build with the disk and the entropy source; here the
    other devices, the window and the wake pipe are set up too, in the order of
    [semu_init]. Shown: the part of the machine the two builds share is the same, no
    interrupt line is up, and the window owns what SDL created. *)

From Stdlib Require Import String Ascii.
From stdpp Require Import base gmap list.
From Stdlib Require Import ZArith Lia Bool.
From S2P Require Import Prelude Isa Hart Machine RamProps Tlb Loops Device Timer Plic Virtio VirtioBlk DmaProps Platform Emulator Coro Boot BootProps.
From S2P Require Import InputEvent VirtioInput VgpuDisplay VgpuConc VgpuProps Window WindowProps GpuDefs VirtioGpuSw VirtioGpu GpuTheorems.
From S2P Require Import VirtioFs VirtioSnd VirtioNet Full FullProps.
Open Scope Z_scope.
Import Coro.Runtime.

(* [device.h:15-16] *)
Definition SCREEN_WIDTH := 1024.
Definition SCREEN_HEIGHT := 768.

(** ** The device tree's name *)

(** What follows the last slash: [strrchr(s, '/') + 1]. *)
Fixpoint after_slash (s : list Z) : option (list Z) :=
  match s with
  | [] => None
  | c :: s =>
    match after_slash s with
    | Some name => Some name
    | None => if c =? 47 then Some s else None
    end
  end.

(* [main.c:829-843] uses_default_minimal_dtb *)
Definition uses_default_minimal_dtb (dtb_file : option (list Z)) : bool :=
  match dtb_file with
  | None => false
  | Some file => bool_decide (default file (after_slash file) = default_dtb)
  end.

Definition c_string (s : list Z) : string := string_of_list_ascii ((fun c => ascii_of_N (Z.to_N c)) <$> s).

(** The window's scanouts and SDL live beside the machine; the command queue, the
    flags and the display bridge are shared with the devices. *)
Record full_booted (E N S F G W : Type) := mk_full_booted {
  fb_machine : machine (full_dev E N S F G); fb_window : window_st W; fb_coro : coro_sys; fb_wake_fd : Z * Z; fb_debug : bool }.
Arguments mk_full_booted {E N S F G W}.
Arguments fb_machine {E N S F G W}. Arguments fb_window {E N S F G W}. Arguments fb_coro {E N S F G W}.
Arguments fb_wake_fd {E N S F G W}. Arguments fb_debug {E N S F G W}.

Section FullBoot.
Context {E N S F G W : Type} `{HostE : Host E} `{BootE : BootHost E} `{NetN : NetHost N} `{SndS : SndHost S}
  `{FsF : FsHost F} `{GpuG : GpuHost G} `{SdlW : Sdl W} `{VideoW : SdlVideo W}.
Abbreviation M := (machine (full_dev E N S F G)).
Implicit Types s : M.

Definition emur {A} : (machine (emu_state_t E) -> A * machine (emu_state_t E)) -> M -> A * M := zoomr f_emu put_emu.

(** ** The state before *)

(** The static variables and what [memset] leaves. *)
Definition vhost_zero : vinput_host := mk_vhost (replicate 2 zero_cmdq) false (-1) 0 false false false false.
Definition full_zero (e : E) (n : N) (sn : S) (f : F) (g : G) (t : timer_static) : full_dev E N S F G :=
  mk_full (zero_emu e t)
    (mk_netdev (mk_vnet (zero_virtio 2) [false; false] NETDEV_IMPL_tap false) [0; 0; 0] 0 false false false n)
    (snd_static sn)
    (mk_fsdev (zero_virtio 3) [] None [] (replicate 44 0) 0 ∅ false false false false f)
    (mk_indev [zero_vinput; zero_vinput] [zero_vdata; zero_vdata] 0 vhost_zero false false false)
    (gpu_fresh display_init g).
Definition window_zero (w : W) : window_st W := mk_window vhost_zero false (one_scanout zero_scanout_info) display_init [] w.

(** ** Devices *)

(** [inl] is the exit code of the process. [malloc_ok] answers the allocation of the
    back end's options. *)
(* [main.c:983-995] semu_init *)
Definition boot_net (netdev : option (list Z)) (malloc_ok : bool) s : Z + M :=
  match netdev with
  | None => inr s
  | Some name =>
    let '(ok, s) := zoomr f_net put_net (virtio_net_init (Some (c_string name)) malloc_ok) s in
    if net_exit (f_net (dev s)) then inl 2 else if ok then inr s else inl 1
  end.

(** "myfs" *)
Definition fs_tag : list Z := [109; 121; 102; 115].

(** The devices after the timers. The results of the sound and file system devices are
    only reported. *)
(* [main.c:1012-1037] semu_init *)
Definition boot_devices (dir : option (list Z)) s : Z + M :=
  let s := snd (zoomr f_snd put_snd virtio_snd_init s) in
  let s := snd (zoomr f_fs put_fs (virtio_fs_init fs_tag dir) s) in
  if vfs_exit (f_fs (dev s)) then inl 2
  else
    let s := zoom f_input put_input (virtio_input_init VINPUT_KEYBOARD_ID) s in
    let s := zoom f_input put_input (virtio_input_init VINPUT_MOUSE_ID) s in
    if init_exit (f_input (dev s)) then inl 2
    else
      let s := zoom f_gpu put_gpu virtio_gpu_init s in
      let '(scanout_id, s) := zoomr f_gpu put_gpu (virtio_gpu_register_scanout SCREEN_WIDTH SCREEN_HEIGHT) s in
      if gpu_exit (f_gpu (dev s)) then inl 1
      else inr (zoom f_gpu put_gpu (on_dev (fun d => d <| disp := vgpu_display_set_scanout_count (u32 (scanout_id + 1)) (disp d) |>)) s).

(** An operation of the window on the state it shares with the devices. *)
Definition at_window (f : window_st W -> option (window_st W)) (ws : window_st W) s : option (window_st W * M) :=
  let ws := ws <| ws_host := vhost (f_input (dev s)) |> <| ws_disp := disp (f_gpu (dev s)) |> in
  match f ws with
  | None => None
  | Some ws =>
    Some (ws, zoom f_gpu put_gpu (on_dev (fun d => d <| disp := ws_disp ws |>))
                (zoom f_input put_input (on_dev (fun d => d <| vhost := ws_host ws |>)) s))
  end.

(** The wake pipe: [pipe_fds] and [nonblock] answer [pipe] and [fcntl]. *)
(* [main.c:1042-1066] semu_init *)
Definition boot_wake_pipe (n_hart : Z) (pipe_fds : option (Z * Z)) (nonblock : bool) : option (Z * Z) :=
  if 1 <? n_hart then
    match pipe_fds with
    | None => None
    | Some fds => if nonblock then Some fds else None
    end
  else Some (-1, -1).

(** ** The whole *)

(** From the peripherals to the end, on a machine with its images and harts. *)
(* [main.c:977-1112] semu_init *)
Definition full_peripherals (o : options) (malloc_ok : bool) (pipe_fds : option (Z * Z)) (nonblock table : bool)
    (allocs : Z -> bool * bool * bool) (w : W) s : Z + full_booted E N S F G W :=
  let n_hart := hart_count o in
  match boot_net (Boot.net_dev o) malloc_ok s with
  | inl code => inl code
  | inr s =>
    match boot_disk (disk_file o) (narrow f_emu s) with
    | None => inl 2
    | Some (blk, m) =>
      let s := at_emu (fun m => boot_aclint n_hart (on_dev (fun d => d <| vblk := blk |>) m)) (widen put_emu s m) in
      match boot_devices (Boot.shared_dir o) s with
      | inl code => inl code
      | inr s =>
        match at_window (window_init_sw (headless o) SCREEN_WIDTH SCREEN_HEIGHT) (window_zero w) s with
        | None => inl 1
        | Some (ws, s) =>
          match boot_wake_pipe n_hart pipe_fds nonblock with
          | None => inl 1
          | Some wake_fd =>
            let s := at_emu (on_dev (fun d => d <| peripheral_update_ctr := 0 |>)) s in
            match boot_coroutines (n_hart + b2z (bool_decide (is_Some (Boot.net_dev o)))) n_hart table allocs with
            | None => inl 1
            | Some c => inr (mk_full_booted s ws c wake_fd (debug o))
            end
          end
        end
      end
    end
  end.

(** [external_root]: the build boots from the disk. *)
(* [main.c:861-1112] semu_init *)
Definition full_init (external_root : bool) (args : list (Z * list Z)) (malloc_ok : bool) (pipe_fds : option (Z * Z))
    (nonblock table : bool) (allocs : Z -> bool * bool * bool) (t : timer_static) (junk : Z)
    (e : E) (n : N) (sn : S) (f : F) (g : G) (w : W) : Z + full_booted E N S F G W :=
  match handle_options args with
  | inl code => inl code
  | inr o =>
    if external_root && bool_decide (is_Some (initrd_file o)) && uses_default_minimal_dtb (dtb_file o) then inl 2
    else
    let '(p, e) := mmap_ram e in
    match p with
    | None => inl 2
    | Some ptr =>
      let s := mk_machine zero_hart [] ∅ ptr false false junk (full_zero e n sn f g t) in
      match zoomo f_emu put_emu (load_images (default [] (kernel_file o)) (default [] (dtb_file o)) (initrd_file o)) s with
      | None => inl 2
      | Some s =>
        let '(ok, s) := emur (boot_call boot_malloc) s in
        if negb ok then inl 1
        else
          let '(hs, s) := emur (new_harts (Z.to_nat (hart_count o)) 0) s in
          match hs with
          | None => inl 1
          | Some hs => full_peripherals o malloc_ok pipe_fds nonblock table allocs w (at_emu (boot_harts hs) s)
          end
      end
    end
  end.
End FullBoot.

(** ** What start-up leaves *)

(** [m'] is [m] with another device state, but for the registers [regs]. *)
Definition keeps {D R} (regs : D -> R) (m m' : machine D) : Prop := m' = m <| dev := dev m' |> /\ regs (dev m') = regs (dev m).

Lemma quiet_keeps_refl {D R} (regs : D -> R) (m : machine D) : keeps regs m m.
Proof. by destruct m. Qed.
Lemma quiet_keeps_trans {D R} (regs : D -> R) (m1 m2 m3 : machine D) : keeps regs m1 m2 -> keeps regs m2 m3 -> keeps regs m1 m3.
Proof. intros [-> A] [-> B]. split; [done|]. cbn in *. congruence. Qed.
Lemma keeps_on {D R} (regs : D -> R) (f : D -> D) (m : machine D) : regs (f (dev m)) = regs (dev m) -> keeps regs m (on_dev f m).
Proof. by split. Qed.

Section Shown.
Context {E N S F G W : Type} `{HostE : Host E} `{BootE : BootHost E} `{NetN : NetHost N} `{SndS : SndHost S}
  `{FsF : FsHost F} `{GpuG : GpuHost G} `{SdlW : Sdl W} `{VideoW : SdlVideo W} {LawsE : BootLaws E} {LawsW : SdlVideoLaws W}.
Abbreviation M := (machine (full_dev E N S F G)).
Implicit Types s : M.

Lemma narrow_widen s (m : machine (emu_state_t E)) : narrow f_emu (widen put_emu s m) = m.
Proof. by destruct m. Qed.

(** The devices the basic build does not have are silent, which every step keeps. *)
Record quiet (d : full_dev E N S F G) : Prop := {
  q_net : vnet_irq d = false;
  q_snd : vsnd_irq d = false;
  q_fs : vfs_irq d = false;
  q_in v : iirq v (f_input d) = false;
  q_gpu : vgpu_irq d = false }.

(** The shared part of start-up leaves no interrupt. *)
Lemma boot_machine_calm args t junk e m o : boot_machine args t junk e = inr (m, o) ->
  active (plic (dev m)) = 0 /\ InterruptStatus (vblk_regs (vblk (dev m))) = 0 /\ InterruptStatus (vrng (dev m)) = 0.
Proof.
  intros (ptr & e1 & s1 & disk & size & mtime & tst & e2 & _ & _ & El & ->)%boot_machine_inv.
  apply load_images_spec in El as [[BD _ _] _]; [|by apply ram_ok_check]. cbn. by rewrite BD.
Qed.

Lemma quiet_down args t junk e s o : quiet (dev s) -> boot_machine args t junk e = inr (narrow f_emu s, o) -> lines_down (dev s).
Proof.
  intros [C D1 D2 D3 D4] (P & A & B)%boot_machine_calm l. cbn in P, A, B.
  split; [unfold raised; rewrite P; by destruct l|]. destruct l; try done; cbn; unfold vblk_irq, vrng_irq; by rewrite ?A, ?B.
Qed.

Lemma quiet_zero e n sn f g t : quiet (full_zero e n sn f g t).
Proof. split; try done. intros v. unfold iirq, arr_get. cbn. by destruct (Z.to_nat v) as [|[|k]]. Qed.

(** *** Each device's initialisation touches its own state *)

Lemma net_init_keeps name ok (m : machine (net_dev N)) : keeps (vn_regs ∘ vnet) m (snd (virtio_net_init name ok m)).
Proof. unfold virtio_net_init, netdev_init, with_host. repeat case_match; simplify_eq; by destruct m. Qed.

Lemma snd_init_keeps (m : machine (snd_dev S)) : keeps vsnd_regs m (snd (virtio_snd_init m)).
Proof.
  assert (Q : forall A (f : S -> A * S) x, keeps vsnd_regs x (snd (snd_call f x))).
  { intros A f x. unfold snd_call. by destruct (f _). }
  unfold virtio_snd_init. case_match; [apply quiet_keeps_refl|]. set (m1 := on_sdev _ m).
  assert (K1 : keeps vsnd_regs m m1) by by apply keeps_on. specialize (Q _ thread_create m1) as K2.
  destruct (snd_call thread_create m1) as [err m2]. cbn [snd] in K2. case_match; [exact (quiet_keeps_trans _ _ _ _ K1 K2)|].
  set (m3 := tx_goto T_wait m2). assert (K3 : keeps vsnd_regs m2 m3) by by apply keeps_on.
  specialize (Q _ pa_initialize m3) as K4. destruct (snd_call pa_initialize m3) as [err2 m4]. cbn [snd] in K4.
  assert (K : keeps vsnd_regs m m4) by eauto using quiet_keeps_trans.
  case_match; cbn [snd]; [|done]. eapply quiet_keeps_trans; [exact K|]. by apply keeps_on.
Qed.

Lemma fs_init_keeps tag dir (m : machine (fs_dev F)) : keeps vfs_regs m (snd (virtio_fs_init tag dir m)).
Proof.
  assert (Q : forall A (f : F -> A * F) x, keeps vfs_regs x (snd (h_call f x))).
  { intros A f x. unfold h_call. by destruct (f _). }
  assert (X : forall x, keeps vfs_regs x (on_fdev (fun d : fs_dev F => d <| vfs_exit := true |>) x)) by (intros x; by apply keeps_on).
  unfold virtio_fs_init. cbv zeta. case_match; [apply X|]. set (m1 := on_fdev _ m).
  assert (K1 : keeps vfs_regs m m1) by by apply keeps_on. destruct dir as [l|]; [|exact K1].
  specialize (Q _ (fs_open (Some l)) m1) as K2. destruct (h_call (fs_open (Some l)) m1) as [[|] m2]; cbn [snd] in K2; [by eauto using quiet_keeps_trans|].
  specialize (Q _ (fs_malloc (Z.of_nat (length l) + 1)) m2) as K3. unfold f_malloc. destruct (h_call _ m2) as [ok m3]. cbn [snd] in K3.
  assert (K : keeps vfs_regs m m3) by eauto using quiet_keeps_trans. case_match; [by eauto using quiet_keeps_trans|]. set (m4 := on_fdev _ m3).
  assert (K4 : keeps vfs_regs m m4) by (eapply quiet_keeps_trans; [exact K|by apply keeps_on]).
  specialize (Q _ (fs_malloc 24) m4) as K5. destruct (h_call _ m4) as [ok2 m5]. cbn [snd] in K5. case_match; [exact (quiet_keeps_trans _ _ _ _ K4 K5)|].
  specialize (Q _ (fs_malloc (Z.of_nat (length l) + 1)) m5) as K6. destruct (h_call _ m5) as [ok3 m6]. cbn [snd] in K6.
  assert (K7 : keeps vfs_regs m m6) by eauto using quiet_keeps_trans. case_match; cbn [snd]; [done|].
  eapply quiet_keeps_trans; [exact K7|by apply keeps_on].
Qed.

Lemma input_init_keeps v j (m : machine input_dev) : keeps (iirq j) m (virtio_input_init v m).
Proof.
  unfold virtio_input_init. case_match; apply keeps_on; [done|]. unfold iirq. cbn. unfold vinput_at.
  destruct (decide (Z.to_nat j = Z.to_nat v)) as [Ej|Ej]; unfold arr_get, arr_set.
  - rewrite Ej. destruct (vinputs (dev m) !! Z.to_nat v) eqn:El; cbn.
    + rewrite list_lookup_insert_eq by (by eapply lookup_lt_Some). done.
    + rewrite list_insert_ge by (by apply lookup_ge_None). by rewrite El.
  - by rewrite list_lookup_insert_ne.
Qed.

Lemma gpu_init_keeps (m : machine (gpu_dev G)) : keeps vgpu m (virtio_gpu_init m).
Proof. unfold virtio_gpu_init. case_match; by apply keeps_on. Qed.
Lemma scanout_keeps a b (m : machine (gpu_dev G)) : keeps vgpu m (snd (virtio_gpu_register_scanout a b m)).
Proof. unfold virtio_gpu_register_scanout. case_match; by destruct m. Qed.

(** A step of the devices past the basic build's: it leaves the rest of the machine and
    makes none of them ask. *)
Definition aside s s' : Prop := narrow f_emu s' = narrow f_emu s /\ (quiet (dev s) -> quiet (dev s')).

Lemma aside_trans s1 s2 s3 : aside s1 s2 -> aside s2 s3 -> aside s1 s3.
Proof. intros [A B] [C D]. split; [congruence|auto]. Qed.

Lemma aside_net s m : keeps (vn_regs ∘ vnet) (narrow f_net s) m -> aside s (widen put_net s m).
Proof. intros [-> R]. split; [done|]. intros [A B C D K]. split; try done. unfold vnet_irq. cbn in *. by rewrite R. Qed.
Lemma aside_snd s m : keeps vsnd_regs (narrow f_snd s) m -> aside s (widen put_snd s m).
Proof. intros [-> R]. split; [done|]. intros [A B C D K]. split; try done. unfold vsnd_irq. cbn in *. by rewrite R. Qed.
Lemma aside_fs s m : keeps vfs_regs (narrow f_fs s) m -> aside s (widen put_fs s m).
Proof. intros [-> R]. split; [done|]. intros [A B C D K]. split; try done. unfold vfs_irq. cbn in *. by rewrite R. Qed.
Lemma aside_gpu s m : keeps vgpu (narrow f_gpu s) m -> aside s (widen put_gpu s m).
Proof. intros [-> R]. split; [done|]. intros [A B C D K]. split; try done. unfold vgpu_irq. cbn in *. by rewrite R. Qed.
Lemma aside_input s m : (forall j, keeps (iirq j) (narrow f_input s) m) -> aside s (widen put_input s m).
Proof.
  intros H. destruct (H 0) as [E0 _]. split; [by rewrite E0|]. intros [A B C D K]. split; try done. intros v. cbn.
  destruct (H v) as [_ R]. cbn in R. by rewrite R.
Qed.

Lemma boot_net_aside netdev ok s s' : boot_net netdev ok s = inr s' -> aside s s'.
Proof.
  unfold boot_net. destruct netdev as [name|]; [|by intros [= <-]]. unfold zoomr.
  pose proof (net_init_keeps (Some (c_string name)) ok (narrow f_net s)) as K. destruct (virtio_net_init _ ok _) as [r m].
  repeat case_match; try done. intros [= <-]. by apply aside_net.
Qed.

Lemma boot_devices_aside dir s s' : boot_devices dir s = inr s' -> aside s s'.
Proof.
  unfold boot_devices. cbv zeta. set (s1 := snd (zoomr f_snd put_snd virtio_snd_init s)).
  assert (K1 : aside s s1).
  { unfold s1, zoomr. pose proof (snd_init_keeps (narrow f_snd s)) as K. destruct (virtio_snd_init _) as [r m]. by apply aside_snd. }
  clearbody s1. set (s2 := snd (zoomr f_fs put_fs (virtio_fs_init fs_tag dir) s1)). assert (K2 : aside s1 s2).
  { unfold s2, zoomr. pose proof (fs_init_keeps fs_tag dir (narrow f_fs s1)) as K. destruct (virtio_fs_init _ _ _) as [r m]. by apply aside_fs. }
  clearbody s2. destruct (vfs_exit (f_fs (dev s2))); [done|].
  set (s3 := zoom f_input put_input (virtio_input_init VINPUT_KEYBOARD_ID) s2).
  assert (K3 : aside s2 s3) by (apply aside_input; intros j; apply input_init_keeps). clearbody s3.
  set (s4 := zoom f_input put_input (virtio_input_init VINPUT_MOUSE_ID) s3).
  assert (K4 : aside s3 s4) by (apply aside_input; intros j; apply input_init_keeps). clearbody s4.
  destruct (init_exit (f_input (dev s4))); [done|].
  set (s5 := zoom f_gpu put_gpu virtio_gpu_init s4). assert (K5 : aside s4 s5) by apply aside_gpu, gpu_init_keeps. clearbody s5.
  unfold zoomr. pose proof (scanout_keeps SCREEN_WIDTH SCREEN_HEIGHT (narrow f_gpu s5)) as K6.
  destruct (virtio_gpu_register_scanout _ _ _) as [id m6]. apply aside_gpu in K6. cbn [snd] in K6. set (s6 := widen put_gpu s5 m6) in *.
  clearbody s6. destruct (gpu_exit (f_gpu (dev s6))); [done|]. intros [= <-]. do 5 (eapply aside_trans; [eassumption|]).
  eapply aside_trans; [exact K6|]. apply aside_gpu. by apply keeps_on.
Qed.

Lemma at_window_aside (f : window_st W -> option (window_st W)) ws s ws' s' : at_window f ws s = Some (ws', s') -> aside s s'.
Proof.
  unfold at_window. destruct (f _) as [ws1|]; [|done]. intros [= <- <-].
  set (s1 := zoom f_input put_input _ s). apply (aside_trans s s1).
  - apply aside_input. intros j. by apply keeps_on.
  - apply aside_gpu. by apply keeps_on.
Qed.

(** The display bridge that the window starts from. *)
Lemma bridge_start : bridge_ready (vgpu_display_set_scanout_count 1 display_init).
Proof.
  split; [constructor; [vm_compute; repeat split; congruence|intros []; vm_compute; reflexivity|vm_compute; split; congruence]|].
  apply (bool_decide_unpack (Forall (fun c => 0 <= dc_scanout_id c < 16) (dcontents (vgpu_display_set_scanout_count 1 display_init)))).
  vm_compute. exact I.
Qed.

Lemma boot_net_gpu netdev ok s s' : boot_net netdev ok s = inr s' -> f_gpu (dev s') = f_gpu (dev s).
Proof.
  unfold boot_net. destruct netdev as [name|]; [|by intros [= <-]]. unfold zoomr. destruct (virtio_net_init _ ok _) as [r m].
  repeat case_match; try done. by intros [= <-].
Qed.

Lemma boot_devices_disp dir g s s' : boot_devices dir s = inr s' -> f_gpu (dev s) = gpu_fresh display_init g ->
  disp (f_gpu (dev s')) = vgpu_display_set_scanout_count 1 display_init.
Proof.
  unfold boot_devices. cbv zeta. set (s1 := snd (zoomr f_snd put_snd virtio_snd_init s)). intros H Eg.
  assert (E1 : f_gpu (dev s1) = gpu_fresh display_init g) by (unfold s1, zoomr; by destruct (virtio_snd_init _)).
  clearbody s1. set (s2 := snd (zoomr f_fs put_fs (virtio_fs_init fs_tag dir) s1)) in H.
  assert (E2 : f_gpu (dev s2) = gpu_fresh display_init g) by (unfold s2, zoomr; by destruct (virtio_fs_init _ _ _)).
  clearbody s2. destruct (vfs_exit (f_fs (dev s2))); [done|]. set (s3 := zoom f_input put_input (virtio_input_init VINPUT_KEYBOARD_ID) s2) in H.
  assert (E3 : f_gpu (dev s3) = gpu_fresh display_init g) by exact E2. clearbody s3.
  set (s4 := zoom f_input put_input (virtio_input_init VINPUT_MOUSE_ID) s3) in H.
  assert (E4 : f_gpu (dev s4) = gpu_fresh display_init g) by exact E3. clearbody s4.
  destruct (init_exit (f_input (dev s4))); [done|].
  set (s5 := zoom f_gpu put_gpu virtio_gpu_init s4) in H.
  assert (E5 : f_gpu (dev s5) = (gpu_fresh display_init g) <| gpu_initialized := true |>).
  { change (f_gpu (dev s5)) with (dev (virtio_gpu_init (narrow f_gpu s4))). unfold virtio_gpu_init.
    change (dev (narrow f_gpu s4)) with (f_gpu (dev s4)). rewrite E4. cbn. by rewrite E4. }
  clearbody s5. unfold zoomr, virtio_gpu_register_scanout, g_num_scanouts in H. cbv zeta in H.
  change (dev (narrow f_gpu s5)) with (f_gpu (dev s5)) in H. rewrite !E5 in H.
  change (VIRTIO_GPU_MAX_SCANOUTS <=? s32 (num_scanouts (gpu_data ((gpu_fresh display_init g) <| gpu_initialized := true |>)))) with false in H.
  cbv iota in H. cbn in H. rewrite !E5 in H. cbn in H. injection H as <-. cbn. by rewrite E5.
Qed.

Lemma narrow_at_emu (f : machine (emu_state_t E) -> machine (emu_state_t E)) s : narrow f_emu (at_emu f s) = f (narrow f_emu s).
Proof. apply narrow_widen. Qed.

Lemma quiet_emu s (m : machine (emu_state_t E)) : quiet (dev s) -> quiet (dev (widen put_emu s m)).
Proof. by intros [A B C D K]. Qed.

(** The window, its handles and what it shares. *)
Lemma window_boot hl w s ws s' : at_window (window_init_sw hl SCREEN_WIDTH SCREEN_HEIGHT) (window_zero w) s = Some (ws, s') ->
  (forall k, live k w = ∅) -> disp (f_gpu (dev s)) = vgpu_display_set_scanout_count 1 display_init ->
  window_inv ws /\ bridge_ready (ws_disp ws) /\ vhost (f_input (dev s')) = ws_host ws /\ disp (f_gpu (dev s')) = ws_disp ws.
Proof.
  unfold at_window. intros H L D. set (ws0 := (window_zero w) <| ws_host := vhost (f_input (dev s)) |> <| ws_disp := disp (f_gpu (dev s)) |>) in H.
  destruct (window_init_ok hl SCREEN_WIDTH SCREEN_HEIGHT ws0) as (ws1 & E1 & I1 & R1).
  { split; [done|]. split; [exact L|]. unfold ws0. cbn. rewrite D. apply bridge_start. }
  rewrite E1 in H. injection H as <- <-. by split_and!.
Qed.

Lemma peripherals_spec o malloc_ok pipe_fds nonblock table allocs w s (b : full_booted E N S F G W) g :
  full_peripherals o malloc_ok pipe_fds nonblock table allocs w s = inr b -> 1 <= hart_count o ->
  quiet (dev s) -> f_gpu (dev s) = gpu_fresh display_init g -> (forall k, live k w = ∅) ->
  (exists blk m, boot_disk (disk_file o) (narrow f_emu s) = Some (blk, m) /\
     narrow f_emu (fb_machine b) = on_dev (fun d => d <| peripheral_update_ctr := 0 |>)
       (boot_aclint (hart_count o) (on_dev (fun d => d <| vblk := blk |>) m))) /\
  fb_debug b = debug o /\ quiet (dev (fb_machine b)) /\
  (if 1 <? hart_count o
   then created (hart_count o) (fb_coro b) /\ hart_slots (fb_coro b) = hart_count o /\ pipe_fds = Some (fb_wake_fd b) /\
        total_slots (fb_coro b) = hart_count o + b2z (bool_decide (is_Some (Boot.net_dev o)))
   else fb_coro b = coro_zero /\ fb_wake_fd b = (-1, -1)) /\
  window_inv (fb_window b) /\ bridge_ready (ws_disp (fb_window b)) /\
  vhost (f_input (dev (fb_machine b))) = ws_host (fb_window b) /\ disp (f_gpu (dev (fb_machine b))) = ws_disp (fb_window b).
Proof.
  intros H Hn Q0 G0 L. unfold full_peripherals in H. cbv zeta in H.
  destruct (boot_net _ _ s) as [|s1] eqn:E1; [done|]. pose proof (boot_net_gpu _ _ _ _ E1) as G1. rewrite G0 in G1.
  apply boot_net_aside in E1 as [N1 Q1]. specialize (Q1 Q0). rewrite N1 in H.
  destruct (boot_disk (disk_file o) (narrow f_emu s)) as [[blk m]|] eqn:Eb; [|done].
  set (s2 := at_emu _ (widen put_emu s1 m)) in H.
  assert (N2 : narrow f_emu s2 = boot_aclint (hart_count o) (on_dev (fun d => d <| vblk := blk |>) m)) by (unfold s2; by rewrite narrow_at_emu, narrow_widen).
  assert (Q2 : quiet (dev s2)) by by apply quiet_emu, quiet_emu. assert (G2 : f_gpu (dev s2) = gpu_fresh display_init g) by exact G1.
  clearbody s2. destruct (boot_devices _ s2) as [|s3] eqn:E3; [done|]. pose proof (boot_devices_disp _ g _ _ E3 G2) as D3.
  apply boot_devices_aside in E3 as [N3 Q3]. specialize (Q3 Q2).
  destruct (at_window _ _ s3) as [[ws s4]|] eqn:E4; [|done]. pose proof (window_boot _ _ _ _ _ E4 L D3) as Wd.
  apply at_window_aside in E4 as [N4 Q4]. specialize (Q4 Q3).
  destruct (boot_wake_pipe _ _ _) as [fds|] eqn:Ew; [|done].
  destruct (boot_coroutines _ _ _ _) as [c|] eqn:Ec; [|done]. injection H as <-. cbn [fb_machine fb_debug fb_coro fb_wake_fd fb_window].
  split; [exists blk, m; split; [done|]; by rewrite narrow_at_emu, N4, N3, N2|]. split; [done|]. split; [by apply quiet_emu|].
  split; [|exact Wd]. apply boot_coroutines_spec in Ec; [|destruct (bool_decide _); cbn; lia]. unfold boot_wake_pipe in Ew.
  destruct (1 <? hart_count o); [|by injection Ew as <-]. destruct pipe_fds as [p|], nonblock; try done. injection Ew as <-. by destruct Ec as (? & ? & ?).
Qed.

(** C38: Start-up of the build with every device: if it succeeds, the machine without
    the additional devices is exactly what the start-up of the basic build leaves, for
    which [boot_state] is shown; no interrupt line is up and no device asks, so the
    wiring holds from the first instruction on; every hart has a coroutine and a
    network device a slot more; the window shares its queue and bridge with the
    devices and SDL's objects are the ones it holds; and with several harts the wake
    pipe is open. *)
Theorem full_boot external_root args malloc_ok pipe_fds nonblock table allocs t junk e n sn f g w
    (b : full_booted E N S F G W) :
  full_init external_root args malloc_ok pipe_fds nonblock table allocs t junk e n sn f g w = inr b ->
  (forall k, live k w = ∅) ->
  (exists o, boot_machine args t junk e = inr (narrow f_emu (fb_machine b), o) /\ fb_debug b = debug o /\
     if 1 <? hart_count o
     then created (hart_count o) (fb_coro b) /\ hart_slots (fb_coro b) = hart_count o /\ pipe_fds = Some (fb_wake_fd b) /\
          total_slots (fb_coro b) = hart_count o + b2z (bool_decide (is_Some (Boot.net_dev o)))
     else fb_coro b = coro_zero /\ fb_wake_fd b = (-1, -1)) /\
  lines_down (dev (fb_machine b)) /\
  window_inv (fb_window b) /\ bridge_ready (ws_disp (fb_window b)) /\
  vhost (f_input (dev (fb_machine b))) = ws_host (fb_window b) /\ disp (f_gpu (dev (fb_machine b))) = ws_disp (fb_window b).
Proof.
  unfold full_init. destruct (handle_options args) as [|o] eqn:Ho; [done|].
  destruct (external_root && _ && _); [done|]. destruct (mmap_ram e) as [[ptr|] e1] eqn:Hp; [|done].
  set (s0 := mk_machine zero_hart [] ∅ ptr false false junk (full_zero e1 n sn f g t)).
  assert (Q0 : quiet (dev s0)) by apply quiet_zero. assert (G0 : f_gpu (dev s0) = gpu_fresh display_init g) by done.
  unfold zoomo. destruct (load_images _ _ _ (narrow f_emu s0)) as [m1|] eqn:El; [|done]. cbn [fmap option_fmap option_map].
  unfold emur, zoomr at 1. rewrite narrow_widen. destruct (boot_call boot_malloc m1) as [ok m2] eqn:Em. destruct ok; [|done]. cbn [negb].
  unfold zoomr. rewrite narrow_widen. destruct (new_harts _ 0 m2) as [[hs|] m3] eqn:En; [|done].
  set (s4 := at_emu (boot_harts hs) _). intros H L.
  assert (N4 : narrow f_emu s4 = boot_harts hs m3) by (unfold s4; by rewrite narrow_at_emu, narrow_widen).
  pose proof (handle_options_range args o Ho) as Hn.
  destruct (peripherals_spec o malloc_ok pipe_fds nonblock table allocs w s4 b g H) as ((blk & m & Eb & Nb) & Db & Qb & Cb & Wb);
    [lia|by apply quiet_emu, quiet_emu, quiet_emu, quiet_emu|done|done|].
  assert (B : boot_machine args t junk e = inr (narrow f_emu (fb_machine b), o)).
  { unfold boot_machine. rewrite Ho, Hp. change (narrow f_emu s0) with (mk_machine zero_hart [] ∅ ptr false false junk (zero_emu e1 t)) in El.
    rewrite El, Em. cbn [negb]. rewrite En. rewrite N4 in Eb. rewrite Eb, Nb. done. }
  split; [by exists o|]. split; [by eapply quiet_down|]. exact Wb.
Qed.
End Shown.
