(* ===== verification/Lifecycle.v ===== *)
(** * Threads, signals and shutdown (main.c, window-sw.c)

    The main thread runs the window, the emulator runs in a thread of its own, and
    SIGINT and SIGTERM are handled on either of them. They share flags and the wake
    pipe. [main_step], [emu_step] and [handler_step] are the three as functions of the
    shared state; every interleaving of them is considered. The states start after
    [semu_init] and the installation of the handlers; the number of ticks of the
    peripherals in a round of the harts is up to the guest. A second signal that
    interrupts the handler of the first on the same thread is not modelled, and neither
    is the debugger. Shown: no descriptor is used after it is closed, no wake-up by a
    signal is lost, and once the end is asked for both threads finish. *)

From stdpp Require Import base gmap list relations.
From Stdlib Require Import ZArith Lia Bool.
From S2P Require Import Prelude InputCodes InputEvent.
Open Scope Z_scope.

(** ** State *)

(* [main.c:1948-2004] main *)
Inductive main_pc :=
  | M_publish | M_window_fd | M_create | M_loop | M_quit | M_join
  | M_close_signal | M_close_window | M_close_read | M_close_write | M_cleanup | M_done.

(** The loop of [semu_run]: [E_run k] has [k] ticks of the peripherals ahead. *)
(* [main.c:1916-1930] emu_thread_func *)
Inductive emu_pc := E_none | E_test | E_poll | E_drain | E_run (k : nat) | E_flag | E_wake | E_done.

(* [main.c:1289-1301] signal_handler *)
Inductive sig_pc := S_none | S_flag | S_read | S_write (fd : Z).

Inductive thread := Main | Emu.

(** [failed]: the thread could not be created; [read_open] and [write_open]: the ends of
    the pipe; [bad_fd]: an operation on a closed descriptor. *)
(* [main.c:1287-1288] *)
Record proc := mk_proc {
  smp : bool; main_at : main_pc; emu_at : emu_pc; sig_main : sig_pc; sig_emu : sig_pc;
  signal_received : bool; signal_wake_fd : Z; window : vinput_host; wake_fd : Z * Z;
  read_open : bool; write_open : bool; stopped : bool; ctr : nat; failed : bool; bad_fd : bool }.

#[export] Instance eta_proc : Eta proc := fun r =>
  mk_proc (smp r) (main_at r) (emu_at r) (sig_main r) (sig_emu r) (signal_received r) (signal_wake_fd r) (window r)
    (wake_fd r) (read_open r) (write_open r) (stopped r) (ctr r) (failed r) (bad_fd r).
#[export] Instance set_main_at : Setter main_at := ltac:(solve_setter).
#[export] Instance set_emu_at : Setter emu_at := ltac:(solve_setter).
#[export] Instance set_sig_main : Setter sig_main := ltac:(solve_setter).
#[export] Instance set_sig_emu : Setter sig_emu := ltac:(solve_setter).
#[export] Instance set_signal_received : Setter signal_received := ltac:(solve_setter).
#[export] Instance set_signal_wake_fd : Setter signal_wake_fd := ltac:(solve_setter).
#[export] Instance set_window : Setter window := ltac:(solve_setter).
#[export] Instance set_wake_fd : Setter wake_fd := ltac:(solve_setter).
#[export] Instance set_read_open : Setter read_open := ltac:(solve_setter).
#[export] Instance set_write_open : Setter write_open := ltac:(solve_setter).
#[export] Instance set_stopped : Setter stopped := ltac:(solve_setter).
#[export] Instance set_ctr : Setter ctr := ltac:(solve_setter).
#[export] Instance set_failed : Setter failed := ltac:(solve_setter).
#[export] Instance set_bad_fd : Setter bad_fd := ltac:(solve_setter).

#[export] Instance main_pc_eq_dec : EqDecision main_pc.
Proof. solve_decision. Defined.

Implicit Types p : proc.

(** After [semu_init]: with several harts the pipe [fds] is open. *)
Definition proc_start (several : bool) (fds : Z * Z) (h : vinput_host) : proc :=
  mk_proc several M_publish E_none S_none S_none false (-1) h (if several then fds else (-1, -1)) several several
    false 0 false false.

(** A byte into the pipe: dropped when it is full, wrong when it is closed. *)
Definition write_byte p : proc :=
  if write_open p
  then if wake_bytes (window p) <? PIPE_CAPACITY
       then p <| window := (window p) <| wake_bytes := wake_bytes (window p) + 1 |> |> else p
  else p <| bad_fd := true |>.

(** [window_wake_backend_sw], which writes to [wake_write_fd]. *)
(* [window-sw.c:71-81] window_wake_backend_sw *)
Definition wake_backend p : proc := if 0 <=? wake_write_fd (window p) then write_byte p else p.

(** ** The threads *)

(** What a thread meets: nothing in particular; for the window, the user's quit or an
    input event; for the emulator, [k] ticks until the next test, a [poll] that returns for
    another reason than the pipe (a timer, the terminal, a signal), a guest that shuts down; for [pthread_create], a failure. *)
Inductive event := Plain | Quit | Input | Ticks (k : nat) | Event (k : nat) | Guest_stops | No_thread.

(** The pipe is taken from the handler and the window before its ends are closed. *)
(* [main.c:1304-1320] semu_close_wake_pipe *)
Definition semu_close_wake_pipe p : option proc :=
  match main_at p with
  | M_close_signal => Some (p <| signal_wake_fd := -1 |> <| main_at := M_close_window |>)
  | M_close_window => Some (p <| window := window_set_wake_fd_sw (-1) (window p) |> <| main_at := M_close_read |>)
  | M_close_read =>
    Some ((if 0 <=? fst (wake_fd p)
           then p <| bad_fd := bad_fd p || negb (read_open p) |> <| read_open := false |> <| wake_fd := (-1, snd (wake_fd p)) |>
           else p) <| main_at := M_close_write |>)
  | M_close_write =>
    Some ((if 0 <=? snd (wake_fd p)
           then p <| bad_fd := bad_fd p || negb (write_open p) |> <| write_open := false |> <| wake_fd := (fst (wake_fd p), -1) |>
           else p) <| main_at := M_cleanup |>)
  | _ => None
  end.

(* [main.c:1948-2004] main *)
Definition main_step (e : event) p : option proc :=
  match main_at p, e with
  | M_publish, Plain =>
    let p := if 0 <=? snd (wake_fd p) then p <| signal_wake_fd := snd (wake_fd p) |> else p in Some (p <| main_at := M_window_fd |>)
  | M_window_fd, Plain =>
    let p := if 0 <=? snd (wake_fd p) then p <| window := window_set_wake_fd_sw (snd (wake_fd p)) (window p) |> else p in
    Some (p <| main_at := M_create |>)
  | M_create, Plain => Some (p <| main_at := M_loop |> <| emu_at := E_test |>)
  | M_create, No_thread => Some (p <| failed := true |> <| main_at := M_close_signal |>)
  | M_loop, Plain => if window_is_closed_sw (window p) then Some (p <| main_at := M_join |>) else None
  | M_loop, Quit =>
    if window_is_closed_sw (window p) then None
    else Some (p <| window := (window p) <| should_exit := true |> |> <| main_at := M_quit |>)
  | M_loop, Input => if window_is_closed_sw (window p) then None else Some (wake_backend p)
  | M_quit, Plain => Some ((wake_backend p) <| main_at := M_loop |>)
  | M_join, Plain => match emu_at p with E_done => Some (p <| main_at := M_close_signal |>) | _ => None end
  | (M_close_signal | M_close_window | M_close_read | M_close_write), Plain => semu_close_wake_pipe p
  | M_cleanup, Plain => Some (p <| main_at := M_done |>)
  | _, _ => None
  end.

(** A tick of the peripherals, as far as the window is concerned. *)
(* [main.c:219-224] emu_tick_peripherals *)
Definition tick p : proc :=
  match ctr p with
  | O => p <| ctr := 64%nat |> <| stopped := stopped p || window_is_closed_sw (window p) |>
  | S c => p <| ctr := c |>
  end.

(** One byte is read, from a pipe whose read end blocks; the harts run next. *)
(* [main.c:1661-1679] semu_run *)
Definition drain_wake (k : nat) p : option proc :=
  if 0 <? wake_bytes (window p)
  then Some (p <| window := (window p) <| wake_bytes := wake_bytes (window p) - 1 |> |>
               <| bad_fd := bad_fd p || negb (read_open p) |> <| emu_at := E_run k |>)
  else None.

(** The wake pipe is always polled; with one hart the loop does not poll. *)
(* [main.c:1916-1930] emu_thread_func *)
Definition emu_step (e : event) p : option proc :=
  match emu_at p, e with
  | E_test, Ticks k =>
    if stopped p || signal_received p then Some (p <| emu_at := E_flag |>)
    else Some (p <| emu_at := if smp p then E_poll else E_run k |>)
  | E_poll, Plain =>
    if 0 <? wake_bytes (window p) then Some (p <| bad_fd := bad_fd p || negb (read_open p) |> <| emu_at := E_drain |>) else None
  | E_poll, Event k => Some (p <| emu_at := E_run k |>)
  | E_drain, Ticks k => drain_wake k p
  | E_run O, Plain => Some (p <| emu_at := E_test |>)
  | E_run (S k), Plain => Some ((tick p) <| emu_at := E_run k |>)
  | E_run (S k), Guest_stops => Some (p <| stopped := true |> <| emu_at := E_run k |>)
  | E_flag, Plain => Some (p <| window := (window p) <| should_exit := true |> |> <| emu_at := E_wake |>)
  | E_wake, Plain => Some ((wake_backend p) <| emu_at := E_done |>)
  | _, _ => None
  end.

Definition sig_at (t : thread) p : sig_pc := match t with Main => sig_main p | Emu => sig_emu p end.
Definition sig_goto (t : thread) (x : sig_pc) p : proc :=
  match t with Main => p <| sig_main := x |> | Emu => p <| sig_emu := x |> end.

(* [main.c:1289-1301] signal_handler *)
Definition handler_step (t : thread) p : option proc :=
  match sig_at t p with
  | S_none => None
  | S_flag => Some (sig_goto t S_read (p <| signal_received := true |>))
  | S_read => Some (sig_goto t (if 0 <=? signal_wake_fd p then S_write (signal_wake_fd p) else S_none) p)
  | S_write _ => Some (sig_goto t S_none (write_byte p))
  end.

(** A thread that exists and is not in the handler. *)
Definition alive (t : thread) p : bool :=
  match t with
  | Main => match main_at p with M_done => false | _ => true end
  | Emu => match emu_at p with E_none | E_done => false | _ => true end
  end.
Definition free (t : thread) p : bool := alive t p && match sig_at t p with S_none => true | _ => false end.

(** A step of the process; a signal can arrive whenever a thread is free. *)
Inductive proc_step p : proc -> Prop :=
  | step_main e p' : free Main p = true -> main_step e p = Some p' -> proc_step p p'
  | step_emu e p' : free Emu p = true -> emu_step e p = Some p' -> proc_step p p'
  | step_signal t : free t p = true -> proc_step p (sig_goto t S_flag p)
  | step_handler t p' : handler_step t p = Some p' -> proc_step p p'.

(** ** The invariant *)

Definition stage (x : main_pc) : nat :=
  match x with
  | M_publish => 0 | M_window_fd => 1 | M_create => 2 | M_loop => 3 | M_quit => 4 | M_join => 5
  | M_close_signal => 6 | M_close_window => 7 | M_close_read => 8 | M_close_write => 9 | M_cleanup => 10 | M_done => 11
  end.
Definition within (a : nat) p (b : nat) : bool := (a <=? stage (main_at p))%nat && (stage (main_at p) <=? b)%nat.

(** The handler has set the flag and not yet written. *)
Definition writing (x : sig_pc) : bool := match x with S_read | S_write _ => true | _ => false end.

(** [rfd] and [wfd]: the ends of the pipe, [-1] without one. *)
Record proc_inv (rfd wfd : Z) p : Prop := {
  pi_fds : if smp p then 0 <= rfd /\ 0 <= wfd else rfd = -1 /\ wfd = -1;
  pi_bytes : 0 <= wake_bytes (window p);
  pi_bad : bad_fd p = false;
  pi_signal : signal_wake_fd p = if within 1 p 6 then wfd else -1;
  pi_window : wake_write_fd (window p) = if within 2 p 7 then wfd else -1;
  pi_wake : wake_fd p = (if within 0 p 8 then rfd else -1, if within 0 p 9 then wfd else -1);
  pi_read : read_open p = smp p && within 0 p 8;
  pi_write : write_open p = smp p && within 0 p 9;
  pi_emu : match emu_at p with
           | E_none => within 0 p 2 || failed p && within 6 p 11
           | E_done => within 3 p 11
           | _ => within 3 p 5
           end = true;
  pi_failed : failed p = true -> emu_at p = E_none /\ within 6 p 11 = true;
  pi_handler t fd : sig_at t p = S_write fd -> 0 <= signal_wake_fd p;
  pi_alive t : sig_at t p <> S_none -> alive t p = true;
  pi_poll : match emu_at p with
            | E_poll => smp p = true /\ stopped p = false /\
                (signal_received p = true -> 0 < wake_bytes (window p) \/ writing (sig_main p) || writing (sig_emu p) = true)
            | E_drain => smp p = true /\ 0 < wake_bytes (window p)
            | E_wake | E_done => should_exit (window p) = true
            | _ => True
            end;
  pi_exit : match main_at p with M_quit | M_join => should_exit (window p) = true | _ => True end }.

Lemma write_byte_inv p : write_open p = true ->
  exists n, write_byte p = p <| window := (window p) <| wake_bytes := n |> |> /\ (wake_bytes (window p) <= n) /\ (0 <= wake_bytes (window p) -> 0 < n).
Proof.
  intros H. unfold write_byte. rewrite H. destruct (Z.ltb_spec (wake_bytes (window p)) PIPE_CAPACITY).
  - exists (wake_bytes (window p) + 1). split; [done|lia].
  - exists (wake_bytes (window p)). split; [by destruct p as [? ? ? ? ? ? ? [] ? ? ? ? ? ? ?]|]. unfold PIPE_CAPACITY in *. lia.
Qed.

Lemma proc_start_inv several fds h : 0 <= fst fds -> 0 <= snd fds -> wake_bytes h = 0 -> wake_write_fd h = -1 ->
  exists rfd wfd, proc_inv rfd wfd (proc_start several fds h).
Proof.
  intros H1 H2 Hb Hw. destruct several; [exists (fst fds), (snd fds)|exists (-1), (-1)]; split; cbn; rewrite ?Hb, ?Hw; try done;
    try (by destruct fds); by intros [].
Qed.

(** While the window has the write end it is open. *)
Lemma window_end_open rfd wfd p : proc_inv rfd wfd p -> 0 <= wake_write_fd (window p) -> write_open p = true.
Proof.
  intros I H. rewrite (pi_write _ _ _ I). rewrite (pi_window _ _ _ I) in H. pose proof (pi_fds _ _ _ I) as F.
  unfold within in *. destruct (smp p); destruct (main_at p); cbn in *; try done; lia.
Qed.

Lemma wake_backend_only rfd wfd p : proc_inv rfd wfd p -> exists n, wake_bytes (window p) <= n /\ (0 <= wake_write_fd (window p) -> 0 < n) /\
  wake_backend p = p <| window := (window p) <| wake_bytes := n |> |>.
Proof.
  intros I. unfold wake_backend. destruct (Z.leb_spec 0 (wake_write_fd (window p))) as [Hf|Hf].
  - destruct (write_byte_inv p (window_end_open _ _ _ I Hf)) as (n & -> & ? & ?). exists n. split_and!; [done|intros; apply H0, (pi_bytes _ _ _ I)|done].
  - exists (wake_bytes (window p)). split_and!; [lia..|]. by destruct p as [? ? ? ? ? ? ? [] ? ? ? ? ? ? ?].
Qed.

(** Adding a byte keeps the invariant. *)
Lemma wake_backend_inv rfd wfd p : proc_inv rfd wfd p -> within 3 p 5 = true -> proc_inv rfd wfd (wake_backend p).
Proof.
  intros I H. destruct (wake_backend_only _ _ _ I) as (n & N1 & N2 & ->).
  destruct I as [A1 A2 A3 A4 A5 A6 A7 A8 A9 B1 B2 B3 B4 B5]. split; cbn; try done; [lia|]. destruct (emu_at p); try done.
  - destruct B4 as (X1 & X2 & X3). split_and!; try done. intros Hr. left. apply N2. rewrite A5. rewrite X1 in A1.
    unfold within in *. destruct A1, (main_at p); cbn in *; try done; lia.
  - destruct B4. split; [done|lia].
Qed.

(** ** Every step keeps the invariant *)

(** The state and its invariant field by field, and the parts of a new invariant. *)
Ltac open_inv I p :=
  let T := fresh in pose proof (conj (pi_handler _ _ _ I Main) (conj (pi_handler _ _ _ I Emu) (conj (pi_alive _ _ _ I Main) (pi_alive _ _ _ I Emu)))) as T;
  destruct I as [A1 A2 A3 A4 A5 A6 A7 A8 A9 B1 _ _ B4 B5];
  destruct p as [sm ma em s1 s2 sr sw [] [r w] ro wo st c f b]; cbn in *; destruct em; try done;
  cbn in *; subst; unfold within in *; cbn in *;
  repeat match goal with
         | H : (_, _) = (_, _) |- _ => injection H as ? ?
         | H : Some _ = Some _ |- _ => injection H as ?
         | sm : bool |- _ => match goal with H : if sm then _ else _ |- _ => destruct sm end
         | H : _ /\ _ |- _ => destruct H
         | H : context [if ?b then _ else _] |- _ => destruct b eqn:?; try done
         end; subst.
Ltac inv_parts :=
  split; try (match goal with |- forall t : thread, _ => intros [] end); cbn in *; unfold within in *; cbn in *; rewrite ?andb_true_r, ?andb_false_r, ?orb_false_r in *;
  try done; try lia; try congruence;
  try match goal with
      | H : ?f = true -> _ /\ _ |- ?f = true -> _ => let F := fresh in intros F; destruct (H F); congruence
      | H : _ -> ?s = S_none |- forall fd, ?s = S_write fd -> _ => by rewrite (H eq_refl)
      end.

(** A thread that has not started or has finished is not in the handler. *)
Lemma sig_idle rfd wfd t p : proc_inv rfd wfd p -> alive t p = false -> sig_at t p = S_none.
Proof. intros I H. destruct (sig_at t p) eqn:E; try done; assert (X := pi_alive _ _ _ I t); rewrite E in X; by rewrite X in H. Qed.

(** The window's loop is entered again after the user's quit. *)
Lemma inv_main_quit rfd wfd p : proc_inv rfd wfd p -> main_at p = M_quit -> proc_inv rfd wfd (p <| main_at := M_loop |>).
Proof. intros I H. open_inv I p; inv_parts. Qed.

Lemma main_step_inv rfd wfd e p p' : free Main p = true -> proc_inv rfd wfd p -> main_step e p = Some p' -> proc_inv rfd wfd p'.
Proof.
  intros Hf I. pose proof (wake_backend_inv rfd wfd p I) as HW. pose proof (sig_idle rfd wfd Emu p I) as HE.
  assert (HM : sig_main p = S_none) by (unfold free in Hf; apply andb_prop in Hf as [_ Hf]; cbn in Hf; by destruct (sig_main p)).
  unfold main_step, semu_close_wake_pipe. destruct (main_at p) eqn:Em, e; try done; intros Hs.
  7: { case_match; simplify_eq. apply HW. unfold within. by rewrite Em. }
  7: { simplify_eq. assert (HI : proc_inv rfd wfd (wake_backend p)) by (apply HW; unfold within; by rewrite Em).
       assert (Hm : main_at (wake_backend p) = M_quit) by (rewrite <- Em; unfold wake_backend, write_byte; by repeat case_match).
       apply inv_main_quit; done. }
  all: clear HW; cbn in *; open_inv I p; inv_parts.
Qed.

(** What the emulator thread changes while the main thread is in its loop. *)
Definition emu_state p (w : vinput_host) (st : bool) (c : nat) (x : emu_pc) : proc :=
  mk_proc (smp p) (main_at p) x (sig_main p) (sig_emu p) (signal_received p) (signal_wake_fd p) w
    (wake_fd p) (read_open p) (write_open p) st c (failed p) false.

Lemma emu_state_inv rfd wfd p w st c x :
  proc_inv rfd wfd p -> within 3 p 5 = true -> sig_emu p = S_none -> 
  wake_write_fd w = wake_write_fd (window p) -> 0 <= wake_bytes w -> (should_exit (window p) = true -> should_exit w = true) ->
  match x with
  | E_none => False
  | E_poll => smp p = true /\ st = false /\ signal_received p = false
  | E_drain => smp p = true /\ 0 < wake_bytes w
  | E_wake | E_done => should_exit w = true
  | _ => True
  end -> proc_inv rfd wfd (emu_state p w st c x).
Proof.
  intros I Hw Hs Hf Hb He Hx. pose proof (pi_handler _ _ _ I) as HH. pose proof (pi_alive _ _ _ I) as HA.
  destruct I as [A1 A2 A3 A4 A5 A6 A7 A8 A9 B1 _ _ B4 B5]. 
  assert (HF : failed p = true -> False).
  { intros F. destruct (B1 F) as [_ F']. unfold within in *. by destruct (main_at p). }
  split; cbn; try done; try lia; try congruence.
  - rewrite Hf. exact A5.
  - unfold within in *. cbn. destruct x; try done; by destruct (main_at p).
  - intros [] H; cbn in *; [exact (HA Main H)|congruence].
  - destruct x; try done. destruct Hx as (? & ? & Hx). by rewrite Hx.
  - destruct (main_at p); auto.
Qed.

(** A state that differs from [p] in nothing else. *)
Lemma emu_state_of rfd wfd p q : q = emu_state p (window q) (stopped q) (ctr q) (emu_at q) ->
  proc_inv rfd wfd (emu_state p (window q) (stopped q) (ctr q) (emu_at q)) -> proc_inv rfd wfd q.
Proof. by intros ->. Qed.
Ltac emu_change p := apply (emu_state_of _ _ p); [|apply emu_state_inv; cbn; auto].

(** A step of the emulator thread is such a change, or a wake-up. *)
Lemma emu_step_inv rfd wfd e p p' : free Emu p = true -> proc_inv rfd wfd p -> emu_step e p = Some p' -> proc_inv rfd wfd p'.
Proof.
  intros Hf I. pose proof (wake_backend_inv rfd wfd p I) as HW.
  unfold free in Hf. apply andb_prop in Hf as [Ha Hf]. cbn in Ha, Hf. assert (HM : sig_emu p = S_none) by (by destruct (sig_emu p)).
  pose proof (pi_emu _ _ _ I) as HE. pose proof (pi_poll _ _ _ I) as HP. pose proof (pi_bad _ _ _ I) as HB. pose proof (pi_bytes _ _ _ I) as HN.
  assert (HR : smp p = true -> within 3 p 5 = true -> read_open p = true).
  { intros S W. rewrite (pi_read _ _ _ I), S. unfold within in *. by destruct (main_at p). }
  unfold emu_step, drain_wake. destruct (emu_at p) as [| | | |[|k]| | |] eqn:Em, e; try done; intros Hs.
  all: repeat match goal with
       | H : context [if 0 <? ?z then _ else _] |- _ => destruct (Z.ltb_spec 0 z); try done
       | H : context [if ?b then _ else _] |- _ => destruct b eqn:?; try done
       | H : Some _ = Some _ |- _ => injection H as <- end.
  all: rewrite ?HR by tauto.
  11: { destruct (wake_backend_only _ _ _ I) as (n & Hn & _ & ->). emu_change p; [destruct p; cbn in *; by subst|lia]. }
  8: { unfold tick. destruct (ctr p) eqn:Ec; emu_change p; [destruct p; cbn in *; by subst..]. }
  all: emu_change p; try (destruct p; cbn in *; by subst); try lia.
  all: try (split; [tauto|lia]). apply orb_false_elim in Heqb as [? ?]. auto.
Qed.

(** What the handler changes on a thread that is alive. *)
Lemma sig_state_inv rfd wfd t p x sr n (q := sig_goto t x (p <| signal_received := sr |> <| window := (window p) <| wake_bytes := n |> |>)) :
  proc_inv rfd wfd p -> alive t p = true -> wake_bytes (window p) <= n -> (forall fd, x = S_write fd -> 0 <= signal_wake_fd p) ->
  (emu_at p = E_poll -> sr = true -> 0 < n \/ writing (sig_main q) || writing (sig_emu q) = true) -> proc_inv rfd wfd q.
Proof.
  intros [A1 A2 A3 A4 A5 A6 A7 A8 A9 B1 B2 B3 B4 B5] Ha Hn Hx Hp. subst q. destruct t; split; cbn in *; try done; try lia.
  all: try (intros [] ?; cbn; [try done; by apply (B3 Main)|try done; by apply (B3 Emu)]).
  all: try (intros [] fd; cbn; first [by apply Hx|apply (B2 Main)|apply (B2 Emu)]).
  all: destruct (emu_at p); try done; [destruct B4 as (? & ? & ?); auto|destruct B4; split; [done|lia]].
Qed.

Lemma proc_same p : p <| signal_received := signal_received p |> <| window := (window p) <| wake_bytes := wake_bytes (window p) |> |> = p.
Proof. by destruct p as [? ? ? ? ? ? ? [] ? ? ? ? ? ? ?]. Qed.

Lemma sig_goto_inv rfd wfd t p x :
  proc_inv rfd wfd p -> alive t p = true -> (forall fd, x = S_write fd -> 0 <= signal_wake_fd p) ->
  (emu_at p = E_poll -> signal_received p = true ->
   0 < wake_bytes (window p) \/ writing (sig_main (sig_goto t x p)) || writing (sig_emu (sig_goto t x p)) = true) -> proc_inv rfd wfd (sig_goto t x p).
Proof.
  intros I Ha Hx Hp. rewrite <- (proc_same p). apply sig_state_inv; try done. intros He Hr. destruct (Hp He Hr) as [H|H]; [by left|right].
  by destruct t.
Qed.

Lemma sig_writing t x p : writing x = true -> writing (sig_main (sig_goto t x p)) || writing (sig_emu (sig_goto t x p)) = true.
Proof. destruct t; cbn; intros ->; [done|apply orb_true_r]. Qed.

Lemma signal_inv rfd wfd t p : proc_inv rfd wfd p -> free t p = true -> proc_inv rfd wfd (sig_goto t S_flag p).
Proof.
  intros I Hf. apply andb_prop in Hf as [Ha Hs]. pose proof (pi_poll _ _ _ I) as HP.
  apply sig_goto_inv; try done. intros He Hr. rewrite He in HP. destruct HP as (_ & _ & HP). destruct (HP Hr) as [H|H]; [by left|].
  right. destruct t; cbn in *; [by destruct (sig_main p)|]. destruct (sig_emu p); try done.
Qed.

(** The write end is open while a handler is about to write. *)
Lemma signal_end_open rfd wfd t fd p : proc_inv rfd wfd p -> sig_at t p = S_write fd -> write_open p = true.
Proof.
  intros I H. pose proof (pi_handler _ _ _ I t fd H) as F. rewrite (pi_signal _ _ _ I) in F. rewrite (pi_write _ _ _ I).
  pose proof (pi_fds _ _ _ I). unfold within in *. destruct (smp p), (main_at p); cbn in *; try done; lia.
Qed.

(** The handler: the flag first, so a thread in [poll] is woken or about to be. *)
Lemma handler_step_inv rfd wfd t p p' : proc_inv rfd wfd p -> handler_step t p = Some p' -> proc_inv rfd wfd p'.
Proof.
  intros I. unfold handler_step. destruct (sig_at t p) eqn:Es; try done; intros Hs; injection Hs as <-.
  all: assert (Ha : alive t p = true) by (apply (pi_alive _ _ _ I); by rewrite Es).
  - replace (p <| signal_received := true |>) with (p <| signal_received := true |> <| window := (window p) <| wake_bytes := wake_bytes (window p) |> |>)
      by (by destruct p as [? ? ? ? ? ? ? [] ? ? ? ? ? ? ?]).
    apply sig_state_inv; try done. intros _ _. right. by apply sig_writing.
  - pose proof (pi_poll _ _ _ I) as HP. pose proof (pi_signal _ _ _ I) as HS. pose proof (pi_emu _ _ _ I) as HE. pose proof (pi_fds _ _ _ I) as HF.
    destruct (Z.leb_spec 0 (signal_wake_fd p)) as [Hd|Hd]; (apply sig_goto_inv; try done); intros He Hr.
    + right. by apply sig_writing.
    + rewrite He in *. destruct HP as (Hsm & _). rewrite Hsm in HF. rewrite HS in Hd. unfold within in *. destruct (main_at p); cbn in *; try done; lia.
  - destruct (write_byte_inv p (signal_end_open _ _ _ _ _ I Es)) as (n & -> & N1 & N2).
    replace (p <| window := (window p) <| wake_bytes := n |> |>) with (p <| signal_received := signal_received p |> <| window := (window p) <| wake_bytes := n |> |>)
      by (by destruct p as [? ? ? ? ? ? ? [] ? ? ? ? ? ? ?]).
    apply sig_state_inv; try done. intros _ _. left. apply N2, (pi_bytes _ _ _ I).
Qed.

Theorem proc_step_inv rfd wfd p p' : proc_inv rfd wfd p -> proc_step p p' -> proc_inv rfd wfd p'.
Proof.
  intros I []; [by eapply main_step_inv|by eapply emu_step_inv|by apply signal_inv|by eapply handler_step_inv].
Qed.

(** ** What is reachable *)

(** [main] up to the installation of the handlers leaves a window without a pipe. *)
Definition reachable p : Prop :=
  exists several fds h, 0 <= fst fds /\ 0 <= snd fds /\ wake_bytes h = 0 /\ wake_write_fd h = -1 /\ rtc proc_step (proc_start several fds h) p.

Lemma reachable_proc_inv p : reachable p -> exists rfd wfd, proc_inv rfd wfd p.
Proof.
  intros (several & fds & h & H1 & H2 & H3 & H4 & Hr). destruct (proc_start_inv several fds h) as (rfd & wfd & I); try done.
  exists rfd, wfd. induction Hr as [|p q r Hs _ IH]; [done|]. apply IH. by eapply proc_step_inv.
Qed.

(** C39: Whatever the interleaving of the window's thread, the emulator's thread and
    the signal handler: no byte is written to, read from and no close is made of a
    descriptor that is closed; when [main] is past its loop the emulator's thread is
    over (or was never created), no handler is running, both ends of the pipe are closed
    and neither the handler nor the window still names them; the blocking [read] of the
    pipe always finds a byte; and a signal is never lost: an emulator about to block in
    [poll] after the flag was set has a byte to wake it, or the handler is about to
    write one. *)
Theorem shutdown_safe p : reachable p ->
  bad_fd p = false /\
  (main_at p = M_done ->
     (emu_at p = E_done \/ failed p = true /\ emu_at p = E_none) /\ sig_main p = S_none /\ sig_emu p = S_none /\
     read_open p = false /\ write_open p = false /\ wake_fd p = (-1, -1) /\ signal_wake_fd p = -1 /\ wake_write_fd (window p) = -1) /\
  (emu_at p = E_drain -> 0 < wake_bytes (window p)) /\
  (emu_at p = E_poll -> signal_received p = true -> 0 < wake_bytes (window p) \/ writing (sig_main p) || writing (sig_emu p) = true).
Proof.
  intros (rfd & wfd & I)%reachable_proc_inv. pose proof (pi_poll _ _ _ I) as HP. split_and!.
  - apply I.
  - intros Hd. pose proof (sig_idle _ _ Main p I) as Hm. pose proof (sig_idle _ _ Emu p I) as He.
    destruct I as [A1 A2 A3 A4 A5 A6 A7 A8 A9 B1 _ _ B4 B5]. unfold within, alive in *. rewrite Hd in *. cbn in *.
    rewrite andb_false_r in *. split_and!; try done.
    + destruct (emu_at p); try done; [right|by left]. by destruct (failed p).
    + by apply Hm.
    + apply He. by destruct (emu_at p).
  - intros He. rewrite He in HP. apply HP.
  - intros He. rewrite He in HP. by apply HP.
Qed.

(** ** The end *)

(** The program at work on its own: no new signal and no user. Every return of [poll] for
    another reason than the pipe, if [timer] allows one, and every round of a single hart
    come with at least one tick. *)
Inductive work (timer : bool) p : proc -> Prop :=
  | work_main p' : free Main p = true -> main_step Plain p = Some p' -> work timer p p'
  | work_emu e p' : free Emu p = true -> emu_step e p = Some p' ->
      match e with Plain => True | Ticks k => smp p = true \/ (1 <= k)%nat | Event k => timer = true /\ (1 <= k)%nat | _ => False end ->
      work timer p p'
  | work_handler t p' : handler_step t p = Some p' -> work timer p p'.

(** The end is asked for: by a signal, by the guest, or by the window, which the
    emulator notices in a tick. *)
Definition seen p : bool := stopped p || signal_received p.
Definition ending (timer : bool) p : bool := seen p || timer && window_is_closed_sw (window p).

Definition main_left (x : main_pc) : nat :=
  match x with
  | M_publish => 11 | M_window_fd => 10 | M_create => 9 | M_quit => 8 | M_loop => 7 | M_join => 6
  | M_close_signal => 5 | M_close_window => 4 | M_close_read => 3 | M_close_write => 2 | M_cleanup => 1 | M_done => 0
  end.
Definition sig_left (x : sig_pc) : nat := match x with S_none => 0 | S_flag => 3 | S_read => 2 | S_write _ => 1 end.
Definition emu_left (s : bool) (x : emu_pc) : nat :=
  match x with
  | E_none => 11 | E_flag => 4 | E_wake => 3 | E_done => 0
  | E_poll => if s then 8 else 10 | E_drain => if s then 7 else 10 | E_run _ => if s then 6 else 10 | E_test => if s then 5 else 10
  end.

(** How far the end is: the threads and handlers first, then the ticks, then the rounds. *)
Definition phases p : nat :=
  main_left (main_at p) + sig_left (sig_main p) + sig_left (sig_emu p) + emu_left (seen p) (emu_at p).
Definition ticks_left p : nat :=
  match emu_at p with
  | E_run k => if seen p then k else match k with O => 2 * ctr p + 1 | _ => 2 * ctr p end
  | _ => if seen p then 0 else 2 * ctr p + 1
  end.
Definition rounds_left p : nat :=
  4 * (2 * Z.to_nat (wake_bytes (window p)) + match emu_at p with E_drain => 0 | _ => 1 end)
  + match emu_at p with E_run _ => 2 | E_test => 1 | _ => 0 end.

Lemma acc_lex3 {T} (R : relation T) (P : T -> Prop) (a b c : T -> nat) :
  (forall x y, P x -> R x y -> P y /\ (a y < a x \/ a y = a x /\ (b y < b x \/ b y = b x /\ c y < c x))%nat) ->
  forall x, P x -> Acc (flip R) x.
Proof.
  intros H. assert (X : forall i j k x, a x = i -> b x = j -> c x = k -> P x -> Acc (flip R) x); [|intros x; by apply (X (a x) (b x) (c x))].
  intros i. induction (lt_wf i) as [i _ IHi]. intros j. induction (lt_wf j) as [j _ IHj]. intros k. induction (lt_wf k) as [k _ IHk].
  intros x <- <- <- Hx. constructor. intros y Hy. destruct (H x y Hx Hy) as [Py [D|[Ea [D|[Eb D]]]]].
  - by eapply (IHi (a y)).
  - by eapply (IHj (b y)).
  - by eapply (IHk (c y)).
Qed.

Lemma emu_left_seen s x : (emu_left true x <= emu_left s x)%nat.
Proof. destruct s, x; cbn; lia. Qed.

Lemma handler_left timer t p p' : handler_step t p = Some p' -> ending timer p = true -> ending timer p' = true /\ (phases p' < phases p)%nat.
Proof.
  pose proof (emu_left_seen (seen p) (emu_at p)) as HL. unfold handler_step, write_byte, ending, phases, seen in *.
  destruct t; cbn; [destruct (sig_main p) eqn:Es|destruct (sig_emu p) eqn:Es]; try done; intros Hs; injection Hs as <-.
  all: repeat case_match; cbn; rewrite ?Es, ?orb_true_r; cbn; intros He; (split; [done|]); lia.
Qed.

Lemma main_left_step timer p p' : main_step Plain p = Some p' -> 
  (emu_at p = E_none \/ main_at p <> M_create) -> ending timer p = true -> ending timer p' = true /\ (phases p' < phases p)%nat.
Proof.
  unfold main_step, semu_close_wake_pipe, wake_backend, write_byte, ending, phases. intros Hs He. destruct (main_at p) eqn:Em; try done.
  all: repeat case_match; try done; injection Hs as <-; unfold seen, window_is_closed_sw, window_set_wake_fd_sw in *; cbn in *; intros Hn; (split; [congruence|]); rewrite ?Em; cbn; try lia.
  - destruct He as [->|]; [|done]. cbn. case_match; lia.
  - match goal with H : emu_at p = _ |- _ => rewrite H end. cbn. lia.
Qed.

(** The emulator's thread: a phase less, or a tick, or a round. *)
Lemma emu_left_step timer e p p' : emu_step e p = Some p' -> 0 <= wake_bytes (window p) ->
  match e with Plain => True | Ticks k => smp p = true \/ (1 <= k)%nat | Event k => timer = true /\ (1 <= k)%nat | _ => False end ->
  ending timer p = true -> ending timer p' = true /\
  (phases p' < phases p \/ phases p' = phases p /\ (ticks_left p' < ticks_left p \/ ticks_left p' = ticks_left p /\ rounds_left p' < rounds_left p))%nat.
Proof.
  intros Hs Hb He Hn. destruct p as [sm ma em s1 s2 sr sw [qs pd wf nb hd se mg si] wk ro wo st c f b].
  unfold ending, phases, ticks_left, rounds_left, seen, window_is_closed_sw in *. cbn in Hn, Hb |- *.
  destruct em as [| | | |[|k]| | |], e as [| | |j|j| |]; try done; cbn in Hs, He; unfold drain_wake, wake_backend, write_byte, tick in Hs; cbn in Hs.
  all: assert (Hx : st || sr = true \/ timer = true /\ se = true /\ st = false /\ sr = false) by (destruct st, sr, timer, se; auto).
  all: repeat match goal with
       | H : context [if 0 <? ?z then _ else _] |- _ => destruct (Z.ltb_spec 0 z); try done
       | H : context [if ?b then _ else _] |- _ => destruct b eqn:?; try done
       | H : context [match ?n with O => _ | S _ => _ end] |- _ => is_var n; destruct n
       | H : Some _ = Some _ |- _ => injection H as <- end; cbn in *.
  all: generalize dependent (main_left ma + sig_left s1 + sig_left s2)%nat; intros M.
  all: split; destruct Hx as [Hx|(-> & -> & -> & ->)]; cbn in *; rewrite ?Hx, ?orb_true_r; try done; try lia.
  all: first [destruct He; [done|]|idtac]; first [destruct j; lia|destruct k; lia|by destruct st, se, sr|destruct st, se, sr; cbn in *; try done; lia].
Qed.

(** Once the emulator's thread is over, or before it exists, the main thread can go on. *)
Lemma main_ready rfd wfd p : proc_inv rfd wfd p -> alive Emu p = false -> main_at p <> M_done -> is_Some (main_step Plain p).
Proof.
  intros I Ha Hn. pose proof (pi_emu _ _ _ I) as HE. pose proof (pi_poll _ _ _ I) as HP. unfold main_step, semu_close_wake_pipe, within, window_is_closed_sw in *.
  cbn in Ha. destruct (emu_at p); try done; destruct (main_at p); cbn in *; try done; rewrite ?andb_false_r in *; try done; by rewrite HP.
Qed.

(** With the end asked for, the emulator's thread is not stuck outside the handler. *)
Lemma emu_ready rfd wfd timer p : proc_inv rfd wfd p -> ending timer p = true -> alive Emu p = true -> sig_main p = S_none -> sig_emu p = S_none ->
  exists e, is_Some (emu_step e p) /\ (e = Plain \/ e = Ticks 1 \/ timer = true /\ e = Event 1).
Proof.
  intros I He Ha S1 S2. pose proof (pi_poll _ _ _ I) as HP. rewrite S1, S2 in HP. cbn in Ha. unfold emu_step, drain_wake.
  destruct (emu_at p) as [| | | |[|k]| | |]; try done; try (exists Plain; by eauto).
  - exists (Ticks 1). split; [case_match; eauto|auto].
  - destruct HP as (_ & Hs & HP). unfold ending, seen in He. rewrite Hs in He. destruct (signal_received p).
    + exists Plain. destruct (HP eq_refl) as [Hb|]; [|done]. apply Z.ltb_lt in Hb. rewrite Hb. eauto.
    + exists (Event 1). destruct timer; [|done]. eauto 10.
  - exists (Ticks 1). destruct HP as [_ Hb]. apply Z.ltb_lt in Hb. rewrite Hb. eauto.
Qed.

(** Where nothing more can be done both threads are over. *)
Lemma work_progress rfd wfd timer p : proc_inv rfd wfd p -> ending timer p = true ->
  main_at p = M_done /\ alive Emu p = false \/ exists q, work timer p q.
Proof.
  intros I He. destruct (handler_step Main p) as [q|] eqn:E1; [right; exists q; by eapply work_handler|].
  destruct (handler_step Emu p) as [q|] eqn:E2; [right; exists q; by eapply work_handler|].
  assert (S1 : sig_main p = S_none) by (unfold handler_step in E1; cbn in E1; by destruct (sig_main p)).
  assert (S2 : sig_emu p = S_none) by (unfold handler_step in E2; cbn in E2; by destruct (sig_emu p)).
  destruct (alive Emu p) eqn:Ha.
  - right. destruct (emu_ready _ _ _ _ I He Ha S1 S2) as (e & [q Hq] & Hc). exists q. apply (work_emu _ _ e); [|done|].
    + unfold free. rewrite Ha. cbn. by rewrite S2.
    + destruct Hc as [->|[->|[-> ->]]]; auto.
  - destruct (decide (main_at p = M_done)) as [|Hn]; [by left|right]. destruct (main_ready _ _ _ I Ha Hn) as [q Hq]. exists q.
    apply work_main; [|done]. unfold free. cbn. rewrite S1. by destruct (main_at p).
Qed.

(** Every step on the way keeps the invariant and comes nearer to the end. *)
Lemma work_left rfd wfd timer p q : proc_inv rfd wfd p /\ ending timer p = true -> work timer p q ->
  (proc_inv rfd wfd q /\ ending timer q = true) /\
  (phases q < phases p \/ phases q = phases p /\ (ticks_left q < ticks_left p \/ ticks_left q = ticks_left p /\ rounds_left q < rounds_left p))%nat.
Proof.
  intros [I He] [p' Hf Hs|e p' Hf Hs Hc|t p' Hs].
  - destruct (main_left_step timer p p' Hs) as [E D]; [|done|split; [split; [by eapply main_step_inv|done]|by left]].
    pose proof (pi_emu _ _ _ I) as HE. unfold within in HE. destruct (main_at p); auto. destruct (emu_at p); auto.
  - destruct (emu_left_step timer e p p' Hs (pi_bytes _ _ _ I) Hc He) as [E D]. split; [split; [by eapply emu_step_inv|done]|done].
  - destruct (handler_left timer t p p' Hs He) as [E D]. split; [split; [by eapply handler_step_inv|done]|by left].
Qed.


(** ** Runs *)

Inductive move := Do (t : thread) (e : event) | Signal (t : thread) | Handle (t : thread).

Definition make (m : move) p : option proc :=
  match m with
  | Do Main e => if free Main p then main_step e p else None
  | Do Emu e => if free Emu p then emu_step e p else None
  | Signal t => if free t p then Some (sig_goto t S_flag p) else None
  | Handle t => handler_step t p
  end.
Fixpoint play (ms : list move) p : option proc :=
  match ms with [] => Some p | m :: ms => match make m p with Some p => play ms p | None => None end end.

Lemma play_steps ms p q : play ms p = Some q -> rtc proc_step p q.
Proof.
  revert p. induction ms as [|m ms IH]; cbn; intros p H; [simplify_eq; constructor|]. destruct (make m p) as [r|] eqn:Em; [|done].
  apply rtc_l with r; [|by apply IH]. destruct m as [[] e|t|t]; cbn in Em; repeat case_match; simplify_eq; by econstructor.
Qed.

(** Two harts, the pipe on descriptors 3 and 4. *)
Definition window_at_start : vinput_host := mk_vhost [] false (-1) 0 false false false true.
Abbreviation smp_start := (proc_start true (3, 4) window_at_start).

Lemma play_reachable ms p : play ms smp_start = Some p -> reachable p.
Proof. intros H. exists true, (3, 4), window_at_start. split_and!; try done. by eapply play_steps. Qed.

(** The threads start; the peripherals tick once; the emulator waits in [poll]. *)
Definition begin_moves : list move :=
  [Do Main Plain; Do Main Plain; Do Main Plain; Do Emu (Ticks 0); Do Emu (Event 1); Do Emu Plain; Do Emu Plain; Do Emu (Ticks 0)].
(** The user closes the window; the byte is read and the peripherals tick twice. *)
Definition close_moves : list move :=
  [Do Main Quit; Do Main Plain; Do Main Plain; Do Emu Plain; Do Emu (Ticks 2); Do Emu Plain; Do Emu Plain; Do Emu Plain; Do Emu (Ticks 0)].
(** A signal, handled by the main thread while the emulator waits; both threads end. *)
Definition signal_moves : list move := [Signal Main; Handle Main; Handle Main; Handle Main].
Definition end_moves : list move :=
  [Do Emu Plain; Do Emu (Ticks 0); Do Emu Plain; Do Emu (Ticks 0); Do Emu Plain; Do Emu Plain;
   Do Main Plain; Do Main Plain; Do Main Plain; Do Main Plain; Do Main Plain; Do Main Plain; Do Main Plain].

(** One wake byte is not enough to make the emulator notice a closed window: the
    peripherals look at the window once in 65 ticks only. Without the timer the emulator
    then waits in [poll] and the main thread waits for it. *)
Lemma one_wake_byte_not_enough : exists p, reachable p /\
  window_is_closed_sw (window p) = true /\ main_at p = M_join /\ emu_at p = E_poll /\ forall q, ~ work false p q.
Proof.
  destruct (play (begin_moves ++ close_moves) smp_start) as [p|] eqn:E; [|by vm_compute in E]. exists p. split; [by eapply play_reachable|].
  vm_compute in E. injection E as <-. split_and!; try done. intros q [p' _ Hs|e p' _ Hs Hc|t p' Hs]; [done| |by destruct t].
  destruct e; try done. by destruct Hc.
Qed.

(** The whole run, with the handler on the main thread. *)
Lemma shutdown_safe_witness : exists p, play (begin_moves ++ signal_moves ++ end_moves) smp_start = Some p /\
  main_at p = M_done /\ emu_at p = E_done /\ bad_fd p = false /\ write_open p = false /\ signal_wake_fd p = -1.
Proof.
  eexists. split; [vm_compute; reflexivity|]. split; [done|]. 
  match goal with |- context [bad_fd ?p] =>
    destruct (shutdown_safe p (play_reachable (begin_moves ++ signal_moves ++ end_moves) p eq_refl)) as (H1 & H2 & _) end.
  destruct (H2 eq_refl) as ([H|[H _]] & _ & _ & _ & Hw & _ & Hs & _); [by split_and!|done].
Defined.

