(* ===== verification/Sim.v ===== *)
(** * A concrete machine

    A host whose clock is a counter, whose terminal accepts every byte and whose
    entropy is constant, and a booted single-hart machine on it. It instantiates
    the classes the theorems are proved against ([Host], [Coro], [NoCoro],
    [HostWrite], and through them [BusLaws]) and serves as the concrete input of
    the closed instances of the theorems about whole machines. *)

From stdpp Require Import base gmap list.
From Stdlib Require Import ZArith Lia Bool.
From Stdlib Require Import Floats.SpecFloat.
From S2P Require Import Prelude Bits Isa Hart Machine Mmu Csr Exec Arch RamProps Tlb TlbStore.
From S2P Require Import HartProps CsrProps ExecProps Loops Device Timer Plic Aclint Uart.
From S2P Require Import UartProps Virtio VirtioBlk VirtioRng VirtioProps Platform Atomics.
From S2P Require Import PlatformLaws Emulator SbiProps LoopProps Coro CoroProps Boot BootProps.
Open Scope Z_scope.

Record sim_host := mk_sim { sim_in : list Z; sim_out : list Z; sim_clock : Z; sim_exited : bool }.

#[export] Instance sim_Host : Host sim_host := {
  poll_in e := (match sim_in e with [] => false | _ => true end, e);
  sys_write l e := (Z.of_nat (length l), mk_sim (sim_in e) (sim_out e ++ l) (sim_clock e) (sim_exited e));
  read_byte e :=
    match sim_in e with
    | [] => (None, e)
    | b :: l => (Some b, mk_sim l (sim_out e) (sim_clock e) (sim_exited e))
    end;
  getchar e :=
    match sim_in e with
    | [] => (-1, e)
    | b :: l => (b, mk_sim l (sim_out e) (sim_clock e) (sim_exited e))
    end;
  sys_exit e := mk_sim (sim_in e) (sim_out e) (sim_clock e) true;
  clock_gettime e :=
    ((sim_clock e / 1000, sim_clock e mod 1000 * 1000000),
     mk_sim (sim_in e) (sim_out e) (sim_clock e + 1) (sim_exited e));
  read_entropy n e := (replicate (Z.to_nat n) 0xA5, e) }.

#[export] Instance sim_Coro : Coro sim_host := {
  coro_current_hart_id _ := 0xFFFFFFFF;
  coro_yield s := s }.

#[export] Instance sim_NoCoro : NoCoro sim_host.
Proof. intros e. reflexivity. Qed.

#[export] Program Instance sim_HostWrite : HostWrite sim_host := {| sent := sim_out |}.
Next Obligation. intros l e. cbn. lia. Qed.
Next Obligation. intros l e. cbn. by rewrite Nat2Z.id, take_ge. Qed.

Definition sim_dev (n : nat) (e : sim_host) : emu_state_t sim_host :=
  mk_emu false 0
    (mk_plic 0 0 (replicate 32 0) 0)
    (mk_uart 0 0 0 0 0 0 0 false (replicate 128 0) 0 0 false)
    (virtio_blk_init ∅ 4096)
    (zero_virtio 1)
    (mk_mtimer (replicate n 0) (Z.of_nat n) (mk_timer 0 CLOCK_FREQ))
    (mk_mswi (replicate n 0) (Z.of_nat n))
    (mk_sswi (replicate n 0) (Z.of_nat n))
    0 0 false
    (mk_tstatic (double_of 0) (double_of 0) 0 0 true)
    e.

(** A root page table at page 1 that maps the virtual page 0x400 (through its
    second-level table at page 2) to the physical page 3, read/write/user. *)
Definition sim_ram : gmap Z Z :=
  <[1025 := 2 * 1024 + 1]> (<[2048 := 3 * 1024 + 0x17]> (<[3072 := 0xCAFE]> ∅)).

Definition user_paged (h : hart_t) : hart_t := h <| page_table := Some 4096 |> <| s_mode := false |>.
Definition sim_hart0 : hart_t := user_paged (new_hart 0).

Definition sim_machine (h : hart_t) (ps : list hart_t) : machine (emu_state_t sim_host) :=
  mk_machine h ps sim_ram 0x7f0000000000 false true 0
    (sim_dev (length ps) (mk_sim [0x41] [] 5000 false)).

(** One hart in U-mode with paging on, nothing cached. *)
Definition sim1 : machine (emu_state_t sim_host) := sim_machine sim_hart0 [sim_hart0].
(** Two harts with paging off. *)
Definition sim2 : machine (emu_state_t sim_host) := sim_machine (new_hart 0) [new_hart 0; new_hart 1].

Lemma sim_ram_ok : ram_ok sim_ram.
Proof.
  intros i. unfold sim_ram. rewrite !word_insert.
  repeat case_decide; try (apply is_u32b_true; vm_compute; reflexivity).
  all: try (split; lia).
Qed.

Lemma user_paged_tlb h : same_tlb h (user_paged h).
Proof. unfold same_tlb. split_and!; reflexivity. Qed.

Lemma sim1_coherent : coherent sim1.
Proof.
  split.
  - split; [exact sim_ram_ok|]. intros pt Hpt. exists 1.
    assert (Some 4096 = Some pt) as [= <-] by exact Hpt. split; [|reflexivity].
    change (RAM_SIZE / 4096) with 131072. lia.
  - split; [|split]; vm_compute; congruence.
  - split; [reflexivity|]. split; [reflexivity|]. split; left; reflexivity.
  - exact (tlb_empty_ok _ _ _ _ (tlb_empty_same _ _ (user_paged_tlb _) (new_hart_empty 0))).
Qed.

(** ** Closed instances *)

Lemma mmu_load_refines_walk_witness :
  fst (mmu_load 0x400000 RV_MEM_LW false sim1) = Some 0xCAFE /\
  archr (mmu_load 0x400000 RV_MEM_LW false sim1) = archr (ref_load 0x400000 RV_MEM_LW false sim1).
Proof.
  split; [vm_compute; reflexivity|].
  apply (mmu_load_refines_walk 0x400000 RV_MEM_LW false sim1 sim1_coherent); [split; lia|reflexivity].
Defined.

Lemma mmu_load_coherent_witness : coherent (snd (mmu_load 0x400000 RV_MEM_LW false sim1)).
Proof.
  apply (mmu_load_coherent 0x400000 RV_MEM_LW false sim1 sim1_coherent); [split; lia|reflexivity].
Defined.

Lemma mmu_store_refines_walk_witness :
  rd32 (snd (mmu_store 0x400000 RV_MEM_SW 0xBEEF false sim1)) 0x3000 = 0xBEEF /\
  archr (mmu_store 0x400000 RV_MEM_SW 0xBEEF false sim1)
  = archr (ref_store 0x400000 RV_MEM_SW 0xBEEF false sim1).
Proof.
  split; [vm_compute; reflexivity|].
  apply (mmu_store_refines_walk 0x400000 RV_MEM_SW 0xBEEF false sim1 sim1_coherent);
    [split; lia|reflexivity].
Defined.


Lemma plic_update_signals_witness :
  let s := set_line true 2 (on_plic (fun p => p <| ie := arr_set (ie p) 1 2 |>) sim2) in
  Z.testbit (sip (hart_at (plic_update_interrupts s) 1)) RV_INT_SEI = true.
Proof.
  cbv zeta. set (s := set_line _ _ _).
  assert (H1 : 0 <= 1 < n_hart s) by (vm_compute; split; congruence).
  assert (H2 : plic_u32 (plic (dev s))).
  { unfold plic_u32. split_and!; try (apply is_u32b_true; vm_compute; reflexivity).
    apply Forall_u32b. vm_compute. reflexivity. }
  assert (H3 : is_u32 (sip (hart_at s 1))) by (apply is_u32b_true; vm_compute; reflexivity).
  rewrite (proj1 (plic_update_signals s 1 H1 H2 H3)). vm_compute. reflexivity.
Defined.

Lemma mtimecmp_roundtrip_witness :
  let s' := aclint_mtimer_write (8 * 1 + 4) RV_MEM_SW 7 (aclint_mtimer_write (8 * 1) RV_MEM_SW 9 sim2) in
  cmp_at s' 1 = 7 * 2 ^ 32 + 9.
Proof.
  apply (mtimecmp_roundtrip sim2 1 9 7); try (split; [lia|reflexivity]).
  split; [reflexivity|]. split; [vm_compute; congruence|]. cbn. repeat constructor; lia.
Defined.

Lemma uart_output_fifo_witness :
  let '(u', e') := handle_out 0x41 (uart (dev sim1)) (host (dev sim1)) in uart_ok u'.
Proof.
  generalize (uart_output_fifo 0x41 (uart (dev sim1)) (host (dev sim1))).
  destruct (handle_out _ _ _) as [u' e']. intros H. apply H.
  split; [reflexivity|vm_compute; split; congruence].
Defined.

Lemma platform_implements_bus_witness : BusLaws (emu_state_t sim_host).
Proof. exact platform_implements_bus. Defined.

(** A store word and a user-mode CSR read. *)
Lemma dispatch_refines_interpreter_witness :
  snd (dispatch 0x00A00093 sim2) = snd (vm_execute_insn 0x00A00093 sim2) /\
  xreg (snd (dispatch 0x00A00093 sim2)) 1 = 10.
Proof.
  split; [|vm_compute; reflexivity].
  exact (proj2 (dispatch_refines_interpreter 0x00A00093 sim2 eq_refl)).
Defined.

Lemma user_csr_denied_witness :
  op_system (decode_insn 0x100022F3) sim1 = raise RV_EXC_ILLEGAL_INSN 0 sim1.
Proof.
  apply (user_csr_denied (decode_insn 0x100022F3) sim1); [reflexivity|reflexivity| |].
  - vm_compute. right. left.
  - vm_compute. intros H. repeat (apply elem_of_cons in H as [H|H]; [done|]). by apply elem_of_nil in H.
Defined.

Lemma csr_write_read_back_witness :
  csr_read_s (hart (csr_write RV_CSR_STVEC 0x80001003 sim2)) RV_CSR_STVEC = Some 0x80001001.
Proof.
  apply (csr_write_read_back RV_CSR_STVEC 0x80001003 sim2); [|split; lia|reflexivity].
  unfold s_csrs. rewrite !elem_of_cons. tauto.
Defined.

Lemma user_mode_contained_witness : s_mode (hart (op_privileged 0x10200073 sim1)) = false.
Proof.
  assert (H : mode_ok (hart sim1)) by (intros _; reflexivity).
  destruct (user_mode_contained sim1 H) as (_ & _ & _ & K). apply K. reflexivity.
Defined.

(** JAL x0, 0 at address 0: one instruction per step. *)
Definition sim_spin : machine (emu_state_t sim_host) := sim2 <| ram := {[0 := 0x6F]} |>.

Lemma sim_spin_step : error (hart (snd (vm_step_many 1 sim_spin))) = ERR_NONE.
Proof. vm_compute. reflexivity. Qed.

Lemma step_chunk_returns_witness : exists r, semu_step_chunk 2 1 sim_spin = Some r.
Proof.
  apply (step_chunk_returns 1 sim_spin); [lia|]. intros steps s Hr Hp.
  inversion Hr as [|x y z Hxy]; subst; [vm_compute; reflexivity|].
  pose proof sim_spin_step as He. inversion Hxy as [? ? n s1 _ Hv Hx|? ? n s1 _ Hv Hx]; subst;
    rewrite Hv in He; cbn [snd] in He; congruence.
Defined.

(** A hart that has jumped to its trap vector outside RAM. *)
Definition lost_hart : hart_t :=
  (new_hart 0) <| pc := 0xE0000000 |> <| stvec_addr := 0xE0000000 |>.
Definition sim_lost : machine (emu_state_t sim_host) := sim_machine lost_hart [lost_hart].

Lemma step_chunk_livelock_witness : semu_step_chunk 1000 512 sim_lost = None.
Proof.
  apply (step_chunk_livelock 0xE0000000 512 sim_lost 1000); [lia|].
  split; vm_compute; congruence.
Defined.

Lemma smp_poll_plan_watches_witness :
  smp_poll_plan [new_hart 0; new_hart 1] (dev sim2) = mk_plan true true 0.
Proof.
  rewrite (proj2 (smp_poll_plan_watches sim2 [new_hart 0; new_hart 1] ltac:(split; vm_compute; congruence))).
  vm_compute. reflexivity.
Defined.

(** Hart 0 has loaded a0..a3. *)
Definition with_args (a0 a1 a2 a3 : Z) (h : hart_t) : hart_t :=
  h <| x_regs := arr_set (arr_set (arr_set (arr_set (x_regs h) RV_R_A0 a0) RV_R_A1 a1) RV_R_A2 a2) RV_R_A3 a3 |>.
Definition sim_call (a0 a1 a2 a3 : Z) : machine (emu_state_t sim_host) := on_hart (with_args a0 a1 a2 a3) sim2.

Ltac closed := first [reflexivity | apply is_u32b_true; vm_compute; reflexivity | vm_compute; split; congruence
                     | vm_compute; reflexivity | vm_compute; congruence].

Lemma sbi_ipi_exact_witness :
  ssip_at (snd (handle_sbi_ecall_IPI 0 (sim_call 2 0 0 0))) 1 = 1.
Proof.
  generalize (sbi_ipi_exact (sim_call 2 0 0 0) 1 ltac:(closed) ltac:(closed) ltac:(closed) ltac:(closed)
    ltac:(closed)).
  destruct (handle_sbi_ecall_IPI 0 _) as [r s']. intros (_ & H & _). cbn [snd]. rewrite H. vm_compute. reflexivity.
Defined.

Lemma sbi_rfence_exact_witness :
  hart_at (snd (handle_sbi_ecall_RFENCE 1 (sim_call 1 0 0x1000 0x1000))) 1 = hart_at (sim_call 1 0 0x1000 0x1000) 1.
Proof.
  generalize (sbi_rfence_exact 1 (sim_call 1 0 0x1000 0x1000) 1 ltac:(right; left; reflexivity) ltac:(closed)
    ltac:(closed) ltac:(closed) ltac:(closed)).
  destruct (handle_sbi_ecall_RFENCE 1 _) as [r s']. intros (_ & H). cbn [snd]. rewrite H.
  assert (Es : selected (xr (sim_call 1 0 0x1000 0x1000) RV_R_A0) (xr (sim_call 1 0 0x1000 0x1000) RV_R_A1) 1 = false)
    by (vm_compute; reflexivity).
  rewrite Es. reflexivity.
Defined.

Lemma sim_mtimer_ok a0 a1 a2 a3 : mtimer_ok (mtimer (dev (sim_call a0 a1 a2 a3))).
Proof.
  split; [reflexivity|]. split; [vm_compute; congruence|]. cbn. repeat constructor; lia.
Qed.

Lemma sbi_set_timer_arms_witness :
  cmp_at (snd (handle_sbi_ecall_TIMER 0 (sim_call 7 1 0 0))) 0 = 2 ^ 32 + 7.
Proof.
  generalize (sbi_set_timer_arms (sim_call 7 1 0 0) (sim_mtimer_ok 7 1 0 0) ltac:(closed) ltac:(closed)
    ltac:(closed) ltac:(closed)).
  destruct (handle_sbi_ecall_TIMER 0 _) as [r s']. intros (_ & H & _). cbn [snd].
  change 0 with (mhartid (hart (sim_call 7 1 0 0))) at 1. rewrite H. vm_compute. reflexivity.
Defined.

Lemma swi_follows_ssip_witness :
  Z.testbit (sip (hart (emu_update_swi_interrupt (set_ssip 0 sim2)))) RV_INT_SSI = true.
Proof. rewrite swi_follows_ssip by closed. vm_compute. reflexivity. Defined.

Lemma sbi_probe_truthful_witness :
  handle_sbi_ecall_BASE 3 (sim_call SBI_EID_HSM 0 0 0) = (sbi SBI_SUCCESS 1, sim_call SBI_EID_HSM 0 0 0).
Proof.
  rewrite (proj1 (sbi_probe_truthful (sim_call SBI_EID_HSM 0 0 0) ltac:(closed))).
  rewrite bool_decide_eq_true_2; [reflexivity|]. vm_compute. right. right. right. left.
Defined.

(** Both harts have reserved the word at 0x3000. *)
Definition sim_reserved : machine (emu_state_t sim_host) :=
  let h := (new_hart 1) <| lr_reservation := 0x3001 |> in
  mk_machine ((new_hart 0) <| lr_reservation := 0x3001 |>) [new_hart 0; h] sim_ram 0x7f0000000000 false true 0
    (dev sim2).


Lemma blk_write_read_roundtrip_witness :
  let s2 := virtio_blk_read_handler 1 0x5000 4 (virtio_blk_write_handler 1 0x3000 4 sim1) in
  rd8 s2 0x5001 = 0xCA.
Proof.
  cbv zeta. destruct (blk_write_read_roundtrip 1 0x3000 0x5000 4 sim1 sim_ram_ok ltac:(lia)) as [H _].
  rewrite (H 1 ltac:(lia) : rd8 _ 0x5001 = _). vm_compute. reflexivity.
Defined.

Lemma blk_request_in_disk_witness :
  disk_oob (vblk (dev (snd (virtio_blk_request (mk_desc 0x6000 16 1 1) (mk_desc 0x5000 512 1 2)
    (mk_desc 0x7000 1 0 0) sim1)))) = false.
Proof.
  apply (blk_request_in_disk (mk_desc 0x6000 16 1 1) (mk_desc 0x5000 512 1 2) (mk_desc 0x7000 1 0 0) sim1 sim_ram_ok).
  apply (init_fits ∅ 4096). lia.
Defined.

Lemma blk_process_complete_witness :
  halted (snd (blk_process (Z.to_nat 65536) 0 1 0 sim1)).
Proof.
  generalize (blk_process_complete 0 1 0 sim1 ltac:(closed) ltac:(closed) ltac:(lia)).
  assert (N : fst (blk_process (Z.to_nat 65536) 0 1 0 sim1) = None) by (vm_compute; reflexivity).
  destruct (blk_process (Z.to_nat 65536) 0 1 0 sim1) as [r s']. cbn [fst] in N. rewrite N.
  intros H. exact H.
Defined.

(** A read request for sector 100 (of a disk of 8 sectors), its header at 0x6000. *)
Definition sim_header : machine (emu_state_t sim_host) :=
  sim1 <| ram := <[0x6008 / 4 := 100]> sim_ram |>.

(** The driver can move the end of the disk. The configuration space is
    writable: before the write the out-of-range request is refused and nothing is
    accessed outside the mapping; after one 32-bit store to the capacity field the
    same request is served from memory beyond the mapping of the disk image. *)
Theorem blk_config_write_escapes :
  let request s := virtio_blk_request (mk_desc 0x6000 16 1 1) (mk_desc 0x5000 512 1 2) (mk_desc 0x7000 1 0 0) s in
  (fst (request sim_header) = None /\ disk_oob (vblk (dev (snd (request sim_header)))) = false) /\
  let s := virtio_blk_write 0x100 RV_MEM_SW 0xFFFFFFFF sim_header in
  (fst (request s) = Some 512 /\ disk_oob (vblk (dev (snd (request s)))) = true).
Proof. vm_compute. repeat split. Qed.

(** Virtual pages 0x11 and 0x15 are the physical pages 0x15 and 0x16, executable;
    the words at physical 0x15004 and 0x16004 differ. *)
Definition sim_fetch : machine (emu_state_t sim_host) :=
  sim1 <| ram := <[1024 := 2 * 1024 + 1]> (<[2048 + 0x11 := 0x15 * 1024 + 0x19]>
    (<[2048 + 0x15 := 0x16 * 1024 + 0x19]> (<[0x15004 / 4 := 0x111]> (<[0x16004 / 4 := 0x222]> ∅)))) |>.


(** Virtual pages 0x10 and 0x11 are the physical pages 0x15 and 0x18. The last two
    words of the first page are no-ops; the second page starts with [li ra, 2],
    the physical page 0x16 with [li ra, 1]. *)
Definition sim_cross : machine (emu_state_t sim_host) :=
  on_hart (fun h => h <| pc := 0x10FF8 |>)
    (sim1 <| ram := <[1024 := 2 * 1024 + 1]> (<[2048 + 0x10 := 0x15 * 1024 + 0x19]>
      (<[2048 + 0x11 := 0x18 * 1024 + 0x19]> (<[0x15FF8 / 4 := 0x13]> (<[0x15FFC / 4 := 0x13]>
      (<[0x16000 / 4 := 0x00100093]> (<[0x18000 / 4 := 0x00200093]> ∅)))))) |>).

(** The two forms of [vm_step_many] differ at a page end. The switch-based
    loop tests the block boundary before it advances the PC, so it runs past the
    end of a page into the next physical page; the threaded dispatcher executes the
    next virtual page. *)
Theorem portable_loop_crosses_page :
  xreg (snd (vm_step_many 3 sim_cross)) 1 = 2 /\ xreg (snd (vm_step_many_portable 3 sim_cross)) 1 = 1.
Proof. vm_compute. split; reflexivity. Qed.

(** ** A concrete start-up

    The host with a kernel of three bytes and a device tree of two, started with
    [-k k -c 2]. *)

Import Coro.Runtime CoroProps.RuntimeProps.

#[export] Instance sim_boothost : BootHost sim_host := {
  file_bytes name e := (if bool_decide (name = [107]) then Some [0x13; 0x05; 0x10]
                        else if bool_decide (name = default_dtb) then Some [0xd0; 0x0d] else None, e);
  mmap_ram e := (Some 0x7f0000000000, e);
  boot_malloc e := (true, e) }.
#[export] Instance sim_bootlaws : BootLaws sim_host.
Proof.
  split.
  - intros e p [= <-]. vm_compute. repeat split; congruence.
  - intros name e bytes. cbn. repeat case_bool_decide; intros [= <-]; repeat (apply List.Forall_cons; [split; lia|]); apply List.Forall_nil.
Qed.

(** Hart counts as they are accepted and refused: "4", " +32", "33", "4x", "". *)
Example hart_counts :
  parse_hart_count [52] = Some 4 /\ parse_hart_count [32; 43; 51; 50] = Some 32 /\ parse_hart_count [51; 51] = None /\
  parse_hart_count [52; 120] = None /\ parse_hart_count [] = None.
Proof. vm_compute. repeat split. Qed.

Definition sim_args : list (Z * list Z) := [(107, [107]); (99, [50])].
Definition sim_boot := semu_init sim_args true (fun _ => (true, true, true)) (mk_tstatic (double_of 0) (double_of 0) 0 0 true) 0 (mk_sim [] [] 5000 false).
Definition is_booted {A} (x : Z + A) : bool := match x with inl _ => false | inr _ => true end.
Lemma booted_inr {A} (x : Z + A) : is_booted x = true -> exists b, x = inr b.
Proof. destruct x; [done|]. by eexists. Qed.
Lemma sim_boot_ok : is_booted sim_boot = true.
Proof. vm_compute. reflexivity. Qed.

Lemma boot_state_witness : exists b, sim_boot = inr b /\ coherent (b_machine b) /\ total_slots (b_coro b) = 2.
Proof.
  destruct (booted_inr sim_boot sim_boot_ok) as [b Hb]. exists b. split; [exact Hb|].
  pose proof (boot_state sim_args true (fun _ => (true, true, true)) (mk_tstatic (double_of 0) (double_of 0) 0 0 true) 0
    (mk_sim [] [] 5000 false) b Hb) as T. cbv zeta in T. destruct T as (T1 & _ & _ & _ & _ & _ & _ & _ & _ & T2 & _). split; [exact T1|].
  assert (L : length (peers (b_machine b)) = 2%nat).
  { assert (Hl : match sim_boot with inr b => length (peers (b_machine b)) | inl _ => 0%nat end = 2%nat) by (vm_compute; reflexivity).
    by rewrite Hb in Hl. }
  rewrite L in T2. destruct T2 as (_ & T2 & _). exact T2.
Defined.

(** Two harts whose slices count, hart 1 returning. *)
Definition count_slice (i : Z) (s : machine (emu_state_t sim_host)) : bool * machine (emu_state_t sim_host) :=
  (i =? 1, on_dev (fun d => d <| exit_code := exit_code d * 10 + i + 1 |>) s).
Definition sim_coro : coro_sys := snd (create_harts 2 0 (fun _ => (true, true, true)) (snd (coro_init 2 2 true coro_zero))).

Lemma smp_round_fair_witness :
  scheduling sim_coro /\
  (let '(s', c') := resume_all count_slice 2 0 (sim2, sim_coro) in
   exit_code (dev s') = 12 /\ (exists co, slot c' 1 = Some co) /\ scheduling c').
Proof.
  assert (C : created 2 sim_coro /\ total_slots sim_coro = 2 /\ hart_slots sim_coro = 2).
  { apply (boot_coroutines_spec 2 2 true (fun _ => (true, true, true)) sim_coro); [lia|vm_compute; reflexivity]. }
  destruct C as ((R & A & B & I & S1 & S2) & T & H).
  assert (W : scheduling sim_coro).
  { split_and!; try done. intros k co Hk Hco. destruct (decide (k < 2)) as [Hlt|]; [|rewrite S2 in Hco by lia; done].
    destruct (S1 k ltac:(lia)) as (co' & E0 & _ & E1). congruence. }
  split; [exact W|].
  pose proof (smp_round_fair count_slice 2 sim2 sim_coro W T H) as F.
  assert (Hs : forall k, 0 <= k < Z.of_nat 2 -> is_Some (slot sim_coro k)) by (intros k Hk; destruct (S1 k ltac:(lia)) as (co & -> & _); by eexists).
  specialize (F Hs). destruct (resume_all count_slice 2 0 (sim2, sim_coro)) as [s' c'].
  destruct F as (F1 & F2 & F3). split; [rewrite F1; vm_compute; reflexivity|]. split; [|exact F2].
  destruct (Hs 1 ltac:(lia)) as [co Hco]. destruct (F3 1 co ltac:(lia) Hco) as (co' & E0 & _). by exists co'.
Defined.
