(* ===== verification/SimInput.v ===== *)
(** * Concrete input devices

    An SDL with a numbering of its own, a host with commands waiting, and a machine
    on which a driver has set up the queues of the keyboard: the instances of the
    theorems of [InputConc], [InputQueue] and [InputProps]. *)

From stdpp Require Import base gmap list relations.
From Stdlib Require Import ZArith Lia Bool.
From S2P Require Import Prelude Isa Hart Machine Tlb Loops Device Virtio VirtioProps DmaProps.
From S2P Require Import Emulator InputCodes InputEvent InputConc InputQueue VirtioInput InputProps.
Open Scope Z_scope.

(** SDL numbers its keys by the codes of the table and has no events. *)
#[export] Instance sim_sdl : Sdl unit := {
  scancode := key_by_name vinput_key_map;
  KMOD_CTRL := 0xC0; KMOD_ALT := 0x300;
  SDL_BUTTON_LEFT := 1; SDL_BUTTON_MIDDLE := 2; SDL_BUTTON_RIGHT := 3;
  sdl_wait_event w := (None, w); sdl_poll_event w := (None, w);
  sdl_set_relative_mouse_mode _ w := (true, w);
  sdl_set_window_grab _ w := w; sdl_show_cursor _ w := w }.

(** The name a code belongs to. *)
Definition name_of_code (z : Z) : option sdl_scancode :=
  key_scancode <$> head (filter (fun e => key_linux e = z) vinput_key_map).

Lemma name_of_code_ok n : name_of_code (key_by_name vinput_key_map n) = Some n.
Proof. destruct n; vm_compute; reflexivity. Qed.

#[export] Instance sim_sdl_laws : SdlLaws unit.
Proof.
  split.
  - intros x y E. change (key_by_name vinput_key_map x = key_by_name vinput_key_map y) in E.
    apply (f_equal name_of_code) in E. rewrite !name_of_code_ok in E. congruence.
  - change (NoDup [1; 3; 2]). apply (bool_decide_unpack (NoDup [1; 3; 2])). vm_compute. exact I.
Qed.

Lemma advertised_keys_exact_witness :
  exists n, vinput_sdl_scancode_to_linux_key (scancode n) = SEMU_KEY_A.
Proof.
  apply (advertised_keys_exact zero_icfg SEMU_KEY_A); [unfold SEMU_KEY_A; lia|]. vm_compute. reflexivity.
Defined.

(** ** The host queues *)

Definition sim_vhost : vinput_host := mk_vhost [zero_cmdq; zero_cmdq] false 3 0 false false false true.

Lemma sim_vhost_init : sys_init sim_vhost.
Proof. split; [reflexivity|]. repeat constructor. Qed.

Lemma init_host_ok h : sys_init h -> host_ok h.
Proof.
  intros H. pose proof (start_inv h H) as I. split; [apply (si_len _ I)|]. intros d Hd.
  exact (di_ok _ _ (si_dev _ I d Hd)).
Qed.

Definition key_a : vinput_cmd := VINPUT_CMD_KEYBOARD_KEY SEMU_KEY_A 1.
Definition move : vinput_cmd := VINPUT_CMD_MOUSE_MOTION 3 (-2).

(** A key and a motion waiting. *)
Definition sim_waiting : vinput_host := push VINPUT_MOUSE_ID move (push VINPUT_KEYBOARD_ID key_a sim_vhost).

Lemma sim_waiting_ok : host_ok sim_waiting.
Proof.
  unfold sim_waiting, push.
  pose proof (push_waiting sim_vhost VINPUT_KEYBOARD_ID (init_host_ok _ sim_vhost_init)
    ltac:(unfold VINPUT_KEYBOARD_ID, VINPUT_DEV_CNT; lia) key_a) as P.
  destruct (vinput_push_cmd VINPUT_KEYBOARD_ID key_a sim_vhost) as [ok h1]. destruct P as (H1 & _). cbn [snd].
  pose proof (push_waiting h1 VINPUT_MOUSE_ID H1 ltac:(unfold VINPUT_MOUSE_ID, VINPUT_DEV_CNT; lia) move) as P.
  destruct (vinput_push_cmd VINPUT_MOUSE_ID move h1) as [ok2 h2]. apply P.
Qed.

(** The SDL thread has run one push to its end. *)
Definition sim_pushed : sys :=
  Nat.iter 6 producer_step (mk_sys (P_load_head VINPUT_KEYBOARD_ID key_a) C_idle sim_vhost (fun _ => []) (fun _ => [])).

Lemma iter_producer n s : rtc sys_step s (Nat.iter n producer_step s).
Proof. induction n as [|n IH]; [apply rtc_refl|]. eapply rtc_r; [exact IH|apply step_producer]. Qed.

Lemma sim_pushed_reachable : reachable sim_pushed.
Proof.
  exists sim_vhost. split; [exact sim_vhost_init|].
  eapply rtc_l; [apply (step_push (start sim_vhost) VINPUT_KEYBOARD_ID key_a); [reflexivity|]|].
  { unfold VINPUT_KEYBOARD_ID, VINPUT_DEV_CNT. lia. }
  apply iter_producer.
Qed.

Lemma spsc_fifo_witness :
  InputConc.sent sim_pushed 0 = [key_a] /\
  InputConc.sent sim_pushed 0 = got sim_pushed 0 ++ contents (cmdq_at (shared sim_pushed) 0).
Proof.
  split; [vm_compute; reflexivity|].
  apply (spsc_fifo sim_pushed 0 sim_pushed_reachable). unfold VINPUT_DEV_CNT. lia.
Defined.

Lemma no_lost_wakeup_witness : vinput_may_have_pending_cmds (shared sim_pushed) = true.
Proof.
  apply (no_lost_wakeup sim_pushed 0 sim_pushed_reachable);
    [vm_compute; reflexivity|vm_compute; congruence|unfold VINPUT_DEV_CNT; lia|vm_compute; congruence].
Defined.

Lemma reset_isolates_device_witness :
  waiting (vinput_reset_host_events VINPUT_KEYBOARD_ID sim_waiting) VINPUT_KEYBOARD_ID = [] /\
  waiting (vinput_reset_host_events VINPUT_KEYBOARD_ID sim_waiting) VINPUT_MOUSE_ID = [move].
Proof.
  destruct (reset_isolates_device sim_waiting VINPUT_KEYBOARD_ID sim_waiting_ok) as (_ & H1 & H2 & _).
  { unfold VINPUT_KEYBOARD_ID, VINPUT_DEV_CNT. lia. }
  split; [exact H1|]. rewrite H2; [vm_compute; reflexivity| |];
    unfold VINPUT_MOUSE_ID, VINPUT_KEYBOARD_ID, VINPUT_DEV_CNT; lia.
Defined.

Lemma threads_run_functions_witness :
  exists gt', alone consumer_step (mk_sys P_idle (C_load_tail Reset 0) sim_waiting (fun _ => []) (fun _ => []))
    (mk_sys P_idle C_idle (vinput_reset_host_events 0 sim_waiting) (fun _ => []) gt').
Proof.
  apply (threads_run_functions 0 key_a sim_waiting P_idle C_idle (fun _ => []) (fun _ => []) sim_waiting_ok).
  unfold VINPUT_DEV_CNT. lia.
Defined.

(** ** A machine with both devices *)

(** After [virtio_input_init] of both register files. *)
Definition sim_input0 : M :=
  virtio_input_init 1 (virtio_input_init 0
    (mk_machine (new_hart 0) [new_hart 0] ∅ 0x7f0000000000 false true 0
       (mk_indev [zero_vinput; zero_vinput] [zero_vdata; zero_vdata] 0 sim_waiting false false false))).

Definition reg_write (r value : Z) (s : M) : M := virtio_input_write 0 (reg_addr r) RV_MEM_SW value s.

(** What a driver does for a queue of [n] entries with its rings at the given
    addresses, and the final DRIVER_OK. *)
Definition setup_queue (i n desc avail used : Z) (s : M) : M :=
  reg_write VIRTIO_QueueReady 1 (reg_write VIRTIO_QueueDeviceLow used (reg_write VIRTIO_QueueDriverLow avail
    (reg_write VIRTIO_QueueDescLow desc (reg_write VIRTIO_QueueNum n (reg_write VIRTIO_QueueSel i s))))).

Definition sim_input1 : M :=
  reg_write VIRTIO_Status 15 (setup_queue VIRTIO_INPUT_EVENTQ 4 0x1000 0x2000 0x3000 sim_input0).

(** The driver offers two buffers: descriptors 0 and 1, at 0x4000 and 0x4008. *)
Definition sim_input_ram : gmap Z Z :=
  <[0x2000 / 4 := Z.shiftl 2 16]> (<[0x2004 / 4 := Z.shiftl 1 16]>
    (<[0x1000 / 4 := 0x4000]> (<[0x1008 / 4 := 8]> (<[0x100C / 4 := 2]>
    (<[0x1010 / 4 := 0x4008]> (<[0x1018 / 4 := 8]> (<[0x101C / 4 := 2]> ∅))))))).
Definition sim_input2 : M := sim_input1 <| ram := sim_input_ram |>.

(** A queue as the driver set it up is well formed, by computation. *)
Definition queue_regs_okb (q : virtq_t) : bool :=
  (0 <=? QueueNum q) && (QueueNum q <=? VIRTIO_INPUT_QUEUE_NUM_MAX) &&
  forallb (fun a => (0 <=? a) && (a <? RAM_SIZE / 4)) [QueueDesc q; QueueAvail q; QueueUsed q] &&
  (0 <=? last_avail q) && (last_avail q <? 2 ^ 16).

Lemma queue_regs_okb_true q : queue_regs_okb q = true -> queue_regs_ok q.
Proof. unfold queue_regs_okb, queue_regs_ok. cbn [forallb]. rewrite !andb_true_iff, !Z.leb_le, !Z.ltb_lt. intuition. Qed.

Definition regs_okb (v : virtio_input_state_t) : bool :=
  Nat.eqb (length (queues (vi_regs v))) 2 && (0 <=? QueueSel (vi_regs v)) && (QueueSel (vi_regs v) <? 2) &&
  forallb queue_regs_okb (queues (vi_regs v)) && (0 <=? vi_priv v) && (vi_priv v <? VINPUT_DEV_CNT).

Lemma regs_okb_true v : regs_okb v = true -> regs_ok (vi_regs v) /\ 0 <= vi_priv v < VINPUT_DEV_CNT.
Proof.
  unfold regs_okb. rewrite !andb_true_iff, !Z.leb_le, !Z.ltb_lt, Nat.eqb_eq, forallb_forall.
  intros [[[[[H1 H2] H3] H4] H5] H6]. split; [|done]. split_and!; try done. apply Forall_forall. intros q Hq.
  by apply queue_regs_okb_true, H4, list_elem_of_In.
Qed.

Lemma sim_input_wf : input_wf (dev sim_input2).
Proof.
  constructor.
  - split; [vm_compute; reflexivity|]. apply Forall_forall. intros x Hx. apply regs_okb_true.
    assert (F : forallb regs_okb (vinputs (dev sim_input2)) = true) by (vm_compute; reflexivity).
    rewrite forallb_forall in F. by apply F, list_elem_of_In.
  - split; [vm_compute; reflexivity|].
    assert (E : vinput_dev (dev sim_input2)
                = [mk_vdata (Some 0) zero_icfg 0; mk_vdata (Some 1) zero_icfg 1]) by (vm_compute; reflexivity).
    rewrite E. repeat constructor; cbn [vd_cfg vd_type zero_icfg cfg_select cfg_subsel cfg_size cfg_reserved cfg_u];
      unfold VINPUT_DEV_CNT; try lia; try (unfold zero_payload; apply Forall_replicate; split; lia).
  - assert (E : vhost (dev sim_input2) = sim_waiting) by (vm_compute; reflexivity). rewrite E. exact sim_waiting_ok.
  - vm_compute. split; reflexivity.
Qed.

Lemma sim_input_ram_ok : ram_ok (ram sim_input2).
Proof.
  apply ram_ok_check. vm_compute. reflexivity.
Qed.

Lemma input_state_typed_witness : input_wf (dev (snd (virtio_input_read 0 0x102 RV_MEM_LBU sim_input2))).
Proof.
  exact (proj1 (input_state_typed 0 0x102 RV_MEM_LBU 0 sim_input2 sim_input_wf ltac:(lia) sim_input_ram_ok
    ltac:(lia) ltac:(lia))).
Defined.


Lemma drain_applies_in_order_witness : exists s',
  virtio_input_drain_host_events sim_input2 = Some s' /\ rd32 s' 0x4000 = 30 * 2 ^ 16 + 1.
Proof.
  destruct (drain_applies_in_order sim_input2 sim_waiting_ok) as (h' & E & _). eexists. split; [exact E|].
  vm_compute. reflexivity.
Defined.

(** ** The validation of a ready queue can be bypassed *)

(** A status queue of one entry whose available ring ends with RAM. *)
Definition avail_at_end : Z := RAM_SIZE - 8.
Definition sim_input3 : M :=
  reg_write VIRTIO_Status 15 (setup_queue VIRTIO_INPUT_STATUSQ 1 0x1000 avail_at_end 0x3000
    (sim_input0 <| ram := <[avail_at_end / 4 := Z.shiftl 2 16]> ∅ |>)).

(** The range check made when a queue becomes ready does not bind. The queue
    is accepted with its rings inside RAM; then QueueNum is raised, which the
    device accepts for a ready queue without repeating the check, and the next
    notification makes the emulator read an available-ring entry beyond the end of
    guest RAM, without any device failure before it. *)
Theorem ready_queue_check_bypassed :
  rings_fit (vq sim_input3 0 VIRTIO_INPUT_STATUSQ) = true /\ ram_oob sim_input3 = false /\
  let s := reg_write VIRTIO_QueueNum 1024 sim_input3 in
  (ready (vq s 0 VIRTIO_INPUT_STATUSQ) = true /\ rings_fit (vq s 0 VIRTIO_INPUT_STATUSQ) = false /\
   Status (vi_at s 0) = 15 /\ ram_oob s = false) /\
  let s := s <| ram := <[avail_at_end / 4 := Z.shiftl 3 16]> (ram s) |> in
  ram_oob (reg_write VIRTIO_QueueNotify VIRTIO_INPUT_STATUSQ s) = true.
Proof. vm_compute. repeat split. Qed.
