(* ===== verification/SimNet.v ===== *)
(** * A concrete network device

    A host that receives one packet and accepts every packet sent; a machine on
    which a driver has set up both queues. For the back ends, a host whose pipe is a
    list of bytes and a SLIRP library that wants two sockets polled. *)

From Stdlib Require Import String.
From stdpp Require Import base gmap list relations.
From Stdlib Require Import ZArith Lia Bool.
From S2P Require Import Prelude Isa Hart Machine Tlb Loops Device Virtio VirtioProps DmaProps.
From S2P Require Import Emulator VirtioNet NetProps Timer Vmnet Slirp Sim.
Open Scope Z_scope.

Record sim_net := mk_simnet { net_in : list Z; net_out : list (list Z) }.

#[export] Instance sim_nethost : NetHost sim_net := {
  net_readv _ n e :=
    match net_in e with
    | [] => (Read_again, e)
    | p => (Read_data (take (Z.to_nat n) ((fun b => b mod 256) <$> p)), mk_simnet [] (net_out e))
    end;
  net_writev _ bytes e := (Write_count (Z.of_nat (length bytes)), mk_simnet (net_in e) (net_out e ++ [bytes]));
  net_poll _ e := (match net_in e with [] => false | _ => true end, false, true, e);
  net_slirp_read e := e;
  net_open _ e := (true, e) }.

#[export] Instance sim_netlaws : NetLaws sim_net.
Proof.
  split; intros ty n e bytes.
  - intros Hn. cbn. destruct (net_in e) as [|b p]; [done|]. cbn [fst]. intros [= <-].
    change (Z.of_nat (length (take (Z.to_nat n) ((fun b => b mod 256) <$> (b :: p)))) <= n).
    rewrite length_take. lia.
  - cbn. destruct (net_in e) as [|b p]; [done|]. cbn [fst]. intros [= <-].
    change (Forall (fun b => 0 <= b < 256) (take (Z.to_nat n) ((fun b => b mod 256) <$> (b :: p)))).
    apply Forall_take, Forall_fmap, Forall_forall. intros x _. cbn. apply Z.mod_pos_bound. lia.
Qed.

Abbreviation M := (machine (net_dev sim_net)).

(** A fresh machine with the TAP back end and one packet waiting. *)
Definition sim_net0 : M :=
  snd (virtio_net_init (Some "tap"%string) true
    (mk_machine (new_hart 0) [new_hart 0] ∅ 0x7f0000000000 false true 0
       (mk_netdev (mk_vnet (zero_virtio 2) [false; false] NETDEV_IMPL_tap false) [0; 0; 0] 0 false false false
          (mk_simnet [0xAA; 0xBB; 0xCC] [])))).

Definition net_reg (r value : Z) (s : M) : M := default s (virtio_net_write 10 (Z.shiftl r 2) RV_MEM_SW value s).

Definition net_queue (i n desc avail used : Z) (s : M) : M :=
  net_reg VIRTIO_QueueReady 1 (net_reg VIRTIO_QueueDeviceLow used (net_reg VIRTIO_QueueDriverLow avail
    (net_reg VIRTIO_QueueDescLow desc (net_reg VIRTIO_QueueNum n (net_reg VIRTIO_QueueSel i s))))).

Definition set_ram_words (l : list (Z * Z)) (s : M) : M :=
  s <| ram := foldr (fun kv m => <[kv.1 / 4 := kv.2]> m) (ram s) l |>.

(** Two descriptors for reception: 5 bytes at 0x4001, then 64 at 0x5000. *)
Definition sim_net1 : M :=
  set_ram_words [(0x2000, Z.shiftl 1 16); (0x2004, 0);
                 (0x1000, 0x4001); (0x1008, 5); (0x100C, 3 + Z.shiftl 1 16);
                 (0x1010, 0x5000); (0x1018, 64); (0x101C, 2)]
    (net_reg VIRTIO_Status 15 (net_queue VNET_QUEUE_RX 4 0x1000 0x2000 0x3000 sim_net0)).

Definition sim_vecs : list iovec := [mk_iov 0x4001 5; mk_iov 0x5000 64].

(** The packet lands behind the header, in the second descriptor. *)
Example rx_example :
  (fun s => (rd8 s 0x5004, rd8 s 0x5005, rd8 s 0x5006, rd8 s 0x5007, rd8 s 0x5008, rd32 s 0x3008))
    <$> virtio_net_refresh_queue 10 sim_net1 = Some (0, 1, 0, 0xAA, 0xBB, 15).
Proof. vm_compute. reflexivity. Qed.

Lemma packets_cross_as_streams_witness :
  ram (snd (vnet_transfer true 0 sim_vecs sim_net1))
  = ram (write_stream (iov_addrs sim_vecs) (rx_header ++ [0xAA; 0xBB; 0xCC]) sim_net1).
Proof.
  destruct (packets_cross_as_streams 0 sim_vecs sim_net1) as [H _].
  - repeat constructor; cbn; lia.
  - vm_compute. congruence.
  - destruct (H [0xAA; 0xBB; 0xCC]) as [_ H']; [vm_compute; reflexivity|exact H'].
Defined.

(** ** Guests that break the device *)

(** The transmit queue with descriptor 0 as its own successor. *)
Definition sim_net_loop : M :=
  set_ready VNET_QUEUE_TX true
  (set_ram_words [(0x2000, Z.shiftl 1 16); (0x2004, 0); (0x1000, 0x4000); (0x1008, 16); (0x100C, 1)]
    (net_reg VIRTIO_Status 15 (net_queue VNET_QUEUE_TX 4 0x1000 0x2000 0x3000 sim_net0))).

Lemma net_cyclic_chain_hangs_witness :
  peer_op (vnet (dev sim_net_loop)) = true /\ (forall fuel, virtio_net_try_tx fuel sim_net_loop = None).
Proof.
  split; [vm_compute; reflexivity|]. intros fuel. unfold virtio_net_try_tx.
  pose proof (net_cyclic_chain_hangs fuel false VNET_QUEUE_TX sim_net_loop) as H. cbv zeta in H.
  apply H; clear H; [vm_compute; reflexivity|vm_compute; reflexivity|vm_compute; reflexivity|vm_compute; reflexivity
    |vm_compute; reflexivity|vm_compute; reflexivity|vm_compute; reflexivity|vm_compute; reflexivity
    |vm_compute; congruence|vm_compute; congruence|].
  split; [vm_compute; reflexivity|]. split; [vm_compute; reflexivity|].
  split; [vm_compute; reflexivity|]. split; vm_compute; reflexivity.
Defined.

(** A queue whose size was never set; the driver's index was 5 when it became
    ready and is then set back to 4. *)
Definition sim_net_wrap : M :=
  set_ready VNET_QUEUE_TX true (set_ram_words [(0x2000, Z.shiftl 4 16)]
    (net_reg VIRTIO_Status 15 (net_reg VIRTIO_QueueReady 1 (net_reg VIRTIO_QueueDriverLow 0x2000
       (net_reg VIRTIO_QueueSel VNET_QUEUE_TX (set_ram_words [(0x2000, Z.shiftl 5 16)] sim_net0)))))).

(** The size check does not survive wrap-around. The difference of the ring
    indices is computed in [int], so it is negative when the driver's index is
    below the device's and passes the test against the queue size; with a queue
    whose size was never set the handler then divides by zero, and with descriptor
    addresses outside RAM, which are not checked, it accesses host memory. *)
Theorem net_wrapped_index_unchecked :
  QueueNum (nq sim_net_wrap VNET_QUEUE_TX) = 0 /\
  (net_div_zero ∘ dev <$> virtio_net_try_tx 10 sim_net_wrap) = Some true /\
  (ram_oob <$> virtio_net_refresh_queue 10 (set_ram_words [(0x1000, 0xF0000000); (0x1008, 64); (0x100C, 2)] sim_net1))
  = Some true.
Proof. vm_compute. repeat split. Qed.

(** ** vmnet *)

#[export] Instance sim_vmnethost : VmnetHost (list Z) := {
  os_malloc w := (true, w); os_pipe w := (Some (3, 4), w); os_nonblock _ w := w; os_close _ w := w;
  pipe_write _ l w := (Z.of_nat (length l), w ++ l);
  pipe_read _ n w := match w with [] => (Read_again, []) | _ => (Read_data (take (Z.to_nat n) w), drop (Z.to_nat n) w) end;
  dispatch_create w := (1, w); dispatch_release _ w := w;
  vmnet_start_interface _ _ _ w := (mk_start 5 true (Some [48; 97; 58; 102; 70; 58; 55; 58; 48; 48; 58; 49; 50; 58; 57; 57]) false, w);
  vmnet_set_event_callback _ w := w; vmnet_read _ _ w := (Some [], w); vmnet_write _ _ w := (Some 1, w);
  vmnet_stop_interface _ w := w; user_init w := w }.

#[export] Program Instance sim_pipelaws : PipeLaws (list Z) := {| pipe_bytes w := w |}.
Next Obligation. intros fd n w _ E. cbn in E. by subst w. Qed.
Next Obligation. intros fd n w _ E. by destruct w. Qed.

(** The address the framework reports is "0a:fF:7:00:12:99". *)
Example sim_vmnet_init :
  fst (net_vmnet_init SEMU_VMNET_SHARED None zero_vmnet []) = (0, mk_vmnet 5 1 1 (3, 4) [0x0A; 0xFF; 7; 0; 0x12; 0x99] true true).
Proof. vm_compute. reflexivity. Qed.

(** Two packets written, the first partly read while the second arrives. *)
Definition sim_pipe : vmnet_sys :=
  mk_vsys W_idle R_idle [1; 0; 0; 0; 9] [[7; 8]; [9]] [[7; 8]] 0.

Lemma sim_pipe_reach : rtc vmnet_step vmnet_start sim_pipe.
Proof.
  assert (Wr : forall e s s', writer_step e s = Some s' -> e <> Data_short ->
    match e with Arrives pkt => Z.of_nat (length pkt) <=? VMNET_BUF_SIZE | _ => true end = true -> vmnet_step s s').
  { intros e s s' H1 H2 H3. apply (step_writer s e s' H1 H2). intros pkt ->. by apply Z.leb_le. }
  eapply rtc_l; [apply (Wr (Arrives [7; 8])); [reflexivity|discriminate|reflexivity]|].
  eapply rtc_l; [apply (Wr (Size_written true)); [reflexivity|discriminate|reflexivity]|].
  eapply rtc_l; [apply (Wr (Data_moved 1)); [reflexivity|discriminate|reflexivity]|].
  eapply rtc_l; [apply step_reader|]. eapply rtc_l; [apply step_reader|]. eapply rtc_l; [apply step_reader|].
  eapply rtc_l; [apply (Wr (Data_moved 1)); [reflexivity|discriminate|reflexivity]|].
  eapply rtc_l; [apply (Wr (Arrives [9])); [reflexivity|discriminate|reflexivity]|].
  eapply rtc_l; [apply (Wr (Size_written true)); [reflexivity|discriminate|reflexivity]|].
  eapply rtc_l; [apply step_reader|].
  eapply rtc_l; [apply (Wr (Data_moved 1)); [reflexivity|discriminate|reflexivity]|].
  eapply rtc_l; [apply step_reader|]. vm_compute. apply rtc_refl.
Qed.

Lemma vmnet_packets_in_order_witness : garbled sim_pipe = 0%nat /\ exists pending, [[7; 8]; [9]] = [[7; 8]] ++ pending /\
  exists w', net_vmnet_read 2 zero_vmnet VMNET_BUF_SIZE (vpipe sim_pipe) = Some (head pending, w').
Proof.
  destruct (vmnet_packets_in_order sim_pipe sim_pipe_reach) as (G & pending & P & H). split; [exact G|].
  exists pending. split; [exact P|]. destruct (H eq_refl eq_refl zero_vmnet (vpipe sim_pipe) eq_refl) as (w' & E & _).
  exists w'. exact E.
Defined.

(** ** SLIRP *)

(** The state is the next file descriptor. *)
#[export] Instance sim_slirphost : SlirpHost Z := {
  SLIRP_POLL_IN := 1; SLIRP_POLL_OUT := 2; SLIRP_POLL_PRI := 4; SLIRP_POLL_ERR := 8; SLIRP_POLL_HUP := 16;
  slirp_at_least _ _ := true; slirp_new _ w := (1, w); slirp_input _ _ w := w;
  slirp_pollfds_fill _ w := ([(20, 1); (21, 2)], w); slirp_pollfds_poll _ _ _ w := w; slirp_handle_timer _ _ _ w := w;
  os_socketpair w := (Some (w, w + 1), w + 2); os_fcntl_nonblock _ w := (true, w); os_recv _ _ w := (Read_again, w);
  os_write _ l w := (Z.of_nat (length l), w); os_poll l w := ((1, (fun _ => POLLIN) <$> l), w);
  pfd_realloc w := (Some (replicate 16 zero_pollfd), w); timer_malloc w := (w, w + 1);
  tap_open w := (-1, w); tap_setiff _ w := (0, w) }.

#[export] Instance sim_slirplaws : SlirpLaws Z.
Proof.
  split; [done|by intros w fresh [= <-]|]. intros l w. cbn. by rewrite length_fmap.
Qed.

(** A TAP device that cannot be opened is reported like one that can. *)
Example tap_failure_is_success : net_init_tap 3 = Some (0, -1, 3).
Proof. reflexivity. Qed.

Definition sim_user : net_user_options_t := default zero_user (snd ∘ fst <$> net_slirp_init zero_user 3).

Lemma slirp_polls_wanted_witness : table_ok sim_user /\ fst (fst (slirp_round sim_user 9)) = true /\
  asked (snd (fst (slirp_round sim_user 9))) = [(3, 17); (20, POLLIN); (21, POLLOUT)].
Proof.
  split.
  - refine (proj1 (slirp_polls_wanted (E := sim_host) 3 sim_user 7 sim_user 9 _ _ (rtc_refl _ _))); vm_compute; reflexivity.
  - vm_compute. split; reflexivity.
Defined.
