(* ===== verification/SimGpu.v ===== *)
(** * A concrete GPU session

    A host with memory, one scanout, and a driver that sets up the control queue,
    creates a resource of 4 by 2 pixels with backing, transfers a rectangle into it,
    binds it to the scanout and flushes it. *)

From stdpp Require Import base gmap list.
From Stdlib Require Import ZArith Lia Bool.
From S2P Require Import Prelude Isa Hart Machine Tlb Loops Device Virtio VirtioProps DmaProps Ring.
From S2P Require Import Emulator VgpuDisplay VgpuConc GpuDefs GpuEdid VirtioGpuSw VirtioGpu GpuProps GpuSafe GpuEscape GpuTheorems.
Open Scope Z_scope.

#[export] Instance sim_gpuhost : GpuHost unit := { gpu_malloc _ e := (true, e) }.
Abbreviation M := (machine (gpu_dev unit)).

(** What a driver does: a register write, a store of words into memory. *)
Inductive drv := Reg (r value : Z) | Mem (off : Z) (words : list Z).
Fixpoint put_words (off : Z) (words : list Z) (m : gmap Z Z) : gmap Z Z :=
  match words with
  | [] => m
  | w :: words => put_words (off + 4) words (<[off / 4 := w]> m)
  end.
Definition act (a : drv) (s : M) : M :=
  match a with
  | Reg r value => virtio_gpu_write (Z.shiftl r 2) RV_MEM_SW value s
  | Mem off words => s <| ram := put_words off words (ram s) |>
  end.
Definition act_ok (a : drv) : bool :=
  match a with
  | Reg _ value => is_u32b value
  | Mem _ words => forallb is_u32b words
  end.

(** Power-on, the device initialised and one scanout registered. *)
Definition sim_power_on : M :=
  mk_machine (new_hart 0) [new_hart 0] ∅ 0x7f0000000000 false true 0 (gpu_fresh display_init tt).
Definition sim_gpu0 : M := snd (virtio_gpu_register_scanout 1024 768 (virtio_gpu_init sim_power_on)).

(** The control queue, and a chain of three descriptors for every request: the
    request at 0x4000, the backing entries at 0x6000, the response at 0x5000. *)
Definition setup : list drv :=
  [Reg VIRTIO_QueueSel 0; Reg VIRTIO_QueueNum 4; Reg VIRTIO_QueueDescLow 0x1000; Reg VIRTIO_QueueDriverLow 0x2000;
   Reg VIRTIO_QueueDeviceLow 0x3000; Reg VIRTIO_QueueReady 1; Reg VIRTIO_Status 15;
   Mem 0x1000 [0x4000; 0; 64; 0x10001;  0x6000; 0; 16; 0x20001;  0x5000; 0; 64; 2];
   Mem 0x6000 [0x8000; 0; 32; 0];
   Mem 0x8000 [0x03020100; 0x07060504; 0x0b0a0908; 0x0f0e0d0c; 0x13121110; 0x17161514; 0x1b1a1918; 0x1f1e1d1c]].
Definition request (k type : Z) (fields : list Z) : list drv :=
  [Mem 0x4000 ([type; 0; 0; 0; 0; 0] ++ fields); Mem 0x2000 [Z.shiftl k 16]; Reg VIRTIO_QueueNotify 0].

Definition create_and_attach : list drv :=
  setup ++ request 1 VIRTIO_GPU_CMD_RESOURCE_CREATE_2D [7; 1; 4; 2]
        ++ request 2 VIRTIO_GPU_CMD_RESOURCE_ATTACH_BACKING [7; 1].
Definition transfer_request : list drv :=
  [Mem 0x4000 [VIRTIO_GPU_CMD_TRANSFER_TO_HOST_2D; 0; 0; 0; 0; 0; 1; 0; 2; 2; 4; 0; 7; 0]].
Definition transfer_and_bind : list drv :=
  transfer_request ++ [Mem 0x2000 [Z.shiftl 3 16]; Reg VIRTIO_QueueNotify 0]
    ++ request 4 VIRTIO_GPU_CMD_SET_SCANOUT [1; 0; 3; 2; 0; 7].

Definition sim_before_transfer : M := foldl (flip act) sim_gpu0 (create_and_attach ++ transfer_request).
Definition sim_bound : M := foldl (flip act) sim_gpu0 (create_and_attach ++ transfer_and_bind).
Definition sim_flushed : M :=
  foldl (flip act) sim_bound (request 5 VIRTIO_GPU_CMD_RESOURCE_FLUSH [0; 0; 4; 2; 7; 0]).

Lemma ram_ok_put words : forall off m, ram_ok m -> forallb is_u32b words = true -> ram_ok (put_words off words m).
Proof.
  induction words as [|w words IH]; intros off m H; [done|]. cbn [put_words forallb]. rewrite andb_true_iff.
  intros [Hw Hs]. apply IH; [|done]. intros j. rewrite word_insert. case_decide; [by apply is_u32b_true|apply H].
Qed.

Lemma acts_reach l : forall s, gpu_reach s -> forallb act_ok l = true -> gpu_reach (foldl (flip act) s l).
Proof.
  induction l as [|a l IH]; intros s H; [done|]. cbn [foldl forallb]. rewrite andb_true_iff. intros [Ha Hl].
  apply IH; [|done]. destruct a as [r v|off words]; cbn [act_ok] in Ha; unfold flip; cbn [act].
  - apply reach_write; [done|by apply is_u32b_true].
  - apply reach_ram; [done|]. apply ram_ok_put; [|done]. apply (reach_safe s H).
Qed.

Lemma sim_gpu0_reach : gpu_reach sim_gpu0.
Proof.
  apply reach_scanout, reach_device. apply (reach_init sim_power_on); [|done]. by apply ram_ok_check.
Qed.

Lemma sim_reach : gpu_reach sim_before_transfer /\ gpu_reach sim_bound /\ gpu_reach sim_flushed.
Proof.
  assert (B : gpu_reach sim_bound) by (apply acts_reach; [apply sim_gpu0_reach|vm_compute; reflexivity]).
  split; [apply acts_reach; [apply sim_gpu0_reach|vm_compute; reflexivity]|]. split; [exact B|].
  apply acts_reach; [exact B|vm_compute; reflexivity].
Qed.

(** The session did what the driver asked for. *)
Example sim_session :
  (resource_id <$> res_list (dev sim_flushed)) = [7] /\ hostmem (dev sim_flushed) = 32 /\
  rd32 sim_flushed 0x5000 = VIRTIO_GPU_RESP_OK_NODATA /\ rd32 sim_flushed 0x3000 = Z.shiftl 5 16 /\
  (image <$> res_list (dev sim_flushed)) =
    [[0; 0; 0; 0; 4; 5; 6; 7; 8; 9; 10; 11; 0; 0; 0; 0; 0; 0; 0; 0; 20; 21; 22; 23; 24; 25; 26; 27; 0; 0; 0; 0]].
Proof. vm_compute. repeat split. Qed.

(** ** Witnesses *)

Lemma gpu_no_escape_witness :
  length (res_list (dev sim_flushed)) = 1%nat /\ ram_oob sim_flushed = false /\ host_oob (dev sim_flushed) = false /\
  hostmem (dev sim_flushed) = total_size (res_list (dev sim_flushed)).
Proof.
  split; [vm_compute; reflexivity|].
  destruct (gpu_no_escape sim_flushed (proj2 (proj2 sim_reach))) as (H1 & H2 & H3 & _). by split_and!.
Defined.

(** The chain, the resource and the backing of the transfer. *)
Definition sim_chain : list virtq_desc := [mk_desc 0x4000 64 1 0; mk_desc 0x6000 16 1 0; mk_desc 0x5000 64 2 0].
Definition sim_res (s : M) : vgpu_sw_resource_2d := default (mk_res 0 0 0 0 0 0 [] 0 0 None) (vgpu_sw_get_resource_2d 7 s).
Definition sim_iov : list backing_iov := [mk_biov (Some 0x8000) 32].

Lemma transfer_exact_witness : exists res' s',
  vgpu_sw_cmd_transfer_to_host_2d_handler sim_chain sim_before_transfer =
    respond 0x4000 (mk_desc 0x5000 64 2 0) VIRTIO_GPU_RESP_OK_NODATA s' /\
  vgpu_sw_get_resource_2d 7 s' = Some res' /\ arr_get 0 (image res') 5 = 5 /\ arr_get 0 (image res') 12 = 0.
Proof.
  assert (C : vgpu_sw_rect_fits 4 2 (mk_rect 1 0 2 2) && vgpu_sw_transfer_source_fits (mk_rect 1 0 2 2) 4
    (sim_res sim_before_transfer) sim_iov = true) by (vm_compute; reflexivity).
  assert (Er : get_rect sim_before_transfer (0x4000 + 24) = mk_rect 1 0 2 2) by (vm_compute; reflexivity).
  assert (Eo : fld64 sim_before_transfer (0x4000 + 40) = 4) by (vm_compute; reflexivity).
  pose proof (transfer_exact sim_chain (mk_desc 0x5000 64 2 0) 0x4000 sim_before_transfer (sim_res sim_before_transfer) sim_iov
    (reach_safe _ (proj1 sim_reach))) as T. cbv zeta in T. rewrite Er, Eo in T.
  assert (Ed : r_width (sim_res sim_before_transfer) = 4 /\ r_height (sim_res sim_before_transfer) = 2)
    by (vm_compute; split; reflexivity). rewrite (proj1 Ed), (proj2 Ed), C in T.
  destruct T as (res' & s' & T1 & T2 & _ & _ & T3 & _);
    [vm_compute; reflexivity|vm_compute; reflexivity|vm_compute; reflexivity|vm_compute; reflexivity|].
  exists res', s'. split; [exact T1|]. split; [exact T2|].
  split; [rewrite (T3 5) by lia|rewrite (T3 12) by lia]; vm_compute; reflexivity.
Defined.

Lemma flush_publishes_view_witness : exists ptr x,
  payload_heap (disp (dev (flush_scanout 7 (sim_res sim_bound) 0 sim_bound))) !! ptr = Some x /\
  pl_width x = 3 /\ pl_height x = 2 /\ arr_get 0 (pl_pixels x) (1 * pl_stride x + 2) = 22.
Proof.
  destruct (flush_publishes_view 7 (sim_res sim_bound) 0 sim_bound (reach_safe _ (proj1 (proj2 sim_reach))))
    as (ptr & x & _ & _ & _ & F1 & _ & F2 & F3 & _ & _ & F4).
  - vm_compute. repeat split; congruence.
  - vm_compute. reflexivity.
  - vm_compute. congruence.
  - vm_compute. reflexivity.
  - vm_compute. reflexivity.
  - vm_compute. reflexivity.
  - exists ptr, x. split; [exact F1|]. split; [rewrite F2; vm_compute; reflexivity|]. split; [rewrite F3; vm_compute; reflexivity|].
    rewrite F4; [vm_compute; reflexivity|vm_compute; split; congruence|vm_compute; split; congruence].
Defined.
