(* ===== verification/SimFs.v ===== *)
(** * A concrete shared directory

    A host with the directory "/s", a file "f" in it and a file "x" beside it, and a
    driver that sets up the request queue and sends FUSE requests in chains of four
    descriptors. *)

From stdpp Require Import base gmap list.
From Stdlib Require Import ZArith Lia Bool.
From S2P Require Import Prelude Isa Hart Machine Tlb Loops Device Virtio VirtioProps DmaProps Emulator VirtioFs FsProps.
Open Scope Z_scope.

(** "/s", "/s/f", "/s/..", "/s/../x" *)
Definition p_root : list Z := [47; 115].
Definition p_file : list Z := path_join p_root [102].
Definition p_up : list Z := path_join p_root [46; 46].
Definition p_out : list Z := path_join p_up [120].
Definition sim_stat (i size mode : Z) : stat_t := mk_stat i mode 1 1000 1000 size 4096 8 11 12 13.
(** Inode, mode and contents by path. *)
Definition sim_node (path : list Z) : option (stat_t * list Z) :=
  if bool_decide (path = p_root) then Some (sim_stat 100 4096 0x41ED, [])
  else if bool_decide (path = p_file) then Some (sim_stat 101 3 0x81A4, [72; 105; 33])
  else if bool_decide (path = p_up) then Some (sim_stat 99 4096 0x41ED, [])
  else if bool_decide (path = p_out) then Some (sim_stat 98 4 0x8180, [107; 101; 121; 10])
  else None.

(** Open files are numbered from 3; the host remembers their contents. *)
#[export] Instance sim_fshost : FsHost (list (list Z)) := {
  fs_stat p e := (match p ≫= sim_node with Some (st, _) => inr st | None => inl ENOENT end, e);
  fs_open p e :=
    match p ≫= sim_node with
    | Some (_, bytes) => (inr (3 + Z.of_nat (length e)), e ++ [bytes])
    | None => (inl ENOENT, e)
    end;
  fs_pread fd n o e :=
    (match e !! Z.to_nat (fd - 3) with
     | Some bytes => inr ((fun b => Z.land b 255) <$> take (Z.to_nat n) (drop (Z.to_nat o) bytes))
     | None => inl 9
     end, e);
  fs_close _ e := e;
  fs_opendir p e := (match sim_node p with Some _ => Some 1 | None => None end, e);
  fs_readdir _ e := ([[46]; [46; 46]; [102]], e);
  fs_closedir _ e := e;
  fs_malloc _ e := (true, e) }.

#[export] Instance sim_fslaws : FsLaws (list (list Z)).
Proof.
  split; intros fd n o e bytes; cbn; destruct (e !! _) as [b|]; [|done| |done]; intros [= <-].
  - intros H. rewrite length_fmap, length_take. lia.
  - apply Forall_fmap, Forall_true. intros x. unfold compose, is_byte.
    change 255 with (Z.ones 8). rewrite Z.land_ones by lia. by apply Z.mod_pos_bound.
Qed.

Lemma sim_malloc n (e : list (list Z)) : fs_malloc n e = (true, e).
Proof. reflexivity. Qed.

Abbreviation M := (machine (fs_dev (list (list Z)))).

Inductive drv := Reg (r value : Z) | Mem (off : Z) (words : list Z).
Fixpoint put_words (off : Z) (words : list Z) (m : gmap Z Z) : gmap Z Z :=
  match words with
  | [] => m
  | w :: words => put_words (off + 4) words (<[off / 4 := w]> m)
  end.
Definition act (a : drv) (s : M) : M :=
  match a with
  | Reg r value => virtio_fs_write (Z.shiftl r 2) RV_MEM_SW value s
  | Mem off words => s <| ram := put_words off words (ram s) |>
  end.
Definition acts (l : list drv) (s : M) : M := foldl (flip act) s l.

Definition fs_fresh : fs_dev (list (list Z)) :=
  mk_fsdev (zero_virtio 3) [] None [] (replicate 44 0) 0 ∅ false false false false [].
Definition sim_power_on : M := mk_machine (new_hart 0) [new_hart 0] ∅ 0x7f0000000000 false true 0 fs_fresh.
Definition sim_fs0 : M := snd (virtio_fs_init [109] (Some p_root) sim_power_on).

(** Queue 1: the request header at 0x4000, its body at 0x5000, the reply header at
    0x6000 and the reply at 0x7000. *)
Definition setup : list drv :=
  [Reg VIRTIO_QueueSel 1; Reg VIRTIO_QueueNum 4; Reg VIRTIO_QueueDescLow 0x1000; Reg VIRTIO_QueueDriverLow 0x2000;
   Reg VIRTIO_QueueDeviceLow 0x3000; Reg VIRTIO_QueueReady 1; Reg VIRTIO_Status 15].
Definition request (op nodeid inlen outlen : Z) (body : list Z) : list drv :=
  [Mem 0x1000 [0x4000; 0; 40; 0x10001;  0x5000; 0; inlen; 0x20001;  0x6000; 0; 16; 0x30003;  0x7000; 0; outlen; 2];
   Mem 0x4000 [40 + inlen; op; 77; 0; nodeid; 0]; Mem 0x5000 body].
Definition send (k : Z) : list drv := [Mem 0x2000 [Z.shiftl k 16]; Reg VIRTIO_QueueNotify 1].
Definition sim_chain (inlen outlen : Z) : list virtq_desc :=
  [mk_desc 0x4000 40 1 0; mk_desc 0x5000 inlen 1 0; mk_desc 0x6000 16 3 0; mk_desc 0x7000 outlen 2 0].

(** LOOKUP "f" in the root, GETATTR of the inode it gives, OPEN and READ of it. *)
Definition sim_lookup : M := acts (setup ++ request FUSE_LOOKUP 1 2 128 [0x66] ++ send 1) sim_fs0.
Definition sim_getattr : M := acts (request FUSE_GETATTR 101 16 104 [0; 0]) sim_lookup.
Definition sim_read : M :=
  acts (send 2 ++ request FUSE_OPEN 101 8 16 [0; 0] ++ send 3 ++ request FUSE_READ 101 40 16 [4; 0; 0; 0; 16; 0]) sim_getattr.

Lemma fs_acts_reach l : forall s, fs_reach p_root s -> fs_reach p_root (acts l s).
Proof.
  induction l as [|a l IH]; intros s H; [done|]. apply (IH (act a s)). destruct a; [by apply fsr_write|by apply fsr_ram].
Qed.
Lemma sim_fs0_reach : fs_reach p_root sim_fs0.
Proof. by apply (fsr_init p_root sim_power_on [109]). Qed.

(** The session: what the driver finds in memory. *)
Example sim_fs_session :
  inode_map (dev sim_lookup) = [mk_inode 101 p_file; mk_inode 1 p_root] /\
  fld64 sim_lookup 0x7000 = 101 /\ rd32 sim_lookup 0x3000 = Z.shiftl 1 16 /\ rd32 sim_lookup 0x3008 = 144 /\
  fld64 (acts (send 4) sim_read) 0x6000 = 16 + 3 /\ rd32 (acts (send 4) sim_read) 0x7000 = 0x00216948.
Proof. vm_compute. repeat split. Qed.

(** ** Witnesses *)

Lemma fs_getattr_exact_witness :
  fst (virtio_fs_getattr_handler (sim_chain 16 104) sim_getattr) = 120 /\
  read_attr (snd (virtio_fs_getattr_handler (sim_chain 16 104) sim_getattr)) 0x7010 = sim_stat 101 3 0x81A4.
Proof.
  pose proof (fs_getattr_exact (sim_chain 16 104) sim_getattr) as T. cbv zeta in T.
  destruct T as [_ T]; [by apply ram_ok_check; vm_compute|vm_compute; reflexivity|vm_compute; reflexivity|vm_compute; left; congruence|].
  assert (Ep : target_path (fld64 sim_getattr (d_addr (desc_at (sim_chain 16 104) 0) + IN_nodeid)) sim_getattr = Some (Some p_file))
    by (vm_compute; reflexivity). rewrite Ep in T.
  assert (Es : fst (fs_stat (Some p_file) (fs_host (dev sim_getattr))) = inr (sim_stat 101 3 0x81A4)) by (vm_compute; reflexivity).
  rewrite Es in T. destruct T as (T1 & _ & _ & _ & T2). split; [exact T1|].
  assert (Ea : d_addr (desc_at (sim_chain 16 104) 3) + 16 = 0x7010) by (vm_compute; reflexivity). rewrite Ea in T2.
  assert (Ew : wire_stat (sim_stat 101 3 0x81A4) = sim_stat 101 3 0x81A4) by (vm_compute; reflexivity). rewrite <- Ew. exact T2.
Defined.

Lemma fs_read_exact_witness :
  fst (virtio_fs_read_handler (sim_chain 40 16) sim_read) = 19 /\
  rd8 (snd (virtio_fs_read_handler (sim_chain 40 16) sim_read)) 0x7001 = 105.
Proof.
  pose proof (fs_read_exact (sim_chain 40 16) sim_read) as T. cbv zeta in T.
  destruct T as [_ T]; [by apply ram_ok_check; vm_compute|vm_compute; reflexivity|vm_compute; reflexivity|vm_compute; reflexivity
                       |vm_compute; left; congruence|].
  rewrite sim_malloc in T.
  assert (Ep : fst (fs_pread (s32 (fld64 sim_read (d_addr (desc_at (sim_chain 40 16) 1))))
     (fld32 sim_read (d_addr (desc_at (sim_chain 40 16) 1) + 16)) (s64 (fld64 sim_read (d_addr (desc_at (sim_chain 40 16) 1) + 8)))
     (fs_host (dev sim_read))) = inr [72; 105; 33]) by (vm_compute; reflexivity). rewrite Ep in T.
  destruct T as (T1 & _ & _ & T2). 
  assert (Ea : d_addr (desc_at (sim_chain 40 16) 3) + 1 = 0x7001) by (vm_compute; reflexivity).
  assert (Ek : 0 <= 1 < Z.of_nat (length [72; 105; 33])) by (vm_compute; split; congruence).
  assert (El : 16 + Z.of_nat (length [72; 105; 33]) = 19 /\ arr_get 0 [72; 105; 33] 1 = 105) by (vm_compute; split; reflexivity).
  rewrite (proj1 El) in T1. specialize (T2 1 Ek). rewrite Ea, (proj2 El) in T2. split; [exact T1|exact T2].
Defined.


(** ** Leaving the shared directory *)

(** LOOKUP "..", LOOKUP "x" in what it gives, OPEN and READ. *)
Definition sim_escape : M :=
  acts (setup ++ request FUSE_LOOKUP 1 3 128 [0x2e2e] ++ send 1 ++ request FUSE_LOOKUP 99 2 128 [0x78] ++ send 2
        ++ request FUSE_OPEN 98 8 16 [0; 0] ++ send 3 ++ request FUSE_READ 98 40 16 [4; 0; 0; 0; 16; 0] ++ send 4) sim_fs0.


(** ** Directory entries *)

(** OPENDIR of the root, and READDIRPLUS with a reply buffer of 8 bytes. *)
Definition sim_readdir : M :=
  acts (setup ++ request FUSE_OPENDIR 1 8 16 [0; 0] ++ send 1
        ++ request FUSE_READDIRPLUS 1 40 8 [1; 0] ++ send 2) sim_fs0.

(** The reply is 288 bytes long whatever the length of the buffer, and the directory
    entry starts 256 bytes into it, where [struct fuse_direntplus] has it at 128: the
    protocol's place for the length of the name holds zero. *)
Theorem fs_readdirplus_layout :
  dir_handles (dev sim_readdir) !! 1 = Some (mk_dirh 1 p_root) /\ rd32 sim_readdir 0x3010 = 16 + 288 /\
  fld64 sim_readdir 0x7000 = 101 /\ fld64 sim_readdir (0x7000 + 128) = 0 /\ fld32 sim_readdir (0x7000 + 128 + 16) = 0 /\
  fld64 sim_readdir (0x7000 + 256) = 101 /\ fld32 sim_readdir (0x7000 + 256 + 16) = 1 /\ rd8 sim_readdir (0x7000 + 256 + 24) = 102.
Proof. vm_compute. repeat split. Qed.
