(* ===== verification/SimSnd.v ===== *)
(** * A concrete sound session

    A host without failures and a driver that sets up the control and the TX queue,
    prepares and starts the stream, and sends PCM messages of eight bytes. *)

From stdpp Require Import base gmap list relations.
From Stdlib Require Import ZArith Lia Bool.
From S2P Require Import Prelude Isa Hart Machine Tlb Loops Device Virtio VirtioProps DmaProps Emulator VirtioSnd SndProps.
Open Scope Z_scope.

#[export] Instance sim_sndhost : SndHost unit := {
  pa_open _ _ _ _ e := ((0, Some 1), e); pa_start _ e := (0, e); pa_stop _ e := (0, e); pa_close _ e := (0, e);
  pa_initialize e := (0, e); pa_terminate e := e; thread_create e := (0, e); snd_malloc _ e := (true, e) }.

Abbreviation M := (machine (snd_dev unit)).

(** The driver, the TX thread and PortAudio's thread, each for one step. *)
Inductive drv := Reg (r value : Z) | Mem (off : Z) (words : list Z) | Tx | Call (frames : Z) | Cb.
Fixpoint put_words (off : Z) (words : list Z) (m : gmap Z Z) : gmap Z Z :=
  match words with
  | [] => m
  | w :: words => put_words (off + 4) words (<[off / 4 := w]> m)
  end.
Definition act (a : drv) (s : M) : M :=
  match a with
  | Reg r value => virtio_snd_write (Z.shiftl r 2) RV_MEM_SW value s
  | Mem off words => s <| ram := put_words off words (ram s) |>
  | Tx => tx_step s
  | Call frames => match cb_at (dev s) with C_idle => virtio_snd_stream_cb frames s | _ => s end
  | Cb => snd (cb_step s)
  end.
Definition acts (l : list drv) (s : M) : M := foldl (flip act) s l.

Definition sim_power_on : M := mk_machine (new_hart 0) [new_hart 0] ∅ 0x7f0000000000 false true 0 (snd_static tt).
Definition sim_snd0 : M := snd (virtio_snd_init sim_power_on).

Definition queue_setup (sel desc avail used : Z) : list drv :=
  [Reg VIRTIO_QueueSel sel; Reg VIRTIO_QueueNum 4; Reg VIRTIO_QueueDescLow desc; Reg VIRTIO_QueueDriverLow avail;
   Reg VIRTIO_QueueDeviceLow used; Reg VIRTIO_QueueReady 1].
Definition setup : list drv :=
  queue_setup 0 0x1000 0x2000 0x3000 ++ queue_setup 2 0x1100 0x2100 0x3100 ++
  [Reg VIRTIO_Status 15; Mem 0x1000 [0x4000; 0; 24; 0x10001;  0x5000; 0; 4; 0x20003;  0x6000; 0; 64; 2]].
(** The [k]-th control request. *)
Definition control (k code : Z) (fields : list Z) : list drv :=
  [Mem 0x4000 (code :: fields); Mem 0x2000 [Z.shiftl k 16]; Reg VIRTIO_QueueNotify 0].
(** SET_PARAMS for one channel at 8 kHz, PREPARE. *)
Definition prepare : list drv :=
  control 1 VIRTIO_SND_R_PCM_SET_PARAMS [0; 16; 8; 0; 0x00010501] ++ control 2 VIRTIO_SND_R_PCM_PREPARE [0].
(** Two PCM messages, of the bytes 1..8 and 9..16. *)
Definition two_messages : list drv :=
  [Mem 0x1100 [0x7000; 0; 4; 0x10001;  0x7100; 0; 8; 0x20001;  0x7200; 0; 8; 2;
               0x7000; 0; 4; 0x40001;  0x7110; 0; 8; 0x50001;  0x7210; 0; 8; 2];
   Mem 0x7000 [0]; Mem 0x7100 [0x04030201; 0x08070605]; Mem 0x7110 [0x0c0b0a09; 0x100f0e0d];
   Mem 0x2100 [Z.shiftl 2 16; Z.shiftl 3 16]; Reg VIRTIO_QueueNotify 2].

(** The first message is queued, the second waits. *)
Definition sim_playing : M :=
  acts (setup ++ prepare ++ control 3 VIRTIO_SND_R_PCM_START [0] ++ two_messages ++ replicate 14 Tx) sim_snd0.

Lemma snd_acts_reach l : forall s, snd_reach s -> snd_reach (acts l s).
Proof.
  induction l as [|a l IH]; intros s H; [done|]. apply (IH (act a s)). destruct a as [r v|off w| |n|]; cbn [act].
  - apply (sr_step s); [done|apply st_write].
  - apply (sr_step s); [done|apply st_ram].
  - apply (sr_step s); [done|apply st_tx].
  - destruct (cb_at (dev s)) eqn:Hc; [|done]. apply (sr_step s); [done|by apply st_call].
  - apply (sr_step s); [done|apply st_cb].
Qed.
Lemma sim_snd0_reach : snd_reach sim_snd0.
Proof. by apply (sr_init sim_power_on tt). Qed.
Lemma sim_playing_reach : snd_reach sim_playing.
Proof. apply snd_acts_reach, sim_snd0_reach. Qed.

(** ** Witnesses *)


(** A callback for three frames. *)
Definition sim_callback : M := acts [Call 3] sim_playing.

Lemma snd_no_lost_wakeup_witness :
  (exists m a l nodes, tx_at (dev sim_playing) = T_enq true m a l nodes) /\ releasing (lock (s_props sim_playing)) = false.
Proof.
  assert (E1 : exists m a l nodes, tx_at (dev sim_playing) = T_enq true m a l nodes) by (vm_compute; repeat eexists).
  split; [exact E1|]. destruct (snd_no_lost_wakeup sim_playing sim_playing_reach) as (_ & T & _).
  destruct E1 as (m & a & l & nodes & E1). exact (T m a l nodes E1).
Defined.

(** ** Races *)

(** The driver stops and releases the stream while the second message waits; then
    the TX thread runs on. *)
Definition sim_released : M :=
  acts (control 4 VIRTIO_SND_R_PCM_STOP [0] ++ control 5 VIRTIO_SND_R_PCM_RELEASE [0]) sim_playing.
Definition sim_overrun : M := acts (replicate 7 Tx) sim_released.

(** The release of a stream answers the pending messages from the emulator's thread
    while the TX thread still works on one of them. It does not see the used index
    the TX thread has not published, so the first message's completion is
    overwritten; and the TX thread completes its message a second time, moves past
    the index the driver has published and goes on to play buffers the driver has
    not made available. *)
Theorem snd_release_race :
  snd_reach sim_overrun /\
  (* one completion is published for two messages, and it is the second message *)
  rd32 sim_playing 0x3104 = 0 /\ rd32 sim_released 0x3100 = Z.shiftl 1 16 /\ rd32 sim_released 0x3104 = 3 /\
  rd32 sim_released 0x7200 = VIRTIO_SND_S_OK /\ rd32 sim_released 0x7210 = VIRTIO_SND_S_OK /\
  (* the driver made two messages available *)
  rd32 sim_overrun 0x2100 = Z.shiftl 2 16 /\ last_avail (squeue sim_overrun 2) = 3 /\
  exists m d nodes, tx_at (dev sim_overrun) = T_node m (d :: nodes) /\ buffer_idx m = 0 /\ new_avail m = 2.
Proof. split; [apply snd_acts_reach, snd_acts_reach, sim_playing_reach|]. vm_compute. split_and!; try done. by repeat eexists. Qed.

Lemma tx_asleep (s : M) m a l nodes : tx_at (dev s) = T_enq true m a l nodes -> tx_step s = s.
Proof. unfold tx_step. by intros ->. Qed.
Lemma cb_asleep (s : M) n id : cb_at (dev s) = C_deq true n id -> cb_step s = (None, s).
Proof. unfold cb_step. by intros ->. Qed.

(** A second PREPARE while the TX thread sleeps. *)
Definition sim_prepared_twice : M :=
  acts (setup ++ prepare ++ two_messages ++ replicate 14 Tx ++ control 3 VIRTIO_SND_R_PCM_PREPARE [0] ++ [Call 4; Cb]) sim_snd0.

(** PREPARE resets the message count without waking the TX thread: the two threads
    sleep, each waiting for the other. *)
Theorem snd_prepare_deadlock :
  snd_reach sim_prepared_twice /\ buf_ev_notify (lock (s_props sim_prepared_twice)) = 0 /\
  (exists m a l nodes, tx_at (dev sim_prepared_twice) = T_enq true m a l nodes) /\
  (exists n id, cb_at (dev sim_prepared_twice) = C_deq true n id) /\
  tx_step sim_prepared_twice = sim_prepared_twice /\ cb_step sim_prepared_twice = (None, sim_prepared_twice).
Proof.
  split; [apply snd_acts_reach, sim_snd0_reach|].
  assert (E1 : exists m a l nodes, tx_at (dev sim_prepared_twice) = T_enq true m a l nodes) by (vm_compute; repeat eexists).
  assert (E2 : exists n id, cb_at (dev sim_prepared_twice) = C_deq true n id) by (vm_compute; repeat eexists).
  split; [vm_compute; reflexivity|]. split; [exact E1|]. split; [exact E2|].
  destruct E1 as (m & a & l & nodes & E1). destruct E2 as (n & id & E2).
  exact (conj (tx_asleep _ _ _ _ _ E1) (cb_asleep _ _ _ E2)).
Qed.

(** A request in the wrong state has no effect and is answered with success. *)
Theorem snd_bad_state_ok :
  let s := acts (setup ++ control 1 VIRTIO_SND_R_PCM_START [0]) sim_snd0 in
  code_of s = VIRTIO_SND_R_PCM_SET_PARAMS /\ rd32 s 0x5000 = VIRTIO_SND_S_OK /\ faults (dev s) = [].
Proof. vm_compute. repeat split. Qed.
