(* ===== verification/SimWindow.v ===== *)
(** * A concrete SDL, and a session of the window on it

    Objects are numbered, a texture keeps what was uploaded last; the host refuses
    frames wider than [4096]. *)

From stdpp Require Import base gmap list relations.
From Stdlib Require Import ZArith Lia Bool.
From S2P Require Import Prelude InputCodes InputEvent Ring VgpuDisplay VgpuConc VgpuProps Window WindowProps SimInput.
Open Scope Z_scope.

Record sdl_host := mk_sdl_host {
  sh_windows : gset Z; sh_renderers : gset Z; sh_textures : gset Z; sh_images : gmap Z (list Z * Z) }.

Definition sh_live (k : sdl_kind) (w : sdl_host) : gset Z :=
  match k with KWindow => sh_windows w | KRenderer => sh_renderers w | KTexture => sh_textures w end.
Definition sh_set (k : sdl_kind) (x : gset Z) (w : sdl_host) : sdl_host :=
  match k with
  | KWindow => mk_sdl_host x (sh_renderers w) (sh_textures w) (sh_images w)
  | KRenderer => mk_sdl_host (sh_windows w) x (sh_textures w) (sh_images w)
  | KTexture => mk_sdl_host (sh_windows w) (sh_renderers w) x (sh_images w)
  end.
Definition sh_create (k : sdl_kind) (w : sdl_host) : Z * sdl_host :=
  let x := fresh (sh_live k w ∪ {[0]}) in (x, sh_set k ({[x]} ∪ sh_live k w) w).
Definition sh_destroy (k : sdl_kind) (x : Z) (w : sdl_host) : sdl_host := sh_set k (sh_live k w ∖ {[x]}) w.

#[export] Instance sim_window_sdl : Sdl sdl_host := {
  scancode := @scancode unit _; KMOD_CTRL := 192; KMOD_ALT := 768;
  SDL_BUTTON_LEFT := 1; SDL_BUTTON_MIDDLE := 2; SDL_BUTTON_RIGHT := 3;
  sdl_wait_event w := (None, w); sdl_poll_event w := (None, w);
  sdl_set_relative_mouse_mode _ w := (true, w); sdl_set_window_grab _ w := w; sdl_show_cursor _ w := w }.

#[export] Instance sim_video : SdlVideo sdl_host := {
  SDL_PIXELFORMAT_ARGB8888 := 1; SDL_PIXELFORMAT_XRGB8888 := 2;
  SDL_PIXELFORMAT_BGRA8888 := 3; SDL_PIXELFORMAT_BGRX8888 := 4;
  SDL_PIXELFORMAT_ABGR8888 := 5; SDL_PIXELFORMAT_XBGR8888 := 6;
  SDL_PIXELFORMAT_RGBA8888 := 7; SDL_PIXELFORMAT_RGBX8888 := 8;
  sdl_init_video w := (true, w);
  sdl_quit w := mk_sdl_host ∅ ∅ ∅ ∅;
  sdl_create_window _ _ w := sh_create KWindow w;
  sdl_destroy_window x w := sh_destroy KWindow x w;
  sdl_create_renderer _ software w := if software then sh_create KRenderer w else (0, w);
  sdl_destroy_renderer x w := sh_destroy KRenderer x w;
  sdl_set_render_draw_color _ w := w;
  sdl_create_texture _ _ width _ w := if 4096 <? width then (0, w) else sh_create KTexture w;
  sdl_set_texture_blend_mode _ w := w;
  sdl_update_texture t px pitch w :=
    (true, mk_sdl_host (sh_windows w) (sh_renderers w) (sh_textures w) (<[t := (px, pitch)]> (sh_images w)));
  sdl_destroy_texture x w := sh_destroy KTexture x w }.

Lemma sh_live_set k k' x w : sh_live k' (sh_set k x w) = if decide (k' = k) then x else sh_live k' w.
Proof. by destruct k, k'. Qed.

Lemma sh_images_set k x w : sh_images (sh_set k x w) = sh_images w.
Proof. by destruct k. Qed.

Lemma sh_create_creates k w : let '(x, w') := sh_create k w in creates sh_live k x w w'.
Proof.
  unfold sh_create. right. pose proof (is_fresh (sh_live k w ∪ {[0]})) as F. apply not_elem_of_union in F as [F1 F2].
  split_and!; [set_solver|done|by rewrite sh_live_set, decide_True|].
  intros k' Hk. by rewrite sh_live_set, decide_False.
Qed.

#[export, refine] Instance sim_video_laws : SdlVideoLaws sdl_host := {
  live := sh_live; texture_image w t := default ([], 0) (sh_images w !! t) }.
Proof.
  - intros a b w. apply (sh_create_creates KWindow).
  - intros a [] w; [apply (sh_create_creates KRenderer)|by left].
  - intros r f a b w. cbn. destruct (_ <? _); [split; [by left|done]|]. by split; [apply (sh_create_creates KTexture)|].
  - intros t w. cbn. split_and!; [done|by intros []|done].
  - intros r w. cbn. split_and!; done.
  - intros x w. cbn. split_and!; done.
  - intros t px pitch w. cbn. split_and!; [by intros []| |]; intros; by rewrite ?lookup_insert_eq, ?lookup_insert_ne.
  - done.
  - intros k w. destruct k; apply empty_subseteq.
  - intros k w. by split_and!.
Defined.

(** A window, then a frame and a cursor from the guest. *)
Definition sim_window0 : window_st sdl_host :=
  mk_window (mk_vhost (replicate 2 zero_cmdq) false 3 0 false false false false) false
    (one_scanout zero_scanout_info) (vgpu_display_set_scanout_count 1 display_init) [] (mk_sdl_host ∅ ∅ ∅ ∅).

Definition sim_published : vgpu_display :=
  let d := vgpu_display_set_scanout_count 1 display_init in
  let '(p1, d) := payload_new (mk_payload 2 2 1 8 32 [1; 2; 3; 0; 4; 5; 6; 0]) d in
  let d := vgpu_display_publish_primary_set 0 p1 d in
  let '(p2, d) := payload_new (mk_payload 2 1 1 4 32 [7; 8; 9; 255]) d in
  let d := vgpu_display_publish_cursor_set 0 p2 10 20 3 4 d in
  vgpu_display_publish_cursor_move 0 11 21 d.

Definition sim_window1 : window_st sdl_host := default sim_window0 (window_init_sw false 1024 768 sim_window0).
Definition sim_window2 : window_st sdl_host := sim_window1 <| ws_disp := sim_published |>.
Definition sim_window3 : window_st sdl_host := default sim_window0 (window_drain_display_queue sim_window2).

(** The frame fills the window, the cursor, with an alpha-capable format, is over it
    at the place of the move. *)
Example sim_window_draws : ws_draws sim_window3 =
  [SDL_RenderClear 1; SDL_RenderPresent 1;
   SDL_RenderClear 1; SDL_RenderCopy 1 1 None; SDL_RenderCopy 1 2 (Some (mk_rect 8 17 1 1)); SDL_RenderPresent 1] /\
  pi_sdl_format (cursor_plane (scanout_at sim_window3 0)) = SDL_PIXELFORMAT_ARGB8888.
Proof. vm_compute. split; reflexivity. Qed.

Lemma sim_bridges_ready : bridge_ready (ws_disp sim_window0) /\ bridge_ready sim_published.
Proof.
  split; (split; [constructor; [vm_compute; repeat split; congruence|intros []; vm_compute; reflexivity|vm_compute; split; congruence]|]).
  - apply (bool_decide_unpack (Forall (fun c => 0 <= dc_scanout_id c < 16) (dcontents (ws_disp sim_window0)))).
    vm_compute. exact I.
  - apply (bool_decide_unpack (Forall (fun c => 0 <= dc_scanout_id c < 16) (dcontents sim_published))).
    vm_compute. exact I.
Qed.

Lemma sim_window_reach : window_reach sim_window3.
Proof.
  exists sim_window0, false, 1024, 768, sim_window1. split_and!.
  - split_and!; [done|by intros []|apply sim_bridges_ready].
  - vm_compute. reflexivity.
  - apply rtc_l with sim_window2.
    + exact (step_emulator sim_window1 (ws_host sim_window1) sim_published (proj2 sim_bridges_ready)).
    + apply rtc_once, step_round. vm_compute. reflexivity.
Qed.

Lemma window_resources_witness : held KTexture sim_window3 = [1; 2] /\
  exists s', window_cleanup_sw sim_window3 = Some s' /\ pristine s'.
Proof.
  split; [vm_compute; reflexivity|].
  destruct (window_resources sim_window3 sim_window_reach) as (_ & _ & _ & s' & E & F & _).
  exists s'. exact (conj E F).
Defined.

Lemma window_drain_refines_witness : exists s' xs dirty, window_drain_display_queue sim_window2 = Some s' /\
  length (dcontents (ws_disp sim_window2)) = 3%nat /\ evolves xs (replicate 16 false) sim_window2 dirty s'.
Proof.
  destruct (window_init_ok false 1024 768 sim_window0) as (s1 & E & I & _).
  { split_and!; [done|by intros []|apply sim_bridges_ready]. }
  assert (E1 : s1 = sim_window1) by (unfold sim_window1; by rewrite E). subst s1.
  destruct (window_drain_refines sim_window2 (window_inv_disp _ _ I) (proj2 sim_bridges_ready))
    as (s' & xs & dirty & draws & A & _ & _ & _ & B & _).
  exists s', xs, dirty. split; [exact A|]. split; [vm_compute; reflexivity|exact B].
Defined.
