(* ===== verification/SimFull.v ===== *)
(** * The whole platform on a concrete host

    Every device as its own concrete session starts it, on one machine. *)

From stdpp Require Import base gmap list relations.
From Stdlib Require Import ZArith Lia Bool.
From S2P Require Import Prelude Isa Hart Machine Loops Device Virtio Platform VirtioInput GpuDefs VirtioFs VirtioSnd VirtioNet.
From S2P Require Import Arch Timer Emulator Boot Window WindowProps Full FullProps FullBus FullBoot.
From S2P Require Import Sim SimInput SimNet SimGpu SimFs SimSnd SimWindow.
Open Scope Z_scope.

Abbreviation M := (machine (full_dev sim_host sim_net unit (list (list Z)) unit)).

Definition sim_full0 : M :=
  mk_machine (new_hart 0) [new_hart 0] ∅ 0x7f0000000000 false true 0
    (mk_full (dev sim2) (dev sim_net0) (dev sim_snd0) (dev sim_fs0) (dev sim_input0) (dev sim_gpu0)).

(** A word stored by the processor. *)
Definition sim_store (addr value : Z) (s : M) : M := default s (full_mem_store 10 addr RV_MEM_SW value s).

(** The driver of virtio-gpu sets DRIVER_OK, then selects a queue that does not exist. *)
Definition sim_asks : M := sim_store 0xF4B00030 9 (sim_store 0xF4B00070 4 sim_full0).

Lemma sim_full0_down : lines_down (dev sim_full0).
Proof. intros l. destruct l; vm_compute; split; reflexivity. Qed.

Lemma sim_store_step addr value s : full_mem_store 10 addr RV_MEM_SW value s <> None -> bus_step s (sim_store addr value s).
Proof.
  unfold sim_store. destruct (full_mem_store _ _ _ _ s) as [s'|] eqn:E1; [|done]. intros _. by eapply step_store.
Qed.


(** The magic value of virtio-gpu through the bus. *)
Lemma full_implements_bus_witness :
  @BusLaws (full_dev sim_host sim_net unit (list (list Z)) unit) (full_bus 10) /\
  fst (@mem_load _ (full_bus 10) 0xF4B00000 RV_MEM_LW sim_full0) = Some 0x74726976.
Proof. split; [exact (full_implements_bus 10)|vm_compute; reflexivity]. Defined.

(** ** Start-up *)

(** The options of [sim_args], a TAP device and a window. *)
Abbreviation sim_full_boot :=
  (full_init false (sim_args ++ [(110, [116; 97; 112])]) true (Some (5, 6)) true true (fun _ => (true, true, true))
    (mk_tstatic (double_of 0) (double_of 0) 0 0 true) 0 (mk_sim [] [] 5000 false) (mk_simnet [] []) tt ([] : list (list Z)) tt
    (mk_sdl_host ∅ ∅ ∅ ∅)).

Lemma sim_full_ok : is_booted sim_full_boot = true /\
  match sim_full_boot with inr b => fb_wake_fd b | inl _ => (-1, -1) end = (5, 6).
Proof. vm_compute. split; reflexivity. Qed.

Lemma full_boot_witness : exists b, sim_full_boot = inr b /\ fb_wake_fd b = (5, 6) /\ lines_down (dev (fb_machine b)) /\
  window_inv (fb_window b).
Proof.
  destruct (booted_inr sim_full_boot (proj1 sim_full_ok)) as [b Hb]. exists b. split; [exact Hb|].
  pose proof (proj2 sim_full_ok) as H0. rewrite Hb in H0. split; [exact H0|].
  assert (L : forall k, live k (mk_sdl_host ∅ ∅ ∅ ∅) = ∅) by (intros []; reflexivity).
  destruct (full_boot _ _ _ _ _ _ _ _ _ _ _ _ _ _ _ b Hb L) as (_ & H1 & H2 & _). split; [exact H1|exact H2].
Defined.
